(* ===== verification/_CoqProject ===== *)
-Q . S2P
Prelude.v
Encoding.v
Errors.v
Xdr.v
ModelSDK.v
Runtime.v
Examples.v
Clone.v
Address.v
Signers.v
Threshold.v
Retry.v
Chain.v
Limits.v
Arm.v
Json.v
JsonText.v
Canonical.v
CanonicalRoundtrip.v
CanonicalScan.v
CanonicalText.v
CanonicalReads.v
CanonicalTextRoundtrip.v
Preimage.v
Upgrade.v
SignerTest.v
Nodes.v
Inspect.v
Risk.v
Diff.v
CredentialNodes.v
Delegates.v
Planner.v
Authorize.v
Coordinator.v
Wrappers.v
Invocation.v
Verify.v
Workers.v
Batch.v
Envelope.v
Cbor.v
Secp256r1.v
WebAuthn.v
Possession.v
Attestation.v
Policy.v
Ledger.v
Remote.v
TreeRender.v
Vault.v
Frost.v
RpcFlow.v
Custody.v
WalletSDK.v
CliSpec.v
Cli.v
ExecSigner.v
CliCommands.v
ExplainError.v
CliTools.v
CliSubmit.v
Tui.v
Bindings.v
VerifyService.v
Grpc.v
