(* ===== verification/Prelude.v ===== *)
(** * soroauth-go: a verification development

    soroauth-go signs, checks and transports Soroban authorization entries: an
    entry names an account or contract, a nonce, an expiration ledger, a tree
    of contract calls it permits, and holds the signatures that make the
    permission count.  This library models the Go package [soroauth]
    (src/*.go) as Rocq functions and proves what makes it correct.

    ** How the program fits together

    An entry is decoded under limits ([Limits]), its credential arm decides
    which fields exist and whether the address is signed over ([Arm]), its
    preimage and payload hash are what a signer signs ([Preimage]), its
    signature fields are found by a walk over the delegate tree ([Nodes],
    [CredentialNodes]), and [AuthorizeEntry] puts a signer's answer on the
    nodes of one address ([Authorize]).  Signers are values with an address and
    a Sign function ([Runtime]); the library ships key-pair, multi-signature,
    passkey and retrying signers ([Signers], [Retry], [WebAuthn]), fallback and
    quorum chains ([Chain]), threshold sessions ([Threshold], [Frost]), devices
    and services ([Ledger], [Vault], [Custody], [Remote], [ExecSigner]), rules
    in front of a signer ([Policy]) and wrappers that pin a network or cache an
    address ([Wrappers]).  Batches sign or verify many entries, in order or by
    concurrent workers ([Batch], [Workers]); [Envelope] does so for the entries
    of a transaction and [RpcFlow] prices and sends it.  [Delegates] and
    [Planner] build delegate trees and [Coordinator] follows their signing;
    [Upgrade] moves a legacy entry to the address-bound arm, [Invocation]
    builds and signs an entry from a call tree, [Verify] checks the signatures
    of an entry offline, [Inspect], [Risk], [Diff] and [TreeRender] report on
    it, and [Canonical] writes an entry as a document and reads it back.

    Around the library are its programs: the command line ([CliSpec], [Cli],
    [CliCommands], [CliTools], [CliSubmit], [ExplainError]), the interactive
    inspector ([Tui]), the C and WebAssembly interfaces ([Bindings]), an HTTP
    and a gRPC service ([VerifyService], [Grpc]) and the wallet adapter
    ([WalletSDK]).  They call the library's definitions as the code calls its
    functions, so their theorems are about the composition: what a successful
    exit, a streamed line or a response says about the entry it names.

    ** Conventions

    - Go's [(T, error)] is [result T]; an error value is a tree of texts,
      sentinels and wrapped errors ([Errors]), so [errors.Is] and [errors.As]
      are functions on it and a refusal's identity can be stated.  A refused
      call's other results, which callers must not read, are not modelled.
    - A function that calls a signer, a hook, a clock or a random source is in
      the monad [IO] of [Runtime]: it threads a [World] that holds the log of
      such calls and the time, and may be cancelled by a [Ctx].  Signers and
      hooks are arbitrary functions of that type; theorems that need them to
      leave the log alone say so.
    - Pointers to signature fields are paths into the entry ([Nodes.NodePtr]);
      writing through one is [writeSignature].  Copies are values.
    - uint32, int64 and uint64 are [Z] with the range stated where it matters
      and the wrap-around written out where the code computes ([wrap_u32],
      [newNonce], [ExpirationAfter], the backoff of [Retry]).
    - The go-stellar-sdk (XDR codec, strkey, SHA-256, ed25519) is a type class
      [SDK] with the documented facts used as [SDKLaws] ([Xdr]): encodings are
      injective and decode to what was encoded, strkey texts and keys are in
      bijection.  Nothing is assumed of the hash; theorems about payloads speak
      of preimages or of hashes of preimages.  [ModelSDK] is a computable
      instance, so that each witness runs the program on concrete data
      ([Examples]) and the laws are seen to be satisfiable.
    - Goroutines of a batch write disjoint slots; [Workers.runSlots] runs them
      in an arbitrary order and the theorems quantify over it.  Where threads
      share more than that, a relation interleaves their steps
      ([VerifyService.service_step], [Tui.tui_step]) and the invariant is over
      every run.  A mutex is a call sequence ([Threshold], [Coordinator],
      [Invocation]); objects that several holders change are pointers into a
      store ([Frost]).
    - What a component needs of code outside the repository is a class of that
      component: [Envelope.EnvelopeSDK], [Secp256r1.ECDSA],
      [WebAuthn.WebAuthnJSON], [Attestation.X509], [Remote.RemoteJSON],
      [Vault.NetURL], [Vault.VaultJSON], [Frost.FrostGroup], [Frost.FrostLib],
      [RpcFlow.TxnBuild], [Custody.CustodyLib], and for the programs
      [Cli.CliLib], [ExecSigner.ExecLib], [CliCommands.ReportLib],
      [CliTools.ToolLib], [CliSubmit.SubmitLib], [Tui.TuiLib],
      [Bindings.BindingLib], [VerifyService.ServiceLib].  Laws, where a theorem
      needs any, are a second class ([SDKLaws], [ECDSALaws], [RemoteJSONLaws]);
      each class has an instance beside the witnesses.
    - [Custody.AccountSigner] is the promise a signer makes to the rest of the
      library: what it returns is one account signature that verifies.  Each of
      the four custody signers discharges it and the theorem about them is
      proved against it.
    - What a program prints is in the log of the [World], a line or a stream
      write per event, and its exit status is the error it returns.

    ** The files

    - [Prelude] bytes, byte-string order, Go's sort by a key, machine integers,
      shared tactics.  [Encoding] strconv, hex, base64 and UTF-8 of the
      standard library with their round trips.  [Errors] errors.go.
    - [Xdr], [ModelSDK], [Runtime] (hooks.go, the Signer interface),
      [Examples].  [Clone] equal.go: the exported copy refuses every entry.
    - [Address] address.go: [ParseAddress] and [FormatAddress] are inverse.
    - [Signers], [Retry] signer.go: what a returned signature was checked
      against, in which shape it is, how often a retried signer is asked.
    - [Chain] chain.go: the attempts a fallback or quorum chain records, as an
      inductive relation of the runs; how a quorum ends, from what its signers
      answered.
    - [Threshold] threshold.go: the session invariant over call sequences.
    - [Limits] decode.go, expiration.go: the limits in force; no overflow.
    - [Arm] arm.go, [Preimage] preimage.go: the preimage determines what was
      signed; a legacy and an address-bound preimage are never the same.
    - [Json], [JsonText] encoding/json of the standard library: values, the
      tokens of a text, the decoder's states, what Marshal writes; a printed
      value's tokens are the value's, and parse to it.
    - [Canonical], [CanonicalRoundtrip] canonical.go: the document of an entry
      and back.  [CanonicalScan] the walk for repeated keys accepts exactly the
      texts of one value that has none.  [CanonicalText], [CanonicalReads],
      [CanonicalTextRoundtrip] the text of a document: it decodes to the entry
      exactly when no byte string in the entry is empty.
    - [SignerTest] signertest/: the conformance suite against any
      implementation of the Signer interface; it passes exactly when the calls
      it makes keep its rules, so a signer that keeps the interface's contract
      is never failed.
    - [Nodes], [CredentialNodes], [Delegates], [Planner], [Upgrade].
    - [Authorize] authorize.go: the guards, the trace of effects, completeness,
      and that the signed payload is the payload of the returned entry.
    - [Wrappers] network_pinned_signer.go, signer_cache.go.
    - [Invocation] invocation.go, noncetracker.go.
    - [Verify] verify.go: a report is sound and complete, node by node, and
      entries [AuthorizeEntry] signed verify.
    - [Batch], [Workers] batch.go, batch_sign.go: every entry is validated
      before any signer is asked; the schedule does not matter.
    - [Coordinator] coordinator.go: the invariant of a collection of
      signatures and what its reports show, with the aliasing of the entry it
      holds.
    - [Inspect], [Risk], [Diff], [TreeRender] inspect.go, risk.go, diff.go,
      treerender.go: the reports are the entry's, node by node; what a report
      says about the payload is compared with the preimages.
    - [Envelope] envelope.go: signing an envelope refines signing the list of
      its entries.
    - [Cbor], [Secp256r1], [WebAuthn], [Attestation], [Possession]
      attestation_cbor.go, secp256r1.go, webauthn.go, attestation.go,
      possession.go: the CBOR reader accepts a grammar, and what an accepted
      assertion, registration or proof was checked against.
    - [Policy] policy/: which preimages the rules let through.
    - [Ledger], [Remote], [Vault], [Frost], [Custody] ledger.go, remote/,
      vault.go, frost/, turnkey/, fireblocks/, adapters/awskms, adapters/gcpkms:
      the protocols, on whatever the other side answers.
    - [RpcFlow] rpcflow/: nothing is sent that was not priced as it is sent.
    - [WalletSDK] adapters/walletsdk: its checks agree with [VerifyEntry].
    - [CliSpec], [Cli], [ExecSigner], [CliCommands], [ExplainError], [CliTools],
      [CliSubmit] cmd/soroauth: the commands from their parsed flags to what
      they print and ask of the RPC, and the dispatcher.
    - [Tui] tui.go: every interleaving of the keys and the signing goroutine.
    - [Bindings] bindings/c, cmd/soroauthwasm: signing in two steps through
      another language is [AuthorizeEntry].
    - [VerifyService], [Grpc] server/, integrations/grpc: counters and bounds
      under any interleaving of requests, and the two services agree.

    ** Fuel and bounds

    Nearly all of the program's functions are structural recursions on entries,
    delegate trees, values and lists, so they need no fuel; the retry loop
    recurses on its number of attempts, which the code clamps, and the CBOR
    reader on its depth and item counts.  The definitions that have fuel are
    these.
    [Ledger.signPreimageLoop] sends a preimage in chunks: its fuel is the
    preimage's length and one more, and [signPreimage_chunks] shows that it never
    runs out.  [Custody.pollLoop] waits for a service and has no bound of its
    own: [waitForSignature_returns] shows that some fuel is enough when the
    select is fair and the clock goes on, so that the timeout of its context
    ends it.  The JSON reader's loops take the length of their input:
    [lex_print], [parse_lexemes] and [rejectDuplicateJSONKeys_values] show that
    it is enough; [decodeDocument] and the decoders below it take the height of
    the tree, which is enough for the document of every entry
    ([document_reads]).  [ModelSDK]'s decoder has 64 levels; that instance refuses to encode
    what it could not read back, so no theorem depends on it.

    ** Not modelled

    - The XDR codec, strkey and the cryptographic primitives, URL texts, JSON
      other than canonical.go's (a parameter of each component that reads or
      writes it), CBOR of attestation chains beyond what is read, the HTTP and gRPC
      transports, the RPC client and the terminal library: code outside the
      repository, parameters of the classes above.  A deep copy ([Xdr.Copy]) is
      a value.
    - Texts: completion scripts, manual pages, usage texts, styles and colours.
    - The doctor report, cross-compilation and the budget of the WebAssembly
      build: they run other programs and report on them.
    - Ownership of C strings and the registration of JavaScript functions.
    - The listeners, signal handling and metrics exposition of the server.
    - Generated clients and messages, fixtures, scripts, corpus generators and
      fuzzing drivers: tooling around the code, not part of what it does.

    ** What could follow

    The decoding policy check of internal/decodepolicy, the configuration of the
    server's main, the contract of [SignerTest] for the other signers, and the
    JSON of the other components on the reader of [Json] instead of their
    classes. *)
From Stdlib Require Import ZArith Lia Strings.Byte String Ascii.
From stdpp Require Import base list strings gmap pretty sorting.

(** ** Scope, abbreviations *)
Declare Scope soroauth_scope.
Delimit Scope soroauth_scope with soroauth.
Open Scope soroauth_scope.

Abbreviation bytes := (list Byte.byte).

(** ** Bytes *)
#[export] Instance byte_eq_dec : EqDecision Byte.byte := Byte.byte_eq_dec.

#[export] Program Instance byte_countable : Countable Byte.byte :=
  inj_countable Byte.to_N Byte.of_N _.
Next Obligation. exact Byte.of_to_N. Qed.

(** The unsigned value of a byte, and the byte of a value modulo 256: Go's
    [byte(x)] conversion. *)
Definition byteZ (b : Byte.byte) : Z := Z.of_N (Byte.to_N b).

Definition Zbyte (z : Z) : Byte.byte :=
  match Byte.of_N (Z.to_N (z mod 256)) with
  | Some b => b
  | None => x00
  end.

Lemma byteZ_range b : (0 <= byteZ b < 256)%Z.
Proof. unfold byteZ. pose proof (Byte.to_N_bounded b). lia. Qed.

Lemma Zbyte_byteZ b : Zbyte (byteZ b) = b.
Proof.
  unfold Zbyte. rewrite Z.mod_small by apply byteZ_range.
  unfold byteZ. rewrite N2Z.id. by rewrite Byte.of_to_N.
Qed.

Lemma byteZ_Zbyte z : byteZ (Zbyte z) = (z mod 256)%Z.
Proof.
  unfold Zbyte, byteZ.
  pose proof (Z.mod_pos_bound z 256 eq_refl) as Hr.
  destruct (Byte.of_N (Z.to_N (z mod 256))) as [b|] eqn:E.
  - apply Byte.to_of_N in E. rewrite E. lia.
  - apply Byte.of_N_None_iff in E. lia.
Qed.

Lemma byteZ_inj a b : byteZ a = byteZ b → a = b.
Proof. intros H. by rewrite <-(Zbyte_byteZ a), H, Zbyte_byteZ. Qed.

(** Go converts freely between [string] and [[]byte]: both are byte
    sequences. *)
Definition bytes_of_string (s : string) : bytes := String.list_byte_of_string s.
Definition string_of_bytes (b : bytes) : string := String.string_of_list_byte b.

(** fmt's [%q], for text with nothing to escape. *)
Definition quoted (s : string) : string :=
  String "034"%char (s ++ String "034"%char EmptyString)%string.

(** The two lower-case hexadecimal digits of a byte ([%02x]). *)
Definition hex_digit (n : Z) : ascii :=
  ascii_of_N (Z.to_N (if (n <? 10)%Z then 48 + n else 87 + n)).
Definition hex_byte (b : Byte.byte) : string :=
  String (hex_digit (byteZ b / 16)) (String (hex_digit (byteZ b mod 16)) EmptyString).
Definition hex_EncodeToString (b : bytes) : string := String.concat EmptyString (map hex_byte b).

Definition newline : string := String "010"%char EmptyString.

Definition nonEmpty (s : string) : bool := negb (bool_decide (s = EmptyString)).

Lemma string_of_bytes_of_string s : string_of_bytes (bytes_of_string s) = s.
Proof. apply String.string_of_list_byte_of_string. Qed.

Lemma bytes_of_string_of_bytes b : bytes_of_string (string_of_bytes b) = b.
Proof. apply String.list_byte_of_string_of_list_byte. Qed.

#[export] Instance string_of_bytes_inj : Inj (=) (=) string_of_bytes.
Proof.
  intros a b H. by rewrite <-(bytes_of_string_of_bytes a), H, bytes_of_string_of_bytes.
Qed.

Lemma str_cons_app a (s t : string) : (String a s +:+ t)%string = String a (s +:+ t).
Proof. reflexivity. Qed.

(** ** Lexicographic comparison: Go's [bytes.Compare] *)
Fixpoint bytes_Compare (a b : bytes) : comparison :=
  match a, b with
  | [], [] => Eq
  | [], _ :: _ => Lt
  | _ :: _, [] => Gt
  | x :: a', y :: b' =>
      match Z.compare (byteZ x) (byteZ y) with
      | Eq => bytes_Compare a' b'
      | c => c
      end
  end.

Definition bytes_Equal (a b : bytes) : bool := bool_decide (a = b).

(** [bytes.Compare(a, b) < 0] *)
Definition bytes_lt (a b : bytes) : bool :=
  match bytes_Compare a b with Lt => true | _ => false end.

Notation "a <ᵇ b" := (bytes_lt a b = true) (at level 70, no associativity) : soroauth_scope.

Lemma bytes_Compare_refl a : bytes_Compare a a = Eq.
Proof. induction a as [|x a IH]; [done|]. cbn. by rewrite Z.compare_refl. Qed.

Lemma bytes_Compare_eq a b : bytes_Compare a b = Eq ↔ a = b.
Proof.
  split; [|intros ->; apply bytes_Compare_refl].
  revert b. induction a as [|x a IH]; intros [|y b] H; try done.
  cbn in H. destruct (Z.compare (byteZ x) (byteZ y)) eqn:E; try done.
  apply Z.compare_eq in E. apply byteZ_inj in E as ->. f_equal. by apply IH.
Qed.

Lemma bytes_Compare_antisym a b : bytes_Compare b a = CompOpp (bytes_Compare a b).
Proof.
  revert b. induction a as [|x a IH]; intros [|y b]; try done.
  cbn. rewrite (Z.compare_antisym (byteZ x) (byteZ y)).
  destruct (Z.compare (byteZ x) (byteZ y)); cbn; auto.
Qed.

Lemma bytes_Compare_lt_trans a b c :
  bytes_Compare a b = Lt → bytes_Compare b c = Lt → bytes_Compare a c = Lt.
Proof.
  revert b c. induction a as [|x a IH]; intros [|y b] [|z c] H1 H2; try done.
  cbn in *.
  destruct (Z.compare (byteZ x) (byteZ y)) eqn:E1; try done;
    destruct (Z.compare (byteZ y) (byteZ z)) eqn:E2; try done.
  - apply Z.compare_eq in E1, E2. rewrite E1, E2, Z.compare_refl. by eapply IH.
  - apply Z.compare_eq in E1. by rewrite E1, E2.
  - apply Z.compare_eq in E2. by rewrite <-E2, E1.
  - rewrite Z.compare_lt_iff in E1, E2.
    rewrite (proj2 (Z.compare_lt_iff _ _)); [done|lia].
Qed.

Lemma bytes_lt_spec a b : bytes_lt a b = true ↔ bytes_Compare a b = Lt.
Proof. unfold bytes_lt. destruct (bytes_Compare a b); naive_solver. Qed.

#[export] Instance bytes_lt_trans : Transitive (λ a b, a <ᵇ b).
Proof.
  intros a b c. rewrite !bytes_lt_spec. apply bytes_Compare_lt_trans.
Qed.

#[export] Instance bytes_lt_irrefl : Irreflexive (λ a b, a <ᵇ b).
Proof. intros a. red. rewrite bytes_lt_spec, bytes_Compare_refl. done. Qed.

Lemma bytes_lt_total a b : a <ᵇ b ∨ a = b ∨ b <ᵇ a.
Proof.
  rewrite !bytes_lt_spec, (bytes_Compare_antisym a b).
  destruct (bytes_Compare a b) eqn:E; cbn; auto.
  right; left. by apply bytes_Compare_eq.
Qed.

Lemma bytes_lt_asym a b : a <ᵇ b → bytes_lt b a = false.
Proof.
  rewrite bytes_lt_spec. unfold bytes_lt. rewrite (bytes_Compare_antisym a b).
  by intros ->.
Qed.

Lemma bytes_Equal_spec a b : bytes_Equal a b = true ↔ a = b.
Proof. apply bool_decide_eq_true. Qed.

(** ** Sorting: [sort.Slice] by a key

    Go's [sort.Slice] leaves the order of equal keys unspecified; the callers
    refuse equal keys right after sorting, and [sort_by_unique] shows that for
    pairwise different keys every sorted permutation is this one. *)
Section sort_by.
Context {A : Type} (key : A → bytes).

Definition key_lt (x y : A) : Prop := key x <ᵇ key y.
Definition key_le (x y : A) : Prop := bytes_lt (key y) (key x) = false.

Fixpoint insert_by (x : A) (l : list A) : list A :=
  match l with
  | [] => [x]
  | y :: l' => if bytes_lt (key x) (key y) then x :: l else y :: insert_by x l'
  end.

Definition sort_by (l : list A) : list A := foldr insert_by [] (reverse l).

Lemma insert_by_perm x l : insert_by x l ≡ₚ x :: l.
Proof.
  induction l as [|y l IH]; cbn; [done|].
  destruct (bytes_lt (key x) (key y)); [done|]. rewrite IH. apply Permutation_swap.
Qed.

Lemma sort_by_perm l : sort_by l ≡ₚ l.
Proof.
  unfold sort_by. rewrite <-(reverse_involutive l) at 2.
  rewrite (reverse_Permutation (reverse l)).
  induction (reverse l) as [|x l' IH]; cbn; [done|].
  by rewrite insert_by_perm, IH.
Qed.

Lemma key_le_trans x y z : key_le x y → key_le y z → key_le x z.
Proof.
  unfold key_le. intros H1 H2.
  destruct (bytes_lt (key z) (key x)) eqn:E; [|done].
  destruct (bytes_lt_total (key y) (key z)) as [Hl|[He|Hg]]; [|congruence|congruence].
  pose proof (bytes_lt_trans (key y) (key z) (key x) Hl E). cbn in *; congruence.
Qed.

Lemma insert_by_sorted x l :
  StronglySorted key_le l → StronglySorted key_le (insert_by x l).
Proof.
  induction 1 as [|y l Hs IH Hf]; cbn; [by repeat constructor|].
  destruct (bytes_lt (key x) (key y)) eqn:E.
  - assert (Hxy : key_le x y) by (unfold key_le; by apply bytes_lt_asym).
    constructor; [by constructor|]. constructor; [done|].
    eapply Forall_impl; [exact Hf|]. intros z Hz. by eapply key_le_trans.
  - constructor; [done|]. rewrite Forall_forall in Hf |- *.
    intros z Hz. rewrite insert_by_perm in Hz.
    apply elem_of_cons in Hz as [->|Hz]; [done|auto].
Qed.

Lemma sort_by_sorted l : StronglySorted key_le (sort_by l).
Proof.
  unfold sort_by. induction (reverse l); cbn; [constructor|by apply insert_by_sorted].
Qed.

Lemma length_sort_by l : length (sort_by l) = length l.
Proof. by rewrite sort_by_perm. Qed.

(** A list sorted by [key_le] without repeated keys is strictly sorted. *)
Lemma sorted_nodup_strict l :
  StronglySorted key_le l → NoDup (key <$> l) → StronglySorted key_lt l.
Proof.
  induction 1 as [|x l Hs IH Hf]; cbn; [constructor|].
  rewrite NoDup_cons. intros [Hni Hnd]. constructor; [by apply IH|].
  rewrite Forall_forall in Hf |- *. intros z Hz.
  specialize (Hf z Hz). unfold key_lt, key_le in *.
  destruct (bytes_lt_total (key x) (key z)) as [?|[He|?]]; [done| |congruence].
  exfalso. apply Hni. rewrite He. by apply list_elem_of_fmap_2.
Qed.

Lemma sorted_strict_nodup l : StronglySorted key_lt l → NoDup (key <$> l).
Proof.
  induction 1 as [|x l Hs IH Hf]; cbn; [constructor|].
  constructor; [|done]. intros (z & Heq & Hz)%list_elem_of_fmap.
  rewrite Forall_forall in Hf. specialize (Hf z Hz). unfold key_lt in Hf.
  rewrite Heq in Hf. by apply bytes_lt_irrefl in Hf.
Qed.

Lemma strict_sorted_unique l1 l2 :
  StronglySorted key_lt l1 → StronglySorted key_lt l2 → l1 ≡ₚ l2 → l1 = l2.
Proof.
  intros H1. revert l2. induction H1 as [|x l1 Hs1 IH Hf1]; intros l2 H2 Hp.
  - by apply Permutation_nil_l in Hp.
  - destruct H2 as [|y l2 Hs2 Hf2]; [by apply Permutation_nil_r in Hp|].
    rewrite Forall_forall in Hf1, Hf2.
    assert (x = y) as ->.
    { assert (Hx : x ∈ y :: l2) by (rewrite <-Hp; constructor).
      assert (Hy : y ∈ x :: l1) by (rewrite Hp; constructor).
      apply elem_of_cons in Hx as [->|Hx]; [done|].
      apply elem_of_cons in Hy as [->|Hy]; [done|].
      specialize (Hf1 y Hy). specialize (Hf2 x Hx). unfold key_lt in *.
      apply bytes_lt_asym in Hf1. congruence. }
    f_equal. apply IH; [done|]. by apply Permutation_cons_inv in Hp.
Qed.

(** Whatever algorithm sorts, for distinct keys it returns [sort_by l]. *)
Lemma sort_by_unique l l' :
  NoDup (key <$> l) → l' ≡ₚ l → StronglySorted key_le l' → l' = sort_by l.
Proof.
  intros Hnd Hp Hs. apply strict_sorted_unique.
  - apply sorted_nodup_strict; [done|]. by rewrite Hp.
  - apply sorted_nodup_strict; [apply sort_by_sorted|]. by rewrite sort_by_perm.
  - by rewrite sort_by_perm.
Qed.

(** The scan for a repeat after sorting: each element against the next. *)
Fixpoint adjacentBy (l : list A) : option A :=
  match l with
  | x :: ((y :: _) as rest) =>
      if bytes_Equal (key x) (key y) then Some y else adjacentBy rest
  | _ => None
  end.

Lemma adjacentBy_None l :
  StronglySorted key_le l →
  adjacentBy l = None ↔ StronglySorted key_lt l.
Proof.
  induction 1 as [|x l Hs IH Hf]; [split; [constructor|done]|].
  destruct l as [|y l]; [cbn; split; [repeat constructor|done]|].
  cbn [adjacentBy]. destruct (bytes_Equal _ _) eqn:E.
  - split; [done|]. intros Hlt. apply bytes_Equal_spec in E.
    inversion Hlt as [|? ? _ Hf']; subst. inversion Hf' as [|? ? Hxy _]; subst.
    unfold key_lt in Hxy. rewrite E in Hxy. by apply bytes_lt_irrefl in Hxy.
  - rewrite IH. split; [|by inversion 1].
    intros Hlt. constructor; [done|].
    assert (Hxy : key_lt x y).
    { inversion Hf as [|? ? Hle _]; subst. unfold key_le, key_lt in *.
      destruct (bytes_lt_total (key x) (key y)) as [?|[He|?]];
        [done| |congruence].
      apply bytes_Equal_spec in He. congruence. }
    constructor; [done|]. inversion Hlt as [|? ? _ Hf']; subst.
    eapply Forall_impl; [exact Hf'|]. intros z Hz. unfold key_lt in *.
    by eapply bytes_lt_trans.
Qed.
End sort_by.

(** ** Machine integers *)
Definition MaxUint32 : Z := 2 ^ 32 - 1.
Definition MaxInt64 : Z := 2 ^ 63 - 1.

Definition is_u32 (z : Z) : Prop := (0 <= z <= MaxUint32)%Z.
Definition is_i64 (z : Z) : Prop := (- 2 ^ 63 <= z <= MaxInt64)%Z.
Definition is_u64 (z : Z) : Prop := (0 <= z < 2 ^ 64)%Z.

(** Wrap-around of an arithmetic result to its type. *)
Definition wrap_u32 (z : Z) : Z := (z mod 2 ^ 32)%Z.
Definition wrap_u64 (z : Z) : Z := (z mod 2 ^ 64)%Z.
Definition wrap_i64 (z : Z) : Z := ((z + 2 ^ 63) mod 2 ^ 64 - 2 ^ 63)%Z.

(** Testing a bit with a mask. *)
Lemma testbit_land_pow2 z n :
  (0 <= n)%Z → Z.testbit z n = negb (Z.land z (2 ^ n) =? 0)%Z.
Proof.
  intros Hn. destruct (Z.testbit z n) eqn:Hb; symmetry.
  - apply negb_true_iff, Z.eqb_neq. intros H0. apply (f_equal (λ x, Z.testbit x n)) in H0.
    by rewrite Z.land_spec, Hb, Z.pow2_bits_true, Z.bits_0 in H0.
  - apply negb_false_iff, Z.eqb_eq, Z.bits_inj'. intros m Hm.
    rewrite Z.land_spec, Z.bits_0, Z.pow2_bits_eqb by done.
    destruct (Z.eqb_spec n m) as [<-|]; [by rewrite Hb|by rewrite andb_false_r].
Qed.

Lemma wrap_u32_range z : is_u32 (wrap_u32 z).
Proof.
  unfold is_u32, wrap_u32, MaxUint32.
  pose proof (Z.mod_pos_bound z (2 ^ 32) ltac:(lia)). lia.
Qed.

Lemma wrap_u32_id z : is_u32 z → wrap_u32 z = z.
Proof. unfold is_u32, wrap_u32, MaxUint32. intros ?. apply Z.mod_small. lia. Qed.

Lemma wrap_i64_range z : is_i64 (wrap_i64 z).
Proof.
  unfold is_i64, wrap_i64, MaxInt64.
  pose proof (Z.mod_pos_bound (z + 2 ^ 63) (2 ^ 64) ltac:(lia)). lia.
Qed.

Lemma wrap_i64_id z : is_i64 z → wrap_i64 z = z.
Proof.
  unfold is_i64, wrap_i64, MaxInt64. intros ?. rewrite Z.mod_small by lia. lia.
Qed.

(** ** Big-endian byte strings: Go's [binary.BigEndian] and [big.Int.SetBytes] *)
Definition be_value (b : bytes) : Z := foldl (λ acc x, acc * 256 + byteZ x)%Z 0%Z b.

Fixpoint be_bytes (n : nat) (z : Z) : bytes :=
  match n with
  | O => []
  | S n' => be_bytes n' (z / 256) ++ [Zbyte z]
  end.

Lemma length_be_bytes n z : length (be_bytes n z) = n.
Proof. revert z. induction n; intros z; cbn; [done|]. rewrite length_app, IHn. cbn. lia. Qed.

Lemma be_value_snoc b x : be_value (b ++ [x]) = (be_value b * 256 + byteZ x)%Z.
Proof. unfold be_value. by rewrite foldl_app. Qed.

Lemma be_value_bound b : (0 <= be_value b < 256 ^ Z.of_nat (length b))%Z.
Proof.
  induction b as [|x b IH] using rev_ind; [cbn; lia|].
  rewrite be_value_snoc, length_app. cbn [length].
  rewrite Nat2Z.inj_add, Z.pow_add_r by lia. cbn. rewrite Z.pow_1_r.
  pose proof (byteZ_range x). lia.
Qed.

Lemma be_bytes_value n z :
  (0 <= z < 256 ^ Z.of_nat n)%Z → be_value (be_bytes n z) = z.
Proof.
  revert z. induction n as [|n IH]; intros z Hz; [cbn in *; lia|].
  cbn [be_bytes]. rewrite be_value_snoc, byteZ_Zbyte.
  rewrite Nat2Z.inj_succ, Z.pow_succ_r in Hz by lia.
  rewrite IH. 2:{ split; [apply Z.div_pos; lia|]. apply Z.div_lt_upper_bound; lia. }
  pose proof (Z.div_mod z 256). lia.
Qed.

Lemma be_value_bytes b : be_bytes (length b) (be_value b) = b.
Proof.
  induction b as [|x b IH] using rev_ind; [done|].
  rewrite length_app, Nat.add_comm, be_value_snoc. cbn [length plus be_bytes].
  pose proof (byteZ_range x).
  replace ((be_value b * 256 + byteZ x) / 256)%Z with (be_value b).
  2:{ rewrite Z.add_comm, Z.div_add, Z.div_small by lia. lia. }
  rewrite IH. do 2 f_equal. apply byteZ_inj. rewrite byteZ_Zbyte.
  rewrite Z.add_comm, Z.mod_add, Z.mod_small by lia. done.
Qed.

(** ** Generic list lemmas *)
Lemma Forall_fmap_iff {A B} (f : A → B) (P : B → Prop) l :
  Forall P (f <$> l) ↔ Forall (P ∘ f) l.
Proof. apply Forall_fmap. Qed.

Lemma existsb_In {A} (f : A → bool) l : existsb f l = true ↔ ∃ x, x ∈ l ∧ f x = true.
Proof.
  rewrite existsb_exists. by setoid_rewrite list_elem_of_In.
Qed.

Lemma elem_of_concat {A} (x : A) ls : x ∈ concat ls ↔ ∃ l, x ∈ l ∧ l ∈ ls.
Proof.
  rewrite list_elem_of_In, in_concat. setoid_rewrite list_elem_of_In. naive_solver.
Qed.

Lemma omap_step {A B} (f : A → option B) x l :
  omap f (x :: l) = match f x with Some y => y :: omap f l | None => omap f l end.
Proof. reflexivity. Qed.

(** A map with the element's index, in the shape nested recursion accepts. *)
Section imap_from.
Context {A B : Type} (f : nat → A → B).
Fixpoint imap_from (i : nat) (l : list A) : list B :=
  match l with
  | [] => []
  | x :: l' => f i x :: imap_from (S i) l'
  end.
End imap_from.

Lemma imap_from_imap {A B} (f : nat → A → B) i l :
  imap_from f i l = imap (λ j, f (i + j)) l.
Proof.
  revert i. induction l as [|x l IH]; intros i; cbn; [done|].
  rewrite Nat.add_0_r. f_equal. rewrite IH. apply imap_ext. intros j ? ?. cbn. f_equal. lia.
Qed.

Lemma length_imap_from {A B} (f : nat → A → B) i l : length (imap_from f i l) = length l.
Proof. revert i. induction l; intros; cbn; auto. Qed.

Lemma elem_of_imap_from {A B} (f : nat → A → B) i l y :
  y ∈ imap_from f i l ↔ ∃ j x, l !! j = Some x ∧ y = f (i + j) x.
Proof.
  revert i. induction l as [|x l IH]; intros i; cbn.
  - split; [by intros ?%not_elem_of_nil|]. by intros (j & ? & ? & _).
  - rewrite elem_of_cons, IH. split.
    + intros [->|(j & x' & ? & ->)].
      * exists 0, x. by rewrite Nat.add_0_r.
      * exists (S j), x'. by rewrite Nat.add_succ_r.
    + intros ([|j] & x' & Hj & ->); cbn in Hj.
      * simplify_eq. left. by rewrite Nat.add_0_r.
      * right. exists j, x'. by rewrite Nat.add_succ_r.
Qed.

(** ** Tactics shared by the whole development *)
Create HintDb soroauth discriminated.

(** Case analysis on the innermost [match]/[if] scrutinee of a hypothesis. *)
Ltac case_in H :=
  match type of H with
  | context [match ?x with _ => _ end] =>
      lazymatch x with
      | context [match _ with _ => _ end] => fail
      | _ => let E := fresh "E" in destruct x eqn:E; try discriminate H
      end
  end.

(** Decidable equality that evaluates: the arguments of the two constructors
    are compared one by one and their equalities are only used in the proof
    component, never to transport a decision, so the result reduces to [left]
    or [right] whatever the transparency of those equalities. *)
Ltac decide_arguments l r :=
  lazymatch l with
  | ?f ?x =>
      lazymatch r with
      | ?g ?y =>
          let E := fresh "E" in
          destruct (decide (x = y)) as [E|E];
          [decide_arguments f g | right; abstract congruence]
      | _ => right; abstract discriminate
      end
  | _ => first [left; abstract congruence | right; abstract discriminate]
  end.

Ltac solve_eval_decision :=
  let x := fresh "x" in let y := fresh "y" in
  intros x y; destruct x, y;
  first
    [ right; abstract discriminate
    | lazymatch goal with |- Decision (?l = ?r) => decide_arguments l r end ].

Ltac split_and_all := repeat match goal with H : _ ∧ _ |- _ => destruct H end.
