(* ===== verification/Encoding.v ===== *)
(** * Encoding: the text encodings of the standard library

    [strconv]'s decimal integers, [hex] and strict [base64], and
    [utf8.ValidString], as the canonical JSON form uses them (canonical.go),
    with their round trips. *)
From Stdlib Require Import ZArith Lia Strings.Byte String Ascii Decimal DecimalString DecimalN DecimalPos.
From stdpp Require Import base list strings.
From S2P Require Import Prelude.

Open Scope string_scope. Open Scope nat_scope. Open Scope list_scope.

(** Quotients and remainders by constants. *)
Ltac div_lia := Z.to_euclidean_division_equations; lia.

(** ** strconv *)
Definition FormatUint (z : Z) : string := NilZero.string_of_uint (N.to_uint (Z.to_N z)).

Definition FormatInt (z : Z) : string :=
  if (z <? 0)%Z then String "-" (FormatUint (- z)) else FormatUint z.

(** A run of decimal digits, at least one. *)
Definition parseDigits (s : string) : option Z :=
  d ← NilZero.uint_of_string s; Some (Z.of_N (N.of_uint d)).

(** [strconv.ParseUint(s, 10, 64)] *)
Definition ParseUint64 (s : string) : option Z :=
  z ← parseDigits s; if (z <? 2 ^ 64)%Z then Some z else None.

(** [strconv.ParseInt(s, 10, 64)] *)
Definition ParseInt64 (s : string) : option Z :=
  match s with
  | String "-" r => z ← parseDigits r; if (z <=? 2 ^ 63)%Z then Some (- z)%Z else None
  | String "+" r => z ← parseDigits r; if (z <? 2 ^ 63)%Z then Some z else None
  | _ => z ← parseDigits s; if (z <? 2 ^ 63)%Z then Some z else None
  end.

Lemma parseDigits_FormatUint z : (0 <= z)%Z → parseDigits (FormatUint z) = Some z.
Proof.
  intros Hz. unfold parseDigits, FormatUint. rewrite NilZero.usu; cycle 1.
  { destruct (Z.to_N z); [done|]. apply DecimalPos.Unsigned.to_uint_nonnil. }
  cbn. by rewrite DecimalN.Unsigned.of_to, Z2N.id.
Qed.

Lemma ParseUint64_FormatUint z : is_u64 z → ParseUint64 (FormatUint z) = Some z.
Proof.
  unfold is_u64. intros Hz. unfold ParseUint64. rewrite parseDigits_FormatUint by lia. cbn.
  by rewrite (proj2 (Z.ltb_lt _ _)) by lia.
Qed.

Lemma ParseInt64_FormatInt z : is_i64 z → ParseInt64 (FormatInt z) = Some z.
Proof.
  unfold is_i64, MaxInt64. intros Hz. unfold FormatInt.
  destruct (Z.ltb_spec z 0); cbn [ParseInt64].
  - rewrite parseDigits_FormatUint by lia. cbn. rewrite (proj2 (Z.leb_le _ _)) by lia.
    f_equal. lia.
  - pose proof (parseDigits_FormatUint z ltac:(lia)) as Hd.
    assert (Hs : ∀ r, FormatUint z ≠ String "-" r ∧ FormatUint z ≠ String "+" r).
    { intros r. split; intros E; rewrite E in Hd; unfold parseDigits in Hd; cbn in Hd;
        by destruct (NilEmpty.uint_of_string r). }
    destruct (FormatUint z) as [|a r]; [done|].
    assert (ParseInt64 (String a r) =
      (z ← parseDigits (String a r); if (z <? 2 ^ 63)%Z then Some z else None)) as ->.
    { destruct (Hs r) as [H1 H2]. clear Hs Hd.
      destruct a as [[] [] [] [] [] [] [] []]; solve [reflexivity | congruence]. }
    rewrite Hd. cbn. by rewrite (proj2 (Z.ltb_lt _ _)) by lia.
Qed.

(** ** hex *)
Definition hex_value (c : ascii) : option Z :=
  let n := Z.of_N (N_of_ascii c) in
  if (48 <=? n)%Z && (n <=? 57)%Z then Some (n - 48)%Z
  else if (97 <=? n)%Z && (n <=? 102)%Z then Some (n - 87)%Z
  else if (65 <=? n)%Z && (n <=? 70)%Z then Some (n - 55)%Z
  else None.

Fixpoint hex_DecodeString (s : string) : option bytes :=
  match s with
  | EmptyString => Some []
  | String h (String l s) =>
      h ← hex_value h; l ← hex_value l; b ← hex_DecodeString s; Some (Zbyte (h * 16 + l) :: b)
  | _ => None
  end.

Lemma hex_value_digit n : (0 <= n < 16)%Z → hex_value (hex_digit n) = Some n.
Proof.
  intros Hn. assert (Hin : Forall (λ k, hex_value (hex_digit (Z.of_nat k)) = Some (Z.of_nat k)) (seq 0 16))
    by (repeat constructor).
  rewrite Forall_forall in Hin. rewrite <-(Z2Nat.id n) by lia. apply Hin, elem_of_seq. lia.
Qed.

Lemma string_concat_cons (s : string) l : String.concat "" (s :: l) = (s ++ String.concat "" l)%string.
Proof.
  destruct l as [|t l]; [|reflexivity]. induction s as [|c s IH]; [done|].
  change (String c s = String c (s ++ "")%string). f_equal. exact IH.
Qed.

Lemma hex_DecodeString_Encode b : hex_DecodeString (hex_EncodeToString b) = Some b.
Proof.
  unfold hex_EncodeToString. induction b as [|x b IH]; [done|].
  cbn [map]. rewrite string_concat_cons. pose proof (byteZ_range x).
  change (hex_DecodeString (String (hex_digit (byteZ x / 16)) (String (hex_digit (byteZ x mod 16))
    (String.concat "" (map hex_byte b)))) = Some (x :: b)). cbn [hex_DecodeString].
  rewrite !hex_value_digit by div_lia.
  cbn [mbind option_bind]. rewrite IH. cbn [mbind option_bind].
  rewrite Z.mul_comm, <-Z_div_mod_eq_full, Zbyte_byteZ. done.
Qed.

Lemma length_hex_EncodeToString b : String.length (hex_EncodeToString b) = 2 * length b.
Proof.
  unfold hex_EncodeToString. induction b as [|x b IH]; [done|].
  cbn [map]. rewrite string_concat_cons.
  change (S (S (String.length (String.concat "" (map hex_byte b)))) = 2 * length (x :: b)).
  rewrite IH. cbn. lia.
Qed.

(** ** base64.StdEncoding *)
Definition b64_char (n : Z) : ascii :=
  ascii_of_N (Z.to_N (if (n <? 26)%Z then n + 65 else if (n <? 52)%Z then n + 71
    else if (n <? 62)%Z then n - 4 else if (n <? 63)%Z then 43 else 47)).

Definition b64_value (c : ascii) : option Z :=
  let n := Z.of_N (N_of_ascii c) in
  if (65 <=? n)%Z && (n <=? 90)%Z then Some (n - 65)%Z
  else if (97 <=? n)%Z && (n <=? 122)%Z then Some (n - 71)%Z
  else if (48 <=? n)%Z && (n <=? 57)%Z then Some (n + 4)%Z
  else if (n =? 43)%Z then Some 62%Z
  else if (n =? 47)%Z then Some 63%Z
  else None.

Fixpoint base64_EncodeToString (b : bytes) : string :=
  match b with
  | [] => ""
  | [x] =>
      let n := (byteZ x * 16)%Z in
      String (b64_char (n / 64)) (String (b64_char (n mod 64)) "==")
  | [x; y] =>
      let n := ((byteZ x * 256 + byteZ y) * 4)%Z in
      String (b64_char (n / 4096)) (String (b64_char (n / 64 mod 64))
        (String (b64_char (n mod 64)) "="))
  | x :: y :: z :: b =>
      let n := ((byteZ x * 256 + byteZ y) * 256 + byteZ z)%Z in
      String (b64_char (n / 262144)) (String (b64_char (n / 4096 mod 64))
        (String (b64_char (n / 64 mod 64)) (String (b64_char (n mod 64))
          (base64_EncodeToString b))))
  end.

(** [Strict().DecodeString] on text without line breaks: quartets, the last
    one padded, its unused bits zero. *)
Fixpoint base64_quartets (s : string) : option bytes :=
  match s with
  | EmptyString => Some []
  | String a (String b (String c (String d s))) =>
      a ← b64_value a; b ← b64_value b;
      if Ascii.eqb c "=" then
        if Ascii.eqb d "=" && (b mod 16 =? 0)%Z && String.eqb s ""
        then Some [Zbyte ((a * 64 + b) / 16)] else None
      else
        c ← b64_value c;
        if Ascii.eqb d "=" then
          if (c mod 4 =? 0)%Z && String.eqb s ""
          then let n := ((a * 64 + b) * 64 + c)%Z in Some [Zbyte (n / 1024); Zbyte (n / 4)]
          else None
        else
          d ← b64_value d; r ← base64_quartets s;
          let n := (((a * 64 + b) * 64 + c) * 64 + d)%Z in
          Some (Zbyte (n / 65536) :: Zbyte (n / 256) :: Zbyte n :: r)
  | _ => None
  end.

(** Line breaks are ignored. *)
Fixpoint without_newlines (s : string) : string :=
  match s with
  | EmptyString => EmptyString
  | String c s =>
      if Ascii.eqb c "010" || Ascii.eqb c "013" then without_newlines s
      else String c (without_newlines s)
  end.

Definition base64_DecodeString (s : string) : option bytes := base64_quartets (without_newlines s).

Lemma b64_value_char n : (0 <= n < 64)%Z →
  b64_value (b64_char n) = Some n ∧ Ascii.eqb (b64_char n) "=" = false ∧
  Ascii.eqb (b64_char n) "010" = false ∧ Ascii.eqb (b64_char n) "013" = false.
Proof.
  intros Hn. assert (Hin : Forall (λ k, let c := b64_char (Z.of_nat k) in
    b64_value c = Some (Z.of_nat k) ∧ Ascii.eqb c "=" = false ∧ Ascii.eqb c "010" = false ∧
    Ascii.eqb c "013" = false) (seq 0 64)) by (repeat constructor).
  rewrite Forall_forall in Hin. rewrite <-(Z2Nat.id n) by lia. apply Hin, elem_of_seq. lia.
Qed.

Lemma Zbyte_eq z b : (z mod 256 = byteZ b)%Z → Zbyte z = b.
Proof. intros H. apply byteZ_inj. by rewrite byteZ_Zbyte. Qed.

Lemma base64_quartets_Encode b : base64_quartets (base64_EncodeToString b) = Some b.
Proof.
  induction b as [b IH] using (induction_ltof1 _ (@length Byte.byte)).
  destruct b as [|x [|y [|z b]]]; [done|..]; cbn [base64_EncodeToString base64_quartets];
    pose proof (byteZ_range x) as Hx; try pose proof (byteZ_range y) as Hy;
    try pose proof (byteZ_range z) as Hz; cbv zeta;
    repeat match goal with
    | |- context [b64_value (b64_char ?n)] =>
        let H := fresh in assert (H : (0 <= n < 64)%Z);
          [div_lia|destruct (b64_value_char n H) as (-> & ? & _); cbn [mbind option_bind]]
    end.
  - rewrite Ascii.eqb_refl. rewrite (proj2 (Z.eqb_eq _ _)) by div_lia. cbn [andb String.eqb].
    do 2 f_equal. apply Zbyte_eq. div_lia.
  - repeat match goal with Hc : Ascii.eqb (b64_char _) "=" = false |- _ => rewrite Hc; clear Hc end.
    rewrite Ascii.eqb_refl. rewrite (proj2 (Z.eqb_eq _ _)) by div_lia. cbn [andb String.eqb].
    repeat f_equal; apply Zbyte_eq; div_lia.
  - repeat match goal with Hc : Ascii.eqb (b64_char _) "=" = false |- _ => rewrite Hc; clear Hc end.
    rewrite IH by (unfold ltof; cbn; lia). cbn [mbind option_bind].
    repeat f_equal; apply Zbyte_eq; div_lia.
Qed.

Lemma without_newlines_Encode b : without_newlines (base64_EncodeToString b) = base64_EncodeToString b.
Proof.
  induction b as [b IH] using (induction_ltof1 _ (@length Byte.byte)).
  destruct b as [|x [|y [|z b]]]; [done|..]; cbn [base64_EncodeToString without_newlines];
    pose proof (byteZ_range x) as Hx; try pose proof (byteZ_range y) as Hy;
    try pose proof (byteZ_range z) as Hz; cbv zeta;
    repeat match goal with
    | |- context [Ascii.eqb (b64_char ?n) "010"] =>
        let H := fresh in assert (H : (0 <= n < 64)%Z);
          [div_lia|destruct (b64_value_char n H) as (_ & _ & -> & ->); cbn [orb]]
    end; [done..|]. by rewrite IH by (unfold ltof; cbn; lia).
Qed.

Lemma base64_DecodeString_Encode b : base64_DecodeString (base64_EncodeToString b) = Some b.
Proof. unfold base64_DecodeString. by rewrite without_newlines_Encode, base64_quartets_Encode. Qed.

Lemma base64_EncodeToString_nonempty b : b ≠ [] → base64_EncodeToString b ≠ "".
Proof. by destruct b as [|x [|y [|z b]]]. Qed.

(** ** ASCII texts *)
(** Induction in steps of three bytes, with the ranges at hand. *)
Ltac base64_steps b IH :=
  induction b as [b IH] using (induction_ltof1 _ (@length Byte.byte));
  destruct b as [|x [|y [|z b]]];
    [|pose proof (byteZ_range x)|pose proof (byteZ_range x); pose proof (byteZ_range y)
     |pose proof (byteZ_range x); pose proof (byteZ_range y); pose proof (byteZ_range z)].

Fixpoint ascii_text (s : string) : bool :=
  match s with EmptyString => true | String c s => (N_of_ascii c <? 128)%N && ascii_text s end.

Lemma ascii_text_app s t : ascii_text (s +:+ t) = ascii_text s && ascii_text t.
Proof.
  induction s as [|c s IH]; [done|]. change (String c s +:+ t) with (String c (s +:+ t)).
  cbn [ascii_text]. by rewrite IH, andb_assoc.
Qed.

Lemma b64_char_ascii n : (0 <= n < 64)%Z → (N_of_ascii (b64_char n) <? 128)%N = true.
Proof.
  intros Hn. assert (Hin : Forall (λ k, (N_of_ascii (b64_char (Z.of_nat k)) <? 128)%N = true) (seq 0 64))
    by (repeat constructor).
  rewrite Forall_forall in Hin. rewrite <-(Z2Nat.id n) by lia. apply Hin, elem_of_seq. lia.
Qed.

Lemma base64_ascii b : ascii_text (base64_EncodeToString b) = true.
Proof.
  base64_steps b IH; cbn [base64_EncodeToString ascii_text]; cbv zeta; [done|..];
    rewrite ?b64_char_ascii by div_lia; [done|done|]. cbn [andb]. apply IH. unfold ltof. cbn. lia.
Qed.

Lemma hex_ascii b : ascii_text (hex_EncodeToString b) = true.
Proof.
  unfold hex_EncodeToString. induction b as [|x b IH]; [done|]. cbn [map].
  rewrite string_concat_cons, ascii_text_app, IH, andb_true_r. destruct x; reflexivity.
Qed.

(** ** utf8.ValidString *)
Definition utf8_in (lo hi : Z) (b : Byte.byte) : bool := (lo <=? byteZ b)%Z && (byteZ b <=? hi)%Z.

(** RFC 3629: no overlong forms, no surrogates, nothing past U+10FFFF. *)
Fixpoint utf8_Valid (s : bytes) : bool :=
  match s with
  | [] => true
  | b0 :: s =>
      if utf8_in 0 127 b0 then utf8_Valid s
      else match s with
      | [] => false
      | b1 :: s =>
          if utf8_in 194 223 b0 then utf8_in 128 191 b1 && utf8_Valid s
          else match s with
          | [] => false
          | b2 :: s =>
              if utf8_in 224 239 b0 then
                utf8_in (if (byteZ b0 =? 224)%Z then 160 else 128)
                        (if (byteZ b0 =? 237)%Z then 159 else 191) b1
                && utf8_in 128 191 b2 && utf8_Valid s
              else match s with
              | [] => false
              | b3 :: s =>
                  utf8_in 240 244 b0
                  && utf8_in (if (byteZ b0 =? 240)%Z then 144 else 128)
                             (if (byteZ b0 =? 244)%Z then 143 else 191) b1
                  && utf8_in 128 191 b2 && utf8_in 128 191 b3 && utf8_Valid s
              end
          end
      end
  end.

Definition utf8_ValidString (s : string) : bool := utf8_Valid (bytes_of_string s).
