(* ===== verification/Errors.v ===== *)
(** * Errors: the error values of [src/errors.go] and Go's result convention

    A Go call returns a value and an [error]; here a call returns a
    [result].  An error is a tree: a sentinel, a plain text, a text wrapped
    around one or two causes ([fmt.Errorf] with [%w]), one of the typed errors
    of [errors.go], a join, one of the two wrappers of [chain.go], a text that
    unwraps to a sentinel, or the refusal of [policy/policy.go].
    [errors_Is] and the [errors_As_*] functions walk it as the standard
    library's [errors.Is] and [errors.As] do. *)
From Stdlib Require Import ZArith Lia String.
From stdpp Require Import base list strings pretty.
From S2P Require Import Prelude.

Open Scope string_scope. Open Scope nat_scope. Open Scope list_scope.

(** ** Sentinels

    The exported [Err...] variables, by name, with those of the packages beside
    the library, the two of the context package and the go-xdr one the source
    tests for ([ErrWalletWrongNetwork] is walletsdk's [ErrWrongNetwork]). *)
Inductive sentinel :=
| ErrSourceAccountCredentials
| ErrUnsupportedCredentials
| ErrNoMatchingCredentialNode
| ErrDuplicateDelegate
| ErrSignatureMismatch
| ErrMissingSigner
| ErrAlreadySigned
| ErrInvalidExpiration
| ErrTooManySignatures
| ErrDecodeLimit
| ErrNoInvokeOperation
| ErrUnsupportedFunctionType
| ErrUnsupportedEnvelope
| ErrUnsignedCredentialNode
| ErrDelegatePlanUnmatched
| ErrNonceAlreadyReserved
| ErrWebAuthnMalformedJSON
| ErrWebAuthnMissingField
| ErrWebAuthnMalformedField
| ErrWebAuthnTruncatedAuthenticatorData
| ErrWebAuthnChallengeMismatch
| ErrSignerAddressMismatch
| ErrVaultUnauthorized
| ErrVaultKeyNotFound
| ErrVaultKeyType
| ErrLedgerUnavailable
| ErrLedgerLocked
| ErrLedgerWrongApp
| ErrLedgerBlindSigningDisabled
| ErrLedgerDenied
| ErrAttestationMalformed
| ErrAttestationInvalid
| ErrAttestationUnsupportedFormat
| ErrPolicyRefusal
| ErrSignerTransient
| ErrChainExhausted
| ErrQuorumNotMet
| ErrQuorumDisagreement
| ErrWrongNetwork
| ErrVerificationFailed
| errCBOR
| ErrPolicyDenied
| ErrHumanRejected
| ErrEnforcePassMissing
| ErrSignatureNotFound
| ErrSignatureNotByKey
| ErrUnreadableSignature
| ErrWalletRejected
| ErrWalletLocked
| ErrWalletWrongNetwork
| errExecSignerExit
| errExecSignerTimeout
| errExecSignerMalformedOutput
| errExecSignerRefused
| ContextCanceled
| ContextDeadlineExceeded
| ErrMaxDecodingDepthReached.

Definition sentinel_text (s : sentinel) : string :=
  match s with
  | ErrSourceAccountCredentials => "credentials are source-account, which carry no signature payload"
  | ErrUnsupportedCredentials => "unsupported credentials type"
  | ErrNoMatchingCredentialNode => "no credential node matches the target address"
  | ErrDuplicateDelegate => "duplicate delegate address at the same level"
  | ErrSignatureMismatch => "signature does not verify against the payload"
  | ErrMissingSigner => "no signer for address"
  | ErrAlreadySigned => "credential node is already signed"
  | ErrInvalidExpiration => "invalid signature expiration ledger"
  | ErrTooManySignatures => "too many signatures for a classic account"
  | ErrDecodeLimit => "untrusted input exceeds a decode limit"
  | ErrNoInvokeOperation => "envelope carries no invokeHostFunction operation"
  | ErrUnsupportedFunctionType => "unsupported invocation function type"
  | ErrUnsupportedEnvelope => "unsupported transaction envelope type"
  | ErrUnsignedCredentialNode => "credential node was left unsigned"
  | ErrDelegatePlanUnmatched => "delegate plan address matches no entry in the batch"
  | ErrNonceAlreadyReserved => "nonce already reserved for this address"
  | ErrWebAuthnMalformedJSON => "webauthn assertion is not valid JSON"
  | ErrWebAuthnMissingField => "webauthn assertion is missing a field"
  | ErrWebAuthnMalformedField => "webauthn assertion field is not valid base64url"
  | ErrWebAuthnTruncatedAuthenticatorData => "webauthn authenticatorData is shorter than its 37-byte fixed prefix"
  | ErrWebAuthnChallengeMismatch => "webauthn challenge does not match the expected payload"
  | ErrSignerAddressMismatch => "signer public key does not match the configured address"
  | ErrVaultUnauthorized => "vault rejected the token"
  | ErrVaultKeyNotFound => "vault transit key not found"
  | ErrVaultKeyType => "vault transit key is not an ed25519 key"
  | ErrLedgerUnavailable => "ledger device is unavailable"
  | ErrLedgerLocked => "ledger device is locked"
  | ErrLedgerWrongApp => "ledger device is not running the Stellar app"
  | ErrLedgerBlindSigningDisabled => "blind signing is disabled in the Ledger Stellar app settings"
  | ErrLedgerDenied => "the request was rejected on the ledger device"
  | ErrAttestationMalformed => "webauthn attestation is malformed"
  | ErrAttestationInvalid => "webauthn attestation failed verification"
  | ErrAttestationUnsupportedFormat => "webauthn attestation format or algorithm is not supported"
  | ErrPolicyRefusal => "signing refused by policy"
  | ErrSignerTransient => "transient signer failure"
  | ErrChainExhausted => "every signer in the chain failed"
  | ErrQuorumNotMet => "signer quorum was not met"
  | ErrQuorumDisagreement => "signers disagree on the signature"
  | ErrWrongNetwork => "signer refused payload for the wrong network"
  | ErrVerificationFailed => "verification failed"
  | errCBOR => "malformed CBOR"
  | ErrPolicyDenied => "turnkey: signing denied by policy"
  | ErrHumanRejected => "fireblocks: signing rejected by human approver"
  | ErrEnforcePassMissing => "the enforce simulation pass has not been recorded"
  | ErrSignatureNotFound => "the entry stores no signature for this address"
  | ErrSignatureNotByKey => "the stored signature is not this key's signature over the entry"
  | ErrUnreadableSignature => "the stored signature is not in the built-in account signature shape"
  | ErrWalletRejected => "the wallet request was rejected in the wallet"
  | ErrWalletLocked => "the wallet is locked"
  | ErrWalletWrongNetwork => "the wallet signed for a different network"
  | errExecSignerExit => "external signer exited non-zero"
  | errExecSignerTimeout => "external signer timed out"
  | errExecSignerMalformedOutput => "external signer returned malformed output"
  | errExecSignerRefused => "external signer refused to sign"
  | ContextCanceled => "context canceled"
  | ContextDeadlineExceeded => "context deadline exceeded"
  | ErrMaxDecodingDepthReached => "max decoding depth reached"
  end.

#[export] Instance sentinel_eq_dec : EqDecision sentinel.
Proof. solve_decision. Defined.

(** ** Error values *)
(** What happened to one signer of a chain (chain.go). *)
Inductive ChainOutcome :=
| ChainSucceeded | ChainTransientFailure | ChainTerminalFailure | ChainSkipped.

#[export] Instance ChainOutcome_eq_dec : EqDecision ChainOutcome.
Proof. solve_decision. Defined.

(** The typed errors that read and unwrap as the error they hold: the command
    line's exit code, input field and mark of an error already written, and
    walletsdk's [WrongNetworkError]. *)
Inductive typedError :=
| cliError (exitCode : Z)
| inputFieldError (field : string)
| jsonErrorHandled
| WrongNetworkError (Expected Actual : string).

(** A [ChainError] carries the audit record of a chain's run, whose attempts
    carry the errors of the signers. *)
Inductive error :=
| ESentinel (s : sentinel)
| EText (text : string)
| EWrap (prefix : string) (e : error)
| EWrap2 (prefix : string) (e1 e2 : error)
| NoMatchingCredentialNodeError (Address : string)
| DuplicateDelegateError (Address : string)
| MissingSignerError (Address : string)
| UnsignedCredentialNodeError (Address : string)
| DelegatePlanUnmatchedError (Address : string)
| NonceAlreadyReservedError (Address : string) (Nonce : Z)
| EJoin (es : list error)
| ETransient (e : error)
| EChainError (attempts : list ChainAttempt) (cause : error)
| EMarked (text : string) (s : sentinel)
| PolicyRefusal (Rule Node : string) (Cause : option error)
| ETyped (t : typedError) (e : error)
with ChainAttempt :=
| mkChainAttempt (index : nat) (address : string) (outcome : ChainOutcome) (reason : string)
    (err : option error).

Definition Attempt_Index (a : ChainAttempt) : nat := let '(mkChainAttempt i _ _ _ _) := a in i.
Definition Attempt_Address (a : ChainAttempt) : string :=
  let '(mkChainAttempt _ s _ _ _) := a in s.
Definition Attempt_Outcome (a : ChainAttempt) : ChainOutcome :=
  let '(mkChainAttempt _ _ o _ _) := a in o.
Definition Attempt_Reason (a : ChainAttempt) : string :=
  let '(mkChainAttempt _ _ _ r _) := a in r.
Definition Attempt_Err (a : ChainAttempt) : option error :=
  let '(mkChainAttempt _ _ _ _ e) := a in e.

(** [err.Error()]. The typed errors print exactly their sentinel's text. *)
Fixpoint Error (e : error) : string :=
  match e with
  | ESentinel s => sentinel_text s
  | EText t => t
  | EWrap p e => p +:+ ": " +:+ Error e
  | EWrap2 p e1 e2 => (if String.eqb p "" then "" else p +:+ ": ") +:+ Error e1 +:+ ": " +:+ Error e2
  | NoMatchingCredentialNodeError _ => sentinel_text ErrNoMatchingCredentialNode
  | DuplicateDelegateError _ => sentinel_text ErrDuplicateDelegate
  | MissingSignerError _ => sentinel_text ErrMissingSigner
  | UnsignedCredentialNodeError _ => sentinel_text ErrUnsignedCredentialNode
  | DelegatePlanUnmatchedError _ => sentinel_text ErrDelegatePlanUnmatched
  | NonceAlreadyReservedError _ _ => sentinel_text ErrNonceAlreadyReserved
  | EJoin es =>
      (fix join es := match es with
        | [] => "" | [e] => Error e
        | e :: es' => Error e +:+ String (Ascii.ascii_of_nat 10) (join es')
        end) es
  | ETransient e => Error e
  | EChainError _ e => Error e
  | EMarked text _ => text
  | PolicyRefusal rule node cause =>
      "policy refusal: rule " +:+ quoted rule +:+ " violated at " +:+ node +:+
      match cause with Some e => ": " +:+ Error e | None => "" end
  | ETyped _ e => Error e
  end.

(** What [Unwrap] returns: the causes directly below an error value. *)
Definition Unwrap (e : error) : list error :=
  match e with
  | ESentinel _ | EText _ => []
  | EWrap _ e => [e]
  | EWrap2 _ e1 e2 => [e1; e2]
  | NoMatchingCredentialNodeError _ => [ESentinel ErrNoMatchingCredentialNode]
  | DuplicateDelegateError _ => [ESentinel ErrDuplicateDelegate]
  | MissingSignerError _ => [ESentinel ErrMissingSigner]
  | UnsignedCredentialNodeError _ => [ESentinel ErrUnsignedCredentialNode]
  | DelegatePlanUnmatchedError _ => [ESentinel ErrDelegatePlanUnmatched]
  | NonceAlreadyReservedError _ _ => [ESentinel ErrNonceAlreadyReserved]
  | EJoin es => es
  | ETransient e => [ESentinel ErrSignerTransient; e]
  | EChainError _ e => [e]
  | EMarked _ s => [ESentinel s]
  | PolicyRefusal _ _ (Some cause) => [EMarked (Error cause) ErrPolicyRefusal]
  | PolicyRefusal _ _ None => [ESentinel ErrPolicyRefusal]
  | ETyped _ e => [e]
  end.

(** [errors.Is(err, target)] for a sentinel target: some node of the tree is
    that sentinel. *)
Fixpoint errors_Is (e : error) (target : sentinel) : bool :=
  match e with
  | ESentinel s => bool_decide (s = target)
  | EText _ => false
  | EWrap _ e => errors_Is e target
  | EWrap2 _ e1 e2 => errors_Is e1 target || errors_Is e2 target
  | NoMatchingCredentialNodeError _ => bool_decide (ErrNoMatchingCredentialNode = target)
  | DuplicateDelegateError _ => bool_decide (ErrDuplicateDelegate = target)
  | MissingSignerError _ => bool_decide (ErrMissingSigner = target)
  | UnsignedCredentialNodeError _ => bool_decide (ErrUnsignedCredentialNode = target)
  | DelegatePlanUnmatchedError _ => bool_decide (ErrDelegatePlanUnmatched = target)
  | NonceAlreadyReservedError _ _ => bool_decide (ErrNonceAlreadyReserved = target)
  | EJoin es => existsb (λ e, errors_Is e target) es
  | ETransient e => bool_decide (ErrSignerTransient = target) || errors_Is e target
  | EChainError _ e => errors_Is e target
  | EMarked _ s => bool_decide (s = target)
  | PolicyRefusal _ _ _ => bool_decide (ErrPolicyRefusal = target)
  | ETyped _ e => errors_Is e target
  end.

(** [errors.As]: the first value of the tree, in pre-order, that [sel]
    accepts. *)
Fixpoint errors_As {A} (sel : error → option A) (e : error) : option A :=
  match sel e with
  | Some a => Some a
  | None =>
      match e with
      | EWrap _ e | ETransient e | EChainError _ e | ETyped _ e => errors_As sel e
      | EWrap2 _ e1 e2 =>
          match errors_As sel e1 with Some a => Some a | None => errors_As sel e2 end
      | EJoin es =>
          (fix go es := match es with
            | [] => None
            | e :: es' => match errors_As sel e with Some a => Some a | None => go es' end
            end) es
      | _ => None
      end
  end.

Definition as_MissingSignerError (e : error) : option string :=
  match e with MissingSignerError a => Some a | _ => None end.
Definition as_NoMatchingCredentialNodeError (e : error) : option string :=
  match e with NoMatchingCredentialNodeError a => Some a | _ => None end.
Definition as_DuplicateDelegateError (e : error) : option string :=
  match e with DuplicateDelegateError a => Some a | _ => None end.
Definition as_UnsignedCredentialNodeError (e : error) : option string :=
  match e with UnsignedCredentialNodeError a => Some a | _ => None end.
Definition as_DelegatePlanUnmatchedError (e : error) : option string :=
  match e with DelegatePlanUnmatchedError a => Some a | _ => None end.
Definition as_NonceAlreadyReservedError (e : error) : option (string * Z) :=
  match e with NonceAlreadyReservedError a n => Some (a, n) | _ => None end.

(** ** Results *)
Inductive result (A : Type) :=
| Ok (a : A)
| Err (e : error).
Arguments Ok {A} _.
Arguments Err {A} _.

#[export] Instance result_ret : MRet result := λ A a, Ok a.
#[export] Instance result_bind : MBind result := λ A B f m,
  match m with Ok a => f a | Err e => Err e end.
#[export] Instance result_fmap : FMap result := λ A B f m,
  match m with Ok a => Ok (f a) | Err e => Err e end.

(** [if err != nil { return zero, fmt.Errorf(prefix + ": %w", err) }] *)
Definition wrap {A} (prefix : string) (m : result A) : result A :=
  match m with Ok a => Ok a | Err e => Err (EWrap prefix e) end.

(** [if b { return zero, e }] *)
Definition refuse (b : bool) (e : error) : result unit :=
  if b then Err e else Ok tt.

Definition of_option {A} (o : option A) (e : error) : result A :=
  match o with Some a => Ok a | None => Err e end.

Definition is_ok {A} (m : result A) : bool := match m with Ok _ => true | Err _ => false end.

Lemma is_ok_Ok {A} (m : result A) : is_ok m = true → ∃ a, m = Ok a.
Proof. destruct m; [eauto|done]. Qed.

(** The result of mapping a fallible function over a slice, stopping at the
    first error, with the index the [range] loop has. *)
Section imapM.
Context {A B : Type} (f : nat → A → result B).
Fixpoint imapM_from (i : nat) (l : list A) : result (list B) :=
  match l with
  | [] => Ok []
  | x :: l' => y ← f i x; ys ← imapM_from (S i) l'; Ok (y :: ys)
  end.
End imapM.
Abbreviation imapM f := (imapM_from f 0).
Abbreviation rmapM f := (imapM_from (λ _, f) 0).

(** A loop that only checks, stopping at the first error. *)
Section iterM.
Context {A : Type} (f : nat → A → result unit).
Fixpoint iterM_from (i : nat) (l : list A) : result unit :=
  match l with
  | [] => Ok tt
  | x :: l' => _ ← f i x; iterM_from (S i) l'
  end.
End iterM.

(** ** Lemmas *)
Lemma bind_Ok {A B} (m : result A) (k : A → result B) y :
  (x ← m; k x) = Ok y ↔ ∃ x, m = Ok x ∧ k x = Ok y.
Proof. destruct m; cbn; naive_solver. Qed.

Lemma bind_Err {A B} (m : result A) (k : A → result B) e :
  (x ← m; k x) = Err e ↔ m = Err e ∨ ∃ x, m = Ok x ∧ k x = Err e.
Proof. destruct m; cbn; naive_solver. Qed.

Lemma fmap_Ok {A B} (m : result A) (f : A → B) y :
  f <$> m = Ok y ↔ ∃ x, m = Ok x ∧ y = f x.
Proof. destruct m; cbn; naive_solver. Qed.

Lemma wrap_Ok {A} p (m : result A) y : wrap p m = Ok y ↔ m = Ok y.
Proof. destruct m; cbn; naive_solver. Qed.

Lemma wrap_Err {A} p (m : result A) e :
  wrap p m = Err e ↔ ∃ e', m = Err e' ∧ e = EWrap p e'.
Proof. destruct m; cbn; naive_solver. Qed.

Lemma refuse_Ok b e u : refuse b e = Ok u ↔ b = false.
Proof. destruct b, u; cbn; naive_solver. Qed.

Lemma refuse_Err b e e' : refuse b e = Err e' ↔ b = true ∧ e' = e.
Proof. destruct b; cbn; naive_solver. Qed.

Lemma of_option_Ok {A} (o : option A) e a : of_option o e = Ok a ↔ o = Some a.
Proof. destruct o; cbn; naive_solver. Qed.

Lemma imapM_from_Ok {A B} (f : nat → A → result B) i l ys :
  imapM_from f i l = Ok ys ↔
  length ys = length l ∧ ∀ j x, l !! j = Some x → ∃ y, ys !! j = Some y ∧ f (i + j) x = Ok y.
Proof.
  revert i ys. induction l as [|x l IH]; intros i ys; cbn.
  { split; [intros [= <-]; split; [done|by intros ? ? ?]|].
    intros [H _]. destruct ys; [done|discriminate H]. }
  rewrite bind_Ok. split.
  - intros (y & Hy & (ys' & Hys & [= <-])%bind_Ok). apply IH in Hys as [Hl Hys].
    cbn. split; [by f_equal|]. intros [|j] x' Hx; cbn in Hx.
    + simplify_eq. rewrite Nat.add_0_r. by exists y.
    + destruct (Hys _ _ Hx) as (y' & ? & Hf). exists y'. by rewrite <-Nat.add_succ_comm.
  - intros [Hl H]. destruct ys as [|y ys]; [done|]. cbn in Hl.
    destruct (H 0 x eq_refl) as (y' & [= <-] & Hf). rewrite Nat.add_0_r in Hf.
    exists y. split; [done|]. apply bind_Ok. exists ys. split; [|done].
    apply IH. split; [lia|]. intros j x' Hx.
    destruct (H (S j) x' Hx) as (y' & ? & Hf'). exists y'.
    by rewrite Nat.add_succ_comm.
Qed.

Lemma imapM_from_length {A B} (f : nat → A → result B) i l ys :
  imapM_from f i l = Ok ys → length ys = length l.
Proof. by intros [? _]%imapM_from_Ok. Qed.

Lemma imapM_from_ext {A B} (f g : nat → A → result B) i l :
  (∀ j x, x ∈ l → f j x = g j x) → imapM_from f i l = imapM_from g i l.
Proof.
  revert i. induction l as [|x l IH]; intros i H; cbn; [done|].
  rewrite H by constructor. rewrite IH; [done|]. intros. apply H. by constructor.
Qed.

Lemma imapM_from_Forall2 {A B} (f : A → result B) i l ys :
  imapM_from (λ _, f) i l = Ok ys ↔ Forall2 (λ x y, f x = Ok y) l ys.
Proof.
  revert i ys. induction l as [|x l IH]; intros i ys; cbn.
  { split; [by intros [= <-]|]. by inversion 1. }
  rewrite bind_Ok. split.
  - intros (y & Hy & (ys' & Hys & [= <-])%bind_Ok). constructor; [done|].
    by apply (IH (S i)).
  - inversion 1 as [|? y ? ys' Hy Hys]; subst. exists y. split; [done|].
    apply bind_Ok. exists ys'. split; [|done]. by apply IH.
Qed.

Lemma iterM_from_Ok {A} (f : nat → A → result unit) i l u :
  iterM_from f i l = Ok u ↔ ∀ j x, l !! j = Some x → f (i + j) x = Ok tt.
Proof.
  destruct u. revert i. induction l as [|x l IH]; intros i; cbn.
  { split; [by intros ? ? ? ?|done]. }
  rewrite bind_Ok. split.
  - intros ([] & Hx & Hl) [|j] x' H'; cbn in H'.
    + simplify_eq. by rewrite Nat.add_0_r.
    + rewrite <-Nat.add_succ_comm. by eapply (IH (S i)).
  - intros H. exists tt. split; [specialize (H 0 x eq_refl); by rewrite Nat.add_0_r in H|].
    apply IH. intros j x' Hx. rewrite Nat.add_succ_comm. by apply (H (S j)).
Qed.

(** ** Automation: invert a successful computation into its steps *)
Ltac ok_step H :=
  lazymatch type of H with
  | mbind _ _ = Ok _ => apply bind_Ok in H as (? & ? & H)
  | fmap _ _ = Ok _ => apply fmap_Ok in H as (? & H & ?)
  | wrap _ _ = Ok _ => apply wrap_Ok in H
  | refuse _ _ = Ok _ => apply refuse_Ok in H
  | of_option _ _ = Ok _ => apply of_option_Ok in H
  | Ok _ = Ok _ => injection H as H
  | Err _ = Ok _ => discriminate H
  end.

(** Repeats [ok_step] on every hypothesis of the context. *)
Ltac inv_ok :=
  repeat match goal with
  | H : mbind _ _ = Ok _ |- _ =>
      let x := fresh "x" in let Hx := fresh "Hx" in
      apply bind_Ok in H as (x & Hx & H)
  | H : fmap _ _ = Ok _ |- _ =>
      let x := fresh "x" in let Hx := fresh "Hx" in
      apply fmap_Ok in H as (x & H & Hx)
  | H : wrap _ _ = Ok _ |- _ => apply wrap_Ok in H
  | H : refuse _ _ = Ok _ |- _ => apply refuse_Ok in H
  | H : of_option _ _ = Ok _ |- _ => apply of_option_Ok in H
  | H : Ok ?a = Ok ?b |- _ => injection H as H; try (subst a || subst b)
  | H : Err _ = Ok _ |- _ => discriminate H
  | H : Ok _ = Err _ |- _ => discriminate H
  | u : unit |- _ => destruct u
  end.

(** ** [errors.Is] through the wrappers *)
Lemma errors_Is_wrap p e s : errors_Is (EWrap p e) s = errors_Is e s.
Proof. reflexivity. Qed.

(** [errors_Is] is membership of the sentinel in the tree [Unwrap] spans. *)
Inductive wraps : error → sentinel → Prop :=
| wraps_here s : wraps (ESentinel s) s
| wraps_below e e' s : e' ∈ Unwrap e → wraps e' s → wraps e s.

Lemma errors_Is_wraps_1 s : ∀ e, errors_Is e s = true → wraps e s.
Proof.
  assert (Hs : ∀ s', bool_decide (s' = s) = true → wraps (ESentinel s') s).
  { intros s' ->%bool_decide_eq_true. constructor. }
  fix IH 1. intros [s'|?|p e|p e1 e2|a|a|a|a|a|a n|es|e|atts e|t m|r n [c|]|t e] H; cbn in H; try done.
  all: try (eapply wraps_below; [cbn; constructor 1|by apply Hs]).
  - by apply Hs.
  - apply (wraps_below _ e); [cbn; constructor|by apply IH].
  - apply orb_true_iff in H as [H|H].
    + apply (wraps_below _ e1); [cbn; constructor|by apply IH].
    + apply (wraps_below _ e2); [cbn; do 2 constructor|by apply IH].
  - cbn. assert (∃ e, e ∈ es ∧ wraps e s) as (e & He & Hw).
    { induction es as [|e es IHes]; [done|]. cbn in H. apply orb_true_iff in H as [H|H].
      - exists e. split; [constructor|by apply IH].
      - destruct (IHes H) as (e' & ? & ?). exists e'. split; [by constructor|done]. }
    by apply (wraps_below _ e).
  - apply orb_true_iff in H as [H|H].
    + apply (wraps_below _ (ESentinel ErrSignerTransient)); [cbn; constructor|by apply Hs].
    + apply (wraps_below _ e); [cbn; do 2 constructor|by apply IH].
  - apply (wraps_below _ e); [cbn; constructor|by apply IH].
  - apply (wraps_below _ (EMarked (Error c) ErrPolicyRefusal)); [cbn; constructor|].
    apply (wraps_below _ (ESentinel ErrPolicyRefusal)); [cbn; constructor|by apply Hs].
  - apply (wraps_below _ e); [cbn; constructor|by apply IH].
Qed.

Lemma errors_Is_wraps e s : errors_Is e s = true ↔ wraps e s.
Proof.
  split; [apply errors_Is_wraps_1|].
  induction 1 as [s|e e' s Hin Hw IH]; cbn; [by apply bool_decide_eq_true|].
  destruct e as [s1|t1|p1 c1|p1 c1 c2|a1|a1|a1|a1|a1|a1 n1|es1|c1|l1 c1|t1 m1|r1 n1 [c1|]|t1 c1];
    cbn in Hin |- *; repeat (apply elem_of_cons in Hin as [->|Hin]);
    try (by apply not_elem_of_nil in Hin); try done;
    try (by rewrite IH, ?orb_true_r); try (cbn in IH; by rewrite IH).
  apply existsb_In. by exists e'.
Qed.
