(* ===== verification/Xdr.v ===== *)
(** * Xdr: the go-stellar-sdk values the program handles, and the SDK itself

    The XDR types are data: a struct is a [Record]; a discriminated union is
    an [Inductive] with one constructor per arm (its pointer an [option], so
    the "arm is empty" checks of the source are modelled) and one for a
    discriminant no build knows.

    The SDK's functions are not in the repository: they are the fields of the
    class [SDK], and what the source relies on of their documentation is the
    class [SDKLaws].  [xdrcopy.Copy] and [Equal] are the repository's own
    code. *)
From Stdlib Require Import ZArith Lia String.
From stdpp Require Import base list strings countable.
From S2P Require Import Prelude Errors.

Open Scope string_scope. Open Scope nat_scope. Open Scope list_scope.

(** ** Addresses *)
Record AccountId := mkAccountId {
  AccountId_Type : Z;             (* PublicKeyType; 0 is ed25519 *)
  Ed25519 : option bytes
}.

Inductive ScAddress :=
| ScAddressTypeAccount (AccountId : option AccountId)
| ScAddressTypeContract (ContractId : option bytes)
| ScAddressTypeMuxedAccount (raw : option bytes)
| ScAddressTypeClaimableBalance (raw : option bytes)
| ScAddressTypeLiquidityPool (raw : option bytes)
| ScAddressTypeUnknown (t : Z).

#[export] Instance AccountId_eq_dec : EqDecision AccountId.
Proof. solve_eval_decision. Defined.
#[export] Instance ScAddress_eq_dec : EqDecision ScAddress.
Proof. solve_eval_decision. Defined.

(** ** Contract executables and id preimages *)
Inductive ContractExecutable :=
| ContractExecutableWasm (WasmHash : option bytes)
| ContractExecutableStellarAsset
| ContractExecutableExternalRef (ExternalRef : option (ScAddress * string))
| ContractExecutableUnknown (t : Z).

#[export] Instance ContractExecutable_eq_dec : EqDecision ContractExecutable.
Proof. solve_eval_decision. Defined.

(** ** ScVal *)
Record ScContractInstanceOf (V : Type) := mkScContractInstance {
  Executable : ContractExecutable;
  Storage : option (list (V * V))
}.
Arguments mkScContractInstance {V} _ _.
Arguments Executable {V} _.
Arguments Storage {V} _.

Inductive ScVal :=
| ScvBool (B : option bool)
| ScvVoid
| ScvError (Error : option bytes)
| ScvU32 (U32 : option Z)
| ScvI32 (I32 : option Z)
| ScvU64 (U64 : option Z)
| ScvI64 (I64 : option Z)
| ScvTimepoint (Timepoint : option Z)
| ScvDuration (Duration : option Z)
| ScvU128 (U128 : option (Z * Z))
| ScvI128 (I128 : option (Z * Z))
| ScvU256 (U256 : option (Z * Z * Z * Z))
| ScvI256 (I256 : option (Z * Z * Z * Z))
| ScvBytes (Bytes : option bytes)
| ScvString (Str : option string)
| ScvSymbol (Sym : option string)
| ScvVec (Vec : option (option (list ScVal)))
| ScvMap (Map : option (option (list (ScVal * ScVal))))
| ScvAddress (Address : option ScAddress)
| ScvContractInstance (Instance : option (ScContractInstanceOf ScVal))
| ScvLedgerKeyContractInstance
| ScvLedgerKeyNonce (NonceKey : option Z)
| ScvExecutableTag (ExecutableTag : option string)
| ScvUnknown (t : Z).

Abbreviation ScContractInstance := (ScContractInstanceOf ScVal).

(** The induction principle with hypotheses for the elements of vectors, maps
    and instance storage. *)
Section ScVal_nested_ind.
Variable P : ScVal → Prop.
Definition P_pair (kv : ScVal * ScVal) : Prop := P kv.1 ∧ P kv.2.
Hypothesis Hleaf : ∀ v,
  match v with
  | ScvVec (Some (Some _)) | ScvMap (Some (Some _)) => True
  | ScvContractInstance (Some i) => is_Some (Storage i) ∨ P v
  | _ => P v
  end.
Hypothesis Hvec : ∀ l, Forall P l → P (ScvVec (Some (Some l))).
Hypothesis Hmap : ∀ l, Forall P_pair l → P (ScvMap (Some (Some l))).
Hypothesis Hinst : ∀ e l, Forall P_pair l →
  P (ScvContractInstance (Some (mkScContractInstance e (Some l)))).

Lemma ScVal_nested_ind : ∀ v, P v.
Proof.
  fix IH 1.
  assert (IHl : ∀ l, Forall P l).
  { intros l. induction l as [|v l IHl]; constructor; [apply IH|exact IHl]. }
  assert (IHm : ∀ l, Forall P_pair l).
  { intros l. induction l as [|[k v] l IHm']; constructor;
      [split; apply IH|exact IHm']. }
  clear IHl IHm. intros v. pose proof (Hleaf v) as Hl.
  destruct v as [| | | | | | | | | | | | | | | |[[l|]|]|[[l|]|]| |[[e s]|]| | | |];
    try exact Hl.
  - apply Hvec. clear Hl. induction l as [|v l IHl]; constructor; [apply IH|exact IHl].
  - apply Hmap. clear Hl.
    induction l as [|[k v] l IHm]; constructor; [split; apply IH|exact IHm].
  - cbn in Hl. destruct s as [l|].
    + apply Hinst. clear Hl.
      induction l as [|[k v] l IHm]; constructor; [split; apply IH|exact IHm].
    + destruct Hl as [[? Hn]|Hl]; [discriminate Hn|exact Hl].
Qed.
End ScVal_nested_ind.

(** *** ScVal as a finite tree: decidable equality and countability *)
Inductive ScLeaf :=
| LeafZ (z : Z)
| LeafString (s : string)
| LeafBytes (b : bytes)
| LeafAddress (a : ScAddress)
| LeafExecutable (e : ContractExecutable).

#[export] Instance ScLeaf_eq_dec : EqDecision ScLeaf.
Proof. solve_eval_decision. Defined.

Abbreviation ScTree := (gen_tree ScLeaf).

Definition opt_trees {A} (f : A → ScTree) (o : option A) : list ScTree :=
  match o with None => [] | Some a => [f a] end.
Definition leafZ (z : Z) : ScTree := GenLeaf (LeafZ z).
Definition leafS (s : string) : ScTree := GenLeaf (LeafString s).

Fixpoint ScVal_tree (v : ScVal) : ScTree :=
  let pair_tree '(k, w) := GenNode 0 [ScVal_tree k; ScVal_tree w] in
  match v with
  | ScvBool o => GenNode 0 (opt_trees (λ b, leafZ (Z.b2z b)) o)
  | ScvVoid => GenNode 1 []
  | ScvError o => GenNode 2 (opt_trees (λ b, GenLeaf (LeafBytes b)) o)
  | ScvU32 o => GenNode 3 (opt_trees leafZ o)
  | ScvI32 o => GenNode 4 (opt_trees leafZ o)
  | ScvU64 o => GenNode 5 (opt_trees leafZ o)
  | ScvI64 o => GenNode 6 (opt_trees leafZ o)
  | ScvTimepoint o => GenNode 7 (opt_trees leafZ o)
  | ScvDuration o => GenNode 8 (opt_trees leafZ o)
  | ScvU128 None => GenNode 9 []
  | ScvU128 (Some (a, b)) => GenNode 9 [leafZ a; leafZ b]
  | ScvI128 None => GenNode 10 []
  | ScvI128 (Some (a, b)) => GenNode 10 [leafZ a; leafZ b]
  | ScvU256 None => GenNode 11 []
  | ScvU256 (Some (a, b, c, d)) => GenNode 11 [leafZ a; leafZ b; leafZ c; leafZ d]
  | ScvI256 None => GenNode 12 []
  | ScvI256 (Some (a, b, c, d)) => GenNode 12 [leafZ a; leafZ b; leafZ c; leafZ d]
  | ScvBytes o => GenNode 13 (opt_trees (λ b, GenLeaf (LeafBytes b)) o)
  | ScvString o => GenNode 14 (opt_trees leafS o)
  | ScvSymbol o => GenNode 15 (opt_trees leafS o)
  | ScvVec None => GenNode 16 []
  | ScvVec (Some None) => GenNode 16 [GenNode 0 []]
  | ScvVec (Some (Some l)) => GenNode 16 [GenNode 1 (map ScVal_tree l)]
  | ScvMap None => GenNode 17 []
  | ScvMap (Some None) => GenNode 17 [GenNode 0 []]
  | ScvMap (Some (Some l)) => GenNode 17 [GenNode 1 (map pair_tree l)]
  | ScvAddress o => GenNode 18 (opt_trees (λ a, GenLeaf (LeafAddress a)) o)
  | ScvContractInstance None => GenNode 19 []
  | ScvContractInstance (Some i) =>
      GenNode 19 (GenLeaf (LeafExecutable (Executable i)) ::
        match Storage i with
        | None => []
        | Some l => [GenNode 1 (map pair_tree l)]
        end)
  | ScvLedgerKeyContractInstance => GenNode 20 []
  | ScvLedgerKeyNonce o => GenNode 21 (opt_trees leafZ o)
  | ScvExecutableTag o => GenNode 22 (opt_trees leafS o)
  | ScvUnknown t => GenNode 23 [leafZ t]
  end.

Definition untreeZ (l : list ScTree) : option Z :=
  match l with [GenLeaf (LeafZ z)] => Some z | _ => None end.
Definition untreeS (l : list ScTree) : option string :=
  match l with [GenLeaf (LeafString s)] => Some s | _ => None end.
Definition untreeB (l : list ScTree) : option bytes :=
  match l with [GenLeaf (LeafBytes b)] => Some b | _ => None end.

Fixpoint tree_ScVal (t : ScTree) : ScVal :=
  let untree_pair t :=
    match t with
    | GenNode 0 [k; w] => (tree_ScVal k, tree_ScVal w)
    | _ => (ScvVoid, ScvVoid)
    end in
  match t with
  | GenNode 0 l => ScvBool ((λ z, Z.eqb z 1) <$> untreeZ l)
  | GenNode 2 l => ScvError (untreeB l)
  | GenNode 3 l => ScvU32 (untreeZ l)
  | GenNode 4 l => ScvI32 (untreeZ l)
  | GenNode 5 l => ScvU64 (untreeZ l)
  | GenNode 6 l => ScvI64 (untreeZ l)
  | GenNode 7 l => ScvTimepoint (untreeZ l)
  | GenNode 8 l => ScvDuration (untreeZ l)
  | GenNode 9 [GenLeaf (LeafZ a); GenLeaf (LeafZ b)] => ScvU128 (Some (a, b))
  | GenNode 9 _ => ScvU128 None
  | GenNode 10 [GenLeaf (LeafZ a); GenLeaf (LeafZ b)] => ScvI128 (Some (a, b))
  | GenNode 10 _ => ScvI128 None
  | GenNode 11 [GenLeaf (LeafZ a); GenLeaf (LeafZ b); GenLeaf (LeafZ c); GenLeaf (LeafZ d)] =>
      ScvU256 (Some (a, b, c, d))
  | GenNode 11 _ => ScvU256 None
  | GenNode 12 [GenLeaf (LeafZ a); GenLeaf (LeafZ b); GenLeaf (LeafZ c); GenLeaf (LeafZ d)] =>
      ScvI256 (Some (a, b, c, d))
  | GenNode 12 _ => ScvI256 None
  | GenNode 13 l => ScvBytes (untreeB l)
  | GenNode 14 l => ScvString (untreeS l)
  | GenNode 15 l => ScvSymbol (untreeS l)
  | GenNode 16 [] => ScvVec None
  | GenNode 16 [GenNode 1 l] => ScvVec (Some (Some (map tree_ScVal l)))
  | GenNode 16 _ => ScvVec (Some None)
  | GenNode 17 [] => ScvMap None
  | GenNode 17 [GenNode 1 l] => ScvMap (Some (Some (map untree_pair l)))
  | GenNode 17 _ => ScvMap (Some None)
  | GenNode 18 [GenLeaf (LeafAddress a)] => ScvAddress (Some a)
  | GenNode 18 _ => ScvAddress None
  | GenNode 19 [GenLeaf (LeafExecutable e)] =>
      ScvContractInstance (Some (mkScContractInstance e None))
  | GenNode 19 [GenLeaf (LeafExecutable e); GenNode 1 l] =>
      ScvContractInstance (Some (mkScContractInstance e (Some (map untree_pair l))))
  | GenNode 19 _ => ScvContractInstance None
  | GenNode 20 _ => ScvLedgerKeyContractInstance
  | GenNode 21 l => ScvLedgerKeyNonce (untreeZ l)
  | GenNode 22 l => ScvExecutableTag (untreeS l)
  | GenNode 23 [GenLeaf (LeafZ t)] => ScvUnknown t
  | _ => ScvVoid
  end.

Lemma tree_ScVal_tree v : tree_ScVal (ScVal_tree v) = v.
Proof.
  revert v. apply ScVal_nested_ind; [intros v|intros l IH|intros l IH|intros e l IH].
  - destruct v as [[[]|]| |[]|[]|[]|[]|[]|[]|[]|[[]|]|[[]|]|[[[[]]]|]|[[[[]]]|]
      |[]|[]|[]|[[]|]|[[]|]|[]|[[e [l|]]|]| |[]|[]|]; try done;
      [left; by eexists|by right].
  - cbn. do 3 f_equal. induction IH as [|v l Hv _ IHl]; cbn; [done|]. by rewrite Hv, IHl.
  - cbn. do 3 f_equal. induction IH as [|[k v] l [Hk Hv] _ IHl]; cbn; [done|].
    cbn in Hk, Hv. by rewrite Hk, Hv, IHl.
  - cbn. do 4 f_equal. induction IH as [|[k v] l [Hk Hv] _ IHl]; cbn; [done|].
    cbn in Hk, Hv. by rewrite Hk, Hv, IHl.
Qed.

#[export] Instance ScVal_tree_inj : Inj (=) (=) ScVal_tree.
Proof. intros a b H. by rewrite <-(tree_ScVal_tree a), H, tree_ScVal_tree. Qed.

#[export] Instance ScVal_eq_dec : EqDecision ScVal.
Proof.
  intros a b. destruct (decide (ScVal_tree a = ScVal_tree b)) as [H|H].
  - left. by apply (inj ScVal_tree).
  - right. by intros ->.
Defined.

(** ** Authorization entries *)
Record SorobanAddressCredentials := mkAddressCredentials {
  Address : ScAddress;
  Nonce : Z;                                  (* xdr.Int64 *)
  SignatureExpirationLedger : Z;              (* xdr.Uint32 *)
  Signature : ScVal
}.

Inductive SorobanDelegateSignature :=
| mkDelegateSignature (Address : ScAddress) (Signature : ScVal)
    (NestedDelegates : list SorobanDelegateSignature).

Definition delegate_Address (d : SorobanDelegateSignature) : ScAddress :=
  let '(mkDelegateSignature a _ _) := d in a.
Definition delegate_Signature (d : SorobanDelegateSignature) : ScVal :=
  let '(mkDelegateSignature _ s _) := d in s.
Definition NestedDelegates (d : SorobanDelegateSignature) : list SorobanDelegateSignature :=
  let '(mkDelegateSignature _ _ n) := d in n.

Record SorobanAddressCredentialsWithDelegates := mkWithDelegates {
  AddressCredentials : SorobanAddressCredentials;
  Delegates : list SorobanDelegateSignature
}.

(** SorobanCredentialsType: the four arms the protocol defines; any other
    value is a discriminant of a protocol this build does not implement. *)
Definition CredentialsSourceAccount : Z := 0.
Definition CredentialsAddress : Z := 1.
Definition CredentialsAddressV2 : Z := 2.
Definition CredentialsAddressWithDelegates : Z := 3.

(** The Go struct carries the discriminant and one pointer per arm, of which
    the discriminant selects at most one; the others are nil, as the decoder and
    every literal of the source leave them, and are not represented.  The
    projections read the struct's fields, nil for an arm that is not selected;
    [mkCredentials] is the struct literal. *)
Inductive SorobanCredentials :=
| CredentialsOfSourceAccount
| CredentialsOfAddress (Address : option SorobanAddressCredentials)
| CredentialsOfAddressV2 (AddressV2 : option SorobanAddressCredentials)
| CredentialsOfAddressWithDelegates
    (AddressWithDelegates : option SorobanAddressCredentialsWithDelegates)
| CredentialsUnknown (t : Z).

Definition Credentials_Type (c : SorobanCredentials) : Z :=
  match c with
  | CredentialsOfSourceAccount => CredentialsSourceAccount
  | CredentialsOfAddress _ => CredentialsAddress
  | CredentialsOfAddressV2 _ => CredentialsAddressV2
  | CredentialsOfAddressWithDelegates _ => CredentialsAddressWithDelegates
  | CredentialsUnknown t => t
  end.
Definition Credentials_Address (c : SorobanCredentials) : option SorobanAddressCredentials :=
  match c with CredentialsOfAddress a => a | _ => None end.
Definition Credentials_AddressV2 (c : SorobanCredentials) : option SorobanAddressCredentials :=
  match c with CredentialsOfAddressV2 a => a | _ => None end.
Definition Credentials_AddressWithDelegates (c : SorobanCredentials)
    : option SorobanAddressCredentialsWithDelegates :=
  match c with CredentialsOfAddressWithDelegates d => d | _ => None end.

Definition mkCredentials (t : Z) (a v2 : option SorobanAddressCredentials)
    (d : option SorobanAddressCredentialsWithDelegates) : SorobanCredentials :=
  if (t =? CredentialsSourceAccount)%Z then CredentialsOfSourceAccount
  else if (t =? CredentialsAddress)%Z then CredentialsOfAddress a
  else if (t =? CredentialsAddressV2)%Z then CredentialsOfAddressV2 v2
  else if (t =? CredentialsAddressWithDelegates)%Z then CredentialsOfAddressWithDelegates d
  else CredentialsUnknown t.

Lemma mkCredentials_type t a v2 d : Credentials_Type (mkCredentials t a v2 d) = t.
Proof.
  unfold mkCredentials.
  do 4 (match goal with |- context [(t =? ?n)%Z] => destruct (Z.eqb_spec t n); [done|] end). done.
Qed.

Record InvokeContractArgs := mkInvokeContractArgs {
  ContractAddress : ScAddress;
  FunctionName : string;
  Args : list ScVal
}.

Inductive ContractIdPreimage :=
| ContractIdPreimageFromAddress (FromAddress : option (ScAddress * bytes))
| ContractIdPreimageFromAsset (FromAsset : option bytes)
| ContractIdPreimageUnknown (t : Z).

Record CreateContractArgs := mkCreateContractArgs {
  CreateContract_ContractIdPreimage : ContractIdPreimage;
  CreateContract_Executable : ContractExecutable
}.

Record CreateContractArgsV2 := mkCreateContractArgsV2 {
  CreateContractV2_ContractIdPreimage : ContractIdPreimage;
  CreateContractV2_Executable : ContractExecutable;
  ConstructorArgs : list ScVal
}.

Inductive SorobanAuthorizedFunction :=
| FunctionContractFn (ContractFn : option InvokeContractArgs)
| FunctionCreateContractHostFn (CreateContractHostFn : option CreateContractArgs)
| FunctionCreateContractV2HostFn (CreateContractV2HostFn : option CreateContractArgsV2)
| FunctionUnknown (t : Z).

Inductive SorobanAuthorizedInvocation :=
| mkInvocation (Function : SorobanAuthorizedFunction)
    (SubInvocations : list SorobanAuthorizedInvocation).

Definition Invocation_Function (i : SorobanAuthorizedInvocation) : SorobanAuthorizedFunction :=
  let '(mkInvocation f _) := i in f.
Definition SubInvocations (i : SorobanAuthorizedInvocation) : list SorobanAuthorizedInvocation :=
  let '(mkInvocation _ s) := i in s.

Record SorobanAuthorizationEntry := mkEntry {
  Credentials : SorobanCredentials;
  RootInvocation : SorobanAuthorizedInvocation
}.

(** The zero [SorobanCredentials] value's arms, as a composite literal leaves
    them. *)
Definition credentialsOf (t : Z) : SorobanCredentials := mkCredentials t None None None.

(** ** Preimages *)
Definition EnvelopeTypeSorobanAuthorization : Z := 9.
Definition EnvelopeTypeSorobanAuthorizationWithAddress : Z := 10.

Record HashIdPreimageSorobanAuthorization := mkSorobanAuthorization {
  NetworkId : bytes;
  Preimage_Nonce : Z;
  Preimage_SignatureExpirationLedger : Z;
  Invocation : SorobanAuthorizedInvocation
}.

Record HashIdPreimageSorobanAuthorizationWithAddress := mkSorobanAuthorizationWithAddress {
  WithAddress_NetworkId : bytes;
  WithAddress_Nonce : Z;
  WithAddress_SignatureExpirationLedger : Z;
  WithAddress_Address : ScAddress;
  WithAddress_Invocation : SorobanAuthorizedInvocation
}.

(** As for credentials: the discriminant selects the arm. *)
Inductive HashIdPreimage :=
| PreimageOfSorobanAuthorization (arm : option HashIdPreimageSorobanAuthorization)
| PreimageOfSorobanAuthorizationWithAddress
    (arm : option HashIdPreimageSorobanAuthorizationWithAddress)
| PreimageOther (t : Z).

Definition Preimage_Type (p : HashIdPreimage) : Z :=
  match p with
  | PreimageOfSorobanAuthorization _ => EnvelopeTypeSorobanAuthorization
  | PreimageOfSorobanAuthorizationWithAddress _ => EnvelopeTypeSorobanAuthorizationWithAddress
  | PreimageOther t => t
  end.
Definition SorobanAuthorization (p : HashIdPreimage) : option HashIdPreimageSorobanAuthorization :=
  match p with PreimageOfSorobanAuthorization a => a | _ => None end.
Definition SorobanAuthorizationWithAddress (p : HashIdPreimage)
    : option HashIdPreimageSorobanAuthorizationWithAddress :=
  match p with PreimageOfSorobanAuthorizationWithAddress a => a | _ => None end.

Definition mkHashIdPreimage (t : Z) (a : option HashIdPreimageSorobanAuthorization)
    (w : option HashIdPreimageSorobanAuthorizationWithAddress) : HashIdPreimage :=
  if (t =? EnvelopeTypeSorobanAuthorization)%Z then PreimageOfSorobanAuthorization a
  else if (t =? EnvelopeTypeSorobanAuthorizationWithAddress)%Z
  then PreimageOfSorobanAuthorizationWithAddress w
  else PreimageOther t.

(** ** Induction and size of delegate trees *)
Section delegate_ind.
Variable P : SorobanDelegateSignature → Prop.
Hypothesis Hnode : ∀ a s n, Forall P n → P (mkDelegateSignature a s n).

Lemma delegate_nested_ind : ∀ d, P d.
Proof.
  fix IH 1. intros [a s n]. apply Hnode.
  induction n as [|d n IHn]; constructor; [apply IH|exact IHn].
Qed.

Lemma delegates_nested_ind : ∀ ds, Forall P ds.
Proof. intros ds. apply Forall_true, delegate_nested_ind. Qed.
End delegate_ind.

Section invocation_ind.
Variable P : SorobanAuthorizedInvocation → Prop.
Hypothesis Hnode : ∀ f subs, Forall P subs → P (mkInvocation f subs).

Lemma invocation_nested_ind : ∀ i, P i.
Proof.
  fix IH 1. intros [f subs]. apply Hnode.
  induction subs as [|i subs IHs]; constructor; [apply IH|exact IHs].
Qed.
End invocation_ind.

#[export] Instance delegate_eq_dec : EqDecision SorobanDelegateSignature.
Proof.
  intros d1. pattern d1. revert d1. fix go 1. intros [a1 s1 n1] [a2 s2 n2].
  destruct (decide (a1 = a2)) as [Ha|]; [|right; abstract congruence].
  destruct (decide (s1 = s2)) as [Hs|]; [|right; abstract congruence].
  assert (dec : Decision (n1 = n2)).
  { clear Ha Hs. revert n2. induction n1 as [|d1 n1 IH]; intros [|d2 n2]; try (by right).
    - by left.
    - destruct (go d1 d2) as [Hd|]; [|right; congruence].
      destruct (IH n2) as [Hn|]; [left; congruence|right; congruence]. }
  destruct dec as [Hn|]; [left; congruence|right; congruence].
Defined.

#[export] Instance AddressCredentials_eq_dec : EqDecision SorobanAddressCredentials.
Proof. solve_eval_decision. Defined.
#[export] Instance WithDelegates_eq_dec : EqDecision SorobanAddressCredentialsWithDelegates.
Proof. solve_eval_decision. Defined.
#[export] Instance Credentials_eq_dec : EqDecision SorobanCredentials.
Proof. solve_eval_decision. Defined.
#[export] Instance InvokeContractArgs_eq_dec : EqDecision InvokeContractArgs.
Proof. solve_eval_decision. Defined.
#[export] Instance ContractIdPreimage_eq_dec : EqDecision ContractIdPreimage.
Proof. solve_eval_decision. Defined.
#[export] Instance CreateContractArgs_eq_dec : EqDecision CreateContractArgs.
Proof. solve_eval_decision. Defined.
#[export] Instance CreateContractArgsV2_eq_dec : EqDecision CreateContractArgsV2.
Proof. solve_eval_decision. Defined.
#[export] Instance Function_eq_dec : EqDecision SorobanAuthorizedFunction.
Proof. solve_eval_decision. Defined.

#[export] Instance invocation_eq_dec : EqDecision SorobanAuthorizedInvocation.
Proof.
  intros i1. pattern i1. revert i1. fix go 1. intros [f1 n1] [f2 n2].
  destruct (decide (f1 = f2)) as [Hf|]; [|right; abstract congruence].
  assert (dec : Decision (n1 = n2)).
  { clear Hf. revert n2. induction n1 as [|i1 n1 IH]; intros [|i2 n2]; try (by right).
    - by left.
    - destruct (go i1 i2) as [Hi|]; [|right; congruence].
      destruct (IH n2) as [Hn|]; [left; congruence|right; congruence]. }
  destruct dec as [Hn|]; [left; congruence|right; congruence].
Defined.

#[export] Instance Entry_eq_dec : EqDecision SorobanAuthorizationEntry.
Proof. solve_eval_decision. Defined.
#[export] Instance SorobanAuthorization_eq_dec : EqDecision HashIdPreimageSorobanAuthorization.
Proof. solve_eval_decision. Defined.
#[export] Instance SorobanAuthorizationWithAddress_eq_dec :
  EqDecision HashIdPreimageSorobanAuthorizationWithAddress.
Proof. solve_eval_decision. Defined.
#[export] Instance HashIdPreimage_eq_dec : EqDecision HashIdPreimage.
Proof. solve_eval_decision. Defined.

(** ** The SDK's interface *)
(** Binary encoding of an XDR type: [MarshalBinary], the decoder [xdrcopy]
    drives ([DecodeBytes], with the number of bytes it consumed) and
    [UnmarshalBinary]. *)
Class XdrCodec (T : Type) := {
  MarshalBinary : T → result bytes;
  DecodeBytes : bytes → result (T * nat);
  UnmarshalBinary : bytes → result T
}.

(** What the program relies on: encodings are injective, and a decoder given
    an encoding either refuses it (its depth limit) or reads the value back. *)
Class XdrCodecLaws (T : Type) `{XdrCodec T} : Prop := {
  MarshalBinary_inj v w b :
    MarshalBinary v = Ok b → MarshalBinary w = Ok b → v = w;
  DecodeBytes_Marshal v w b n :
    MarshalBinary v = Ok b → DecodeBytes b = Ok (w, n) → w = v;
  UnmarshalBinary_Marshal v w b :
    MarshalBinary v = Ok b → UnmarshalBinary b = Ok w → w = v
}.

Inductive VersionByte :=
| VersionByteAccountID
| VersionByteContract
| VersionByteMuxedAccount
| VersionByteOther (b : Z).

#[export] Instance VersionByte_eq_dec : EqDecision VersionByte.
Proof. solve_eval_decision. Defined.

Class SDK := {
  SDK_ScAddress :: XdrCodec ScAddress;
  SDK_ScVal :: XdrCodec ScVal;
  SDK_Entry :: XdrCodec SorobanAuthorizationEntry;
  SDK_HashIdPreimage :: XdrCodec HashIdPreimage;
  SDK_Function :: XdrCodec SorobanAuthorizedFunction;
  network_ID : string → bytes;
  sha256_Sum256 : bytes → bytes;
  ed25519_Verify : bytes → bytes → bytes → bool;     (* public key, message, signature *)
  strkey_DecodeAny : string → result (VersionByte * bytes);
  strkey_Decode : VersionByte → string → result bytes;
  strkey_Encode : VersionByte → bytes → result string;
  AccountId_GetAddress : AccountId → result string;
  ScValType_String : ScVal → string;                 (* the name of a value's type *)
  Enum_String : string → Z → string                  (* an enum type's name of a value *)
}.

Class SDKLaws `{SDK} : Prop := {
  Laws_ScAddress :: XdrCodecLaws ScAddress;
  Laws_ScVal :: XdrCodecLaws ScVal;
  Laws_Entry :: XdrCodecLaws SorobanAuthorizationEntry;
  Laws_HashIdPreimage :: XdrCodecLaws HashIdPreimage;
  Laws_Function :: XdrCodecLaws SorobanAuthorizedFunction;
  (* an address has no nesting, so its decoder has no depth to refuse *)
  UnmarshalBinary_ScAddress (a : ScAddress) b :
    MarshalBinary a = Ok b → UnmarshalBinary b = Ok a;
  strkey_Decode_Any v s p :
    strkey_Decode v s = Ok p ↔ strkey_DecodeAny s = Ok (v, p);
  strkey_Decode_Encode v s p :
    strkey_Encode v p = Ok s → strkey_DecodeAny s = Ok (v, p);
  strkey_Encode_Decode v s p :
    strkey_DecodeAny s = Ok (v, p) → strkey_Encode v p = Ok s;
  AccountId_GetAddress_ed25519 k :
    AccountId_GetAddress (mkAccountId 0 (Some k)) = strkey_Encode VersionByteAccountID k
}.

(** ** internal/xdrcopy/copy.go *)
Definition Copy {T} `{XdrCodec T} (v : T) : result T :=
  b ← wrap "soroauth: xdrcopy: marshal" (MarshalBinary v);
  '(out, n) ← wrap "soroauth: xdrcopy: unmarshal" (DecodeBytes b);
  _ ← refuse (negb (Nat.eqb n (length b)))
        (EText "soroauth: xdrcopy: unmarshal: consumed fewer bytes than were encoded");
  Ok out.

Lemma Copy_Ok {T} `{XdrCodecLaws T} (v c : T) : Copy v = Ok c → c = v.
Proof.
  unfold Copy. intros Hc. inv_ok. destruct x0 as [out n]. inv_ok.
  by eapply DecodeBytes_Marshal.
Qed.

Lemma Copy_encodes {T} `{XdrCodec T} (v c : T) :
  Copy v = Ok c → ∃ b, MarshalBinary v = Ok b.
Proof. unfold Copy. intros Hc. inv_ok. eauto. Qed.

(** ** equal.go *)
Definition bytesEqual (a b : bytes) : bool :=
  Nat.eqb (length a) (length b) && bytes_Equal a b.

Definition Equal `{SDK} (a b : SorobanAuthorizationEntry) : bool :=
  match MarshalBinary a with
  | Err _ => false
  | Ok ba =>
      match MarshalBinary b with
      | Err _ => false
      | Ok bb => bytesEqual ba bb
      end
  end.

Lemma bytesEqual_spec a b : bytesEqual a b = true ↔ a = b.
Proof.
  unfold bytesEqual. rewrite andb_true_iff, Nat.eqb_eq, bytes_Equal_spec. naive_solver.
Qed.
