(* ===== verification/ModelSDK.v ===== *)
(** * ModelSDK: a concrete SDK that satisfies [SDKLaws]

    The theorems of the development hold for every [SDK] with [SDKLaws].  This
    file gives one such SDK as plain computable functions, so that the
    witnesses evaluate the program on concrete entries and show the laws to be
    satisfiable.  It is a stand-in, not the real XDR, strkey or ed25519: values
    are written as tagged trees, an address is its kind followed by its
    payload, and a signature is the message followed by the public key.  A
    value whose encoding does not read back is refused, which makes the codec
    laws hold by construction. *)
From Stdlib Require Import ZArith Lia Strings.Byte String Ascii.
From stdpp Require Import base list strings countable.
From S2P Require Import Prelude Errors Xdr.

Open Scope string_scope. Open Scope nat_scope. Open Scope list_scope.

(** ** Trees and their byte form *)
Inductive wtree :=
| WLeaf (b : bytes)
| WNode (tag : nat) (l : list wtree).

Fixpoint wser (t : wtree) : bytes :=
  match t with
  | WLeaf b => x00 :: be_bytes 2 (Z.of_nat (length b)) ++ b
  | WNode tag l =>
      x01 :: Zbyte (Z.of_nat tag) :: Zbyte (Z.of_nat (length l)) :: concat (map wser l)
  end.

Section wdeser_list.
Variable item : bytes → option (wtree * bytes).
Fixpoint wdeser_items (n : nat) (b : bytes) : option (list wtree * bytes) :=
  match n with
  | O => Some ([], b)
  | S n =>
      '(t, b) ← item b; '(ts, b) ← wdeser_items n b; Some (t :: ts, b)
  end.
End wdeser_list.

Fixpoint wdeser (fuel : nat) (b : bytes) : option (wtree * bytes) :=
  match fuel with
  | O => None
  | S fuel =>
      match b with
      | x00 :: h :: l :: b =>
          let n := Z.to_nat (be_value [h; l]) in
          if Nat.leb n (length b) then Some (WLeaf (take n b), drop n b) else None
      | x01 :: tag :: n :: b =>
          '(ts, b) ← wdeser_items (wdeser fuel) (Z.to_nat (byteZ n)) b;
          Some (WNode (Z.to_nat (byteZ tag)) ts, b)
      | _ => None
      end
  end.

(** ** Values as trees *)
Definition wZ (z : Z) : wtree := WLeaf (be_bytes 9 (z mod 256 ^ 9)).
Definition wS (s : string) : wtree := WLeaf (bytes_of_string s).
Definition wB (b : bytes) : wtree := WLeaf b.
Definition wO {A} (f : A → wtree) (o : option A) : wtree :=
  match o with None => WNode 0 [] | Some a => WNode 1 [f a] end.
Definition wL {A} (f : A → wtree) (l : list A) : wtree := WNode 0 (map f l).

Definition rZ (t : wtree) : Z :=
  match t with
  | WLeaf b => let v := be_value b in if (v <? 256 ^ 9 / 2)%Z then v else (v - 256 ^ 9)%Z
  | _ => 0%Z
  end.
Definition rB (t : wtree) : bytes := match t with WLeaf b => b | _ => [] end.
Definition rS (t : wtree) : string := string_of_bytes (rB t).
Definition rO {A} (f : wtree → A) (t : wtree) : option A :=
  match t with WNode 1 [t] => Some (f t) | _ => None end.
Definition rL {A} (f : wtree → A) (t : wtree) : list A :=
  match t with WNode _ l => map f l | _ => [] end.

Definition wAccountId (a : AccountId) : wtree :=
  WNode 0 [wZ (AccountId_Type a); wO wB (Ed25519 a)].
Definition rAccountId (t : wtree) : AccountId :=
  match t with WNode _ [a; b] => mkAccountId (rZ a) (rO rB b) | _ => mkAccountId 0 None end.

Definition wAddress (a : ScAddress) : wtree :=
  match a with
  | ScAddressTypeAccount o => WNode 0 [wO wAccountId o]
  | ScAddressTypeContract o => WNode 1 [wO wB o]
  | ScAddressTypeMuxedAccount o => WNode 2 [wO wB o]
  | ScAddressTypeClaimableBalance o => WNode 3 [wO wB o]
  | ScAddressTypeLiquidityPool o => WNode 4 [wO wB o]
  | ScAddressTypeUnknown t => WNode 5 [wZ t]
  end.
Definition rAddress (t : wtree) : ScAddress :=
  match t with
  | WNode 0 [o] => ScAddressTypeAccount (rO rAccountId o)
  | WNode 1 [o] => ScAddressTypeContract (rO rB o)
  | WNode 2 [o] => ScAddressTypeMuxedAccount (rO rB o)
  | WNode 3 [o] => ScAddressTypeClaimableBalance (rO rB o)
  | WNode 4 [o] => ScAddressTypeLiquidityPool (rO rB o)
  | WNode 5 [o] => ScAddressTypeUnknown (rZ o)
  | _ => ScAddressTypeUnknown 0
  end.

Definition wExecutable (e : ContractExecutable) : wtree :=
  match e with
  | ContractExecutableWasm o => WNode 0 [wO wB o]
  | ContractExecutableStellarAsset => WNode 1 []
  | ContractExecutableExternalRef o =>
      WNode 2 [wO (λ '(a, s), WNode 0 [wAddress a; wS s]) o]
  | ContractExecutableUnknown t => WNode 3 [wZ t]
  end.
Definition rExecutable (t : wtree) : ContractExecutable :=
  match t with
  | WNode 0 [o] => ContractExecutableWasm (rO rB o)
  | WNode 1 [] => ContractExecutableStellarAsset
  | WNode 2 [o] => ContractExecutableExternalRef
      (rO (λ t, match t with
                | WNode _ [a; s] => (rAddress a, rS s)
                | _ => (ScAddressTypeUnknown 0, "") end) o)
  | WNode 3 [z] => ContractExecutableUnknown (rZ z)
  | _ => ContractExecutableStellarAsset
  end.

Fixpoint wScTree (t : ScTree) : wtree :=
  match t with
  | GenLeaf (LeafZ z) => WNode 0 [wZ z]
  | GenLeaf (LeafString s) => WNode 1 [wS s]
  | GenLeaf (LeafBytes b) => WNode 2 [wB b]
  | GenLeaf (LeafAddress a) => WNode 3 [wAddress a]
  | GenLeaf (LeafExecutable e) => WNode 4 [wExecutable e]
  | GenNode n l => WNode (10 + n) (map wScTree l)
  end.
Fixpoint rScTree (t : wtree) : ScTree :=
  match t with
  | WNode 0 [z] => GenLeaf (LeafZ (rZ z))
  | WNode 1 [s] => GenLeaf (LeafString (rS s))
  | WNode 2 [b] => GenLeaf (LeafBytes (rB b))
  | WNode 3 [a] => GenLeaf (LeafAddress (rAddress a))
  | WNode 4 [e] => GenLeaf (LeafExecutable (rExecutable e))
  | WNode n l => GenNode (n - 10) (map rScTree l)
  | WLeaf _ => GenNode 0 []
  end.

Definition wScVal (v : ScVal) : wtree := wScTree (ScVal_tree v).
Definition rScVal (t : wtree) : ScVal := tree_ScVal (rScTree t).

Fixpoint wDelegate (d : SorobanDelegateSignature) : wtree :=
  match d with
  | mkDelegateSignature a s n => WNode 0 [wAddress a; wScVal s; WNode 0 (map wDelegate n)]
  end.
Fixpoint rDelegate (t : wtree) : SorobanDelegateSignature :=
  match t with
  | WNode _ [a; s; WNode _ n] => mkDelegateSignature (rAddress a) (rScVal s) (map rDelegate n)
  | _ => mkDelegateSignature (ScAddressTypeUnknown 0) ScvVoid []
  end.

Definition wAddressCredentials (c : SorobanAddressCredentials) : wtree :=
  WNode 0 [wAddress (Address c); wZ (Nonce c); wZ (SignatureExpirationLedger c);
           wScVal (Signature c)].
Definition rAddressCredentials (t : wtree) : SorobanAddressCredentials :=
  match t with
  | WNode _ [a; n; e; s] => mkAddressCredentials (rAddress a) (rZ n) (rZ e) (rScVal s)
  | _ => mkAddressCredentials (ScAddressTypeUnknown 0) 0 0 ScvVoid
  end.

Definition wCredentials (c : SorobanCredentials) : wtree :=
  WNode 0 [wZ (Credentials_Type c); wO wAddressCredentials (Credentials_Address c);
    wO wAddressCredentials (Credentials_AddressV2 c);
    wO (λ d, WNode 0 [wAddressCredentials (AddressCredentials d);
                      wL wDelegate (Delegates d)]) (Credentials_AddressWithDelegates c)].
Definition rCredentials (t : wtree) : SorobanCredentials :=
  match t with
  | WNode _ [ty; a; v2; d] => mkCredentials (rZ ty) (rO rAddressCredentials a)
      (rO rAddressCredentials v2)
      (rO (λ t, match t with
        | WNode _ [c; ds] => mkWithDelegates (rAddressCredentials c) (rL rDelegate ds)
        | _ => mkWithDelegates (rAddressCredentials t) []
        end) d)
  | _ => credentialsOf 0
  end.

Definition wIdPreimage (p : ContractIdPreimage) : wtree :=
  match p with
  | ContractIdPreimageFromAddress o =>
      WNode 0 [wO (λ '(a, b), WNode 0 [wAddress a; wB b]) o]
  | ContractIdPreimageFromAsset o => WNode 1 [wO wB o]
  | ContractIdPreimageUnknown t => WNode 2 [wZ t]
  end.
Definition rIdPreimage (t : wtree) : ContractIdPreimage :=
  match t with
  | WNode 0 [o] => ContractIdPreimageFromAddress
      (rO (λ t, match t with
                | WNode _ [a; b] => (rAddress a, rB b)
                | _ => (ScAddressTypeUnknown 0, []) end) o)
  | WNode 1 [o] => ContractIdPreimageFromAsset (rO rB o)
  | WNode 2 [z] => ContractIdPreimageUnknown (rZ z)
  | _ => ContractIdPreimageUnknown 0
  end.

Definition wFunction (f : SorobanAuthorizedFunction) : wtree :=
  match f with
  | FunctionContractFn o => WNode 0 [wO (λ i,
      WNode 0 [wAddress (ContractAddress i); wS (FunctionName i); wL wScVal (Args i)]) o]
  | FunctionCreateContractHostFn o => WNode 1 [wO (λ i,
      WNode 0 [wIdPreimage (CreateContract_ContractIdPreimage i);
               wExecutable (CreateContract_Executable i)]) o]
  | FunctionCreateContractV2HostFn o => WNode 2 [wO (λ i,
      WNode 0 [wIdPreimage (CreateContractV2_ContractIdPreimage i);
               wExecutable (CreateContractV2_Executable i); wL wScVal (ConstructorArgs i)]) o]
  | FunctionUnknown t => WNode 3 [wZ t]
  end.
Definition rFunction (t : wtree) : SorobanAuthorizedFunction :=
  match t with
  | WNode 0 [o] => FunctionContractFn (rO (λ t, match t with
      | WNode _ [a; s; l] => mkInvokeContractArgs (rAddress a) (rS s) (rL rScVal l)
      | _ => mkInvokeContractArgs (ScAddressTypeUnknown 0) "" [] end) o)
  | WNode 1 [o] => FunctionCreateContractHostFn (rO (λ t, match t with
      | WNode _ [p; e] => mkCreateContractArgs (rIdPreimage p) (rExecutable e)
      | _ => mkCreateContractArgs (ContractIdPreimageUnknown 0) ContractExecutableStellarAsset
      end) o)
  | WNode 2 [o] => FunctionCreateContractV2HostFn (rO (λ t, match t with
      | WNode _ [p; e; l] =>
          mkCreateContractArgsV2 (rIdPreimage p) (rExecutable e) (rL rScVal l)
      | _ => mkCreateContractArgsV2 (ContractIdPreimageUnknown 0)
               ContractExecutableStellarAsset [] end) o)
  | WNode 3 [z] => FunctionUnknown (rZ z)
  | _ => FunctionUnknown 0
  end.

Fixpoint wInvocation (i : SorobanAuthorizedInvocation) : wtree :=
  match i with mkInvocation f subs => WNode 0 [wFunction f; WNode 0 (map wInvocation subs)] end.
Fixpoint rInvocation (t : wtree) : SorobanAuthorizedInvocation :=
  match t with
  | WNode _ [f; WNode _ subs] => mkInvocation (rFunction f) (map rInvocation subs)
  | _ => mkInvocation (FunctionUnknown 0) []
  end.

Definition wEntry (e : SorobanAuthorizationEntry) : wtree :=
  WNode 0 [wCredentials (Credentials e); wInvocation (RootInvocation e)].
Definition rEntry (t : wtree) : SorobanAuthorizationEntry :=
  match t with
  | WNode _ [c; i] => mkEntry (rCredentials c) (rInvocation i)
  | _ => mkEntry (credentialsOf 0) (rInvocation t)
  end.

Definition wPreimage (p : HashIdPreimage) : wtree :=
  WNode 0 [wZ (Preimage_Type p);
    wO (λ a, WNode 0 [wB (NetworkId a); wZ (Preimage_Nonce a);
                      wZ (Preimage_SignatureExpirationLedger a); wInvocation (Invocation a)])
      (SorobanAuthorization p);
    wO (λ a, WNode 0 [wB (WithAddress_NetworkId a); wZ (WithAddress_Nonce a);
                      wZ (WithAddress_SignatureExpirationLedger a);
                      wAddress (WithAddress_Address a); wInvocation (WithAddress_Invocation a)])
      (SorobanAuthorizationWithAddress p)].
Definition rPreimage (t : wtree) : HashIdPreimage :=
  match t with
  | WNode _ [ty; a; w] => mkHashIdPreimage (rZ ty)
      (rO (λ t, match t with
        | WNode _ [n; c; e; i] => mkSorobanAuthorization (rB n) (rZ c) (rZ e) (rInvocation i)
        | _ => mkSorobanAuthorization [] 0 0 (rInvocation t) end) a)
      (rO (λ t, match t with
        | WNode _ [n; c; e; ad; i] => mkSorobanAuthorizationWithAddress (rB n) (rZ c) (rZ e)
            (rAddress ad) (rInvocation i)
        | _ => mkSorobanAuthorizationWithAddress [] 0 0 (rAddress t) (rInvocation t) end) w)
  | _ => mkHashIdPreimage 0 None None
  end.

(** ** The codecs *)
Section codec.
Context {T : Type} `{EqDecision T} (w : T → wtree) (r : wtree → T).

Definition model_Decode (b : bytes) : result (T * nat) :=
  match wdeser 64 b with
  | Some (t, rest) => Ok (r t, (length b - length rest)%nat)
  | None => Err (EText "malformed encoding")
  end.

Definition model_Marshal (v : T) : result bytes :=
  let b := wser (w v) in
  match model_Decode b with
  | Ok (v', n) =>
      if decide (v' = v) then Ok b else Err (EText "value does not encode")
  | Err e => Err e
  end.

Definition model_codec : XdrCodec T := {|
  MarshalBinary := model_Marshal;
  DecodeBytes := model_Decode;
  UnmarshalBinary b := '(v, _) ← model_Decode b; Ok v
|}.

Lemma model_Marshal_Decode v b :
  model_Marshal v = Ok b → ∃ n, model_Decode b = Ok (v, n).
Proof.
  unfold model_Marshal. intros H.
  destruct (model_Decode (wser (w v))) as [[v' n]|] eqn:E; [|done].
  destruct (decide (v' = v)) as [->|]; [|done]. injection H as <-. eauto.
Qed.

Lemma model_codec_laws : @XdrCodecLaws T model_codec.
Proof.
  split; cbn; intros v v' b.
  - intros (n & H)%model_Marshal_Decode (n' & H')%model_Marshal_Decode. congruence.
  - intros n (n' & H)%model_Marshal_Decode H'. congruence.
  - intros (n & H)%model_Marshal_Decode. rewrite H. cbn. congruence.
Qed.
End codec.

(** ** Hash, signature and address text *)
Definition model_sha256 (b : bytes) : bytes :=
  be_bytes 32 (foldl (λ acc x, (acc * 31 + byteZ x + 1) mod 2 ^ 16)%Z 7%Z b).

Definition model_ed25519_Verify (pk msg sig : bytes) : bool := bytes_Equal sig (msg ++ pk).

Definition model_version_char (v : VersionByte) : option ascii :=
  match v with
  | VersionByteAccountID => Some "G"%char
  | VersionByteContract => Some "C"%char
  | VersionByteMuxedAccount => Some "M"%char
  | VersionByteOther _ => None
  end.

Definition model_Encode (v : VersionByte) (p : bytes) : result string :=
  match model_version_char v with
  | Some c => Ok (String c (string_of_bytes p))
  | None => Err (EText "invalid version byte")
  end.

Definition model_DecodeAny (s : string) : result (VersionByte * bytes) :=
  match s with
  | String "G" p => Ok (VersionByteAccountID, bytes_of_string p)
  | String "C" p => Ok (VersionByteContract, bytes_of_string p)
  | String "M" p => Ok (VersionByteMuxedAccount, bytes_of_string p)
  | _ => Err (EText "strkey is invalid")
  end.

Definition model_DecodeV (v : VersionByte) (s : string) : result bytes :=
  '(v', p) ← model_DecodeAny s;
  if decide (v' = v) then Ok p else Err (EText "invalid version byte").

Definition model_GetAddress (a : AccountId) : result string :=
  match Ed25519 a with
  | Some k => if (AccountId_Type a =? 0)%Z then model_Encode VersionByteAccountID k
              else Err (EText "unknown account id type")
  | None => Err (EText "account id has no key")
  end.

#[export] Instance ModelSDK : SDK := {|
  SDK_ScAddress := model_codec wAddress rAddress;
  SDK_ScVal := model_codec wScVal rScVal;
  SDK_Entry := model_codec wEntry rEntry;
  SDK_HashIdPreimage := model_codec wPreimage rPreimage;
  SDK_Function := model_codec wFunction rFunction;
  network_ID s := model_sha256 (bytes_of_string s);
  sha256_Sum256 := model_sha256;
  ed25519_Verify := model_ed25519_Verify;
  strkey_DecodeAny := model_DecodeAny;
  strkey_Decode := model_DecodeV;
  strkey_Encode := model_Encode;
  AccountId_GetAddress := model_GetAddress;
  ScValType_String _ := "ScVal";
  Enum_String name v := name
|}.

Lemma model_Decode_Encode v s p : model_Encode v p = Ok s → model_DecodeAny s = Ok (v, p).
Proof.
  unfold model_Encode. destruct v; cbn; intros [= <-]; cbn;
    by rewrite bytes_of_string_of_bytes.
Qed.

Lemma model_Encode_Decode v s p : model_DecodeAny s = Ok (v, p) → model_Encode v p = Ok s.
Proof.
  unfold model_DecodeAny. intros H.
  repeat (case_match; try discriminate H); simplify_eq/=; unfold model_Encode; cbn;
    by rewrite string_of_bytes_of_string.
Qed.

#[export] Instance ModelSDKLaws : SDKLaws.
Proof.
  split; try exact (model_codec_laws _ _); cbn.
  - intros a b (n & H)%model_Marshal_Decode. by rewrite H.
  - intros v s p. unfold model_DecodeV. split.
    + intros ([v' p'] & H1 & H2)%bind_Ok. destruct (decide (v' = v)); [|done]. congruence.
    + intros ->. cbn. by rewrite decide_True.
  - apply model_Decode_Encode.
  - apply model_Encode_Decode.
  - done.
Qed.
