(* ===== verification/Runtime.v ===== *)
(** * Runtime: contexts, the effect monad, hooks and the Signer interface

    Signing calls out: a [context.Context] is polled, a [Signer] is asked for a
    signature, hooks and audit callbacks are told.  [World] is the part of the
    outside the program can observe or act on: a clock, which every poll and
    every call advances, and the log of what the program asked of the outside.
    [IO] threads it and an error result through a computation.  The log is
    bookkeeping of the model: the program never reads it. *)
From Stdlib Require Import ZArith Lia String.
From stdpp Require Import base list strings.
From S2P Require Import Prelude Errors Xdr.

Open Scope string_scope. Open Scope nat_scope. Open Scope list_scope.

(** ** Hook events (hooks.go) *)
Inductive HookPhase := HookPhasePreimage | HookPhaseSign | HookPhasePostSign | HookPhaseWrite.

#[export] Instance HookPhase_eq_dec : EqDecision HookPhase.
Proof. solve_decision. Defined.

Record HookEvent := mkHookEvent {
  Phase : HookPhase;
  CredentialType : string;
  TargetAddress : string;
  ValidUntilLedger : Z;
  Duration : Z;
  HookError : option error;
  NodeCount : Z;
  SignedNodeCount : Z
}.

(** A composite literal that names only the first four fields. *)
Definition hookEvent (p : HookPhase) (credentialType target : string) (validUntil : Z)
    (err : option error) : HookEvent :=
  mkHookEvent p credentialType target validUntil 0 err 0 0.

(** ** The world *)
Inductive Event :=
| EvHook (hook : nat) (e : HookEvent)
| EvSign (address : string) (preimage : HashIdPreimage) (payload : bytes)
| EvSleep (duration : Z)
| EvAudit (a : ChainAttempt)
| EvRPC (method argument : string)
| EvPrint (stream text : string).

Record World := mkWorld { now : nat; log : list Event }.

Definition tick (w : World) : World := mkWorld (S (now w)) (log w).
Definition emit_event (e : Event) (w : World) : World := mkWorld (S (now w)) (log w ++ [e]).
Definition initial_world : World := mkWorld 0 [].

Definition IO (A : Type) : Type := World → result A * World.

#[export] Instance IO_ret : MRet IO := λ A a w, (Ok a, w).
#[export] Instance IO_bind : MBind IO := λ A B f m w,
  match m w with
  | (Ok a, w') => f a w'
  | (Err e, w') => (Err e, w')
  end.

(** A pure step, an error included. *)
Definition lift {A} (r : result A) : IO A := λ w, (r, w).
(** Runs a step and hands its result over, error or not. *)
Definition try_ {A} (m : IO A) : IO (result A) := λ w, let '(r, w') := m w in (Ok r, w').
Definition io_wrap {A} (prefix : string) (m : IO A) : IO A :=
  λ w, let '(r, w') := m w in (wrap prefix r, w').
Definition perform (e : Event) : IO unit := λ w, (Ok tt, emit_event e w).

(** ** context.Context *)
(** [ctx.Err()] as a function of the clock: cancellation and deadlines arrive
    from outside. *)
Record Ctx := mkCtx { ctx_Err : nat → option error }.

Definition Background : Ctx := mkCtx (λ _, None).
Definition Canceled : Ctx := mkCtx (λ _, Some (ESentinel ContextCanceled)).

(** A context that has been cancelled stays cancelled. *)
Definition ctx_monotone (ctx : Ctx) : Prop :=
  ∀ t t' e, (t ≤ t')%nat → ctx_Err ctx t = Some e → ctx_Err ctx t' = Some e.

Definition ctx_poll (ctx : Ctx) : IO (option error) :=
  λ w, (Ok (ctx_Err ctx (now w)), tick w).

(** [if err := ctx.Err(); err != nil { return ..., fmt.Errorf(prefix + ": %w", err) }] *)
Definition ctx_check (ctx : Ctx) (prefix : string) : IO unit :=
  o ← ctx_poll ctx;
  match o with
  | Some e => lift (Err (EWrap prefix e))
  | None => lift (Ok tt)
  end.

(** ** hooks.go *)
(** A hook is told an event and may fail; it is caller code, so it may act on
    the world as it likes. *)
Definition Hook : Type := Ctx → HookEvent → IO unit.

Definition NoOpHook : Hook := λ _ _, mret tt.

Definition hookList : Type := list Hook.

(** Interface values may be nil; only non-nil hooks are kept. *)
Definition newHookList (hooks : list (option Hook)) : hookList := omap id hooks.

Definition hasHooks (l : hookList) : bool := Nat.ltb 0 (length l).

Fixpoint emit_from (i : nat) (ctx : Ctx) (l : hookList) (e : HookEvent) : IO unit :=
  match l with
  | [] => mret tt
  | h :: l' =>
      _ ← perform (EvHook i e);
      _ ← try_ (h ctx e);
      emit_from (S i) ctx l' e
  end.

Definition emit (ctx : Ctx) (l : hookList) (e : HookEvent) : IO unit :=
  if negb (hasHooks l) then mret tt else emit_from 0 ctx l e.

(** ** The Signer interface (signer.go, delegates.go) *)
(** [SignerCapabilities], the optional interface of delegates.go. *)
Record SignerCapabilities := mkCapabilities {
  IsDeterministic : bool;
  IsInteractive : bool;
  IsRemote : bool;
  SupportsBatchedPresence : bool
}.

Record Signer := mkSigner {
  signer_Address : string;
  signer_Sign : Ctx → HashIdPreimage → bytes → IO ScVal;
  signer_Capabilities : option SignerCapabilities
}.

Definition defaultSignerCapabilities : SignerCapabilities :=
  mkCapabilities false true false false.

Definition GetSignerCapabilities (s : Signer) : SignerCapabilities :=
  match signer_Capabilities s with
  | Some caps => caps
  | None => defaultSignerCapabilities
  end.

(** A call of [signer.Sign], recorded in the log. *)
Definition call_Sign (s : Signer) (ctx : Ctx) (preimage : HashIdPreimage) (payload : bytes)
    : IO ScVal :=
  _ ← perform (EvSign (signer_Address s) preimage payload);
  signer_Sign s ctx preimage payload.

(** ** Lemmas *)
Lemma io_bind_Ok {A B} (m : IO A) (k : A → IO B) w y w' :
  (x ← m; k x) w = (Ok y, w') ↔ ∃ x w1, m w = (Ok x, w1) ∧ k x w1 = (Ok y, w').
Proof.
  unfold mbind, IO_bind. destruct (m w) as [[a|e] w1]; naive_solver.
Qed.

Lemma io_bind_Err {A B} (m : IO A) (k : A → IO B) w e w' :
  (x ← m; k x) w = (Err e, w') ↔
  m w = (Err e, w') ∨ ∃ x w1, m w = (Ok x, w1) ∧ k x w1 = (Err e, w').
Proof.
  unfold mbind, IO_bind. destruct (m w) as [[a|e'] w1]; naive_solver.
Qed.

Lemma lift_Ok {A} (r : result A) w y w' : lift r w = (Ok y, w') ↔ r = Ok y ∧ w' = w.
Proof. unfold lift. naive_solver. Qed.

Lemma lift_Err {A} (r : result A) w e w' : lift r w = (Err e, w') ↔ r = Err e ∧ w' = w.
Proof. unfold lift. naive_solver. Qed.

Lemma io_wrap_Ok {A} p (m : IO A) w y w' : io_wrap p m w = (Ok y, w') ↔ m w = (Ok y, w').
Proof. unfold io_wrap. destruct (m w) as [[a|e] w1]; cbn; naive_solver. Qed.

Lemma io_wrap_Err {A} p (m : IO A) w e w' :
  io_wrap p m w = (Err e, w') ↔ ∃ e', m w = (Err e', w') ∧ e = EWrap p e'.
Proof. unfold io_wrap. destruct (m w) as [[a|e'] w1]; cbn; naive_solver. Qed.

Lemma try_spec {A} (m : IO A) w r w' : try_ m w = (Ok r, w') ↔ m w = (r, w').
Proof. unfold try_. destruct (m w) as [r' w1]; cbn; naive_solver. Qed.

Lemma perform_Ok e w u w' : perform e w = (Ok u, w') ↔ w' = emit_event e w.
Proof. unfold perform. destruct u. naive_solver. Qed.

Lemma ctx_check_Ok ctx p w u w' :
  ctx_check ctx p w = (Ok u, w') ↔ ctx_Err ctx (now w) = None ∧ w' = tick w.
Proof.
  unfold ctx_check, ctx_poll, mbind, IO_bind. destruct u.
  destruct (ctx_Err ctx (now w)); cbn; unfold lift; split.
  - discriminate.
  - by intros [? _].
  - by intros [= <-].
  - by intros [_ ->].
Qed.

Lemma ctx_check_Err ctx p w e w' :
  ctx_check ctx p w = (Err e, w') ↔
  ∃ e', ctx_Err ctx (now w) = Some e' ∧ e = EWrap p e' ∧ w' = tick w.
Proof.
  unfold ctx_check, ctx_poll, mbind, IO_bind.
  destruct (ctx_Err ctx (now w)) as [e'|]; cbn; unfold lift; split.
  - intros [= <- <-]. by exists e'.
  - by intros (? & [= ->] & -> & ->).
  - discriminate.
  - by intros (? & ? & _).
Qed.

(** The hooks never change the outcome: [emit] always succeeds. *)
Lemma emit_Ok ctx l e w : ∃ w', emit ctx l e w = (Ok tt, w').
Proof.
  unfold emit. destruct (hasHooks l); cbn; [|by eexists].
  generalize 0. revert w. induction l as [|h l IH]; intros w i; cbn; [by eexists|].
  unfold mbind at 1, IO_bind at 1. cbn.
  unfold mbind at 1, IO_bind at 1, try_ at 1. cbn.
  destruct (h ctx e (emit_event (EvHook i e) w)) as [r w1]. apply IH.
Qed.

Lemma emit_nil ctx e w : emit ctx [] e w = (Ok tt, w).
Proof. reflexivity. Qed.

(** A hook that leaves no trace of its own. *)
Definition quiet (h : Hook) : Prop := ∀ ctx e w, ∃ r, h ctx e w = (r, w).

Lemma emit_log_quiet ctx l e w w' :
  Forall quiet l → emit ctx l e w = (Ok tt, w') →
  log w' = log w ++ imap (λ i _, EvHook i e) l.
Proof.
  intros Hq. unfold emit. destruct (hasHooks l) eqn:Hh; cbn; last first.
  { destruct l; [|done]. intros [= <-]. cbn. by rewrite app_nil_r. }
  clear Hh. intros He.
  assert (∀ i w, emit_from i ctx l e w = (Ok tt, w') →
    log w' = log w ++ imap (λ j _, EvHook (i + j) e) l) as Hgen; [|by apply (Hgen 0)].
  clear He w. induction Hq as [|h l Hh _ IH]; intros i w He; cbn in He |- *.
  { injection He as <-. by rewrite app_nil_r. }
  unfold mbind at 1, IO_bind at 1 in He. cbn in He.
  unfold mbind at 1, IO_bind at 1, try_ at 1 in He.
  destruct (Hh ctx e (emit_event (EvHook i e) w)) as [r Hr]. rewrite Hr in He.
  apply IH in He. rewrite He. cbn. rewrite <-app_assoc, Nat.add_0_r. cbn. do 2 f_equal.
  apply imap_ext. intros j ? ?. cbn. by rewrite Nat.add_succ_r.
Qed.

Definition hookLog (l : hookList) (e : HookEvent) : list Event := imap (λ i _, EvHook i e) l.

(** An [emit] by quiet hooks followed by a continuation, on any outcome. *)
Lemma emit_bind_quiet {A} ctx l e (k : unit → IO A) w r w' :
  (x ← emit ctx l e; k x) w = (r, w') → Forall quiet l →
  ∃ w1, log w1 = log w ++ hookLog l e ∧ k tt w1 = (r, w').
Proof.
  unfold mbind at 1, IO_bind at 1. destruct (emit_Ok ctx l e w) as [w1 He]. rewrite He.
  intros Hk Hq. exists w1. split; [by eapply emit_log_quiet|done].
Qed.

Lemma emit_bind_ok {A} ctx l e (k : unit → IO A) w :
  (∀ w1, ∃ y w', k tt w1 = (Ok y, w')) → ∃ y w', (x ← emit ctx l e; k x) w = (Ok y, w').
Proof.
  intros Hk. unfold mbind, IO_bind. destruct (emit_Ok ctx l e w) as [w1 ->]. apply Hk.
Qed.

(** A signer that leaves no trace of its own. *)
Definition silent (s : Signer) : Prop :=
  ∀ ctx pre payload w, log (signer_Sign s ctx pre payload w).2 = log w.

Lemma call_Sign_silent {B} s ctx pre payload (k : result ScVal → IO B) w r w' :
  (x ← try_ (call_Sign s ctx pre payload); k x) w = (r, w') → silent s →
  ∃ rs w1, log w1 = log w ++ [EvSign (signer_Address s) pre payload] ∧ k rs w1 = (r, w').
Proof.
  unfold mbind at 1, IO_bind at 1, try_, call_Sign.
  unfold mbind at 1, IO_bind at 1. cbn. intros Hk Hs.
  specialize (Hs ctx pre payload (emit_event (EvSign (signer_Address s) pre payload) w)).
  destruct (signer_Sign _ _ _ _ _) as [rs w1]. by exists rs, w1.
Qed.

(** ** A logic for what a computation asks of the outside *)
(** [logs m P]: from any world, [m] only appends to the log, and its result and
    what it appended satisfy [P]. *)
Definition logs {A} (m : IO A) (P : result A → list Event → Prop) : Prop :=
  ∀ w, ∃ r w' l, m w = (r, w') ∧ log w' = log w ++ l ∧ P r l.

Section logs.
Context {A : Type}.
Implicit Types (P : result A → list Event → Prop).

Lemma logs_run (m : IO A) P w r w' :
  logs m P → m w = (r, w') → ∃ l, log w' = log w ++ l ∧ P r l.
Proof. intros Hm Hw. destruct (Hm w) as (r1 & w1 & l & E & ? & ?). exists l. rewrite E in Hw. by simplify_eq. Qed.

Lemma logs_weaken (m : IO A) P Q : logs m P → (∀ r l, P r l → Q r l) → logs m Q.
Proof. intros Hm HPQ w. destruct (Hm w) as (r & w' & l & ? & ? & ?). exists r, w', l. auto. Qed.

Lemma logs_quiet (m : IO A) P :
  (∀ w, ∃ r w', m w = (r, w') ∧ log w' = log w ∧ P r []) → logs m P.
Proof.
  intros Hm w. destruct (Hm w) as (r & w' & E & Hl & HP). exists r, w', [].
  by rewrite app_nil_r.
Qed.

Lemma logs_lift (r : result A) P : P r [] → logs (lift r) P.
Proof. intros HP. apply logs_quiet. intros w. by exists r, w. Qed.

Lemma logs_ret (a : A) P : P (Ok a) [] → logs (mret a) P.
Proof. apply logs_lift. Qed.

Lemma logs_bind {B} (m : IO B) (k : B → IO A) P :
  logs m (λ r l, match r with
                 | Ok b => logs (k b) (λ r' l', P r' (l ++ l'))
                 | Err e => P (Err e) l
                 end) →
  logs (x ← m; k x) P.
Proof.
  intros Hm w. destruct (Hm w) as (r & w1 & l & E & Hl & HP).
  unfold mbind, IO_bind. rewrite E. destruct r as [b|e]; [|by exists (Err e), w1, l].
  destruct (HP w1) as (r' & w2 & l' & E' & Hl' & HP'). exists r', w2, (l ++ l').
  by rewrite Hl', Hl, app_assoc.
Qed.
End logs.

Lemma logs_try {A} (m : IO A) P : logs m (λ r l, P (Ok r) l) → logs (try_ m) P.
Proof.
  intros Hm w. destruct (Hm w) as (r & w' & l & E & ? & ?). exists (Ok r), w', l.
  unfold try_. by rewrite E.
Qed.

Lemma logs_wrap {A} p (m : IO A) P : logs m (λ r l, P (wrap p r) l) → logs (io_wrap p m) P.
Proof.
  intros Hm w. destruct (Hm w) as (r & w' & l & E & ? & ?). exists (wrap p r), w', l.
  unfold io_wrap. by rewrite E.
Qed.

Lemma logs_ctx_check ctx p P :
  P (Ok tt) [] → (∀ e, P (Err (EWrap p e)) []) → logs (ctx_check ctx p) P.
Proof.
  intros H1 H2. apply logs_quiet. intros w. unfold ctx_check, ctx_poll, mbind, IO_bind.
  destruct (ctx_Err ctx (now w)) as [e|]; cbn; do 2 eexists; (split; [reflexivity|]); auto.
Qed.

Lemma logs_perform e P : P (Ok tt) [e] → logs (perform e) P.
Proof. intros HP w. by exists (Ok tt), (emit_event e w), [e]. Qed.

Lemma logs_emit ctx l e P : Forall quiet l → P (Ok tt) (hookLog l e) → logs (emit ctx l e) P.
Proof.
  intros Hq HP w. destruct (emit_Ok ctx l e w) as [w' He]. exists (Ok tt), w', (hookLog l e).
  split; [done|]. split; [by eapply emit_log_quiet|done].
Qed.

Lemma logs_call_Sign s ctx pre payload P :
  silent s → (∀ r, P r [EvSign (signer_Address s) pre payload]) →
  logs (call_Sign s ctx pre payload) P.
Proof.
  intros Hs HP. apply logs_bind, logs_perform, logs_quiet. intros w.
  specialize (Hs ctx pre payload w). destruct (signer_Sign s ctx pre payload w) as [r w'].
  exists r, w'. auto.
Qed.

(** ** Automation: invert a successful effectful computation *)
Ltac inv_io :=
  repeat match goal with
  | H : mbind _ _ _ = (Ok _, _) |- _ =>
      let x := fresh "x" in let w := fresh "w" in let Hx := fresh "Hx" in
      apply io_bind_Ok in H as (x & w & Hx & H)
  | H : io_wrap _ _ _ = (Ok _, _) |- _ => apply io_wrap_Ok in H
  | H : lift _ _ = (Ok _, _) |- _ =>
      let H1 := fresh "Hl" in apply lift_Ok in H as [H1 H]; subst
  | H : perform _ _ = (Ok _, _) |- _ => apply perform_Ok in H; subst
  | H : ctx_check _ _ _ = (Ok _, _) |- _ =>
      let H1 := fresh "Hctx" in apply ctx_check_Ok in H as [H1 H]; subst
  | H : try_ _ _ = (Ok _, _) |- _ => apply (proj1 (try_spec _ _ _ _)) in H
  | H : mret _ _ = (Ok _, _) |- _ => injection H as H; subst
  | H : (Ok _, _) = (Ok _, _) |- _ => injection H as H; subst
  | H : (Err _, _) = (Ok _, _) |- _ => discriminate H
  | u : unit |- _ => destruct u
  end.
