(* ===== verification/Examples.v ===== *)
(** * Examples: concrete entries, signers and contexts for the witnesses

    Accounts [ex_account b] are 32 repetitions of one byte; their strkey text
    under [ModelSDK] is [ex_text b].  [ex_signer b] signs as [ModelSDK] checks:
    the payload followed by the public key, in the host's account shape. *)
From Stdlib Require Import ZArith Lia Strings.Byte String.
From stdpp Require Import base list strings.
From S2P Require Import Prelude Errors Xdr ModelSDK Runtime.

Open Scope string_scope. Open Scope nat_scope. Open Scope list_scope.

Definition ex_key (b : Byte.byte) : bytes := replicate 32 b.
Definition ex_account (b : Byte.byte) : ScAddress :=
  ScAddressTypeAccount (Some (mkAccountId 0 (Some (ex_key b)))).
Definition ex_contract (b : Byte.byte) : ScAddress := ScAddressTypeContract (Some (ex_key b)).
Definition ex_text (b : Byte.byte) : string := "G" +:+ string_of_bytes (ex_key b).
Definition ex_contract_text (b : Byte.byte) : string := "C" +:+ string_of_bytes (ex_key b).

Definition ex_invocation : SorobanAuthorizedInvocation :=
  mkInvocation
    (FunctionContractFn (Some (mkInvokeContractArgs (ex_contract "z") "transfer"
       [ScvU32 (Some 7%Z); ScvSymbol (Some "to")])))
    [mkInvocation (FunctionContractFn
       (Some (mkInvokeContractArgs (ex_contract "y") "burn" []))) []].

Definition ex_credentials (b : Byte.byte) (exp : Z) (sig : ScVal) : SorobanAddressCredentials :=
  mkAddressCredentials (ex_account b) 42 exp sig.

Definition ex_legacy (b : Byte.byte) (exp : Z) (sig : ScVal) : SorobanAuthorizationEntry :=
  mkEntry (mkCredentials CredentialsAddress (Some (ex_credentials b exp sig)) None None)
    ex_invocation.

Definition ex_v2 (b : Byte.byte) (exp : Z) (sig : ScVal) : SorobanAuthorizationEntry :=
  mkEntry (mkCredentials CredentialsAddressV2 None (Some (ex_credentials b exp sig)) None)
    ex_invocation.

Definition ex_with_delegates (b : Byte.byte) (exp : Z) (sig : ScVal)
    (ds : list SorobanDelegateSignature) : SorobanAuthorizationEntry :=
  mkEntry (mkCredentials CredentialsAddressWithDelegates None None
             (Some (mkWithDelegates (ex_credentials b exp sig) ds)))
    ex_invocation.

Definition ex_source : SorobanAuthorizationEntry :=
  mkEntry (credentialsOf CredentialsSourceAccount) ex_invocation.

(** Account [a] with delegates [b] (delegating on to [c]) and [c]: the
    address [c] appears at two depths. *)
Definition ex_tree : list SorobanDelegateSignature :=
  [mkDelegateSignature (ex_account "b") ScvVoid [mkDelegateSignature (ex_account "c") ScvVoid []];
   mkDelegateSignature (ex_account "c") (ScvVec (Some (Some []))) []].

Definition ex_delegates : SorobanAuthorizationEntry := ex_with_delegates "a" 0 ScvVoid ex_tree.

Definition ex_account_signature (pk sig : bytes) : ScVal :=
  ScvVec (Some (Some [ScvMap (Some (Some
    [(ScvSymbol (Some "public_key"), ScvBytes (Some pk));
     (ScvSymbol (Some "signature"), ScvBytes (Some sig))]))])).

Definition ex_signer (b : Byte.byte) : Signer := mkSigner (ex_text b)
  (λ _ _ payload, mret (ex_account_signature (ex_key b) (payload ++ ex_key b))) None.

Definition ex_failing_signer (b : Byte.byte) (e : error) : Signer :=
  mkSigner (ex_text b) (λ _ _ _, lift (Err e)) None.

Definition ex_network : string := "Test SDF Network ; September 2015".
