(* ===== verification/Clone.v ===== *)
(** * Clone: the deep copy the package offers (equal.go)

    [Clone] hands an entry's raw encoding to the SDK's decoder of base64 text.
    [Clone_refuses] shows that it therefore copies no entry at all: an encoding
    starts with the high byte of a small discriminant, which no base64 text
    does.  The copies the library itself makes are [Xdr.Copy]. *)
From Stdlib Require Import ZArith Lia Strings.Ascii String.
From stdpp Require Import base list strings.
From S2P Require Import Prelude Encoding Errors Xdr ModelSDK Examples.

Open Scope string_scope. Open Scope nat_scope. Open Scope list_scope.

Section clone.
Context `{SDK}.
(** [xdr.SafeUnmarshalBase64] at an entry. *)
Variable SafeUnmarshalBase64 : string → result SorobanAuthorizationEntry.

Definition Clone (entry : SorobanAuthorizationEntry) : result SorobanAuthorizationEntry :=
  b ← wrap "soroauth: clone: marshal" (MarshalBinary entry);
  wrap "soroauth: clone: unmarshal" (SafeUnmarshalBase64 (string_of_bytes b)).

(** What the decoder is documented to do: it reads base64 text, so it refuses
    a text that starts with anything but a letter of the alphabet or a line
    break. *)
Definition reads_base64 : Prop := ∀ c s e, SafeUnmarshalBase64 (String c s) = Ok e →
  b64_value c ≠ None ∨ c = "010"%char ∨ c = "013"%char.

(** An XDR encoding starts with the discriminant of the credentials, big-endian
    in four bytes. *)
Definition starts_small : Prop := ∀ (entry : SorobanAuthorizationEntry) b, MarshalBinary entry = Ok b →
  ∃ x rest, b = x :: rest ∧ (byteZ x < 4)%Z.

Lemma small_not_base64 x : (byteZ x < 4)%Z →
  b64_value (ascii_of_byte x) = None ∧ ascii_of_byte x ≠ "010"%char ∧ ascii_of_byte x ≠ "013"%char.
Proof. by destruct x. Qed.

(** [Clone] never succeeds. *)
Theorem Clone_refuses entry : reads_base64 → starts_small → ∀ copied, Clone entry ≠ Ok copied.
Proof.
  intros Hreads Hstarts copied Hc. unfold Clone in Hc. inv_ok.
  destruct (Hstarts _ _ Hx) as (y & rest & -> & Hy).
  destruct (small_not_base64 y Hy) as (Hn & Hl & Hr).
  destruct (Hreads _ _ _ Hc) as [?|[?|?]]; congruence.
Qed.
End clone.

(** ** The theorem on the model SDK *)
Definition ex_safeUnmarshal (s : string) : result SorobanAuthorizationEntry :=
  raw ← of_option (base64_DecodeString s) (EText "illegal base64 data"); UnmarshalBinary raw.

Lemma quartets_alphabet c s b : base64_quartets (String c s) = Some b → b64_value c ≠ None.
Proof.
  intros Hd Hn. destruct s as [|? [|? [|? ?]]]; cbn in Hd; try done. by rewrite Hn in Hd.
Qed.

Lemma ex_reads_base64 : reads_base64 ex_safeUnmarshal.
Proof.
  intros c s e. unfold ex_safeUnmarshal, base64_DecodeString. cbn [without_newlines].
  destruct (Ascii.eqb_spec c "010"); [by auto|]. destruct (Ascii.eqb_spec c "013"); [by auto|].
  cbn [orb]. intros He. left. destruct (base64_quartets (String c _)) eqn:E; [|done].
  by eapply quartets_alphabet.
Qed.

Lemma ex_starts_small : starts_small.
Proof.
  intros entry b. cbn. unfold model_Marshal. destruct (model_Decode _ _) as [[v n]|]; [|done].
  destruct (decide (v = entry)); [|done]. intros [= <-].
  destruct (wEntry entry); cbn; eexists _, _; by split.
Qed.

Lemma Clone_refuses_witness : ¬ (∃ copied, Clone ex_safeUnmarshal ex_delegates = Ok copied).
Proof.
  intros [copied Hc].
  by apply (Clone_refuses ex_safeUnmarshal ex_delegates ex_reads_base64 ex_starts_small copied).
Defined.
