(* ===== verification/Address.v ===== *)
(** * Address: G... and C... addresses (address.go)

    [ParseAddress] and [FormatAddress] between strkey text and [ScAddress],
    over the SDK's strkey functions, and [addressBytes]/[formatAddressBytes]
    of authorize.go, which compare addresses by their XDR encoding. *)
From Stdlib Require Import ZArith Lia Strings.Byte String.
From stdpp Require Import base list strings pretty.
From S2P Require Import Prelude Errors Xdr ModelSDK Runtime Examples.

Open Scope string_scope. Open Scope nat_scope. Open Scope list_scope.

Section address.
Context `{SDK}.

Definition scAddressPayloadLen : nat := 32.

Definition ParseAddress (s : string) : result ScAddress :=
  '(version, payload) ← wrap "soroauth: parse address" (strkey_DecodeAny s);
  match version with
  | VersionByteAccountID =>
      _ ← refuse (negb (Nat.eqb (length payload) scAddressPayloadLen))
            (EText ("soroauth: parse address: account address has a "
              +:+ pretty (length payload) +:+ "-byte payload, want 32"));
      Ok (ScAddressTypeAccount (Some (mkAccountId 0 (Some payload))))
  | VersionByteContract =>
      _ ← refuse (negb (Nat.eqb (length payload) scAddressPayloadLen))
            (EText ("soroauth: parse address: contract address has a "
              +:+ pretty (length payload) +:+ "-byte payload, want 32"));
      Ok (ScAddressTypeContract (Some payload))
  | VersionByteMuxedAccount =>
      Err (EText ("soroauth: parse address: " +:+ quoted s +:+
        " is a muxed (M…) address; an address credential must name the " +:+
        "account itself, so pass the underlying G… address"))
  | VersionByteOther _ =>
      Err (EText ("soroauth: parse address: " +:+ quoted s +:+
        " is not an account (G…) or contract (C…) address"))
  end.

Definition FormatAddress (a : ScAddress) : result string :=
  match a with
  | ScAddressTypeAccount None =>
      Err (EText "soroauth: format address: account arm has no account id")
  | ScAddressTypeAccount (Some id) =>
      wrap "soroauth: format address" (AccountId_GetAddress id)
  | ScAddressTypeContract None =>
      Err (EText "soroauth: format address: contract arm has no contract id")
  | ScAddressTypeContract (Some id) =>
      wrap "soroauth: format address" (strkey_Encode VersionByteContract id)
  | ScAddressTypeMuxedAccount _ =>
      Err (EText ("soroauth: format address: muxed (M…) addresses are not valid " +:+
                  "in an address credential"))
  | ScAddressTypeClaimableBalance _ =>
      Err (EText "soroauth: format address: unsupported address type 3")
  | ScAddressTypeLiquidityPool _ =>
      Err (EText "soroauth: format address: unsupported address type 4")
  | ScAddressTypeUnknown t =>
      Err (EText ("soroauth: format address: unsupported address type " +:+ pretty t))
  end.

(** authorize.go: the encoding addresses are compared by *)
Definition addressBytes (a : ScAddress) : result bytes :=
  wrap "encoding address" (MarshalBinary a).

Definition formatAddressBytes (encoded : bytes) : result string :=
  address ← wrap "decoding address" (UnmarshalBinary encoded);
  FormatAddress address.

(** An address [ParseAddress] can produce: an account or contract arm with a
    32-byte key. *)
Definition is_credential_address (a : ScAddress) : Prop :=
  match a with
  | ScAddressTypeAccount (Some (mkAccountId 0 (Some k))) => length k = 32
  | ScAddressTypeContract (Some k) => length k = 32
  | _ => False
  end.

Lemma ParseAddress_Ok s a :
  ParseAddress s = Ok a ↔
  ∃ k, length k = 32 ∧
    ((strkey_DecodeAny s = Ok (VersionByteAccountID, k) ∧
      a = ScAddressTypeAccount (Some (mkAccountId 0 (Some k)))) ∨
     (strkey_DecodeAny s = Ok (VersionByteContract, k) ∧
      a = ScAddressTypeContract (Some k))).
Proof.
  unfold ParseAddress. split.
  - intros Hp. inv_ok. destruct x as [v k]. destruct v; inv_ok; try done.
    all: apply negb_false_iff, Nat.eqb_eq in Hx0. all: exists k; naive_solver.
  - intros (k & Hk & [[-> ->]|[-> ->]]); cbn; rewrite Hk; done.
Qed.

Lemma ParseAddress_credential s a : ParseAddress s = Ok a → is_credential_address a.
Proof. intros (k & Hk & [[_ ->]|[_ ->]])%ParseAddress_Ok; done. Qed.

Context `{!SDKLaws}.

Lemma ParseAddress_Format_pre s a : ParseAddress s = Ok a → FormatAddress a = Ok s.
Proof.
  intros (k & Hk & [[Hd ->]|[Hd ->]])%ParseAddress_Ok; cbn.
  - rewrite AccountId_GetAddress_ed25519. apply strkey_Encode_Decode in Hd. by rewrite Hd.
  - apply strkey_Encode_Decode in Hd. by rewrite Hd.
Qed.

Lemma FormatAddress_Parse_pre a s :
  is_credential_address a → FormatAddress a = Ok s → ParseAddress s = Ok a.
Proof.
  intros Ha Hf. apply ParseAddress_Ok.
  destruct a as [[[[| |] [k|]]|]|[k|]|?|?|?|?]; cbn in Ha; try done; exists k.
  - cbn in Hf. rewrite AccountId_GetAddress_ed25519 in Hf. apply wrap_Ok in Hf.
    apply strkey_Decode_Encode in Hf. auto.
  - cbn in Hf. apply wrap_Ok in Hf. apply strkey_Decode_Encode in Hf. auto.
Qed.

Lemma addressBytes_inj a a' b : addressBytes a = Ok b → addressBytes a' = Ok b → a = a'.
Proof.
  unfold addressBytes. intros H1%wrap_Ok H2%wrap_Ok. by eapply MarshalBinary_inj.
Qed.

Lemma formatAddressBytes_addressBytes a b :
  addressBytes a = Ok b → formatAddressBytes b = FormatAddress a.
Proof.
  unfold addressBytes, formatAddressBytes. intros Hb%wrap_Ok.
  by rewrite (UnmarshalBinary_ScAddress a b Hb).
Qed.
End address.

(** ** Theorems *)
Section address_theorems.
Context `{SDK} `{!SDKLaws}.

(** [ParseAddress] and [FormatAddress] are inverse on the addresses a
    credential may carry: a text parses to an address exactly when that
    address is a 32-byte account or contract and is formatted as that same
    text, so an accepted address has one spelling. *)
Theorem ParseAddress_FormatAddress s a :
  ParseAddress s = Ok a ↔ is_credential_address a ∧ FormatAddress a = Ok s.
Proof.
  split.
  - intros Hp. split; [by eapply ParseAddress_credential|by apply ParseAddress_Format_pre].
  - intros [Ha Hf]. by apply FormatAddress_Parse_pre.
Qed.
End address_theorems.

Lemma ParseAddress_FormatAddress_witness :
  ParseAddress (ex_text "a") = Ok (ex_account "a") ↔
  is_credential_address (ex_account "a") ∧ FormatAddress (ex_account "a") = Ok (ex_text "a").
Proof. apply ParseAddress_FormatAddress. Defined.

(** The same at the other arm, and a muxed address is refused. *)
Example ParseAddress_contract :
  ParseAddress (ex_contract_text "z") = Ok (ex_contract "z") ∧
  is_ok (ParseAddress ("M" +:+ string_of_bytes (ex_key "a"))) = false.
Proof. split; vm_compute; reflexivity. Qed.
