(* ===== verification/Signers.v ===== *)
(** * Signers: the signers the library ships (signer.go)

    A [Signer] is a record of operations; every constructor of signer.go is a
    function that builds one.  Key pairs are the source's own [ed25519Keypair]
    interface.  The theorems say what a returned value is: the host's account
    shape with signatures that were checked, in the order the host demands. *)
From Stdlib Require Import ZArith Lia Strings.Byte String.
From stdpp Require Import base list strings pretty sorting.
From S2P Require Import Prelude Errors Xdr ModelSDK Runtime Examples Address.

Open Scope string_scope. Open Scope nat_scope. Open Scope list_scope.

Definition maxAccountSignatures : nat := 20.

(** ** Building ScVals *)
Definition scSymbol (s : string) : ScVal := ScvSymbol (Some s).
Definition scBytes (b : bytes) : ScVal := ScvBytes (Some b).
Definition scVec (values : list ScVal) : ScVal := ScvVec (Some (Some values)).

Definition accountSignature (rawPublicKey signature : bytes) : ScVal :=
  ScvMap (Some (Some [(scSymbol "public_key", scBytes rawPublicKey);
                      (scSymbol "signature", scBytes signature)])).

Definition Ed25519SignatureScVal (rawPublicKey signature : bytes) : result ScVal :=
  _ ← refuse (negb (Nat.eqb (length rawPublicKey) 32))
        (EText ("soroauth: ed25519 signature scval: public key is " +:+
                pretty (length rawPublicKey) +:+ " bytes, want 32"));
  _ ← refuse (negb (Nat.eqb (length signature) 64))
        (EText ("soroauth: ed25519 signature scval: signature is " +:+
                pretty (length signature) +:+ " bytes, want 64"));
  Ok (scVec [accountSignature rawPublicKey signature]).

(** The interface the signers need of a key pair. *)
Record ed25519Keypair := mkKeypair {
  kp_Address : string;
  kp_Sign : bytes → result bytes;
  kp_Verify : bytes → bytes → result unit
}.

Section signers.
Context `{SDK}.

Definition rawEd25519Key (address : string) : result bytes :=
  wrap (quoted address +:+ " is not an account (G…) address")
    (strkey_Decode VersionByteAccountID address).

(** ** A single key *)
Definition ed25519Signer_Sign (kp : option ed25519Keypair) (ctx : Ctx)
    (_ : HashIdPreimage) (payload : bytes) : IO ScVal :=
  _ ← ctx_check ctx "soroauth: sign ed25519";
  lift (kp ← of_option kp (EWrap "soroauth: sign ed25519" (ESentinel ErrMissingSigner));
        signature ← wrap "soroauth: sign ed25519" (kp_Sign kp payload);
        _ ← match kp_Verify kp payload signature with
            | Ok _ => Ok tt
            | Err _ => Err (EWrap "soroauth: sign ed25519" (ESentinel ErrSignatureMismatch))
            end;
        rawPublicKey ← wrap "soroauth: sign ed25519" (rawEd25519Key (kp_Address kp));
        Ok (scVec [accountSignature rawPublicKey signature])).

Definition NewEd25519Signer (kp : option ed25519Keypair) : Signer :=
  mkSigner (match kp with Some kp => kp_Address kp | None => "" end)
    (ed25519Signer_Sign kp) (Some (mkCapabilities true false false false)).

(** ** Several keys *)
Record multiSignerKey := mkMultiSignerKey { key_kp : ed25519Keypair; key_raw : bytes }.

(** The signing loop of [accountMultiSigner.Sign]. *)
Fixpoint multiSignLoop (keys : list multiSignerKey) (ctx : Ctx) (payload : bytes)
    : IO (list ScVal) :=
  let op := "soroauth: sign account multisig" in
  match keys with
  | [] => mret []
  | key :: keys =>
      _ ← ctx_check ctx op;
      let kp := key_kp key in
      signature ← lift (wrap (op +:+ ": " +:+ kp_Address kp) (kp_Sign kp payload));
      _ ← lift (match kp_Verify kp payload signature with
                | Ok _ => Ok tt
                | Err _ => Err (EWrap (op +:+ ": " +:+ kp_Address kp)
                                  (ESentinel ErrSignatureMismatch))
                end);
      rest ← multiSignLoop keys ctx payload;
      mret (accountSignature (key_raw key) signature :: rest)
  end.

Definition accountMultiSigner_Sign (keys : list multiSignerKey) (ctx : Ctx)
    (_ : HashIdPreimage) (payload : bytes) : IO ScVal :=
  _ ← ctx_check ctx "soroauth: sign account multisig";
  signatures ← multiSignLoop keys ctx payload;
  mret (scVec signatures).

Definition newAccountMultiSigner (account : string) (kps : list (option ed25519Keypair))
    : result Signer :=
  let op := "soroauth: new account multi signer" in
  _ ← wrap op (rawEd25519Key account);
  _ ← refuse (Nat.eqb (length kps) 0)
        (EWrap (op +:+ ": " +:+ account) (MissingSignerError account));
  _ ← refuse (Nat.ltb maxAccountSignatures (length kps))
        (EWrap (op +:+ ": " +:+ pretty (length kps) +:+ " keys, the host accepts at most 20")
           (ESentinel ErrTooManySignatures));
  keys ← imapM (λ i kp,
    kp ← of_option kp (EWrap (op +:+ ": key " +:+ pretty i +:+ " is nil")
                         (ESentinel ErrMissingSigner));
    raw ← wrap op (rawEd25519Key (kp_Address kp));
    Ok (mkMultiSignerKey kp raw)) kps;
  let keys := sort_by key_raw keys in
  match adjacentBy key_raw keys with
  | Some key => Err (EText (op +:+ ": duplicate signing key " +:+ kp_Address (key_kp key)))
  | None =>
      Ok (mkSigner account (accountMultiSigner_Sign keys)
            (Some (mkCapabilities true false false false)))
  end.

Definition NewAccountMultiSigner (account : string) (kps : list (option ed25519Keypair))
    : result Signer :=
  _ ← imapM (λ i kp,
        of_option kp (EWrap ("soroauth: new account multi signer: key " +:+ pretty i +:+
                             " is nil") (ESentinel ErrMissingSigner))) kps;
  newAccountMultiSigner account kps.

(** ** A function as a signer *)
Definition signFn : Type := Ctx → HashIdPreimage → bytes → IO ScVal.

Definition SignerFunc (address : string) (fn : option signFn) : Signer :=
  mkSigner address
    (λ ctx preimage payload,
      _ ← ctx_check ctx "soroauth: sign func";
      fn ← lift (of_option fn (EWrap "soroauth: sign func" (ESentinel ErrMissingSigner)));
      fn ctx preimage payload)
    (Some (mkCapabilities false true false false)).

(** ** A passkey callback behind flag checks *)
Record passkeySignerConfig := mkPasskeyConfig {
  requireUserPresence : bool;
  requireUserVerification : bool
}.

Definition PasskeySignerOption : Type := passkeySignerConfig → passkeySignerConfig.

Definition RequireUserPresence (required : bool) : PasskeySignerOption := λ cfg,
  mkPasskeyConfig required (requireUserVerification cfg).

Definition RequireUserVerification (required : bool) : PasskeySignerOption := λ cfg,
  mkPasskeyConfig (requireUserPresence cfg) required.

(** Options may be nil; nil ones are skipped. *)
Definition passkeyConfig (opts : list (option PasskeySignerOption)) : passkeySignerConfig :=
  foldl (λ cfg o, match o with Some o => o cfg | None => cfg end)
    (mkPasskeyConfig false false) opts.

Definition passkeyFlagsCheck (cfg : passkeySignerConfig) (authenticatorData : bytes)
    : result unit :=
  if requireUserPresence cfg || requireUserVerification cfg then
    _ ← refuse (Nat.ltb (length authenticatorData) 37)
          (EWrap ("soroauth: passkey signer: authenticatorData too short (" +:+
                  pretty (length authenticatorData) +:+ " bytes)") (ESentinel ErrVerificationFailed));
    let flags := byteZ (default x00 (authenticatorData !! 32)) in
    let up := negb (Z.land flags 1 =? 0)%Z in
    let uv := negb (Z.land flags 4 =? 0)%Z in
    _ ← refuse (requireUserPresence cfg && negb up)
          (EWrap ("soroauth: passkey signer: user presence (UP) required but not set in flags 0x"
                  +:+ hex_byte (Zbyte flags))
             (ESentinel ErrVerificationFailed));
    refuse (requireUserVerification cfg && negb uv)
      (EWrap ("soroauth: passkey signer: user verification (UV) required but not set in flags 0x"
              +:+ hex_byte (Zbyte flags))
         (ESentinel ErrVerificationFailed))
  else Ok tt.

Definition NewPasskeySigner (address : string) (authenticatorData : bytes) (fn : option signFn)
    (opts : list (option PasskeySignerOption)) : Signer :=
  let cfg := passkeyConfig opts in
  SignerFunc address (Some (λ ctx preimage payload,
    _ ← lift (passkeyFlagsCheck cfg authenticatorData);
    fn ← lift (of_option fn (EWrap "soroauth: passkey sign" (ESentinel ErrMissingSigner)));
    fn ctx preimage payload)).
End signers.

(** ** What the host accepts *)
(** The signature vector of a classic account as the host reads it: one to
    twenty maps of a key and a signature that checks over the payload, keys
    strictly ascending. *)
Section host.
Context `{SDK}.

Definition account_signatures (keys : list (bytes * bytes)) : ScVal :=
  scVec (map (λ '(pk, sig), accountSignature pk sig) keys).

Definition host_accepts (payload : bytes) (value : ScVal) : Prop :=
  ∃ keys, value = account_signatures keys ∧ 1 <= length keys <= 20 ∧
    StronglySorted (λ a b, bytes_lt a b = true) keys.*1 ∧
    Forall (λ '(pk, sig), ed25519_Verify pk payload sig = true) keys.

(** A key pair whose own check is the real one: the SDK's [keypair.Full]. *)
Definition genuine (kp : ed25519Keypair) : Prop :=
  ∀ raw payload sig, rawEd25519Key (kp_Address kp) = Ok raw →
    kp_Verify kp payload sig = Ok tt → ed25519_Verify raw payload sig = true.
End host.

(** ** Theorems *)
Section signers_theorems.
Context `{SDK} `{!SDKLaws}.

Lemma rawEd25519Key_length address raw : rawEd25519Key address = Ok raw →
  strkey_DecodeAny address = Ok (VersionByteAccountID, raw).
Proof. unfold rawEd25519Key. by intros Hr%wrap_Ok%strkey_Decode_Any. Qed.

(** A key pair's signer returns only a signature it has checked: one
    {public_key, signature} map with the raw key of the signer's own address
    and a signature over exactly the given payload, which the host accepts
    when the key pair's check is the real one. *)
Theorem Ed25519Signer_sound kp ctx pre payload w v w' :
  signer_Sign (NewEd25519Signer (Some kp)) ctx pre payload w = (Ok v, w') →
  genuine kp →
  ∃ raw sig, rawEd25519Key (signer_Address (NewEd25519Signer (Some kp))) = Ok raw ∧
    kp_Sign kp payload = Ok sig ∧ v = account_signatures [(raw, sig)] ∧
    host_accepts payload v.
Proof.
  cbn [signer_Sign NewEd25519Signer]. unfold ed25519Signer_Sign. intros Hs Hg. inv_io.
  cbn [of_option mbind result_bind] in Hl. inv_ok. subst.
  destruct (kp_Verify kp payload x) as [[]|] eqn:Hv; [|done].
  exists x1, x. split; [done|]. split; [done|]. split; [done|].
  exists [(x1, x)]. split; [done|]. split; [cbn; lia|]. split; [by repeat constructor|].
  repeat constructor. by eapply Hg.
Qed.

Lemma multiSignLoop_Ok keys ctx payload w sigs w' :
  multiSignLoop keys ctx payload w = (Ok sigs, w') →
  Forall2 (λ key sig, ∃ raw, sig = accountSignature (key_raw key) raw ∧
    kp_Verify (key_kp key) payload raw = Ok tt) keys sigs.
Proof.
  revert w sigs. induction keys as [|key keys IH]; intros w sigs; cbn [multiSignLoop].
  - intros [= <- _]. constructor.
  - intros Hs. inv_io. constructor; [|by eapply IH].
    destruct (kp_Verify _ _ _) as [[]|] eqn:Hv; [|done]. eauto.
Qed.

(** The keys a multi-signature signer is built with. *)
Definition multiKeys (kps : list (option ed25519Keypair)) : option (list multiSignerKey) :=
  mapM (λ o, kp ← o;
          match rawEd25519Key (kp_Address kp) with
          | Ok raw => Some (mkMultiSignerKey kp raw) | Err _ => None
          end) kps.

Lemma newAccountMultiSigner_Ok account kps s :
  newAccountMultiSigner account kps = Ok s →
  ∃ keys, multiKeys kps = Some keys ∧ 1 <= length keys <= 20 ∧
    StronglySorted (key_lt key_raw) (sort_by key_raw keys) ∧
    s = mkSigner account (accountMultiSigner_Sign (sort_by key_raw keys))
          (Some (mkCapabilities true false false false)).
Proof.
  unfold newAccountMultiSigner. intros Hn. inv_ok.
  apply Nat.eqb_neq in Hx0. apply Nat.ltb_ge in Hx1. unfold maxAccountSignatures in Hx1.
  destruct (adjacentBy key_raw (sort_by key_raw x2)) eqn:Hadj; [done|]. injection Hn as <-.
  exists x2. pose proof (imapM_from_length _ _ _ _ Hx2) as Hlen.
  split; [|split; [lia|split; [|done]]].
  - unfold multiKeys. apply mapM_Some. clear -Hx2. revert Hx2. generalize 0.
    revert x2. induction kps as [|o kps IH]; intros ks i; cbn [imapM_from].
    + intros [= <-]. constructor.
    + intros Hk. inv_ok. subst. constructor; [|by eapply IH].
      cbn. by rewrite Hx2.
  - apply adjacentBy_None; [apply sort_by_sorted|done].
Qed.

(** What a multi-signature signer returns, the host accepts: one to
    twenty checked signatures over the given payload under strictly
    ascending keys, for the account the signer was built for. *)
Theorem AccountMultiSigner_sound account kps s ctx pre payload w v w' :
  newAccountMultiSigner account kps = Ok s →
  (∀ kp, Some kp ∈ kps → genuine kp) →
  signer_Sign s ctx pre payload w = (Ok v, w') →
  signer_Address s = account ∧ host_accepts payload v.
Proof.
  intros (keys & Hk & Hlen & Hsort & ->)%newAccountMultiSigner_Ok Hg Hs. split; [done|].
  cbn [signer_Sign] in Hs. unfold accountMultiSigner_Sign in Hs. inv_io.
  apply multiSignLoop_Ok in Hx0 as Hx1. rename x0 into sigs.
  assert (Hkeys : Forall (λ k, rawEd25519Key (kp_Address (key_kp k)) = Ok (key_raw k) ∧
    genuine (key_kp k)) (sort_by key_raw keys)).
  { rewrite sort_by_perm. unfold multiKeys in Hk. apply mapM_Some in Hk. clear -Hk Hg.
    induction Hk as [|o k kps keys Ho _ IH]; constructor.
    - destruct o as [kp|]; [|done]. cbn in Ho.
      destruct (rawEd25519Key (kp_Address kp)) eqn:E; [|done]. injection Ho as <-.
      split; [done|]. apply Hg. constructor.
    - apply IH. intros kp Hkp. apply Hg. by constructor. }
  assert (Hex : ∃ ks, sigs = map (λ '(pk, sg), accountSignature pk sg) ks ∧
    ks.*1 = key_raw <$> sort_by key_raw keys ∧
    Forall (λ '(pk, sg), ed25519_Verify pk payload sg = true) ks).
  { clear -Hx1 Hkeys. induction Hx1 as [|k sg ks sgs (raw & -> & Hv) _ IH].
    - by exists [].
    - inversion Hkeys as [|? ? [Hr Hgk] Hks]; subst. destruct (IH Hks) as (ks' & -> & Hf & Hall).
      exists ((key_raw k, raw) :: ks'). split; [done|]. split; [cbn; by rewrite Hf|].
      constructor; [|done]. by eapply Hgk. }
  destruct Hex as (ks & -> & Hf & Hall). exists ks. split; [done|]. split.
  - rewrite <-(length_fmap fst ks). change (fst <$> ks) with ks.*1. rewrite Hf, length_fmap.
    by rewrite sort_by_perm.
  - split; [|done]. rewrite Hf. clear -Hsort.
    induction Hsort as [|k ks _ IH Hk]; cbn; constructor; [done|]. by apply Forall_fmap.
Qed.

(** A passkey signer with required flags never reaches its callback
    without them: an answer means the authenticator data is at least 37 bytes
    long, its flags byte has bit 0 when presence was required and bit 2 when
    verification was, and the answer is the callback's own. *)
Theorem PasskeySigner_flags address data fn opts ctx pre payload w v w' :
  signer_Sign (NewPasskeySigner address data fn opts) ctx pre payload w = (Ok v, w') →
  let cfg := passkeyConfig opts in
  (requireUserPresence cfg || requireUserVerification cfg = true → 37 <= length data) ∧
  (requireUserPresence cfg = true →
     Z.testbit (byteZ (default x00 (data !! 32))) 0 = true) ∧
  (requireUserVerification cfg = true →
     Z.testbit (byteZ (default x00 (data !! 32))) 2 = true) ∧
  ∃ f w1, fn = Some f ∧ f ctx pre payload w1 = (Ok v, w').
Proof.
  intros Hs cfg. cbn [signer_Sign NewPasskeySigner SignerFunc] in Hs. inv_io.
  cbn [of_option] in Hl. injection Hl as <-. inv_io. rename Hl into Hfn, Hl0 into Hl. apply of_option_Ok in Hfn.
  fold cfg in Hl. unfold passkeyFlagsCheck in Hl.
  set (fl := byteZ (default x00 (data !! 32))) in *.
  assert (Hb0 : Z.testbit fl 0 = negb (Z.land fl 1 =? 0)%Z) by (by apply (testbit_land_pow2 fl 0)).
  assert (Hb2 : Z.testbit fl 2 = negb (Z.land fl 4 =? 0)%Z) by (by apply (testbit_land_pow2 fl 2)).
  rewrite Hb0, Hb2. split; [|split; [|split]].
  - intros Hr. rewrite Hr in Hl. inv_ok. by apply Nat.ltb_ge.
  - intros Hr. rewrite Hr in Hl. cbn [orb andb] in Hl. inv_ok. by destruct (Z.land fl 1 =? 0)%Z.
  - intros Hr. rewrite Hr, orb_true_r in Hl. inv_ok. by destruct (Z.land fl 4 =? 0)%Z.
  - eauto.
Qed.
End signers_theorems.

(** ** The theorems at concrete signers *)
Definition ex_keypair (b : Byte.byte) : ed25519Keypair :=
  mkKeypair (ex_text b) (λ m, Ok (m ++ ex_key b))
    (λ m s, if bytes_Equal s (m ++ ex_key b) then Ok tt else Err (EText "invalid signature")).

Lemma ex_keypair_genuine b : genuine (ex_keypair b).
Proof.
  intros raw payload sig Hr Hv. cbn in Hr.
  assert (raw = ex_key b) as ->.
  { unfold rawEd25519Key in Hr. apply wrap_Ok, strkey_Decode_Any in Hr. cbn in Hr.
    injection Hr as <-. unfold ex_text. apply bytes_of_string_of_bytes. }
  cbn in Hv |- *. unfold model_ed25519_Verify. by destruct (bytes_Equal _ _).
Qed.

Lemma Ed25519Signer_sound_witness : ∃ v raw sig,
  rawEd25519Key (signer_Address (NewEd25519Signer (Some (ex_keypair "a")))) = Ok raw ∧
  kp_Sign (ex_keypair "a") (ex_key "p") = Ok sig ∧ v = account_signatures [(raw, sig)] ∧
  host_accepts (ex_key "p") v.
Proof.
  eexists. eapply (Ed25519Signer_sound (ex_keypair "a") Background (mkHashIdPreimage 0 None None)
    (ex_key "p") initial_world).
  - reflexivity.
  - apply ex_keypair_genuine.
Defined.

Definition ex_multi : list (option ed25519Keypair) :=
  [Some (ex_keypair "c"); Some (ex_keypair "a"); Some (ex_keypair "b")].

Definition ex_multi_signer : Signer :=
  match newAccountMultiSigner (ex_text "z") ex_multi with
  | Ok s => s | Err _ => ex_signer "z"
  end.

Lemma AccountMultiSigner_sound_witness : ∃ v,
  signer_Address ex_multi_signer = ex_text "z" ∧ host_accepts (ex_key "p") v.
Proof.
  eexists. eapply (AccountMultiSigner_sound (ex_text "z") ex_multi ex_multi_signer Background
    (mkHashIdPreimage 0 None None) (ex_key "p") initial_world).
  - reflexivity.
  - intros kp Hk. apply list_elem_of_In in Hk.
    destruct Hk as [Hk|[Hk|[Hk|[]]]]; injection Hk as <-; apply ex_keypair_genuine.
  - reflexivity.
Defined.

(** Authenticator data with the flags byte 5: presence and verification. *)
Definition ex_authenticator_data : bytes := replicate 32 x00 ++ [x05] ++ replicate 4 x00.

Definition ex_passkey_opts : list (option PasskeySignerOption) :=
  [Some (RequireUserPresence true); None; Some (RequireUserVerification true)].

Definition ex_fn : signFn := λ _ _ p, mret (scBytes p).

Lemma PasskeySigner_flags_witness : let cfg := passkeyConfig ex_passkey_opts in
  (requireUserPresence cfg || requireUserVerification cfg = true →
     37 <= length ex_authenticator_data) ∧
  (requireUserPresence cfg = true →
     Z.testbit (byteZ (default x00 (ex_authenticator_data !! 32))) 0 = true) ∧
  (requireUserVerification cfg = true →
     Z.testbit (byteZ (default x00 (ex_authenticator_data !! 32))) 2 = true) ∧
  ∃ f w1, Some ex_fn = Some f ∧
    f Background (mkHashIdPreimage 0 None None) (ex_key "p") w1
    = (Ok (scBytes (ex_key "p")), tick initial_world).
Proof.
  apply (PasskeySigner_flags "W" ex_authenticator_data (Some ex_fn)
    ex_passkey_opts Background (mkHashIdPreimage 0 None None) (ex_key "p") initial_world).
  reflexivity.
Defined.
