(* ===== verification/Threshold.v ===== *)
(** * Threshold: the threshold signing session (threshold.go)

    [thresholdSignerImpl] collects shares of one round until enough identifiers
    have contributed, and then holds their combination.  The session is a state
    that [Begin] and [Contribute] change under a lock; a run is the sequence of
    calls in the order they took it.  [accepted] is the abstract specification:
    the shares of the current round, the last one under each identifier.  The
    identifier is the start of the share; the parties of the session are never
    looked at. *)
From Stdlib Require Import ZArith Lia Strings.Byte String.
From stdpp Require Import base list strings gmap pretty.
From S2P Require Import Prelude Errors Xdr ModelSDK Runtime Examples Address Signers.

Open Scope string_scope. Open Scope nat_scope. Open Scope list_scope.

(** [s.session]; the source's [signers] field is never read. *)
Record thresholdSession := mkSession {
  round : Z;
  shares : gmap bytes bytes;
  complete : bool;
  signature : option bytes
}.

Record thresholdSignerImpl := mkThreshold {
  account : string;
  threshold : Z;
  parties : list string;
  session : thresholdSession
}.

Definition set_session (s : thresholdSignerImpl) (ss : thresholdSession) : thresholdSignerImpl :=
  mkThreshold (account s) (threshold s) (parties s) ss.

Section threshold.
Context `{SDK}.

Fixpoint firstDuplicate (seen : list string) (parties : list string) : option string :=
  match parties with
  | [] => None
  | p :: rest => if decide (p ∈ seen) then Some p else firstDuplicate (p :: seen) rest
  end.

(** [sort.Strings]: strings order as their bytes do. *)
Definition sort_Strings (l : list string) : list string := sort_by bytes_of_string l.

Definition NewThresholdSigner (account : string) (threshold : Z) (parties : list string)
    : result thresholdSignerImpl :=
  let op := "soroauth: new threshold signer" in
  _ ← refuse (bool_decide (account = ""))
        (EWrap (op +:+ ": empty account") (ESentinel ErrMissingSigner));
  _ ← refuse (Nat.eqb (length parties) 0)
        (EWrap (op +:+ ": no parties") (ESentinel ErrMissingSigner));
  _ ← (match firstDuplicate [] parties with
       | Some p => Err (EText (op +:+ ": duplicate party " +:+ p))
       | None => Ok tt
       end);
  _ ← refuse ((threshold <? 1)%Z || (threshold >? Z.of_nat (length parties))%Z)
        (EText (op +:+ ": threshold " +:+ pretty threshold +:+ " must be between 1 and " +:+
                pretty (length parties)));
  _ ← refuse (threshold >? Z.of_nat maxAccountSignatures)%Z
        (EWrap (op +:+ ": threshold " +:+ pretty threshold +:+ " exceeds maximum " +:+
                pretty maxAccountSignatures) (ESentinel ErrTooManySignatures));
  _ ← rmapM (λ p, wrap (op +:+ ": invalid party " +:+ p) (ParseAddress p)) parties;
  Ok (mkThreshold account threshold (sort_Strings parties) (mkSession 0 ∅ false None)).

(** [Sign]: a nil signature cannot be complete. *)
Definition threshold_Sign (s : thresholdSignerImpl) (ctx_err : option error) : result ScVal :=
  let op := "soroauth: threshold signer sign" in
  match ctx_err with
  | Some e => Err (EWrap op e)
  | None =>
      if negb (complete (session s)) then
        Err (EWrap (op +:+ ": threshold not met") (ESentinel ErrMissingSigner))
      else Ok (scVec [scBytes (default [] (signature (session s)))])
  end.

(** [Begin], with the outcome of reading eight random bytes. *)
Definition Begin (ctx_err : option error) (random : result bytes) (s : thresholdSignerImpl)
    : result Z * thresholdSignerImpl :=
  let op := "soroauth: threshold signer begin" in
  match ctx_err with
  | Some e => (Err (EWrap op e), s)
  | None =>
      match random with
      | Err e => (Err (EWrap op e), s)
      | Ok buf =>
          let round := wrap_i64 (be_value buf) in
          (Ok round, set_session s (mkSession round ∅ false None))
      end
  end.

(** The first 64 bytes of a share, combined into the 64-byte signature. *)
Fixpoint xor_into (sig share : bytes) : bytes :=
  match sig, share with
  | x :: sig, y :: share => Zbyte (Z.lxor (byteZ x) (byteZ y)) :: xor_into sig share
  | _, _ => sig
  end.

(** The loop over the map of shares, in the order [map_fold] visits it. *)
Definition combine_shares (shares : gmap bytes bytes) : bytes :=
  map_fold (λ _ share sig, xor_into sig share) (replicate 64 x00) shares.

Definition partyID (share : bytes) : bytes := take 32 share.

Definition Contribute (ctx_err : option error) (r : Z) (share : bytes) (s : thresholdSignerImpl)
    : result (option bytes) * thresholdSignerImpl :=
  let op := "soroauth: threshold signer contribute" in
  match ctx_err with
  | Some e => (Err (EWrap op e), s)
  | None =>
      let ss := session s in
      if negb (r =? round ss)%Z then
        (Err (EText (op +:+ ": round " +:+ pretty r +:+ " does not match active round " +:+
                     pretty (round ss))), s)
      else if Nat.eqb (length share) 0 then
        (Err (EWrap (op +:+ ": empty share") (ESentinel ErrMissingSigner)), s)
      else
        let shares' := <[partyID share := share]> (shares ss) in
        let ss' :=
          if (Z.of_nat (size shares') >=? threshold s)%Z
          then mkSession (round ss) shares' true (Some (combine_shares shares'))
          else mkSession (round ss) shares' (complete ss) (signature ss) in
        (Ok (if complete ss' then signature ss' else None), set_session s ss')
  end.

Definition IsComplete (s : thresholdSignerImpl) : bool := complete (session s).

(** ** A party *)
Record ThresholdPartySigner := mkParty {
  party : string;
  party_inner : Signer;
  party_round : Z
}.

Definition NewThresholdPartySigner (party : string) (inner : option Signer)
    : result ThresholdPartySigner :=
  let op := "soroauth: new threshold party signer" in
  _ ← wrap op (ParseAddress party);
  inner ← of_option inner (EWrap op (ESentinel ErrMissingSigner));
  Ok (mkParty party inner 0).

(** The party's round plays no part in what it signs. *)
Definition party_asSigner (s : ThresholdPartySigner) : Signer :=
  mkSigner (party s) (call_Sign (party_inner s)) None.

Definition SetRound (s : ThresholdPartySigner) (round : Z) : ThresholdPartySigner :=
  mkParty (party s) (party_inner s) round.

Definition Round (s : ThresholdPartySigner) : Z := party_round s.

(** ** Runs *)
Inductive call :=
| CallBegin (ctx_err : option error) (random : result bytes)
| CallContribute (ctx_err : option error) (r : Z) (share : bytes).

Definition step (s : thresholdSignerImpl) (c : call) : thresholdSignerImpl :=
  match c with
  | CallBegin e random => (Begin e random s).2
  | CallContribute e r share => (Contribute e r share s).2
  end.

Definition run (s : thresholdSignerImpl) (calls : list call) : thresholdSignerImpl :=
  foldl step s calls.

(** ** Specification: the round in force and its accepted shares *)
Definition accept (rs : Z * gmap bytes bytes) (c : call) : Z * gmap bytes bytes :=
  match c with
  | CallBegin None (Ok buf) => (wrap_i64 (be_value buf), ∅)
  | CallBegin _ _ => rs
  | CallContribute None r (b :: share) =>
      if (r =? rs.1)%Z then (rs.1, <[partyID (b :: share) := b :: share]> rs.2) else rs
  | CallContribute _ _ _ => rs
  end.

Definition accepted (calls : list call) : Z * gmap bytes bytes := foldl accept (0%Z, ∅) calls.
End threshold.

(** ** Combining shares does not depend on the order of the map *)
Lemma length_xor_into sig share : length (xor_into sig share) = length sig.
Proof. revert share. induction sig as [|x sig IH]; intros [|y share]; cbn; auto. Qed.

Lemma lxor_byte_range x y : (0 <= Z.lxor (byteZ x) (byteZ y) < 256)%Z.
Proof.
  pose proof (byteZ_range x). pose proof (byteZ_range y).
  assert (0 <= Z.lxor (byteZ x) (byteZ y))%Z by (apply Z.lxor_nonneg; lia).
  split; [done|]. destruct (Z.eq_dec (Z.lxor (byteZ x) (byteZ y)) 0%Z) as [->|]; [done|].
  apply (Z.log2_lt_pow2 _ 8); [lia|].
  assert (Hlog : ∀ z, (0 <= z < 256)%Z → (Z.log2 z < 8)%Z).
  { intros z Hz. destruct (Z.eq_dec z 0%Z) as [->|]; [done|]. apply Z.log2_lt_pow2; lia. }
  pose proof (Z.log2_lxor (byteZ x) (byteZ y)).
  pose proof (Hlog (byteZ x)). pose proof (Hlog (byteZ y)). lia.
Qed.

Lemma xor_into_comm sig a b : xor_into (xor_into sig a) b = xor_into (xor_into sig b) a.
Proof.
  revert a b. induction sig as [|x sig IH]; intros [|y a] [|z b]; cbn; try done.
  f_equal; [|apply IH]. f_equal. rewrite !byteZ_Zbyte.
  rewrite !(Z.mod_small (Z.lxor _ _)) by apply lxor_byte_range.
  rewrite !Z.lxor_assoc. f_equal. apply Z.lxor_comm.
Qed.

Definition xor_all (shares : list bytes) : bytes := foldl xor_into (replicate 64 x00) shares.

Lemma foldl_xor_Permutation sig l l' : l ≡ₚ l' → foldl xor_into sig l = foldl xor_into sig l'.
Proof.
  intros Hp. revert sig. induction Hp as [|x l l' _ IH|x y l|l1 l2 l3 _ IH1 _ IH2]; intros sig; cbn.
  - done.
  - apply IH.
  - by rewrite xor_into_comm.
  - by rewrite IH1.
Qed.

(** Whatever order the map's shares are visited in. *)
Lemma combine_shares_any_order m l : l ≡ₚ (map_to_list m).*2 → combine_shares m = xor_all l.
Proof.
  intros Hl. unfold combine_shares, xor_all. rewrite (foldl_xor_Permutation _ _ _ Hl).
  rewrite map_fold_foldr. rewrite <-(foldl_xor_Permutation _ (reverse (map_to_list m).*2));
    [|apply reverse_Permutation].
  clear Hl. induction (map_to_list m) as [|[k v] ls IH]; [done|]. cbn [foldr fmap list_fmap].
  rewrite reverse_cons, foldl_app, <-IH. done.
Qed.

(** ** Theorems *)
Section threshold_theorems.
Context `{SDK}.

(** A complete session holds the combination of its shares, and is complete
    exactly when enough parties contributed. *)
Definition session_ok (s : thresholdSignerImpl) : Prop :=
  (complete (session s) = true ↔ (threshold s <= Z.of_nat (size (shares (session s))))%Z) ∧
  signature (session s) =
    if complete (session s) then Some (combine_shares (shares (session s))) else None.

Lemma NewThresholdSigner_Ok a t ps s :
  NewThresholdSigner a t ps = Ok s →
  a ≠ "" ∧ (1 <= t <= Z.of_nat (Nat.min (length ps) maxAccountSignatures))%Z ∧
  account s = a ∧ threshold s = t ∧ session s = mkSession 0 ∅ false None.
Proof.
  unfold NewThresholdSigner. intros Hs. inv_ok. destruct (firstDuplicate _ _); [done|]. inv_ok.
  apply bool_decide_eq_false in Hx. cbn. rewrite orb_false_iff in *. split_and_all. cbn.
  repeat split; try done; lia.
Qed.

Lemma step_ok s c :
  session_ok s → (1 <= threshold s)%Z →
  session_ok (step s c) ∧ threshold (step s c) = threshold s ∧
  (round (session (step s c)), shares (session (step s c)))
  = accept (round (session s), shares (session s)) c.
Proof.
  intros Hok Ht. pose proof Hok as [Hc Hsig].
  assert (Hsame : step s c = s → accept (round (session s), shares (session s)) c
      = (round (session s), shares (session s)) →
    session_ok (step s c) ∧ threshold (step s c) = threshold s ∧
    (round (session (step s c)), shares (session (step s c)))
    = accept (round (session s), shares (session s)) c) by (by intros -> ->).
  destruct c as [[e|] [buf|e']|[e|] r [|b share]]; try (by apply Hsame).
  - clear Hsame. cbn [step Begin snd]. split; [|done]. split; [|done].
    change (false = true ↔ (threshold s <= 0)%Z). split; [done|lia].
  - apply Hsame; [|done]. unfold step, Contribute. by destruct (r =? _)%Z.
  - cbn [step] in *. unfold Contribute in *. cbn [accept fst snd length Nat.eqb] in *.
    destruct (r =? round (session s))%Z; cbn [negb] in *; [clear Hsame|by apply Hsame].
    set (m := <[partyID (b :: share) := b :: share]> (shares (session s))).
    assert (Hmono : (size (shares (session s)) <= size m)%nat).
    { unfold m. rewrite map_size_insert.
      destruct (_ !! _); cbv beta iota; unfold id; lia. }
    rewrite Z.geb_leb. destruct (Z.leb_spec (threshold s) (Z.of_nat (size m))) as [Hle|Hlt]; cbn.
    + repeat split; done.
    + split; [|done]. assert (complete (session s) = false) as Hf.
      { apply not_true_is_false. intros Hle%Hc. apply Nat2Z.inj_le in Hmono.
        exact (Z.lt_irrefl _ (Z.le_lt_trans _ _ _ (Z.le_trans _ _ _ Hle Hmono) Hlt)). }
      rewrite Hf in Hsig. split; cbn; rewrite Hf; [|done]. split; [done|].
      intros Hle. exfalso. by apply (Z.lt_irrefl _ (Z.le_lt_trans _ _ _ Hle Hlt)).
Qed.

(** What a session becomes depends on its threshold and its calls alone. *)
Lemma step_session s s' c :
  threshold s' = threshold s → session s' = session s →
  threshold (step s' c) = threshold (step s c) ∧ session (step s' c) = session (step s c).
Proof.
  intros Ht Hs. destruct c as [ctx_err random|ctx_err r share]; cbn [step].
  - unfold Begin. destruct ctx_err as [e|], random as [buf|e']; cbn; by rewrite ?Hs.
  - unfold Contribute. rewrite Hs, Ht.
    destruct ctx_err as [e|]; [done|]. destruct (negb _); [done|]. by destruct (Nat.eqb _ _).
Qed.

Lemma run_session s s' calls :
  threshold s' = threshold s → session s' = session s →
  session (run s' calls) = session (run s calls).
Proof.
  revert s s'. induction calls as [|c calls IH]; intros s s' Ht Hs; [done|].
  cbn. destruct (step_session s s' c Ht Hs). by apply IH.
Qed.

(** C14. After any sequence of [Begin] and [Contribute] calls on a new session,
    the session is complete exactly when shares with at least [threshold]
    different first 32 bytes were accepted in the round in force, the last one
    of each identifier counting; [Sign] then gives, in whatever order the shares
    are combined, their exclusive or over 64 bytes, and before that it is
    refused.  The identifier is whatever the share starts with: a session for
    any other parties behaves the same, so nothing makes the contributors be
    the listed parties the constructor's comment requires ([ex_unlisted]). *)
Theorem ThresholdSigner_session a t ps s calls :
  NewThresholdSigner a t ps = Ok s →
  let m := (accepted calls).2 in
  IsComplete (run s calls) = bool_decide (t <= Z.of_nat (size m))%Z ∧
  (∀ l, l ≡ₚ (map_to_list m).*2 →
    threshold_Sign (run s calls) None =
    if IsComplete (run s calls) then Ok (scVec [scBytes (xor_all l)])
    else Err (EWrap "soroauth: threshold signer sign: threshold not met"
                (ESentinel ErrMissingSigner))) ∧
  (∀ a' ps' s', NewThresholdSigner a' t ps' = Ok s' →
    session (run s' calls) = session (run s calls)).
Proof.
  intros (_ & Ht & _ & Hthr & Hs)%NewThresholdSigner_Ok.
  assert (Hother : ∀ a' ps' s', NewThresholdSigner a' t ps' = Ok s' →
    session (run s' calls) = session (run s calls)).
  { intros a' ps' s' (_ & _ & _ & Hthr' & Hs')%NewThresholdSigner_Ok.
    apply run_session; congruence. }
  assert (Hrun : ∀ calls s rs, session_ok s → (1 <= threshold s)%Z →
    rs = (round (session s), shares (session s)) →
    session_ok (run s calls) ∧ threshold (run s calls) = threshold s ∧
    shares (session (run s calls)) = (foldl accept rs calls).2).
  { clear. induction calls as [|c calls IH]; intros s rs Hok Ht ->; cbn; [done|].
    destruct (step_ok s c Hok Ht) as (Hok' & Ht' & Hacc).
    rewrite <-Ht'. apply IH; [done|lia|by rewrite Hacc]. }
  destruct (Hrun calls s (0%Z, ∅)) as ((Hc & Hsig) & Hthr' & Hm);
    [|rewrite Hthr; lia|by rewrite Hs|].
  { split; rewrite Hs; [|done]. change (false = true ↔ (threshold s <= 0)%Z). rewrite Hthr.
    split; [done|lia]. }
  unfold IsComplete, accepted. rewrite Hthr', Hthr, Hm in *. cbn zeta. split.
  - apply eq_true_iff_eq. by rewrite Hc, bool_decide_eq_true.
  - split; [|exact Hother]. intros l Hl. unfold threshold_Sign.
    destruct (complete _); cbn; [|done]. by rewrite Hsig, (combine_shares_any_order _ l).
Qed.
End threshold_theorems.

(** ** The theorem at a concrete session *)
Definition ex_parties : list string := [ex_text "c"; ex_text "a"; ex_text "b"].

Definition ex_session : thresholdSignerImpl :=
  mkThreshold (ex_text "x") 2 [ex_text "a"; ex_text "b"; ex_text "c"] (mkSession 0 ∅ false None).

Lemma ex_session_new : NewThresholdSigner (ex_text "x") 2 ex_parties = Ok ex_session.
Proof. vm_compute. reflexivity. Qed.

(** Two parties contribute, the second of them to a stale round first. *)
Definition ex_contributions : list call :=
  [CallBegin None (Ok [x00; x00; x00; x00; x00; x00; x00; x07]);
   CallContribute None 7 (replicate 64 x05); CallContribute None 6 (replicate 64 x0a);
   CallContribute None 7 (replicate 64 x0c)].

(** Neither contribution starts with the key of a listed party, and the session
    is complete all the same. *)
Example ex_unlisted :
  IsComplete (run ex_session ex_contributions) = true ∧
  Forall (λ p, ∀ t share, share ∈ [replicate 64 x05; replicate 64 x0c] →
    ParseAddress p ≠ Ok (ScAddressTypeAccount (Some (mkAccountId t (Some (partyID share))))))
    ex_parties.
Proof.
  split; [vm_compute; reflexivity|].
  apply Forall_forall. intros p Hp%list_elem_of_In t share Hs%list_elem_of_In.
  destruct Hp as [<-|[<-|[<-|[]]]], Hs as [<-|[<-|[]]]; vm_compute; discriminate.
Qed.

Lemma ThresholdSigner_session_witness :
  IsComplete (run ex_session ex_contributions) = true ∧
  threshold_Sign (run ex_session ex_contributions) None = Ok (scVec [scBytes (replicate 64 x09)]).
Proof.
  destruct (ThresholdSigner_session _ _ _ _ ex_contributions ex_session_new) as (Hc & Hs & _).
  split; [rewrite Hc; vm_compute; reflexivity|].
  rewrite (Hs [replicate 64 x05; replicate 64 x0c]); [vm_compute; reflexivity|].
  vm_compute. first [reflexivity | apply Permutation_swap].
Defined.

(** A party signs under its own address what its signer signs. *)
Lemma NewThresholdPartySigner_Ok `{SDK} p inner s : NewThresholdPartySigner p inner = Ok s →
  ∃ i a, inner = Some i ∧ ParseAddress p = Ok a ∧ s = mkParty p i 0 ∧
    ∀ round, party_asSigner (SetRound s round) = mkSigner p (call_Sign i) None.
Proof. unfold NewThresholdPartySigner. intros Hs. inv_ok. naive_solver. Qed.
