(* ===== verification/Retry.v ===== *)
(** * Retry: the retrying signer (signer.go)

    [WithRetry] asks its inner signer again after a transport error, with a
    jittered exponential backoff on 64-bit durations.  [retry_spec] is the
    abstract specification over the inner signer's successive answers; the
    theorems bound the attempts and the pauses. *)
From Stdlib Require Import ZArith Lia Strings.Byte String.
From stdpp Require Import base list strings.
From S2P Require Import Prelude Errors Xdr ModelSDK Runtime Examples.

Open Scope string_scope. Open Scope nat_scope. Open Scope list_scope.

(** Durations are 64-bit counts of nanoseconds. *)
Definition Millisecond : Z := 1000000.
Definition Second : Z := 1000000000.

Record RetryConfig := mkRetryConfig {
  Attempts : Z;
  InitialBackoff : Z;
  MaxBackoff : Z
}.

(** [strings.Contains] *)
Definition strings_Contains (s sub : string) : bool :=
  match String.index 0 sub s with Some _ => true | None => false end.

Definition IsSignatureRejection (err : option error) : bool :=
  match err with
  | None => false
  | Some err =>
      if errors_Is err ErrSignatureMismatch || errors_Is err ErrMissingSigner
         || errors_Is err ErrTooManySignatures
      then true
      else strings_Contains (Error err) "server refused"
  end.

Section retry.
(** [rng.Int63n]: a number from 0 up to its argument. *)
Variable rand_Int63n : Z → IO Z.
Variable inner : Signer.
Variables (ctx : Ctx) (preimage : HashIdPreimage) (payload : bytes).

(** [sleepDur], from the current backoff: a jitter of up to a quarter, capped. *)
Definition sleepDuration (backoffDur maxBackoff : Z) : IO Z :=
  jitter ← (if (Z.quot backoffDur 4 >? 0)%Z then rand_Int63n (Z.quot backoffDur 4)
            else mret 0%Z);
  let sleepDur := wrap_i64 (backoffDur + jitter) in
  mret (if (sleepDur >? maxBackoff)%Z then maxBackoff else sleepDur).

Definition nextBackoff (backoffDur maxBackoff : Z) : Z :=
  let doubled := wrap_i64 (backoffDur * 2) in
  if (doubled >? maxBackoff)%Z then maxBackoff else doubled.

(** The loop from one attempt on, with [more] attempts left after it.  The
    select between the timer and cancellation is the poll after the pause:
    either way a context cancelled by then ends the call. *)
Fixpoint retryLoop (more : nat) (backoffDur maxBackoff : Z) : IO ScVal :=
  let cancelled := "soroauth: retry sign cancelled" in
  _ ← ctx_check ctx "soroauth: retry sign";
  r ← try_ (call_Sign inner ctx preimage payload);
  match r with
  | Ok val => mret val
  | Err err =>
      if IsSignatureRejection (Some err) then lift (Err err)
      else
        match more with
        | O => lift (Err err)
        | S more =>
            _ ← ctx_check ctx cancelled;
            _ ← ctx_check ctx cancelled;
            sleepDur ← sleepDuration backoffDur maxBackoff;
            _ ← perform (EvSleep sleepDur);
            _ ← ctx_check ctx cancelled;
            _ ← ctx_check ctx cancelled;
            _ ← ctx_check ctx cancelled;
            retryLoop more (nextBackoff backoffDur maxBackoff) maxBackoff
        end
  end.

Definition effectiveAttempts (cfg : RetryConfig) : Z :=
  if (Attempts cfg <=? 0)%Z then 1%Z else Attempts cfg.
Definition effectiveInitial (cfg : RetryConfig) : Z :=
  if (InitialBackoff cfg <=? 0)%Z then (50 * Millisecond)%Z else InitialBackoff cfg.
Definition effectiveMax (cfg : RetryConfig) : Z :=
  if (MaxBackoff cfg <=? 0)%Z then Second else MaxBackoff cfg.

Definition retriedSigner_Sign (cfg : RetryConfig) : IO ScVal :=
  retryLoop (Z.to_nat (effectiveAttempts cfg - 1)) (effectiveInitial cfg) (effectiveMax cfg).
End retry.

Definition WithRetry (rand_Int63n : Z → IO Z) (signer : Signer) (cfg : RetryConfig) : Signer :=
  let cfg := if (Attempts cfg <=? 0)%Z
             then mkRetryConfig 1 (InitialBackoff cfg) (MaxBackoff cfg) else cfg in
  mkSigner (signer_Address signer)
    (λ ctx preimage payload, retriedSigner_Sign rand_Int63n signer ctx preimage payload cfg)
    (Some (match signer_Capabilities signer with
           | Some c => c
           | None => mkCapabilities false true false false
           end)).

(** ** Specification *)
Definition is_sign (e : Event) : bool := match e with EvSign _ _ _ => true | _ => false end.
Definition is_sleep (e : Event) : bool := match e with EvSleep _ => true | _ => false end.
Definition count (f : Event → bool) (l : list Event) : nat := length (List.filter f l).

(** The answer of a run over the inner signer's answers from the [i]th on: the
    first that is a value or a rejection, or else the last one allowed. *)
Fixpoint retry_spec (script : nat → result ScVal) (i more : nat) : result ScVal :=
  match script i with
  | Ok v => Ok v
  | Err e =>
      if IsSignatureRejection (Some e) then Err e
      else match more with O => Err e | S more => retry_spec script (S i) more end
  end.

(** A generator that stays in range and leaves no trace. *)
Definition good_random (rand_Int63n : Z → IO Z) : Prop :=
  ∀ n w, (0 < n)%Z → ∃ z w', rand_Int63n n w = (Ok z, w') ∧ (0 <= z < n)%Z ∧ log w' = log w.

(** A signer that answers its [k]th request, counted from the log entry
    [base], by a script. *)
Definition scripted (s : Signer) (base : nat) (script : nat → result ScVal) : Prop :=
  ∀ ctx pre payload w, ∃ w', signer_Sign s ctx pre payload w =
    (script (count is_sign (drop base (log w)) - 1), w') ∧ log w' = log w.

Section retry_lemmas.
Lemma count_app f l1 l2 : count f (l1 ++ l2) = count f l1 + count f l2.
Proof. unfold count. by rewrite List.filter_app, length_app. Qed.

Variables (rand_Int63n : Z → IO Z) (inner : Signer).
Variables (ctx : Ctx) (preimage : HashIdPreimage) (payload : bytes).
Hypothesis Hrand : good_random rand_Int63n.

Lemma sleepDuration_Ok backoff max w :
  (0 < backoff <= 2 ^ 61)%Z → (0 < max)%Z →
  ∃ d w', sleepDuration rand_Int63n backoff max w = (Ok d, w') ∧ (0 < d <= max)%Z ∧
          log w' = log w.
Proof.
  intros Hb Hm. unfold sleepDuration.
  assert (Hj : ∃ j w', (if (Z.quot backoff 4 >? 0)%Z then rand_Int63n (Z.quot backoff 4)
      else mret 0%Z) w = (Ok j, w') ∧ (0 <= j <= backoff)%Z ∧ log w' = log w).
  { pose proof (Z.quot_lt backoff 4). rewrite Z.gtb_ltb.
    destruct (Z.ltb_spec 0 (Z.quot backoff 4)) as [Hq|Hq].
    - destruct (Hrand (Z.quot backoff 4) w Hq) as (j & w' & -> & Hj & Hl).
      exists j, w'. split; [done|]. split; [lia|done].
    - exists 0%Z, w. split; [done|]. split; [lia|done]. }
  destruct Hj as (j & w' & Hj & Hr & Hl). unfold mbind at 1, IO_bind at 1. rewrite Hj.
  assert (Hw : wrap_i64 (backoff + j) = (backoff + j)%Z) by (apply wrap_i64_id; unfold is_i64, MaxInt64; lia).
  rewrite Hw. eexists _, w'. split; [reflexivity|]. split; [|done].
  rewrite Z.gtb_ltb. destruct (Z.ltb_spec max (backoff + j)); lia.
Qed.

Lemma nextBackoff_range backoff max :
  (0 < backoff <= 2 ^ 61)%Z → (0 < max <= 2 ^ 61)%Z → (0 < nextBackoff backoff max <= 2 ^ 61)%Z.
Proof.
  intros Hb Hm. unfold nextBackoff. rewrite wrap_i64_id by (unfold is_i64, MaxInt64; lia). rewrite Z.gtb_ltb.
  destruct (Z.ltb_spec max (backoff * 2)); lia.
Qed.

(** What one run of the loop may ask of the outside. *)
Definition run_log (attempts : nat) (max : Z) (l : list Event) : Prop :=
  count is_sign l <= attempts ∧ count is_sleep l <= Nat.pred attempts ∧
  Forall (λ e, match e with EvSleep d => (0 < d <= max)%Z | _ => True end) l.

Lemma retryLoop_bounds more backoff max :
  silent inner → (0 < backoff <= 2 ^ 61)%Z → (0 < max <= 2 ^ 61)%Z →
  logs (retryLoop rand_Int63n inner ctx preimage payload more backoff max)
    (λ _ l, run_log (S more) max l).
Proof.
  intros Hs Hb Hm. revert backoff Hb.
  assert (Hnil : ∀ n, run_log n max []).
  { intros n. repeat split; cbn; try lia. constructor. }
  assert (Hone : ∀ n, run_log (S n) max [EvSign (signer_Address inner) preimage payload]).
  { intros n. repeat split; cbn; try lia. by repeat constructor. }
  induction more as [|more IH]; intros backoff Hb; cbn [retryLoop];
    (apply logs_bind, logs_ctx_check; [|intros; apply Hnil]);
    apply logs_bind, logs_try, logs_call_Sign; [done| |done|]; intros [v|e].
  1, 3: apply logs_ret, Hone.
  all: destruct (IsSignatureRejection _); [apply logs_lift, Hone|].
  1: apply logs_lift, Hone.
  do 2 (apply logs_bind, logs_ctx_check; [|intros; apply Hone]).
  apply logs_bind, logs_quiet. intros w.
  destruct (sleepDuration_Ok backoff max w Hb (proj1 Hm)) as (d & w' & E & Hd & Hl).
  exists (Ok d), w'. split; [done|]. split; [done|].
  assert (Hpause : run_log (S (S more)) max
    [EvSign (signer_Address inner) preimage payload; EvSleep d]).
  { split; [cbn; lia|]. split; [cbn; lia|]. by do 2 (constructor; [done|]). }
  apply logs_bind, logs_perform.
  do 3 (apply logs_bind, logs_ctx_check; [|intros; apply Hpause]).
  eapply logs_weaken; [apply IH, nextBackoff_range; done|].
  intros r l (H1 & H2 & H3). unfold run_log. cbn [app].
  change (EvSign (signer_Address inner) preimage payload :: EvSleep d :: l)
    with ([EvSign (signer_Address inner) preimage payload; EvSleep d] ++ l).
  rewrite !count_app. cbn in *. split; [lia|]. split; [lia|].
  by do 2 (constructor; [done|]).
Qed.

(** On a context that stays live, the loop computes [retry_spec]. *)
Lemma retryLoop_spec script base more i backoff max w :
  (∀ t, ctx_Err ctx t = None) → scripted inner base script →
  (0 < backoff <= 2 ^ 61)%Z → (0 < max <= 2 ^ 61)%Z →
  base <= length (log w) → count is_sign (drop base (log w)) = i →
  (retryLoop rand_Int63n inner ctx preimage payload more backoff max w).1
  = retry_spec script i more.
Proof.
  intros Hctx Hs Hb Hm. revert i backoff w Hb.
  assert (Hchk : ∀ {A} p (k : unit → IO A) w, (x ← ctx_check ctx p; k x) w = k tt (tick w)).
  { intros A p k w. unfold mbind, IO_bind. by rewrite (proj2 (ctx_check_Ok ctx p w tt (tick w))). }
  induction more as [|more IH]; intros i backoff w Hb Hbase Hi; cbn [retryLoop];
    rewrite Hchk; unfold mbind at 1, IO_bind at 1, try_ at 1, call_Sign;
    unfold mbind at 1, IO_bind at 1; cbn [perform];
    (destruct (Hs ctx preimage payload
       (emit_event (EvSign (signer_Address inner) preimage payload) (tick w)))
       as (w1 & Hsign & Hlog)); rewrite Hsign; cbn [emit_event tick log] in *;
    rewrite drop_app_le by done; rewrite count_app, Hi; cbn [count is_sign];
    replace (i + count is_sign [EvSign (signer_Address inner) preimage payload] - 1)
      with i by (cbn; lia).
  - cbn [retry_spec]. destruct (script i) as [v|e]; [done|].
    by destruct (IsSignatureRejection _).
  - cbn [retry_spec]. destruct (script i) as [v|e]; [done|].
    destruct (IsSignatureRejection _); [done|]. rewrite !Hchk.
    unfold mbind at 1, IO_bind at 1.
    destruct (sleepDuration_Ok backoff max (tick (tick w1)) Hb (proj1 Hm))
      as (d & w2 & E & _ & Hl). rewrite E. unfold mbind at 1, IO_bind at 1. cbn [perform].
    rewrite !Hchk. apply IH.
    + by apply nextBackoff_range.
    + cbn [log tick emit_event]. rewrite Hl. cbn [log tick]. rewrite Hlog, !length_app. lia.
    + cbn [log tick emit_event]. rewrite Hl. cbn [log tick]. rewrite Hlog.
      rewrite drop_app_le by (rewrite length_app; lia). rewrite drop_app_le by done.
      rewrite !count_app, Hi. cbn. lia.
Qed.
End retry_lemmas.

(** ** Theorems *)
Section retry_theorems.
Variables (rand_Int63n : Z → IO Z) (inner : Signer) (cfg : RetryConfig).
Hypothesis Hrand : good_random rand_Int63n.
(** Durations of at most 2^61 nanoseconds, some 73 years. *)
Hypothesis Hinitial : (InitialBackoff cfg <= 2 ^ 61)%Z.
Hypothesis Hmax : (MaxBackoff cfg <= 2 ^ 61)%Z.

Lemma effective_ranges cfg' :
  InitialBackoff cfg' = InitialBackoff cfg → MaxBackoff cfg' = MaxBackoff cfg →
  (0 < effectiveInitial cfg' <= 2 ^ 61)%Z ∧ (0 < effectiveMax cfg' <= 2 ^ 61)%Z.
Proof.
  unfold effectiveInitial, effectiveMax, Second, Millisecond. intros -> ->.
  destruct (Z.leb_spec (InitialBackoff cfg) 0), (Z.leb_spec (MaxBackoff cfg) 0); lia.
Qed.

(** C15. Whatever the context does and the inner signer answers, one call of a
    retrying signer asks the inner signer at most [Attempts] times (once when
    the configuration names no positive number), pauses at least once less
    often, and every pause is positive and at most the maximum backoff. *)
Theorem WithRetry_bounds ctx pre payload w r w' :
  silent inner →
  signer_Sign (WithRetry rand_Int63n inner cfg) ctx pre payload w = (r, w') →
  ∃ l, log w' = log w ++ l ∧
    run_log (Z.to_nat (effectiveAttempts cfg)) (effectiveMax cfg) l.
Proof.
  intros Hs Hr. refine (logs_run _ (λ _ l, run_log _ _ l) w r w' _ Hr). clear Hr.
  cbn [signer_Sign WithRetry].
  set (cfg' := if (Attempts cfg <=? 0)%Z then _ else cfg).
  assert (Hc : InitialBackoff cfg' = InitialBackoff cfg ∧ MaxBackoff cfg' = MaxBackoff cfg ∧
    effectiveAttempts cfg' = effectiveAttempts cfg).
  { unfold cfg', effectiveAttempts. destruct (Z.leb_spec (Attempts cfg) 0) as [H|H]; [done|].
    by rewrite (proj2 (Z.leb_gt _ _)). }
  destruct Hc as (Hi & Hx & Ha). destruct (effective_ranges cfg' Hi Hx) as [? ?].
  assert (effectiveMax cfg' = effectiveMax cfg) as <- by (unfold effectiveMax; by rewrite Hx).
  assert (Hpos : (1 <= effectiveAttempts cfg)%Z).
  { unfold effectiveAttempts. destruct (Z.leb_spec (Attempts cfg) 0); lia. }
  unfold retriedSigner_Sign. rewrite Ha.
  replace (Z.to_nat (effectiveAttempts cfg)) with (S (Z.to_nat (effectiveAttempts cfg - 1))) by lia.
  by apply retryLoop_bounds.
Qed.

(** On a context that stays live the result is the inner signer's first
    answer that is a signature or a rejection, and a rejection is never asked
    about again; when all permitted attempts fail otherwise, it is the last
    failure, unchanged. *)
Theorem WithRetry_spec ctx pre payload w script :
  (∀ t, ctx_Err ctx t = None) → scripted inner (length (log w)) script →
  (signer_Sign (WithRetry rand_Int63n inner cfg) ctx pre payload w).1
  = retry_spec script 0 (Z.to_nat (effectiveAttempts cfg - 1)).
Proof.
  intros Hctx Hs. cbn [signer_Sign WithRetry].
  set (cfg' := if (Attempts cfg <=? 0)%Z then _ else cfg).
  assert (Hc : InitialBackoff cfg' = InitialBackoff cfg ∧ MaxBackoff cfg' = MaxBackoff cfg ∧
    effectiveAttempts cfg' = effectiveAttempts cfg).
  { unfold cfg', effectiveAttempts. destruct (Z.leb_spec (Attempts cfg) 0) as [H|H]; [done|].
    by rewrite (proj2 (Z.leb_gt _ _)). }
  destruct Hc as (Hi & Hx & Ha). destruct (effective_ranges cfg' Hi Hx) as [? ?].
  unfold retriedSigner_Sign. rewrite Ha.
  eapply retryLoop_spec; try done. by rewrite drop_all.
Qed.
End retry_theorems.

(** ** The theorems at a concrete signer *)
(** Fails twice, the second time as a rejection; asked again it would sign. *)
Definition ex_script (k : nat) : result ScVal :=
  match k with
  | 0 => Err (EText "connection refused")
  | 1 => Err (ESentinel ErrSignatureMismatch)
  | _ => Ok (ScvBool (Some true))
  end.

Definition ex_scripted_signer : Signer :=
  mkSigner "G" (λ _ _ _ w, (ex_script (count is_sign (log w) - 1), w)) None.

Definition ex_random (n : Z) : IO Z := mret (n - 1)%Z.

Lemma ex_random_good : good_random ex_random.
Proof. intros n w Hn. exists (n - 1)%Z, w. split; [done|]. split; [lia|done]. Qed.

Definition ex_retry : RetryConfig := mkRetryConfig 5 (8 * Second) (2 * Second).

Lemma WithRetry_bounds_witness : ∃ r w' l,
  signer_Sign (WithRetry ex_random ex_scripted_signer ex_retry) Background
    (mkHashIdPreimage 0 None None) [] initial_world = (r, w') ∧
  log w' = log initial_world ++ l ∧
  run_log (Z.to_nat (effectiveAttempts ex_retry)) (effectiveMax ex_retry) l.
Proof.
  destruct (signer_Sign (WithRetry ex_random ex_scripted_signer ex_retry) Background
    (mkHashIdPreimage 0 None None) [] initial_world) as [r w'] eqn:Hr.
  edestruct (WithRetry_bounds ex_random ex_scripted_signer ex_retry ex_random_good)
    as (l & Hl & Hb); [vm_compute; congruence..|by intros ? ? ? ?|exact Hr|].
  exists r, w', l. split; [done|]. by split.
Defined.

Lemma WithRetry_spec_witness :
  (signer_Sign (WithRetry ex_random ex_scripted_signer ex_retry) Background
    (mkHashIdPreimage 0 None None) [] initial_world).1 = Err (ESentinel ErrSignatureMismatch).
Proof.
  rewrite (WithRetry_spec ex_random ex_scripted_signer ex_retry ex_random_good) with
    (script := ex_script); [reflexivity|vm_compute; congruence|vm_compute; congruence|done|].
  intros ctx pre payload w. by exists w.
Defined.
