(* ===== verification/Chain.v ===== *)
(** * Chain: signer chains (chain.go)

    A chain combines interchangeable signers of one address: the first that
    answers ([NewFallbackSigner]) or a number of identical answers
    ([NewQuorumSigner]).  Every signer leaves one [ChainAttempt] per call, in
    the audit callback and, when the chain fails, in the [ChainError].  The
    theorems describe that record: which signers were asked, why the chain
    stopped, and that a refusal is never routed around. *)
From Stdlib Require Import ZArith Lia Strings.Byte String.
From stdpp Require Import base list strings pretty.
From S2P Require Import Prelude Errors Xdr ModelSDK Runtime Examples Retry.

Open Scope string_scope. Open Scope nat_scope. Open Scope list_scope.

(** ** Errors of signers *)
(** A nil error stays nil. *)
Definition MarkTransient (err : option error) : option error := ETransient <$> err.

Definition classify (err : error) : ChainOutcome :=
  if errors_Is err ErrPolicyRefusal || IsSignatureRejection (Some err) then ChainTerminalFailure
  else if errors_Is err ErrSignerTransient then ChainTransientFailure
  else ChainTerminalFailure.

Definition terminalReason (err : error) : string :=
  if errors_Is err ErrPolicyRefusal then "policy refusal"
  else if IsSignatureRejection (Some err) then "signature rejection"
  else "error not marked transient".

(** ** Configuration *)
(** The audit callback is caller code; it returns nothing. *)
Definition AuditFn : Type := ChainAttempt → IO unit.

Record chainConfig := mkChainConfig { audit : option AuditFn }.

Definition ChainOption : Type := chainConfig → chainConfig.

Definition WithChainAudit (fn : option AuditFn) : ChainOption := λ _, mkChainConfig fn.

Record chainSigner := mkChainSigner {
  chain_address : string;
  chain_signers : list Signer;
  chain_quorum : nat;                (* 0 means fallback *)
  chain_cfg : chainConfig
}.

(** The loop of [newChain]: every signer present, with one non-empty address. *)
Fixpoint sameAddress (i : nat) (address : string) (signers : list (option Signer))
    : result (string * list Signer) :=
  let op := "soroauth: new signer chain" in
  match signers with
  | [] => Ok (address, [])
  | None :: _ =>
      Err (EWrap (op +:+ ": signer " +:+ pretty i +:+ " is nil") (ESentinel ErrMissingSigner))
  | Some s :: rest =>
      let a := signer_Address s in
      _ ← refuse (bool_decide (a = ""))
            (EWrap (op +:+ ": signer " +:+ pretty i +:+ " has an empty address")
               (ESentinel ErrMissingSigner));
      _ ← refuse (negb (Nat.eqb i 0) && negb (bool_decide (a = address)))
            (EWrap (op +:+ ": signer " +:+ pretty i +:+ " is for " +:+ a +:+
                    ", signer 0 is for " +:+ address) (ESentinel ErrSignerAddressMismatch));
      '(address, ss) ← sameAddress (S i) (if Nat.eqb i 0 then a else address) rest;
      Ok (address, s :: ss)
  end.

Definition chainOptions (opts : list (option ChainOption)) : chainConfig :=
  foldl (λ c o, match o with Some f => f c | None => c end) (mkChainConfig None) opts.

Definition newChain (quorum : nat) (signers : list (option Signer))
    (opts : list (option ChainOption)) : result chainSigner :=
  _ ← refuse (Nat.eqb (length signers) 0)
        (EWrap "soroauth: new signer chain: no signers" (ESentinel ErrMissingSigner));
  '(address, ss) ← sameAddress 0 "" signers;
  Ok (mkChainSigner address ss quorum (chainOptions opts)).

Section chain.
Context `{SDK}.

(** ** The audit record *)
(** The attempts so far are threaded through the calls, as the source threads
    a pointer to its slice. *)
Definition record (c : chainSigner) (attempts : list ChainAttempt) (i : nat)
    (outcome : ChainOutcome) (reason : string) (err : option error) : IO (list ChainAttempt) :=
  let a := mkChainAttempt i (chain_address c) outcome reason err in
  _ ← (match audit (chain_cfg c) with
       | Some fn => _ ← perform (EvAudit a); _ ← try_ (fn a); mret tt
       | None => mret tt
       end);
  mret (attempts ++ [a]).

Fixpoint skipLoop (c : chainSigner) (attempts : list ChainAttempt) (i n : nat) (reason : string)
    : IO (list ChainAttempt) :=
  match n with
  | O => mret attempts
  | S n =>
      attempts ← record c attempts i ChainSkipped reason None;
      skipLoop c attempts (S i) n reason
  end.

Definition skipFrom (c : chainSigner) (attempts : list ChainAttempt) (i : nat) (reason : string)
    : IO (list ChainAttempt) :=
  skipLoop c attempts i (length (chain_signers c) - i) reason.

Definition fail {A} (attempts : list ChainAttempt) (cause : error) : IO A :=
  lift (Err (EChainError attempts cause)).

(** Ends a call that fails at signer [i]: the rest is skipped. *)
Definition stop (c : chainSigner) (attempts : list ChainAttempt) (i : nat) (skipReason : string)
    (cause : error) : IO ScVal :=
  attempts ← skipFrom c attempts i skipReason;
  fail attempts cause.

Variables (ctx : Ctx) (preimage : HashIdPreimage) (payload : bytes).

(** ** signFallback *)
Fixpoint signFallbackLoop (c : chainSigner) (attempts : list ChainAttempt) (i : nat)
    (signers : list Signer) : IO ScVal :=
  let op := "soroauth: sign signer chain" in
  match signers with
  | [] =>
      fail attempts (EWrap (op +:+ ": " +:+ pretty (length (chain_signers c)) +:+ " signers")
                       (ESentinel ErrChainExhausted))
  | s :: rest =>
      cancelled ← ctx_poll ctx;
      match cancelled with
      | Some e =>
          stop c attempts i "context cancelled before this signer was called" (EWrap op e)
      | None =>
          r ← try_ (call_Sign s ctx preimage payload);
          match r with
          | Ok val =>
              attempts ← record c attempts i ChainSucceeded "returned a signature" None;
              _ ← skipFrom c attempts (S i) ("signer " +:+ pretty i +:+ " succeeded");
              mret val
          | Err err =>
              cancelled ← ctx_poll ctx;
              match cancelled with
              | Some ctxErr =>
                  attempts ← record c attempts i ChainTerminalFailure
                               "context cancelled during signing" (Some err);
                  stop c attempts (S i) "context cancelled" (EWrap op ctxErr)
              | None =>
                  match classify err with
                  | ChainTerminalFailure as outcome =>
                      attempts ← record c attempts i outcome
                        ("terminal failure; the chain does not fall through: " +:+
                         terminalReason err) (Some err);
                      stop c attempts (S i) ("signer " +:+ pretty i +:+ " failed terminally")
                        (EWrap (op +:+ ": signer " +:+ pretty i) err)
                  | outcome =>
                      attempts ← record c attempts i outcome
                        "transient failure; trying the next signer" (Some err);
                      signFallbackLoop c attempts (S i) rest
                  end
              end
          end
      end
  end.

Definition signFallback (c : chainSigner) : IO ScVal :=
  signFallbackLoop c [] 0 (chain_signers c).

(** ** signQuorum *)
Definition joinIndexes (idx : list nat) : string :=
  "[" +:+ String.concat " " (map pretty idx) +:+ "]".

Definition notMet (c : chainSigner) (agreedBy : list nat) : error :=
  EWrap ("soroauth: sign signer quorum: " +:+ pretty (chain_quorum c) +:+ " of " +:+
         pretty (length (chain_signers c)) +:+ " required, " +:+ pretty (length agreedBy) +:+
         " agreed") (ESentinel ErrQuorumNotMet).

(** [agreed] holds the encoding of the answers so far: nil before the first. *)
Fixpoint signQuorumLoop (c : chainSigner) (attempts : list ChainAttempt)
    (agreedBytes : option bytes) (agreedBy : list nat) (i : nat) (signers : list Signer)
    : IO ScVal :=
  let op := "soroauth: sign signer quorum" in
  match signers with
  | [] => fail attempts (notMet c agreedBy)
  | s :: rest =>
      cancelled ← ctx_poll ctx;
      match cancelled with
      | Some e =>
          stop c attempts i "context cancelled before this signer was called" (EWrap op e)
      | None =>
          if Nat.ltb (length agreedBy + (length (chain_signers c) - i)) (chain_quorum c) then
            stop c attempts i "quorum can no longer be reached" (notMet c agreedBy)
          else
            r ← try_ (call_Sign s ctx preimage payload);
            match r with
            | Err err =>
                cancelled ← ctx_poll ctx;
                match cancelled with
                | Some ctxErr =>
                    attempts ← record c attempts i ChainTerminalFailure
                                 "context cancelled during signing" (Some err);
                    stop c attempts (S i) "context cancelled" (EWrap op ctxErr)
                | None =>
                    match classify err with
                    | ChainTerminalFailure as outcome =>
                        attempts ← record c attempts i outcome
                          ("terminal failure; the quorum is abandoned: " +:+ terminalReason err)
                          (Some err);
                        stop c attempts (S i) ("signer " +:+ pretty i +:+ " failed terminally")
                          (EWrap (op +:+ ": signer " +:+ pretty i) err)
                    | outcome =>
                        attempts ← record c attempts i outcome
                          "transient failure; the quorum may still be reached" (Some err);
                        signQuorumLoop c attempts agreedBytes agreedBy (S i) rest
                    end
                end
            | Ok val =>
                match MarshalBinary val with
                | Err err =>
                    attempts ← record c attempts i ChainTerminalFailure
                                 "signature is not encodable" (Some err);
                    stop c attempts (S i)
                      ("signer " +:+ pretty i +:+ " returned an unencodable signature")
                      (EWrap (op +:+ ": signer " +:+ pretty i) err)
                | Ok encoded =>
                    if match agreedBytes with
                       | Some b => negb (bytes_Equal encoded b)
                       | None => false
                       end
                    then
                      attempts ← record c attempts i ChainTerminalFailure
                        "returned a different signature from the signers before it" None;
                      stop c attempts (S i) "signers disagree"
                        (EWrap (op +:+ ": signers " +:+ joinIndexes agreedBy +:+
                                " returned one signature and signer " +:+ pretty i +:+
                                " another") (ESentinel ErrQuorumDisagreement))
                    else
                      attempts ← record c attempts i ChainSucceeded "returned a signature" None;
                      let agreedBy := agreedBy ++ [i] in
                      if Nat.eqb (length agreedBy) (chain_quorum c) then
                        _ ← skipFrom c attempts (S i) "quorum reached";
                        mret val
                      else signQuorumLoop c attempts (Some encoded) agreedBy (S i) rest
                end
            end
      end
  end.

Definition signQuorum (c : chainSigner) : IO ScVal :=
  signQuorumLoop c [] None [] 0 (chain_signers c).
End chain.

Section chain_signer.
Context `{SDK}.

Definition chain_Sign (c : chainSigner) (ctx : Ctx) (preimage : HashIdPreimage) (payload : bytes)
    : IO ScVal :=
  if Nat.ltb 0 (chain_quorum c) then signQuorum ctx preimage payload c
  else signFallback ctx preimage payload c.

(** A chain as a signer; it declares no capabilities. *)
Definition chainAsSigner (c : chainSigner) : Signer :=
  mkSigner (chain_address c) (chain_Sign c) None.

Definition NewFallbackSigner (signers : list (option Signer)) (opts : list (option ChainOption))
    : result Signer :=
  chainAsSigner <$> newChain 0 signers opts.

(** The quorum is a Go [int]. *)
Definition NewQuorumSigner (quorum : Z) (signers : list (option Signer))
    (opts : list (option ChainOption)) : result Signer :=
  _ ← refuse ((quorum <? 1)%Z || (quorum >? Z.of_nat (length signers))%Z)
        (EWrap ("soroauth: new quorum signer: quorum " +:+ pretty quorum +:+ " is outside 1.." +:+
                pretty (length signers)) (ESentinel ErrMissingSigner));
  chainAsSigner <$> newChain (Z.to_nat quorum) signers opts.
End chain_signer.

(** ** What the audit callback leaves in the log *)
Definition audits (l : list Event) : list ChainAttempt :=
  omap (λ e, match e with EvAudit a => Some a | _ => None end) l.

Definition audit_log (c : chainSigner) (atts : list ChainAttempt) : list Event :=
  match audit (chain_cfg c) with Some _ => EvAudit <$> atts | None => [] end.

(** An audit callback that leaves no trace of its own. *)
Definition quiet_audit (cfg : chainConfig) : Prop :=
  match audit cfg with
  | Some fn => ∀ a w, log (fn a w).2 = log w
  | None => True
  end.

Lemma audit_log_app c a b : audit_log c (a ++ b) = audit_log c a ++ audit_log c b.
Proof. unfold audit_log. destruct (audit _) as [fn|]; [apply fmap_app|done]. Qed.

Lemma audits_app a b : audits (a ++ b) = audits a ++ audits b.
Proof. apply omap_app. Qed.

Lemma audits_audit_log c atts : audit (chain_cfg c) ≠ None → audits (audit_log c atts) = atts.
Proof.
  unfold audit_log. destruct (audit _) as [fn|]; [|done]. intros _.
  induction atts as [|a atts IH]; cbn; [done|]. by f_equal.
Qed.

Lemma count_audit_log c atts : count is_sign (audit_log c atts) = 0.
Proof.
  unfold audit_log. destruct (audit _) as [fn|]; [|done]. by induction atts as [|a atts IH]; cbn.
Qed.

(** The attempts of the signers that are never asked. *)
Definition skips (c : chainSigner) (i n : nat) (reason : string) : list ChainAttempt :=
  (λ j, mkChainAttempt j (chain_address c) ChainSkipped reason None) <$> seq i n.

Section logs.
Context (c : chainSigner) (Hq : quiet_audit (chain_cfg c)).

Lemma logs_record atts i o reason err P :
  (let a := mkChainAttempt i (chain_address c) o reason err in
   P (Ok (atts ++ [a])) (audit_log c [a])) →
  logs (record c atts i o reason err) P.
Proof.
  unfold record, audit_log, quiet_audit in *. intros HP. cbn zeta in HP.
  set (att := mkChainAttempt _ _ _ _ _) in *.
  apply logs_bind. destruct (audit _) as [fn|] eqn:E; cycle 1.
  { by apply logs_ret, logs_ret. }
  apply logs_bind, logs_perform. apply logs_bind, logs_try, logs_quiet. intros w.
  specialize (Hq att w). destruct (fn att w) as [r w1]. exists r, w1. split; [done|]. split; [done|].
  by apply logs_ret, logs_ret.
Qed.

Lemma logs_skipLoop atts i n reason P :
  P (Ok (atts ++ skips c i n reason)) (audit_log c (skips c i n reason)) →
  logs (skipLoop c atts i n reason) P.
Proof.
  revert atts i P. induction n as [|n IH]; intros atts i P HP; cbn [skipLoop].
  - apply logs_ret. cbn in HP. rewrite app_nil_r in HP.
    unfold audit_log in HP. by destruct (audit _).
  - apply logs_bind, logs_record, IH. cbn. rewrite <-app_assoc.
    rewrite <-audit_log_app. exact HP.
Qed.

Lemma logs_skipFrom atts i reason P :
  (let s := skips c i (length (chain_signers c) - i) reason in
   P (Ok (atts ++ s)) (audit_log c s)) →
  logs (skipFrom c atts i reason) P.
Proof. intros HP. by apply logs_skipLoop. Qed.

Lemma logs_stop atts i reason cause P :
  (let s := skips c i (length (chain_signers c) - i) reason in
   P (Err (EChainError (atts ++ s) cause)) (audit_log c s)) →
  logs (stop c atts i reason cause) P.
Proof.
  intros HP. apply logs_bind, logs_skipFrom, logs_lift. cbn in *. by rewrite app_nil_r.
Qed.

Lemma logs_ctx_poll ctx P : (∀ t, P (Ok (ctx_Err ctx t)) []) → logs (ctx_poll ctx) P.
Proof. intros HP. apply logs_quiet. intros w. by exists (Ok (ctx_Err ctx (now w))), (tick w). Qed.

Lemma logs_answer s ctx pre payload P :
  silent s →
  (∀ r, (∃ w w', signer_Sign s ctx pre payload w = (r, w')) →
     P r [EvSign (signer_Address s) pre payload]) →
  logs (call_Sign s ctx pre payload) P.
Proof.
  intros Hs HP. apply logs_bind, logs_perform. intros w.
  destruct (signer_Sign s ctx pre payload w) as [r w'] eqn:E.
  exists r, w', []. split; [done|]. rewrite app_nil_r.
  split; [by rewrite <-(Hs ctx pre payload w), E|]. cbn. apply HP. by eexists _, _.
Qed.
End logs.

(** ** Fallback: the run of a chain as a story *)
Section fallback.
Context `{SDK} (c : chainSigner) (ctx : Ctx) (preimage : HashIdPreimage) (payload : bytes).

Definition answered (s : Signer) (r : result ScVal) : Prop :=
  ∃ w w', signer_Sign s ctx preimage payload w = (r, w').

Definition cancelled_with (e : error) : Prop := ∃ t, ctx_Err ctx t = Some e.

(** [story i ss atts k r]: from signer [i] on, of the signers [ss] the first
    [k] are asked, leaving the attempts [atts]; [r] is the answer or the cause
    of the failure. *)
Inductive story : nat → list Signer → list ChainAttempt → nat → result ScVal → Prop :=
| story_exhausted i cause : errors_Is cause ErrChainExhausted = true → story i [] [] 0 (Err cause)
| story_cancelled i ss reason p e :
    cancelled_with e → story i ss (skips c i (length ss) reason) 0 (Err (EWrap p e))
| story_answer i s ss why reason v :
    answered s (Ok v) →
    story i (s :: ss) (mkChainAttempt i (chain_address c) ChainSucceeded why None
                         :: skips c (S i) (length ss) reason) 1 (Ok v)
| story_stop i s ss why reason err cause :
    answered s (Err err) →
    (classify err = ChainTerminalFailure ∧ (∃ p, cause = EWrap p err)
     ∨ ∃ p e, cancelled_with e ∧ cause = EWrap p e) →
    story i (s :: ss) (mkChainAttempt i (chain_address c) ChainTerminalFailure why (Some err)
                         :: skips c (S i) (length ss) reason) 1 (Err cause)
| story_next i s ss why err atts k r :
    answered s (Err err) → classify err = ChainTransientFailure →
    story (S i) ss atts k r →
    story i (s :: ss) (mkChainAttempt i (chain_address c) ChainTransientFailure why (Some err)
                         :: atts) (S k) r.

Definition chain_result (atts : list ChainAttempt) (r : result ScVal) : result ScVal :=
  match r with Ok v => Ok v | Err cause => Err (EChainError atts cause) end.

(** What one call shows: the attempts [atts] after the [before] ones. *)
Definition shows_story (before : list ChainAttempt) (i : nat) (ss : list Signer)
    (r : result ScVal) (l : list Event) : Prop :=
  ∃ atts k r0, story i ss atts k r0 ∧ r = chain_result (before ++ atts) r0 ∧
    count is_sign l = k ∧ (audit (chain_cfg c) ≠ None → audits l = atts).

Lemma classify_cases err :
  classify err = ChainTerminalFailure ∨
  classify err = ChainTransientFailure ∧ errors_Is err ErrSignerTransient = true ∧
    errors_Is err ErrPolicyRefusal = false ∧ IsSignatureRejection (Some err) = false.
Proof.
  unfold classify. destruct (errors_Is err ErrPolicyRefusal); cbn [orb]; [auto|].
  destruct (IsSignatureRejection (Some err)); [auto|].
  destruct (errors_Is err ErrSignerTransient); auto.
Qed.

Context (Hq : quiet_audit (chain_cfg c)).

Lemma sign_audits s atts :
  count is_sign (EvSign s preimage payload :: audit_log c atts) = 1 ∧
  (audit (chain_cfg c) ≠ None →
   audits (EvSign s preimage payload :: audit_log c atts) = atts).
Proof.
  split; [|by apply audits_audit_log]. change (S (count is_sign (audit_log c atts)) = 1).
  by rewrite count_audit_log.
Qed.

Lemma signFallbackLoop_story ss before i :
  Forall silent ss → length (chain_signers c) = i + length ss →
  logs (signFallbackLoop ctx preimage payload c before i ss) (shows_story before i ss).
Proof.
  intros Hs. revert before i. induction Hs as [|s ss Hs _ IH]; intros before i Hlen;
    cbn [signFallbackLoop].
  { apply logs_lift. exists [], 0, (Err (EWrap ("soroauth: sign signer chain" +:+ ": " +:+
      pretty (length (chain_signers c)) +:+ " signers") (ESentinel ErrChainExhausted))).
    split; [by constructor|]. cbn. rewrite app_nil_r. done. }
  cbn [length] in Hlen.
  assert (Hrest : length (chain_signers c) - S i = length ss) by lia.
  apply logs_bind, logs_ctx_poll. intros t. destruct (ctx_Err ctx t) as [e|] eqn:Ht.
  { apply logs_stop; [done|]. cbn zeta. eexists _, 0, _.
    split; [by apply (story_cancelled _ (s :: ss)); exists t|].
    replace (length (s :: ss)) with (length (chain_signers c) - i) by (cbn; lia).
    split; [reflexivity|]. cbn [app]. rewrite count_audit_log.
    split; [done|apply audits_audit_log]. }
  clear t Ht. apply logs_bind, logs_try, logs_answer; [done|]. intros [v|err] Hans.
  { apply logs_bind, logs_record; [done|]. apply logs_bind, logs_skipFrom; [done|].
    apply logs_ret. cbn zeta. rewrite !Hrest, !app_nil_r.
    eexists _, 1, _. split; [by apply story_answer|]. split; [reflexivity|].
    rewrite <-audit_log_app. cbn [app]. apply sign_audits. }
  apply logs_bind, logs_ctx_poll. intros t. destruct (ctx_Err ctx t) as [e|] eqn:Ht.
  { apply logs_bind, logs_record; [done|]. apply logs_stop; [done|]. cbn zeta.
    rewrite !Hrest, <-!app_assoc.
    eexists _, 1, _. split; [apply story_stop; [done|right; eexists _, e; split; [by exists t|done]]|].
    split; [reflexivity|]. rewrite <-audit_log_app. cbn [app]. apply sign_audits. }
  destruct (classify_cases err) as [Hcl|(Hcl & Hx)]; rewrite Hcl; cbn [app].
  { apply logs_bind, logs_record; [done|]. apply logs_stop; [done|]. cbn zeta.
    rewrite !Hrest, <-!app_assoc.
    eexists _, 1, _. split; [apply story_stop; [done|left; split; [done|by eexists]]|].
    split; [reflexivity|]. rewrite <-audit_log_app. cbn [app]. apply sign_audits. }
  apply logs_bind, logs_record; [done|]. cbn zeta.
  eapply logs_weaken; [apply IH; lia|]. intros r l (atts & k & r0 & Hst & Hr & Hk & Ha).
  rewrite <-app_assoc in Hr. eexists _, (S k), r0. split; [by apply story_next|].
  split; [exact Hr|]. rewrite !app_comm_cons, count_app, audits_app, Hk.
  destruct (sign_audits (signer_Address s) [mkChainAttempt i (chain_address c)
    ChainTransientFailure "transient failure; trying the next signer" (Some err)]) as [-> H2].
  split; [done|]. intros Hc. by rewrite (H2 Hc), (Ha Hc).
Qed.
End fallback.

(** ** Quorum: the run of a quorum as a story *)
(** [qstory i ss n enc atts k r]: as [story], when [n] signers have answered so
    far, all with the encoding [enc]. *)
Section quorum.
Context `{SDK} (c : chainSigner) (ctx : Ctx) (preimage : HashIdPreimage) (payload : bytes).

Abbreviation answered := (answered ctx preimage payload).
Abbreviation attempt i := (mkChainAttempt i (chain_address c)).

Definition agrees (enc : option bytes) (b : bytes) : Prop := enc = None ∨ enc = Some b.

Inductive qstory : nat → list Signer → nat → option bytes → list ChainAttempt → nat →
    result ScVal → Prop :=
| qstory_unreachable i ss n enc reason cause :
    errors_Is cause ErrQuorumNotMet = true → n + length ss < chain_quorum c →
    qstory i ss n enc (skips c i (length ss) reason) 0 (Err cause)
| qstory_cancelled i ss n enc reason p e :
    cancelled_with ctx e → qstory i ss n enc (skips c i (length ss) reason) 0 (Err (EWrap p e))
| qstory_stop i s ss n enc why reason err cause :
    chain_quorum c <= n + length (s :: ss) →
    answered s (Err err) →
    (classify err = ChainTerminalFailure ∧ (∃ p, cause = EWrap p err)
     ∨ ∃ p e, cancelled_with ctx e ∧ cause = EWrap p e) →
    qstory i (s :: ss) n enc (attempt i ChainTerminalFailure why (Some err)
      :: skips c (S i) (length ss) reason) 1 (Err cause)
| qstory_unencodable i s ss n enc why reason v err p :
    chain_quorum c <= n + length (s :: ss) →
    answered s (Ok v) → MarshalBinary v = Err err →
    qstory i (s :: ss) n enc (attempt i ChainTerminalFailure why (Some err)
      :: skips c (S i) (length ss) reason) 1 (Err (EWrap p err))
| qstory_disagree i s ss n b why reason v b' cause :
    chain_quorum c <= n + length (s :: ss) →
    answered s (Ok v) → MarshalBinary v = Ok b' → b' ≠ b →
    errors_Is cause ErrQuorumDisagreement = true →
    qstory i (s :: ss) n (Some b) (attempt i ChainTerminalFailure why None
      :: skips c (S i) (length ss) reason) 1 (Err cause)
| qstory_reached i s ss n enc why reason v b :
    chain_quorum c <= n + length (s :: ss) →
    answered s (Ok v) → MarshalBinary v = Ok b → agrees enc b → S n = chain_quorum c →
    qstory i (s :: ss) n enc (attempt i ChainSucceeded why None
      :: skips c (S i) (length ss) reason) 1 (Ok v)
| qstory_agree i s ss n enc why v b atts k r :
    chain_quorum c <= n + length (s :: ss) →
    answered s (Ok v) → MarshalBinary v = Ok b → agrees enc b → S n ≠ chain_quorum c →
    qstory (S i) ss (S n) (Some b) atts k r →
    qstory i (s :: ss) n enc (attempt i ChainSucceeded why None :: atts) (S k) r
| qstory_next i s ss n enc why err atts k r :
    chain_quorum c <= n + length (s :: ss) →
    answered s (Err err) → classify err = ChainTransientFailure →
    qstory (S i) ss n enc atts k r →
    qstory i (s :: ss) n enc (attempt i ChainTransientFailure why (Some err) :: atts) (S k) r.

Definition shows_qstory (before : list ChainAttempt) (i : nat) (ss : list Signer) (n : nat)
    (enc : option bytes) (r : result ScVal) (l : list Event) : Prop :=
  ∃ atts k r0, qstory i ss n enc atts k r0 ∧ r = chain_result (before ++ atts) r0 ∧
    count is_sign l = k ∧ (audit (chain_cfg c) ≠ None → audits l = atts).

Context (Hq : quiet_audit (chain_cfg c)).

(** The end of a call: the signer's own attempt, the rest skipped. *)
Lemma shows_last before i s ss n enc a reason r0 r l :
  length (chain_signers c) = i + S (length ss) →
  qstory i (s :: ss) n enc (a :: skips c (S i) (length ss) reason) 1 r0 →
  r = chain_result ((before ++ [a]) ++ skips c (S i) (length (chain_signers c) - S i) reason) r0 →
  l = EvSign (signer_Address s) preimage payload :: audit_log c [a] ++
        audit_log c (skips c (S i) (length (chain_signers c) - S i) reason) →
  shows_qstory before i (s :: ss) n enc r l.
Proof.
  intros Hlen Hst -> ->. replace (length (chain_signers c) - S i) with (length ss) by lia.
  eexists _, 1, r0. split; [exact Hst|]. rewrite <-app_assoc, <-audit_log_app. split; [done|].
  apply (sign_audits c).
Qed.

(** A signer that lets the chain go on. *)
Lemma shows_more before i s ss n enc n' enc' a r l :
  (∀ atts k r0, qstory (S i) ss n' enc' atts k r0 → qstory i (s :: ss) n enc (a :: atts) (S k) r0) →
  shows_qstory (before ++ [a]) (S i) ss n' enc' r l →
  shows_qstory before i (s :: ss) n enc r
    (EvSign (signer_Address s) preimage payload :: audit_log c [a] ++ l).
Proof.
  intros Hstep (atts & k & r0 & Hst & -> & Hk & Ha). eexists _, (S k), r0.
  split; [by apply Hstep|]. rewrite <-app_assoc. split; [done|].
  rewrite !app_comm_cons, count_app, audits_app, Hk.
  destruct (sign_audits c preimage payload (signer_Address s) [a]) as [-> H2].
  split; [done|]. intros Hc. by rewrite (H2 Hc), (Ha Hc).
Qed.

Ltac last_attempt Hlen :=
  apply logs_bind, logs_record; [done|];
  first [apply logs_stop; [done|] | apply logs_bind, logs_skipFrom; [done|]; apply logs_ret];
  cbn zeta; rewrite ?app_nil_r;
  first [eapply (shows_last _ _ _ _ _ _ _ _ (Err _) _ _ Hlen); [|reflexivity|reflexivity]
        |eapply (shows_last _ _ _ _ _ _ _ _ (Ok _) _ _ Hlen); [|reflexivity|reflexivity]].

Lemma signQuorumLoop_story ss before enc by_ i :
  Forall silent ss → length (chain_signers c) = i + length ss →
  length by_ < chain_quorum c →
  logs (signQuorumLoop ctx preimage payload c before enc by_ i ss)
    (shows_qstory before i ss (length by_) enc).
Proof.
  intros Hs. revert before enc by_ i.
  induction Hs as [|s ss Hs _ IH]; intros before enc by_ i Hlen Hby; cbn [signQuorumLoop].
  { apply logs_lift. eexists [], 0, (Err (notMet c by_)).
    split; [apply (qstory_unreachable i [] _ _ "" (notMet c by_)); [done|cbn; lia]|].
    by rewrite app_nil_r. }
  cbn [length] in Hlen.
  assert (Hstop : ∀ reason cause,
    qstory i (s :: ss) (length by_) enc (skips c i (length (s :: ss)) reason) 0 (Err cause) →
    logs (stop c before i reason cause) (shows_qstory before i (s :: ss) (length by_) enc)).
  { intros reason cause Hst. apply logs_stop; [done|]. cbn zeta.
    replace (length (chain_signers c) - i) with (length (s :: ss)) by (cbn; lia).
    eexists _, 0, _. split; [exact Hst|]. split; [reflexivity|].
    rewrite count_audit_log. split; [done|apply audits_audit_log]. }
  apply logs_bind, logs_ctx_poll. intros t. destruct (ctx_Err ctx t) as [e|] eqn:Ht.
  { apply Hstop, qstory_cancelled. by exists t. }
  clear t Ht. destruct (Nat.ltb_spec (length by_ + (length (chain_signers c) - i)) (chain_quorum c)).
  { apply Hstop, qstory_unreachable; [done|cbn; lia]. }
  assert (Hcan : chain_quorum c <= length by_ + length (s :: ss)) by (cbn; lia).
  clear Hstop. apply logs_bind, logs_try, logs_answer; [done|]. intros [v|err] Hans; cbn [app].
  - destruct (MarshalBinary v) as [b|err] eqn:Hb; cycle 1.
    { last_attempt Hlen. by eapply qstory_unencodable. }
    destruct (match enc with Some b' => negb (bytes_Equal b b') | None => false end) eqn:Hd.
    { destruct enc as [b'|]; [|done]. apply negb_true_iff in Hd. last_attempt Hlen.
      eapply qstory_disagree; [done|done|done| |done]. intros ->.
      unfold bytes_Equal in Hd. by rewrite bool_decide_eq_true_2 in Hd. }
    assert (Hag : agrees enc b).
    { destruct enc as [b'|]; [right|by left]. apply negb_false_iff, bytes_Equal_spec in Hd.
      by subst. }
    rewrite length_app. cbn [length]. rewrite Nat.add_1_r.
    destruct (Nat.eqb_spec (S (length by_)) (chain_quorum c)) as [Hn|Hn].
    { last_attempt Hlen. by eapply qstory_reached. }
    apply logs_bind, logs_record; [done|]. cbn zeta.
    eapply logs_weaken; [apply IH; rewrite ?length_app; cbn; lia|]. intros r l Hst.
    eapply shows_more; [|exact Hst]. intros. rewrite length_app, Nat.add_1_r in *.
    by eapply qstory_agree.
  - apply logs_bind, logs_ctx_poll. intros t. destruct (ctx_Err ctx t) as [e|] eqn:Ht.
    { last_attempt Hlen. eapply qstory_stop; [done|done|].
      right. eexists _, e. split; [by exists t|done]. }
    destruct (classify_cases err) as [Hcl|(Hcl & _)]; rewrite Hcl; cbn [app].
    { last_attempt Hlen. eapply qstory_stop; [done|done|]. left. split; [done|by eexists]. }
    apply logs_bind, logs_record; [done|]. cbn zeta.
    eapply logs_weaken; [apply IH; lia|]. intros r l Hst.
    eapply shows_more; [|exact Hst]. intros. by eapply qstory_next.
Qed.
End quorum.

(** ** Construction *)
Lemma sameAddress_Ok i address signers address' ss :
  sameAddress i address signers = Ok (address', ss) →
  signers = Some <$> ss ∧ (i ≠ 0 → address' = address) ∧
  Forall (λ s, signer_Address s = address' ∧ address' ≠ "") ss.
Proof.
  revert i address address' ss.
  induction signers as [|[s|] rest IH]; intros i address address' ss; cbn; [|..|done].
  { intros [= <- <-]. repeat constructor. }
  intros Hs. inv_ok. destruct x1 as [a' ss']. inv_ok. apply IH in Hx1 as (-> & Ha & Hf).
  apply bool_decide_eq_false in Hx.
  specialize (Ha ltac:(done)). subst a'.
  subst address' ss. destruct (Nat.eqb_spec i 0) as [->|Hi]; cbn in Hx0.
  - split; [done|]. split; [done|]. by constructor.
  - apply negb_false_iff, bool_decide_eq_true in Hx0. subst address.
    split; [done|]. split; [done|]. by constructor.
Qed.

Lemma newChain_Ok q signers opts c :
  newChain q signers opts = Ok c →
  signers = Some <$> chain_signers c ∧ chain_signers c ≠ [] ∧ chain_quorum c = q ∧
  chain_cfg c = chainOptions opts ∧
  Forall (λ s, signer_Address s = chain_address c ∧ chain_address c ≠ "") (chain_signers c).
Proof.
  unfold newChain. intros Hc. inv_ok. destruct x0 as [a ss]. inv_ok. cbn.
  apply sameAddress_Ok in Hx0 as (-> & _ & Hf).
  rewrite length_fmap in Hx. by destruct ss.
Qed.

(** ** What the record of a call says *)
(** One attempt per signer, in order; the first [k] were asked, the rest
    skipped. *)
Definition one_each (address : string) (i n k : nat) (atts : list ChainAttempt) : Prop :=
  Attempt_Index <$> atts = seq i n ∧ k <= n ∧
  Forall (λ a, Attempt_Address a = address) atts ∧
  ∀ j a, atts !! j = Some a → Attempt_Outcome a = ChainSkipped ↔ k <= j.

Lemma one_each_length addr i n k atts : one_each addr i n k atts → length atts = n.
Proof. intros (Hi & _). by rewrite <-(length_fmap Attempt_Index), Hi, length_seq. Qed.

Lemma one_each_skips c i n reason : one_each (chain_address c) i n 0 (skips c i n reason).
Proof.
  unfold one_each, skips. split; [|split; [lia|split]].
  - rewrite <-list_fmap_compose. apply list_fmap_id.
  - apply Forall_fmap, Forall_true. done.
  - intros j a (x & -> & _)%list_lookup_fmap_Some. cbn. split; [lia|done].
Qed.

Lemma one_each_cons c i n k o why err atts :
  o ≠ ChainSkipped → one_each (chain_address c) (S i) n k atts →
  one_each (chain_address c) i (S n) (S k) (mkChainAttempt i (chain_address c) o why err :: atts).
Proof.
  intros Ho (Hi & Hk & Ha & Hs). split; [cbn; by rewrite Hi|]. split; [lia|].
  split; [by constructor|]. intros [|j] a Hj; cbn in Hj.
  - simplify_eq. cbn. split; [done|lia].
  - rewrite (Hs _ _ Hj). lia.
Qed.

(** An attempt that lets a chain ask on: a transient failure that is no
    refusal. *)
Definition passed (a : ChainAttempt) : Prop :=
  Attempt_Outcome a = ChainTransientFailure ∧
  ∃ err, Attempt_Err a = Some err ∧ errors_Is err ErrSignerTransient = true ∧
    errors_Is err ErrPolicyRefusal = false ∧ IsSignatureRejection (Some err) = false.

Definition succeeded (atts : list ChainAttempt) : list ChainAttempt :=
  filter (λ a, Attempt_Outcome a = ChainSucceeded) atts.

Lemma succeeded_cons a atts :
  succeeded (a :: atts) =
  if decide (Attempt_Outcome a = ChainSucceeded) then a :: succeeded atts else succeeded atts.
Proof. reflexivity. Qed.

Lemma succeeded_skips c i n reason : succeeded (skips c i n reason) = [].
Proof.
  unfold skips. revert i. induction n as [|n IH]; intros i; [done|].
  cbn [seq fmap list_fmap]. rewrite succeeded_cons, decide_False by done. apply IH.
Qed.
#[local] Arguments succeeded : simpl never.

Section records.
Context `{SDK} (c : chainSigner) (ctx : Ctx) (preimage : HashIdPreimage) (payload : bytes).
Abbreviation answered := (answered ctx preimage payload).

Lemma classify_transient a err i why :
  classify err = ChainTransientFailure →
  a = mkChainAttempt i (chain_address c) ChainTransientFailure why (Some err) → passed a.
Proof.
  intros Hc ->. split; [done|]. exists err. split; [done|].
  destruct (classify_cases err) as [?|(_ & ?)]; [congruence|done].
Qed.

(** Why a fallback ends without an answer. *)
Definition fallback_failure (atts : list ChainAttempt) (k : nat) (cause : error) : Prop :=
  (errors_Is cause ErrChainExhausted = true ∧ k = length atts ∧ Forall passed atts) ∨
  (∃ p e, cancelled_with ctx e ∧ cause = EWrap p e) ∨
  (∃ p a err, 0 < k ∧ atts !! (k - 1) = Some a ∧ Attempt_Err a = Some err ∧
     classify err = ChainTerminalFailure ∧ cause = EWrap p err).

Lemma story_record i ss atts k r :
  story c ctx preimage payload i ss atts k r →
  one_each (chain_address c) i (length ss) k atts ∧
  (∀ j a, atts !! j = Some a → S j < k → passed a) ∧
  match r with
  | Ok v => ∃ s a, 0 < k ∧ ss !! (k - 1) = Some s ∧ answered s (Ok v) ∧
      atts !! (k - 1) = Some a ∧ succeeded atts = [a]
  | Err cause => succeeded atts = [] ∧ fallback_failure atts k cause
  end.
Proof.
  induction 1 as [i cause Hc|i ss reason p e He|i s ss why reason v Hv|i s ss why reason err cause
    Herr Hcl|i s ss why err atts k r Herr Hcl Hst (IH1 & IH2 & IH3)].
  - split; [apply (one_each_skips c i 0 "")|]. split; [by intros ? ? ?|]. split; [done|].
    left. by repeat constructor.
  - split; [apply one_each_skips|]. split; [lia|]. split; [apply succeeded_skips|].
    right; left. by exists p, e.
  - split; [by apply one_each_cons, one_each_skips|]. split; [lia|]. eexists s, _. cbn.
    split; [lia|]. do 2 (split; [done|]). split; [done|].
    rewrite succeeded_cons, decide_True by done. f_equal. apply succeeded_skips.
  - split; [by apply one_each_cons, one_each_skips|]. split; [lia|].
    split; [rewrite succeeded_cons, decide_False by done; apply succeeded_skips|].
    right. destruct Hcl as [[Hcl [p ->]]|?]; [right|by left]. eexists p, _, err. cbn.
    repeat split; try done. lia.
  - split; [by apply one_each_cons|]. split.
    { intros [|j] a Hj Hk; cbn in Hj; [|apply (IH2 _ _ Hj); lia].
      simplify_eq. by eapply classify_transient. }
    destruct r as [v|cause]; rewrite succeeded_cons, decide_False by done.
    + destruct IH3 as (s' & a & Hk & Hs & Hans & Ha & Hsucc). exists s', a.
      replace (S k - 1) with (S (k - 1)) by lia. repeat split; try done. lia.
    + destruct IH3 as [Hs Hf]. split; [done|]. destruct Hf as [(H1 & -> & H2)|[Hf|Hf]].
      * left. repeat split; try done. constructor; [by eapply classify_transient|done].
      * by right; left.
      * right; right. destruct Hf as (p & a & e & Hk & Ha & He & Hcl' & ->).
        exists p, a, e. replace (S k - 1) with (S (k - 1)) by lia. repeat split; try done. lia.
Qed.
End records.

Section quorum_record.
Context `{SDK} (ctx : Ctx) (preimage : HashIdPreimage) (payload : bytes).
Abbreviation answered := (answered ctx preimage payload).

(** *** The rule of a quorum, on the signers' answers alone *)
(** The answer is a signature whose encoding is [b]. *)
Definition vote (b : bytes) (r : result ScVal) : bool :=
  match r with
  | Ok v => match MarshalBinary v with Ok b' => bool_decide (b' = b) | Err _ => false end
  | Err _ => false
  end.

Definition votes (b : bytes) (rs : list (result ScVal)) : nat := length (List.filter (vote b) rs).

Lemma votes_app b rs rs' : votes b (rs ++ rs') = votes b rs + votes b rs'.
Proof. unfold votes. by rewrite List.filter_app, length_app. Qed.

(** Marked transient, and neither a refusal nor a rejection. *)
Definition retriable (err : error) : Prop :=
  errors_Is err ErrSignerTransient = true ∧ errors_Is err ErrPolicyRefusal = false ∧
  IsSignatureRejection (Some err) = false.

(** An answer after which a quorum on [b] asks on. *)
Definition tolerated (b : bytes) (r : result ScVal) : Prop :=
  vote b r = true ∨ ∃ err, r = Err err ∧ retriable err.

(** [quorum_outcome q n b asked r]: of [n] signers those that were asked gave
    the answers [asked], in order, and a quorum of [q] ends with [r]: the
    answer, or the cause of the failure. *)
Inductive quorum_outcome (q n : nat) (b : bytes) : list (result ScVal) → result ScVal → Prop :=
| outcome_agreed before v :
    Forall (tolerated b) before → MarshalBinary v = Ok b → S (votes b before) = q →
    quorum_outcome q n b (before ++ [Ok v]) (Ok v)
| outcome_unreachable asked cause :
    Forall (tolerated b) asked → votes b asked + (n - length asked) < q →
    errors_Is cause ErrQuorumNotMet = true →
    quorum_outcome q n b asked (Err cause)
| outcome_cancelled asked p e :
    Forall (tolerated b) asked → votes b asked < q → cancelled_with ctx e →
    quorum_outcome q n b asked (Err (EWrap p e))
| outcome_cancelled_signing before err p e :
    Forall (tolerated b) before → votes b before < q → cancelled_with ctx e →
    quorum_outcome q n b (before ++ [Err err]) (Err (EWrap p e))
| outcome_terminal before err p :
    Forall (tolerated b) before → votes b before < q → ¬ retriable err →
    quorum_outcome q n b (before ++ [Err err]) (Err (EWrap p err))
| outcome_unencodable before v err p :
    Forall (tolerated b) before → votes b before < q → MarshalBinary v = Err err →
    quorum_outcome q n b (before ++ [Ok v]) (Err (EWrap p err))
| outcome_disagreement before v b' cause :
    Forall (tolerated b) before → votes b before < q → 0 < votes b before →
    MarshalBinary v = Ok b' → b' ≠ b → errors_Is cause ErrQuorumDisagreement = true →
    quorum_outcome q n b (before ++ [Ok v]) (Err cause).

(** What the record says of a signer that was asked is what it answered. *)
Definition labels (b : bytes) (a : ChainAttempt) (r : result ScVal) : Prop :=
  match Attempt_Outcome a with
  | ChainSucceeded => vote b r = true
  | ChainTransientFailure => ∃ err, r = Err err ∧ Attempt_Err a = Some err ∧ retriable err
  | ChainTerminalFailure => vote b r = false ∧ ∀ err, r = Err err → Attempt_Err a = Some err
  | ChainSkipped => False
  end.

Lemma classify_retriable err : classify err = ChainTransientFailure ↔ retriable err.
Proof.
  unfold classify, retriable. destruct (errors_Is err ErrPolicyRefusal); cbn [orb]; [naive_solver|].
  destruct (IsSignatureRejection (Some err)); [naive_solver|].
  destruct (errors_Is err ErrSignerTransient); naive_solver.
Qed.

Lemma classify_terminal err : classify err = ChainTerminalFailure → ¬ retriable err.
Proof. intros Hc Hr%classify_retriable. congruence. Qed.

Lemma vote_Ok b v b' : MarshalBinary v = Ok b' → vote b (Ok v) = bool_decide (b' = b).
Proof. intros Hb. cbn. by rewrite Hb. Qed.

(** *** The state of the loop, told by the answers so far *)
Definition heard (before : list (result ScVal)) (n : nat) (enc : option bytes) : Prop :=
  (∀ b, agrees enc b → Forall (tolerated b) before ∧ votes b before = n) ∧ (is_Some enc → 0 < n).

Lemma heard_vote before n enc v b :
  heard before n enc → MarshalBinary v = Ok b → agrees enc b →
  heard (before ++ [Ok v]) (S n) (Some b).
Proof.
  intros [Hh _] Hb Hag. split; [|lia]. intros b' [|[= <-]]; [done|].
  destruct (Hh b Hag) as [Hf Hn]. rewrite votes_app, Hn.
  assert (Hv : vote b (Ok v) = true) by (rewrite (vote_Ok _ _ _ Hb); by apply bool_decide_eq_true).
  split; [apply Forall_app; split; [done|]; apply Forall_singleton; by left|].
  unfold votes. cbn [List.filter]. rewrite Hv. cbn. lia.
Qed.

Lemma heard_transient before n enc err :
  heard before n enc → classify err = ChainTransientFailure → heard (before ++ [Err err]) n enc.
Proof.
  intros [Hh Hp] Hc%classify_retriable. split; [|done]. intros b Hag.
  destruct (Hh b Hag) as [Hf Hn]. rewrite votes_app, Hn. cbn.
  split; [|lia]. apply Forall_app. split; [done|]. apply Forall_singleton. right. by exists err.
Qed.

(** The last answer, and an answer with more to come. *)
Lemma answers_last before n enc b q i s ss a atts x r :
  heard before n enc → agrees enc b → q <= n + length (s :: ss) →
  answered s x → labels b a x → quorum_outcome q i b (before ++ [x]) r →
  ∃ rs b, length rs = 1 ∧ agrees enc b ∧ Forall2 answered (take 1 (s :: ss)) rs ∧
    Forall2 (labels b) (take 1 (a :: atts)) rs ∧
    (∀ j, j < 1 → q <= votes b (before ++ take j rs) + (length (s :: ss) - j)) ∧
    quorum_outcome q i b (before ++ rs) r.
Proof.
  intros [Hh _] Hag Hcan Hx Hl Ho. exists [x], b. split; [done|]. split; [done|].
  split; [cbn; by constructor|]. split; [cbn; by constructor|]. split; [|done].
  intros j Hj. replace j with 0 by lia. cbn [take]. rewrite app_nil_r.
  destruct (Hh b Hag) as [_ ->]. lia.
Qed.

Lemma answers_more before n enc enc' q s ss a atts x r k :
  heard before n enc → (∀ b, agrees enc' b → agrees enc b ∧ labels b a x) →
  q <= n + length (s :: ss) → answered s x →
  (∃ rs b, length rs = k ∧ agrees enc' b ∧ Forall2 answered (take k ss) rs ∧
    Forall2 (labels b) (take k atts) rs ∧
    (∀ j, j < k → q <= votes b ((before ++ [x]) ++ take j rs) + (length ss - j)) ∧
    quorum_outcome q (length (before ++ [x]) + length ss) b ((before ++ [x]) ++ rs) r) →
  ∃ rs b, length rs = S k ∧ agrees enc b ∧ Forall2 answered (take (S k) (s :: ss)) rs ∧
    Forall2 (labels b) (take (S k) (a :: atts)) rs ∧
    (∀ j, j < S k → q <= votes b (before ++ take j rs) + (length (s :: ss) - j)) ∧
    quorum_outcome q (length before + length (s :: ss)) b (before ++ rs) r.
Proof.
  intros [Hh _] Hag Hcan Hx (rs & b & <- & Hb & Hans & Hlab & Hreach & Ho).
  destruct (Hag b Hb) as [Hb' Hl]. exists (x :: rs), b. split; [done|]. split; [done|].
  split; [cbn; by constructor|]. split; [cbn; by constructor|]. split.
  - intros [|j] Hj; cbn [take].
    + rewrite app_nil_r. destruct (Hh b Hb') as [_ ->]. lia.
    + specialize (Hreach j ltac:(lia)). rewrite <-app_assoc in Hreach. exact Hreach.
  - rewrite <-app_assoc, length_app in Ho. cbn [length app] in *.
    by replace (length before + S (length ss)) with (length before + 1 + length ss) by lia.
Qed.

Lemma qstory_answers c i ss n enc atts k r :
  qstory c ctx preimage payload i ss n enc atts k r →
  ∀ before, heard before n enc → n < chain_quorum c →
  ∃ rs b, length rs = k ∧ agrees enc b ∧ Forall2 answered (take k ss) rs ∧
    Forall2 (labels b) (take k atts) rs ∧
    (∀ j, j < k → chain_quorum c <= votes b (before ++ take j rs) + (length ss - j)) ∧
    quorum_outcome (chain_quorum c) (length before + length ss) b (before ++ rs) r.
Proof.
  assert (Hex : ∀ enc, ∃ b, agrees enc b) by (intros [b|]; [exists b; by right|exists []; by left]).
  induction 1 as [i ss n enc reason cause Hc Hl|i ss n enc reason p e He
    |i s ss n enc why reason err cause Hcan Herr Hcl|i s ss n enc why reason v err p Hcan Hv Hb
    |i s ss n b why reason v b' cause Hcan Hv Hb Hne Hc
    |i s ss n enc why reason v b Hcan Hv Hb Hag Hn
    |i s ss n enc why v b atts k r Hcan Hv Hb Hag Hn Hst IH
    |i s ss n enc why err atts k r Hcan Herr Hcl Hst IH]; intros before Hheard Hlt.
  1-2: destruct (Hex enc) as [b Hag], Hheard as [Hh _], (Hh b Hag) as [Hf Hn];
    exists [], b; rewrite app_nil_r; repeat (split; [done || constructor || (intros; lia)|]).
  - apply outcome_unreachable; [done|lia|done].
  - by apply outcome_cancelled; [|lia|].
  - destruct (Hex enc) as [b Hag], (proj1 Hheard b Hag) as [Hf Hn].
    eapply (answers_last _ _ _ b); [done..| |].
    { split; [done|]. by intros ? [= <-]. }
    destruct Hcl as [[Hcl [p ->]]|(p & e & He & ->)].
    + apply outcome_terminal; [done|lia|by apply classify_terminal].
    + by apply outcome_cancelled_signing; [|lia|].
  - destruct (Hex enc) as [b Hag], (proj1 Hheard b Hag) as [Hf Hn].
    eapply (answers_last _ _ _ b); [done..| |].
    { cbn. rewrite Hb. done. }
    by apply outcome_unencodable; [|lia|].
  - destruct (proj1 Hheard b (or_intror eq_refl)) as [Hf Hn].
    pose proof (proj2 Hheard (ex_intro _ b eq_refl)) as Hpos.
    eapply (answers_last _ _ _ b); [done|by right|done..| |].
    { split; [|done]. rewrite (vote_Ok _ _ _ Hb). by apply bool_decide_eq_false. }
    by eapply outcome_disagreement; [|lia|lia|..].
  - destruct (proj1 Hheard b Hag) as [Hf Hvotes].
    eapply (answers_last _ _ _ b); [done..| |].
    { cbn. rewrite Hb. by apply bool_decide_eq_true. }
    by apply outcome_agreed; [| |lia].
  - eapply (answers_more _ _ _ (Some b)); [done| |done..|].
    { intros b' [|[= <-]]; [done|]. split; [done|]. cbn. rewrite Hb. by apply bool_decide_eq_true. }
    apply IH; [by eapply heard_vote|lia].
  - eapply (answers_more _ _ _ enc); [done| |done..|].
    { intros b' Hag. split; [done|]. exists err. split; [done|]. split; [done|].
      by apply classify_retriable. }
    apply IH; [by eapply heard_transient|lia].
Qed.

Lemma qstory_one_each c i ss n enc atts k r :
  qstory c ctx preimage payload i ss n enc atts k r →
  one_each (chain_address c) i (length ss) k atts.
Proof. induction 1; first [apply one_each_skips | by repeat first [apply one_each_cons | apply one_each_skips]]. Qed.
End quorum_record.

(** ** Theorems *)
Section chain_theorems.
Context `{SDK}.

Lemma silent_signers signers ss :
  signers = Some <$> ss → Forall silent (omap id signers) → Forall silent ss.
Proof. intros ->. enough (omap id (Some <$> ss) = ss) as -> by done. by induction ss; cbn; f_equal. Qed.

(** A fallback never routes a refusal around: each call records one attempt
    per signer, in order, and asks a prefix of them; every signer asked before
    the last one failed with an error marked transient that is neither a policy
    refusal nor a rejection; the answer is the last asked signer's, and a
    failure carries the record and either reports every signer exhausted, or the
    context's error, or the error that stopped the chain. *)
Theorem FallbackSigner_record signers opts s ctx pre payload w r w' :
  NewFallbackSigner signers opts = Ok s →
  Forall silent (omap id signers) → quiet_audit (chainOptions opts) →
  signer_Sign s ctx pre payload w = (r, w') →
  ∃ atts l k, log w' = log w ++ l ∧ count is_sign l = k ∧
    (audit (chainOptions opts) ≠ None → audits l = atts) ∧
    one_each (signer_Address s) 0 (length signers) k atts ∧
    (∀ j a, atts !! j = Some a → S j < k → passed a) ∧
    match r with
    | Ok v => ∃ t a, 0 < k ∧ signers !! (k - 1) = Some (Some t) ∧
        answered ctx pre payload t (Ok v) ∧ atts !! (k - 1) = Some a ∧ succeeded atts = [a]
    | Err e => ∃ cause, e = EChainError atts cause ∧ succeeded atts = [] ∧
        fallback_failure ctx atts k cause
    end.
Proof.
  intros (c & Hc & ->)%fmap_Ok Hs Hq. apply newChain_Ok in Hc as (Hss & _ & Hn & Hcfg & _).
  cbn [signer_Sign signer_Address chainAsSigner]. unfold chain_Sign. rewrite Hn. cbn [Nat.ltb Nat.leb].
  rewrite <-Hcfg in Hq |- *. pose proof (silent_signers _ _ Hss Hs) as Hsil.
  intros Hr. destruct (logs_run _ _ _ _ _
    (signFallbackLoop_story c ctx pre payload Hq _ [] 0 Hsil eq_refl) Hr)
    as (l & Hl & atts & k & r0 & Hst & -> & Hk & Ha).
  apply story_record in Hst as (H1 & H2 & H3). exists atts, l, k.
  do 3 (split; [done|]). rewrite Hss, length_fmap. do 2 (split; [done|]). destruct r0 as [v|cause].
  - destruct H3 as (t & a & Hpos & Ht & H3). exists t, a. split; [done|].
    rewrite list_lookup_fmap, Ht. done.
  - cbn. by exists cause.
Qed.

End chain_theorems.

(** ** The theorems at concrete chains *)
Definition ex_fails (e : error) : Signer := mkSigner (ex_text "a") (λ _ _ _, lift (Err e)) None.

Definition ex_chain_signers : list (option Signer) :=
  [Some (ex_fails (ETransient (EText "timeout")));
   Some (ex_fails (ETransient (EWrap "kms" (ESentinel ErrPolicyRefusal))));
   Some (ex_signer "a")].

Definition ex_audit : list (option ChainOption) := [Some (WithChainAudit (Some (λ _, mret tt)))].

Definition ex_chain_preimage : HashIdPreimage := mkHashIdPreimage 0 None None.

Definition run_signer (s : result Signer) : result ScVal * World :=
  match s with
  | Ok s => signer_Sign s Background ex_chain_preimage [] initial_world
  | Err e => (Err e, initial_world)
  end.

(** The second signer's refusal is final although it is marked transient, and
    the third signer is not asked. *)
Example ex_refused :
  match run_signer (NewFallbackSigner ex_chain_signers ex_audit) with
  | (Err (EChainError atts _ as e), _) =>
      errors_Is e ErrPolicyRefusal = true ∧
      Attempt_Outcome <$> atts = [ChainTransientFailure; ChainTerminalFailure; ChainSkipped]
  | _ => False
  end.
Proof. split; vm_compute; reflexivity. Qed.

Lemma ex_chain_silent : Forall silent (omap id ex_chain_signers).
Proof. repeat constructor. Qed.

Lemma FallbackSigner_record_witness : ∃ s r w' atts l k,
  NewFallbackSigner ex_chain_signers ex_audit = Ok s ∧
  signer_Sign s Background ex_chain_preimage [] initial_world = (r, w') ∧
  log w' = log initial_world ++ l ∧ count is_sign l = k ∧ audits l = atts ∧
  one_each (signer_Address s) 0 3 k atts ∧ (∀ j a, atts !! j = Some a → S j < k → passed a).
Proof.
  destruct (NewFallbackSigner ex_chain_signers ex_audit) as [s|e] eqn:E;
    [|exfalso; revert E; vm_compute; discriminate].
  destruct (signer_Sign s Background ex_chain_preimage [] initial_world) as [r w'] eqn:Er.
  destruct (FallbackSigner_record ex_chain_signers ex_audit s Background ex_chain_preimage [] initial_world r w'
    E ex_chain_silent (λ _ _, eq_refl) Er) as (atts & l & k & Hl & Hk & Ha & H1 & H2 & _).
  exists s, r, w', atts, l, k. repeat (split; [done|]). split; [by apply Ha|]. by split.
Defined.

(** Two of three: the first fails transiently, the other two agree. *)
Definition ex_quorum_signers : list (option Signer) :=
  [Some (ex_fails (ETransient (EText "timeout"))); Some (ex_signer "a"); Some (ex_signer "a")].

Example ex_quorum : ∃ v w', run_signer (NewQuorumSigner 2 ex_quorum_signers []) = (Ok v, w').
Proof. do 2 eexists. vm_compute. reflexivity. Qed.

(** Signers that disagree are refused, even when a majority agrees. *)
Example ex_disagreement :
  match (run_signer (NewQuorumSigner 2
    [Some (ex_signer "a"); Some (mkSigner (ex_text "a") (λ _ _ _, mret ScvVoid) None);
     Some (ex_signer "a")] [])).1 with
  | Err e => errors_Is e ErrQuorumDisagreement = true
  | Ok _ => False
  end.
Proof. vm_compute. reflexivity. Qed.

