(* ===== verification/Limits.v ===== *)
(** * Limits: bounds on untrusted input (decode.go) and on ledger numbers
    (expiration.go)

    The decoder itself is the SDK's; what is modelled is the validation of the
    options, the size check before any decoding, the depth handed to the
    decoder and the classification of its refusal. *)
From Stdlib Require Import ZArith Lia String.
From stdpp Require Import base list strings pretty.
From S2P Require Import Prelude Errors Xdr ModelSDK Runtime Examples.

Open Scope string_scope. Open Scope nat_scope. Open Scope list_scope.

(** ** decode.go *)
Definition MaxDecodeDepth : Z := 64.
Definition MaxDecodeInputBytes : Z := Z.shiftl 1 20.

Record LimitOptions := mkLimitOptions {
  Options_MaxDecodeDepth : option Z;
  Options_MaxDecodeInputBytes : option Z
}.

Definition stricterThanDefault (kind : string) (v : Z) : bool :=
  if decide (kind = "MaxDecodeDepth") then (v >? 64)%Z
  else if decide (kind = "MaxDecodeInputBytes") then (v >? Z.shiftl 1 20)%Z
  else false.

Definition validateLimitOptions (opts : LimitOptions) : result unit :=
  _ ← match Options_MaxDecodeDepth opts with
      | Some d => refuse (stricterThanDefault "MaxDecodeDepth" d)
          (EText ("soroauth: decode limit: MaxDecodeDepth " +:+ pretty d +:+
            " is above the default floor of 64, which would loosen the bound"))
      | None => Ok tt
      end;
  match Options_MaxDecodeInputBytes opts with
  | Some n => refuse (stricterThanDefault "MaxDecodeInputBytes" n)
      (EText ("soroauth: decode limit: MaxDecodeInputBytes " +:+ pretty n +:+
        " is above the default floor of 1048576, which would loosen the bound"))
  | None => Ok tt
  end.

(** [base64.StdEncoding.EncodedLen] *)
Definition base64_EncodedLen (n : Z) : Z := ((n + 2) / 3 * 4)%Z.

Definition checkTraversalDepth (depth : Z) : result unit :=
  if (depth >? MaxDecodeDepth)%Z
  then Err (EWrap "nesting exceeds the 64-level limit" (ESentinel ErrDecodeLimit))
  else Ok tt.

(** The body [DecodeAuthorizationEntry] and [DecodeTransactionEnvelope] share,
    over the SDK's [SafeUnmarshalBase64WithOptions] at the decoded type. *)
Section decode.
Context {T : Type} (operation : string).
Context (SafeUnmarshalBase64WithOptions : string → Z → result T).

Definition effectiveMaxDepth (opts : list LimitOptions) : Z :=
  match opts with
  | o :: _ => default MaxDecodeDepth (Options_MaxDecodeDepth o)
  | [] => MaxDecodeDepth
  end.

Definition effectiveMaxInput (opts : list LimitOptions) : Z :=
  match opts with
  | o :: _ => default MaxDecodeInputBytes (Options_MaxDecodeInputBytes o)
  | [] => MaxDecodeInputBytes
  end.

Definition decodeLimited (encoded : string) (opts : list LimitOptions) : result T :=
  _ ← refuse (bool_decide (encoded = "")) (EText (operation +:+ ": input is empty"));
  _ ← match opts with
      | o :: _ => wrap operation (validateLimitOptions o)
      | [] => Ok tt
      end;
  _ ← refuse (Z.of_nat (String.length encoded)
                >? base64_EncodedLen (effectiveMaxInput opts))%Z
        (EWrap (operation +:+ ": " +:+ pretty (String.length encoded) +:+
          " base64 bytes exceeds the " +:+ pretty (effectiveMaxInput opts) +:+
          "-byte decoded limit") (ESentinel ErrDecodeLimit));
  match SafeUnmarshalBase64WithOptions encoded (effectiveMaxDepth opts) with
  | Ok v => Ok v
  | Err e =>
      if errors_Is e ErrMaxDecodingDepthReached
      then Err (EWrap (operation +:+ ": nesting exceeds the " +:+
             pretty (effectiveMaxDepth opts) +:+ "-level limit") (ESentinel ErrDecodeLimit))
      else Err (EWrap operation e)
  end.
End decode.

Definition DecodeAuthorizationEntry
    (SafeUnmarshalBase64WithOptions : string → Z → result SorobanAuthorizationEntry)
    (encoded : string) (opts : list LimitOptions) : result SorobanAuthorizationEntry :=
  decodeLimited "soroauth: decode authorization entry" SafeUnmarshalBase64WithOptions
    encoded opts.

(** The envelope decoder is the same code at the envelope type, which the
    SDK defines. *)
Definition DecodeTransactionEnvelope {TransactionEnvelope : Type}
    (SafeUnmarshalBase64WithOptions : string → Z → result TransactionEnvelope)
    (encoded : string) (opts : list LimitOptions) : result TransactionEnvelope :=
  decodeLimited "soroauth: decode transaction envelope" SafeUnmarshalBase64WithOptions
    encoded opts.

(** ** expiration.go *)
Definition ExpirationAfter (latestLedger ledgers : Z) : result Z :=
  if (ledgers =? 0)%Z
  then Err (EWrap "soroauth: expiration after: ledgers must be at least 1"
              (ESentinel ErrInvalidExpiration))
  else if (latestLedger >? wrap_u32 (MaxUint32 - ledgers))%Z
  then Err (EWrap ("soroauth: expiration after: " +:+ pretty latestLedger +:+ " + " +:+
              pretty ledgers +:+ " overflows a ledger sequence")
              (ESentinel ErrInvalidExpiration))
  else Ok (wrap_u32 (latestLedger + ledgers)).

(** ** Lemmas *)
Lemma checkTraversalDepth_Ok d u : checkTraversalDepth d = Ok u ↔ (d <= 64)%Z.
Proof.
  unfold checkTraversalDepth, MaxDecodeDepth. destruct u.
  destruct (Z.gtb_spec d 64); split; try done; lia.
Qed.

Lemma checkTraversalDepth_Err d e :
  checkTraversalDepth d = Err e → (64 < d)%Z ∧ errors_Is e ErrDecodeLimit = true.
Proof.
  unfold checkTraversalDepth, MaxDecodeDepth.
  destruct (Z.gtb_spec d 64); intros [= <-]. done.
Qed.

Lemma stricterThanDefault_depth v : stricterThanDefault "MaxDecodeDepth" v = (v >? 64)%Z.
Proof. reflexivity. Qed.
Lemma stricterThanDefault_input v :
  stricterThanDefault "MaxDecodeInputBytes" v = (v >? MaxDecodeInputBytes)%Z.
Proof. reflexivity. Qed.

Lemma validateLimitOptions_Ok o u :
  validateLimitOptions o = Ok u →
  (default MaxDecodeDepth (Options_MaxDecodeDepth o) <= 64)%Z ∧
  (default MaxDecodeInputBytes (Options_MaxDecodeInputBytes o) <= MaxDecodeInputBytes)%Z.
Proof.
  destruct o as [d n]. unfold validateLimitOptions. cbn -[stricterThanDefault].
  intros H. inv_ok. split.
  - destruct d as [d|]; cbn -[stricterThanDefault] in *; [|unfold MaxDecodeDepth; lia].
    inv_ok. rewrite stricterThanDefault_depth in Hx. lia.
  - destruct n as [n|]; cbn -[stricterThanDefault MaxDecodeInputBytes] in *; [|done].
    inv_ok. rewrite stricterThanDefault_input in H. lia.
Qed.

Lemma effective_limits opts :
  (∀ o, head opts = Some o → validateLimitOptions o = Ok tt) →
  (effectiveMaxDepth opts <= 64)%Z ∧ (base64_EncodedLen (effectiveMaxInput opts) <= 1398104)%Z.
Proof.
  intros Ho.
  assert ((effectiveMaxDepth opts <= 64)%Z ∧
          (effectiveMaxInput opts <= MaxDecodeInputBytes)%Z) as [Hd Hi].
  { destruct opts as [|o opts]; cbn [effectiveMaxDepth effectiveMaxInput];
      [unfold MaxDecodeDepth; lia|]. by eapply validateLimitOptions_Ok, Ho. }
  split; [done|]. unfold base64_EncodedLen. change 1398104%Z with (349526 * 4)%Z.
  apply Z.mul_le_mono_nonneg_r; [done|].
  change 349526%Z with ((MaxDecodeInputBytes + 2) / 3)%Z. apply Z.div_le_mono; lia.
Qed.


(** ** Theorems *)
Section limits_theorems.
Variable unmarshal : string → Z → result SorobanAuthorizationEntry.

(** An entry is decoded exactly when the input is not empty, the options
    loosen nothing, the input fits the size limit in force and the SDK's
    decoder, run at the depth limit in force, returns it; and whatever the
    options, those limits never exceed 64 levels and the base64 length of
    one mebibyte. *)
Theorem DecodeAuthorizationEntry_bounds s opts v :
  DecodeAuthorizationEntry unmarshal s opts = Ok v ↔
  s ≠ "" ∧ (∀ o, head opts = Some o → validateLimitOptions o = Ok tt) ∧
  (Z.of_nat (String.length s) <= base64_EncodedLen (effectiveMaxInput opts))%Z ∧
  unmarshal s (effectiveMaxDepth opts) = Ok v ∧
  (effectiveMaxDepth opts <= 64)%Z ∧
  (base64_EncodedLen (effectiveMaxInput opts) <= 1398104)%Z.
Proof.
  split.
  - intros Hd. unfold DecodeAuthorizationEntry, decodeLimited in Hd. inv_ok.
    apply bool_decide_eq_false in Hx. split; [done|].
    rewrite Z.gtb_ltb, Z.ltb_ge in Hx1.
    assert (Ho : ∀ o, head opts = Some o → validateLimitOptions o = Ok tt).
    { intros o [= ?]. destruct opts as [|o' opts]; [done|]. simplify_eq/=.
      by apply wrap_Ok in Hx0. }
    split; [exact Ho|]. split; [done|]. split.
    { destruct (unmarshal s _); [done|]. by destruct (errors_Is _ _). }
    by apply effective_limits.
  - intros (Hs & Ho & Hl & Hu & _ & _). unfold DecodeAuthorizationEntry, decodeLimited.
    rewrite bool_decide_eq_false_2 by done. cbn [refuse mbind result_bind].
    assert ((match opts with
             | [] => Ok tt
             | o :: _ => wrap "soroauth: decode authorization entry" (validateLimitOptions o)
             end) = Ok tt) as ->.
    { destruct opts as [|o opts]; [done|]. by rewrite (Ho o). }
    cbn [mbind result_bind]. rewrite Z.gtb_ltb, (proj2 (Z.ltb_ge _ _)) by done.
    cbn [refuse mbind result_bind]. by rewrite Hu.
Qed.

(** Every refusal for size or depth is reported as [ErrDecodeLimit]: an
    input longer than the limit in force, whatever it decodes to, and an
    input whose decoding the SDK stops at its depth limit. *)
Theorem DecodeAuthorizationEntry_limit s opts :
  s ≠ "" → (∀ o, head opts = Some o → validateLimitOptions o = Ok tt) →
  ((base64_EncodedLen (effectiveMaxInput opts) < Z.of_nat (String.length s))%Z ∨
   ∃ e, unmarshal s (effectiveMaxDepth opts) = Err e ∧
        errors_Is e ErrMaxDecodingDepthReached = true) →
  ∃ e, DecodeAuthorizationEntry unmarshal s opts = Err e ∧ errors_Is e ErrDecodeLimit = true.
Proof.
  intros Hs Ho Hl. unfold DecodeAuthorizationEntry, decodeLimited.
  rewrite bool_decide_eq_false_2 by done. cbn [refuse mbind result_bind].
  assert ((match opts with
           | [] => Ok tt
           | o :: _ => wrap "soroauth: decode authorization entry" (validateLimitOptions o)
           end) = Ok tt) as ->.
  { destruct opts as [|o opts]; [done|]. by rewrite (Ho o). }
  cbn [mbind result_bind]. rewrite Z.gtb_ltb. destruct (Z.ltb_spec
    (base64_EncodedLen (effectiveMaxInput opts)) (Z.of_nat (String.length s))) as [H|H].
  - cbn. eexists. split; [reflexivity|]. done.
  - cbn [refuse mbind result_bind]. destruct Hl as [Hl|(e & -> & He)]; [lia|].
    rewrite He. eexists. split; [reflexivity|]. done.
Qed.
End limits_theorems.

(** On ledger numbers the result is the exact sum, past the latest ledger,
    whenever the lifetime is not zero and the sum fits 32 bits; otherwise, and
    only then, the call is refused with [ErrInvalidExpiration].  It never wraps
    around. *)
Theorem ExpirationAfter_spec latest ledgers :
  is_u32 latest → is_u32 ledgers →
  match ExpirationAfter latest ledgers with
  | Ok r => (1 <= ledgers ∧ latest + ledgers <= MaxUint32 ∧ r = latest + ledgers ∧
             latest < r)%Z ∧ is_u32 r
  | Err e => (ledgers = 0 ∨ MaxUint32 < latest + ledgers)%Z ∧
             errors_Is e ErrInvalidExpiration = true
  end.
Proof.
  unfold is_u32, ExpirationAfter, MaxUint32, wrap_u32. intros Hl Hn.
  destruct (Z.eqb_spec ledgers 0) as [->|Hz]; [split; [by left|done]|].
  rewrite (Z.mod_small (2 ^ 32 - 1 - ledgers)) by lia.
  rewrite Z.gtb_ltb. destruct (Z.ltb_spec (2 ^ 32 - 1 - ledgers) latest) as [Ho|Ho].
  - split; [right; lia|done].
  - rewrite Z.mod_small by lia. lia.
Qed.

(** An SDK decoder for the witnesses: one text decodes, at any depth limit of
    at least 5. *)
Definition ex_unmarshal (s : string) (depth : Z) : result SorobanAuthorizationEntry :=
  if (depth <? 5)%Z then Err (EWrap "xdr" (ESentinel ErrMaxDecodingDepthReached))
  else if decide (s = "AAAA") then Ok ex_delegates else Err (EText "illegal base64").

Lemma DecodeAuthorizationEntry_bounds_witness :
  DecodeAuthorizationEntry ex_unmarshal "AAAA" [mkLimitOptions (Some 10%Z) None] = Ok ex_delegates.
Proof.
  apply DecodeAuthorizationEntry_bounds. split; [done|]. split.
  - by intros o [= <-].
  - repeat split; vm_compute; congruence.
Defined.

Lemma DecodeAuthorizationEntry_limit_witness : ∃ e,
  DecodeAuthorizationEntry ex_unmarshal "AAAA" [mkLimitOptions (Some 4%Z) None] = Err e ∧
  errors_Is e ErrDecodeLimit = true.
Proof.
  apply DecodeAuthorizationEntry_limit; [done|by intros o [= <-]|].
  right. eexists. split; reflexivity.
Defined.

Lemma ExpirationAfter_spec_witness :
  match ExpirationAfter 4294967290 5 with
  | Ok r => (1 <= 5 ∧ 4294967290 + 5 <= MaxUint32 ∧ r = 4294967290 + 5 ∧
             4294967290 < r)%Z ∧ is_u32 r
  | Err e => (5 = 0 ∨ MaxUint32 < 4294967290 + 5)%Z ∧ errors_Is e ErrInvalidExpiration = true
  end.
Proof. apply ExpirationAfter_spec; unfold is_u32, MaxUint32; lia. Defined.
