(* ===== verification/Arm.v ===== *)
(** * Arm: the credential arms (arm.go) and the accessors every other file
    uses (addressCredentials of preimage.go, isSigned and credentialTypeName
    of authorize.go)

    [ArmBehavior] is the Go interface as a record of operations, with one
    value per arm and the table [armBehaviors].  A setter takes the
    credentials it writes through a pointer to and returns them. *)
From Stdlib Require Import ZArith Lia Strings.Byte String.
From stdpp Require Import base list strings gmap.
From S2P Require Import Prelude Errors Xdr ModelSDK Runtime Examples Address.

Open Scope string_scope. Open Scope nat_scope. Open Scope list_scope.

(** ** authorize.go, inspect.go *)
Definition CredentialTypeSourceAccount : string := "source_account".
Definition CredentialTypeAddress : string := "address".
Definition CredentialTypeAddressV2 : string := "address_v2".
Definition CredentialTypeAddressWithDelegates : string := "address_with_delegates".

Definition credentialTypeName (t : Z) : string :=
  if (t =? CredentialsSourceAccount)%Z then "source_account"
  else if (t =? CredentialsAddress)%Z then "address"
  else if (t =? CredentialsAddressV2)%Z then "address_v2"
  else if (t =? CredentialsAddressWithDelegates)%Z then "address_with_delegates"
  else "unknown".

(** A node is signed unless it holds one of the two placeholders: Void, or an
    empty (or absent) vector. *)
Definition isSigned (value : ScVal) : bool :=
  match value with
  | ScvVoid => false
  | ScvVec None | ScvVec (Some None) => false
  | ScvVec (Some (Some l)) => Nat.ltb 0 (length l)
  | _ => true
  end.

(** ** preimage.go *)
Definition addressCredentials (c : SorobanCredentials) : result SorobanAddressCredentials :=
  let t := Credentials_Type c in
  if (t =? CredentialsSourceAccount)%Z then Err (ESentinel ErrSourceAccountCredentials)
  else if (t =? CredentialsAddress)%Z then
    of_option (Credentials_Address c) (EText "address credentials arm is empty")
  else if (t =? CredentialsAddressV2)%Z then
    of_option (Credentials_AddressV2 c) (EText "address_v2 credentials arm is empty")
  else if (t =? CredentialsAddressWithDelegates)%Z then
    match Credentials_AddressWithDelegates c with
    | Some d => Ok (AddressCredentials d)
    | None => Err (EText "address_with_delegates credentials arm is empty")
    end
  else Err (ESentinel ErrUnsupportedCredentials).

(** [addressCredentials] returns a pointer into the credentials; a write
    through it is this update of the arm it points into. *)
Definition writeAddressCredentials (c : SorobanCredentials) (a : SorobanAddressCredentials)
    : SorobanCredentials :=
  let t := Credentials_Type c in
  if (t =? CredentialsAddress)%Z then
    mkCredentials t (Some a) (Credentials_AddressV2 c) (Credentials_AddressWithDelegates c)
  else if (t =? CredentialsAddressV2)%Z then
    mkCredentials t (Credentials_Address c) (Some a) (Credentials_AddressWithDelegates c)
  else
    mkCredentials t (Credentials_Address c) (Credentials_AddressV2 c)
      ((λ d, mkWithDelegates a (Delegates d)) <$> Credentials_AddressWithDelegates c).

Definition withSignature (a : SorobanAddressCredentials) (sig : ScVal)
    : SorobanAddressCredentials :=
  mkAddressCredentials (Address a) (Nonce a) (SignatureExpirationLedger a) sig.

Definition withExpiration (a : SorobanAddressCredentials) (exp : Z)
    : SorobanAddressCredentials :=
  mkAddressCredentials (Address a) (Nonce a) exp (Signature a).

(** ** arm.go *)
Section arm.
Context `{SDK}.

Record ArmBehavior := mkArmBehavior {
  PreimageVariant : Z;
  IsAddressBound : bool;
  CredentialTypeName : string;
  GetAddress : SorobanCredentials → result string;
  GetNonce : SorobanCredentials → Z;
  GetExpiration : SorobanCredentials → Z;
  GetSignature : SorobanCredentials → ScVal;
  SetSignature : SorobanCredentials → ScVal → SorobanCredentials;
  SetExpiration : SorobanCredentials → Z → SorobanCredentials;
  HasDelegates : bool;
  GetDelegates : SorobanCredentials → list SorobanDelegateSignature;
  SetDelegates : SorobanCredentials → list SorobanDelegateSignature → SorobanCredentials;
  CanUpgradeToV2 : bool;
  Arm_UpgradeToV2 : SorobanCredentials → result SorobanCredentials;
  ValidateForSigning : SorobanCredentials → string → result unit
}.

Definition sourceAccountArm : ArmBehavior := {|
  PreimageVariant := 99;
  IsAddressBound := false;
  CredentialTypeName := CredentialTypeSourceAccount;
  GetAddress _ := Ok "";
  GetNonce _ := 0%Z;
  GetExpiration _ := 0%Z;
  GetSignature _ := ScvVoid;
  SetSignature c _ := c;
  SetExpiration c _ := c;
  HasDelegates := false;
  GetDelegates _ := [];
  SetDelegates c _ := c;
  CanUpgradeToV2 := false;
  Arm_UpgradeToV2 _ := Err (ESentinel ErrUnsupportedCredentials);
  ValidateForSigning _ _ := Err (ESentinel ErrSourceAccountCredentials)
|}.

(** [if addr != targetAddress { return ErrNoMatchingCredentialNode }] *)
Definition matchTarget (a : ScAddress) (targetAddress : string) : result unit :=
  addr ← FormatAddress a;
  refuse (negb (bool_decide (addr = targetAddress))) (ESentinel ErrNoMatchingCredentialNode).

Definition legacyAddressArm : ArmBehavior := {|
  PreimageVariant := EnvelopeTypeSorobanAuthorization;
  IsAddressBound := false;
  CredentialTypeName := CredentialTypeAddress;
  GetAddress c :=
    match Credentials_Address c with
    | None => Err (EText "address credentials arm is empty")
    | Some a => FormatAddress (Address a)
    end;
  GetNonce c := match Credentials_Address c with None => 0%Z | Some a => Nonce a end;
  GetExpiration c :=
    match Credentials_Address c with None => 0%Z | Some a => SignatureExpirationLedger a end;
  GetSignature c := match Credentials_Address c with None => ScvVoid | Some a => Signature a end;
  SetSignature c sig :=
    mkCredentials (Credentials_Type c) ((λ a, withSignature a sig) <$> Credentials_Address c)
      (Credentials_AddressV2 c) (Credentials_AddressWithDelegates c);
  SetExpiration c exp :=
    mkCredentials (Credentials_Type c) ((λ a, withExpiration a exp) <$> Credentials_Address c)
      (Credentials_AddressV2 c) (Credentials_AddressWithDelegates c);
  HasDelegates := false;
  GetDelegates _ := [];
  SetDelegates c _ := c;
  CanUpgradeToV2 := true;
  Arm_UpgradeToV2 c :=
    match Credentials_Address c with
    | None => Err (EText "legacy credentials arm is empty")
    | Some a =>
        if isSigned (Signature a) then Err (ESentinel ErrAlreadySigned)
        else Ok (mkCredentials CredentialsAddressV2 None (Some (withSignature a ScvVoid)) None)
    end;
  ValidateForSigning c target :=
    match Credentials_Address c with
    | None => Err (EText "legacy address credentials arm is empty")
    | Some a => matchTarget (Address a) target
    end
|}.

Definition addressV2Arm : ArmBehavior := {|
  PreimageVariant := EnvelopeTypeSorobanAuthorizationWithAddress;
  IsAddressBound := true;
  CredentialTypeName := CredentialTypeAddressV2;
  GetAddress c :=
    match Credentials_AddressV2 c with
    | None => Err (EText "address_v2 credentials arm is empty")
    | Some a => FormatAddress (Address a)
    end;
  GetNonce c := match Credentials_AddressV2 c with None => 0%Z | Some a => Nonce a end;
  GetExpiration c :=
    match Credentials_AddressV2 c with None => 0%Z | Some a => SignatureExpirationLedger a end;
  GetSignature c :=
    match Credentials_AddressV2 c with None => ScvVoid | Some a => Signature a end;
  SetSignature c sig :=
    mkCredentials (Credentials_Type c) (Credentials_Address c)
      ((λ a, withSignature a sig) <$> Credentials_AddressV2 c)
      (Credentials_AddressWithDelegates c);
  SetExpiration c exp :=
    mkCredentials (Credentials_Type c) (Credentials_Address c)
      ((λ a, withExpiration a exp) <$> Credentials_AddressV2 c)
      (Credentials_AddressWithDelegates c);
  HasDelegates := false;
  GetDelegates _ := [];
  SetDelegates c _ := c;
  CanUpgradeToV2 := false;
  Arm_UpgradeToV2 c :=
    match Credentials_AddressV2 c with
    | None => Err (EText "address_v2 credentials arm is empty")
    | Some _ => Ok c
    end;
  ValidateForSigning c target :=
    match Credentials_AddressV2 c with
    | None => Err (EText "address_v2 credentials arm is empty")
    | Some a => matchTarget (Address a) target
    end
|}.

Definition onTopLevel (f : SorobanAddressCredentials → SorobanAddressCredentials)
    (d : SorobanAddressCredentialsWithDelegates) : SorobanAddressCredentialsWithDelegates :=
  mkWithDelegates (f (AddressCredentials d)) (Delegates d).

Definition delegatesArm : ArmBehavior := {|
  PreimageVariant := EnvelopeTypeSorobanAuthorizationWithAddress;
  IsAddressBound := true;
  CredentialTypeName := CredentialTypeAddressWithDelegates;
  GetAddress c :=
    match Credentials_AddressWithDelegates c with
    | None => Err (EText "address_with_delegates credentials arm is empty")
    | Some d => FormatAddress (Address (AddressCredentials d))
    end;
  GetNonce c :=
    match Credentials_AddressWithDelegates c with
    | None => 0%Z | Some d => Nonce (AddressCredentials d) end;
  GetExpiration c :=
    match Credentials_AddressWithDelegates c with
    | None => 0%Z | Some d => SignatureExpirationLedger (AddressCredentials d) end;
  GetSignature c :=
    match Credentials_AddressWithDelegates c with
    | None => ScvVoid | Some d => Signature (AddressCredentials d) end;
  SetSignature c sig :=
    mkCredentials (Credentials_Type c) (Credentials_Address c) (Credentials_AddressV2 c)
      (onTopLevel (λ a, withSignature a sig) <$> Credentials_AddressWithDelegates c);
  SetExpiration c exp :=
    mkCredentials (Credentials_Type c) (Credentials_Address c) (Credentials_AddressV2 c)
      (onTopLevel (λ a, withExpiration a exp) <$> Credentials_AddressWithDelegates c);
  HasDelegates := true;
  GetDelegates c :=
    match Credentials_AddressWithDelegates c with None => [] | Some d => Delegates d end;
  SetDelegates c ds :=
    mkCredentials (Credentials_Type c) (Credentials_Address c) (Credentials_AddressV2 c)
      ((λ d, mkWithDelegates (AddressCredentials d) ds) <$> Credentials_AddressWithDelegates c);
  CanUpgradeToV2 := false;
  Arm_UpgradeToV2 _ := Err (ESentinel ErrUnsupportedCredentials);
  ValidateForSigning c target :=
    match Credentials_AddressWithDelegates c with
    | None => Err (EText "address_with_delegates credentials arm is empty")
    | Some d => matchTarget (Address (AddressCredentials d)) target
    end
|}.

(** [CredentialArm] is the string naming an arm; "" is no arm. *)
Definition armBehaviors : gmap string ArmBehavior :=
  <[CredentialTypeSourceAccount := sourceAccountArm]>
  (<[CredentialTypeAddress := legacyAddressArm]>
  (<[CredentialTypeAddressV2 := addressV2Arm]>
  (<[CredentialTypeAddressWithDelegates := delegatesArm]> ∅))).

Definition credentialTypeToArm (t : Z) : string :=
  if (t =? CredentialsSourceAccount)%Z then CredentialTypeSourceAccount
  else if (t =? CredentialsAddress)%Z then CredentialTypeAddress
  else if (t =? CredentialsAddressV2)%Z then CredentialTypeAddressV2
  else if (t =? CredentialsAddressWithDelegates)%Z then CredentialTypeAddressWithDelegates
  else "".

Definition GetArmBehaviorByName (armName : string) : result ArmBehavior :=
  of_option (armBehaviors !! armName) (ESentinel ErrUnsupportedCredentials).

Definition GetArmBehavior (creds : SorobanCredentials) : result ArmBehavior :=
  let arm := credentialTypeToArm (Credentials_Type creds) in
  _ ← refuse (bool_decide (arm = "")) (ESentinel ErrUnsupportedCredentials);
  of_option (armBehaviors !! arm) (ESentinel ErrUnsupportedCredentials).

(** ** Lemmas *)
(** The four defined discriminants, or none of them. *)
Lemma credentials_type_cases t :
  t = CredentialsSourceAccount ∨ t = CredentialsAddress ∨ t = CredentialsAddressV2 ∨
  t = CredentialsAddressWithDelegates ∨
  ((t =? CredentialsSourceAccount)%Z = false ∧ (t =? CredentialsAddress)%Z = false ∧
   (t =? CredentialsAddressV2)%Z = false ∧ (t =? CredentialsAddressWithDelegates)%Z = false).
Proof.
  unfold CredentialsSourceAccount, CredentialsAddress, CredentialsAddressV2,
    CredentialsAddressWithDelegates. lia.
Qed.

(** [addressCredentials] succeeds exactly on an address arm that is there. *)
Lemma addressCredentials_Ok c a :
  addressCredentials c = Ok a ↔
  (Credentials_Type c = CredentialsAddress ∧ Credentials_Address c = Some a) ∨
  (Credentials_Type c = CredentialsAddressV2 ∧ Credentials_AddressV2 c = Some a) ∨
  (Credentials_Type c = CredentialsAddressWithDelegates ∧
    ∃ d, Credentials_AddressWithDelegates c = Some d ∧ AddressCredentials d = a).
Proof.
  destruct c as [|o|o|o|t]; unfold addressCredentials; cbn.
  - split; [discriminate|]. intros [[? _]|[[? _]|[? _]]]; discriminate.
  - rewrite of_option_Ok. split; [auto|]. intros [[_ ?]|[[? _]|[? _]]]; done.
  - rewrite of_option_Ok. split; [auto|]. intros [[? _]|[[_ ?]|[? _]]]; done.
  - destruct o as [d|]; split; try discriminate.
    + intros [= <-]. right; right. eauto.
    + intros [[? _]|[[? _]|(_ & ? & [= <-] & <-)]]; done.
    + intros [[? _]|[[? _]|(_ & ? & ? & _)]]; done.
  - split; [by repeat case_match|].
    intros [[_ ?]|[[_ ?]|(_ & ? & ? & _)]]; done.
Qed.

Lemma addressCredentials_source c :
  Credentials_Type c = CredentialsSourceAccount →
  addressCredentials c = Err (ESentinel ErrSourceAccountCredentials).
Proof. unfold addressCredentials. by intros ->. Qed.

Lemma writeAddressCredentials_read c a a' :
  addressCredentials c = Ok a → addressCredentials (writeAddressCredentials c a') = Ok a'.
Proof.
  intros Ha. apply addressCredentials_Ok in Ha. apply addressCredentials_Ok.
  destruct c as [|o|o|o|t]; cbn in Ha;
    destruct Ha as [[Ht ?]|[[Ht ?]|(Ht & d & ? & <-)]]; simplify_eq/=; eauto 10.
Qed.

Lemma writeAddressCredentials_type c a :
  Credentials_Type (writeAddressCredentials c a) = Credentials_Type c.
Proof.
  unfold writeAddressCredentials. by repeat (case_match; [apply mkCredentials_type|]);
    apply mkCredentials_type.
Qed.

Lemma GetArmBehavior_type c b :
  GetArmBehavior c = Ok b →
  (Credentials_Type c = CredentialsSourceAccount ∧ b = sourceAccountArm) ∨
  (Credentials_Type c = CredentialsAddress ∧ b = legacyAddressArm) ∨
  (Credentials_Type c = CredentialsAddressV2 ∧ b = addressV2Arm) ∨
  (Credentials_Type c = CredentialsAddressWithDelegates ∧ b = delegatesArm).
Proof.
  unfold GetArmBehavior. generalize (Credentials_Type c). intros t.
  destruct (credentials_type_cases t) as [->|[->|[->|[->|(E0 & E1 & E2 & E3)]]]].
  1-4: intros [= <-]; auto 10.
  unfold credentialTypeToArm. rewrite E0, E1, E2, E3. discriminate.
Qed.

Lemma GetArmBehavior_cases c :
  (Credentials_Type c = CredentialsSourceAccount ∧ GetArmBehavior c = Ok sourceAccountArm) ∨
  (Credentials_Type c = CredentialsAddress ∧ GetArmBehavior c = Ok legacyAddressArm) ∨
  (Credentials_Type c = CredentialsAddressV2 ∧ GetArmBehavior c = Ok addressV2Arm) ∨
  (Credentials_Type c = CredentialsAddressWithDelegates ∧ GetArmBehavior c = Ok delegatesArm) ∨
  GetArmBehavior c = Err (ESentinel ErrUnsupportedCredentials).
Proof.
  unfold GetArmBehavior. generalize (Credentials_Type c). intros t.
  destruct (credentials_type_cases t) as [->|[->|[->|[->|(E0 & E1 & E2 & E3)]]]];
    [by left|by right; left|by right; right; left|by right; right; right; left|].
  repeat right. unfold credentialTypeToArm. by rewrite E0, E1, E2, E3.
Qed.
End arm.

(** ** Theorems *)
Section arm_theorems.
Context `{SDK}.

(** The arm table and the shared accessor agree: for credentials that
    carry an address, the behaviour selected for their arm reads the address,
    nonce, expiration and signature [addressCredentials] points at, writes
    through the same pointer, validates a target by that address, and binds
    the address exactly when its preimage variant names one. *)
Theorem GetArmBehavior_accessors c a :
  addressCredentials c = Ok a →
  ∃ b, GetArmBehavior c = Ok b ∧
    GetAddress b c = FormatAddress (Address a) ∧ GetNonce b c = Nonce a ∧
    GetExpiration b c = SignatureExpirationLedger a ∧ GetSignature b c = Signature a ∧
    (∀ sig, SetSignature b c sig = writeAddressCredentials c (withSignature a sig)) ∧
    (∀ v, SetExpiration b c v = writeAddressCredentials c (withExpiration a v)) ∧
    (∀ t, ValidateForSigning b c t = Ok tt ↔ FormatAddress (Address a) = Ok t) ∧
    CredentialTypeName b = credentialTypeName (Credentials_Type c) ∧
    IsAddressBound b = (PreimageVariant b =? EnvelopeTypeSorobanAuthorizationWithAddress)%Z.
Proof.
  intros Ha%addressCredentials_Ok.
  assert (Hm : ∀ t, matchTarget (Address a) t = Ok tt ↔ FormatAddress (Address a) = Ok t).
  { intros t. unfold matchTarget. destruct (FormatAddress (Address a)) as [s|]; cbn; [|done].
    rewrite refuse_Ok. destruct (bool_decide_reflect (s = t)); naive_solver. }
  destruct c as [|o|o|o|u]; cbn in Ha;
    destruct Ha as [[Ht ?]|[[Ht ?]|(Ht & d & ? & <-)]]; simplify_eq/=;
    (eexists; split; [reflexivity|]); repeat (split; [done|]); try (split; [|done]);
    cbn [ValidateForSigning legacyAddressArm addressV2Arm delegatesArm Credentials_Address
      Credentials_AddressV2 Credentials_AddressWithDelegates]; done.
Qed.
End arm_theorems.

Lemma GetArmBehavior_accessors_witness : let c := Credentials ex_delegates in
  ∃ b, GetArmBehavior c = Ok b ∧ GetNonce b c = 42%Z ∧
    FormatAddress (ex_account "a") = Ok (ex_text "a") ∧
    ValidateForSigning b c (ex_text "a") = Ok tt.
Proof.
  intros c. destruct (GetArmBehavior_accessors c (ex_credentials "a" 0 ScvVoid) eq_refl)
    as (b & Hb & _ & Hn & _ & _ & _ & _ & Hv & _).
  exists b. repeat split; [exact Hb|exact Hn|]. apply Hv. reflexivity.
Defined.
