(* ===== verification/Json.v ===== *)
(** * Json: the part of encoding/json the canonical form drives (canonical.go)

    JSON text, as [json.Marshal] writes it and [json.Decoder] reads it.  A text
    is read as a list of lexemes ([lex]); [Token] and [More] are the decoder's
    state machine over them; [parse] is what [Decode] makes of them before a
    struct is filled; [print] is the compact output with Go's escapes.  What is
    proved of them is in [JsonText]. *)
From Stdlib Require Import ZArith Lia Strings.Byte Strings.Ascii String.
From stdpp Require Import base list strings.
From S2P Require Import Prelude Encoding Errors.

Open Scope string_scope. Open Scope nat_scope. Open Scope list_scope.

(** ** Values *)
Inductive json :=
| JNull
| JBool (b : bool)
| JNumber (text : string)
| JString (s : string)
| JArray (l : list json)
| JObject (l : list (string * json)).

Section json_ind.
Variable P : json → Prop.
Hypothesis HNull : P JNull.
Hypothesis HBool : ∀ b, P (JBool b).
Hypothesis HNumber : ∀ t, P (JNumber t).
Hypothesis HString : ∀ s, P (JString s).
Hypothesis HArray : ∀ l, Forall P l → P (JArray l).
Hypothesis HObject : ∀ l, Forall (λ kv, P kv.2) l → P (JObject l).
Fixpoint json_nested_ind (v : json) : P v :=
  match v with
  | JNull => HNull
  | JBool b => HBool b
  | JNumber t => HNumber t
  | JString s => HString s
  | JArray l => HArray l ((fix go l : Forall P l :=
      match l with [] => Forall_nil_2 _ | v :: l => Forall_cons_2 _ _ _ (json_nested_ind v) (go l) end) l)
  | JObject l => HObject l ((fix go l : Forall (λ kv, P kv.2) l :=
      match l with
      | [] => Forall_nil_2 _
      | (k, v) :: l => Forall_cons_2 _ (k, v) _ (json_nested_ind v) (go l)
      end) l)
  end.
End json_ind.

(** The nesting of a value: what holds nothing has none. *)
Fixpoint height (v : json) : nat :=
  match v with
  | JArray l => foldr (λ v n, S (height v) `max` n) 0 l
  | JObject l => foldr (λ kv n, S (height kv.2) `max` n) 0 l
  | _ => 0
  end.

(** No object of the value repeats a key. *)
Fixpoint unique_keys (v : json) : Prop :=
  match v with
  | JArray l => foldr (λ v P, unique_keys v ∧ P) True l
  | JObject l => NoDup (map fst l) ∧ foldr (λ kv P, unique_keys kv.2 ∧ P) True l
  | _ => True
  end.

(** ** Lexemes *)
Inductive lexeme :=
| LObjectOpen | LObjectClose | LArrayOpen | LArrayClose | LColon | LComma
| LString (s : string)
| LNumber (text : string)
| LBool (b : bool)
| LNull
| LBad.

Definition ascii_Z (c : ascii) : Z := Z.of_N (N_of_ascii c).
Definition ascii_in (lo hi : Z) (c : ascii) : bool := (lo <=? ascii_Z c)%Z && (ascii_Z c <=? hi)%Z.
Definition Z_ascii (z : Z) : ascii := ascii_of_N (Z.to_N z).

Definition isSpace (c : ascii) : bool :=
  Ascii.eqb c " " || Ascii.eqb c "009" || Ascii.eqb c "010" || Ascii.eqb c "013".
Definition isDigit (c : ascii) : bool := ascii_in 48 57 c.

(** The digits a text starts with, and the rest. *)
Fixpoint spanDigits (s : string) : string * string :=
  match s with
  | String c s' =>
      if isDigit c then let '(d, r) := spanDigits s' in (String c d, r) else ("", s)
  | EmptyString => ("", "")
  end.

(** At least one digit. *)
Definition readDigits (s : string) : option (string * string) :=
  let '(d, r) := spanDigits s in if String.eqb d "" then None else Some (d, r).

Definition readExponent (s : string) : option (string * string) :=
  match s with
  | String e s' =>
      if Ascii.eqb e "e" || Ascii.eqb e "E" then
        match s' with
        | String g s'' =>
            if Ascii.eqb g "+" || Ascii.eqb g "-"
            then '(d, r) ← readDigits s''; Some (String e (String g d), r)
            else '(d, r) ← readDigits s'; Some (String e d, r)
        | EmptyString => None
        end
      else Some ("", s)
  | EmptyString => Some ("", "")
  end.

Definition readFraction (s : string) : option (string * string) :=
  match s with
  | String "." s' => '(d, r) ← readDigits s'; Some (String "." d, r)
  | _ => Some ("", s)
  end.

(** A number without its sign: a zero stands alone. *)
Definition readUnsigned (s : string) : option (string * string) :=
  match s with
  | String "0" s' => Some ("0", s')
  | _ => readDigits s
  end.

Definition readMagnitude (s : string) : option (string * string) :=
  '(i, s) ← readUnsigned s; '(f, s) ← readFraction s; '(e, s) ← readExponent s;
  Some (i +:+ f +:+ e, s).

Definition readNumber (s : string) : option (string * string) :=
  match s with
  | String "-" s' => '(t, r) ← readMagnitude s'; Some (String "-" t, r)
  | _ => readMagnitude s
  end.

(** ** Strings *)
(** [utf8.EncodeRune] of a code point below 2^21 that is no surrogate. *)
Definition encodeRune (r : Z) : string :=
  if (r <? 128)%Z then String (Z_ascii r) ""
  else if (r <? 2048)%Z then String (Z_ascii (192 + r / 64)) (String (Z_ascii (128 + r mod 64)) "")
  else if (r <? 65536)%Z then
    String (Z_ascii (224 + r / 4096)) (String (Z_ascii (128 + r / 64 mod 64))
      (String (Z_ascii (128 + r mod 64)) ""))
  else
    String (Z_ascii (240 + r / 262144)) (String (Z_ascii (128 + r / 4096 mod 64))
      (String (Z_ascii (128 + r / 64 mod 64)) (String (Z_ascii (128 + r mod 64)) ""))).

Definition replacementRune : Z := 65533.

Definition hex4 (a b c d : ascii) : option Z :=
  a ← hex_value a; b ← hex_value b; c ← hex_value c; d ← hex_value d;
  Some (((a * 16 + b) * 16 + c) * 16 + d)%Z.

Definition isSurrogate (r : Z) : bool := (55296 <=? r)%Z && (r <? 57344)%Z.

(** [utf16.DecodeRune], when the two are a pair. *)
Definition surrogatePair (r1 r2 : Z) : option Z :=
  if (55296 <=? r1)%Z && (r1 <? 56320)%Z && (56320 <=? r2)%Z && (r2 <? 57344)%Z
  then Some ((r1 - 55296) * 1024 + (r2 - 56320) + 65536)%Z else None.

(** The escapes of one character. *)
Definition escaped (c : ascii) : option ascii :=
  match c with
  | "034"%char => Some "034"%char
  | "\"%char => Some "\"%char
  | "/"%char => Some "/"%char
  | "b"%char => Some "008"%char
  | "f"%char => Some "012"%char
  | "n"%char => Some "010"%char
  | "r"%char => Some "013"%char
  | "t"%char => Some "009"%char
  | _ => None
  end.

(** A string literal after its opening quote: what it denotes, and what
    follows its closing quote.  A byte of a valid UTF-8 sequence stands for
    itself; the callers have refused input that is not valid UTF-8. *)
Fixpoint readString (s : string) : option (string * string) :=
  match s with
  | EmptyString => None
  | String c s =>
      if Ascii.eqb c "034" then Some ("", s)
      else if Ascii.eqb c "\" then
        match s with
        | EmptyString => None
        | String e s =>
            match escaped e with
            | Some x => '(t, r) ← readString s; Some (String x t, r)
            | None =>
                if negb (Ascii.eqb e "u") then None
                else match s with
                | String h1 (String h2 (String h3 (String h4 s))) =>
                    r1 ← hex4 h1 h2 h3 h4;
                    if isSurrogate r1 then
                      match s with
                      | String b (String u (String g1 (String g2 (String g3 (String g4 s'))))) =>
                          match (if Ascii.eqb b "\" && Ascii.eqb u "u"
                                 then hex4 g1 g2 g3 g4 ≫= surrogatePair r1 else None) with
                          | Some r => '(t, rest) ← readString s'; Some (encodeRune r +:+ t, rest)
                          | None => '(t, rest) ← readString s;
                                    Some (encodeRune replacementRune +:+ t, rest)
                          end
                      | _ => '(t, rest) ← readString s;
                             Some (encodeRune replacementRune +:+ t, rest)
                      end
                    else '(t, rest) ← readString s; Some (encodeRune r1 +:+ t, rest)
                | _ => None
                end
            end
        end
      else if (ascii_Z c <? 32)%Z then None
      else '(t, r) ← readString s; Some (String c t, r)
  end.

(** ** Lexing *)
(** What a literal name or a number starts with. *)
Definition readScalar (s : string) : option (lexeme * string) :=
  match s with
  | String "t" (String "r" (String "u" (String "e" r))) => Some (LBool true, r)
  | String "f" (String "a" (String "l" (String "s" (String "e" r)))) => Some (LBool false, r)
  | String "n" (String "u" (String "l" (String "l" r))) => Some (LNull, r)
  | _ => '(t, r) ← readNumber s; Some (LNumber t, r)
  end.

Definition punctuation (c : ascii) : option lexeme :=
  match c with
  | "{"%char => Some LObjectOpen
  | "}"%char => Some LObjectClose
  | "["%char => Some LArrayOpen
  | "]"%char => Some LArrayClose
  | ":"%char => Some LColon
  | ","%char => Some LComma
  | _ => None
  end.

(** One lexeme of text that does not start with a space. *)
Definition readLexeme (c : ascii) (s : string) : option (lexeme * string) :=
  match punctuation c with
  | Some l => Some (l, s)
  | None =>
      if Ascii.eqb c "034" then '(t, r) ← readString s; Some (LString t, r)
      else readScalar (String c s)
  end.

(** The lexemes of a text, up to the first thing that is none.  Every lexeme
    takes a character, so the length of the text is enough fuel. *)
Fixpoint lexLoop (fuel : nat) (s : string) : list lexeme :=
  match fuel, s with
  | _, EmptyString => []
  | O, _ => [LBad]
  | S fuel, String c s =>
      if isSpace c then lexLoop fuel s
      else match readLexeme c s with
           | Some (l, r) => l :: lexLoop fuel r
           | None => [LBad]
           end
  end.

Definition lex (s : string) : list lexeme := lexLoop (String.length s) s.

(** ** json.Decoder.Token and More *)
Inductive tokenState :=
| tokenTopValue | tokenArrayStart | tokenArrayValue | tokenArrayComma
| tokenObjectStart | tokenObjectKey | tokenObjectColon | tokenObjectValue | tokenObjectComma.

Record Decoder := mkDecoder {
  input : list lexeme;
  state : tokenState;
  tokenStack : list tokenState
}.

Definition NewDecoder (s : string) : Decoder := mkDecoder (lex s) tokenTopValue [].

(** A [json.Token]: a delimiter, a string, or another scalar. *)
Inductive token := Delim (c : ascii) | TokenString (s : string) | TokenScalar.

Definition tokenValueAllowed (st : tokenState) : bool :=
  match st with
  | tokenTopValue | tokenArrayStart | tokenArrayValue | tokenObjectValue => true
  | _ => false
  end.

Definition tokenValueEnd (st : tokenState) : tokenState :=
  match st with
  | tokenArrayStart | tokenArrayValue => tokenArrayComma
  | tokenObjectValue => tokenObjectComma
  | _ => st
  end.

Definition errEOF : error := EText "EOF".
Definition tokenError : error := EText "invalid character".

Definition pushState (st : tokenState) (dec : Decoder) (rest : list lexeme) : Decoder :=
  mkDecoder rest st (state dec :: tokenStack dec).

Definition popState (dec : Decoder) (rest : list lexeme) : result Decoder :=
  match tokenStack dec with
  | st :: stack => Ok (mkDecoder rest (tokenValueEnd st) stack)
  | [] => Err tokenError
  end.

Definition endValue (t : token) (dec : Decoder) (rest : list lexeme) : result (token * Decoder) :=
  _ ← refuse (negb (tokenValueAllowed (state dec))) tokenError;
  Ok (t, mkDecoder rest (tokenValueEnd (state dec)) (tokenStack dec)).

(** [Token] on the next lexeme, which is not a separator. *)
Definition tokenOf (l : lexeme) (rest : list lexeme) (dec : Decoder) : result (token * Decoder) :=
  let st := state dec in
  match l with
  | LArrayOpen =>
      _ ← refuse (negb (tokenValueAllowed st)) tokenError;
      Ok (Delim "[", pushState tokenArrayStart dec rest)
  | LArrayClose =>
      match st with
      | tokenArrayStart | tokenArrayComma =>
          dec ← popState dec rest; Ok (Delim "]", dec)
      | _ => Err tokenError
      end
  | LObjectOpen =>
      _ ← refuse (negb (tokenValueAllowed st)) tokenError;
      Ok (Delim "{", pushState tokenObjectStart dec rest)
  | LObjectClose =>
      match st with
      | tokenObjectStart | tokenObjectComma =>
          dec ← popState dec rest; Ok (Delim "}", dec)
      | _ => Err tokenError
      end
  | LString s =>
      match st with
      | tokenObjectStart | tokenObjectKey =>
          Ok (TokenString s, mkDecoder rest tokenObjectColon (tokenStack dec))
      | _ => endValue (TokenString s) dec rest
      end
  | LNumber _ | LBool _ | LNull => endValue TokenScalar dec rest
  | LColon | LComma | LBad => Err tokenError
  end.

(** [Token] skips a separator where the state has one. *)
Fixpoint tokenLoop (l : list lexeme) (st : tokenState) (stack : list tokenState)
    : result (token * Decoder) :=
  match l with
  | [] => Err errEOF
  | LColon :: l' =>
      match st with
      | tokenObjectColon => tokenLoop l' tokenObjectValue stack
      | _ => Err tokenError
      end
  | LComma :: l' =>
      match st with
      | tokenArrayComma => tokenLoop l' tokenArrayValue stack
      | tokenObjectComma => tokenLoop l' tokenObjectKey stack
      | _ => Err tokenError
      end
  | x :: rest => tokenOf x rest (mkDecoder l st stack)
  end.

Definition Token (dec : Decoder) : result (token * Decoder) :=
  tokenLoop (input dec) (state dec) (tokenStack dec).

Definition More (dec : Decoder) : bool :=
  match input dec with
  | [] | LArrayClose :: _ | LObjectClose :: _ => false
  | _ => true
  end.

(** ** The lexemes of a value *)
(** The lexemes of several items, separated by commas. *)
Fixpoint separated (l : list (list lexeme)) : list lexeme :=
  match l with
  | [] => []
  | [x] => x
  | x :: l => x ++ LComma :: separated l
  end.

Fixpoint lexemes (v : json) : list lexeme :=
  match v with
  | JNull => [LNull]
  | JBool b => [LBool b]
  | JNumber t => [LNumber t]
  | JString s => [LString s]
  | JArray l => LArrayOpen :: separated (map lexemes l) ++ [LArrayClose]
  | JObject l =>
      LObjectOpen :: separated (map (λ kv, LString kv.1 :: LColon :: lexemes kv.2) l) ++ [LObjectClose]
  end.

(** ** json.Decoder.Decode, up to a tree *)
(** One value, and the lexemes behind it.  Every call takes a lexeme or is one
    step above one that does: their number is enough fuel. *)
Fixpoint parseValue (fuel : nat) (l : list lexeme) : option (json * list lexeme) :=
  match fuel with
  | O => None
  | S fuel =>
      match l with
      | LNull :: r => Some (JNull, r)
      | LBool b :: r => Some (JBool b, r)
      | LNumber t :: r => Some (JNumber t, r)
      | LString s :: r => Some (JString s, r)
      | LArrayOpen :: LArrayClose :: r => Some (JArray [], r)
      | LArrayOpen :: r => '(vs, r) ← parseElements fuel r; Some (JArray vs, r)
      | LObjectOpen :: LObjectClose :: r => Some (JObject [], r)
      | LObjectOpen :: r => '(kvs, r) ← parseMembers fuel r; Some (JObject kvs, r)
      | _ => None
      end
  end
with parseElements (fuel : nat) (l : list lexeme) : option (list json * list lexeme) :=
  match fuel with
  | O => None
  | S fuel =>
      '(v, r) ← parseValue fuel l;
      match r with
      | LComma :: r => '(vs, r) ← parseElements fuel r; Some (v :: vs, r)
      | LArrayClose :: r => Some ([v], r)
      | _ => None
      end
  end
with parseMembers (fuel : nat) (l : list lexeme) : option (list (string * json) * list lexeme) :=
  match fuel with
  | O => None
  | S fuel =>
      match l with
      | LString k :: LColon :: r =>
          '(v, r) ← parseValue fuel r;
          match r with
          | LComma :: r => '(kvs, r) ← parseMembers fuel r; Some ((k, v) :: kvs, r)
          | LObjectClose :: r => Some ([(k, v)], r)
          | _ => None
          end
      | _ => None
      end
  end.

Definition parse (l : list lexeme) : option (json * list lexeme) := parseValue (length l) l.

(** ** json.Marshal *)
(** How many bytes the code point at the start takes, when it is a well-formed
    sequence of more than one; 0 otherwise. *)
Definition runeSize (s : string) : nat :=
  match bytes_of_string s with
  | b0 :: b1 :: rest =>
      if utf8_in 194 223 b0 then if utf8_in 128 191 b1 then 2 else 0
      else match rest with
      | [] => 0
      | b2 :: rest =>
          if utf8_in 224 239 b0 then
            if utf8_in (if (byteZ b0 =? 224)%Z then 160 else 128)
                 (if (byteZ b0 =? 237)%Z then 159 else 191) b1 && utf8_in 128 191 b2 then 3 else 0
          else match rest with
          | [] => 0
          | b3 :: _ =>
              if utf8_in 240 244 b0
                 && utf8_in (if (byteZ b0 =? 240)%Z then 144 else 128)
                      (if (byteZ b0 =? 244)%Z then 143 else 191) b1
                 && utf8_in 128 191 b2 && utf8_in 128 191 b3 then 4 else 0
          end
      end
  | _ => 0
  end.

(** A character below 128, with the HTML characters escaped too. *)
Definition escapeByte (c : ascii) : string :=
  if Ascii.eqb c "\" || Ascii.eqb c "034" then String "\" (String c "")
  else if Ascii.eqb c "008" then "\b"
  else if Ascii.eqb c "012" then "\f"
  else if Ascii.eqb c "010" then "\n"
  else if Ascii.eqb c "013" then "\r"
  else if Ascii.eqb c "009" then "\t"
  else if (ascii_Z c <? 32)%Z || Ascii.eqb c "<" || Ascii.eqb c ">" || Ascii.eqb c "&" then
    "\u00" +:+ hex_byte (Zbyte (ascii_Z c))
  else String c "".

(** U+2028 and U+2029, which JavaScript does not allow in strings. *)
Definition isLineSeparator (c c1 c2 : ascii) : bool :=
  (ascii_Z c =? 226)%Z && (ascii_Z c1 =? 128)%Z && ((ascii_Z c2 =? 168)%Z || (ascii_Z c2 =? 169)%Z).

Fixpoint quoteLoop (s : string) : string :=
  match s with
  | EmptyString => ""
  | String c s1 =>
      if (ascii_Z c <? 128)%Z then escapeByte c +:+ quoteLoop s1
      else match runeSize s, s1 with
      | 2, String c1 s2 => String c (String c1 (quoteLoop s2))
      | 3, String c1 (String c2 s3) =>
          if isLineSeparator c c1 c2 then "\u202" +:+ String (hex_digit (ascii_Z c2 mod 16)) (quoteLoop s3)
          else String c (String c1 (String c2 (quoteLoop s3)))
      | 4, String c1 (String c2 (String c3 s4)) =>
          String c (String c1 (String c2 (String c3 (quoteLoop s4))))
      | _, _ => "\ufffd" +:+ quoteLoop s1
      end
  end.

Definition quote (s : string) : string := String "034" (quoteLoop s +:+ String "034" "").

Fixpoint print (v : json) : string :=
  match v with
  | JNull => "null"
  | JBool b => if b then "true" else "false"
  | JNumber t => t
  | JString s => quote s
  | JArray l => "[" +:+ String.concat "," (map print l) +:+ "]"
  | JObject l =>
      "{" +:+ String.concat "," (map (λ kv, quote kv.1 +:+ ":" +:+ print kv.2) l) +:+ "}"
  end.

(** ** Printed values *)
(** The strings and keys of a value are UTF-8. *)
Fixpoint texts_valid (v : json) : bool :=
  match v with
  | JString s => utf8_ValidString s
  | JArray l => forallb texts_valid l
  | JObject l => forallb (λ kv, utf8_ValidString kv.1 && texts_valid kv.2) l
  | _ => true
  end.

(** The numbers of a value are integers as strconv writes them. *)
Fixpoint integers (v : json) : Prop :=
  match v with
  | JNumber t => ∃ z, t = FormatInt z
  | JArray l => foldr (λ v P, integers v ∧ P) True l
  | JObject l => foldr (λ kv P, integers kv.2 ∧ P) True l
  | _ => True
  end.
