(* ===== verification/JsonText.v ===== *)
(** * JsonText: printed JSON reads back

    [lex_print] shows that a printed value reads back as its own lexemes,
    [utf8_print] that the text is valid UTF-8, and [parse_lexemes] that the
    lexemes parse to the value. *)
From Stdlib Require Import ZArith Lia Strings.Byte Strings.Ascii String.
From Stdlib Require Import Decimal DecimalString DecimalN DecimalPos DecimalFacts.
From stdpp Require Import base list strings.
From S2P Require Import Prelude Encoding Errors Json.

Open Scope string_scope. Open Scope nat_scope. Open Scope list_scope.

(** ** Texts *)
Lemma string_app_assoc (a b c : string) : (a +:+ b) +:+ c = a +:+ b +:+ c.
Proof. induction a as [|x a IH]; [done|]. by rewrite !str_cons_app, IH. Qed.

Lemma string_app_nil (a : string) : a +:+ "" = a.
Proof. induction a as [|x a IH]; [done|]. by rewrite str_cons_app, IH. Qed.

Lemma string_app_length (a b : string) : String.length (a +:+ b) = String.length a + String.length b.
Proof. induction a as [|x a IH]; [done|]. rewrite str_cons_app. cbn. by rewrite IH. Qed.

Lemma concat_comma_cons (x y : string) l :
  String.concat "," (x :: y :: l) = x +:+ "," +:+ String.concat "," (y :: l).
Proof. reflexivity. Qed.

(** ** UTF-8 *)
Lemma ascii_byte c : byteZ (byte_of_ascii c) = ascii_Z c.
Proof. by destruct c as [[] [] [] [] [] [] [] []]. Qed.

Lemma bytes_of_String c s : bytes_of_string (String c s) = byte_of_ascii c :: bytes_of_string s.
Proof. reflexivity. Qed.

Lemma utf8_in_ascii lo hi c : utf8_in lo hi (byte_of_ascii c) = ascii_in lo hi c.
Proof. unfold utf8_in, ascii_in. by rewrite ascii_byte. Qed.

Section utf8_ind.
Variable P : string → Prop.
Hypothesis HNil : P "".
Hypothesis HOne : ∀ c s, (ascii_Z c < 128)%Z → utf8_ValidString s = true → P s → P (String c s).
Hypothesis HTwo : ∀ c c1 s, runeSize (String c (String c1 "")) = 2 → utf8_ValidString s = true →
  P s → P (String c (String c1 s)).
Hypothesis HThree : ∀ c c1 c2 s, runeSize (String c (String c1 (String c2 ""))) = 3 →
  utf8_ValidString s = true → P s → P (String c (String c1 (String c2 s))).
Hypothesis HFour : ∀ c c1 c2 c3 s, runeSize (String c (String c1 (String c2 (String c3 "")))) = 4 →
  utf8_ValidString s = true → P s → P (String c (String c1 (String c2 (String c3 s)))).

Lemma utf8_string_ind s : utf8_ValidString s = true → P s.
Proof.
  remember (String.length s) as n eqn:Hn. assert (String.length s <= n) as Hle by lia. clear Hn.
  revert s Hle. induction n as [|n IH]; intros [|c s] Hle Hv; cbn in Hle; try done; try lia.
  unfold utf8_ValidString in Hv. rewrite bytes_of_String in Hv. cbn [utf8_Valid] in Hv.
  destruct (utf8_in 0 127 (byte_of_ascii c)) eqn:E0.
  { rewrite utf8_in_ascii in E0. unfold ascii_in in E0. apply HOne; [lia|done|]. apply IH; [lia|done]. }
  destruct s as [|c1 s]; [done|]. cbn in Hle. rewrite bytes_of_String in Hv.
  destruct (utf8_in 194 223 (byte_of_ascii c)) eqn:E1.
  { apply andb_true_iff in Hv as [H1 Hv]. apply HTwo; [|done|apply IH; [lia|done]].
    unfold runeSize. rewrite !bytes_of_String, E1, H1. done. }
  destruct s as [|c2 s]; [done|]. cbn in Hle. rewrite bytes_of_String in Hv.
  destruct (utf8_in 224 239 (byte_of_ascii c)) eqn:E2.
  { apply andb_true_iff in Hv as [[H1 H2]%andb_true_iff Hv]. apply HThree; [|done|apply IH; [lia|done]].
    unfold runeSize. rewrite !bytes_of_String, E1, E2, H1, H2. done. }
  destruct s as [|c3 s]; [done|]. cbn in Hle. rewrite bytes_of_String in Hv.
  apply andb_true_iff in Hv as [H1 Hv]. apply HFour; [|done|apply IH; [lia|done]].
  unfold runeSize. rewrite !bytes_of_String, E1, E2. rewrite H1. done.
Qed.
End utf8_ind.

(** The bytes of a longer code point are no ASCII characters. *)
Lemma runeSize_high s n : runeSize s = S n →
  Forall (λ c, (128 <= ascii_Z c)%Z) (take (S n) (String.list_ascii_of_string s)).
Proof.
  unfold runeSize. destruct s as [|c [|c1 s]]; [done..|].
  destruct s as [|c2 [|c3 s]]; rewrite !bytes_of_String, ?utf8_in_ascii, ?ascii_byte; unfold ascii_in;
    cbn [String.list_ascii_of_string bytes_of_string String.list_byte_of_string map];
    intros Hr; repeat (case_match; try discriminate Hr); injection Hr as <-; cbn [take];
    repeat constructor; lia.
Qed.

(** It is decided by its own bytes, and what follows is checked next. *)
Lemma runeSize_app s n t : runeSize s = S n → String.length s = S n →
  runeSize (s +:+ t) = S n ∧ utf8_ValidString (s +:+ t) = utf8_ValidString t.
Proof.
  intros Hr Hl. pose proof (runeSize_high s n Hr) as Hhigh.
  destruct s as [|c s]; [done|]. apply Forall_inv in Hhigh.
  assert (ascii_in 0 127 c = false) as H0 by (unfold ascii_in; lia).
  unfold utf8_ValidString, runeSize in *.
  destruct s as [|c1 [|c2 [|c3 s]]]; try done; rewrite ?str_cons_app, ?bytes_of_String in *;
    cbn [utf8_Valid bytes_of_string String.list_byte_of_string map String.append] in *;
    change (String.list_byte_of_string t) with (bytes_of_string t);
    rewrite ?utf8_in_ascii, H0 in *.
  - destruct (ascii_in 194 223 c); [|done]. by destruct (ascii_in 128 191 c1).
  - destruct (ascii_in 194 223 c); [by destruct (ascii_in 128 191 c1); simplify_eq|].
    destruct (ascii_in 224 239 c); [|done].
    destruct (ascii_in _ _ c1), (ascii_in 128 191 c2); done.
  - destruct s; cbn in Hl; [|by repeat case_match; simplify_eq].
    destruct (ascii_in 194 223 c); [by destruct (ascii_in 128 191 c1); simplify_eq|].
    destruct (ascii_in 224 239 c).
    { destruct (_ && _); simplify_eq. }
    destruct (ascii_in 240 244 c), (ascii_in _ _ c1), (ascii_in 128 191 c2), (ascii_in 128 191 c3);
      cbn in *; done.
Qed.

Lemma utf8_cons c s : (ascii_Z c < 128)%Z → utf8_ValidString (String c s) = utf8_ValidString s.
Proof.
  intros Hc. unfold utf8_ValidString. rewrite bytes_of_String. cbn [utf8_Valid].
  rewrite utf8_in_ascii. unfold ascii_in. replace (_ && _) with true; [done|].
  pose proof (byteZ_range (byte_of_ascii c)) as Hr. rewrite ascii_byte in Hr. lia.
Qed.

Lemma utf8_app s t : utf8_ValidString s = true → utf8_ValidString (s +:+ t) = utf8_ValidString t.
Proof.
  intros Hs. pattern s. apply utf8_string_ind; [done|..|done]; clear s Hs.
  - intros c s Hc _ IH. by rewrite str_cons_app, utf8_cons.
  - intros c c1 s Hr _ IH. rewrite <-IH. by apply (runeSize_app (String c (String c1 "")) 1).
  - intros c c1 c2 s Hr _ IH. rewrite <-IH. by apply (runeSize_app (String c (String c1 (String c2 ""))) 2).
  - intros c c1 c2 c3 s Hr _ IH. rewrite <-IH.
    by apply (runeSize_app (String c (String c1 (String c2 (String c3 "")))) 3).
Qed.

(** ** Strings read back *)
Definition readsAs (c : ascii) (text : string) : Prop := ∀ x,
  readString (text +:+ x) = ('(t, r) ← readString x; Some (String c t, r)).

Lemma escapeByte_reads c : (ascii_Z c < 128)%Z → readsAs c (escapeByte c).
Proof. intros Hc x. destruct c as [[] [] [] [] [] [] [] []]; first [reflexivity | done]. Qed.

Lemma readString_high c x : (128 <= ascii_Z c)%Z →
  readString (String c x) = ('(t, r) ← readString x; Some (String c t, r)).
Proof. intros Hc. destruct c as [[] [] [] [] [] [] [] []]; first [reflexivity | done]. Qed.

Lemma separator_reads c c1 c2 x : isLineSeparator c c1 c2 = true →
  readString ("\u202" +:+ String (hex_digit (ascii_Z c2 mod 16)) x) =
    ('(t, r) ← readString x; Some (String c (String c1 (String c2 t)), r)).
Proof.
  unfold isLineSeparator. rewrite !andb_true_iff, orb_true_iff, !Z.eqb_eq. intros ((H0 & H1) & H2).
  assert (∀ a n, ascii_Z a = n → a = Z_ascii n) as Hz.
  { intros a n <-. unfold Z_ascii, ascii_Z. by rewrite N2Z.id, ascii_N_embedding. }
  apply Hz in H0, H1. destruct H2 as [H2|H2]; apply Hz in H2; subst; reflexivity.
Qed.

(** The first code point of a text, of several bytes, in front of the rest. *)
Ltac first_rune Hr :=
  match goal with |- context [quoteLoop (String ?c ?s)] =>
    let Hr' := fresh in
    cbn [quoteLoop]; pose proof (runeSize_high _ _ Hr) as Hr';
    repeat apply Forall_cons in Hr' as [? Hr'];
    rewrite (proj2 (Z.ltb_ge _ _)) by done
  end;
  match goal with |- context [runeSize ?x] =>
    let E := fresh in
    pose proof (proj1 (runeSize_app _ _ _ Hr eq_refl : runeSize x = _ ∧ _)) as E; rewrite E; clear E
  end.

Lemma readString_quote s r : utf8_ValidString s = true →
  readString (quoteLoop s +:+ String "034" r) = Some (s, r).
Proof.
  intros Hs. pattern s. apply utf8_string_ind; [done|..|done]; clear s Hs.
  - intros c s Hc _ IH. cbn [quoteLoop]. rewrite (proj2 (Z.ltb_lt _ _)) by done.
    rewrite string_app_assoc, escapeByte_reads by done. by rewrite IH.
  - intros c c1 s Hr _ IH. first_rune Hr.
    rewrite !str_cons_app, !readString_high by done. by rewrite IH.
  - intros c c1 c2 s Hr _ IH. first_rune Hr.
    destruct (isLineSeparator c c1 c2) eqn:El.
    { etransitivity; [apply (separator_reads c c1 c2 (quoteLoop s +:+ String "034" r) El)|].
      by rewrite IH. }
    rewrite !str_cons_app, !readString_high by done. by rewrite IH.
  - intros c c1 c2 c3 s Hr _ IH. first_rune Hr.
    rewrite !str_cons_app, !readString_high by done. by rewrite IH.
Qed.

Lemma foldr_and {A} (f : A → Prop) l : foldr (λ x P, f x ∧ P) True l ↔ Forall f l.
Proof. induction l as [|x l IH]; cbn; [split; [constructor|done]|]. by rewrite Forall_cons, IH. Qed.

(** *** Integers *)
Definition stops (r : string) : bool :=
  match r with
  | EmptyString => true
  | String c _ => Ascii.eqb c "," || Ascii.eqb c "]" || Ascii.eqb c "}"
  end.

Lemma spanDigits_uint d r : stops r = true →
  spanDigits (NilEmpty.string_of_uint d +:+ r) = (NilEmpty.string_of_uint d, r).
Proof.
  intros Hr. induction d as [|d IH|d IH|d IH|d IH|d IH|d IH|d IH|d IH|d IH|d IH];
    [|cbn [NilEmpty.string_of_uint]; rewrite str_cons_app; cbn [spanDigits]; by rewrite IH..].
  destruct r as [|c r]; [done|]. cbn in Hr |- *. rewrite !orb_true_iff, !Ascii.eqb_eq in Hr.
  by destruct Hr as [[-> | ->]| ->].
Qed.

(** What [FormatUint] writes: a zero, or digits that do not start with one. *)
Lemma FormatUint_shape z : FormatUint z = "0" ∨
  ∃ d, FormatUint z = NilEmpty.string_of_uint d ∧ Decimal.nzhead d = d ∧ d ≠ Decimal.Nil.
Proof.
  unfold FormatUint. set (n := Z.to_N z).
  assert (Decimal.unorm (N.to_uint n) = N.to_uint n) as E
    by (by rewrite <-(DecimalN.Unsigned.to_of (N.to_uint n)), DecimalN.Unsigned.of_to).
  rewrite <-E. unfold Decimal.unorm.
  destruct (Decimal.nzhead (N.to_uint n)) eqn:Hd; [by left|..]; right;
    (eexists; split; [reflexivity|]; split; [|done]); rewrite <-Hd; apply DecimalFacts.nzhead_involutive.
Qed.

Lemma readUnsigned_FormatUint z r : stops r = true →
  readUnsigned (FormatUint z +:+ r) = Some (FormatUint z, r).
Proof.
  intros Hr. destruct (FormatUint_shape z) as [->|(d & -> & Hd & Hn)].
  { done. }
  assert (readUnsigned (NilEmpty.string_of_uint d +:+ r) = readDigits (NilEmpty.string_of_uint d +:+ r)) as ->.
  { destruct d; try done. exfalso. cbn in Hd.
    pose proof (DecimalFacts.nb_digits_nzhead d) as Hl. rewrite Hd in Hl. cbn in Hl. lia. }
  unfold readDigits. rewrite spanDigits_uint by done. by destruct d.
Qed.

Lemma readMagnitude_FormatUint z r : stops r = true →
  readMagnitude (FormatUint z +:+ r) = Some (FormatUint z, r).
Proof.
  intros Hr. unfold readMagnitude. rewrite readUnsigned_FormatUint by done. cbn [mbind option_bind].
  assert (readFraction r = Some ("", r)) as ->.
  { destruct r as [|c r]; [done|]. cbn in Hr. rewrite !orb_true_iff, !Ascii.eqb_eq in Hr.
    by destruct Hr as [[-> | ->]| ->]. }
  cbn [mbind option_bind]. assert (readExponent r = Some ("", r)) as ->.
  { destruct r as [|c r]; [done|]. cbn in Hr. rewrite !orb_true_iff, !Ascii.eqb_eq in Hr.
    by destruct Hr as [[-> | ->]| ->]. }
  cbn [mbind option_bind]. by rewrite !string_app_nil.
Qed.

Lemma FormatUint_digit z : ∃ c s, FormatUint z = String c s ∧ isDigit c = true.
Proof.
  destruct (FormatUint_shape z) as [->|(d & -> & _ & Hn)]; [eauto|]. destruct d; [done|..]; cbn; eauto.
Qed.

Lemma readNumber_FormatInt z r : stops r = true →
  readNumber (FormatInt z +:+ r) = Some (FormatInt z, r).
Proof.
  intros Hr. unfold FormatInt. destruct (z <? 0)%Z.
  { rewrite str_cons_app. cbn [readNumber]. by rewrite readMagnitude_FormatUint. }
  destruct (FormatUint_digit z) as (c & s & E & Hc).
  assert (readNumber (FormatUint z +:+ r) = readMagnitude (FormatUint z +:+ r)) as ->.
  { rewrite E, str_cons_app. destruct c as [[] [] [] [] [] [] [] []]; done. }
  by apply readMagnitude_FormatUint.
Qed.

Lemma readLexeme_integer z r c s : stops r = true → FormatInt z +:+ r = String c s →
  isSpace c = false ∧ readLexeme c s = Some (LNumber (FormatInt z), r).
Proof.
  intros Hr E. pose proof (readNumber_FormatInt z r Hr) as Hn. rewrite E in Hn.
  assert (c = "-"%char ∨ isDigit c = true) as Hc.
  { unfold FormatInt in E. destruct (z <? 0)%Z.
    - rewrite str_cons_app in E. injection E as <- _. by left.
    - destruct (FormatUint_digit z) as (c' & s' & E' & Hd). rewrite E', str_cons_app in E.
      injection E as <- _. by right. }
  destruct Hc as [->|Hc].
  - split; [done|]. unfold readLexeme. cbn [punctuation Ascii.eqb Bool.eqb readScalar]. by rewrite Hn.
  - destruct c as [[] [] [] [] [] [] [] []]; try done; (split; [done|]);
      unfold readLexeme; cbn [punctuation Ascii.eqb Bool.eqb readScalar]; by rewrite Hn.
Qed.

(** *** Lexemes of printed values *)
(** A text stands for lexemes: whatever follows that does not run on into it,
    and with whatever fuel that is enough for both, they are read first. *)
Definition writes (text : string) (ls : list lexeme) : Prop := ∀ fuel r,
  stops r = true → String.length (text +:+ r) <= fuel →
  ∃ fuel', String.length r <= fuel' ∧ lexLoop fuel (text +:+ r) = ls ++ lexLoop fuel' r.

Lemma lexLoop_step fuel c s l r : isSpace c = false → readLexeme c s = Some (l, r) →
  lexLoop (S fuel) (String c s) = l :: lexLoop fuel r.
Proof. intros Hs Hl. cbn [lexLoop]. by rewrite Hs, Hl. Qed.

Lemma quote_writes s fuel r : utf8_ValidString s = true → String.length (quote s +:+ r) <= fuel →
  ∃ fuel', String.length r <= fuel' ∧ lexLoop fuel (quote s +:+ r) = LString s :: lexLoop fuel' r.
Proof.
  intros Hs Hf. unfold quote in *. rewrite str_cons_app, string_app_assoc in *.
  destruct fuel as [|fuel]; [cbn in Hf; lia|]. exists fuel. split.
  { cbn in Hf. rewrite !string_app_length in Hf. cbn in Hf. lia. }
  apply lexLoop_step; [done|]. unfold readLexeme. cbn [punctuation Ascii.eqb Bool.eqb].
  change (String "034" "" +:+ r) with (String "034" r). by rewrite readString_quote.
Qed.

Lemma integer_writes z : writes (FormatInt z) [LNumber (FormatInt z)].
Proof.
  intros fuel r Hr Hf. destruct (FormatInt z +:+ r) as [|c s] eqn:E.
  { pose proof (readNumber_FormatInt z r Hr) as Hn. rewrite E in Hn. discriminate Hn. }
  destruct (readLexeme_integer _ _ _ _ Hr E) as [Hs Hl].
  destruct fuel as [|fuel]; [cbn in Hf; lia|]. exists fuel. split; [|by apply lexLoop_step].
  assert (String.length (FormatInt z) ≠ 0) as H0.
  { unfold FormatInt. destruct (z <? 0)%Z; [done|]. destruct (FormatUint_digit z) as (? & ? & -> & _). done. }
  rewrite <-E, string_app_length in Hf. lia.
Qed.

(** Items separated by commas, before a closing bracket. *)
Lemma separated_writes {A} (text : A → string) (ls : A → list lexeme) l :
  Forall (λ x, writes (text x) (ls x)) l → ∀ fuel r, stops r = true →
  String.length (String.concat "," (map text l) +:+ r) <= fuel →
  ∃ fuel', String.length r <= fuel' ∧
    lexLoop fuel (String.concat "," (map text l) +:+ r) = separated (map ls l) ++ lexLoop fuel' r.
Proof.
  induction 1 as [|x l Hx _ IH]; intros fuel r Hr Hf; [by exists fuel|].
  destruct l as [|y l]; [by apply Hx|]. cbn [map] in *. rewrite concat_comma_cons in *.
  rewrite !string_app_assoc in *.
  destruct (Hx fuel _ (eq_refl : stops ("," +:+ _) = true) Hf) as (fuel1 & Hf1 & ->).
  change ("," +:+ ?s) with (String "," s) in *. destruct fuel1 as [|fuel1]; [cbn in Hf1; lia|].
  rewrite (lexLoop_step _ _ _ LComma (String.concat "," (text y :: map text l) +:+ r)) by done.
  destruct (IH fuel1 r Hr (le_S_n _ _ Hf1)) as (fuel2 & Hf2 & E). exists fuel2. split; [done|].
  rewrite E. change (separated (ls x :: ls y :: map ls l)) with (ls x ++ LComma :: separated (ls y :: map ls l)).
  by rewrite <-app_assoc.
Qed.

Lemma punct_writes c l text ls fuel r : isSpace c = false → punctuation c = Some l →
  (∀ fuel, String.length (text +:+ r) <= fuel →
     ∃ fuel', String.length r <= fuel' ∧ lexLoop fuel (text +:+ r) = ls ++ lexLoop fuel' r) →
  String.length (String c text +:+ r) <= fuel →
  ∃ fuel', String.length r <= fuel' ∧ lexLoop fuel (String c text +:+ r) = (l :: ls) ++ lexLoop fuel' r.
Proof.
  intros Hs Hp Ht Hf. rewrite str_cons_app in *. destruct fuel as [|fuel]; [cbn in Hf; lia|].
  destruct (Ht fuel (le_S_n _ _ Hf)) as (fuel' & ? & E). exists fuel'. split; [done|].
  rewrite (lexLoop_step fuel c _ l (text +:+ r)); [by rewrite E|done|]. unfold readLexeme. by rewrite Hp.
Qed.

Lemma member_writes k v : utf8_ValidString k = true → writes (print v) (lexemes v) →
  writes (quote k +:+ ":" +:+ print v) (LString k :: LColon :: lexemes v).
Proof.
  intros Hk Hv fuel r Hr Hf. rewrite string_app_assoc in *.
  destruct (quote_writes k fuel _ Hk Hf) as (fuel1 & Hf1 & ->).
  rewrite string_app_assoc in *. change (":" +:+ ?s) with (String ":" s) in *.
  destruct fuel1 as [|fuel1]; [cbn in Hf1; lia|].
  rewrite (lexLoop_step _ _ _ LColon (print v +:+ r)) by done.
  destruct (Hv fuel1 r Hr (le_S_n _ _ Hf1)) as (fuel2 & Hf2 & ->). by exists fuel2.
Qed.

Lemma forallb_Forall {A} (f : A → bool) l : forallb f l = true ↔ Forall (λ x, f x = true) l.
Proof. rewrite forallb_forall, Forall_forall. setoid_rewrite <-list_elem_of_In. done. Qed.

Lemma print_writes v : texts_valid v = true → integers v → writes (print v) (lexemes v).
Proof.
  induction v as [|b|t|s|l IH|l IH] using json_nested_ind; cbn [texts_valid integers].
  - intros _ _ [|fuel] r _ Hf; rewrite string_app_length in Hf; cbn in Hf; [lia|].
    exists fuel. split; [lia|done].
  - intros _ _ [|fuel] r _ Hf; rewrite string_app_length in Hf; destruct b; cbn in Hf; try lia;
      (exists fuel; split; [lia|done]).
  - intros _ [z ->]. apply integer_writes.
  - intros Hs _ fuel r _ Hf. by apply quote_writes.
  - intros Ht Hi fuel r Hr Hf. cbn [print lexemes] in *. rewrite foldr_and in Hi.
    rewrite forallb_Forall in Ht. change ("[" +:+ ?s) with (String "[" s) in *.
    apply (punct_writes "[" LArrayOpen); [done..| |done]. clear fuel Hf. intros fuel Hf.
    rewrite string_app_assoc in *. change ("]" +:+ r) with (String "]" r) in *.
    destruct (separated_writes print lexemes l) with (fuel := fuel) (r := String "]" r)
      as (fuel' & Hf' & ->); [|done|done|].
    { rewrite Forall_forall in *. auto. }
    destruct fuel' as [|fuel']; [cbn in Hf'; lia|]. exists fuel'. split; [exact (le_S_n _ _ Hf')|].
    by rewrite <-app_assoc.
  - intros Ht Hi fuel r Hr Hf. cbn [print lexemes] in *. rewrite foldr_and in Hi.
    rewrite forallb_Forall in Ht. change ("{" +:+ ?s) with (String "{" s) in *.
    apply (punct_writes "{" LObjectOpen); [done..| |done]. clear fuel Hf. intros fuel Hf.
    rewrite string_app_assoc in *. change ("}" +:+ r) with (String "}" r) in *.
    destruct (separated_writes (λ kv, quote kv.1 +:+ ":" +:+ print kv.2)
      (λ kv, LString kv.1 :: LColon :: lexemes kv.2) l) with (fuel := fuel) (r := String "}" r)
      as (fuel' & Hf' & ->); [|done|done|].
    { rewrite Forall_forall in *. intros kv Hkv. pose proof (Ht kv Hkv) as [Hk Hv]%andb_true_iff.
      apply member_writes; auto. }
    destruct fuel' as [|fuel']; [cbn in Hf'; lia|]. exists fuel'. split; [exact (le_S_n _ _ Hf')|].
    by rewrite <-app_assoc.
Qed.

(** A printed value reads back as its own lexemes. *)
Theorem lex_print v : texts_valid v = true → integers v → lex (print v) = lexemes v.
Proof.
  intros Ht Hi. unfold lex. destruct (print_writes v Ht Hi (String.length (print v)) "") as (n & _ & E);
    [done|by rewrite string_app_nil|]. rewrite string_app_nil in E. rewrite E. destruct n; apply app_nil_r.
Qed.

(** *** Printed values are UTF-8 *)
Lemma utf8_low s : Forall (λ c, (ascii_Z c < 128)%Z) (String.list_ascii_of_string s) →
  utf8_ValidString s = true.
Proof.
  induction s as [|c s IH]; [done|]. intros [Hc Hs]%Forall_cons. rewrite utf8_cons by done. by apply IH.
Qed.

Lemma utf8_escapeByte c : (ascii_Z c < 128)%Z → utf8_ValidString (escapeByte c) = true.
Proof. intros Hc. destruct c as [[] [] [] [] [] [] [] []]; first [reflexivity|done]. Qed.

Lemma utf8_quote s : utf8_ValidString s = true → utf8_ValidString (quote s) = true.
Proof.
  intros Hs. unfold quote. rewrite utf8_cons by done.
  assert (utf8_ValidString (quoteLoop s) = true) as Hq; [|by rewrite utf8_app].
  pattern s. apply utf8_string_ind; [done|..|done]; clear s Hs.
  - intros c s Hc _ IH. cbn [quoteLoop]. rewrite (proj2 (Z.ltb_lt _ _)) by done.
    by rewrite utf8_app by by apply utf8_escapeByte.
  - intros c c1 s Hr _ IH. first_rune Hr.
    by rewrite (proj2 (runeSize_app _ _ (quoteLoop s) Hr eq_refl) : utf8_ValidString (String c (String c1 _)) = _).
  - intros c c1 c2 s Hr _ IH. first_rune Hr. destruct (isLineSeparator c c1 c2) eqn:El.
    + rewrite utf8_app by done. rewrite utf8_cons; [done|].
      unfold isLineSeparator in El. rewrite !andb_true_iff, orb_true_iff, !Z.eqb_eq in El.
      by destruct El as (_ & [-> | ->]).
    + by rewrite (proj2 (runeSize_app _ _ (quoteLoop s) Hr eq_refl)
        : utf8_ValidString (String c (String c1 (String c2 _))) = _).
  - intros c c1 c2 c3 s Hr _ IH. first_rune Hr.
    by rewrite (proj2 (runeSize_app _ _ (quoteLoop s) Hr eq_refl)
        : utf8_ValidString (String c (String c1 (String c2 (String c3 _)))) = _).
Qed.

Lemma utf8_uint d : utf8_ValidString (NilEmpty.string_of_uint d) = true.
Proof. induction d; [done|cbn [NilEmpty.string_of_uint]; by rewrite utf8_cons..]. Qed.

Lemma utf8_FormatUint z : utf8_ValidString (FormatUint z) = true.
Proof. destruct (FormatUint_shape z) as [->|(d & -> & _)]; [done|apply utf8_uint]. Qed.

Lemma utf8_FormatInt z : utf8_ValidString (FormatInt z) = true.
Proof. unfold FormatInt. destruct (z <? 0)%Z; [rewrite utf8_cons by done|]; apply utf8_FormatUint. Qed.

Lemma utf8_concat l : Forall (λ s, utf8_ValidString s = true) l →
  utf8_ValidString (String.concat "," l) = true.
Proof.
  induction 1 as [|x l Hx Hl IH]; [done|]. destruct l as [|y l]; [done|].
  rewrite concat_comma_cons, !utf8_app; done.
Qed.

Lemma utf8_print v : texts_valid v = true → integers v → utf8_ValidString (print v) = true.
Proof.
  induction v as [|b|t|s|l IH|l IH] using json_nested_ind; cbn [texts_valid integers print].
  - done.
  - by destruct b.
  - intros _ [z ->]. apply utf8_FormatInt.
  - intros Hs _. by apply utf8_quote.
  - rewrite forallb_Forall, foldr_and. intros Ht Hi. rewrite !utf8_app; [done| |done].
    apply utf8_concat, Forall_fmap, Forall_forall. rewrite !Forall_forall in *. cbn. auto.
  - rewrite forallb_Forall, foldr_and. intros Ht Hi. rewrite !utf8_app; [done| |done].
    apply utf8_concat, Forall_fmap, Forall_forall. rewrite !Forall_forall in *. intros kv Hkv.
    change (utf8_ValidString (quote kv.1 +:+ ":" +:+ print kv.2) = true). pose proof (Ht kv Hkv) as [Hk Hv]%andb_true_iff.
    rewrite !utf8_app; [auto|done|by apply utf8_quote].
Qed.

(** ** Lexemes parse back *)
Lemma separated_cons x items : separated (x :: items) = x ++ concat (map (cons LComma) items).
Proof.
  revert x. induction items as [|y items IH]; intros x; [cbn; by rewrite app_nil_r|].
  change (separated (x :: y :: items)) with (x ++ LComma :: separated (y :: items)). by rewrite IH.
Qed.

(** A member of an object. *)
Definition member (kv : string * json) : list lexeme := LString kv.1 :: LColon :: lexemes kv.2.

Definition parses (v : json) : Prop := ∀ fuel rest, length (lexemes v) <= fuel →
  parseValue fuel (lexemes v ++ rest) = Some (v, rest).

Lemma lexemes_head v : ∃ x xs, lexemes v = x :: xs ∧ x ≠ LArrayClose ∧ x ≠ LObjectClose.
Proof. destruct v; cbn; eauto. Qed.

Lemma parses_elements v vs : Forall parses (v :: vs) → ∀ fuel rest,
  length (separated (map lexemes (v :: vs))) < fuel →
  parseElements fuel (separated (map lexemes (v :: vs)) ++ LArrayClose :: rest) = Some (v :: vs, rest).
Proof.
  revert v. induction vs as [|w vs IH]; intros v Hv [|fuel] rest Hf; try lia; cbn [parseElements];
    apply Forall_cons in Hv as [Hv Hvs].
  - cbn [map separated] in *. rewrite Hv by lia. done.
  - change (separated (map lexemes (v :: w :: vs))) with
      (lexemes v ++ LComma :: separated (map lexemes (w :: vs))) in *.
    rewrite length_app in Hf. cbn [length] in Hf. rewrite <-app_assoc, Hv by lia.
    cbn [mbind option_bind app]. by rewrite IH by (done || lia).
Qed.

Lemma parses_members kv kvs : Forall (λ kv, parses kv.2) (kv :: kvs) → ∀ fuel rest,
  length (separated (map member (kv :: kvs))) < fuel →
  parseMembers fuel (separated (map member (kv :: kvs)) ++ LObjectClose :: rest) = Some (kv :: kvs, rest).
Proof.
  revert kv. induction kvs as [|w kvs IH]; intros [k v] Hv [|fuel] rest Hf; try lia;
    apply Forall_cons in Hv as [Hv Hvs]; cbn [snd] in Hv.
  - change (separated (map member [(k, v)])) with (LString k :: LColon :: lexemes v) in *.
    cbn [app parseMembers length] in *. rewrite Hv by lia. done.
  - change (separated (map member ((k, v) :: w :: kvs))) with
      (LString k :: LColon :: lexemes v ++ LComma :: separated (map member (w :: kvs))) in *.
    cbn [length] in Hf. rewrite length_app in Hf. cbn [length] in Hf.
    cbn [app parseMembers]. rewrite <-app_assoc, Hv by lia.
    cbn [mbind option_bind app]. by rewrite IH by (done || lia).
Qed.

Lemma parse_value v : parses v.
Proof.
  induction v as [| | | |[|v vs] IH|[|kv kvs] IH] using json_nested_ind; intros [|fuel] rest Hf;
    try (cbn in Hf; lia); try done.
  - cbn [lexemes app]. cbn [lexemes length] in Hf. rewrite length_app in Hf. cbn [length] in Hf.
    assert (∀ l, parseValue (S fuel) (LArrayOpen :: lexemes v ++ l) =
      ('(vs, r) ← parseElements fuel (lexemes v ++ l); Some (JArray vs, r))) as Hp.
    { intros l. destruct (lexemes_head v) as (x & xs & -> & Hx & _). by destruct x. }
    pose proof (parses_elements v vs IH fuel rest ltac:(lia)) as E. cbn [map] in *.
    rewrite separated_cons in *. rewrite <-!app_assoc in *. cbn [app] in *. by rewrite Hp, E.
  - change (lexemes (JObject (kv :: kvs))) with
      (LObjectOpen :: separated (map member (kv :: kvs)) ++ [LObjectClose]) in *.
    cbn [length] in Hf. rewrite length_app in Hf. cbn [length] in Hf.
    pose proof (parses_members kv kvs IH fuel rest ltac:(lia)) as E. cbn [map] in *.
    rewrite separated_cons in *. rewrite <-!app_assoc in *. cbn [app parseValue member] in *. rewrite <-!app_assoc. cbn [app]. by rewrite E.
Qed.

Lemma parse_lexemes v rest : parse (lexemes v ++ rest) = Some (v, rest).
Proof. unfold parse. apply parse_value. rewrite length_app. lia. Qed.
