(* ===== verification/Canonical.v ===== *)
(** * Canonical: the canonical JSON document of an entry (canonical.go)

    The types are the source's document structs, a pointer field an [option];
    [encodeCanonical...] and [decodeCanonical...] are its two halves between an
    entry and its document; [CanonicalText] has the document's JSON text, which
    [encoding/json] writes and reads by the field tags.  [CanonicalRoundtrip] says
    what decoding an encoded value gives: the value, unless it holds an empty byte
    string, which the encoder writes and the decoder refuses. *)
From Stdlib Require Import ZArith Lia Strings.Byte String.
From stdpp Require Import base list strings pretty.
From S2P Require Import Prelude Encoding Errors Xdr ModelSDK Runtime Examples Address Limits Arm.

Open Scope string_scope. Open Scope nat_scope. Open Scope list_scope.

Definition CanonicalJSONSchemaVersion : Z := 1.

(** ** Documents *)
Record canonicalText := mkText { UTF8 : option string; Base64 : option string }.

Record canonicalAddress := mkAddressDoc {
  Address_Type : string;
  Address_Account : string;
  Address_Contract : string;
  Address_XDR : string
}.

Record canonicalParts128 := mkParts128 { Hi : string; Lo : string }.
Record canonicalParts256 := mkParts256 {
  HiHi : string; HiLo : string; LoHi : string; LoLo : string
}.

Record canonicalExecutable := mkExecutableDoc {
  Executable_Type : string;
  Executable_WasmHash : option string;
  Executable_Owner : option canonicalAddress;
  Executable_Tag : option canonicalText
}.

(** A map entry is the pair of its key and its value. *)
Record canonicalInstanceOf (V : Type) := mkInstanceDoc {
  Instance_Executable : canonicalExecutable;
  Instance_Storage : option (list (V * V))
}.
Arguments mkInstanceDoc {V} _ _.
Arguments Instance_Executable {V} _.
Arguments Instance_Storage {V} _.

Inductive canonicalScVal := mkScValDoc {
  Doc_Type : string;
  Doc_Bool : option bool;
  Doc_U32 : option Z;
  Doc_I32 : option Z;
  Doc_U64 : option string;
  Doc_I64 : option string;
  Doc_Timepoint : option string;
  Doc_Duration : option string;
  Doc_U128 : option canonicalParts128;
  Doc_I128 : option canonicalParts128;
  Doc_U256 : option canonicalParts256;
  Doc_I256 : option canonicalParts256;
  Doc_Bytes : option string;
  Doc_String : option canonicalText;
  Doc_Symbol : option canonicalText;
  Doc_Vec : option (list canonicalScVal);
  Doc_Map : option (list (canonicalScVal * canonicalScVal));
  Doc_Nil : bool;
  Doc_Address : option canonicalAddress;
  Doc_Instance : option (canonicalInstanceOf canonicalScVal);
  Doc_XDR : string;
  Doc_ExecutableTag : option canonicalText
}.

Abbreviation canonicalMapEntry := (prod canonicalScVal canonicalScVal).
Abbreviation canonicalInstance := (canonicalInstanceOf canonicalScVal).

Record canonicalPreimage := mkPreimageDoc {
  IdPreimage_Type : string;
  IdPreimage_Address : option canonicalAddress;
  IdPreimage_Salt : option string;
  IdPreimage_XDR : string
}.

Record canonicalFunction := mkFunctionDoc {
  Function_Type : string;
  Function_ContractAddress : option canonicalAddress;
  Function_FunctionName : option canonicalText;
  Function_Args : option (list canonicalScVal);
  Function_ContractIDPreimage : option canonicalPreimage;
  Function_Executable : option canonicalExecutable;
  Function_ConstructorArgs : option (list canonicalScVal)
}.

Inductive canonicalInvocation :=
| mkInvocationDoc (Function : canonicalFunction) (SubInvocations : list canonicalInvocation).

Inductive canonicalDelegate :=
| mkDelegateDoc (Address : canonicalAddress) (Signature : canonicalScVal)
    (Nested : list canonicalDelegate).

Record canonicalCredential := mkCredentialDoc {
  Cred_Type : string;
  Cred_Address : option canonicalAddress;
  Cred_Nonce : option string;
  Cred_SignatureExpirationLedger : option Z;
  Cred_Signature : option canonicalScVal;
  Cred_Delegates : option (list canonicalDelegate)
}.

Record canonicalEntry := mkEntryDoc {
  SchemaVersion : Z;
  Entry_Credentials : canonicalCredential;
  Entry_RootInvocation : canonicalInvocation
}.

(** ** Struct literals of a value with its type and one field *)
Definition doc_void (ty : string) : canonicalScVal :=
  mkScValDoc ty None None None None None None None None None None None None None None None None
    false None None "" None.
Definition doc_Bool ty (v : bool) : canonicalScVal :=
  mkScValDoc ty (Some v) None None None None None None None None None None None None None None None
    false None None "" None.
Definition doc_U32 ty (v : Z) : canonicalScVal :=
  mkScValDoc ty None (Some v) None None None None None None None None None None None None None None
    false None None "" None.
Definition doc_I32 ty (v : Z) : canonicalScVal :=
  mkScValDoc ty None None (Some v) None None None None None None None None None None None None None
    false None None "" None.
Definition doc_U64 ty (v : string) : canonicalScVal :=
  mkScValDoc ty None None None (Some v) None None None None None None None None None None None None
    false None None "" None.
Definition doc_I64 ty (v : string) : canonicalScVal :=
  mkScValDoc ty None None None None (Some v) None None None None None None None None None None None
    false None None "" None.
Definition doc_Timepoint ty (v : string) : canonicalScVal :=
  mkScValDoc ty None None None None None (Some v) None None None None None None None None None None
    false None None "" None.
Definition doc_Duration ty (v : string) : canonicalScVal :=
  mkScValDoc ty None None None None None None (Some v) None None None None None None None None None
    false None None "" None.
Definition doc_U128 ty v : canonicalScVal :=
  mkScValDoc ty None None None None None None None (Some v) None None None None None None None None
    false None None "" None.
Definition doc_I128 ty v : canonicalScVal :=
  mkScValDoc ty None None None None None None None None (Some v) None None None None None None None
    false None None "" None.
Definition doc_U256 ty v : canonicalScVal :=
  mkScValDoc ty None None None None None None None None None (Some v) None None None None None None
    false None None "" None.
Definition doc_I256 ty v : canonicalScVal :=
  mkScValDoc ty None None None None None None None None None None (Some v) None None None None None
    false None None "" None.
Definition doc_Bytes ty (v : string) : canonicalScVal :=
  mkScValDoc ty None None None None None None None None None None None (Some v) None None None None
    false None None "" None.
Definition doc_String ty v : canonicalScVal :=
  mkScValDoc ty None None None None None None None None None None None None (Some v) None None None
    false None None "" None.
Definition doc_Symbol ty v : canonicalScVal :=
  mkScValDoc ty None None None None None None None None None None None None None (Some v) None None
    false None None "" None.
Definition doc_Vec ty v : canonicalScVal :=
  mkScValDoc ty None None None None None None None None None None None None None None (Some v) None
    false None None "" None.
Definition doc_Map ty v : canonicalScVal :=
  mkScValDoc ty None None None None None None None None None None None None None None None (Some v)
    false None None "" None.
Definition doc_Nil ty : canonicalScVal :=
  mkScValDoc ty None None None None None None None None None None None None None None None None
    true None None "" None.
Definition doc_Address ty v : canonicalScVal :=
  mkScValDoc ty None None None None None None None None None None None None None None None None
    false (Some v) None "" None.
Definition doc_Instance ty v : canonicalScVal :=
  mkScValDoc ty None None None None None None None None None None None None None None None None
    false None (Some v) "" None.
Definition doc_XDR ty (v : string) : canonicalScVal :=
  mkScValDoc ty None None None None None None None None None None None None None None None None
    false None None v None.
Definition doc_ExecutableTag ty v : canonicalScVal :=
  mkScValDoc ty None None None None None None None None None None None None None None None None
    false None None "" (Some v).

(** ** Encoding *)
(** An [xdr.Asset] is represented by its XDR encoding; which byte strings are
    one is the SDK's to say. *)
Class AssetCodec := { Asset_valid : bytes → bool }.

Section encode.
Context `{SDK} `{AssetCodec}.

(** [xdr.MarshalBase64] *)
Definition safeMarshalBase64 {T} `{XdrCodec T} (value : T) : result string :=
  base64_EncodeToString <$> MarshalBinary value.

Definition Asset_MarshalBinary (asset : bytes) : result bytes :=
  if Asset_valid asset then Ok asset else Err (EText "asset does not encode").

Definition encodeCanonicalText (value : string) : canonicalText :=
  if utf8_ValidString value then mkText (Some value) None
  else mkText None (Some (base64_EncodeToString (bytes_of_string value))).

Definition encodeCanonicalAddress (address : ScAddress) : result canonicalAddress :=
  _ ← (match address with
       | ScAddressTypeAccount None => Err (EText "account address arm has no account id")
       | ScAddressTypeContract None => Err (EText "contract address arm has no contract id")
       | _ => Ok tt
       end);
  match address, FormatAddress address with
  | ScAddressTypeAccount _, Ok rendered => Ok (mkAddressDoc "account" rendered "" "")
  | ScAddressTypeContract _, Ok rendered => Ok (mkAddressDoc "contract" "" rendered "")
  | _, _ =>
      encoded ← wrap "address" (safeMarshalBase64 address);
      Ok (mkAddressDoc "xdr" "" "" encoded)
  end.

Definition encodeCanonicalPreimage (preimage : ContractIdPreimage) : result canonicalPreimage :=
  match preimage with
  | ContractIdPreimageFromAddress None => Err (EText "from_address arm has no preimage")
  | ContractIdPreimageFromAddress (Some (a, salt)) =>
      address ← encodeCanonicalAddress a;
      Ok (mkPreimageDoc "from_address" (Some address) (Some (hex_EncodeToString salt)) "")
  | ContractIdPreimageFromAsset None => Err (EText "from_asset arm has no asset")
  | ContractIdPreimageFromAsset (Some asset) =>
      encoded ← wrap "from_asset" (base64_EncodeToString <$> Asset_MarshalBinary asset);
      Ok (mkPreimageDoc "from_asset" None None encoded)
  | ContractIdPreimageUnknown t =>
      Err (EText ("unknown contract id preimage type " +:+ pretty t))
  end.

Definition encodeCanonicalExecutable (executable : ContractExecutable)
    : result canonicalExecutable :=
  match executable with
  | ContractExecutableWasm None => Err (EText "wasm arm has no hash")
  | ContractExecutableWasm (Some hash) =>
      Ok (mkExecutableDoc "wasm" (Some (hex_EncodeToString hash)) None None)
  | ContractExecutableStellarAsset => Ok (mkExecutableDoc "stellar_asset" None None None)
  | ContractExecutableExternalRef None => Err (EText "external_ref arm has no reference")
  | ContractExecutableExternalRef (Some (a, tag)) =>
      owner ← encodeCanonicalAddress a;
      Ok (mkExecutableDoc "external_ref" None (Some owner) (Some (encodeCanonicalText tag)))
  | ContractExecutableUnknown t =>
      Err (EText ("unknown contract executable type " +:+ pretty t))
  end.

(** [encodeCanonicalMap] over an encoder of values. *)
Section encode_map.
Variable encode : ScVal → result canonicalScVal.
Definition encodeEntry (i : nat) (entry : ScVal * ScVal) : result canonicalMapEntry :=
  let '(k, v) := entry in
  key ← wrap ("map key " +:+ pretty i) (encode k);
  val ← wrap ("map value " +:+ pretty i) (encode v);
  Ok (key, val).
End encode_map.

(** [arm is empty] *)
Definition armOf {A} (name : string) (o : option A) : result A :=
  of_option o (EText (name +:+ " arm is empty")).

Fixpoint encodeCanonicalScVal (value : ScVal) (depth : Z) : result canonicalScVal :=
  _ ← checkTraversalDepth depth;
  let encodeCanonicalMap entries depth :=
    imapM_from (encodeEntry (λ v, encodeCanonicalScVal v depth)) 0 entries in
  match value with
  | ScvBool o => b ← armOf "bool" o; Ok (doc_Bool "bool" b)
  | ScvVoid => Ok (doc_void "void")
  | ScvLedgerKeyContractInstance => Ok (doc_void "ledger_key_contract_instance")
  | ScvU32 o => v ← armOf "u32" o; Ok (doc_U32 "u32" v)
  | ScvI32 o => v ← armOf "i32" o; Ok (doc_I32 "i32" v)
  | ScvU64 o => v ← armOf "u64" o; Ok (doc_U64 "u64" (FormatUint v))
  | ScvI64 o => v ← armOf "i64" o; Ok (doc_I64 "i64" (FormatInt v))
  | ScvTimepoint o => v ← armOf "timepoint" o; Ok (doc_Timepoint "timepoint" (FormatUint v))
  | ScvDuration o => v ← armOf "duration" o; Ok (doc_Duration "duration" (FormatUint v))
  | ScvU128 o =>
      '(hi, lo) ← armOf "u128" o;
      Ok (doc_U128 "u128" (mkParts128 (FormatUint hi) (FormatUint lo)))
  | ScvI128 o =>
      '(hi, lo) ← armOf "i128" o;
      Ok (doc_I128 "i128" (mkParts128 (FormatInt hi) (FormatUint lo)))
  | ScvU256 o =>
      '(a, b, c, d) ← armOf "u256" o;
      Ok (doc_U256 "u256"
            (mkParts256 (FormatUint a) (FormatUint b) (FormatUint c) (FormatUint d)))
  | ScvI256 o =>
      '(a, b, c, d) ← armOf "i256" o;
      Ok (doc_I256 "i256"
            (mkParts256 (FormatInt a) (FormatUint b) (FormatUint c) (FormatUint d)))
  | ScvBytes o => b ← armOf "bytes" o; Ok (doc_Bytes "bytes" (base64_EncodeToString b))
  | ScvString o => s ← armOf "string" o; Ok (doc_String "string" (encodeCanonicalText s))
  | ScvSymbol o => s ← armOf "symbol" o; Ok (doc_Symbol "symbol" (encodeCanonicalText s))
  | ScvVec None | ScvVec (Some None) => Ok (doc_Nil "vec")
  | ScvVec (Some (Some l)) =>
      items ← imapM_from (λ i item, wrap ("vec item " +:+ pretty i)
                (encodeCanonicalScVal item (depth + 1))) 0 l;
      Ok (doc_Vec "vec" items)
  | ScvMap None | ScvMap (Some None) => Ok (doc_Nil "map")
  | ScvMap (Some (Some l)) =>
      entries ← encodeCanonicalMap l (depth + 1)%Z; Ok (doc_Map "map" entries)
  | ScvAddress o =>
      a ← armOf "address" o; address ← encodeCanonicalAddress a;
      Ok (doc_Address "address" address)
  | ScvContractInstance None => Err (EText "contract_instance arm is empty")
  | ScvContractInstance (Some i) =>
      executable ← encodeCanonicalExecutable (Executable i);
      storage ← (match Storage i with
                 | None => Ok None
                 | Some l => entries ← encodeCanonicalMap l (depth + 1)%Z; Ok (Some entries)
                 end);
      Ok (doc_Instance "contract_instance" (mkInstanceDoc executable storage))
  | ScvExecutableTag o =>
      s ← armOf "executable_tag" o;
      Ok (doc_ExecutableTag "executable_tag" (encodeCanonicalText s))
  | ScvError o =>
      _ ← armOf "error" o; encoded ← wrap "error value" (safeMarshalBase64 value);
      Ok (doc_XDR "error" encoded)
  | ScvLedgerKeyNonce o =>
      _ ← armOf "ledger_key_nonce" o;
      encoded ← wrap "ledger key nonce" (safeMarshalBase64 value);
      Ok (doc_XDR "ledger_key_nonce" encoded)
  | ScvUnknown t => Err (EText ("unknown ScVal type " +:+ pretty t))
  end.

Definition encodeCanonicalScVals (values : list ScVal) (depth : Z)
    : result (list canonicalScVal) :=
  imapM_from (λ i value, wrap ("value " +:+ pretty i) (encodeCanonicalScVal value depth)) 0 values.

Definition encodeCanonicalFunction (function : SorobanAuthorizedFunction) (depth : Z)
    : result canonicalFunction :=
  match function with
  | FunctionContractFn None => Err (EText "contract_fn arm has no invocation")
  | FunctionContractFn (Some contract) =>
      address ← encodeCanonicalAddress (ContractAddress contract);
      let name := encodeCanonicalText (FunctionName contract) in
      args ← encodeCanonicalScVals (Args contract) (depth + 1);
      Ok (mkFunctionDoc "contract_fn" (Some address) (Some name) (Some args) None None None)
  | FunctionCreateContractHostFn None => Err (EText "create_contract_host_fn arm has no invocation")
  | FunctionCreateContractHostFn (Some create) =>
      preimage ← encodeCanonicalPreimage (CreateContract_ContractIdPreimage create);
      executable ← encodeCanonicalExecutable (CreateContract_Executable create);
      Ok (mkFunctionDoc "create_contract_host_fn" None None None (Some preimage)
            (Some executable) None)
  | FunctionCreateContractV2HostFn None =>
      Err (EText "create_contract_v2_host_fn arm has no invocation")
  | FunctionCreateContractV2HostFn (Some create) =>
      preimage ← encodeCanonicalPreimage (CreateContractV2_ContractIdPreimage create);
      executable ← encodeCanonicalExecutable (CreateContractV2_Executable create);
      args ← encodeCanonicalScVals (ConstructorArgs create) (depth + 1);
      Ok (mkFunctionDoc "create_contract_v2_host_fn" None None None (Some preimage)
            (Some executable) (Some args))
  | FunctionUnknown t => Err (EText ("unknown authorized function type " +:+ pretty t))
  end.

Fixpoint encodeCanonicalInvocation (invocation : SorobanAuthorizedInvocation) (depth : Z)
    : result canonicalInvocation :=
  match invocation with
  | mkInvocation f subs =>
      _ ← checkTraversalDepth depth;
      function ← encodeCanonicalFunction f (depth + 1);
      subs ← imapM_from (λ i sub, wrap ("sub-invocation " +:+ pretty i)
               (encodeCanonicalInvocation sub (depth + 1))) 0 subs;
      Ok (mkInvocationDoc function subs)
  end.

Fixpoint encodeCanonicalDelegate (depth : Z) (i : nat) (delegate : SorobanDelegateSignature)
    : result canonicalDelegate :=
  match delegate with
  | mkDelegateSignature a s n =>
      address ← wrap ("delegate " +:+ pretty i +:+ " address") (encodeCanonicalAddress a);
      signature ← wrap ("delegate " +:+ pretty i +:+ " signature")
                    (encodeCanonicalScVal s (depth + 1));
      nested ← wrap ("delegate " +:+ pretty i)
        (_ ← checkTraversalDepth (depth + 1);
         imapM_from (encodeCanonicalDelegate (depth + 1)) 0 n);
      Ok (mkDelegateDoc address signature nested)
  end.

Definition encodeCanonicalDelegates (delegates : list SorobanDelegateSignature) (depth : Z)
    : result (list canonicalDelegate) :=
  _ ← checkTraversalDepth depth;
  imapM_from (encodeCanonicalDelegate depth) 0 delegates.

Definition encodeCanonicalAddressCredentials (name : string)
    (credentials : SorobanAddressCredentials) (depth : Z) : result canonicalCredential :=
  address ← encodeCanonicalAddress (Address credentials);
  signature ← encodeCanonicalScVal (Signature credentials) (depth + 1);
  Ok (mkCredentialDoc name (Some address) (Some (FormatInt (Nonce credentials)))
        (Some (SignatureExpirationLedger credentials)) (Some signature) None).

Definition encodeCanonicalCredentials (credentials : SorobanCredentials) (depth : Z)
    : result canonicalCredential :=
  _ ← checkTraversalDepth depth;
  let t := Credentials_Type credentials in
  if (t =? CredentialsSourceAccount)%Z then
    Ok (mkCredentialDoc CredentialTypeSourceAccount None None None None None)
  else if (t =? CredentialsAddress)%Z || (t =? CredentialsAddressV2)%Z then
    let v2 := (t =? CredentialsAddressV2)%Z in
    let name := if v2 then CredentialTypeAddressV2 else CredentialTypeAddress in
    arm ← of_option (if v2 then Credentials_AddressV2 credentials
                     else Credentials_Address credentials)
            (EText (name +:+ " arm has no address credentials"));
    encodeCanonicalAddressCredentials name arm depth
  else if (t =? CredentialsAddressWithDelegates)%Z then
    delegates ← of_option (Credentials_AddressWithDelegates credentials)
                  (EText "address_with_delegates arm has no credentials");
    encoded ← encodeCanonicalAddressCredentials CredentialTypeAddressWithDelegates
                (AddressCredentials delegates) depth;
    _ ← checkTraversalDepth (depth + 1);
    nodes ← encodeCanonicalDelegates (Delegates delegates) (depth + 1);
    Ok (mkCredentialDoc (Cred_Type encoded) (Cred_Address encoded) (Cred_Nonce encoded)
          (Cred_SignatureExpirationLedger encoded) (Cred_Signature encoded) (Some nodes))
  else Err (EWrap ("unknown credentials type " +:+ pretty t) (ESentinel ErrUnsupportedCredentials)).

(** [MarshalCanonicalJSON] up to the document. *)
Definition canonicalDocument (entry : SorobanAuthorizationEntry) : result canonicalEntry :=
  let op := "soroauth: canonical json" in
  _ ← wrap (op +:+ ": entry does not encode") (MarshalBinary entry);
  credentials ← wrap (op +:+ ": credentials") (encodeCanonicalCredentials (Credentials entry) 0);
  invocation ← wrap (op +:+ ": root invocation") (encodeCanonicalInvocation (RootInvocation entry) 0);
  Ok (mkEntryDoc CanonicalJSONSchemaVersion credentials invocation).
End encode.

(** ** Decoding *)
Section decode.
Context `{SDK} `{AssetCodec}.

(** [*p]: a nil pointer here is a panic, which the field checks rule out. *)
Definition deref {A} (o : option A) : result A :=
  of_option o (EText "runtime error: invalid memory address or nil pointer dereference").

Definition isSome {A} (o : option A) : bool := match o with Some _ => true | None => false end.

Definition decodeCanonicalBase64 (value : string) : result bytes :=
  _ ← refuse (String.eqb value "") (EText "base64 value is empty");
  decoded ← of_option (base64_DecodeString value) (EText "base64: illegal base64 data");
  _ ← refuse (negb (String.eqb (base64_EncodeToString decoded) value))
        (EText "base64 is not canonical");
  Ok decoded.

Definition decodeCanonicalHex (value : string) (length' : nat) (name : string) : result bytes :=
  _ ← refuse (negb (Nat.eqb (String.length value) (length' * 2)))
        (EText (name +:+ " is " +:+ pretty (String.length value) +:+ " hex characters, want " +:+
                pretty (length' * 2)));
  decoded ← of_option (hex_DecodeString value) (EText (name +:+ ": invalid hex"));
  _ ← refuse (negb (String.eqb (hex_EncodeToString decoded) value))
        (EText (name +:+ " is not lowercase canonical hex"));
  Ok decoded.

Definition decodeCanonicalUint64 (value name : string) : result Z :=
  _ ← refuse (String.eqb value "") (EText (name +:+ " is empty"));
  let e := EText (name +:+ " " +:+ quoted value +:+ " is not a canonical uint64") in
  parsed ← of_option (ParseUint64 value) e;
  _ ← refuse (negb (String.eqb (FormatUint parsed) value)) e;
  Ok parsed.

Definition decodeCanonicalInt64 (value name : string) : result Z :=
  _ ← refuse (String.eqb value "") (EText (name +:+ " is empty"));
  let e := EText (name +:+ " " +:+ quoted value +:+ " is not a canonical int64") in
  parsed ← of_option (ParseInt64 value) e;
  _ ← refuse (negb (String.eqb (FormatInt parsed) value)) e;
  Ok parsed.

(** [decodeCanonicalXDR] at a type, by its decoder and its encoder. *)
Definition decodeCanonicalXDR {T} (unmarshal : bytes → result T) (marshal : T → result bytes)
    (encoded : string) : result T :=
  raw ← decodeCanonicalBase64 encoded;
  value ← wrap "decoding xdr" (unmarshal raw);
  marshaled ← marshal value;
  _ ← refuse (negb (bytes_Equal raw marshaled))
        (EText "xdr is not the canonical encoding of its value");
  Ok value.

Definition decodeCanonicalText (text : canonicalText) : result string :=
  _ ← refuse (Bool.eqb (negb (isSome (UTF8 text))) (negb (isSome (Base64 text))))
        (EText "text must carry exactly one of utf8 or base64");
  match UTF8 text with
  | Some s => Ok s
  | None =>
      b ← deref (Base64 text); decoded ← decodeCanonicalBase64 b; Ok (string_of_bytes decoded)
  end.

Definition decodeCanonicalAddress (address : canonicalAddress) : result ScAddress :=
  let empty s := String.eqb s "" in
  let account := Address_Account address in
  let contract := Address_Contract address in
  let xdr := Address_XDR address in
  if String.eqb (Address_Type address) "account" then
    _ ← refuse (empty account || negb (empty contract) || negb (empty xdr))
          (EText "account address is missing account or carries another arm");
    parsed ← ParseAddress account;
    match parsed with
    | ScAddressTypeAccount _ => Ok parsed
    | _ => Err (EText (quoted account +:+ " is not an account address"))
    end
  else if String.eqb (Address_Type address) "contract" then
    _ ← refuse (empty contract || negb (empty account) || negb (empty xdr))
          (EText "contract address is missing contract or carries another arm");
    parsed ← ParseAddress contract;
    match parsed with
    | ScAddressTypeContract _ => Ok parsed
    | _ => Err (EText (quoted contract +:+ " is not a contract address"))
    end
  else if String.eqb (Address_Type address) "xdr" then
    _ ← refuse (empty xdr || negb (empty account) || negb (empty contract))
          (EText "xdr address is missing xdr or carries another arm");
    wrap "address xdr" (decodeCanonicalXDR UnmarshalBinary MarshalBinary xdr)
  else Err (EText ("unknown address type " +:+ quoted (Address_Type address))).

Definition decodeCanonicalExecutable (executable : canonicalExecutable)
    : result ContractExecutable :=
  let hash := Executable_WasmHash executable in
  let owner := Executable_Owner executable in
  let tag := Executable_Tag executable in
  if String.eqb (Executable_Type executable) "wasm" then
    _ ← refuse (negb (isSome hash) || isSome owner || isSome tag)
          (EText "wasm executable is missing wasm_hash or carries external_ref fields");
    h ← deref hash;
    wasm ← decodeCanonicalHex h 32 "wasm_hash";
    Ok (ContractExecutableWasm (Some wasm))
  else if String.eqb (Executable_Type executable) "stellar_asset" then
    _ ← refuse (isSome hash || isSome owner || isSome tag)
          (EText "stellar_asset executable carries wasm or external_ref fields");
    Ok ContractExecutableStellarAsset
  else if String.eqb (Executable_Type executable) "external_ref" then
    _ ← refuse (isSome hash || negb (isSome owner) || negb (isSome tag))
          (EText "external_ref executable is missing owner or tag");
    o ← deref owner;
    owner ← decodeCanonicalAddress o;
    t ← deref tag;
    tag ← wrap "external_ref tag" (decodeCanonicalText t);
    Ok (ContractExecutableExternalRef (Some (owner, tag)))
  else Err (EText ("unknown executable type " +:+ quoted (Executable_Type executable))).

Definition decodeCanonicalPreimage (preimage : canonicalPreimage) : result ContractIdPreimage :=
  let address := IdPreimage_Address preimage in
  let salt := IdPreimage_Salt preimage in
  let xdr := IdPreimage_XDR preimage in
  if String.eqb (IdPreimage_Type preimage) "from_address" then
    _ ← refuse (negb (isSome address) || negb (isSome salt) || negb (String.eqb xdr ""))
          (EText "from_address preimage is missing address or salt");
    a ← deref address;
    address ← decodeCanonicalAddress a;
    s ← deref salt;
    salt ← decodeCanonicalHex s 32 "salt";
    Ok (ContractIdPreimageFromAddress (Some (address, salt)))
  else if String.eqb (IdPreimage_Type preimage) "from_asset" then
    _ ← refuse (isSome address || isSome salt || String.eqb xdr "")
          (EText "from_asset preimage carries from_address fields or no xdr");
    asset ← wrap "from_asset" (decodeCanonicalXDR Asset_MarshalBinary Asset_MarshalBinary xdr);
    Ok (ContractIdPreimageFromAsset (Some asset))
  else Err (EText ("unknown contract_id_preimage type " +:+ quoted (IdPreimage_Type preimage))).

Definition decodeCanonicalU128Parts (parts : option canonicalParts128) : result (Z * Z) :=
  parts ← of_option parts (EText "u128 has no value");
  hi ← decodeCanonicalUint64 (Hi parts) "u128.hi";
  lo ← decodeCanonicalUint64 (Lo parts) "u128.lo";
  Ok (hi, lo).

Definition decodeCanonicalI128Parts (parts : option canonicalParts128) : result (Z * Z) :=
  parts ← of_option parts (EText "i128 has no value");
  hi ← decodeCanonicalInt64 (Hi parts) "i128.hi";
  lo ← decodeCanonicalUint64 (Lo parts) "i128.lo";
  Ok (hi, lo).

Definition decodeCanonicalU256Parts (parts : option canonicalParts256) : result (Z * Z * Z * Z) :=
  parts ← of_option parts (EText "u256 has no value");
  hiHi ← decodeCanonicalUint64 (HiHi parts) "u256.hi_hi";
  hiLo ← decodeCanonicalUint64 (HiLo parts) "u256.hi_lo";
  loHi ← decodeCanonicalUint64 (LoHi parts) "u256.lo_hi";
  loLo ← decodeCanonicalUint64 (LoLo parts) "u256.lo_lo";
  Ok (hiHi, hiLo, loHi, loLo).

Definition decodeCanonicalI256Parts (parts : option canonicalParts256) : result (Z * Z * Z * Z) :=
  parts ← of_option parts (EText "i256 has no value");
  hiHi ← decodeCanonicalInt64 (HiHi parts) "i256.hi_hi";
  hiLo ← decodeCanonicalUint64 (HiLo parts) "i256.hi_lo";
  loHi ← decodeCanonicalUint64 (LoHi parts) "i256.lo_hi";
  loLo ← decodeCanonicalUint64 (LoLo parts) "i256.lo_lo";
  Ok (hiHi, hiLo, loHi, loLo).

(** The value fields that are set, by their names. *)
Definition presentFields (value : canonicalScVal) : list string :=
  let field (b : bool) (name : string) := if b then [name] else [] in
  concat
    [field (isSome (Doc_Bool value)) "bool"; field (isSome (Doc_U32 value)) "u32";
     field (isSome (Doc_I32 value)) "i32"; field (isSome (Doc_U64 value)) "u64";
     field (isSome (Doc_I64 value)) "i64"; field (isSome (Doc_Timepoint value)) "timepoint";
     field (isSome (Doc_Duration value)) "duration"; field (isSome (Doc_U128 value)) "u128";
     field (isSome (Doc_I128 value)) "i128"; field (isSome (Doc_U256 value)) "u256";
     field (isSome (Doc_I256 value)) "i256"; field (isSome (Doc_Bytes value)) "bytes";
     field (isSome (Doc_String value)) "string"; field (isSome (Doc_Symbol value)) "symbol";
     field (isSome (Doc_Vec value)) "vec"; field (isSome (Doc_Map value)) "map";
     field (Doc_Nil value) "nil"; field (isSome (Doc_Address value)) "address";
     field (isSome (Doc_Instance value)) "contract_instance";
     field (negb (String.eqb (Doc_XDR value) "")) "xdr";
     field (isSome (Doc_ExecutableTag value)) "executable_tag"].

Definition requireScValFields (value : canonicalScVal) (want : list string) : result unit :=
  let present := presentFields value in
  _ ← refuse (negb (Nat.eqb (length present) (length want)))
        (EText ("ScVal type " +:+ quoted (Doc_Type value) +:+ " carries " +:+
                pretty (length present) +:+ " value fields, want " +:+ pretty (length want)));
  iterM_from (λ _ field,
    refuse (negb (existsb (String.eqb field) present))
      (EText ("ScVal type " +:+ quoted (Doc_Type value) +:+ " has no " +:+ field +:+ " field")))
    0 want.

Definition isErrorValue (v : ScVal) : bool := match v with ScvError _ => true | _ => false end.
Definition isNonceKey (v : ScVal) : bool :=
  match v with ScvLedgerKeyNonce _ => true | _ => false end.

Definition decodeCanonicalScValXDR (encoded : string) (expected : ScVal → bool) : result ScVal :=
  value ← decodeCanonicalXDR UnmarshalBinary MarshalBinary encoded;
  _ ← refuse (negb (expected value)) (EText "xdr value has another type");
  Ok value.

(** [decodeCanonicalMap] over a decoder of values. *)
Section decode_map.
Variable decode : canonicalScVal → result ScVal.
Definition decodeEntry (i : nat) (entry : canonicalMapEntry) : result (ScVal * ScVal) :=
  let '(k, v) := entry in
  key ← wrap ("map key " +:+ pretty i) (decode k);
  val ← wrap ("map value " +:+ pretty i) (decode v);
  Ok (key, val).
End decode_map.
End decode.

Section decode_values.
Context `{SDK} `{AssetCodec}.

(** The cases whose value has no values below it, by type name. *)
Definition decodeLeaf (value : canonicalScVal) : result ScVal :=
  let isType := String.eqb (Doc_Type value) in
  let require := requireScValFields value in
  if isType "bool" then
    _ ← require ["bool"]; Ok (ScvBool (Doc_Bool value))
  else if isType "void" then
    _ ← require []; Ok ScvVoid
  else if isType "u32" then
    _ ← require ["u32"]; converted ← deref (Doc_U32 value); Ok (ScvU32 (Some converted))
  else if isType "i32" then
    _ ← require ["i32"]; converted ← deref (Doc_I32 value); Ok (ScvI32 (Some converted))
  else if isType "u64" then
    _ ← require ["u64"]; s ← deref (Doc_U64 value);
    parsed ← decodeCanonicalUint64 s "u64"; Ok (ScvU64 (Some parsed))
  else if isType "i64" then
    _ ← require ["i64"]; s ← deref (Doc_I64 value);
    parsed ← decodeCanonicalInt64 s "i64"; Ok (ScvI64 (Some parsed))
  else if isType "timepoint" then
    _ ← require ["timepoint"]; s ← deref (Doc_Timepoint value);
    parsed ← decodeCanonicalUint64 s "timepoint"; Ok (ScvTimepoint (Some parsed))
  else if isType "duration" then
    _ ← require ["duration"]; s ← deref (Doc_Duration value);
    parsed ← decodeCanonicalUint64 s "duration"; Ok (ScvDuration (Some parsed))
  else if isType "u128" then
    _ ← require ["u128"]; parts ← decodeCanonicalU128Parts (Doc_U128 value);
    Ok (ScvU128 (Some parts))
  else if isType "i128" then
    _ ← require ["i128"]; parts ← decodeCanonicalI128Parts (Doc_I128 value);
    Ok (ScvI128 (Some parts))
  else if isType "u256" then
    _ ← require ["u256"]; parts ← decodeCanonicalU256Parts (Doc_U256 value);
    Ok (ScvU256 (Some parts))
  else if isType "i256" then
    _ ← require ["i256"]; parts ← decodeCanonicalI256Parts (Doc_I256 value);
    Ok (ScvI256 (Some parts))
  else if isType "bytes" then
    _ ← require ["bytes"]; s ← deref (Doc_Bytes value);
    decoded ← decodeCanonicalBase64 s; Ok (ScvBytes (Some decoded))
  else if isType "string" then
    _ ← require ["string"]; t ← deref (Doc_String value);
    decoded ← decodeCanonicalText t; Ok (ScvString (Some decoded))
  else if isType "symbol" then
    _ ← require ["symbol"]; t ← deref (Doc_Symbol value);
    decoded ← decodeCanonicalText t; Ok (ScvSymbol (Some decoded))
  else if isType "address" then
    _ ← require ["address"]; a ← deref (Doc_Address value);
    address ← decodeCanonicalAddress a; Ok (ScvAddress (Some address))
  else if isType "ledger_key_contract_instance" then
    _ ← require []; Ok ScvLedgerKeyContractInstance
  else if isType "executable_tag" then
    _ ← require ["executable_tag"]; t ← deref (Doc_ExecutableTag value);
    decoded ← decodeCanonicalText t; Ok (ScvExecutableTag (Some decoded))
  else if isType "error" then
    _ ← require ["xdr"]; decodeCanonicalScValXDR (Doc_XDR value) isErrorValue
  else if isType "ledger_key_nonce" then
    _ ← require ["xdr"]; decodeCanonicalScValXDR (Doc_XDR value) isNonceKey
  else Err (EText ("unknown ScVal type " +:+ quoted (Doc_Type value))).

Fixpoint decodeCanonicalScVal (value : canonicalScVal) (depth : Z) : result ScVal :=
  _ ← checkTraversalDepth depth;
  let decodeCanonicalMap entries depth :=
    imapM_from (decodeEntry (λ v, decodeCanonicalScVal v depth)) 0 entries in
  let isType := String.eqb (Doc_Type value) in
  if isType "vec" then
    if Doc_Nil value then
      _ ← requireScValFields value ["nil"]; Ok (ScvVec (Some None))
    else
      _ ← requireScValFields value ["vec"];
      match Doc_Vec value with
      | None => deref None
      | Some l =>
          items ← imapM_from (λ i item, wrap ("value " +:+ pretty i)
                    (decodeCanonicalScVal item (depth + 1))) 0 l;
          Ok (ScvVec (Some (Some items)))
      end
  else if isType "map" then
    if Doc_Nil value then
      _ ← requireScValFields value ["nil"]; Ok (ScvMap (Some None))
    else
      _ ← requireScValFields value ["map"];
      match Doc_Map value with
      | None => deref None
      | Some l => entries ← decodeCanonicalMap l (depth + 1)%Z; Ok (ScvMap (Some (Some entries)))
      end
  else if isType "contract_instance" then
    _ ← requireScValFields value ["contract_instance"];
    match Doc_Instance value with
    | None => deref None
    | Some instance =>
        executable ← decodeCanonicalExecutable (Instance_Executable instance);
        storage ← (match Instance_Storage instance with
                   | None => Ok None
                   | Some l => entries ← decodeCanonicalMap l (depth + 1)%Z; Ok (Some entries)
                   end);
        Ok (ScvContractInstance (Some (mkScContractInstance executable storage)))
    end
  else decodeLeaf value.

Definition decodeCanonicalScVals (values : list canonicalScVal) (depth : Z)
    : result (list ScVal) :=
  imapM_from (λ i value, wrap ("value " +:+ pretty i) (decodeCanonicalScVal value depth)) 0 values.

Definition decodeCanonicalFunction (function : canonicalFunction) (depth : Z)
    : result SorobanAuthorizedFunction :=
  let address := Function_ContractAddress function in
  let name := Function_FunctionName function in
  let args := Function_Args function in
  let preimage := Function_ContractIDPreimage function in
  let executable := Function_Executable function in
  let constructorArgs := Function_ConstructorArgs function in
  let isType := String.eqb (Function_Type function) in
  if isType "contract_fn" then
    _ ← refuse (isSome preimage || isSome executable || isSome constructorArgs)
          (EText "contract_fn function carries create-contract fields");
    _ ← refuse (negb (isSome address) || negb (isSome name) || negb (isSome args))
          (EText "contract_fn function is missing contract_address, function_name, or args");
    a ← deref address; address ← decodeCanonicalAddress a;
    n ← deref name; name ← wrap "function_name" (decodeCanonicalText n);
    l ← deref args; args ← decodeCanonicalScVals l (depth + 1);
    Ok (FunctionContractFn (Some (mkInvokeContractArgs address name args)))
  else if isType "create_contract_host_fn" then
    _ ← refuse (isSome address || isSome name || isSome args || isSome constructorArgs)
          (EText "create_contract_host_fn function carries contract-call fields");
    _ ← refuse (negb (isSome preimage) || negb (isSome executable))
          (EText ("create_contract_host_fn function is missing contract_id_preimage or " +:+
                  "executable"));
    p ← deref preimage; preimage ← decodeCanonicalPreimage p;
    e ← deref executable; executable ← decodeCanonicalExecutable e;
    Ok (FunctionCreateContractHostFn (Some (mkCreateContractArgs preimage executable)))
  else if isType "create_contract_v2_host_fn" then
    _ ← refuse (isSome address || isSome name || isSome args)
          (EText "create_contract_v2_host_fn function carries contract-call fields");
    _ ← refuse (negb (isSome preimage) || negb (isSome executable) || negb (isSome constructorArgs))
          (EText ("create_contract_v2_host_fn function is missing contract_id_preimage, " +:+
                  "executable, or constructor_args"));
    p ← deref preimage; preimage ← decodeCanonicalPreimage p;
    e ← deref executable; executable ← decodeCanonicalExecutable e;
    l ← deref constructorArgs; args ← decodeCanonicalScVals l (depth + 1);
    Ok (FunctionCreateContractV2HostFn (Some (mkCreateContractArgsV2 preimage executable args)))
  else Err (EText ("unknown function type " +:+ quoted (Function_Type function))).

Fixpoint decodeCanonicalInvocation (invocation : canonicalInvocation) (depth : Z)
    : result SorobanAuthorizedInvocation :=
  match invocation with
  | mkInvocationDoc f subs =>
      _ ← checkTraversalDepth depth;
      function ← decodeCanonicalFunction f (depth + 1);
      subs ← imapM_from (λ i sub, wrap ("sub-invocation " +:+ pretty i)
               (decodeCanonicalInvocation sub (depth + 1))) 0 subs;
      Ok (mkInvocation function subs)
  end.

Fixpoint decodeCanonicalDelegate (depth : Z) (i : nat) (delegate : canonicalDelegate)
    : result SorobanDelegateSignature :=
  match delegate with
  | mkDelegateDoc a s n =>
      address ← wrap ("delegate " +:+ pretty i +:+ " address") (decodeCanonicalAddress a);
      signature ← wrap ("delegate " +:+ pretty i +:+ " signature")
                    (decodeCanonicalScVal s (depth + 1));
      nested ← wrap ("delegate " +:+ pretty i)
        (_ ← checkTraversalDepth (depth + 1);
         imapM_from (decodeCanonicalDelegate (depth + 1)) 0 n);
      Ok (mkDelegateSignature address signature nested)
  end.

Definition decodeCanonicalDelegates (delegates : list canonicalDelegate) (depth : Z)
    : result (list SorobanDelegateSignature) :=
  _ ← checkTraversalDepth depth;
  imapM_from (decodeCanonicalDelegate depth) 0 delegates.

Definition requireCredentialFields (c : canonicalCredential) : result unit :=
  refuse (isSome (Cred_Address c) || isSome (Cred_Nonce c)
          || isSome (Cred_SignatureExpirationLedger c) || isSome (Cred_Signature c)
          || isSome (Cred_Delegates c))
    (EText "source_account credentials carry address-arm fields").

Definition decodeCanonicalAddressCredentials (c : canonicalCredential) (depth : Z)
    : result SorobanAddressCredentials :=
  let missing what := EText (Cred_Type c +:+ " credentials have no " +:+ what) in
  a ← of_option (Cred_Address c) (missing "address");
  n ← of_option (Cred_Nonce c) (missing "nonce");
  expiration ← of_option (Cred_SignatureExpirationLedger c) (missing "signature_expiration_ledger");
  s ← of_option (Cred_Signature c) (missing "signature");
  address ← decodeCanonicalAddress a;
  nonce ← decodeCanonicalInt64 n "nonce";
  signature ← decodeCanonicalScVal s (depth + 1);
  Ok (mkAddressCredentials address nonce expiration signature).

Definition decodeCanonicalCredentials (c : canonicalCredential) (depth : Z)
    : result SorobanCredentials :=
  _ ← checkTraversalDepth depth;
  let isType := String.eqb (Cred_Type c) in
  if isType CredentialTypeSourceAccount then
    _ ← requireCredentialFields c; Ok (credentialsOf CredentialsSourceAccount)
  else if isType CredentialTypeAddress || isType CredentialTypeAddressV2 then
    _ ← refuse (isSome (Cred_Delegates c))
          (EText (Cred_Type c +:+ " credentials carry a delegates array"));
    arm ← decodeCanonicalAddressCredentials c depth;
    Ok (if isType CredentialTypeAddress then mkCredentials CredentialsAddress (Some arm) None None
        else mkCredentials CredentialsAddressV2 None (Some arm) None)
  else if isType CredentialTypeAddressWithDelegates then
    delegates ← of_option (Cred_Delegates c)
                  (EText "address_with_delegates credentials have no delegates array");
    arm ← decodeCanonicalAddressCredentials c depth;
    nodes ← decodeCanonicalDelegates delegates (depth + 1);
    Ok (mkCredentials CredentialsAddressWithDelegates None None (Some (mkWithDelegates arm nodes)))
  else Err (EText ("unknown credentials type " +:+ quoted (Cred_Type c))).

(** [UnmarshalCanonicalJSON] from the document on. *)
Definition entryOfDocument (document : canonicalEntry) : result SorobanAuthorizationEntry :=
  let op := "soroauth: canonical json" in
  _ ← refuse (negb (SchemaVersion document =? CanonicalJSONSchemaVersion)%Z)
        (EText (op +:+ ": unsupported schema_version " +:+ pretty (SchemaVersion document) +:+
                ", want 1"));
  credentials ← wrap (op +:+ ": credentials")
                  (decodeCanonicalCredentials (Entry_Credentials document) 0);
  invocation ← wrap (op +:+ ": root invocation")
                 (decodeCanonicalInvocation (Entry_RootInvocation document) 0);
  let entry := mkEntry credentials invocation in
  _ ← wrap (op +:+ ": entry does not encode") (MarshalBinary entry);
  Ok entry.
End decode_values.
