(* ===== verification/CanonicalRoundtrip.v ===== *)
(** * CanonicalRoundtrip: what decoding an encoded entry gives

    [typed_entry] is what Go's types and the SDK's encoder guarantee of an
    entry's values: integers in range, 32-byte hashes and keys, no nil pointer
    to a vector or map.  [full_entry] says that no byte string of it is empty.
    A typed entry's document decodes to the entry itself when it is full, and is
    refused otherwise: the encoder writes an empty byte string as empty base64,
    which the decoder does not accept. *)
From Stdlib Require Import ZArith Lia Strings.Byte String.
From stdpp Require Import base list strings pretty.
From S2P Require Import Prelude Encoding Errors Xdr ModelSDK Runtime Examples Address Limits Arm Canonical.

Open Scope string_scope. Open Scope nat_scope. Open Scope list_scope.

(** ** What the types guarantee *)
Definition u64b (z : Z) : bool := (0 <=? z)%Z && (z <? 2 ^ 64)%Z.
Definition i64b (z : Z) : bool := (- 2 ^ 63 <=? z)%Z && (z <=? MaxInt64)%Z.
Definition u32b (z : Z) : bool := (0 <=? z)%Z && (z <=? MaxUint32)%Z.
Definition i32b (z : Z) : bool := (- 2 ^ 31 <=? z)%Z && (z <=? 2 ^ 31 - 1)%Z.
Definition hashb (b : bytes) : bool := Nat.eqb (length b) 32.

Definition typed_address (a : ScAddress) : bool :=
  match a with
  | ScAddressTypeAccount (Some (mkAccountId t (Some k))) => (t =? 0)%Z && hashb k
  | ScAddressTypeAccount (Some (mkAccountId t None)) => false
  | ScAddressTypeContract (Some k) => hashb k
  | _ => true
  end.

Definition typed_executable (e : ContractExecutable) : bool :=
  match e with
  | ContractExecutableWasm (Some h) => hashb h
  | ContractExecutableExternalRef (Some (a, _)) => typed_address a
  | _ => true
  end.

Definition typed_preimage (p : ContractIdPreimage) : bool :=
  match p with
  | ContractIdPreimageFromAddress (Some (a, salt)) => typed_address a && hashb salt
  | _ => true
  end.

Definition on_pair (f : ScVal → bool) (kv : ScVal * ScVal) : bool := let '(k, v) := kv in f k && f v.

Fixpoint typed_value (v : ScVal) : bool :=
  match v with
  | ScvU32 (Some z) => u32b z
  | ScvI32 (Some z) => i32b z
  | ScvU64 (Some z) | ScvTimepoint (Some z) | ScvDuration (Some z) => u64b z
  | ScvI64 (Some z) => i64b z
  | ScvU128 (Some (h, l)) => u64b h && u64b l
  | ScvI128 (Some (h, l)) => i64b h && u64b l
  | ScvU256 (Some (a, b, c, d)) => u64b a && u64b b && u64b c && u64b d
  | ScvI256 (Some (a, b, c, d)) => i64b a && u64b b && u64b c && u64b d
  | ScvVec None | ScvMap None => false
  | ScvVec (Some (Some l)) => forallb typed_value l
  | ScvMap (Some (Some l)) => forallb (on_pair typed_value) l
  | ScvAddress (Some a) => typed_address a
  | ScvContractInstance (Some i) =>
      typed_executable (Executable i)
      && match Storage i with Some l => forallb (on_pair typed_value) l | None => true end
  | _ => true
  end.

Fixpoint full_value (v : ScVal) : bool :=
  match v with
  | ScvBytes (Some b) => negb (bool_decide (b = []))
  | ScvVec (Some (Some l)) => forallb full_value l
  | ScvMap (Some (Some l)) => forallb (on_pair full_value) l
  | ScvContractInstance (Some i) =>
      match Storage i with Some l => forallb (on_pair full_value) l | None => true end
  | _ => true
  end.

Definition function_values (f : SorobanAuthorizedFunction) : list ScVal :=
  match f with
  | FunctionContractFn (Some c) => Args c
  | FunctionCreateContractV2HostFn (Some c) => ConstructorArgs c
  | _ => []
  end.

Definition typed_function (f : SorobanAuthorizedFunction) : bool :=
  forallb typed_value (function_values f) &&
  match f with
  | FunctionContractFn (Some c) => typed_address (ContractAddress c)
  | FunctionCreateContractHostFn (Some c) =>
      typed_preimage (CreateContract_ContractIdPreimage c)
      && typed_executable (CreateContract_Executable c)
  | FunctionCreateContractV2HostFn (Some c) =>
      typed_preimage (CreateContractV2_ContractIdPreimage c)
      && typed_executable (CreateContractV2_Executable c)
  | _ => true
  end.

Fixpoint typed_invocation (i : SorobanAuthorizedInvocation) : bool :=
  match i with mkInvocation f subs => typed_function f && forallb typed_invocation subs end.
Fixpoint full_invocation (i : SorobanAuthorizedInvocation) : bool :=
  match i with
  | mkInvocation f subs => forallb full_value (function_values f) && forallb full_invocation subs
  end.

Fixpoint typed_delegate (d : SorobanDelegateSignature) : bool :=
  match d with
  | mkDelegateSignature a s n => typed_address a && typed_value s && forallb typed_delegate n
  end.
Fixpoint full_delegate (d : SorobanDelegateSignature) : bool :=
  match d with mkDelegateSignature a s n => full_value s && forallb full_delegate n end.

Definition typed_credentials (c : SorobanAddressCredentials) : bool :=
  typed_address (Address c) && i64b (Nonce c) && u32b (SignatureExpirationLedger c)
  && typed_value (Signature c).

Definition on_credentials (f : SorobanAddressCredentials → bool)
    (g : SorobanDelegateSignature → bool) (c : SorobanCredentials) : bool :=
  match c with
  | CredentialsOfAddress (Some a) | CredentialsOfAddressV2 (Some a) => f a
  | CredentialsOfAddressWithDelegates (Some d) =>
      f (AddressCredentials d) && forallb g (Delegates d)
  | _ => true
  end.

Definition known_arm (c : SorobanCredentials) : bool :=
  match c with CredentialsUnknown _ => false | _ => true end.

Definition typed_entry (e : SorobanAuthorizationEntry) : bool :=
  known_arm (Credentials e)
  && on_credentials typed_credentials typed_delegate (Credentials e)
  && typed_invocation (RootInvocation e).
Definition full_entry (e : SorobanAuthorizationEntry) : bool :=
  on_credentials (λ a, full_value (Signature a)) full_delegate (Credentials e)
  && full_invocation (RootInvocation e).

(** ** What the SDK's encodings guarantee *)
(** A union's encoding starts with its discriminant; a value of a flat arm has
    no nesting, so its decoder has no depth to refuse. *)
Class CanonicalLaws `{SDK} `{AssetCodec} : Prop := {
  address_encoding_nonempty (a : ScAddress) b : MarshalBinary a = Ok b → b ≠ [];
  value_encoding_nonempty (v : ScVal) b : MarshalBinary v = Ok b → b ≠ [];
  flat_value_decodes (v : ScVal) b :
    isErrorValue v || isNonceKey v = true → MarshalBinary v = Ok b → UnmarshalBinary b = Ok v;
  asset_nonempty : Asset_valid [] = false;
  (* a strkey has a version byte and a checksum *)
  strkey_nonempty v p s : strkey_Encode v p = Ok s → s ≠ ""
}.

(** [back full r x]: decoding gave [x] back if it is full, and is refused if
    not. *)
Definition back {A} (full : bool) (r : result A) (x : A) : Prop :=
  if full then r = Ok x else is_ok r = false.

Lemma back_bind {A B} (full1 full2 : bool) (r : result A) (k : A → result B) x y :
  back full1 r x → back full2 (k x) y → back (full1 && full2) (a ← r; k a) y.
Proof. destruct full1; cbn; [by intros -> ?|]. by destruct r. Qed.

Lemma back_wrap {A} full p (r : result A) x : back full r x → back full (wrap p r) x.
Proof. destruct full; cbn; [by intros ->|]. by destruct r. Qed.

Lemma back_Ok {A} (r : result A) x : r = Ok x → back true r x.
Proof. done. Qed.

Lemma imapM_encoded {A B} (f : nat → A → result B) i l ys :
  imapM_from f i l = Ok ys → Forall2 (λ x y, ∃ j, f j x = Ok y) l ys.
Proof.
  revert i ys. induction l as [|x l IH]; intros i ys; cbn; [intros [= <-]; constructor|].
  intros Hl. inv_ok. constructor; [by eexists|]. by eapply IH.
Qed.

Lemma imapM_back {A B} (f : nat → A → result B) (full : B → bool) i cs l :
  Forall2 (λ v c, ∀ j, back (full v) (f j c) v) l cs →
  back (forallb full l) (imapM_from f i cs) l.
Proof.
  intros Hl. revert i. induction Hl as [|v c l cs Hv _ IH]; intros i; cbn; [done|].
  apply back_bind with (x := v); [apply Hv|].
  rewrite <-(andb_true_r (forallb full l)). apply back_bind with (x := l); [apply IH|done].
Qed.

(** Encoding a list and decoding it, when the elements do. *)
Lemma encoded_list {A B} (enc : nat → A → result B) (dec : nat → B → result A) (full : A → bool)
    i j l cs :
  imapM_from enc i l = Ok cs →
  Forall (λ v, ∀ k k' c, enc k v = Ok c → back (full v) (dec k' c) v) l →
  back (forallb full l) (imapM_from dec j cs) l.
Proof.
  intros Hl Hf. apply imapM_back. apply imapM_encoded in Hl.
  induction Hl as [|v c l cs [k Hv] _ IH]; [constructor|].
  inversion Hf; subst. constructor; [|by apply IH]. intros k'. eauto.
Qed.

Lemma forallb_elem {A} (f : A → bool) l x : forallb f l = true → x ∈ l → f x = true.
Proof. rewrite forallb_forall. setoid_rewrite <-list_elem_of_In. auto. Qed.

(** ** Texts and numbers *)
Section leaves.
Context `{SDK} `{AssetCodec} `{!SDKLaws} `{!CanonicalLaws}.

Lemma decodeUint64_Format z n : u64b z = true → decodeCanonicalUint64 (FormatUint z) n = Ok z.
Proof.
  intros Hz. assert (Hp : ParseUint64 (FormatUint z) = Some z).
  { apply ParseUint64_FormatUint. unfold u64b, is_u64 in *. lia. }
  unfold decodeCanonicalUint64. destruct (String.eqb_spec (FormatUint z) "") as [E|_].
  { rewrite E in Hp. discriminate Hp. }
  cbn. rewrite Hp. cbn. by rewrite String.eqb_refl.
Qed.

Lemma decodeInt64_Format z n : i64b z = true → decodeCanonicalInt64 (FormatInt z) n = Ok z.
Proof.
  intros Hz. assert (Hp : ParseInt64 (FormatInt z) = Some z).
  { apply ParseInt64_FormatInt. unfold i64b, is_i64 in *. lia. }
  unfold decodeCanonicalInt64. destruct (String.eqb_spec (FormatInt z) "") as [E|_].
  { rewrite E in Hp. discriminate Hp. }
  cbn. rewrite Hp. cbn. by rewrite String.eqb_refl.
Qed.

Lemma decodeBase64_Encode b :
  back (negb (bool_decide (b = []))) (decodeCanonicalBase64 (base64_EncodeToString b)) b.
Proof.
  unfold decodeCanonicalBase64. destruct (bool_decide_reflect (b = [])) as [->|Hb]; cbn; [done|].
  destruct (String.eqb_spec (base64_EncodeToString b) "") as [E|_].
  { by apply base64_EncodeToString_nonempty in E. }
  cbn. rewrite base64_DecodeString_Encode. cbn. by rewrite String.eqb_refl.
Qed.

Lemma decodeBase64_Encode_nonempty b :
  b ≠ [] → decodeCanonicalBase64 (base64_EncodeToString b) = Ok b.
Proof. intros Hb. pose proof (decodeBase64_Encode b) as Hd. by rewrite bool_decide_eq_false_2 in Hd. Qed.

Lemma decodeHex_Encode b n : hashb b = true → decodeCanonicalHex (hex_EncodeToString b) 32 n = Ok b.
Proof.
  intros Hb%Nat.eqb_eq. unfold decodeCanonicalHex. rewrite length_hex_EncodeToString, Hb. cbn.
  rewrite hex_DecodeString_Encode. cbn. by rewrite String.eqb_refl.
Qed.

Lemma decodeText_encode s : decodeCanonicalText (encodeCanonicalText s) = Ok s.
Proof.
  unfold encodeCanonicalText. destruct (utf8_ValidString s) eqn:Hv; cbn; [done|].
  unfold decodeCanonicalText. cbn. rewrite decodeBase64_Encode_nonempty.
  - cbn. by rewrite string_of_bytes_of_string.
  - intros E. unfold utf8_ValidString in Hv. by rewrite E in Hv.
Qed.

Lemma decodeXDR_encode {T} (v : T) (marshal : T → result bytes) unmarshal b :
  marshal v = Ok b → b ≠ [] → unmarshal b = Ok v →
  decodeCanonicalXDR unmarshal marshal (base64_EncodeToString b) = Ok v.
Proof.
  intros Hm Hb Hu. unfold decodeCanonicalXDR. rewrite decodeBase64_Encode_nonempty by done. cbn.
  rewrite Hu. cbn. rewrite Hm. cbn. by rewrite (proj2 (bytes_Equal_spec b b) eq_refl).
Qed.

Lemma decodeAddress_xdr a c :
  (encoded ← wrap "address" (safeMarshalBase64 a); Ok (mkAddressDoc "xdr" "" "" encoded)) = Ok c →
  decodeCanonicalAddress c = Ok a.
Proof.
  intros Hc. inv_ok. apply fmap_Ok in Hx as (b & Hb & ->).
  pose proof (address_encoding_nonempty _ _ Hb) as Hne.
  pose proof (base64_EncodeToString_nonempty b Hne) as Hs.
  unfold decodeCanonicalAddress. cbn -[String.eqb].
  rewrite (proj2 (String.eqb_neq _ _) Hs). cbn.
  by rewrite (decodeXDR_encode a _ _ b Hb Hne (UnmarshalBinary_ScAddress _ _ Hb)).
Qed.

Lemma FormatAddress_nonempty a s : is_credential_address a → FormatAddress a = Ok s → s ≠ "".
Proof.
  intros Ha Hf.
  destruct a as [[[[| |] [k|]]|]|[k|]|?|?|?|?]; cbn in Ha, Hf; try done; apply wrap_Ok in Hf.
  - rewrite AccountId_GetAddress_ed25519 in Hf. by eapply strkey_nonempty.
  - by eapply strkey_nonempty.
Qed.

(** A typed address of a rendered kind can be a credential's. *)
Lemma typed_credential_address a s :
  typed_address a = true → FormatAddress a = Ok s → is_credential_address a.
Proof.
  destruct a as [[[t [k|]]|]|[k|]|?|?|?|?]; cbn; try done.
  - intros [->%Z.eqb_eq Hk%Nat.eqb_eq]%andb_true_iff _. done.
  - by intros Hk%Nat.eqb_eq.
Qed.

Lemma decodeAddress_encode a c :
  typed_address a = true → encodeCanonicalAddress a = Ok c → decodeCanonicalAddress c = Ok a.
Proof.
  intros Ht Hc. unfold encodeCanonicalAddress in Hc. apply bind_Ok in Hc as (_ & _ & Hc).
  destruct (FormatAddress a) as [s|e] eqn:Hf.
  2:{ apply decodeAddress_xdr. destruct a; rewrite ?Hf in Hc; exact Hc. }
  pose proof (typed_credential_address _ _ Ht Hf) as Ha.
  pose proof (FormatAddress_Parse_pre _ _ Ha Hf) as Hp.
  pose proof (FormatAddress_nonempty _ _ Ha Hf) as Hs.
  destruct a as [o|o|?|?|?|?]; try done; rewrite Hf in Hc; inv_ok;
    unfold decodeCanonicalAddress; cbn -[String.eqb ParseAddress];
    rewrite (proj2 (String.eqb_neq _ _) Hs); cbn -[ParseAddress]; by rewrite Hp.
Qed.

Lemma decodeExecutable_encode e c :
  typed_executable e = true → encodeCanonicalExecutable e = Ok c →
  decodeCanonicalExecutable c = Ok e.
Proof.
  intros Ht Hc. destruct e as [[h|]| |[[a tag]|]|t]; cbn in Ht, Hc; inv_ok; try done.
  - unfold decodeCanonicalExecutable. cbn -[decodeCanonicalHex]. by rewrite decodeHex_Encode.
  - unfold decodeCanonicalExecutable. cbn -[decodeCanonicalAddress decodeCanonicalText].
    rewrite (decodeAddress_encode a) by done. cbn -[decodeCanonicalText].
    by rewrite decodeText_encode.
Qed.

Lemma decodePreimage_encode p c :
  typed_preimage p = true → encodeCanonicalPreimage p = Ok c → decodeCanonicalPreimage c = Ok p.
Proof.
  intros Ht Hc. destruct p as [[[a salt]|]|[asset|]|t]; cbn in Ht, Hc; inv_ok; try done.
  - apply andb_true_iff in Ht as [Ha Hs].
    unfold decodeCanonicalPreimage. cbn -[decodeCanonicalHex decodeCanonicalAddress].
    rewrite (decodeAddress_encode a) by done. cbn -[decodeCanonicalHex].
    by rewrite decodeHex_Encode.
  - subst. rename x0 into b. unfold decodeCanonicalPreimage.
    assert (b = asset ∧ b ≠ []) as [<- Hne].
    { revert Hx. unfold Asset_MarshalBinary. destruct (Asset_valid asset) eqn:Hv; [|done].
      intros [= <-]. split; [done|]. intros ->. by rewrite asset_nonempty in Hv. }
    cbn -[String.eqb decodeCanonicalXDR].
    rewrite (proj2 (String.eqb_neq _ _) (base64_EncodeToString_nonempty b Hne)).
    cbn -[decodeCanonicalXDR]. by rewrite (decodeXDR_encode b _ _ b).
Qed.
End leaves.

(** ** Values *)
Section values.
Context `{SDK} `{AssetCodec} `{!SDKLaws} `{!CanonicalLaws}.

(** What decoding a document of [v] gives, at any depth. *)
Definition decodes (v : ScVal) : Prop := ∀ d c,
  typed_value v = true → encodeCanonicalScVal v d = Ok c →
  back (full_value v) (decodeCanonicalScVal c d) v.

Ltac split_andb :=
  repeat match goal with H : _ && _ = true |- _ => apply andb_true_iff in H as [? H] end.
Ltac decode_numbers :=
  repeat (first [rewrite decodeUint64_Format by done | rewrite decodeInt64_Format by done]; cbn).


Ltac leaf :=
  let c := fresh "c" in let d := fresh "d" in
  intros d c Ht Hc; cbn [encodeCanonicalScVal] in Hc;
  let Hd := fresh "Hd" in apply bind_Ok in Hc as ([] & Hd & Hc);
  cbn -[encodeCanonicalAddress encodeCanonicalText base64_EncodeToString FormatInt FormatUint
    safeMarshalBase64 encodeCanonicalExecutable] in Hc;
  inv_ok; cbn; rewrite Hd; cbn in Ht |- *; split_andb; decode_numbers; try done.

(** A value kept as its encoding. *)
Lemma decodeScValXDR_encode v expected s :
  isErrorValue v || isNonceKey v = true → expected v = true → safeMarshalBase64 v = Ok s →
  decodeCanonicalScValXDR s expected = Ok v ∧ s ≠ "".
Proof.
  intros Hflat He (b & Hb & ->)%fmap_Ok. pose proof (value_encoding_nonempty _ _ Hb) as Hne.
  split; [|by apply base64_EncodeToString_nonempty]. unfold decodeCanonicalScValXDR.
  rewrite (decodeXDR_encode v _ _ b Hb Hne (flat_value_decodes _ _ Hflat Hb)). cbn. by rewrite He.
Qed.

Lemma requireXDR ty s : s ≠ "" → requireScValFields (doc_XDR ty s) ["xdr"] = Ok ().
Proof.
  intros Hs. unfold requireScValFields, presentFields. cbn -[String.eqb].
  by rewrite (proj2 (String.eqb_neq _ _) Hs).
Qed.

Lemma scalar_decodes v :
  match v with
  | ScvVec (Some (Some _)) | ScvMap (Some (Some _)) => True
  | ScvContractInstance (Some i) => is_Some (Storage i) ∨ decodes v
  | _ => decodes v
  end.
Proof.
  destruct v as [[o|]| |[o|]|[o|]|[o|]|[o|]|[o|]|[o|]|[o|]|[[h l]|]|[[h l]|]|[[[[h g] f] l]|]
    |[[[[h g] f] l]|]|[o|]|[o|]|[o|]|[[l|]|]|[[l|]|]|[o|]|[[e [st|]]|]| |[o|]|[o|]|t];
    try exact I; try (left; by eexists); try right; leaf;
    try (by rewrite decodeText_encode); try (by rewrite (decodeAddress_encode o));
    try (by rewrite (decodeExecutable_encode e) by done).
  - destruct (decodeScValXDR_encode (ScvError (Some o)) isErrorValue x) as [Hx' Hs]; try done.
    pose proof (requireXDR "error" x Hs) as Hr. unfold doc_XDR in Hr. by rewrite Hr, Hx'.
  - rewrite <-(andb_true_r (negb _)). apply back_bind with (x := o); [apply decodeBase64_Encode|done].
  - destruct (decodeScValXDR_encode (ScvLedgerKeyNonce (Some o)) isNonceKey x) as [Hx' Hs]; try done.
    pose proof (requireXDR "ledger_key_nonce" x Hs) as Hr. unfold doc_XDR in Hr.
    by rewrite Hr, Hx'.
Qed.

(** Lists of values and of map entries, one level down. *)
Lemma values_decode (p q : nat → string) l d cs i j :
  Forall decodes l → forallb typed_value l = true →
  imapM_from (λ k v, wrap (p k) (encodeCanonicalScVal v d)) i l = Ok cs →
  back (forallb full_value l)
    (imapM_from (λ k c, wrap (q k) (decodeCanonicalScVal c d)) j cs) l.
Proof.
  intros Hl Ht Hc. eapply encoded_list; [exact Hc|].
  rewrite Forall_forall in Hl |- *. intros v Hv k k' c Hvc%wrap_Ok. apply back_wrap.
  apply (Hl v Hv); [|done]. by eapply forallb_elem.
Qed.

Lemma entries_decode l d cs i j :
  Forall (P_pair decodes) l → forallb (on_pair typed_value) l = true →
  imapM_from (encodeEntry (λ v, encodeCanonicalScVal v d)) i l = Ok cs →
  back (forallb (on_pair full_value) l)
    (imapM_from (decodeEntry (λ c, decodeCanonicalScVal c d)) j cs) l.
Proof.
  intros Hl Ht Hc. eapply encoded_list; [exact Hc|].
  rewrite Forall_forall in Hl |- *. intros [key val] Hv n n' c Hvc.
  destruct (Hl _ Hv) as [Hkey Hval]. cbn in Hkey, Hval.
  pose proof (forallb_elem _ _ _ Ht Hv) as [Htk Htv]%andb_true_iff.
  cbn [encodeEntry] in Hvc. inv_ok. cbn [decodeEntry on_pair].
  apply back_bind with (x := key); [by apply back_wrap, Hkey|].
  rewrite <-(andb_true_r (full_value val)).
  apply back_bind with (x := val); [by apply back_wrap, Hval|done].
Qed.

Lemma value_decodes v : decodes v.
Proof.
  revert v. apply ScVal_nested_ind; [apply scalar_decodes| | |].
  - intros l Hl d c Ht Hc. cbn in Hc. inv_ok. cbn. rewrite Hx. cbn.
    rewrite <-(andb_true_r (forallb _ _)).
    apply back_bind with (x := l); [|done].
    by apply (values_decode (λ i, "vec item " +:+ pretty i) (λ i, "value " +:+ pretty i))
      with (i := 0).
  - intros l Hl d c Ht Hc. cbn in Hc. inv_ok. cbn. rewrite Hx. cbn.
    rewrite <-(andb_true_r (forallb _ _)).
    eapply back_bind; [by eapply entries_decode|done].
  - intros e l Hl d c Ht Hc. cbn in Ht. apply andb_true_iff in Ht as [Hte Ht].
    cbn -[encodeCanonicalExecutable] in Hc. inv_ok.
    cbn -[decodeCanonicalExecutable]. rewrite Hx. cbn -[decodeCanonicalExecutable].
    rewrite (decodeExecutable_encode e) by done. cbn.
    rewrite <-(andb_true_r (forallb _ _)).
    eapply back_bind; [|done]. cbn. rewrite <-(andb_true_r (forallb _ _)).
    eapply back_bind; [by eapply entries_decode|done].
Qed.
End values.

(** ** Invocations, delegates and credentials *)
Section entries.
Context `{SDK} `{AssetCodec} `{!SDKLaws} `{!CanonicalLaws}.

Lemma ScVals_decode l d cs :
  forallb typed_value l = true → encodeCanonicalScVals l d = Ok cs →
  back (forallb full_value l) (decodeCanonicalScVals cs d) l.
Proof.
  intros Ht Hc. eapply (values_decode (λ i, "value " +:+ pretty i)); [|done|exact Hc].
  apply Forall_forall. intros v _. apply value_decodes.
Qed.

Lemma function_decodes f d c :
  typed_function f = true → encodeCanonicalFunction f d = Ok c →
  back (forallb full_value (function_values f)) (decodeCanonicalFunction c d) f.
Proof.
  intros [Hv Ht]%andb_true_iff Hc.
  destruct f as [[[a n l]|]|[[p e]|]|[[p e l]|]|t]; cbn in Hv, Ht;
    cbn -[encodeCanonicalAddress encodeCanonicalPreimage encodeCanonicalExecutable
          encodeCanonicalScVals encodeCanonicalText] in Hc; inv_ok; try done;
    unfold decodeCanonicalFunction; cbn -[decodeCanonicalAddress decodeCanonicalPreimage
      decodeCanonicalExecutable decodeCanonicalScVals decodeCanonicalText].
  - rewrite (decodeAddress_encode a) by done. cbn -[decodeCanonicalScVals decodeCanonicalText].
    rewrite decodeText_encode. cbn -[decodeCanonicalScVals]. rewrite <-(andb_true_r (forallb _ _)).
    apply back_bind with (x := l); [by apply ScVals_decode|done].
  - apply andb_true_iff in Ht as [Hp He].
    rewrite (decodePreimage_encode p) by done. cbn -[decodeCanonicalExecutable].
    by rewrite (decodeExecutable_encode e).
  - apply andb_true_iff in Ht as [Hp He].
    rewrite (decodePreimage_encode p) by done.
    cbn -[decodeCanonicalScVals decodeCanonicalExecutable].
    rewrite (decodeExecutable_encode e) by done. cbn -[decodeCanonicalScVals].
    rewrite <-(andb_true_r (forallb _ _)).
    apply back_bind with (x := l); [by apply ScVals_decode|done].
Qed.

Lemma invocation_decodes i : ∀ d c,
  typed_invocation i = true → encodeCanonicalInvocation i d = Ok c →
  back (full_invocation i) (decodeCanonicalInvocation c d) i.
Proof.
  induction i as [f subs IH] using invocation_nested_ind. intros d c Ht Hc.
  cbn in Ht. apply andb_true_iff in Ht as [Hf Hs].
  cbn -[encodeCanonicalFunction] in Hc. inv_ok. cbn -[decodeCanonicalFunction].
  rewrite Hx. cbn -[decodeCanonicalFunction].
  apply back_bind with (x := f); [by apply function_decodes|].
  rewrite <-(andb_true_r (forallb _ _)). apply back_bind with (x := subs); [|done].
  eapply encoded_list; [exact Hx1|]. rewrite Forall_forall in IH |- *.
  intros sub Hsub k k' c' Hc'%wrap_Ok. apply back_wrap, (IH sub Hsub); [|done].
  by eapply forallb_elem.
Qed.

Lemma delegate_decodes x : ∀ d i j c,
  typed_delegate x = true → encodeCanonicalDelegate d i x = Ok c →
  back (full_delegate x) (decodeCanonicalDelegate d j c) x.
Proof.
  induction x as [a s n IH] using delegate_nested_ind. intros d i j c Ht Hc.
  cbn in Ht. apply andb_true_iff in Ht as [[Ha Hs]%andb_true_iff Hn].
  cbn -[encodeCanonicalAddress] in Hc. inv_ok. cbn -[decodeCanonicalAddress].
  rewrite (decodeAddress_encode a) by done. cbn.
  apply back_bind with (x := s); [by apply back_wrap, value_decodes|].
  rewrite <-(andb_true_r (forallb _ _)). apply back_bind with (x := n); [|done].
  apply back_wrap. rewrite Hx2. cbn. eapply encoded_list; [exact Hx1|].
  rewrite Forall_forall in IH |- *. intros y Hy k k' c' Hc'. eapply (IH y Hy); [|exact Hc'].
  by eapply forallb_elem.
Qed.

Lemma delegates_decode l d c :
  forallb typed_delegate l = true → encodeCanonicalDelegates l d = Ok c →
  back (forallb full_delegate l) (decodeCanonicalDelegates c d) l.
Proof.
  intros Ht Hc. unfold encodeCanonicalDelegates in Hc. inv_ok.
  unfold decodeCanonicalDelegates. rewrite Hx. cbn. eapply encoded_list; [exact Hc|].
  rewrite Forall_forall. intros y Hy k k' c' Hc'. eapply delegate_decodes; [|exact Hc'].
  by eapply forallb_elem.
Qed.

(** The shared part of the three address arms; the delegates array is set
    after it. *)
Lemma addressCredentials_decode ty a d c nodes :
  typed_credentials a = true → encodeCanonicalAddressCredentials ty a d = Ok c →
  Cred_Type c = ty ∧ Cred_Delegates c = None ∧
  back (full_value (Signature a))
    (decodeCanonicalAddressCredentials
       (mkCredentialDoc (Cred_Type c) (Cred_Address c) (Cred_Nonce c)
          (Cred_SignatureExpirationLedger c) (Cred_Signature c) nodes) d) a.
Proof.
  destruct a as [addr n e s]. intros [[[Ha Hn]%andb_true_iff _]%andb_true_iff Hs]%andb_true_iff Hc.
  cbn in Ha, Hn, Hs. unfold encodeCanonicalAddressCredentials in Hc. inv_ok.
  do 2 (split; [done|]). unfold decodeCanonicalAddressCredentials.
  cbn -[decodeCanonicalAddress decodeCanonicalInt64 FormatInt decodeCanonicalScVal] in *.
  rewrite (decodeAddress_encode addr) by done. cbn -[decodeCanonicalInt64 FormatInt decodeCanonicalScVal].
  rewrite decodeInt64_Format by done. cbn -[decodeCanonicalScVal].
  rewrite <-(andb_true_r (full_value s)).
  apply back_bind with (x := s); [by apply value_decodes|done].
Qed.

Lemma credentials_decode c d doc :
  known_arm c = true → on_credentials typed_credentials typed_delegate c = true →
  encodeCanonicalCredentials c d = Ok doc →
  back (on_credentials (λ a, full_value (Signature a)) full_delegate c)
    (decodeCanonicalCredentials doc d) c.
Proof.
  intros Hk Ht Hc. unfold encodeCanonicalCredentials in Hc. apply bind_Ok in Hc as ([] & Hd & Hc).
  unfold decodeCanonicalCredentials. rewrite Hd.
  destruct c as [|[a|]|[a|]|[[a l]|]|t]; cbn -[encodeCanonicalAddressCredentials
    encodeCanonicalDelegates] in *; inv_ok; try done.
  - destruct (addressCredentials_decode _ _ _ _ None Ht Hc) as (Hty & Hn & Hb).
    destruct doc as [ty x1 x2 x3 x4 x5]; cbn in Hty, Hn, Hb; subst.
    cbn -[decodeCanonicalAddressCredentials]. rewrite <-(andb_true_r (full_value _)).
    by apply back_bind with (x := a).
  - destruct (addressCredentials_decode _ _ _ _ None Ht Hc) as (Hty & Hn & Hb).
    destruct doc as [ty x1 x2 x3 x4 x5]; cbn in Hty, Hn, Hb; subst.
    cbn -[decodeCanonicalAddressCredentials]. rewrite <-(andb_true_r (full_value _)).
    by apply back_bind with (x := a).
  - apply andb_true_iff in Ht as [Ha Hl].
    destruct (addressCredentials_decode _ _ _ _ (Some x1) Ha Hx) as (Hty & Hn & Hb).
    destruct x as [ty y1 y2 y3 y4 y5]; cbn in Hty, Hn, Hb; subst.
    cbn -[decodeCanonicalAddressCredentials decodeCanonicalDelegates].
    apply back_bind with (x := a); [done|]. rewrite <-(andb_true_r (forallb _ _)).
    apply back_bind with (x := l); [by apply delegates_decode|done].
Qed.
End entries.

(** ** Theorem *)
Section canonical_theorem.
Context `{SDK} `{AssetCodec} `{!SDKLaws} `{!CanonicalLaws}.

(** A document the encoder wrote for an entry decodes to exactly that entry
    when no byte string in it is empty, and is refused when one is: the encoder
    writes an empty byte string as empty base64, which the decoder does not
    accept. *)
Theorem document_roundtrip e document :
  typed_entry e = true → canonicalDocument e = Ok document →
  (full_entry e = true → entryOfDocument document = Ok e) ∧
  (full_entry e = false → is_ok (entryOfDocument document) = false).
Proof.
  intros Ht Hc. cut (back (full_entry e) (entryOfDocument document) e).
  { destruct (full_entry e); split; done. }
  destruct e as [c i]. unfold typed_entry in Ht. cbn in Ht.
  apply andb_true_iff in Ht as [[Hk Hcr]%andb_true_iff Hi].
  unfold canonicalDocument in Hc. inv_ok. cbn in Hx0, Hx1. unfold entryOfDocument.
  cbn [SchemaVersion Entry_Credentials Entry_RootInvocation]. unfold full_entry.
  cbn [Credentials RootInvocation refuse negb Z.eqb CanonicalJSONSchemaVersion Pos.eqb mbind
       result_bind].
  apply back_bind with (x := c); [by apply back_wrap, credentials_decode|].
  rewrite <-(andb_true_r (full_invocation i)).
  apply back_bind with (x := i); [by apply back_wrap, invocation_decodes|].
  by rewrite Hx.
Qed.
End canonical_theorem.

(** ** The laws hold of the model SDK *)
#[export] Instance ModelAssets : AssetCodec := {| Asset_valid b := negb (bool_decide (b = [])) |}.

Lemma wser_nonempty t : wser t ≠ [].
Proof. by destruct t. Qed.

Lemma model_Marshal_nonempty {T} `{EqDecision T} (w : T → wtree) r v b :
  model_Marshal w r v = Ok b → b ≠ [].
Proof.
  unfold model_Marshal. destruct (model_Decode r (wser (w v))) as [[v' n]|]; [|done].
  destruct (decide (v' = v)); [|done]. intros [= <-]. apply wser_nonempty.
Qed.

#[export] Instance ModelCanonicalLaws : CanonicalLaws.
Proof.
  split.
  - intros a b. apply model_Marshal_nonempty.
  - intros v b. apply model_Marshal_nonempty.
  - intros v b _ (n & Hn)%model_Marshal_Decode. cbn. by rewrite Hn.
  - done.
  - intros [| | |v] p s; cbn; by intros [= <-].
Qed.

Definition ex_instance : ScVal :=
  ScvContractInstance (Some (mkScContractInstance (ContractExecutableWasm (Some (ex_key "w")))
    (Some [(ScvSymbol (Some "n"), ScvI128 (Some (-1, 5)%Z));
           (ScvAddress (Some (ex_contract "z")), ScvVec (Some None))]))).
Definition ex_canonical (v : ScVal) : SorobanAuthorizationEntry :=
  ex_with_delegates "a" 9 (ScvVec (Some (Some [v; ex_instance]))) ex_tree.

Lemma document_roundtrip_witness :
  (∃ d, canonicalDocument (ex_canonical (ScvBytes (Some [x01]))) = Ok d ∧
     entryOfDocument d = Ok (ex_canonical (ScvBytes (Some [x01])))) ∧
  (∃ d, canonicalDocument (ex_canonical (ScvBytes (Some []))) = Ok d ∧
     is_ok (entryOfDocument d) = false).
Proof.
  split.
  - eexists. split; [vm_compute; reflexivity|].
    eapply (document_roundtrip (ex_canonical (ScvBytes (Some [x01])))); vm_compute; reflexivity.
  - eexists. split; [vm_compute; reflexivity|].
    eapply (document_roundtrip (ex_canonical (ScvBytes (Some [])))); vm_compute; reflexivity.
Defined.
