(* ===== verification/CanonicalScan.v ===== *)
(** * CanonicalScan: the walk over a canonical document's tokens (canonical.go)

    [rejectDuplicateJSONKeys] walks the tokens of a text before anything is
    decoded from it, through the decoder of [Json], whose states decide which
    separator it skips.  The walk accepts exactly the texts of one value that
    repeats no key and nests at most to the limit
    ([rejectDuplicateJSONKeys_values]); [scan_sound] and [accepts_all] are the
    two directions. *)
From Stdlib Require Import ZArith Lia Strings.Byte Strings.Ascii String.
From stdpp Require Import base list strings gmap pretty.
From S2P Require Import Prelude Encoding Errors Xdr ModelSDK Runtime Examples Address Limits Arm.
From S2P Require Import Json JsonText Canonical CanonicalRoundtrip.

Open Scope string_scope. Open Scope nat_scope. Open Scope list_scope.

(** ** Repeated keys and trailing data *)
Definition outOfFuel : error := EText "out of fuel".

Definition nestingLimit : error :=
  EWrap ("JSON nesting exceeds the " +:+ pretty (MaxDecodeDepth * 8)%Z +:+ "-level limit")
    (ESentinel ErrDecodeLimit).

(** Every call takes a token or is one step above one that does, so twice the
    number of lexemes is enough fuel. *)
Fixpoint scanJSONValue (fuel : nat) (decoder : Decoder) (depth : Z) : result Decoder :=
  match fuel with
  | O => Err outOfFuel
  | S fuel =>
      _ ← refuse (depth >? MaxDecodeDepth * 8)%Z nestingLimit;
      '(token, decoder) ← Token decoder;
      match token with
      | Delim "{" => scanMembers fuel decoder depth ∅
      | Delim "[" => scanElements fuel decoder depth
      | Delim delimiter => Err (EText ("unexpected delimiter " +:+ String delimiter ""))
      | _ => Ok decoder
      end
  end
with scanMembers (fuel : nat) (decoder : Decoder) (depth : Z) (seen : gset string) : result Decoder :=
  match fuel with
  | O => Err outOfFuel
  | S fuel =>
      if More decoder then
        '(keyToken, decoder) ← Token decoder;
        match keyToken with
        | TokenString key =>
            _ ← refuse (bool_decide (key ∈ seen)) (EText ("duplicate object key " +:+ quoted key));
            decoder ← scanJSONValue fuel decoder (depth + 1);
            scanMembers fuel decoder depth ({[key]} ∪ seen)
        | _ => Err (EText "object key is not a string")
        end
      else '(_, decoder) ← Token decoder; Ok decoder
  end
with scanElements (fuel : nat) (decoder : Decoder) (depth : Z) : result Decoder :=
  match fuel with
  | O => Err outOfFuel
  | S fuel =>
      if More decoder then
        decoder ← scanJSONValue fuel decoder (depth + 1);
        scanElements fuel decoder depth
      else '(_, decoder) ← Token decoder; Ok decoder
  end.

Definition trailingData : error := EText "trailing data after the JSON value".

Definition rejectDuplicateJSONKeys (data : string) : result unit :=
  let decoder := NewDecoder data in
  decoder ← scanJSONValue (2 * length (input decoder) + 2) decoder 0;
  match Token decoder with
  | Err err => if String.eqb (Error err) "EOF" then Ok tt else Err err
  | Ok _ => Err trailingData
  end.

(** ** What the walk accepts *)
(** [Token] skips the one separator its state has. *)
Definition settle (st : tokenState) (l : list lexeme) : tokenState * list lexeme :=
  match st, l with
  | tokenObjectColon, LColon :: l => (tokenObjectValue, l)
  | tokenArrayComma, LComma :: l => (tokenArrayValue, l)
  | tokenObjectComma, LComma :: l => (tokenObjectKey, l)
  | _, _ => (st, l)
  end.

Lemma tokenOf_input x rest i st stack :
  tokenOf x rest (mkDecoder i st stack) = tokenOf x rest (mkDecoder [] st stack).
Proof. by destruct x. Qed.

Lemma Token_settle l st stack :
  Token (mkDecoder l st stack) =
    match settle st l with
    | (st, x :: rest) => tokenOf x rest (mkDecoder [] st stack)
    | (_, []) => Err errEOF
    end.
Proof.
  unfold Token. cbn [input state tokenStack].
  destruct l as [|x l]; [by destruct st|].
  destruct x; cbn [tokenLoop settle]; rewrite ?tokenOf_input; try (by destruct st);
    destruct st; cbn [settle]; try done;
    (destruct l as [|y l]; [done|]; destruct y; cbn [tokenLoop]; by rewrite ?tokenOf_input).
Qed.

(** Items after the opening of their array or object, or after an item. *)
Definition follow (st : tokenState) (items : list (list lexeme)) : list lexeme :=
  match st with
  | tokenArrayStart | tokenObjectStart => separated items
  | _ => concat (map (cons LComma) items)
  end.

(** A value that nests at most to the limit from a depth on. *)
Definition scannable (depth : Z) (v : json) : Prop :=
  unique_keys v ∧ (depth + Z.of_nat (height v) <= MaxDecodeDepth * 8)%Z.

Lemma scannable_array depth l : (depth <= MaxDecodeDepth * 8)%Z →
  scannable depth (JArray l) ↔ Forall (scannable (depth + 1)) l.
Proof.
  intros Hd. unfold scannable. cbn [unique_keys height].
  induction l as [|v l IH]; cbn [foldr]; [split; [constructor|]; cbn; lia|].
  rewrite Forall_cons, <-IH. rewrite Nat2Z.inj_max, Nat2Z.inj_succ. naive_solver lia.
Qed.

Lemma scannable_object depth l : (depth <= MaxDecodeDepth * 8)%Z →
  scannable depth (JObject l) ↔ NoDup (map fst l) ∧ Forall (λ kv, scannable (depth + 1) kv.2) l.
Proof.
  intros Hd. unfold scannable. cbn [unique_keys height].
  induction l as [|kv l IH]; cbn [foldr map].
  { split; [intros _; split; constructor|]. intros _. repeat split; [constructor|]. cbn; lia. }
  rewrite Forall_cons, NoDup_cons, Nat2Z.inj_max, Nat2Z.inj_succ.
  match goal with |- context [(_ + Z.succ ?h `max` ?m <= ?k)%Z] =>
    assert ((depth + Z.succ h `max` m <= k ↔ depth + 1 + h <= k ∧ depth + m <= k)%Z) as -> by lia
  end. tauto.
Qed.

(** *** Everything accepted is one value *)
(** The states in which the walk starts a value. *)
Definition value_state (st : tokenState) : bool :=
  match st with tokenTopValue | tokenArrayStart | tokenArrayComma | tokenObjectColon => true | _ => false end.
Definition member_state (st : tokenState) : bool :=
  match st with tokenObjectStart | tokenObjectComma => true | _ => false end.
Definition element_state (st : tokenState) : bool :=
  match st with tokenArrayStart | tokenArrayComma => true | _ => false end.

Definition reads_value (l : list lexeme) st stack depth dec : Prop := ∃ v st' rest,
  settle st l = (st', lexemes v ++ rest) ∧ tokenValueAllowed st' = true ∧
  dec = mkDecoder rest (tokenValueEnd st') stack ∧ scannable depth v.

Definition reads_elements (l : list lexeme) st s0 stack depth dec : Prop := ∃ vs rest,
  l = follow st (map lexemes vs) ++ LArrayClose :: rest ∧
  dec = mkDecoder rest (tokenValueEnd s0) stack ∧ Forall (scannable (depth + 1)) vs.

Definition reads_members (l : list lexeme) st s0 stack depth (seen : gset string) dec : Prop :=
  ∃ kvs rest,
  l = follow st (map member kvs) ++ LObjectClose :: rest ∧
  dec = mkDecoder rest (tokenValueEnd s0) stack ∧
  NoDup (map fst kvs) ∧ Forall (λ k, k ∉ seen) (map fst kvs) ∧
  Forall (λ kv, scannable (depth + 1) kv.2) kvs.

Lemma scannable_scalar depth v : (depth <= MaxDecodeDepth * 8)%Z → height v = 0 → unique_keys v →
  scannable depth v.
Proof. intros ? E ?. split; [done|]. rewrite E. lia. Qed.

(** Where a value starts, a token is a scalar, an opening, or nothing good. *)
Lemma Token_value l st stack t dec : value_state st = true →
  Token (mkDecoder l st stack) = Ok (t, dec) → ∃ st' rest,
  (tokenValueAllowed st' = true ∧
    ((t = Delim "[" ∧ settle st l = (st', LArrayOpen :: rest) ∧
        dec = mkDecoder rest tokenArrayStart (st' :: stack)) ∨
     (t = Delim "{" ∧ settle st l = (st', LObjectOpen :: rest) ∧
        dec = mkDecoder rest tokenObjectStart (st' :: stack)) ∨
     (∃ v, height v = 0 ∧ unique_keys v ∧ (∀ c, t ≠ Delim c) ∧ settle st l = (st', lexemes v ++ rest) ∧
        dec = mkDecoder rest (tokenValueEnd st') stack))) ∨
  t = Delim "]".
Proof.
  intros Hv. rewrite Token_settle.
  assert (∀ st' l', settle st l = (st', l') → st' ≠ tokenObjectStart ∧ st' ≠ tokenObjectKey ∧ st' ≠ tokenObjectComma)
    as Hst.
  { intros st' l'. destruct st, l as [|[] l]; cbn; intros [= <- <-]; done. }
  destruct (settle st l) as [st' [|x rest]] eqn:E; [done|].
  destruct (Hst _ _ eq_refl) as (? & ? & ?). clear Hst.
  destruct x as [| | | | | |s|s|b| |], st'; cbn; intros Ht; try done; inv_ok; subst;
    match type of E with _ = (?s, _) => exists s, rest end;
    first [by right|left; split; [reflexivity|]]; first [by left|right; by left|right; right].
  all: first [exists JNull; by repeat split|exists (JBool b); by repeat split
             |exists (JNumber s); by repeat split|exists (JString s); by repeat split].
Qed.

Lemma settle_colon l st' l' : settle tokenObjectColon l = (st', l') → tokenValueAllowed st' = true →
  st' = tokenObjectValue ∧ l = LColon :: l'.
Proof. destruct l as [|[] l]; cbn; intros [= <- <-]; done. Qed.

Lemma settle_element st l st' l' : element_state st = true → settle st l = (st', l') →
  tokenValueAllowed st' = true →
  tokenValueEnd st' = tokenArrayComma ∧
  l = (if st is tokenArrayStart then l' else LComma :: l').
Proof. destruct st, l as [|[] l]; cbn; try done; intros _ [= <- <-]; done. Qed.

(** An item after a state: its first one stands alone, the others after a comma. *)
Definition lead (st : tokenState) (x : list lexeme) : list lexeme :=
  match st with tokenArrayStart | tokenObjectStart => x | _ => LComma :: x end.

Lemma follow_cons st x items : follow st (x :: items) = lead st x ++ follow tokenTopValue items.
Proof. destruct st; cbn [follow lead map concat]; rewrite ?separated_cons; done. Qed.

Lemma Token_key l st stack key dec : member_state st = true →
  Token (mkDecoder l st stack) = Ok (TokenString key, dec) →
  ∃ rest, l = lead st (LString key :: rest) ∧ dec = mkDecoder rest tokenObjectColon stack.
Proof.
  intros Hm. rewrite Token_settle.
  destruct st, l as [|[] l]; try done; cbn; intros Ht; inv_ok; try (subst; eauto; done).
  destruct l as [|[] l]; cbn in Ht; inv_ok; try done. subst. eauto.
Qed.

Lemma Token_close_object l st s0 stack t dec : member_state st = true →
  More (mkDecoder l st (s0 :: stack)) = false → Token (mkDecoder l st (s0 :: stack)) = Ok (t, dec) →
  ∃ rest, l = LObjectClose :: rest ∧ dec = mkDecoder rest (tokenValueEnd s0) stack.
Proof.
  intros Hm HM. rewrite Token_settle.
  destruct st, l as [|[] l]; try done; cbn; intros Ht; inv_ok; subst; eauto.
Qed.

Lemma Token_close_array l st s0 stack t dec : element_state st = true →
  More (mkDecoder l st (s0 :: stack)) = false → Token (mkDecoder l st (s0 :: stack)) = Ok (t, dec) →
  ∃ rest, l = LArrayClose :: rest ∧ dec = mkDecoder rest (tokenValueEnd s0) stack.
Proof.
  intros Hm HM. rewrite Token_settle.
  destruct st, l as [|[] l]; try done; cbn; intros Ht; inv_ok; subst; eauto.
Qed.

Lemma scan_sound fuel :
  (∀ l st stack depth dec, value_state st = true →
    scanJSONValue fuel (mkDecoder l st stack) depth = Ok dec → reads_value l st stack depth dec) ∧
  (∀ l st s0 stack depth seen dec, member_state st = true →
    scanMembers fuel (mkDecoder l st (s0 :: stack)) depth seen = Ok dec →
    reads_members l st s0 stack depth seen dec) ∧
  (∀ l st s0 stack depth dec, element_state st = true →
    scanElements fuel (mkDecoder l st (s0 :: stack)) depth = Ok dec →
    reads_elements l st s0 stack depth dec).
Proof.
  induction fuel as [|fuel (IHv & IHm & IHe)]; [done|]. split; [|split].
  - intros l st stack depth dec Hv Hs. cbn [scanJSONValue] in Hs. inv_ok.
    rewrite Z.gtb_ltb, Z.ltb_ge in Hx. destruct x0 as [t d].
    destruct (Token_value _ _ _ _ _ Hv Hx0) as (st' & rest & [[Ha Hcase]| ->]); [|done].
    destruct Hcase as [(-> & E & ->)|[(-> & E & ->)|(v & Hh & Hu & Ht & E & ->)]].
    + apply IHe in Hs as (vs & rest' & -> & -> & Hvs); [|done].
      exists (JArray vs), st', rest'. rewrite E. cbn [lexemes follow app]. rewrite <-app_assoc.
      do 3 (split; [done|]). by apply scannable_array.
    + apply IHm in Hs as (kvs & rest' & -> & -> & Hn & _ & Hvs); [|done].
      exists (JObject kvs), st', rest'. rewrite E. cbn [lexemes follow app]. rewrite <-app_assoc.
      do 3 (split; [done|]). by apply scannable_object.
    + assert (mkDecoder rest (tokenValueEnd st') stack = dec) as <-.
      { destruct t as [c| |]; [by destruct (Ht c)|by injection Hs..]. }
      exists v, st', rest. do 3 (split; [done|]). by apply scannable_scalar.
  - intros l st s0 stack depth seen dec Hm Hs. cbn [scanMembers] in Hs.
    destruct (More _) eqn:EM.
    + inv_ok. destruct x as [t d]. destruct t as [|key|]; [done| |done]. inv_ok.
      apply Token_key in Hx as (rest & -> & ->); [|done].
      apply IHv in Hx1 as (v & st' & rest' & E & Ha & -> & Hv); [|done].
      destruct (settle_colon _ _ _ E Ha) as [-> ->].
      apply IHm in Hs as (kvs & rest'' & -> & -> & Hn & Hf & Hvs); [|done].
      exists ((key, v) :: kvs), rest''. rewrite map_cons, follow_cons.
      split; [by destruct st; cbn; rewrite <-?app_assoc|]. split; [done|].
      apply bool_decide_eq_false in Hx0. rewrite !map_cons. split; [|split].
      * apply NoDup_cons. split; [|done]. intros Hk. rewrite Forall_forall in Hf.
        apply (Hf key Hk), elem_of_union_l. by apply elem_of_singleton.
      * constructor; [done|]. eapply Forall_impl; [exact Hf|]. cbn. intros k Hk Hs. by apply Hk, elem_of_union_r.
      * by constructor.
    + inv_ok. destruct x as [t d]. injection Hs as <-.
      apply Token_close_object in Hx as (rest & -> & ->); [|done..].
      exists [], rest. destruct st; try done; (repeat split; [constructor..]).
  - intros l st s0 stack depth dec Hm Hs. cbn [scanElements] in Hs.
    destruct (More _) eqn:EM.
    + inv_ok. apply IHv in Hx as (v & st' & rest' & E & Ha & -> & Hv); [|by destruct st].
      destruct (settle_element _ _ _ _ Hm E Ha) as [HE ->]. rewrite HE in Hs.
      apply IHe in Hs as (vs & rest'' & -> & -> & Hvs); [|done].
      exists (v :: vs), rest''. rewrite map_cons, follow_cons.
      split; [by destruct st; cbn; rewrite <-?app_assoc|]. split; [done|by constructor].
    + inv_ok. destruct x as [t d]. injection Hs as <-.
      apply Token_close_array in Hx as (rest & -> & ->); [|done..].
      exists [], rest. destruct st; try done; (repeat split; [constructor..]).
Qed.

(** *** Every value within the limits is accepted *)
Definition accepts (v : json) : Prop := ∀ fuel l st st' rest stack depth,
  2 * length (lexemes v) <= fuel → value_state st = true →
  settle st l = (st', lexemes v ++ rest) → tokenValueAllowed st' = true → scannable depth v →
  scanJSONValue fuel (mkDecoder l st stack) depth = Ok (mkDecoder rest (tokenValueEnd st') stack).

Lemma within_limit depth v : scannable depth v → (depth >? MaxDecodeDepth * 8)%Z = false.
Proof. intros [_ ?]. rewrite Z.gtb_ltb, Z.ltb_ge. lia. Qed.

Lemma within_le depth v : scannable depth v → (depth <= MaxDecodeDepth * 8)%Z.
Proof. intros [_ ?]. lia. Qed.

(** A value starts with a lexeme that is neither closing nor separating. *)
Lemma More_lexemes v rest st stack : More (mkDecoder (lexemes v ++ rest) st stack) = true.
Proof. by destruct v. Qed.

Lemma lexemes_positive v : 0 < length (lexemes v).
Proof. destruct v; cbn; lia. Qed.

Lemma accepts_elements vs : Forall accepts vs → ∀ fuel st rest s0 stack depth,
  element_state st = true → 2 * length (follow st (map lexemes vs)) + 1 <= fuel →
  Forall (scannable (depth + 1)) vs →
  scanElements fuel (mkDecoder (follow st (map lexemes vs) ++ LArrayClose :: rest) st (s0 :: stack)) depth =
    Ok (mkDecoder rest (tokenValueEnd s0) stack).
Proof.
  induction 1 as [|v vs Hv _ IH]; intros [|fuel] st rest s0 stack depth Hst Hf Hs; try lia.
  { by destruct st. }
  apply Forall_cons in Hs as [Hsv Hs]. rewrite map_cons, follow_cons in *.
  rewrite length_app in Hf. rewrite <-app_assoc. cbn [scanElements].
  assert (More (mkDecoder (lead st (lexemes v) ++ follow tokenTopValue (map lexemes vs) ++ LArrayClose :: rest)
            st (s0 :: stack)) = true) as -> by (destruct st; try done; apply More_lexemes).
  assert (∃ st', settle st (lead st (lexemes v) ++ follow tokenTopValue (map lexemes vs) ++ LArrayClose :: rest) =
    (st', lexemes v ++ follow tokenTopValue (map lexemes vs) ++ LArrayClose :: rest) ∧
    tokenValueAllowed st' = true ∧ tokenValueEnd st' = tokenArrayComma) as (st' & E & Ha & He)
    by (destruct st; try done; eauto).
  pose proof (lexemes_positive v).
  assert (length (lexemes v) <= length (lead st (lexemes v))) by (destruct st; cbn; lia).
  erewrite Hv; [|lia|by destruct st|exact E|exact Ha|exact Hsv]. cbn [mbind result_bind].
  rewrite He. change (follow tokenTopValue (map lexemes vs)) with (follow tokenArrayComma (map lexemes vs)) in *.
  apply IH; [done| |done]. lia.
Qed.

Lemma accepts_members kvs : Forall (λ kv, accepts kv.2) kvs → ∀ fuel st rest s0 stack depth (seen : gset string),
  member_state st = true → 2 * length (follow st (map member kvs)) + 1 <= fuel →
  NoDup (map fst kvs) → Forall (λ k, k ∉ seen) (map fst kvs) →
  Forall (λ kv, scannable (depth + 1) kv.2) kvs →
  scanMembers fuel (mkDecoder (follow st (map member kvs) ++ LObjectClose :: rest) st (s0 :: stack)) depth seen =
    Ok (mkDecoder rest (tokenValueEnd s0) stack).
Proof.
  induction 1 as [|[k v] kvs Hv _ IH]; intros [|fuel] st rest s0 stack depth seen Hst Hf Hn Hseen Hs; try lia.
  { by destruct st. }
  apply Forall_cons in Hs as [Hsv Hs]. rewrite !map_cons in *. cbn [fst snd] in *.
  apply NoDup_cons in Hn as [Hk Hn]. apply Forall_cons in Hseen as [Hks Hseen].
  rewrite follow_cons in *. rewrite length_app in Hf. rewrite <-app_assoc. cbn [scanMembers].
  set (tail := follow tokenTopValue (map member kvs) ++ LObjectClose :: rest).
  assert (length (lexemes v) + 2 <= length (lead st (member (k, v)))) by (destruct st; cbn; lia).
  assert (Token (mkDecoder (lead st (member (k, v)) ++ tail) st (s0 :: stack)) =
    Ok (TokenString k, mkDecoder (LColon :: lexemes v ++ tail) tokenObjectColon (s0 :: stack))) as ->
    by (rewrite Token_settle; destruct st; try done).
  assert (More (mkDecoder (lead st (member (k, v)) ++ tail) st (s0 :: stack)) = true) as -> by by destruct st.
  cbn [mbind result_bind]. rewrite bool_decide_eq_false_2 by done. cbn [refuse mbind result_bind].
  erewrite Hv with (st' := tokenObjectValue) (rest := tail); [|cbn; lia|done..].
  cbn [mbind result_bind tokenValueEnd]. unfold tail.
  change (follow tokenTopValue (map member kvs)) with (follow tokenObjectComma (map member kvs)) in *.
  apply IH; [done|lia|done| |done].
  rewrite Forall_forall in *. intros k' Hk'. specialize (Hseen _ Hk'). set_solver.
Qed.

Lemma accepts_all v : accepts v.
Proof.
  induction v as [| | | |vs IH|kvs IH] using json_nested_ind; intros fuel l st st' rest stack depth Hf Hv E Ha Hs;
    (destruct fuel as [|fuel]; [cbn in Hf; lia|]); cbn [scanJSONValue];
    rewrite (within_limit _ _ Hs); cbn [refuse mbind result_bind]; rewrite Token_settle, E.
  1-3: by destruct st'.
  - by destruct st'.
  - cbn [lexemes app tokenOf state]. rewrite Ha. cbn -[follow].
    rewrite <-app_assoc. apply (accepts_elements _ IH fuel tokenArrayStart); [done| |].
    { cbn in Hf |- *. rewrite length_app in Hf. cbn in Hf. lia. }
    apply scannable_array; [by eapply within_le|done].
  - cbn [lexemes app tokenOf state]. rewrite Ha. cbn -[follow].
    destruct (proj1 (scannable_object depth kvs (within_le _ _ Hs)) Hs) as [Hn Hvs].
    rewrite <-app_assoc. apply (accepts_members _ IH fuel tokenObjectStart); [done| |done| |done].
    { change (lexemes (JObject kvs)) with (LObjectOpen :: separated (map member kvs) ++ [LObjectClose]) in Hf.
      cbn [length] in Hf. rewrite length_app in Hf. cbn [length follow] in *. lia. }
    apply Forall_forall. intros k _. apply not_elem_of_empty.
Qed.

Lemma scan_complete data v : lex data = lexemes v → unique_keys v → (Z.of_nat (height v) <= MaxDecodeDepth * 8)%Z →
  rejectDuplicateJSONKeys data = Ok tt.
Proof.
  unfold rejectDuplicateJSONKeys, NewDecoder. cbn [input]. intros E Hu Hh. rewrite E.
  rewrite (accepts_all v _ _ _ tokenTopValue []); [done|lia|done| |done|].
  + by rewrite app_nil_r.
  + split; [done|lia].
Qed.

(** C39. The walk for duplicate keys accepts exactly the texts of one JSON value
    that repeats no key in any object and nests at most to the limit. *)
Theorem rejectDuplicateJSONKeys_values data :
  rejectDuplicateJSONKeys data = Ok tt ↔
  ∃ v, lex data = lexemes v ∧ unique_keys v ∧ (Z.of_nat (height v) <= MaxDecodeDepth * 8)%Z.
Proof.
  split; [|intros (v & ? & ? & ?); by eapply scan_complete].
  unfold rejectDuplicateJSONKeys, NewDecoder. cbn [input]. intros Hr. inv_ok.
  apply (scan_sound _) in Hx as (v & st' & rest & E & Ha & -> & Hu & Hh); [|done].
  injection E as <- E. exists v. rewrite E. split; [|split; [done|lia]].
  rewrite Token_settle in Hr. destruct rest as [|x rest]; [by rewrite app_nil_r|].
  by destruct x.
Qed.
