(* ===== verification/CanonicalText.v ===== *)
(** * CanonicalText: canonical JSON as text (canonical.go)

    [MarshalCanonicalJSON] and [UnmarshalCanonicalJSON] over the documents of
    [Canonical]: the JSON tree of a document by the field tags, its text, and
    what json.Decoder fills a document with.  [CanonicalTextRoundtrip] says
    that an entry's text decodes to the entry.

    The decoder finds a struct's field by the exact key or, failing that, by
    the key without its case, so a document that repeats no key may still set a
    field twice (example [ex_folded_key]); a field that is set again is filled
    over what it held. *)
From Stdlib Require Import ZArith Lia Strings.Byte Strings.Ascii String.
From stdpp Require Import base list strings gmap pretty.
From S2P Require Import Prelude Encoding Errors Xdr ModelSDK Runtime Examples Address Limits Arm.
From S2P Require Import Json JsonText Canonical CanonicalRoundtrip CanonicalScan.

Open Scope string_scope. Open Scope nat_scope. Open Scope list_scope.

Definition MaxCanonicalJSONBytes : Z := Z.shiftl 8 20.

(** ** Documents as trees *)
(** A field with [omitempty] is left out when its pointer is nil, its text
    empty or its bool false. *)
Definition field {A} (name : string) (f : A → json) (a : A) : list (string * json) := [(name, f a)].
Definition pointer {A} (name : string) (f : A → json) (o : option A) : list (string * json) :=
  match o with Some a => [(name, f a)] | None => [] end.
Definition omitEmpty (name : string) (s : string) : list (string * json) :=
  if String.eqb s "" then [] else [(name, JString s)].

Definition textJSON (t : canonicalText) : json :=
  JObject (pointer "utf8" JString (UTF8 t) ++ pointer "base64" JString (Base64 t)).

Definition addressJSON (a : canonicalAddress) : json :=
  JObject (field "type" JString (Address_Type a) ++ omitEmpty "account" (Address_Account a) ++
    omitEmpty "contract" (Address_Contract a) ++ omitEmpty "xdr" (Address_XDR a)).

Definition parts128JSON (p : canonicalParts128) : json :=
  JObject (field "hi" JString (Hi p) ++ field "lo" JString (Lo p)).
Definition parts256JSON (p : canonicalParts256) : json :=
  JObject (field "hi_hi" JString (HiHi p) ++ field "hi_lo" JString (HiLo p) ++
    field "lo_hi" JString (LoHi p) ++ field "lo_lo" JString (LoLo p)).

Definition executableJSON (e : canonicalExecutable) : json :=
  JObject (field "type" JString (Executable_Type e) ++
    pointer "wasm_hash" JString (Executable_WasmHash e) ++
    pointer "owner" addressJSON (Executable_Owner e) ++ pointer "tag" textJSON (Executable_Tag e)).

Definition preimageJSON (p : canonicalPreimage) : json :=
  JObject (field "type" JString (IdPreimage_Type p) ++
    pointer "address" addressJSON (IdPreimage_Address p) ++
    pointer "salt" JString (IdPreimage_Salt p) ++ omitEmpty "xdr" (IdPreimage_XDR p)).

Definition intJSON (z : Z) : json := JNumber (FormatInt z).

Fixpoint scValJSON (v : canonicalScVal) : json :=
  let mapEntryJSON := λ '(key, val), JObject (field "key" scValJSON key ++ field "val" scValJSON val) in
  JObject (field "type" JString (Doc_Type v) ++
    pointer "bool" JBool (Doc_Bool v) ++ pointer "u32" intJSON (Doc_U32 v) ++
    pointer "i32" intJSON (Doc_I32 v) ++ pointer "u64" JString (Doc_U64 v) ++
    pointer "i64" JString (Doc_I64 v) ++ pointer "timepoint" JString (Doc_Timepoint v) ++
    pointer "duration" JString (Doc_Duration v) ++ pointer "u128" parts128JSON (Doc_U128 v) ++
    pointer "i128" parts128JSON (Doc_I128 v) ++ pointer "u256" parts256JSON (Doc_U256 v) ++
    pointer "i256" parts256JSON (Doc_I256 v) ++ pointer "bytes" JString (Doc_Bytes v) ++
    pointer "string" textJSON (Doc_String v) ++ pointer "symbol" textJSON (Doc_Symbol v) ++
    pointer "vec" (λ l, JArray (map scValJSON l)) (Doc_Vec v) ++
    pointer "map" (λ l, JArray (map mapEntryJSON l)) (Doc_Map v) ++
    (if Doc_Nil v then [("nil", JBool true)] else []) ++
    pointer "address" addressJSON (Doc_Address v) ++
    pointer "contract_instance" (λ i,
      JObject (field "executable" executableJSON (Instance_Executable i) ++
        pointer "storage" (λ l, JArray (map mapEntryJSON l)) (Instance_Storage i))) (Doc_Instance v) ++
    omitEmpty "xdr" (Doc_XDR v) ++ pointer "executable_tag" textJSON (Doc_ExecutableTag v)).

Definition scValsJSON (l : list canonicalScVal) : json := JArray (map scValJSON l).

Definition functionJSON (f : canonicalFunction) : json :=
  JObject (field "type" JString (Function_Type f) ++
    pointer "contract_address" addressJSON (Function_ContractAddress f) ++
    pointer "function_name" textJSON (Function_FunctionName f) ++
    pointer "args" scValsJSON (Function_Args f) ++
    pointer "contract_id_preimage" preimageJSON (Function_ContractIDPreimage f) ++
    pointer "executable" executableJSON (Function_Executable f) ++
    pointer "constructor_args" scValsJSON (Function_ConstructorArgs f)).

Fixpoint invocationJSON (i : canonicalInvocation) : json :=
  match i with
  | mkInvocationDoc f subs =>
      JObject (field "function" functionJSON f ++
        field "sub_invocations" (λ l, JArray (map invocationJSON l)) subs)
  end.

Fixpoint delegateJSON (d : canonicalDelegate) : json :=
  match d with
  | mkDelegateDoc a s n =>
      JObject (field "address" addressJSON a ++ field "signature" scValJSON s ++
        field "nested" (λ l, JArray (map delegateJSON l)) n)
  end.

Definition credentialJSON (c : canonicalCredential) : json :=
  JObject (field "type" JString (Cred_Type c) ++ pointer "address" addressJSON (Cred_Address c) ++
    pointer "nonce" JString (Cred_Nonce c) ++
    pointer "signature_expiration_ledger" intJSON (Cred_SignatureExpirationLedger c) ++
    pointer "signature" scValJSON (Cred_Signature c) ++
    pointer "delegates" (λ l, JArray (map delegateJSON l)) (Cred_Delegates c)).

Definition documentJSON (d : canonicalEntry) : json :=
  JObject (field "schema_version" intJSON (SchemaVersion d) ++
    field "credentials" credentialJSON (Entry_Credentials d) ++
    field "root_invocation" invocationJSON (Entry_RootInvocation d)).

(** ** Trees as documents *)
Definition typeError : error := EText "json: cannot unmarshal into the field's type".

Definition upperASCII (c : ascii) : ascii := if ascii_in 97 122 c then Z_ascii (ascii_Z c - 32) else c.

(** [foldName]: ASCII letters lose their case, and the long s and the Kelvin
    sign are letters too. *)
Fixpoint foldName (s : string) : string :=
  match s with
  | String "197" (String "191" s) => String "S" (foldName s)
  | String "226" (String "132" (String "170" s)) => String "K" (foldName s)
  | String c s => String (upperASCII c) (foldName s)
  | EmptyString => ""
  end.

(** The field a key stands for. *)
Definition resolve (names : list string) (key : string) : option string :=
  if existsb (String.eqb key) names then Some key
  else List.find (λ name, String.eqb (foldName name) (foldName key)) names.

(** An object read into a struct: every key must stand for a field. *)
Definition decodeObject {T} (names : list string) (v : json) (old : T)
    (fill : list (string * json) → result T) : result T :=
  match v with
  | JNull => Ok old
  | JObject kvs =>
      _ ← iterM_from (λ _ kv, match resolve names kv.1 with
                             | Some _ => Ok tt
                             | None => Err (EText ("json: unknown field " +:+ quoted kv.1))
                             end) 0 kvs;
      fill kvs
  | _ => Err typeError
  end.

(** A field's value: the members that stand for it, one after the other, each
    over what the field holds. *)
Fixpoint fillField {T} (names : list string) (name : string) (dec : json → T → result T)
    (kvs : list (string * json)) (old : T) : result T :=
  match kvs with
  | [] => Ok old
  | (key, v) :: kvs =>
      match resolve names key with
      | Some n => if String.eqb n name then old ← dec v old; fillField names name dec kvs old
                  else fillField names name dec kvs old
      | None => fillField names name dec kvs old
      end
  end.

Definition decodeString (v : json) (old : string) : result string :=
  match v with JString s => Ok s | JNull => Ok old | _ => Err typeError end.
Definition decodeBool (v : json) (old : bool) : result bool :=
  match v with JBool b => Ok b | JNull => Ok old | _ => Err typeError end.

Definition decodeInteger (parse : string → option Z) (lo hi : Z) (v : json) (old : Z) : result Z :=
  match v with
  | JNumber t => z ← of_option (parse t) typeError;
                 if (lo <=? z)%Z && (z <=? hi)%Z then Ok z else Err typeError
  | JNull => Ok old
  | _ => Err typeError
  end.
Definition decodeUint32 := decodeInteger ParseUint64 0 MaxUint32.
Definition decodeInt32 := decodeInteger ParseInt64 (- 2 ^ 31) (2 ^ 31 - 1).
Definition decodeInt := decodeInteger ParseInt64 (- 2 ^ 63) MaxInt64.

(** A pointer: nil for null, and otherwise filled, from zero when it was nil. *)
Definition decodePointer {T} (dec : json → T → result T) (zero : T) (v : json) (old : option T)
    : result (option T) :=
  match v with
  | JNull => Ok None
  | _ => Some <$> dec v (default zero old)
  end.

(** A slice: its elements are filled over those it had. *)
Fixpoint decodeElements {T} (dec : json → T → result T) (zero : T) (l : list json) (old : list T)
    : result (list T) :=
  match l with
  | [] => Ok []
  | v :: l => x ← dec v (hd zero old); xs ← decodeElements dec zero l (tl old); Ok (x :: xs)
  end.
Definition decodeSlice {T} (dec : json → T → result T) (zero : T) (v : json) (old : list T)
    : result (list T) :=
  match v with
  | JNull => Ok []
  | JArray l => decodeElements dec zero l old
  | _ => Err typeError
  end.

Definition zeroText : canonicalText := mkText None None.
Definition zeroAddressDoc : canonicalAddress := mkAddressDoc "" "" "" "".
Definition zeroParts128 : canonicalParts128 := mkParts128 "" "".
Definition zeroParts256 : canonicalParts256 := mkParts256 "" "" "" "".
Definition zeroExecutable : canonicalExecutable := mkExecutableDoc "" None None None.
Definition zeroPreimage : canonicalPreimage := mkPreimageDoc "" None None "".
Definition zeroScVal : canonicalScVal := doc_void "".
Definition zeroInstance : canonicalInstance := mkInstanceDoc zeroExecutable None.
Definition zeroFunction : canonicalFunction := mkFunctionDoc "" None None None None None None.
Definition zeroInvocation : canonicalInvocation := mkInvocationDoc zeroFunction [].
Definition zeroDelegate : canonicalDelegate := mkDelegateDoc zeroAddressDoc zeroScVal [].
Definition zeroCredential : canonicalCredential := mkCredentialDoc "" None None None None None.
Definition zeroEntryDoc : canonicalEntry := mkEntryDoc 0 zeroCredential zeroInvocation.

Definition decodeText (v : json) (old : canonicalText) : result canonicalText :=
  let names := ["utf8"; "base64"] in
  decodeObject names v old (λ kvs,
    u ← fillField names "utf8" (decodePointer decodeString "") kvs (UTF8 old);
    b ← fillField names "base64" (decodePointer decodeString "") kvs (Base64 old);
    Ok (mkText u b)).

Definition decodeAddress (v : json) (old : canonicalAddress) : result canonicalAddress :=
  let names := ["type"; "account"; "contract"; "xdr"] in
  decodeObject names v old (λ kvs,
    t ← fillField names "type" decodeString kvs (Address_Type old);
    a ← fillField names "account" decodeString kvs (Address_Account old);
    c ← fillField names "contract" decodeString kvs (Address_Contract old);
    x ← fillField names "xdr" decodeString kvs (Address_XDR old);
    Ok (mkAddressDoc t a c x)).

Definition decodeParts128 (v : json) (old : canonicalParts128) : result canonicalParts128 :=
  let names := ["hi"; "lo"] in
  decodeObject names v old (λ kvs,
    h ← fillField names "hi" decodeString kvs (Hi old);
    l ← fillField names "lo" decodeString kvs (Lo old);
    Ok (mkParts128 h l)).

Definition decodeParts256 (v : json) (old : canonicalParts256) : result canonicalParts256 :=
  let names := ["hi_hi"; "hi_lo"; "lo_hi"; "lo_lo"] in
  decodeObject names v old (λ kvs,
    a ← fillField names "hi_hi" decodeString kvs (HiHi old);
    b ← fillField names "hi_lo" decodeString kvs (HiLo old);
    c ← fillField names "lo_hi" decodeString kvs (LoHi old);
    d ← fillField names "lo_lo" decodeString kvs (LoLo old);
    Ok (mkParts256 a b c d)).

Definition decodeExecutable (v : json) (old : canonicalExecutable) : result canonicalExecutable :=
  let names := ["type"; "wasm_hash"; "owner"; "tag"] in
  decodeObject names v old (λ kvs,
    t ← fillField names "type" decodeString kvs (Executable_Type old);
    h ← fillField names "wasm_hash" (decodePointer decodeString "") kvs (Executable_WasmHash old);
    o ← fillField names "owner" (decodePointer decodeAddress zeroAddressDoc) kvs (Executable_Owner old);
    g ← fillField names "tag" (decodePointer decodeText zeroText) kvs (Executable_Tag old);
    Ok (mkExecutableDoc t h o g)).

Definition decodePreimage (v : json) (old : canonicalPreimage) : result canonicalPreimage :=
  let names := ["type"; "address"; "salt"; "xdr"] in
  decodeObject names v old (λ kvs,
    t ← fillField names "type" decodeString kvs (IdPreimage_Type old);
    a ← fillField names "address" (decodePointer decodeAddress zeroAddressDoc) kvs (IdPreimage_Address old);
    s ← fillField names "salt" (decodePointer decodeString "") kvs (IdPreimage_Salt old);
    x ← fillField names "xdr" decodeString kvs (IdPreimage_XDR old);
    Ok (mkPreimageDoc t a s x)).

Section decode_nested.
Variable decodeScVal : json → canonicalScVal → result canonicalScVal.

Definition decodeMapEntry (v : json) (old : canonicalMapEntry) : result canonicalMapEntry :=
  let names := ["key"; "val"] in
  decodeObject names v old (λ kvs,
    key ← fillField names "key" decodeScVal kvs old.1;
    val ← fillField names "val" decodeScVal kvs old.2;
    Ok (key, val)).

Definition decodeEntries : json → option (list canonicalMapEntry) → result (option (list canonicalMapEntry)) :=
  decodePointer (decodeSlice decodeMapEntry (zeroScVal, zeroScVal)) [].

Definition decodeInstance (v : json) (old : canonicalInstance) : result canonicalInstance :=
  let names := ["executable"; "storage"] in
  decodeObject names v old (λ kvs,
    e ← fillField names "executable" decodeExecutable kvs (Instance_Executable old);
    s ← fillField names "storage" decodeEntries kvs (Instance_Storage old);
    Ok (mkInstanceDoc e s)).
Definition scValFields : list string :=
  ["type"; "bool"; "u32"; "i32"; "u64"; "i64"; "timepoint"; "duration"; "u128"; "i128"; "u256"; "i256";
   "bytes"; "string"; "symbol"; "vec"; "map"; "nil"; "address"; "contract_instance"; "xdr"; "executable_tag"].

Definition decodeValue (v : json) (old : canonicalScVal) : result canonicalScVal :=
  decodeObject scValFields v old (λ kvs,
    let fill {T} name dec (old : T) := fillField scValFields name dec kvs old in
    ty ← fill "type" decodeString (Doc_Type old);
    b ← fill "bool" (decodePointer decodeBool false) (Doc_Bool old);
    u32 ← fill "u32" (decodePointer decodeUint32 0%Z) (Doc_U32 old);
    i32 ← fill "i32" (decodePointer decodeInt32 0%Z) (Doc_I32 old);
    u64 ← fill "u64" (decodePointer decodeString "") (Doc_U64 old);
    i64 ← fill "i64" (decodePointer decodeString "") (Doc_I64 old);
    tp ← fill "timepoint" (decodePointer decodeString "") (Doc_Timepoint old);
    du ← fill "duration" (decodePointer decodeString "") (Doc_Duration old);
    u128 ← fill "u128" (decodePointer decodeParts128 zeroParts128) (Doc_U128 old);
    i128 ← fill "i128" (decodePointer decodeParts128 zeroParts128) (Doc_I128 old);
    u256 ← fill "u256" (decodePointer decodeParts256 zeroParts256) (Doc_U256 old);
    i256 ← fill "i256" (decodePointer decodeParts256 zeroParts256) (Doc_I256 old);
    bs ← fill "bytes" (decodePointer decodeString "") (Doc_Bytes old);
    st ← fill "string" (decodePointer decodeText zeroText) (Doc_String old);
    sy ← fill "symbol" (decodePointer decodeText zeroText) (Doc_Symbol old);
    vec ← fill "vec" (decodePointer (decodeSlice decodeScVal zeroScVal) []) (Doc_Vec old);
    mp ← fill "map" decodeEntries (Doc_Map old);
    nil ← fill "nil" decodeBool (Doc_Nil old);
    ad ← fill "address" (decodePointer decodeAddress zeroAddressDoc) (Doc_Address old);
    inst ← fill "contract_instance" (decodePointer decodeInstance zeroInstance)
             (Doc_Instance old);
    x ← fill "xdr" decodeString (Doc_XDR old);
    tag ← fill "executable_tag" (decodePointer decodeText zeroText) (Doc_ExecutableTag old);
    Ok (mkScValDoc ty b u32 i32 u64 i64 tp du u128 i128 u256 i256 bs st sy vec mp nil ad inst x tag)).
End decode_nested.

(** A value nests in a value two levels of JSON down at least, so the height of
    the tree is enough fuel. *)
Fixpoint decodeScVal (fuel : nat) : json → canonicalScVal → result canonicalScVal :=
  match fuel with
  | O => λ _ _, Err outOfFuel
  | S fuel => decodeValue (decodeScVal fuel)
  end.

Definition decodeScVals (fuel : nat) : json → option (list canonicalScVal) → result (option (list canonicalScVal)) :=
  decodePointer (decodeSlice (decodeScVal fuel) zeroScVal) [].

Definition decodeFunction (fuel : nat) (v : json) (old : canonicalFunction) : result canonicalFunction :=
  let names := ["type"; "contract_address"; "function_name"; "args"; "contract_id_preimage"; "executable";
                "constructor_args"] in
  decodeObject names v old (λ kvs,
    t ← fillField names "type" decodeString kvs (Function_Type old);
    a ← fillField names "contract_address" (decodePointer decodeAddress zeroAddressDoc) kvs
          (Function_ContractAddress old);
    n ← fillField names "function_name" (decodePointer decodeText zeroText) kvs (Function_FunctionName old);
    args ← fillField names "args" (decodeScVals fuel) kvs (Function_Args old);
    p ← fillField names "contract_id_preimage" (decodePointer decodePreimage zeroPreimage) kvs
          (Function_ContractIDPreimage old);
    e ← fillField names "executable" (decodePointer decodeExecutable zeroExecutable) kvs
          (Function_Executable old);
    cargs ← fillField names "constructor_args" (decodeScVals fuel) kvs (Function_ConstructorArgs old);
    Ok (mkFunctionDoc t a n args p e cargs)).

Fixpoint decodeInvocation (fuel : nat) (v : json) (old : canonicalInvocation) : result canonicalInvocation :=
  match fuel with
  | O => Err outOfFuel
  | S fuel =>
      let names := ["function"; "sub_invocations"] in
      let 'mkInvocationDoc oldFunction oldSubs := old in
      decodeObject names v old (λ kvs,
        f ← fillField names "function" (decodeFunction fuel) kvs oldFunction;
        subs ← fillField names "sub_invocations"
                 (decodeSlice (decodeInvocation fuel) zeroInvocation) kvs oldSubs;
        Ok (mkInvocationDoc f subs))
  end.

Fixpoint decodeDelegate (fuel : nat) (v : json) (old : canonicalDelegate) : result canonicalDelegate :=
  match fuel with
  | O => Err outOfFuel
  | S fuel =>
      let names := ["address"; "signature"; "nested"] in
      let 'mkDelegateDoc oldAddress oldSignature oldNested := old in
      decodeObject names v old (λ kvs,
        a ← fillField names "address" decodeAddress kvs oldAddress;
        s ← fillField names "signature" (decodeScVal fuel) kvs oldSignature;
        n ← fillField names "nested" (decodeSlice (decodeDelegate fuel) zeroDelegate) kvs oldNested;
        Ok (mkDelegateDoc a s n))
  end.

Definition decodeCredential (fuel : nat) (v : json) (old : canonicalCredential) : result canonicalCredential :=
  let names := ["type"; "address"; "nonce"; "signature_expiration_ledger"; "signature"; "delegates"] in
  decodeObject names v old (λ kvs,
    t ← fillField names "type" decodeString kvs (Cred_Type old);
    a ← fillField names "address" (decodePointer decodeAddress zeroAddressDoc) kvs (Cred_Address old);
    n ← fillField names "nonce" (decodePointer decodeString "") kvs (Cred_Nonce old);
    e ← fillField names "signature_expiration_ledger" (decodePointer decodeUint32 0%Z) kvs
          (Cred_SignatureExpirationLedger old);
    s ← fillField names "signature" (decodePointer (decodeScVal fuel) zeroScVal) kvs (Cred_Signature old);
    d ← fillField names "delegates" (decodePointer (decodeSlice (decodeDelegate fuel) zeroDelegate) []) kvs
          (Cred_Delegates old);
    Ok (mkCredentialDoc t a n e s d)).

Definition decodeDocument (fuel : nat) (v : json) (old : canonicalEntry) : result canonicalEntry :=
  let names := ["schema_version"; "credentials"; "root_invocation"] in
  decodeObject names v old (λ kvs,
    n ← fillField names "schema_version" decodeInt kvs (SchemaVersion old);
    c ← fillField names "credentials" (decodeCredential fuel) kvs (Entry_Credentials old);
    i ← fillField names "root_invocation" (decodeInvocation fuel) kvs (Entry_RootInvocation old);
    Ok (mkEntryDoc n c i)).

(** ** The text of an entry *)
Section text.
Context `{SDK} `{AssetCodec}.

Definition MarshalCanonicalJSON (entry : SorobanAuthorizationEntry) : result string :=
  document ← canonicalDocument entry;
  let encoded := print (documentJSON document) in
  _ ← refuse (Z.of_nat (String.length encoded) >? MaxCanonicalJSONBytes)%Z
        (EWrap ("soroauth: canonical json: " +:+ pretty (String.length encoded) +:+ " bytes exceeds the " +:+
                pretty MaxCanonicalJSONBytes +:+ "-byte limit") (ESentinel ErrDecodeLimit));
  Ok encoded.

(** [rejectTrailingJSON]: nothing may follow. *)
Definition rejectTrailingJSON (rest : list lexeme) : result unit :=
  match rest with
  | [] => Ok tt
  | _ => match parse rest with Some _ => Err trailingData | None => Err tokenError end
  end.

Definition UnmarshalCanonicalJSON (data : string) : result SorobanAuthorizationEntry :=
  let op := "soroauth: canonical json" in
  _ ← refuse (Z.of_nat (String.length data) >? MaxCanonicalJSONBytes)%Z
        (EWrap (op +:+ ": " +:+ pretty (String.length data) +:+ " bytes exceeds the " +:+
                pretty MaxCanonicalJSONBytes +:+ "-byte limit") (ESentinel ErrDecodeLimit));
  _ ← refuse (negb (utf8_ValidString data)) (EText (op +:+ ": input is not valid UTF-8"));
  _ ← wrap op (rejectDuplicateJSONKeys data);
  '(v, rest) ← wrap op (of_option (parse (lex data)) tokenError);
  document ← wrap op (decodeDocument (S (height v)) v zeroEntryDoc);
  _ ← wrap op (rejectTrailingJSON rest);
  entryOfDocument document.
End text.

(** A second key of the credentials that differs from a first by its case. *)
Definition ex_folded : json :=
  match documentJSON <$> canonicalDocument (ex_legacy "a" 9 ScvVoid) with
  | Ok (JObject [version; (_, JObject credentials); root]) =>
      JObject [version; ("credentials", JObject (credentials ++ [("Nonce", JString "7")])); root]
  | _ => JNull
  end.

Example ex_folded_key :
  rejectDuplicateJSONKeys (print ex_folded) = Ok tt ∧
  (Nonce <$> (e ← UnmarshalCanonicalJSON (print ex_folded);
              of_option (Credentials_Address (Credentials e)) tokenError)) = Ok 7%Z.
Proof. split; vm_compute; reflexivity. Qed.
