(* ===== verification/CanonicalReads.v ===== *)
(** * CanonicalReads: a document's tree decodes to the document

    [document_reads]: the tree of a document the encoder wrote nests at most 512
    levels, repeats no key, holds only integers for numbers, and decodes to the
    document with any fuel above its height.  The lemmas below go from the
    leaves up: small documents, values, functions, invocations, delegates,
    credentials.  [room] bounds the height a value's tree may have from the
    depth it is encoded at. *)
From Stdlib Require Import ZArith Lia Strings.Byte Strings.Ascii String.
From stdpp Require Import base list strings gmap pretty.
From S2P Require Import Prelude Encoding Errors Xdr ModelSDK Runtime Examples Address Limits Arm.
From S2P Require Import Json JsonText Canonical CanonicalRoundtrip CanonicalScan CanonicalText.

Open Scope string_scope. Open Scope nat_scope. Open Scope list_scope.

Create HintDb tidy.
Create Rewrite HintDb read_json.

(** ** Small documents *)
(** A tree within a height, whose numbers are integers and whose keys differ. *)
Definition tidy (n : nat) (v : json) : Prop := height v <= n ∧ integers v ∧ unique_keys v.

Lemma tidy_le n m v : tidy n v → n <= m → tidy m v.
Proof. intros (? & ? & ?) ?. split; [lia|done]. Qed.

Lemma tidy_object n kvs : NoDup (map fst kvs) → Forall (λ kv, tidy n kv.2) kvs → tidy (S n) (JObject kvs).
Proof.
  intros Hn Hk. unfold tidy. cbn [height integers unique_keys]. rewrite !foldr_and.
  split; [|split; [|split; [done|]]].
  - induction Hk as [|kv kvs [? _] _ IH]; cbn; [lia|]. cbn in Hn. apply NoDup_cons in Hn as [_ Hn].
    specialize (IH Hn). lia.
  - eapply Forall_impl; [exact Hk|]. by intros kv (_ & ? & _).
  - eapply Forall_impl; [exact Hk|]. by intros kv (_ & _ & ?).
Qed.

Lemma tidy_array n l : Forall (tidy n) l → tidy (S n) (JArray l).
Proof.
  intros Hl. unfold tidy. cbn [height integers unique_keys]. rewrite !foldr_and. split; [|split].
  - induction Hl as [|v l [? _] _ IH]; cbn; lia.
  - eapply Forall_impl; [exact Hl|]. by intros v (_ & ? & _).
  - eapply Forall_impl; [exact Hl|]. by intros v (_ & _ & ?).
Qed.

Lemma tidy_string n s : tidy n (JString s).
Proof. repeat split. cbn. lia. Qed.
Lemma tidy_bool n b : tidy n (JBool b).
Proof. repeat split. cbn. lia. Qed.
Lemma tidy_int n z : tidy n (intJSON z).
Proof. split; [cbn; lia|]. split; [by exists z|done]. Qed.

#[local] Hint Resolve tidy_string tidy_bool tidy_int : tidy.

(** Distinct names, by computation. *)
Ltac distinct := apply (bool_decide_unpack _); vm_compute; exact I.
Ltac tidy_fields :=
  apply tidy_object; [distinct|]; repeat (apply Forall_cons; split); try apply Forall_nil; try exact I;
  cbn [snd]; auto with tidy.

Lemma tidy_text n t : tidy (S n) (textJSON t).
Proof. destruct t as [[u|] [b|]]; unfold textJSON; cbn [pointer app UTF8 Base64]; tidy_fields. Qed.

Lemma decodeText_JSON t : decodeText (textJSON t) zeroText = Ok t.
Proof. by destruct t as [[u|] [b|]]. Qed.

Lemma tidy_address n a : tidy (S n) (addressJSON a).
Proof.
  destruct a as [t a c x]. unfold addressJSON, omitEmpty. cbn -[tidy].
  destruct (String.eqb a ""), (String.eqb c ""), (String.eqb x ""); cbn [app]; tidy_fields.
Qed.

Lemma decodeAddress_JSON a : decodeAddress (addressJSON a) zeroAddressDoc = Ok a.
Proof.
  destruct a as [t a c x]. unfold addressJSON, omitEmpty. cbn [Address_Type Address_Account Address_Contract Address_XDR].
  destruct (String.eqb_spec a ""), (String.eqb_spec c ""), (String.eqb_spec x ""); subst; reflexivity.
Qed.

Lemma tidy_parts128 n p : tidy (S n) (parts128JSON p).
Proof. unfold parts128JSON, field. cbn [app]. tidy_fields. Qed.
Lemma tidy_parts256 n p : tidy (S n) (parts256JSON p).
Proof. unfold parts256JSON, field. cbn [app]. tidy_fields. Qed.

Lemma decodeParts128_JSON p : decodeParts128 (parts128JSON p) zeroParts128 = Ok p.
Proof. by destruct p. Qed.
Lemma decodeParts256_JSON p : decodeParts256 (parts256JSON p) zeroParts256 = Ok p.
Proof. by destruct p. Qed.

#[local] Hint Resolve tidy_text tidy_address tidy_parts128 tidy_parts256 : tidy.

(** A field that was not set before. *)
Lemma decodePointer_reads {T} (dec : json → T → result T) zero f (x : T) : f x ≠ JNull →
  dec (f x) zero = Ok x → decodePointer dec zero (f x) None = Ok (Some x).
Proof. unfold decodePointer. intros Hn Hd. cbn [default]. rewrite Hd. by destruct (f x). Qed.

Lemma decodePointer_text t : decodePointer decodeText zeroText (textJSON t) None = Ok (Some t).
Proof. by apply decodePointer_reads, decodeText_JSON. Qed.
Lemma decodePointer_address a : decodePointer decodeAddress zeroAddressDoc (addressJSON a) None = Ok (Some a).
Proof. by apply decodePointer_reads, decodeAddress_JSON. Qed.
Lemma decodePointer_parts128 p : decodePointer decodeParts128 zeroParts128 (parts128JSON p) None = Ok (Some p).
Proof. by apply decodePointer_reads, decodeParts128_JSON. Qed.
Lemma decodePointer_parts256 p : decodePointer decodeParts256 zeroParts256 (parts256JSON p) None = Ok (Some p).
Proof. by apply decodePointer_reads, decodeParts256_JSON. Qed.

#[local] Hint Rewrite decodePointer_text decodePointer_address decodePointer_parts128 decodePointer_parts256
  : read_json.

Lemma tidy_executable n e : tidy (S (S n)) (executableJSON e).
Proof.
  destruct e as [t [h|] [o|] [g|]]; unfold executableJSON, field, pointer; cbn [app]; tidy_fields.
Qed.

Lemma decodeExecutable_JSON e : decodeExecutable (executableJSON e) zeroExecutable = Ok e.
Proof.
  destruct e as [t [h|] [o|] [g|]]; cbn -[decodePointer addressJSON textJSON];
    autorewrite with read_json; reflexivity.
Qed.

Lemma tidy_preimage n p : tidy (S (S n)) (preimageJSON p).
Proof.
  destruct p as [t [a|] [s|] x]; unfold preimageJSON, field, pointer, omitEmpty; cbn [app IdPreimage_XDR];
    destruct (String.eqb x ""); cbn [app]; tidy_fields.
Qed.

Lemma decodePreimage_JSON p : decodePreimage (preimageJSON p) zeroPreimage = Ok p.
Proof.
  destruct p as [t [a|] [s|] x]; unfold preimageJSON, omitEmpty; cbn [IdPreimage_XDR];
    destruct (String.eqb_spec x ""); subst; cbn -[decodePointer addressJSON];
    autorewrite with read_json; reflexivity.
Qed.

#[local] Hint Resolve tidy_executable tidy_preimage : tidy.

Lemma decodePointer_executable e :
  decodePointer decodeExecutable zeroExecutable (executableJSON e) None = Ok (Some e).
Proof. by apply decodePointer_reads, decodeExecutable_JSON. Qed.
Lemma decodePointer_preimage p :
  decodePointer decodePreimage zeroPreimage (preimageJSON p) None = Ok (Some p).
Proof. by apply decodePointer_reads, decodePreimage_JSON. Qed.

#[local] Hint Rewrite decodePointer_executable decodePointer_preimage : read_json.

(** ** Values *)
Lemma fit_u32 z : u32b z = true → decodeUint32 (intJSON z) 0%Z = Ok z.
Proof.
  unfold u32b, intJSON, decodeUint32, decodeInteger. intros Hz.
  assert (FormatInt z = FormatUint z) as ->.
  { unfold FormatInt. by rewrite (proj2 (Z.ltb_ge _ _)) by lia. }
  rewrite ParseUint64_FormatUint by (unfold is_u64, MaxUint32 in *; lia). cbn [of_option mbind result_bind].
  by rewrite Hz.
Qed.

Lemma fit_i32 z : i32b z = true → decodeInt32 (intJSON z) 0%Z = Ok z.
Proof.
  unfold i32b, intJSON, decodeInt32, decodeInteger. intros Hz.
  rewrite ParseInt64_FormatInt by (unfold is_i64, MaxInt64; lia). cbn [of_option mbind result_bind].
  by rewrite Hz.
Qed.

Lemma decodePointer_u32 z : u32b z = true → decodePointer decodeUint32 0%Z (intJSON z) None = Ok (Some z).
Proof. intros Hz. apply decodePointer_reads; [done|by apply fit_u32]. Qed.
Lemma decodePointer_i32 z : i32b z = true → decodePointer decodeInt32 0%Z (intJSON z) None = Ok (Some z).
Proof. intros Hz. apply decodePointer_reads; [done|by apply fit_i32]. Qed.

(** Reading a list back, element by element. *)
Lemma decodeElements_map {A T} (dec : json → T → result T) zero (f : A → json) (l : list A) (xs : list T) :
  Forall2 (λ a x, dec (f a) zero = Ok x) l xs → decodeElements dec zero (map f l) [] = Ok xs.
Proof.
  induction 1 as [|a x l xs Hx _ IH]; [done|]. cbn. by rewrite Hx, IH.
Qed.

Lemma decodeSlice_map {T} (dec : json → T → result T) zero (f : T → json) (l : list T) :
  Forall (λ x, dec (f x) zero = Ok x) l → decodeSlice dec zero (JArray (map f l)) [] = Ok l.
Proof.
  intros Hl. apply decodeElements_map. induction Hl; constructor; done.
Qed.

Lemma decodePointer_slice {T} (dec : json → T → result T) zero (f : T → json) (l : list T) :
  Forall (λ x, dec (f x) zero = Ok x) l →
  decodePointer (decodeSlice dec zero) [] (JArray (map f l)) None = Ok (Some l).
Proof. intros Hl. unfold decodePointer. cbn [default]. by rewrite decodeSlice_map. Qed.

(** How much height the values below a depth may still need. *)
Definition room (depth : Z) : nat := 4 * Z.to_nat (64 - depth) + 4.

Definition doc_reads (depth : Z) (c : canonicalScVal) : Prop :=
  tidy (room depth) (scValJSON c) ∧
  ∀ fuel, height (scValJSON c) < fuel → decodeScVal fuel (scValJSON c) zeroScVal = Ok c.

Definition reads_back `{SDK} `{AssetCodec} (v : ScVal) : Prop := ∀ d c,
  typed_value v = true → encodeCanonicalScVal v d = Ok c → doc_reads d c.

Lemma room_4 d : ∃ n, room d = S (S (S (S n))).
Proof. exists (4 * Z.to_nat (64 - d)). unfold room. lia. Qed.

Section values.
Context `{SDK} `{AssetCodec}.

(** Opening a document's tree and its reading, down to the small documents. *)
Ltac open_tidy :=
  cbn -[tidy textJSON addressJSON parts128JSON parts256JSON executableJSON intJSON FormatInt FormatUint
    encodeCanonicalText base64_EncodeToString].
Ltac open_reads :=
  cbn -[decodePointer decodeEntries decodeInstance textJSON addressJSON parts128JSON parts256JSON executableJSON intJSON
    FormatInt FormatUint encodeCanonicalText base64_EncodeToString];
  autorewrite with read_json; rewrite ?decodePointer_u32, ?decodePointer_i32 by done; reflexivity.

Lemma doc_XDR_tidy n ty s : tidy (S n) (scValJSON (doc_XDR ty s)).
Proof.
  unfold scValJSON, omitEmpty. cbn [doc_XDR Doc_XDR]. destruct (String.eqb s ""); open_tidy; tidy_fields.
Qed.

Lemma doc_XDR_reads fuel ty s : decodeScVal (S fuel) (scValJSON (doc_XDR ty s)) zeroScVal = Ok (doc_XDR ty s).
Proof.
  unfold scValJSON, omitEmpty. cbn [doc_XDR Doc_XDR]. destruct (String.eqb_spec s ""); subst; open_reads.
Qed.

Definition mapEntryJSON (kv : canonicalMapEntry) : json :=
  JObject (field "key" scValJSON kv.1 ++ field "val" scValJSON kv.2).

Lemma mapEntryJSON_map (l : list canonicalMapEntry) :
  map (λ '(key, val), JObject (field "key" scValJSON key ++ field "val" scValJSON val)) l = map mapEntryJSON l.
Proof. apply map_ext. by intros [k v]. Qed.

Definition instanceJSON (i : canonicalInstance) : json :=
  JObject (field "executable" executableJSON (Instance_Executable i) ++
    pointer "storage" (λ l, JArray (map mapEntryJSON l)) (Instance_Storage i)).

Definition entry_reads (dec : json → canonicalScVal → result canonicalScVal) (kv : canonicalMapEntry) : Prop :=
  dec (scValJSON kv.1) zeroScVal = Ok kv.1 ∧ dec (scValJSON kv.2) zeroScVal = Ok kv.2.

Lemma decodeEntries_reads dec l : Forall (entry_reads dec) l →
  decodeEntries dec (JArray (map mapEntryJSON l)) None = Ok (Some l).
Proof.
  intros Hl. apply decodePointer_slice. eapply Forall_impl; [exact Hl|]. intros [k v] [Hk Hv].
  cbn -[scValJSON] in *. by rewrite Hk; cbn -[scValJSON]; rewrite Hv.
Qed.

Lemma decodeInstance_reads dec i : Forall (entry_reads dec) (default [] (Instance_Storage i)) →
  decodePointer (decodeInstance dec) zeroInstance (instanceJSON i) None = Ok (Some i).
Proof.
  intros Hl. apply decodePointer_reads; [done|]. destruct i as [e [l|]]; cbn [default Instance_Storage] in Hl.
  - cbn -[decodeEntries executableJSON mapEntryJSON]. rewrite decodeExecutable_JSON.
    cbn -[decodeEntries mapEntryJSON]. by rewrite decodeEntries_reads.
  - cbn -[executableJSON]. by rewrite decodeExecutable_JSON.
Qed.

Ltac open_instance :=
  cbn -[decodePointer decodeInstance executableJSON];
  change (JObject [("executable", executableJSON ?e)]) with (instanceJSON (mkInstanceDoc e None)).

(** The documents of values that hold no other. *)
Ltac leaf_reads :=
  let d := fresh "d" in let c := fresh "c" in let Ht := fresh "Ht" in let Hc := fresh "Hc" in
  intros d c Ht Hc; cbn [encodeCanonicalScVal] in Hc;
  let Hd := fresh "Hd" in apply bind_Ok in Hc as ([] & Hd & Hc);
  cbn -[encodeCanonicalAddress encodeCanonicalText base64_EncodeToString FormatInt FormatUint
    safeMarshalBase64 encodeCanonicalExecutable] in Hc;
  inv_ok; cbn -[u32b i32b] in Ht; clear Hd;
  (split; [destruct (room_4 d) as [? ->]|intros [|fuel] Hf; [lia|]]).

Lemma scalar_reads v :
  match v with
  | ScvVec (Some (Some _)) | ScvMap (Some (Some _)) => True
  | ScvContractInstance (Some i) => is_Some (Storage i) ∨ reads_back v
  | _ => reads_back v
  end.
Proof.
  destruct v as [[o|]| |[o|]|[o|]|[o|]|[o|]|[o|]|[o|]|[o|]|[[h l]|]|[[h l]|]|[[[[h g] f] l]|]
    |[[[[h g] f] l]|]|[o|]|[o|]|[o|]|[[l|]|]|[[l|]|]|[o|]|[[e [st|]]|]| |[o|]|[o|]|t];
    try exact I; try (left; by eexists); try right; leaf_reads.
  all: lazymatch goal with
       | |- tidy _ (scValJSON (doc_XDR _ _)) => apply doc_XDR_tidy
       | |- decodeScVal _ (scValJSON (doc_XDR _ _)) _ = _ => apply doc_XDR_reads
       | |- tidy _ _ => open_tidy; tidy_fields
       | |- _ => try open_reads
       end.
  - tidy_fields.
  - open_instance. by rewrite decodeInstance_reads.
Qed.

(** A value one level down has the room of its list. *)
Lemma room_down d : (d + 1 <= 64)%Z → room d = S (S (S (S (room (d + 1))))).
Proof. unfold room. lia. Qed.

Lemma encoded_depth v d c : encodeCanonicalScVal v d = Ok c → (d <= 64)%Z.
Proof.
  intros Hc. assert (∃ u, checkTraversalDepth d = Ok u) as (u & Hu%checkTraversalDepth_Ok); [|done].
  destruct v; cbn [encodeCanonicalScVal] in Hc; apply bind_Ok in Hc as (u & Hu & _); eauto.
Qed.

Lemma encoded_values (p : nat → string) l d cs i : Forall reads_back l → forallb typed_value l = true →
  imapM_from (λ k v, wrap (p k) (encodeCanonicalScVal v d)) i l = Ok cs →
  Forall (λ c, doc_reads d c ∧ (d <= 64)%Z) cs.
Proof.
  intros Hl. revert i cs. induction Hl as [|v l Hv _ IH]; intros i cs Ht Hc; cbn in Ht, Hc; inv_ok; [done|].
  apply andb_true_iff in Ht as [Htv Ht]. constructor; [|by eapply IH]. split; [by apply Hv|].
  by eapply encoded_depth.
Qed.

Lemma encoded_entries l d cs i : Forall (P_pair reads_back) l → forallb (on_pair typed_value) l = true →
  imapM_from (encodeEntry (λ v, encodeCanonicalScVal v d)) i l = Ok cs →
  Forall (λ kv, doc_reads d kv.1 ∧ doc_reads d kv.2 ∧ (d <= 64)%Z) cs.
Proof.
  intros Hl. revert i cs. induction Hl as [|[k v] l [Hk Hv] _ IH]; intros i cs Ht Hc; cbn in Ht, Hc; inv_ok; [done|].
  apply andb_true_iff in Ht as [[Htk Htv]%andb_true_iff Ht]. cbn in Hk, Hv.
  constructor; [|by eapply IH]. cbn [fst snd].
  split; [by apply Hk|]. split; [by apply Hv|by eapply encoded_depth].
Qed.

Lemma height_element x l : x ∈ l → S (height x) <= height (JArray l).
Proof. induction 1 as [|x y l _ IH]; cbn in *; lia. Qed.
Lemma height_member kv kvs : kv ∈ kvs → S (height kv.2) <= height (JObject kvs).
Proof. induction 1 as [|x y l _ IH]; cbn in *; lia. Qed.

(** The values of a list or a map, inside a document whose tree holds them. *)
Lemma list_reads d cs m fuel : Forall (λ c, doc_reads (d + 1) c ∧ (d + 1 <= 64)%Z) cs →
  room d = S (S (S (S m))) → height (JArray (map scValJSON cs)) <= fuel →
  tidy (S m) (JArray (map scValJSON cs)) ∧
  Forall (λ c, decodeScVal fuel (scValJSON c) zeroScVal = Ok c) cs.
Proof.
  intros Hcs Hm Hf. split.
  - apply tidy_array, Forall_fmap. eapply Forall_impl; [exact Hcs|]. intros c [[Ht _] Hd].
    eapply tidy_le; [exact Ht|]. rewrite room_down in Hm by done. lia.
  - rewrite Forall_forall in *. intros c Hc. destruct (Hcs c Hc) as [[_ Hr] _]. apply Hr.
    pose proof (height_element (scValJSON c) (map scValJSON cs)) as Hh.
    specialize (Hh ltac:(by apply list_elem_of_fmap_2)). lia.
Qed.

Lemma entries_reads d cs m fuel :
  Forall (λ kv, doc_reads (d + 1) kv.1 ∧ doc_reads (d + 1) kv.2 ∧ (d + 1 <= 64)%Z) cs →
  room d = S (S (S (S m))) → height (JArray (map mapEntryJSON cs)) <= fuel →
  tidy (S (S m)) (JArray (map mapEntryJSON cs)) ∧ Forall (entry_reads (decodeScVal fuel)) cs.
Proof.
  intros Hcs Hm Hf. split.
  - apply tidy_array, Forall_fmap. eapply Forall_impl; [exact Hcs|]. intros [k v] ([Hk _] & [Hv _] & Hd).
    cbn [fst snd] in *. rewrite room_down in Hm by done.
    unfold compose, mapEntryJSON, field. cbn [fst snd app]. tidy_fields; (eapply tidy_le; [eassumption|lia]).
  - rewrite Forall_forall in *. intros kv Hkv. destruct (Hcs kv Hkv) as ([_ Hk] & [_ Hv] & _).
    pose proof (height_element (mapEntryJSON kv) (map mapEntryJSON cs)) as Hh.
    specialize (Hh ltac:(by apply list_elem_of_fmap_2)).
    assert (S (height (scValJSON kv.1)) <= height (mapEntryJSON kv)) by (cbn; lia).
    assert (S (height (scValJSON kv.2)) <= height (mapEntryJSON kv)) by (cbn; lia).
    split; [apply Hk|apply Hv]; lia.
Qed.

Lemma value_reads v : reads_back v.
Proof.
  revert v. apply ScVal_nested_ind; [apply scalar_reads| | |].
  - intros l Hl d c Ht Hc. cbn in Hc. inv_ok. destruct (room_4 d) as [m Hm].
    apply encoded_values in Hx0; [|done..].
    assert (scValJSON (doc_Vec "vec" x0) =
      JObject [("type", JString "vec"); ("vec", JArray (map scValJSON x0))]) as E by reflexivity.
    unfold doc_reads. rewrite E. split; [|intros [|fuel] Hf; [lia|]].
    + rewrite Hm. destruct (list_reads d x0 m _ Hx0 Hm (le_n _)) as [Hty _].
      tidy_fields. eapply tidy_le; [exact Hty|lia].
    + pose proof (height_member ("vec", JArray (map scValJSON x0))
        [("type", JString "vec"); ("vec", JArray (map scValJSON x0))]) as Hh.
      specialize (Hh ltac:(set_solver)). cbn [snd] in Hh.
      destruct (list_reads d x0 m fuel Hx0 Hm) as [_ Hr]; [lia|].
      cbn [decodeScVal]. cbn -[decodePointer decodeSlice decodeScVal]. by rewrite decodePointer_slice.
  - intros l Hl d c Ht Hc. cbn in Hc. inv_ok. destruct (room_4 d) as [m Hm].
    apply encoded_entries in Hx0; [|done..].
    assert (scValJSON (doc_Map "map" x0) =
      JObject [("type", JString "map"); ("map", JArray (map mapEntryJSON x0))]) as E.
    { rewrite <-mapEntryJSON_map. reflexivity. }
    unfold doc_reads. rewrite E. split; [|intros [|fuel] Hf; [lia|]].
    + rewrite Hm. destruct (entries_reads d x0 m _ Hx0 Hm (le_n _)) as [Hty _].
      tidy_fields. eapply tidy_le; [exact Hty|lia].
    + pose proof (height_member ("map", JArray (map mapEntryJSON x0))
        [("type", JString "map"); ("map", JArray (map mapEntryJSON x0))]) as Hh.
      specialize (Hh ltac:(set_solver)). cbn [snd] in Hh.
      destruct (entries_reads d x0 m fuel Hx0 Hm) as [_ Hr]; [lia|].
      cbn [decodeScVal]. cbn -[decodeEntries decodeScVal mapEntryJSON]. by rewrite decodeEntries_reads.
  - intros e l Hl d c Ht Hc. cbn in Ht. apply andb_true_iff in Ht as [Hte Ht].
    cbn -[encodeCanonicalExecutable] in Hc. inv_ok. destruct (room_4 d) as [m Hm].
    apply encoded_entries in Hx2; [|done..].
    set (i := mkInstanceDoc x0 (Some x2)).
    assert (scValJSON (doc_Instance "contract_instance" i) =
      JObject [("type", JString "contract_instance"); ("contract_instance", instanceJSON i)]) as E.
    { unfold instanceJSON, i, pointer. cbn [Instance_Storage]. rewrite <-mapEntryJSON_map. reflexivity. }
    assert (instanceJSON i = JObject [("executable", executableJSON x0);
      ("storage", JArray (map mapEntryJSON x2))]) as Ei by reflexivity.
    unfold doc_reads. rewrite E. split; [|intros [|fuel] Hf; [lia|]].
    + rewrite Hm, Ei. destruct (entries_reads d x2 m _ Hx2 Hm (le_n _)) as [Hty _].
      tidy_fields. tidy_fields.
    + pose proof (height_member ("contract_instance", instanceJSON i)
        [("type", JString "contract_instance"); ("contract_instance", instanceJSON i)]) as Hh.
      specialize (Hh ltac:(set_solver)). cbn [snd] in Hh.
      pose proof (height_member ("storage", JArray (map mapEntryJSON x2))
        [("executable", executableJSON x0); ("storage", JArray (map mapEntryJSON x2))]) as Hs.
      specialize (Hs ltac:(set_solver)). cbn [snd] in Hs. rewrite Ei in Hh at 1.
      destruct (entries_reads d x2 m fuel Hx2 Hm) as [_ Hr]; [lia|].
      cbn [decodeScVal]. cbn -[decodePointer decodeInstance decodeScVal instanceJSON].
      by rewrite decodeInstance_reads.
Qed.
End values.

(** ** Functions, invocations, delegates and credentials *)
(** Reading a tree back with any fuel above its height. *)
Definition read_within {T} (n : nat) (dec : nat → json → T → result T) (f : T → json) (zero x : T) : Prop :=
  tidy n (f x) ∧ ∀ fuel, height (f x) < fuel → dec fuel (f x) zero = Ok x.

Lemma array_reads {T} n dec (f : T → json) zero (l : list T) : Forall (read_within n dec f zero) l →
  tidy (S n) (JArray (map f l)) ∧
  ∀ fuel, height (JArray (map f l)) <= fuel → Forall (λ x, dec fuel (f x) zero = Ok x) l.
Proof.
  intros Hl. split.
  - apply tidy_array, Forall_fmap. eapply Forall_impl; [exact Hl|]. by intros x [? _].
  - intros fuel Hf. rewrite Forall_forall in *. intros x Hx. apply (Hl x Hx).
    pose proof (height_element (f x) (map f l) (list_elem_of_fmap_2 _ _ _ Hx)). lia.
Qed.

(** The lists an encoder writes. *)
Lemma imapM_Forall {A B} (enc : nat → A → result B) (P : B → Prop) i l ys : imapM_from enc i l = Ok ys →
  Forall (λ x, ∀ j y, enc j x = Ok y → P y) l → Forall P ys.
Proof.
  intros Hl%imapM_encoded Hp. induction Hl as [|x y l ys [j Hx] _ IH]; [constructor|].
  apply Forall_cons in Hp as [Hp ?]. constructor; [by eapply Hp|by apply IH].
Qed.

Section nested.
Context `{SDK} `{AssetCodec}.

Lemma ScVals_read l d cs : forallb typed_value l = true → encodeCanonicalScVals l d = Ok cs →
  tidy (S (room d)) (scValsJSON cs) ∧
  ∀ fuel, height (scValsJSON cs) <= fuel → decodeScVals fuel (scValsJSON cs) None = Ok (Some cs).
Proof.
  intros Ht Hc. destruct (array_reads (room d) decodeScVal scValJSON zeroScVal cs) as [Hy Hr].
  { eapply imapM_Forall; [exact Hc|]. apply Forall_forall. intros v Hv j c Hvc%wrap_Ok.
    eapply value_reads; [|exact Hvc]. by eapply forallb_elem. }
  split; [done|]. intros fuel Hf. by apply decodePointer_slice, Hr.
Qed.

(** The height of a member that is written in an object. *)
Ltac member_height name v :=
  let Hh := fresh "Hh" in
  match goal with
  | Hf : context [JObject ?kvs] |- _ =>
      assert (S (height v) <= height (JObject kvs)) as Hh
        by (apply (height_member (name, v) kvs); set_solver)
  end.

Lemma room_above d : S (S (S (S O))) <= room d.
Proof. unfold room. lia. Qed.

Ltac open_function :=
  repeat (progress (cbn -[decodePointer decodeScVals scValsJSON textJSON addressJSON preimageJSON executableJSON
                          encodeCanonicalText]; autorewrite with read_json));
  cbn -[decodeScVals scValsJSON].

Lemma function_reads f d c : typed_function f = true → encodeCanonicalFunction f d = Ok c →
  read_within (S (S (room (d + 1)))) decodeFunction functionJSON zeroFunction c.
Proof.
  intros [Hv _]%andb_true_iff Hc. destruct (room_4 (d + 1)) as [r Er].
  destruct f as [[[a n l]|]|[[p e]|]|[[p e l]|]|t]; cbn in Hv;
    cbn -[encodeCanonicalAddress encodeCanonicalPreimage encodeCanonicalExecutable
          encodeCanonicalScVals encodeCanonicalText] in Hc; inv_ok; try done;
    try (match goal with Hx : encodeCanonicalScVals _ _ = Ok _ |- _ =>
           apply ScVals_read in Hx as [Hy Hr]; [|done]; rewrite Er in * end);
    rewrite ?Er; unfold read_within, functionJSON, field, pointer;
    cbn -[tidy height scValsJSON textJSON addressJSON preimageJSON executableJSON encodeCanonicalText];
    (split; [tidy_fields|intros fuel Hf]).
  - member_height "args" (scValsJSON x0). open_function. by rewrite Hr by lia.
  - by open_function.
  - member_height "constructor_args" (scValsJSON x1). open_function. by rewrite Hr by lia.
Qed.

(** An object of an encoder nests under one that has a level less. *)
Lemma room_le d : room (d + 1) <= room d.
Proof. unfold room. lia. Qed.

Ltac open_document :=
  repeat (progress (cbn -[decodePointer decodeSlice decodeScVal decodeFunction decodeInvocation decodeDelegate
                          scValJSON functionJSON addressJSON intJSON FormatInt invocationJSON delegateJSON];
                    autorewrite with read_json)).

Lemma invocation_reads i : ∀ d c, typed_invocation i = true → encodeCanonicalInvocation i d = Ok c →
  (d <= 64)%Z ∧ read_within (4 + room d) decodeInvocation invocationJSON zeroInvocation c.
Proof.
  induction i as [f subs IH] using invocation_nested_ind. intros d c Ht Hc.
  cbn in Ht. apply andb_true_iff in Ht as [Hf Hs].
  cbn -[encodeCanonicalFunction] in Hc. inv_ok. apply checkTraversalDepth_Ok in Hx.
  apply function_reads in Hx0 as [Hfy Hfr]; [|done].
  assert (Forall (λ s, (d + 1 <= 64)%Z ∧ read_within (4 + room (d + 1)) decodeInvocation invocationJSON
    zeroInvocation s) x1) as Hsubs.
  { eapply imapM_Forall; [exact Hx1|]. rewrite Forall_forall in IH |- *.
    intros sub Hsub j c' Hc'%wrap_Ok. apply (IH sub Hsub); [|done]. by eapply forallb_elem. }
  destruct (array_reads (2 + room d) decodeInvocation invocationJSON zeroInvocation x1) as [Hay Har].
  { eapply Forall_impl; [exact Hsubs|]. intros s (Hd & Hy & Hr). split; [|done].
    eapply tidy_le; [exact Hy|]. rewrite (room_down d) by done. lia. }
  split; [done|]. unfold read_within.
  assert (invocationJSON (mkInvocationDoc x0 x1) = JObject [("function", functionJSON x0);
    ("sub_invocations", JArray (map invocationJSON x1))]) as -> by reflexivity.
  split.
  - pose proof (room_le d). pose proof (room_le (d + 1)). tidy_fields; (eapply tidy_le; [eassumption|lia]).
  - intros [|fuel] Hh; [lia|].
    member_height "function" (functionJSON x0).
    member_height "sub_invocations" (JArray (map invocationJSON x1)).
    cbn [decodeInvocation]. open_document. rewrite Hfr by lia. open_document. by rewrite decodeSlice_map by (apply Har; lia).
Qed.

Lemma delegate_reads x : ∀ d i c, typed_delegate x = true → encodeCanonicalDelegate d i x = Ok c →
  (d + 1 <= 64)%Z ∧ read_within (2 + room d) decodeDelegate delegateJSON zeroDelegate c.
Proof.
  induction x as [a s n IH] using delegate_nested_ind. intros d i c Ht Hc.
  cbn in Ht. apply andb_true_iff in Ht as [[Ha Hs]%andb_true_iff Hn].
  cbn -[encodeCanonicalAddress] in Hc. inv_ok. apply checkTraversalDepth_Ok in Hx2.
  apply value_reads in Hx0 as [Hsy Hsr]; [|done].
  assert (Forall (λ s, (d + 1 + 1 <= 64)%Z ∧ read_within (2 + room (d + 1)) decodeDelegate delegateJSON
    zeroDelegate s) x1) as Hsubs.
  { eapply imapM_Forall; [exact Hx1|]. rewrite Forall_forall in IH |- *.
    intros y Hy j c' Hc'. eapply (IH y Hy); [|exact Hc']. by eapply forallb_elem. }
  destruct (array_reads (room d) decodeDelegate delegateJSON zeroDelegate x1) as [Hay Har].
  { eapply Forall_impl; [exact Hsubs|]. intros y (Hd & Hy & Hr). split; [|done].
    eapply tidy_le; [exact Hy|]. rewrite (room_down d) by done. lia. }
  split; [done|]. unfold read_within.
  assert (delegateJSON (mkDelegateDoc x x0 x1) = JObject [("address", addressJSON x);
    ("signature", scValJSON x0); ("nested", JArray (map delegateJSON x1))]) as -> by reflexivity.
  split.
  - pose proof (room_le d). tidy_fields; (eapply tidy_le; [eassumption|lia]).
  - intros [|fuel] Hh; [lia|].
    member_height "signature" (scValJSON x0).
    member_height "nested" (JArray (map delegateJSON x1)).
    cbn [decodeDelegate]. open_document. rewrite decodeAddress_JSON. open_document.
    rewrite Hsr by lia. open_document. by rewrite decodeSlice_map by (apply Har; lia).
Qed.

Lemma delegates_read l d cs : forallb typed_delegate l = true → encodeCanonicalDelegates l d = Ok cs →
  Forall (read_within (2 + room d) decodeDelegate delegateJSON zeroDelegate) cs.
Proof.
  intros Ht Hc. unfold encodeCanonicalDelegates in Hc. inv_ok. eapply imapM_Forall; [exact Hc|].
  apply Forall_forall. intros y Hy j c Hc'. eapply delegate_reads; [|exact Hc']. by eapply forallb_elem.
Qed.

Lemma decodePointer_scVal fuel c : decodeScVal fuel (scValJSON c) zeroScVal = Ok c →
  decodePointer (decodeScVal fuel) zeroScVal (scValJSON c) None = Ok (Some c).
Proof. apply decodePointer_reads. by destruct c. Qed.

(** The arms that carry credentials differ in their delegates. *)
Lemma address_credentials_reads ty a d c nodes :
  typed_credentials a = true → encodeCanonicalAddressCredentials ty a d = Ok c →
  Forall (read_within (2 + room (d + 1)) decodeDelegate delegateJSON zeroDelegate) (default [] nodes) →
  read_within (4 + room (d + 1)) decodeCredential credentialJSON zeroCredential
    (mkCredentialDoc (Cred_Type c) (Cred_Address c) (Cred_Nonce c) (Cred_SignatureExpirationLedger c)
       (Cred_Signature c) nodes).
Proof.
  destruct a as [addr n e s]. intros [[[Ha Hn]%andb_true_iff He]%andb_true_iff Hs]%andb_true_iff Hc Hd.
  cbn in Hs, He. unfold encodeCanonicalAddressCredentials in Hc. inv_ok. cbn -[FormatInt].
  apply value_reads in Hx0 as [Hsy Hsr]; [|done]. cbn in Hsy, Hsr.
  destruct (array_reads _ decodeDelegate delegateJSON zeroDelegate _ Hd) as [Hay Har].
  destruct nodes as [l|]; unfold read_within, credentialJSON, field, pointer;
    cbn -[tidy height room FormatInt addressJSON intJSON scValJSON delegateJSON decodePointer decodeSlice] in *;
    (split; [tidy_fields; try (eapply tidy_le; [eassumption|lia])
            |intros fuel Hh; member_height "signature" (scValJSON x0)]).
  - member_height "delegates" (JArray (map delegateJSON l)).
    open_document. rewrite decodePointer_u32 by done. open_document.
    rewrite decodePointer_scVal by (apply Hsr; lia).
    open_document. by rewrite decodePointer_slice by (apply Har; lia).
  - open_document. rewrite decodePointer_u32 by done. open_document.
    by rewrite decodePointer_scVal by (apply Hsr; lia).
Qed.

Lemma encoded_without_delegates ty a d c : encodeCanonicalAddressCredentials ty a d = Ok c →
  c = mkCredentialDoc (Cred_Type c) (Cred_Address c) (Cred_Nonce c) (Cred_SignatureExpirationLedger c)
        (Cred_Signature c) None.
Proof. unfold encodeCanonicalAddressCredentials. intros Hc. by inv_ok. Qed.

Lemma credentials_reads c d doc :
  known_arm c = true → on_credentials typed_credentials typed_delegate c = true →
  encodeCanonicalCredentials c d = Ok doc →
  read_within (4 + room (d + 1)) decodeCredential credentialJSON zeroCredential doc.
Proof.
  intros Hk Ht Hc. unfold encodeCanonicalCredentials in Hc. apply bind_Ok in Hc as ([] & Hd & Hc).
  destruct c as [|[a|]|[a|]|[[a l]|]|t]; cbn -[encodeCanonicalAddressCredentials
    encodeCanonicalDelegates room] in *; inv_ok; try done.
  - split; [unfold credentialJSON, field; cbn [app]; tidy_fields|by intros].
  - rewrite (encoded_without_delegates _ _ _ _ Hc). by eapply address_credentials_reads.
  - rewrite (encoded_without_delegates _ _ _ _ Hc). by eapply address_credentials_reads.
  - apply andb_true_iff in Ht as [Ha Hl]. eapply (address_credentials_reads _ _ _ _ (Some _)); [done..|].
    by eapply delegates_read.
Qed.

(** A document nests far less than the walk allows. *)
Lemma document_reads e document : typed_entry e = true → canonicalDocument e = Ok document →
  read_within 512 decodeDocument documentJSON zeroEntryDoc document.
Proof.
  destruct e as [c i]. intros Ht Hc. unfold typed_entry in Ht. cbn in Ht.
  apply andb_true_iff in Ht as [[Hk Hcr]%andb_true_iff Hi].
  unfold canonicalDocument in Hc. inv_ok. cbn [Credentials RootInvocation] in Hx0, Hx1.
  apply credentials_reads in Hx0 as [Hcy Hcd]; [|done..].
  apply invocation_reads in Hx1 as (_ & Hiy & Hir); [|done].
  unfold read_within, documentJSON, field.
  cbn -[tidy height credentialJSON invocationJSON intJSON CanonicalJSONSchemaVersion].
  split; [tidy_fields; (eapply tidy_le; [eassumption|vm_compute; lia])|intros fuel Hh].
  member_height "credentials" (credentialJSON x0).
  member_height "root_invocation" (invocationJSON x1).
  cbn -[decodeCredential decodeInvocation credentialJSON invocationJSON].
  rewrite Hcd by lia. cbn -[decodeInvocation invocationJSON]. by rewrite Hir by lia.
Qed.
End nested.
