(* ===== verification/CanonicalTextRoundtrip.v ===== *)
(** * CanonicalTextRoundtrip: an entry's canonical JSON decodes to the entry

    The texts of a document are valid UTF-8, since the encoder writes a string
    that is not as base64; so the lexer reads back what was printed, the walk
    for duplicate keys passes, the tree decodes to the document, and the
    document to the entry ([canonical_json_roundtrip]). *)
From Stdlib Require Import ZArith Lia Strings.Byte Strings.Ascii String.
From stdpp Require Import base list strings gmap pretty.
From S2P Require Import Prelude Encoding Errors Xdr ModelSDK Runtime Examples Address Limits Arm.
From S2P Require Import Json JsonText Canonical CanonicalRoundtrip CanonicalScan CanonicalText CanonicalReads.

Open Scope string_scope. Open Scope nat_scope. Open Scope list_scope.

(** A strkey is written in base32. *)
Class StrkeyText `{SDK} : Prop := {
  strkey_ascii v p s : strkey_Encode v p = Ok s → ascii_text s = true
}.

Lemma utf8_ascii s : ascii_text s = true → utf8_ValidString s = true.
Proof.
  induction s as [|c s IH]; [done|]. cbn [ascii_text]. intros [Hc Hs]%andb_true_iff.
  apply N.ltb_lt in Hc. rewrite utf8_cons by (unfold ascii_Z; lia). by apply IH.
Qed.

Create HintDb valid.
Definition valid (v : json) : Prop := texts_valid v = true.

Lemma valid_object kvs : forallb (λ kv, ascii_text kv.1) kvs = true → Forall (λ kv, valid kv.2) kvs →
  valid (JObject kvs).
Proof.
  intros Hk Hv. unfold valid in *. cbn [texts_valid]. rewrite forallb_forall in Hk |- *. rewrite Forall_forall in Hv.
  intros kv Hkv. rewrite (utf8_ascii _ (Hk _ Hkv)). apply Hv. by apply list_elem_of_In.
Qed.

Lemma valid_array l : Forall (λ v, valid v) l → valid (JArray l).
Proof. intros Hl. unfold valid. cbn [texts_valid]. by apply forallb_Forall. Qed.

Lemma valid_ascii s : ascii_text s = true → valid (JString s).
Proof. apply utf8_ascii. Qed.
Lemma valid_base64 b : valid (JString (base64_EncodeToString b)).
Proof. apply valid_ascii, base64_ascii. Qed.
Lemma valid_hex b : valid (JString (hex_EncodeToString b)).
Proof. apply valid_ascii, hex_ascii. Qed.
Lemma valid_int z : valid (JString (FormatInt z)).
Proof. apply utf8_FormatInt. Qed.
Lemma valid_uint z : valid (JString (FormatUint z)).
Proof. apply utf8_FormatUint. Qed.

#[local] Hint Resolve valid_base64 valid_hex valid_int valid_uint : valid.
#[local] Hint Extern 1 (valid (JString (String _ _))) => exact eq_refl : valid.
#[local] Hint Extern 1 (valid (JBool _)) => exact eq_refl : valid.
#[local] Hint Extern 1 (valid (intJSON _)) => exact eq_refl : valid.

Ltac valid_fields :=
  apply valid_object; [reflexivity|]; repeat (apply Forall_cons; split); try apply Forall_nil; try exact I;
  cbn [snd]; auto with valid.

Lemma valid_text s : valid (textJSON (encodeCanonicalText s)).
Proof.
  unfold encodeCanonicalText. destruct (utf8_ValidString s) eqn:E; unfold textJSON, pointer; cbn [UTF8 Base64 app];
    valid_fields.
Qed.

(** ** The documents an encoder writes *)
Section valid.
Context `{SDK} `{AssetCodec} `{!SDKLaws} `{!StrkeyText}.

Lemma FormatAddress_ascii a s : is_credential_address a → FormatAddress a = Ok s → ascii_text s = true.
Proof.
  intros Ha Hf. destruct a as [[[[| |] [k|]]|]|[k|]|?|?|?|?]; cbn in Ha, Hf; try done; apply wrap_Ok in Hf.
  - rewrite AccountId_GetAddress_ed25519 in Hf. by eapply strkey_ascii.
  - by eapply strkey_ascii.
Qed.

Lemma valid_address a c : typed_address a = true → encodeCanonicalAddress a = Ok c → valid (addressJSON c).
Proof.
  intros Ht Hc. unfold encodeCanonicalAddress in Hc. apply bind_Ok in Hc as (_ & _ & Hc).
  assert ((∃ s ty, ascii_text s = true ∧ ascii_text ty = true ∧
    (c = mkAddressDoc ty s "" "" ∨ c = mkAddressDoc ty "" s "" ∨ c = mkAddressDoc ty "" "" s)))
    as (s & ty & Hs & Hty & Hc').
  { destruct (FormatAddress a) as [s|e] eqn:Hf.
    - pose proof (FormatAddress_ascii _ _ (typed_credential_address _ _ Ht Hf) Hf) as Hs.
      destruct a; try (by cbn in Hf); rewrite Hf in Hc; inv_ok; exists s.
      + exists "account". by split_and!; [..|left].
      + exists "contract". by split_and!; [..|right; left].
    - assert (∃ b, c = mkAddressDoc "xdr" "" "" (base64_EncodeToString b)) as [b ->].
      { destruct a; rewrite ?Hf in Hc; apply bind_Ok in Hc as (x & (b & _ & ->)%wrap_Ok%fmap_Ok & [= <-]); by exists b. }
      exists (base64_EncodeToString b), "xdr". by split_and!; [apply base64_ascii|..|right; right]. }
  apply valid_ascii in Hs, Hty. destruct Hc' as [-> |[-> | ->]]; unfold addressJSON, field, omitEmpty;
    cbn [Address_Type Address_Account Address_Contract Address_XDR];
    destruct (String.eqb s ""); cbn [app String.eqb]; valid_fields.
Qed.

#[local] Hint Resolve valid_text : valid.
#[local] Hint Extern 2 (valid (addressJSON _)) => eapply valid_address; [|eassumption]; eassumption : valid.

Lemma valid_executable e c : typed_executable e = true → encodeCanonicalExecutable e = Ok c →
  valid (executableJSON c).
Proof.
  intros Ht Hc. destruct e as [[h|]| |[[a tag]|]|t]; cbn in Ht; cbn -[encodeCanonicalAddress encodeCanonicalText] in Hc;
    inv_ok; try done; unfold executableJSON, field, pointer;
    cbn -[valid encodeCanonicalText addressJSON textJSON]; valid_fields.
Qed.

Lemma valid_preimage p c : typed_preimage p = true → encodeCanonicalPreimage p = Ok c → valid (preimageJSON c).
Proof.
  intros Ht Hc. destruct p as [[[a salt]|]|[asset|]|t]; cbn in Ht; cbn -[encodeCanonicalAddress Asset_MarshalBinary] in Hc;
    inv_ok; try done; unfold preimageJSON, field, pointer, omitEmpty; cbn -[valid addressJSON].
  - apply andb_true_iff in Ht as [Ha _]. valid_fields.
  - subst. destruct (String.eqb _ _); cbn [app]; valid_fields.
Qed.

#[local] Hint Extern 2 (valid (executableJSON _)) =>
  eapply valid_executable; [|eassumption]; eassumption : valid.

Definition valid_doc (v : ScVal) : Prop := ∀ d c,
  typed_value v = true → encodeCanonicalScVal v d = Ok c → valid (scValJSON c).

Ltac open_valid :=
  cbn -[valid textJSON addressJSON executableJSON intJSON FormatInt FormatUint encodeCanonicalText
    base64_EncodeToString].

Lemma valid_xdr ty b : ascii_text ty = true → valid (scValJSON (doc_XDR ty (base64_EncodeToString b))).
Proof.
  intros Hty%valid_ascii. unfold scValJSON, omitEmpty. cbn [doc_XDR Doc_XDR].
  destruct (String.eqb _ ""); open_valid; valid_fields.
Qed.

Lemma scalar_valid v :
  match v with
  | ScvVec (Some (Some _)) | ScvMap (Some (Some _)) => True
  | ScvContractInstance (Some i) => is_Some (Storage i) ∨ valid_doc v
  | _ => valid_doc v
  end.
Proof.
  destruct v as [[o|]| |[o|]|[o|]|[o|]|[o|]|[o|]|[o|]|[o|]|[[h l]|]|[[h l]|]|[[[[h g] f] l]|]
    |[[[[h g] f] l]|]|[o|]|[o|]|[o|]|[[l|]|]|[[l|]|]|[o|]|[[e [st|]]|]| |[o|]|[o|]|t];
    try exact I; try (left; by eexists); try right;
    (intros d c Ht Hc; cbn [encodeCanonicalScVal] in Hc; apply bind_Ok in Hc as ([] & _ & Hc);
     cbn -[encodeCanonicalAddress encodeCanonicalText base64_EncodeToString FormatInt FormatUint
       encodeCanonicalExecutable] in Hc; unfold safeMarshalBase64 in Hc; inv_ok;
     cbn -[u32b i32b] in Ht; rewrite ?andb_true_r in Ht; subst;
     lazymatch goal with
     | |- valid (scValJSON (doc_XDR _ _)) => by apply valid_xdr
     | |- _ => open_valid; valid_fields
     end).
  5: valid_fields.
  all: unfold parts128JSON, parts256JSON, field; cbn [app Hi Lo HiHi HiLo LoHi LoLo]; valid_fields.
Qed.

Lemma valid_values (p : nat → string) l d cs i : Forall valid_doc l → forallb typed_value l = true →
  imapM_from (λ k v, wrap (p k) (encodeCanonicalScVal v d)) i l = Ok cs → valid (JArray (map scValJSON cs)).
Proof.
  intros Hl Ht Hc. apply valid_array, Forall_fmap. eapply imapM_Forall; [exact Hc|].
  rewrite Forall_forall in Hl |- *. intros v Hv j c Hvc%wrap_Ok. eapply (Hl v Hv); [|exact Hvc].
  by eapply forallb_elem.
Qed.

Lemma valid_entries l d cs i : Forall (P_pair valid_doc) l → forallb (on_pair typed_value) l = true →
  imapM_from (encodeEntry (λ v, encodeCanonicalScVal v d)) i l = Ok cs → valid (JArray (map mapEntryJSON cs)).
Proof.
  intros Hl Ht Hc. apply valid_array, Forall_fmap. eapply imapM_Forall; [exact Hc|].
  rewrite Forall_forall in Hl |- *. intros [k v] Hkv j [ck cv] Hj. specialize (Hl _ Hkv) as [Hk Hv].
  pose proof (forallb_elem _ _ _ Ht Hkv) as [Htk Htv]%andb_true_iff. cbn in Hj. inv_ok. subst.
  unfold compose, mapEntryJSON, field. cbn [fst snd app]. valid_fields; [by eapply Hk|by eapply Hv].
Qed.

Lemma value_valid v : valid_doc v.
Proof.
  revert v. apply ScVal_nested_ind; [apply scalar_valid| | |].
  - intros l Hl d c Ht Hc. cbn in Hc. inv_ok. apply valid_values in Hx0; [|done..]. open_valid. valid_fields.
  - intros l Hl d c Ht Hc. cbn in Hc. inv_ok. apply valid_entries in Hx0; [|done..].
    rewrite <-mapEntryJSON_map in Hx0. open_valid. valid_fields.
  - intros e l Hl d c Ht Hc. cbn in Ht. apply andb_true_iff in Ht as [Hte Ht].
    cbn -[encodeCanonicalExecutable] in Hc. inv_ok. apply valid_entries in Hx2; [|done..].
    rewrite <-mapEntryJSON_map in Hx2. open_valid. valid_fields. valid_fields.
Qed.

Lemma valid_ScVals l d cs : forallb typed_value l = true → encodeCanonicalScVals l d = Ok cs → valid (scValsJSON cs).
Proof.
  intros Ht Hc. eapply (valid_values (λ i, "value " +:+ pretty i)); [|exact Ht|exact Hc].
  apply Forall_forall. intros v _. apply value_valid.
Qed.

#[local] Hint Extern 2 (valid (preimageJSON _)) => eapply valid_preimage; [|eassumption]; eassumption : valid.
#[local] Hint Extern 2 (valid (scValsJSON _)) => eapply valid_ScVals; [|eassumption]; eassumption : valid.
#[local] Hint Extern 2 (valid (scValJSON _)) => eapply value_valid; [|eassumption]; eassumption : valid.

Lemma valid_function f d c : typed_function f = true → encodeCanonicalFunction f d = Ok c → valid (functionJSON c).
Proof.
  intros [Hv Ht]%andb_true_iff Hc. destruct f as [[[a n l]|]|[[p e]|]|[[p e l]|]|t]; cbn in Hv, Ht;
    cbn -[encodeCanonicalAddress encodeCanonicalPreimage encodeCanonicalExecutable
          encodeCanonicalScVals encodeCanonicalText] in Hc; inv_ok; try done;
    try (apply andb_true_iff in Ht as [Hp He]); unfold functionJSON, field, pointer;
    cbn -[valid scValsJSON textJSON addressJSON preimageJSON executableJSON encodeCanonicalText]; valid_fields.
Qed.

Lemma valid_invocation i : ∀ d c, typed_invocation i = true → encodeCanonicalInvocation i d = Ok c →
  valid (invocationJSON c).
Proof.
  induction i as [f subs IH] using invocation_nested_ind. intros d c Ht Hc.
  cbn in Ht. apply andb_true_iff in Ht as [Hf Hs].
  cbn -[encodeCanonicalFunction] in Hc. inv_ok. apply valid_object; [reflexivity|].
  apply Forall_cons; split; [by eapply valid_function|]. apply Forall_singleton, valid_array, Forall_fmap.
  eapply imapM_Forall; [eassumption|]. rewrite Forall_forall in IH |- *.
  intros sub Hsub j c' Hc'%wrap_Ok. eapply (IH sub Hsub); [|exact Hc']. by eapply forallb_elem.
Qed.

Lemma valid_delegate x : ∀ d i c, typed_delegate x = true → encodeCanonicalDelegate d i x = Ok c →
  valid (delegateJSON c).
Proof.
  induction x as [a s n IH] using delegate_nested_ind. intros d i c Ht Hc.
  cbn in Ht. apply andb_true_iff in Ht as [[Ha Hs]%andb_true_iff Hn].
  cbn -[encodeCanonicalAddress] in Hc. inv_ok. apply valid_object; [reflexivity|].
  apply Forall_cons; split; [by eapply valid_address|]. apply Forall_cons; split; [by eapply value_valid|].
  apply Forall_singleton, valid_array, Forall_fmap.
  eapply imapM_Forall; [eassumption|]. rewrite Forall_forall in IH |- *.
  intros y Hy j c' Hc'. eapply (IH y Hy); [|exact Hc']. by eapply forallb_elem.
Qed.

Lemma valid_address_credentials ty a d c nodes :
  typed_credentials a = true → encodeCanonicalAddressCredentials ty a d = Ok c → ascii_text ty = true →
  Forall (λ n, valid (delegateJSON n)) (default [] nodes) →
  valid (credentialJSON (mkCredentialDoc (Cred_Type c) (Cred_Address c) (Cred_Nonce c)
    (Cred_SignatureExpirationLedger c) (Cred_Signature c) nodes)).
Proof.
  destruct a as [addr n e s]. intros [[[Ha Hn]%andb_true_iff He]%andb_true_iff Hs]%andb_true_iff Hc Hty%valid_ascii Hd.
  cbn in Ha, Hs. unfold encodeCanonicalAddressCredentials in Hc. inv_ok. cbn in Hx, Hx0.
  destruct nodes as [l|]; unfold credentialJSON, field, pointer;
    cbn -[valid FormatInt addressJSON intJSON scValJSON delegateJSON] in *; valid_fields.
  by apply valid_array, Forall_fmap.
Qed.

Lemma valid_credentials c d doc :
  known_arm c = true → on_credentials typed_credentials typed_delegate c = true →
  encodeCanonicalCredentials c d = Ok doc → valid (credentialJSON doc).
Proof.
  intros Hk Ht Hc. unfold encodeCanonicalCredentials in Hc. apply bind_Ok in Hc as ([] & Hd & Hc).
  destruct c as [|[a|]|[a|]|[[a l]|]|t]; cbn -[encodeCanonicalAddressCredentials
    encodeCanonicalDelegates] in *; inv_ok; try done.
  - rewrite (encoded_without_delegates _ _ _ _ Hc). by apply (valid_address_credentials _ _ _ _ None Ht Hc).
  - rewrite (encoded_without_delegates _ _ _ _ Hc). by apply (valid_address_credentials _ _ _ _ None Ht Hc).
  - apply andb_true_iff in Ht as [Ha Hl]. apply (valid_address_credentials _ _ _ _ (Some _) Ha Hx); [done|].
    unfold encodeCanonicalDelegates in *. inv_ok. eapply imapM_Forall; [eassumption|].
    apply Forall_forall. intros y Hy j c Hc'. eapply valid_delegate; [|exact Hc']. by eapply forallb_elem.
Qed.

Lemma document_valid e document : typed_entry e = true → canonicalDocument e = Ok document →
  valid (documentJSON document).
Proof.
  destruct e as [c i]. intros Ht Hc. unfold typed_entry in Ht. cbn in Ht.
  apply andb_true_iff in Ht as [[Hk Hcr]%andb_true_iff Hi].
  unfold canonicalDocument in Hc. inv_ok. cbn [Credentials RootInvocation] in Hx0, Hx1.
  apply valid_credentials in Hx0; [|done..]. apply valid_invocation in Hx1; [|done].
  unfold documentJSON, field. cbn [app SchemaVersion Entry_Credentials Entry_RootInvocation]. valid_fields.
Qed.
End valid.

(** ** Theorem *)
Section text_theorem.
Context `{SDK} `{AssetCodec} `{!SDKLaws} `{!CanonicalLaws} `{!StrkeyText}.

Definition within_bytes (s : string) : Prop := (Z.of_nat (String.length s) >? MaxCanonicalJSONBytes)%Z = false.

Lemma MarshalCanonicalJSON_text e data : MarshalCanonicalJSON e = Ok data →
  ∃ document, canonicalDocument e = Ok document ∧ data = print (documentJSON document) ∧ within_bytes data.
Proof.
  unfold MarshalCanonicalJSON. intros (document & Hx & Hm)%bind_Ok. exists document. split; [done|].
  revert Hm. generalize (print (documentJSON document)). intros s ([] & Hsize%refuse_Ok & Hm)%bind_Ok.
  by injection Hm as ->.
Qed.

(** The text of a tree reads back to the tree's document. *)
Lemma UnmarshalCanonicalJSON_print v document : valid v → tidy 512 v → within_bytes (print v) →
  decodeDocument (S (height v)) v zeroEntryDoc = Ok document →
  UnmarshalCanonicalJSON (print v) = entryOfDocument document.
Proof.
  intros Hv (Hh & Hi & Hu) Hsize Hr. pose proof (lex_print v Hv Hi) as El. pose proof (utf8_print v Hv Hi) as Eu.
  assert (rejectDuplicateJSONKeys (print v) = Ok tt) as Ed
    by (apply (scan_complete _ v El Hu); unfold MaxDecodeDepth; lia).
  pose proof (parse_lexemes v []) as Ep. rewrite app_nil_r, <-El in Ep. clear El.
  revert Hsize Eu Ed Ep. generalize (print v). intros s Hsize Eu Ed Ep.
  unfold UnmarshalCanonicalJSON. by rewrite Hsize, Eu, Ed, Ep; cbn -[decodeDocument]; rewrite Hr.
Qed.

(** C13. The canonical JSON of an entry decodes to exactly that entry when no
    byte string in it is empty, and is refused when one is: the encoder writes
    an empty byte string as empty base64, which the decoder does not accept. *)
Theorem canonical_json_roundtrip e data :
  typed_entry e = true → MarshalCanonicalJSON e = Ok data →
  (full_entry e = true → UnmarshalCanonicalJSON data = Ok e) ∧
  (full_entry e = false → is_ok (UnmarshalCanonicalJSON data) = false).
Proof.
  intros Ht (document & Hd & -> & Hsize)%MarshalCanonicalJSON_text.
  destruct (document_reads _ _ Ht Hd) as [Hy Hr].
  rewrite (UnmarshalCanonicalJSON_print (documentJSON document) document);
    [by apply document_roundtrip|by eapply document_valid|done|done|apply Hr; lia].
Qed.
End text_theorem.

(** ** The laws hold of a model with printable strkeys *)
Definition hex_Encode (v : VersionByte) (p : bytes) : result string :=
  match model_version_char v with
  | Some c => Ok (String c (hex_EncodeToString p))
  | None => Err (EText "invalid version byte")
  end.

Definition hex_version (c : ascii) : option VersionByte :=
  if Ascii.eqb c "G" then Some VersionByteAccountID
  else if Ascii.eqb c "C" then Some VersionByteContract
  else if Ascii.eqb c "M" then Some VersionByteMuxedAccount else None.

Definition hex_DecodeAny (s : string) : result (VersionByte * bytes) :=
  match s with
  | String c h =>
      v ← of_option (hex_version c) (EText "strkey is invalid");
      p ← of_option (hex_DecodeString h) (EText "strkey is invalid");
      if String.eqb (hex_EncodeToString p) h then Ok (v, p) else Err (EText "strkey is invalid")
  | _ => Err (EText "strkey is invalid")
  end.

#[local] Instance TextSDK : SDK := {|
  SDK_ScAddress := SDK_ScAddress (SDK := ModelSDK);
  SDK_ScVal := SDK_ScVal (SDK := ModelSDK);
  SDK_Entry := SDK_Entry (SDK := ModelSDK);
  SDK_HashIdPreimage := SDK_HashIdPreimage (SDK := ModelSDK);
  SDK_Function := SDK_Function (SDK := ModelSDK);
  network_ID s := model_sha256 (bytes_of_string s);
  sha256_Sum256 := model_sha256;
  ed25519_Verify := model_ed25519_Verify;
  strkey_DecodeAny := hex_DecodeAny;
  strkey_Decode v s :=
    '(v', p) ← hex_DecodeAny s; if decide (v' = v) then Ok p else Err (EText "invalid version byte");
  strkey_Encode := hex_Encode;
  AccountId_GetAddress a :=
    match Ed25519 a with
    | Some k => if (AccountId_Type a =? 0)%Z then hex_Encode VersionByteAccountID k
                else Err (EText "unknown account id type")
    | None => Err (EText "account id has no key")
    end;
  ScValType_String _ := "ScVal";
  Enum_String name v := name
|}.

#[local] Instance TextSDKLaws : SDKLaws.
Proof.
  split; try apply ModelSDKLaws; cbn.
  - intros v s p. split.
    + intros ([v' p'] & H1 & H2)%bind_Ok. destruct (decide (v' = v)); [|done]. congruence.
    + intros ->. cbn. by rewrite decide_True.
  - intros v s p. unfold hex_Encode. destruct v; cbn; intros [= <-]; cbn;
      by rewrite hex_DecodeString_Encode; cbn; rewrite String.eqb_refl.
  - intros v [|c h] p; [done|]. cbn. intros Hd. inv_ok.
    destruct (String.eqb_spec (hex_EncodeToString x0) h); [|done]. simplify_eq. unfold hex_version in Hx.
    destruct (Ascii.eqb_spec c "G"), (Ascii.eqb_spec c "C"), (Ascii.eqb_spec c "M"); by simplify_eq/=.
  - done.
Qed.

#[local] Instance TextCanonicalLaws : CanonicalLaws.
Proof.
  split; try apply ModelCanonicalLaws. intros [| | |v] p s; cbn; by intros [= <-].
Qed.

#[local] Instance TextStrkeys : StrkeyText.
Proof.
  split. intros v p s. unfold strkey_Encode. cbn. unfold hex_Encode.
  destruct v; cbn -[ascii_text hex_EncodeToString]; intros Hs; simplify_eq; apply hex_ascii.
Qed.

Lemma canonical_json_roundtrip_witness :
  (∃ data, MarshalCanonicalJSON (ex_canonical (ScvBytes (Some [x01]))) = Ok data ∧
     UnmarshalCanonicalJSON data = Ok (ex_canonical (ScvBytes (Some [x01])))) ∧
  (∃ data, MarshalCanonicalJSON (ex_canonical (ScvBytes (Some []))) = Ok data ∧
     is_ok (UnmarshalCanonicalJSON data) = false).
Proof.
  split.
  - eexists. split; [vm_compute; reflexivity|].
    eapply (canonical_json_roundtrip (ex_canonical (ScvBytes (Some [x01])))); vm_compute; reflexivity.
  - eexists. split; [vm_compute; reflexivity|].
    eapply (canonical_json_roundtrip (ex_canonical (ScvBytes (Some [])))); vm_compute; reflexivity.
Defined.
