(* ===== verification/Preimage.v ===== *)
(** * Preimage: what a signature signs over (preimage.go)

    [Preimage] selects the [HashIdPreimage] variant by the credentials arm and
    [Payload] hashes its encoding.  [signed_content] is the abstract
    specification of which parts of an entry a signature covers; the theorems
    show that [Preimage] implements it and reads nothing else. *)
From Stdlib Require Import ZArith Lia Strings.Byte String.
From stdpp Require Import base list strings.
From S2P Require Import Prelude Errors Xdr ModelSDK Runtime Examples Address Arm.

Open Scope string_scope. Open Scope nat_scope. Open Scope list_scope.

Section preimage.
Context `{SDK}.

Definition Preimage (entry : SorobanAuthorizationEntry) (validUntilLedger : Z)
    (networkPassphrase : string) : result HashIdPreimage :=
  _ ← refuse (bool_decide (networkPassphrase = ""))
        (EText "soroauth: build preimage: network passphrase is empty");
  behavior ← wrap "soroauth: build preimage" (GetArmBehavior (Credentials entry));
  _ ← refuse (bool_decide (CredentialTypeName behavior = CredentialTypeSourceAccount))
        (EWrap "soroauth: build preimage" (ESentinel ErrSourceAccountCredentials));
  credentials ← wrap "soroauth: build preimage" (addressCredentials (Credentials entry));
  let networkID := network_ID networkPassphrase in
  let variant := PreimageVariant behavior in
  preimage ←
    (if (variant =? EnvelopeTypeSorobanAuthorization)%Z then
       Ok (mkHashIdPreimage variant
         (Some (mkSorobanAuthorization networkID (Nonce credentials) validUntilLedger
                  (RootInvocation entry))) None)
     else if (variant =? EnvelopeTypeSorobanAuthorizationWithAddress)%Z then
       _ ← wrap "soroauth: build preimage" (GetAddress behavior (Credentials entry));
       Ok (mkHashIdPreimage variant None
         (Some (mkSorobanAuthorizationWithAddress networkID (Nonce credentials)
                  validUntilLedger (Address credentials) (RootInvocation entry))))
     else Ok (mkHashIdPreimage variant None None));
  wrap "soroauth: build preimage" (Copy preimage).

Definition Payload (p : HashIdPreimage) : result bytes :=
  encoded ← wrap "soroauth: hash preimage" (MarshalBinary p);
  Ok (sha256_Sum256 encoded).

(** ** Specification *)
(** The arms whose payload names the address (CAP-71-01). *)
Definition address_bound (c : SorobanCredentials) : bool :=
  (Credentials_Type c =? CredentialsAddressV2)%Z
  || (Credentials_Type c =? CredentialsAddressWithDelegates)%Z.

(** What a signature over an entry covers: whether and which address, the
    nonce and the invocation tree. *)
Definition signed_content (e : SorobanAuthorizationEntry)
    : option (option ScAddress * Z * SorobanAuthorizedInvocation) :=
  match addressCredentials (Credentials e) with
  | Ok a => Some (if address_bound (Credentials e) then Some (Address a) else None,
                  Nonce a, RootInvocation e)
  | Err _ => None
  end.

Definition content_preimage (c : option ScAddress * Z * SorobanAuthorizedInvocation)
    (validUntil : Z) (passphrase : string) : HashIdPreimage :=
  match c with
  | (None, nonce, inv) =>
      mkHashIdPreimage EnvelopeTypeSorobanAuthorization
        (Some (mkSorobanAuthorization (network_ID passphrase) nonce validUntil inv)) None
  | (Some a, nonce, inv) =>
      mkHashIdPreimage EnvelopeTypeSorobanAuthorizationWithAddress None
        (Some (mkSorobanAuthorizationWithAddress (network_ID passphrase) nonce validUntil a inv))
  end.

(** ** Lemmas *)
(** The arm's [GetAddress] is [FormatAddress] of the shared accessor's
    address. *)
Lemma GetAddress_addressCredentials c b a :
  GetArmBehavior c = Ok b → addressCredentials c = Ok a →
  GetAddress b c = FormatAddress (Address a).
Proof.
  intros Hb Ha%addressCredentials_Ok. apply GetArmBehavior_type in Hb.
  destruct Hb as [[Ht ->]|[[Ht ->]|[[Ht ->]|[Ht ->]]]]; rewrite Ht in Ha.
  all: destruct Ha as [[? Ha]|[[? Ha]|(? & d & Ha & <-)]]; try done; cbn; by rewrite Ha.
Qed.

(** Every branch of [Preimage] at once, as one equation over the shared
    accessor. *)
Lemma Preimage_unfold e v p :
  Preimage e v p =
  (_ ← refuse (bool_decide (p = ""))
         (EText "soroauth: build preimage: network passphrase is empty");
   wrap "soroauth: build preimage" (
     a ← addressCredentials (Credentials e);
     _ ← (if address_bound (Credentials e) then FormatAddress (Address a) else Ok "");
     Copy (content_preimage
       (if address_bound (Credentials e) then Some (Address a) else None, Nonce a,
        RootInvocation e) v p))).
Proof.
  unfold Preimage. destruct (bool_decide (p = "")); [done|]. cbn [refuse mbind result_bind].
  destruct (GetArmBehavior_cases (Credentials e)) as [[Ht Hb]|[[Ht Hb]|[[Ht Hb]|[[Ht Hb]|Hb]]]];
    rewrite Hb; cbn [wrap mbind result_bind].
  - by rewrite (addressCredentials_source _ Ht).
  - unfold address_bound. rewrite Ht. cbn.
    by destruct (addressCredentials (Credentials e)).
  - unfold address_bound. rewrite Ht.
    destruct (addressCredentials (Credentials e)) as [a|] eqn:Ha; [|done].
    pose proof (GetAddress_addressCredentials _ _ _ Hb Ha) as Hg. cbn in Hg |- *.
    rewrite Hg. by destruct (FormatAddress (Address a)).
  - unfold address_bound. rewrite Ht.
    destruct (addressCredentials (Credentials e)) as [a|] eqn:Ha; [|done].
    pose proof (GetAddress_addressCredentials _ _ _ Hb Ha) as Hg. cbn in Hg |- *.
    rewrite Hg. by destruct (FormatAddress (Address a)).
  - assert (addressCredentials (Credentials e) = Err (ESentinel ErrUnsupportedCredentials)) as ->.
    { unfold GetArmBehavior in Hb. unfold addressCredentials.
      destruct (credentials_type_cases (Credentials_Type (Credentials e)))
        as [E|[E|[E|[E|(E0 & E1 & E2 & E3)]]]]; [rewrite E in Hb; discriminate Hb..|].
      by rewrite E0, E1, E2, E3. }
    done.
Qed.

(** Two entries with the same signed content have the same preimage, errors
    included. *)
Lemma Preimage_content_eq e1 e2 v p :
  signed_content e1 = signed_content e2 → signed_content e1 ≠ None →
  Preimage e1 v p = Preimage e2 v p.
Proof.
  unfold signed_content. rewrite !Preimage_unfold.
  destruct (addressCredentials (Credentials e1)) as [a1|]; [|done].
  destruct (addressCredentials (Credentials e2)) as [a2|]; [|done].
  destruct (address_bound (Credentials e1)), (address_bound (Credentials e2));
    intros [=] _; cbn; repeat match goal with E : _ = _ |- _ => rewrite E; clear E end; done.
Qed.

Context `{!SDKLaws}.

Lemma Preimage_Ok e v p pre :
  Preimage e v p = Ok pre →
  p ≠ "" ∧ ∃ c, signed_content e = Some c ∧ pre = content_preimage c v p.
Proof.
  rewrite Preimage_unfold. intros Hp. inv_ok. apply bool_decide_eq_false in Hx.
  split; [done|]. unfold signed_content. rewrite Hx0. eexists. split; [done|].
  by apply Copy_Ok in Hp.
Qed.

(** Writing a node's signature, the expiration or the delegates leaves the
    signed content alone. *)
Lemma signed_content_write e a a' :
  addressCredentials (Credentials e) = Ok a →
  Address a' = Address a → Nonce a' = Nonce a →
  signed_content (mkEntry (writeAddressCredentials (Credentials e) a') (RootInvocation e))
  = signed_content e.
Proof.
  intros Ha Hadr Hn. unfold signed_content. cbn.
  rewrite (writeAddressCredentials_read _ _ _ Ha), Ha, Hadr, Hn.
  unfold address_bound. by rewrite writeAddressCredentials_type.
Qed.
End preimage.

#[export] Hint Resolve Preimage_content_eq : soroauth.

(** ** Theorems *)
Section preimage_theorems.
Context `{SDK} `{!SDKLaws}.

(** C5. A signature cannot be moved: if two entries, each at its own
    expiration and network, have one preimage, then expiration, network id,
    nonce and invocation tree are the same, and so is the address whenever
    either arm binds it. *)
Theorem Preimage_binds e1 e2 v1 v2 p1 p2 pre :
  Preimage e1 v1 p1 = Ok pre → Preimage e2 v2 p2 = Ok pre →
  v1 = v2 ∧ network_ID p1 = network_ID p2 ∧ RootInvocation e1 = RootInvocation e2 ∧
  address_bound (Credentials e1) = address_bound (Credentials e2) ∧
  ∃ a1 a2, addressCredentials (Credentials e1) = Ok a1 ∧
    addressCredentials (Credentials e2) = Ok a2 ∧ Nonce a1 = Nonce a2 ∧
    (address_bound (Credentials e1) = true → Address a1 = Address a2).
Proof.
  intros (_ & c1 & Hc1 & ->)%Preimage_Ok (_ & c2 & Hc2 & Hp)%Preimage_Ok.
  unfold signed_content in *.
  destruct (addressCredentials (Credentials e1)) as [a1|]; [|done].
  destruct (addressCredentials (Credentials e2)) as [a2|]; [|done].
  destruct (address_bound (Credentials e1)), (address_bound (Credentials e2));
    injection Hc1 as <-; injection Hc2 as <-; cbn in Hp; try discriminate Hp;
    injection Hp as Hn Hno Hv; try done.
  all: repeat (split; [done|]); exists a1, a2; done.
Qed.

(** A signature covers the expiration, the network, the nonce, the
    invocation tree and, in the two CAP-71 arms, the address, and nothing
    else: the preimage, errors included, is the same for an [address_v2]
    entry and for a delegates entry over the same credentials, whatever
    signatures, stored expirations and delegates they hold. *)
Theorem Preimage_delegates_agree addr nonce exp1 exp2 sig1 sig2 ds inv v p :
  Preimage (mkEntry (mkCredentials CredentialsAddressV2 None
              (Some (mkAddressCredentials addr nonce exp1 sig1)) None) inv) v p =
  Preimage (mkEntry (mkCredentials CredentialsAddressWithDelegates None None
              (Some (mkWithDelegates (mkAddressCredentials addr nonce exp2 sig2) ds))) inv) v p.
Proof. by apply Preimage_content_eq. Qed.

(** What is refused a preimage: an empty passphrase, source-account
    credentials (with [ErrSourceAccountCredentials]) and an arm the program
    does not know (with [ErrUnsupportedCredentials]). *)
Theorem Preimage_refusals e v p :
  (p = "" → is_ok (Preimage e v p) = false) ∧
  (p ≠ "" → Credentials_Type (Credentials e) = CredentialsSourceAccount →
     ∃ err, Preimage e v p = Err err ∧ errors_Is err ErrSourceAccountCredentials = true) ∧
  (p ≠ "" → credentialTypeName (Credentials_Type (Credentials e)) = "unknown" →
     ∃ err, Preimage e v p = Err err ∧ errors_Is err ErrUnsupportedCredentials = true).
Proof.
  rewrite Preimage_unfold. split; [by intros ->|]. unfold addressCredentials.
  destruct (credentials_type_cases (Credentials_Type (Credentials e)))
    as [E|[E|[E|[E|(E0 & E1 & E2 & E3)]]]]; rewrite ?E, ?E0, ?E1, ?E2, ?E3;
    (split; intros Hp Ht; try discriminate Ht; rewrite bool_decide_eq_false_2 by done;
     try (eexists; split; reflexivity)).
  by rewrite Ht in E0.
Qed.
End preimage_theorems.

Definition ex_v2_preimage : HashIdPreimage :=
  match Preimage (ex_v2 "a" 0 ScvVoid) 1000 ex_network with
  | Ok pre => pre | Err _ => mkHashIdPreimage 0 None None
  end.

Lemma Preimage_binds_witness : let e1 := ex_v2 "a" 0 ScvVoid in let e2 := ex_delegates in
  (1000 = 1000)%Z ∧ network_ID ex_network = network_ID ex_network ∧
  RootInvocation e1 = RootInvocation e2 ∧
  address_bound (Credentials e1) = address_bound (Credentials e2) ∧
  ∃ a1 a2, addressCredentials (Credentials e1) = Ok a1 ∧
    addressCredentials (Credentials e2) = Ok a2 ∧ Nonce a1 = Nonce a2 ∧
    (address_bound (Credentials e1) = true → Address a1 = Address a2).
Proof.
  intros e1 e2. apply (Preimage_binds e1 e2 _ _ _ _ ex_v2_preimage); vm_compute; reflexivity.
Defined.

Lemma Preimage_delegates_agree_witness :
  Preimage (ex_v2 "a" 7 ScvVoid) 1000 ex_network = Preimage ex_delegates 1000 ex_network.
Proof. apply Preimage_delegates_agree. Defined.

Lemma Preimage_refusals_witness :
  (ex_network = "" → is_ok (Preimage ex_source 1000 ex_network) = false) ∧
  (ex_network ≠ "" → Credentials_Type (Credentials ex_source) = CredentialsSourceAccount →
     ∃ err, Preimage ex_source 1000 ex_network = Err err ∧
            errors_Is err ErrSourceAccountCredentials = true) ∧
  (ex_network ≠ "" → credentialTypeName (Credentials_Type (Credentials ex_source)) = "unknown" →
     ∃ err, Preimage ex_source 1000 ex_network = Err err ∧
            errors_Is err ErrUnsupportedCredentials = true).
Proof. apply Preimage_refusals. Defined.
