(* ===== verification/Upgrade.v ===== *)
(** * Upgrade: moving a legacy entry to [address_v2] (upgrade.go)

    [UpgradeToV2] carries the credentials of an unsigned legacy entry over to
    the address-bound arm.  The theorems say what it keeps, what it refuses and
    that the signing payload changes, which is why a signed entry is refused. *)
From Stdlib Require Import ZArith Lia Strings.Byte String.
From stdpp Require Import base list strings.
From S2P Require Import Prelude Errors Xdr ModelSDK Runtime Examples Address Limits Arm Preimage.

Open Scope string_scope. Open Scope nat_scope. Open Scope list_scope.

Section upgrade.
Context `{SDK}.

Definition UpgradeToV2 (entry : SorobanAuthorizationEntry) : result SorobanAuthorizationEntry :=
  let t := Credentials_Type (Credentials entry) in
  if (t =? CredentialsAddressV2)%Z then wrap "soroauth: upgrade to v2" (Copy entry)
  else if (t =? CredentialsAddress)%Z then
    match Credentials_Address (Credentials entry) with
    | None => Err (EText "soroauth: upgrade to v2: address credentials arm is empty")
    | Some a =>
        _ ← refuse (isSigned (Signature a))
              (EWrap ("soroauth: upgrade to v2: the upgrade changes the signing payload, " +:+
                      "invalidating the existing signature") (ESentinel ErrAlreadySigned));
        upgraded ← wrap "soroauth: upgrade to v2" (Copy entry);
        let credentials := Credentials_Address (Credentials upgraded) in
        Ok (mkEntry (mkCredentials CredentialsAddressV2 None credentials None)
              (RootInvocation upgraded))
    end
  else if (t =? CredentialsSourceAccount)%Z then
    Err (EWrap ("soroauth: upgrade to v2: source-account credentials have no address arm " +:+
                "to upgrade") (ESentinel ErrUnsupportedCredentials))
  else if (t =? CredentialsAddressWithDelegates)%Z then
    Err (EWrap "soroauth: upgrade to v2: the delegates arm is already address-bound"
           (ESentinel ErrUnsupportedCredentials))
  else Err (EWrap "soroauth: upgrade to v2" (ESentinel ErrUnsupportedCredentials)).

Context `{!SDKLaws}.

Lemma UpgradeToV2_Ok e out :
  UpgradeToV2 e = Ok out →
  (Credentials_Type (Credentials e) = CredentialsAddressV2 ∧ out = e) ∨
  (Credentials_Type (Credentials e) = CredentialsAddress ∧ ∃ a,
     Credentials_Address (Credentials e) = Some a ∧ isSigned (Signature a) = false ∧
     out = mkEntry (mkCredentials CredentialsAddressV2 None (Some a) None) (RootInvocation e)).
Proof.
  unfold UpgradeToV2. intros Hu.
  destruct (Z.eqb_spec (Credentials_Type (Credentials e)) CredentialsAddressV2) as [E|_].
  { left. split; [done|]. apply wrap_Ok in Hu. by apply Copy_Ok in Hu. }
  destruct (Z.eqb_spec (Credentials_Type (Credentials e)) CredentialsAddress) as [E|_].
  - right. split; [done|]. destruct (Credentials_Address (Credentials e)) as [a|] eqn:Ha; [|done].
    inv_ok. apply Copy_Ok in Hx0 as ->. exists a. rewrite Ha. by repeat split.
  - by repeat case_match.
Qed.

(** A successful upgrade returns an [address_v2] entry over the same
    address, nonce, stored expiration, signature field and invocation tree:
    an entry of that arm unchanged, or an unsigned legacy entry moved over,
    and a signed legacy entry never. *)
Theorem UpgradeToV2_keeps e out :
  UpgradeToV2 e = Ok out →
  Credentials_Type (Credentials out) = CredentialsAddressV2 ∧
  RootInvocation out = RootInvocation e ∧
  addressCredentials (Credentials out) = addressCredentials (Credentials e) ∧
  (Credentials_Type (Credentials e) = CredentialsAddressV2 ∧ out = e ∨
   Credentials_Type (Credentials e) = CredentialsAddress ∧ ∃ a,
     addressCredentials (Credentials e) = Ok a ∧ isSigned (Signature a) = false).
Proof.
  intros [[Ht ->]|(Ht & a & Ha & Hs & ->)]%UpgradeToV2_Ok; [by auto 10|].
  assert (Hac : addressCredentials (Credentials e) = Ok a) by (apply addressCredentials_Ok; auto).
  rewrite Hac. split; [done|]. split; [done|]. split; [done|]. right. eauto.
Qed.

(** The upgrade of a legacy entry changes what is signed: at no
    expiration and on no network is the new entry's preimage one the old
    entry has at any expiration on any network. *)
Theorem UpgradeToV2_payload e out v v' p p' pre pre' :
  UpgradeToV2 e = Ok out → Credentials_Type (Credentials e) = CredentialsAddress →
  Preimage e v p = Ok pre → Preimage out v' p' = Ok pre' → pre ≠ pre'.
Proof.
  intros Hu Ht H1 H2 <-. destruct (Preimage_Ok _ _ _ _ H1) as (_ & c & Hc & ->).
  destruct (Preimage_Ok _ _ _ _ H2) as (_ & c' & Hc' & Hp).
  apply UpgradeToV2_Ok in Hu as [[Ht' _]|(_ & a & Ha & _ & ->)]; [by rewrite Ht in Ht'|].
  unfold signed_content in Hc, Hc'. cbn in Hc'. injection Hc' as <-.
  destruct (addressCredentials (Credentials e)); [|done]. unfold address_bound in Hc.
  rewrite Ht in Hc. cbn in Hc. injection Hc as <-. cbn in Hp. discriminate Hp.
Qed.

(** arm.go has an upgrade of its own; it agrees on everything but the
    placeholder, which it resets to Void. *)
Lemma UpgradeToV2_arm e b out :
  Credentials_Type (Credentials e) = CredentialsAddress →
  GetArmBehavior (Credentials e) = Ok b → UpgradeToV2 e = Ok out →
  Arm_UpgradeToV2 b (Credentials e) = Ok (writeAddressCredentials (Credentials out)
    (withSignature (default (mkAddressCredentials (ScAddressTypeUnknown 0) 0 0 ScvVoid)
                      (Credentials_AddressV2 (Credentials out))) ScvVoid)).
Proof.
  intros Ht Hb [[Ht' _]|(_ & a & Ha & Hs & ->)]%UpgradeToV2_Ok; [by rewrite Ht in Ht'|].
  apply GetArmBehavior_type in Hb as [[Ht' _]|[[_ ->]|[[Ht' _]|[Ht' _]]]];
    try by rewrite Ht in Ht'.
  cbn. by rewrite Ha, Hs.
Qed.
End upgrade.

Definition ex_upgraded : SorobanAuthorizationEntry :=
  match UpgradeToV2 (ex_legacy "a" 5 (ScvVec (Some (Some [])))) with
  | Ok out => out | Err _ => ex_source
  end.

Lemma UpgradeToV2_keeps_witness : let e := ex_legacy "a" 5 (ScvVec (Some (Some []))) in
  Credentials_Type (Credentials ex_upgraded) = CredentialsAddressV2 ∧
  RootInvocation ex_upgraded = RootInvocation e ∧
  addressCredentials (Credentials ex_upgraded) = addressCredentials (Credentials e) ∧
  (Credentials_Type (Credentials e) = CredentialsAddressV2 ∧ ex_upgraded = e ∨
   Credentials_Type (Credentials e) = CredentialsAddress ∧ ∃ a,
     addressCredentials (Credentials e) = Ok a ∧ isSigned (Signature a) = false).
Proof. intros e. apply UpgradeToV2_keeps. vm_compute. reflexivity. Defined.

Definition ex_legacy_preimage : HashIdPreimage :=
  match Preimage (ex_legacy "a" 5 (ScvVec (Some (Some [])))) 9 ex_network with
  | Ok p => p | Err _ => mkHashIdPreimage 0 None None
  end.

Definition ex_upgraded_preimage : HashIdPreimage :=
  match Preimage ex_upgraded 9 ex_network with
  | Ok p => p | Err _ => mkHashIdPreimage 1 None None
  end.

Lemma UpgradeToV2_payload_witness : ex_legacy_preimage ≠ ex_upgraded_preimage.
Proof.
  apply (UpgradeToV2_payload (ex_legacy "a" 5 (ScvVec (Some (Some [])))) ex_upgraded
    9 9 ex_network ex_network); vm_compute; reflexivity.
Defined.
