(* ===== verification/SignerTest.v ===== *)
(** * SignerTest: the conformance suite for signers (signertest/signertest.go)

    The suite runs against any implementation, so an implementation here is a
    state machine that may break every rule: it may change its address, return a
    value beside an error, or write into the preimage it was given
    ([Implementation]).  [Check] is the suite over it.  [Contract] is the prose
    of the Signer interface as laws and [rules] states, call by call, what a
    passed suite has seen; [Check_decides] shows that the suite raises no
    violation exactly when the rules are followed, so never against an
    implementation that keeps the contract; [ed25519_conforms] that the
    library's key-pair signer keeps the contract, and [WithRetry_conforms] that
    retrying keeps it. *)
From Stdlib Require Import ZArith Lia Strings.Byte String.
From stdpp Require Import base list strings pretty.
From S2P Require Import Prelude Errors Xdr ModelSDK Runtime Examples Address Preimage Signers Retry.

Open Scope string_scope. Open Scope nat_scope. Open Scope list_scope.

Record Violation := mkViolation { Violation_Check : string; Detail : string }.

Definition Violation_String (v : Violation) : string := Violation_Check v +:+ ": " +:+ Detail v.

Definition violation (check detail : string) : list Violation := [mkViolation check detail].

(** [xdr.ScVal{}]: the first type of the union and no arm. *)
Definition zeroVal : ScVal := ScvBool None.
Definition isZero (v : ScVal) : bool := bool_decide (v = zeroVal).

(** What a call to Sign leaves: the value, the error, and the caller's preimage
    as it is afterwards. *)
Record SignCall := mkSigned { Signed_val : ScVal; Signed_err : option error; Signed_preimage : HashIdPreimage }.

Section suite.
Context `{SDK}.
(** The state of the implementation. *)
Variable S_ : Type.

Definition Suite (A : Type) : Type := S_ → A * S_.
#[local] Instance Suite_ret : MRet Suite := λ A a s, (a, s).
#[local] Instance Suite_bind : MBind Suite := λ A B f m s, let '(a, s) := m s in f a s.

Record Implementation := mkImplementation {
  impl_Address : Suite string;
  impl_Sign : Ctx → HashIdPreimage → bytes → Suite SignCall
}.

Record Config := mkConfig {
  Config_Signer : option Implementation;                (* None: a nil interface or a nil inside it *)
  Deterministic : bool;
  SigningOperations : option (S_ → Z);
  Config_Verify : option (ScVal → bytes → option error)
}.

(** *** The fixture *)
Definition fixturePreimage (label : string) : HashIdPreimage :=
  PreimageOfSorobanAuthorization (Some (mkSorobanAuthorization
    (network_ID "signertest conformance - this is not a network")
    (Z.of_nat (String.length label) + 1) 1000
    (mkInvocation (FunctionContractFn (Some (mkInvokeContractArgs
       (ScAddressTypeContract (Some (x01 :: replicate 31 x00))) ("conformance_" +:+ label) []))) []))).

Definition fixture (label : string) : HashIdPreimage * result bytes :=
  (fixturePreimage label, Payload (fixturePreimage label)).

(** Builds the fixture and hands it over, or reports that it cannot. *)
Definition withFixture (name label : string)
    (k : HashIdPreimage → bytes → Suite (list Violation)) : Suite (list Violation) :=
  match fixture label with
  | (_, Err err) => mret (violation name ("building a fixture: " +:+ Error err))
  | (preimage, Ok payload) => k preimage payload
  end.

(** *** The checks *)
Section checks.
Variable cfg : Config.
Variable signer : Implementation.

Definition cancelled : Ctx := Canceled.
Definition expired : Ctx := mkCtx (λ _, Some (ESentinel ContextDeadlineExceeded)).

(** The five calls of the loop, from call [i]. *)
Fixpoint sameAddress_loop (name first : string) (n i : nat) : Suite (option (list Violation)) :=
  match n with
  | O => mret None
  | S n =>
      got ← impl_Address signer;
      if String.eqb got first then sameAddress_loop name first n (S i)
      else mret (Some (violation name ("Address() returned " +:+ quoted first +:+ ", then " +:+ quoted got +:+
                                       " on call " +:+ pretty (i + 2))))
  end.

Definition checkAddressStable (_ : Ctx) : Suite (list Violation) :=
  let name := "address_is_stable" in
  first ← impl_Address signer;
  if String.eqb first "" then
    mret (violation name "Address() is empty; a signature with no address belongs to no credential node")
  else match ParseAddress first with
  | Err err => mret (violation name ("Address() " +:+ quoted first +:+ " is not a G… or C… address: " +:+ Error err))
  | Ok _ =>
      moved ← sameAddress_loop name first 5 0;
      match moved with
      | Some v => mret v
      | None =>
          withFixture name "address" (λ preimage payload,
            _ ← impl_Sign signer Background preimage payload;
            got ← impl_Address signer;
            mret (if String.eqb got first then []
                  else violation name ("Address() changed from " +:+ quoted first +:+ " to " +:+ quoted got +:+
                                       " after Sign")))
      end
  end.

Definition checkSignReturns (ctx : Ctx) : Suite (list Violation) :=
  let name := "sign_returns_a_signature" in
  withFixture name "sign" (λ preimage payload,
    r ← impl_Sign signer ctx preimage payload;
    mret match Signed_err r with
    | Some err => violation name ("Sign failed on a well-formed request with a live context: " +:+ Error err)
    | None =>
        let val := Signed_val r in
        if isZero val then violation name "Sign returned a zero ScVal and no error"
        else match MarshalBinary val with
        | Err err => violation name ("Sign returned a value that does not encode: " +:+ Error err)
        | Ok _ =>
            if bool_decide (val = ScvVoid)
            then violation name "Sign returned Void, which AuthorizeEntry would treat as unsigned"
            else match Config_Verify cfg with
            | None => []
            | Some verify =>
                match verify val payload with
                | None => []
                | Some err => violation name ("the signature failed the caller's verification: " +:+ Error err)
                end
            end
        end
    end).

Definition checkPreimageUntouched (ctx : Ctx) : Suite (list Violation) :=
  let name := "preimage_is_not_mutated" in
  withFixture name "mutate" (λ preimage payload,
    match MarshalBinary preimage with
    | Err err => mret (violation name ("encoding the fixture: " +:+ Error err))
    | Ok before =>
        r ← impl_Sign signer ctx preimage payload;
        mret match MarshalBinary (Signed_preimage r) with
        | Err err => violation name ("the preimage no longer encodes after Sign: " +:+ Error err)
        | Ok after =>
            if bytes_Equal before after then []
            else violation name
              "Sign changed the caller's preimage; signers receive pointers into the entry being authorized"
        end
    end).

(** [cfg.SigningOperations()], when it is set. *)
Definition operations : Suite (option Z) := λ s, ((λ count, count s) <$> SigningOperations cfg, s).

Definition checkCancelled (_ : Ctx) : Suite (list Violation) :=
  let name := "cancelled_context_is_honoured" in
  withFixture name "cancelled" (λ preimage payload,
    before ← operations;
    r ← impl_Sign signer cancelled preimage payload;
    after ← operations;
    mret (match Signed_err r with
          | None => violation name "Sign succeeded with an already-cancelled context; it must return ctx.Err() promptly"
          | Some err =>
              if errors_Is err ContextCanceled then []
              else violation name ("Sign failed with " +:+ Error err +:+ ", which does not wrap context.Canceled")
          end ++
          match before, after with
          | Some before, Some after =>
              if (after =? before)%Z then []
              else violation name ("the key signed " +:+ pretty (after - before)%Z +:+ " time(s) under a cancelled context")
          | _, _ => []
          end)).

Definition checkDeadline (_ : Ctx) : Suite (list Violation) :=
  let name := "expired_context_is_honoured" in
  withFixture name "deadline" (λ preimage payload,
    r ← impl_Sign signer expired preimage payload;
    mret match Signed_err r with
    | None => violation name "Sign succeeded with an expired deadline"
    | Some err =>
        if errors_Is err ContextDeadlineExceeded then []
        else violation name ("Sign failed with " +:+ Error err +:+ ", which does not wrap context.DeadlineExceeded")
    end).

Definition checkNoPartial (_ : Ctx) : Suite (list Violation) :=
  let name := "failure_returns_no_partial_value" in
  withFixture name "partial" (λ preimage payload,
    r ← impl_Sign signer cancelled preimage payload;
    mret (if bool_decide (is_Some (Signed_err r)) && negb (isZero (Signed_val r))
          then violation name ("Sign returned an error together with a non-zero ScVal (" +:+
                 ScValType_String (Signed_val r) +:+
                 "); a caller writing the value would write a half-built signature")
          else [])).

Definition checkUsableAfterFailure (ctx : Ctx) : Suite (list Violation) :=
  let name := "usable_after_a_refusal" in
  withFixture name "after" (λ preimage payload,
    _ ← impl_Sign signer cancelled preimage payload;
    r ← impl_Sign signer ctx preimage payload;
    mret match Signed_err r with
    | Some err => violation name ("Sign failed on a live context after an earlier cancelled call: " +:+ Error err)
    | None => []
    end).

(** [x, _ := v.MarshalBinary()]: no bytes when the value does not encode. *)
Definition encodedOrNil (v : ScVal) : bytes := match MarshalBinary v with Ok b => b | Err _ => [] end.

Definition errText (o : option error) : string := match o with Some err => Error err | None => "<nil>" end.

Definition checkDeterminism (ctx : Ctx) : Suite (list Violation) :=
  let name := "deterministic_contract" in
  if negb (Deterministic cfg) then mret []
  else withFixture name "det" (λ preimage payload,
    a ← impl_Sign signer ctx preimage payload;
    b ← impl_Sign signer ctx preimage payload;
    if bool_decide (is_Some (Signed_err a)) || bool_decide (is_Some (Signed_err b))
    then mret (violation name ("Sign failed: " +:+ errText (Signed_err a) +:+ ", " +:+ errText (Signed_err b)))
    else if negb (bytes_Equal (encodedOrNil (Signed_val a)) (encodedOrNil (Signed_val b)))
    then mret (violation name "declared deterministic, but two signatures over the same payload differ")
    else withFixture name "deterministic-other" (λ otherPreimage otherPayload,
      c ← impl_Sign signer ctx otherPreimage otherPayload;
      mret match Signed_err c with
      | Some err => violation name ("Sign failed: " +:+ Error err)
      | None =>
          if bytes_Equal (encodedOrNil (Signed_val a)) (encodedOrNil (Signed_val c))
          then violation name
            "two different payloads produced the same signature; the signer is ignoring its input"
          else []
      end)).

Definition checks : list (string * (Ctx → Suite (list Violation))) :=
  [("address_is_stable", checkAddressStable);
   ("sign_returns_a_signature", checkSignReturns);
   ("preimage_is_not_mutated", checkPreimageUntouched);
   ("cancelled_context_is_honoured", checkCancelled);
   ("expired_context_is_honoured", checkDeadline);
   ("failure_returns_no_partial_value", checkNoPartial);
   ("usable_after_a_refusal", checkUsableAfterFailure);
   ("deterministic_contract", checkDeterminism)].
End checks.

Fixpoint runChecks (ctx : Ctx) (l : list (string * (Ctx → Suite (list Violation))))
    : Suite (list (string * list Violation)) :=
  match l with
  | [] => mret []
  | (name, run) :: l => v ← run ctx; rest ← runChecks ctx l; mret ((name, v) :: rest)
  end.

Definition Check (ctx : Ctx) (cfg : Config) : Suite (list Violation) :=
  match Config_Signer cfg with
  | None => mret [mkViolation "signer" "the signer under test is nil"]
  | Some signer => rows ← runChecks ctx (checks cfg signer); mret (concat rows.*2)
  end.

(** [Run]: the test is stopped, or has a subtest for each check with what that
    check reports to it; a subtest passes when nothing is reported. *)
Definition RunSuite (cfg : Config) : Suite (string + list (string * list string)) :=
  match Config_Signer cfg with
  | None => mret (inl "signertest: the signer under test is nil; refusing to pass vacuously")
  | Some signer =>
      rows ← runChecks Background (checks cfg signer);
      mret (inr (map (λ '(name, vs), (name, map Violation_String vs)) rows))
  end.
End suite.

Arguments impl_Address {_} _.
Arguments impl_Sign {_} _ _ _ _.
Arguments mkImplementation {_} _ _.
Arguments mkConfig {_} _ _ _ _.
Arguments Config_Signer {_} _.
Arguments Deterministic {_} _.
Arguments SigningOperations {_} _.
Arguments Config_Verify {_} _.
Arguments Check {_ _} _ _.
Arguments RunSuite {_ _} _.

(** ** The contract *)
Definition fixtureLabels : list string :=
  ["address"; "sign"; "mutate"; "cancelled"; "deadline"; "partial"; "after"; "det"; "deterministic-other"].

(** The fixtures encode, and the two of the last check do not collide. *)
Definition suite_ready `{SDK} : bool :=
  forallb (λ label, is_ok (Payload (fixturePreimage label))) fixtureLabels &&
  match Payload (fixturePreimage "det"), Payload (fixturePreimage "deterministic-other") with
  | Ok a, Ok b => negb (bytes_Equal a b)
  | _, _ => false
  end.

Definition live (ctx : Ctx) : Prop := ∀ t, ctx_Err ctx t = None.
Definition ctx_ended (ctx : Ctx) (s : sentinel) : Prop := ∀ t, ctx_Err ctx t = Some (ESentinel s).

Section contract.
Context `{SDK} {S_ : Type}.

(** A signature worth writing: it encodes, it is neither zero nor Void, and the
    caller's own check, if any, accepts it. *)
Definition acceptable (cfg : Config S_) (v : ScVal) (payload : bytes) : Prop :=
  v ≠ zeroVal ∧ v ≠ ScvVoid ∧ is_ok (MarshalBinary v) = true ∧
  match Config_Verify cfg with Some verify => verify v payload = None | None => True end.

(** The Signer interface's prose (signer.go) as laws over the states an
    implementation can be in and the requests it serves: one valid address; a
    refusal that wraps the context's error, holds no value and has not signed; a
    signature on a request, a function of the payload where the signer claims to
    be deterministic; the caller's preimage left alone. *)
Record Contract (cfg : Config S_) (signer : Implementation S_) (Inv : S_ → Prop)
    (request : HashIdPreimage → bytes → Prop) (address : string) (answer : bytes → ScVal) : Prop := {
  contract_parses : address ≠ "" ∧ is_ok (ParseAddress address) = true;
  contract_address s : Inv s → ∃ s', impl_Address signer s = (address, s') ∧ Inv s';
  contract_refuses ctx e p h s : ctx_ended ctx e → Inv s →
    ∃ err s', impl_Sign signer ctx p h s = (mkSigned zeroVal (Some err) p, s') ∧
      errors_Is err e = true ∧ Inv s' ∧
      match SigningOperations cfg with Some count => count s' = count s | None => True end;
  contract_signs ctx p h s : live ctx → request p h → Inv s →
    ∃ v s', impl_Sign signer ctx p h s = (mkSigned v None p, s') ∧ acceptable cfg v h ∧ Inv s' ∧
      (Deterministic cfg = true → v = answer h);
  contract_distinct p h p' h' : Deterministic cfg = true → request p h → request p' h' → h ≠ h' →
    encodedOrNil (answer h) ≠ encodedOrNil (answer h')
}.

(** The fixtures are requests the implementation serves. *)
Definition serves (request : HashIdPreimage → bytes → Prop) : Prop := ∀ label h,
  label ∈ fixtureLabels → Payload (fixturePreimage label) = Ok h → request (fixturePreimage label) h.

(** A step of the suite that ends well in every state of the invariant. *)
Definition passes {A} (Inv : S_ → Prop) (good : A → Prop) (m : Suite S_ A) : Prop :=
  ∀ s, Inv s → ∃ a s', m s = (a, s') ∧ good a ∧ Inv s'.
End contract.

Section contract_theorems.
Context `{SDK} {S_ : Type}.
Variables (cfg : Config S_) (signer : Implementation S_) (Inv : S_ → Prop).
Variables (request : HashIdPreimage → bytes → Prop) (address : string) (answer : bytes → ScVal).
Hypothesis HC : Contract cfg signer Inv request address answer.
Hypothesis Hserves : serves request.
Hypothesis Hready : suite_ready = true.

Abbreviation quiet m := (passes Inv (λ v : list Violation, v = []) m).

Lemma passes_ret {A} (good : A → Prop) a : good a → passes Inv good (Suite_ret S_ A a).
Proof. intros Ha s Hs. by exists a, s. Qed.

Lemma passes_bind {A B} (good : A → Prop) (good' : B → Prop) m f :
  passes Inv good m → (∀ a, good a → passes Inv good' (f a)) → passes Inv good' (Suite_bind S_ A B f m).
Proof.
  intros Hm Hf s Hs. destruct (Hm s Hs) as (a & s1 & E & Ha & H1). destruct (Hf a Ha s1 H1) as (b & s2 & E2 & ? & ?).
  exists b, s2. unfold Suite_bind. by rewrite E, E2.
Qed.

Lemma fixture_Ok label : label ∈ fixtureLabels → ∃ h, Payload (fixturePreimage label) = Ok h.
Proof.
  intros Hl. apply andb_true_iff in Hready as [Hr _]. rewrite forallb_forall in Hr.
  specialize (Hr label (proj1 (list_elem_of_In _ _) Hl)). destruct (Payload _) as [h|]; [by exists h|done].
Qed.

Lemma passes_fixture name label k : label ∈ fixtureLabels →
  (∀ h, request (fixturePreimage label) h → Payload (fixturePreimage label) = Ok h → quiet (k (fixturePreimage label) h)) →
  quiet (withFixture S_ name label k).
Proof.
  intros Hl Hk. destruct (fixture_Ok _ Hl) as [h Hh]. unfold withFixture, fixture. rewrite Hh.
  apply Hk; [by apply Hserves|done].
Qed.

Lemma passes_address : passes Inv (λ a, a = address) (impl_Address signer).
Proof. intros s Hs. destruct (contract_address _ _ _ _ _ _ HC s Hs) as (s' & E & ?). by exists address, s'. Qed.

Lemma passes_signs ctx p h : live ctx → request p h →
  passes Inv (λ r, ∃ v, r = mkSigned v None p ∧ acceptable cfg v h ∧ (Deterministic cfg = true → v = answer h))
    (impl_Sign signer ctx p h).
Proof.
  intros Hc Hp s Hs. destruct (contract_signs _ _ _ _ _ _ HC ctx p h s Hc Hp Hs) as (v & s' & E & ? & ? & ?).
  exists (mkSigned v None p), s'. eauto 6.
Qed.

Lemma passes_refuses ctx e p h : ctx_ended ctx e →
  passes Inv (λ r, ∃ err, r = mkSigned zeroVal (Some err) p ∧ errors_Is err e = true) (impl_Sign signer ctx p h).
Proof.
  intros Hc s Hs. destruct (contract_refuses _ _ _ _ _ _ HC ctx e p h s Hc Hs) as (err & s' & E & ? & ? & _).
  exists (mkSigned zeroVal (Some err) p), s'. eauto.
Qed.

Lemma fixture_label l label : bool_decide (label ∈ l) = true → label ∈ (l : list string).
Proof. apply bool_decide_eq_true. Qed.

Ltac with_fixture h Hq Hh := apply passes_fixture; [by apply fixture_label|intros h Hq Hh].

Lemma canceled_ended : ctx_ended Canceled ContextCanceled.
Proof. done. Qed.
Lemma expired_ended : ctx_ended expired ContextDeadlineExceeded.
Proof. done. Qed.
Lemma background_live : live Background.
Proof. done. Qed.

Lemma passes_sameAddress name n : ∀ i, passes Inv (λ o, o = None) (sameAddress_loop S_ signer name address n i).
Proof.
  induction n as [|n IH]; intros i; cbn [sameAddress_loop]; [by apply passes_ret|].
  eapply passes_bind; [apply passes_address|]. intros a ->. rewrite String.eqb_refl. apply IH.
Qed.

Lemma address_passes ctx : quiet (checkAddressStable S_ signer ctx).
Proof.
  destruct (contract_parses _ _ _ _ _ _ HC) as [Hne Hp]. eapply passes_bind; [apply passes_address|]. intros a ->.
  rewrite (proj2 (String.eqb_neq _ _) Hne). destruct (ParseAddress address) as [pa|]; [|done].
  eapply passes_bind; [apply passes_sameAddress|]. intros o ->. with_fixture h Hq Hh.
  eapply passes_bind; [by apply passes_signs|]. intros _ _.
  eapply passes_bind; [apply passes_address|]. intros a ->. rewrite String.eqb_refl. by apply passes_ret.
Qed.

Lemma signs_passes ctx : live ctx → quiet (checkSignReturns S_ cfg signer ctx).
Proof.
  intros Hl. with_fixture h Hq Hh. eapply passes_bind; [by apply passes_signs|].
  intros r (v & -> & (Hz & Hv & Hm & Hc) & _). apply passes_ret. cbn [Signed_err Signed_val].
  unfold isZero. rewrite bool_decide_eq_false_2 by done. destruct (MarshalBinary v); [|done].
  rewrite bool_decide_eq_false_2 by done. destruct (Config_Verify cfg); [by rewrite Hc|done].
Qed.

Lemma preimage_passes ctx : live ctx → quiet (checkPreimageUntouched S_ signer ctx).
Proof.
  intros Hl. with_fixture h Hq Hh. destruct (MarshalBinary (fixturePreimage "mutate")) as [b|e] eqn:E.
  - eapply passes_bind; [by apply passes_signs|]. intros r (v & -> & _). apply passes_ret.
    cbn [Signed_preimage]. by rewrite E, (proj2 (bytes_Equal_spec b b)).
  - unfold Payload in Hh. by rewrite E in Hh.
Qed.

Lemma cancelled_passes ctx : quiet (checkCancelled S_ cfg signer ctx).
Proof.
  with_fixture h Hq Hh. intros s Hs.
  destruct (contract_refuses _ _ _ _ _ _ HC Canceled _ (fixturePreimage "cancelled") h s canceled_ended Hs)
    as (err & s' & E & He & Hi & Ho).
  eexists _, s'. split; [|split; [reflexivity|done]]. unfold mbind, Suite_bind, operations, cancelled. rewrite E.
  cbn [Signed_err]. rewrite He. destruct (SigningOperations cfg); cbn; [|done]. by rewrite Ho, Z.eqb_refl.
Qed.

Lemma deadline_passes ctx : quiet (checkDeadline S_ signer ctx).
Proof.
  with_fixture h Hq Hh. eapply passes_bind; [apply passes_refuses, expired_ended|].
  intros r (err & -> & He). apply passes_ret. cbn [Signed_err]. by rewrite He.
Qed.

Lemma partial_passes ctx : quiet (checkNoPartial S_ signer ctx).
Proof.
  with_fixture h Hq Hh. eapply passes_bind; [apply passes_refuses, canceled_ended|].
  intros r (err & -> & He). by apply passes_ret.
Qed.

Lemma usable_passes ctx : live ctx → quiet (checkUsableAfterFailure S_ signer ctx).
Proof.
  intros Hl. with_fixture h Hq Hh. eapply passes_bind; [apply passes_refuses, canceled_ended|]. intros _ _.
  eapply passes_bind; [by apply passes_signs|]. intros r (v & -> & _). by apply passes_ret.
Qed.

Lemma fixtures_differ h h' : Payload (fixturePreimage "det") = Ok h →
  Payload (fixturePreimage "deterministic-other") = Ok h' → h ≠ h'.
Proof.
  intros Hh Hh' ->. apply andb_true_iff in Hready as [_ Hr]. rewrite Hh, Hh' in Hr.
  by rewrite (proj2 (bytes_Equal_spec h' h')) in Hr.
Qed.

Lemma determinism_passes ctx : live ctx → quiet (checkDeterminism S_ cfg signer ctx).
Proof.
  intros Hl. unfold checkDeterminism. destruct (Deterministic cfg) eqn:Ed; [|by apply passes_ret].
  with_fixture h Hq Hh. eapply passes_bind; [by apply passes_signs|]. intros r (v & -> & _ & Hv).
  eapply passes_bind; [by apply passes_signs|]. intros r (v' & -> & _ & Hv').
  rewrite (Hv Ed), (Hv' Ed). cbn [Signed_err Signed_val]. rewrite (proj2 (bytes_Equal_spec _ _) eq_refl).
  with_fixture h' Hq' Hh'. eapply passes_bind; [by apply passes_signs|]. intros r (v'' & -> & _ & Hv'').
  apply passes_ret. rewrite (Hv'' Ed). cbn [Signed_err Signed_val].
  destruct (bytes_Equal _ _) eqn:Eb; [|done]. apply bytes_Equal_spec in Eb.
  destruct (contract_distinct _ _ _ _ _ _ HC _ h _ h' Ed Hq Hq'); [by apply fixtures_differ|done].
Qed.

Lemma runChecks_pass ctx l : Forall (λ c, quiet (c.2 ctx)) l →
  passes Inv (λ rows, Forall (λ row, row.2 = []) rows) (runChecks S_ ctx l).
Proof.
  induction 1 as [|[name run] l Hr _ IH]; cbn [runChecks]; [by apply passes_ret|].
  eapply passes_bind; [exact Hr|]. intros v Hv. eapply passes_bind; [exact IH|]. intros rows Hrows.
  apply passes_ret. by constructor.
Qed.

Lemma checks_pass ctx : live ctx → Forall (λ c, quiet (c.2 ctx)) (checks S_ cfg signer).
Proof.
  intros Hl. unfold checks. repeat (apply Forall_cons; split); [apply address_passes|..|by apply Forall_nil].
  all: cbn [snd]; auto using signs_passes, preimage_passes, cancelled_passes, deadline_passes,
    partial_passes, usable_passes, determinism_passes.
Qed.
End contract_theorems.

(** *** No false alarm *)
Section suite_theorems.
Context `{SDK}.

(** The suite raises no violation against a signer that keeps the Signer
    contract: valid constant address, refusals under an ended context that wrap
    its error and neither sign nor leave a value, usable signatures on
    well-formed requests, and, where the signer claims to be deterministic, one
    answer for a payload and different answers for different payloads. *)
Lemma Check_contract {S_} (cfg : Config S_) signer Inv request address answer ctx s :
  Contract cfg signer Inv request address answer → serves request → suite_ready = true → live ctx →
  Config_Signer cfg = Some signer → Inv s →
  (Check ctx cfg s).1 = [] ∧
  ∃ rows, (RunSuite cfg s).1 = inr rows ∧ Forall (λ row, row.2 = []) rows.
Proof.
  intros HC Hq Hr Hl Hc Hs. unfold Check, RunSuite. rewrite Hc. split.
  - destruct (runChecks_pass Inv ctx _ (checks_pass _ _ _ _ _ _ HC Hq Hr ctx Hl) s Hs)
      as (rows & s' & E & Hrows & _).
    unfold mbind, Suite_bind. rewrite E. cbn. revert Hrows. clear. induction 1 as [|[? ?] ? Hv _ IH]; [done|].
    cbn in *. by rewrite Hv, IH.
  - destruct (runChecks_pass Inv Background _
      (checks_pass _ _ _ _ _ _ HC Hq Hr Background background_live) s Hs) as (rows & s' & E & Hrows & _).
    unfold mbind, Suite_bind. rewrite E. cbn. eexists. split; [done|]. apply Forall_fmap.
    eapply Forall_impl; [exact Hrows|]. intros [name vs]; cbn. by intros ->.
Qed.
End suite_theorems.

(** ** The library's signers as implementations *)
(** A failing Sign of the library returns [xdr.ScVal{}] beside its error, and no
    signer writes into the preimage. *)
Definition asImplementation (s : Signer) : Implementation World :=
  mkImplementation (λ w, (signer_Address s, w))
    (λ ctx p h w, match signer_Sign s ctx p h w with
                  | (Ok v, w) => (mkSigned v None p, w)
                  | (Err e, w) => (mkSigned zeroVal (Some e) p, w)
                  end).

(** A signer of the library keeps the contract in every world. *)
Definition conforms `{SDK} (det : bool) (verify : option (ScVal → bytes → option error))
    (request : HashIdPreimage → bytes → Prop) (answer : bytes → ScVal) (s : Signer) : Prop :=
  Contract (mkConfig (Some (asImplementation s)) det None verify) (asImplementation s) (λ _, True) request
    (signer_Address s) answer.

Section retrying.
Context `{SDK}.

(** A first attempt of the retrying signer is an attempt of its inner signer. *)
Lemma asImplementation_Sign s ctx p h w val err w' :
  impl_Sign (asImplementation s) ctx p h w = (mkSigned val err p, w') →
  signer_Sign s ctx p h w = (match err with Some e => Err e | None => Ok val end, w').
Proof. cbn. destruct (signer_Sign s ctx p h w) as [[v|e] ?]; intros E; by injection E as <- <- <-. Qed.

(** Retrying keeps the contract: nothing is retried when the context has ended
    or when the first attempt succeeds. *)
Lemma WithRetry_conforms rand cfg det verify request answer s :
  conforms det verify request answer s → conforms det verify request answer (WithRetry rand s cfg).
Proof.
  intros [Hp Ha Hr Hs Hd]. split; [done|intros w _; by exists w| |..|done].
  - intros ctx e p h w He _. exists (EWrap "soroauth: retry sign" (ESentinel e)). eexists. split; [|split; [|done]].
    + cbn -[Error effectiveAttempts]. unfold retriedSigner_Sign.
      destruct (Z.to_nat _); cbn [retryLoop]; unfold mbind, IO_bind, ctx_check, ctx_poll, lift, mbind, IO_bind;
        rewrite He; reflexivity.
    + cbn. by rewrite bool_decide_eq_true_2.
  - intros ctx p h w Hl Hq _.
    destruct (Hs ctx p h (emit_event (EvSign (signer_Address s) p h) (tick w)) Hl Hq I) as (v & w' & E & Hv & _ & Hans).
    apply asImplementation_Sign in E. exists v, w'. split; [|done].
    cbn -[effectiveAttempts]. unfold retriedSigner_Sign.
    destruct (Z.to_nat _); cbn [retryLoop]; unfold mbind, IO_bind, ctx_check, ctx_poll, lift, mbind, IO_bind;
      rewrite Hl; cbn -[signer_Sign]; unfold try_, call_Sign, perform, mbind, IO_bind; cbn -[signer_Sign]; by rewrite E.
Qed.
End retrying.

Section keypairs.
Context `{SDK} `{!SDKLaws}.

(** What a working key pair does: it signs what it is asked to, its own check accepts
    what it signed, the signature encodes, and it belongs to one message. *)
Record working_keypair (request : HashIdPreimage → bytes → Prop) (kp : ed25519Keypair) (raw : bytes) : Prop := {
  keypair_address : kp_Address kp ≠ "" ∧ rawEd25519Key (kp_Address kp) = Ok raw ∧ length raw = 32;
  keypair_signs p h : request p h → ∃ sig, kp_Sign kp h = Ok sig ∧ kp_Verify kp h sig = Ok tt ∧
    is_ok (MarshalBinary (scVec [accountSignature raw sig])) = true;
  keypair_binds h h' sig : kp_Sign kp h = Ok sig → kp_Sign kp h' = Ok sig → h = h'
}.

Definition keypair_answer (kp : ed25519Keypair) (raw h : bytes) : ScVal :=
  match kp_Sign kp h with Ok sig => scVec [accountSignature raw sig] | Err _ => zeroVal end.

Lemma ed25519_conforms request kp raw : working_keypair request kp raw →
  conforms true None request (keypair_answer kp raw) (NewEd25519Signer (Some kp)).
Proof.
  intros [(Hne & Hraw & Hlen) Hs Hb].
  unfold conforms. change (signer_Address (NewEd25519Signer (Some kp))) with (kp_Address kp). split.
  - split; [done|]. pose proof (rawEd25519Key_length _ _ Hraw) as Hd.
    assert (ParseAddress (kp_Address kp) = Ok (ScAddressTypeAccount (Some (mkAccountId 0 (Some raw))))) as ->; [|done].
    apply ParseAddress_Ok. exists raw. auto.
  - intros w _. by exists w.
  - intros ctx e p h w He _. do 2 eexists. split.
    { cbn -[Error]. unfold ed25519Signer_Sign, ctx_check, ctx_poll, lift, mbind, IO_bind. rewrite He. reflexivity. }
    split; [|done]. cbn. by rewrite bool_decide_eq_true_2.
  - intros ctx p h w Hl Hq _. destruct (Hs p h Hq) as (sig & Hsig & Hv & Hm).
    exists (scVec [accountSignature raw sig]). eexists. split.
    { cbn -[Error scVec]. unfold ed25519Signer_Sign, ctx_check, ctx_poll, lift, mbind, IO_bind. rewrite Hl.
      cbn -[scVec]. rewrite Hsig. cbn -[scVec]. rewrite Hv. cbn -[scVec]. rewrite Hraw. reflexivity. }
    split; [by repeat split|]. split; [done|]. intros _. unfold keypair_answer. by rewrite Hsig.
  - intros p h p' h' _ Hq Hq' Hh E.
    destruct (Hs p h Hq) as (sig & Hsig & _ & Hm), (Hs p' h' Hq') as (sig' & Hsig' & _ & Hm').
    unfold encodedOrNil, keypair_answer in E. rewrite Hsig, Hsig' in E.
    destruct (MarshalBinary (scVec [accountSignature raw sig])) as [b|] eqn:E1; [|done].
    destruct (MarshalBinary (scVec [accountSignature raw sig'])) as [b'|] eqn:E2; [|done]. subst b'.
    assert (sig = sig') as <-; [|by apply Hh, (Hb h h' sig)].
    pose proof (MarshalBinary_inj _ _ _ E1 E2) as Ev. by injection Ev.
Qed.
End keypairs.

(** ** What a passed suite shows *)
(** A run of an implementation that keeps the rules, call by call, in the order
    the suite makes its calls: the rules speak of the values, the errors, the
    preimages and the states these calls leave. *)
Section rules.
Context `{SDK} {S_ : Type}.
Variables (cfg : Config S_) (signer : Implementation S_) (ctx : Ctx).

(** A call of Sign on a fixture, from one state to the next. *)
Definition signing (c : Ctx) (label : string) (r : SignCall) (h : bytes) (s s' : S_) : Prop :=
  Payload (fixturePreimage label) = Ok h ∧ impl_Sign signer c (fixturePreimage label) h s = (r, s').

Fixpoint reads (n : nat) (a : string) (s s' : S_) : Prop :=
  match n with
  | O => s' = s
  | S n => ∃ s1, impl_Address signer s = (a, s1) ∧ reads n a s1 s'
  end.

(** One valid address, before and after signing. *)
Definition one_address (s s' : S_) : Prop := ∃ a r h s1 s2,
  a ≠ "" ∧ is_ok (ParseAddress a) = true ∧ reads 6 a s s1 ∧ signing Background "address" r h s1 s2 ∧ reads 1 a s2 s'.

Definition signs_well (s s' : S_) : Prop := ∃ r h,
  signing ctx "sign" r h s s' ∧ Signed_err r = None ∧ acceptable cfg (Signed_val r) h.

Definition leaves_preimage (s s' : S_) : Prop := ∃ r h,
  signing ctx "mutate" r h s s' ∧ Signed_preimage r = fixturePreimage "mutate".

Definition refuses (c : Ctx) (label : string) (e : sentinel) (s s' : S_) : Prop := ∃ r h err,
  signing c label r h s s' ∧ Signed_err r = Some err ∧ errors_Is err e = true.

Definition refuses_without_signing (s s' : S_) : Prop :=
  refuses Canceled "cancelled" ContextCanceled s s' ∧
  ∀ count, SigningOperations cfg = Some count → count s' = count s.

Definition no_half_value (s s' : S_) : Prop := ∃ r h,
  signing Canceled "partial" r h s s' ∧ (Signed_err r = None ∨ Signed_val r = zeroVal).

Definition recovers (s s' : S_) : Prop := ∃ r0 r h s1,
  signing Canceled "after" r0 h s s1 ∧ signing ctx "after" r h s1 s' ∧ Signed_err r = None.

(** One answer for a payload, another for another. *)
Definition answers_payload (s s' : S_) : Prop :=
  if Deterministic cfg then ∃ r1 r2 r3 h h' s1 s2,
    signing ctx "det" r1 h s s1 ∧ signing ctx "det" r2 h s1 s2 ∧
    signing ctx "deterministic-other" r3 h' s2 s' ∧
    Signed_err r1 = None ∧ Signed_err r2 = None ∧ Signed_err r3 = None ∧
    encodedOrNil (Signed_val r1) = encodedOrNil (Signed_val r2) ∧
    encodedOrNil (Signed_val r1) ≠ encodedOrNil (Signed_val r3)
  else s' = s.

Fixpoint follows (rules : list (S_ → S_ → Prop)) (s : S_) : Prop :=
  match rules with
  | [] => True
  | rule :: rules => ∃ s', rule s s' ∧ follows rules s'
  end.

Definition rules : list (S_ → S_ → Prop) :=
  [one_address; signs_well; leaves_preimage; refuses_without_signing;
   refuses expired "deadline" ContextDeadlineExceeded; no_half_value; recovers; answers_payload].
End rules.

Section exactness.
Context `{SDK} `{!SDKLaws} {S_ : Type}.
Variables (cfg : Config S_) (signer : Implementation S_) (ctx : Ctx).
Abbreviation signing := (signing signer).
#[local] Existing Instance Suite_ret.
#[local] Existing Instance Suite_bind.

(** A check is silent exactly when its calls keep its rule. *)
Definition decides_rule (run : Suite S_ (list Violation)) (rule : S_ → S_ → Prop) : Prop :=
  ∀ s s', run s = ([], s') ↔ rule s s'.

Ltac open_suite := unfold mbind, Suite_bind, mret, Suite_ret, violation.

(** A check on a fixture starts with the fixture's payload. *)
Lemma fixture_silent name label k s s' :
  withFixture S_ name label k s = ([], s') ↔
  ∃ h, Payload (fixturePreimage label) = Ok h ∧ k (fixturePreimage label) h s = ([], s').
Proof.
  unfold withFixture, fixture. destruct (Payload _) as [h|e]; [naive_solver|].
  open_suite. split; [intros [=]|by intros (? & [=] & _)].
Qed.

(** A check that makes one call of Sign and judges it. *)
Lemma one_call c name label judge (good : SignCall → bytes → Prop) :
  (∀ r h, Payload (fixturePreimage label) = Ok h → judge r h = [] ↔ good r h) →
  decides_rule (withFixture S_ name label (λ p h, r ← impl_Sign signer c p h; mret (judge r h)))
    (λ s s', ∃ r h, signing c label r h s s' ∧ good r h).
Proof.
  intros Hj s s'. rewrite fixture_silent. open_suite. unfold SignerTest.signing. split.
  - intros (h & Hh & E). destruct (impl_Sign _ _ _ _ _) as [r s1] eqn:Er. injection E as Ej <-.
    exists r, h. split; [done|]. by apply Hj.
  - intros (r & h & [Hh Er] & Hg%Hj); [|done]. exists h. split; [done|]. by rewrite Er, Hg.
Qed.

Lemma sameAddress_silent name a n : ∀ i s s',
  sameAddress_loop S_ signer name a n i s = (None, s') ↔ reads signer n a s s'.
Proof.
  induction n as [|n IH]; intros i s s'; cbn [sameAddress_loop reads]; open_suite; [naive_solver|].
  destruct (impl_Address signer s) as [got s1]. destruct (String.eqb_spec got a) as [->|Hne].
  - rewrite IH. naive_solver.
  - split; [intros [=]|]. intros (? & [= ? _] & _). done.
Qed.

Lemma sameAddress_moved name a n v : ∀ i s s', sameAddress_loop S_ signer name a n i s = (Some v, s') → v ≠ [].
Proof.
  induction n as [|n IH]; intros i s s'; cbn [sameAddress_loop]; open_suite; [done|].
  destruct (impl_Address signer s) as [got s1]. destruct (String.eqb got a); [apply IH|]. by intros [= <- _].
Qed.

Lemma address_decides : decides_rule (checkAddressStable S_ signer ctx) (one_address signer).
Proof.
  intros s s'. unfold checkAddressStable, one_address. open_suite. cbn [reads].
  destruct (impl_Address signer s) as [first s0] eqn:E0. destruct (String.eqb_spec first "") as [->|Hne].
  { split; [intros [=]|]. intros (? & ? & ? & ? & ? & ? & ? & (? & [= <- <-] & _) & _). done. }
  destruct (ParseAddress first) as [pa|e] eqn:Hp; cycle 1.
  { split; [intros [=]|]. intros (? & ? & ? & ? & ? & ? & Hok & (? & [= <- <-] & _) & _). by rewrite Hp in Hok. }
  destruct (sameAddress_loop S_ signer "address_is_stable" first 5 0 s0) as [[v|] s1] eqn:El.
  { assert (Hno : ∀ s2, ¬ reads signer 5 first s0 s2).
    { intros s2 Hr%(sameAddress_silent "address_is_stable" first 5 0). congruence. }
    assert (Hv : v ≠ []).
    { by apply sameAddress_moved in El. }
    split; [by intros [= -> _]|]. intros (a & r & h & s2 & s3 & _ & _ & (s4 & [= <- <-] & Hr) & _). by destruct (Hno s2). }
  apply sameAddress_silent in El. rewrite fixture_silent. split.
  - intros (h & Hh & E). destruct (impl_Sign signer Background (fixturePreimage "address") h s1) as [r s2] eqn:Er.
    destruct (impl_Address signer s2) as [got s3] eqn:Eg. destruct (String.eqb_spec got first) as [->|]; [|done].
    injection E as <-. exists first, r, h, s1, s2. rewrite Hp. split_and!; [done|done|by exists s0|done|by exists s3].
  - intros (a & r & h & s2 & s3 & _ & _ & (s4 & [= <- <-] & Hr) & [Hh Er] & (s5 & Eg & ->)).
    assert (s2 = s1) as ->.
    { apply (sameAddress_silent "x" first 5 0) in Hr, El. congruence. }
    exists h. split; [done|]. by rewrite Er, Eg, String.eqb_refl.
Qed.

Lemma sign_decides : decides_rule (checkSignReturns S_ cfg signer ctx) (signs_well cfg signer ctx).
Proof.
  apply one_call with (good := λ r h, Signed_err r = None ∧ acceptable cfg (Signed_val r) h).
  intros r h Hh. unfold acceptable, isZero, violation.
  destruct (Signed_err r) as [e|]; [naive_solver|].
  destruct (bool_decide_reflect (Signed_val r = zeroVal)); [naive_solver|].
  destruct (MarshalBinary (Signed_val r)); [|naive_solver].
  destruct (bool_decide_reflect (Signed_val r = ScvVoid)); [naive_solver|].
  destruct (Config_Verify cfg) as [verify|]; [|naive_solver]. destruct (verify _ _); naive_solver.
Qed.

Lemma preimage_decides : decides_rule (checkPreimageUntouched S_ signer ctx) (leaves_preimage signer ctx).
Proof.
  intros s s'. unfold checkPreimageUntouched, leaves_preimage. rewrite fixture_silent.
  destruct (MarshalBinary (fixturePreimage "mutate")) as [b|e] eqn:Hb; cycle 1.
  { unfold SignerTest.signing, Payload. rewrite Hb. cbn. naive_solver. }
  open_suite. unfold SignerTest.signing. split.
  - intros (h & Hh & E). destruct (impl_Sign _ _ _ _ _) as [r s1] eqn:Er.
    destruct (MarshalBinary (Signed_preimage r)) as [b'|] eqn:Hb'; [|done].
    destruct (bytes_Equal b b') eqn:Eb; [|done]. apply bytes_Equal_spec in Eb as <-. injection E as <-.
    exists r, h. split; [done|]. by eapply MarshalBinary_inj.
  - intros (r & h & [Hh Er] & Hpre). exists h. split; [done|].
    rewrite Er, Hpre, Hb, (proj2 (bytes_Equal_spec b b)); done.
Qed.

Lemma cancelled_decides : decides_rule (checkCancelled S_ cfg signer ctx) (refuses_without_signing cfg signer).
Proof.
  intros s s'. unfold checkCancelled, refuses_without_signing, refuses, operations, cancelled.
  rewrite fixture_silent. open_suite. unfold SignerTest.signing. split.
  - intros (h & Hh & E). destruct (impl_Sign _ _ _ _ _) as [r s1] eqn:Er. injection E as E12 <-. apply app_eq_nil in E12 as [E1 E2].
    destruct (Signed_err r) as [err|] eqn:He; [|done]. destruct (errors_Is err ContextCanceled) eqn:Hx; [|done].
    split; [by exists r, h, err|]. intros count Hcount. rewrite Hcount in E2. cbn in E2.
    by destruct (Z.eqb_spec (count s1) (count s)).
  - intros [(r & h & err & [Hh Er] & He & Hx) Hcount]. exists h. split; [done|]. rewrite Er, He, Hx.
    destruct (SigningOperations cfg) as [count|]; [|done]. cbn. by rewrite (Hcount count eq_refl), Z.eqb_refl.
Qed.

Lemma deadline_decides :
  decides_rule (checkDeadline S_ signer ctx) (refuses signer expired "deadline" ContextDeadlineExceeded).
Proof.
  intros s s'. unfold checkDeadline. etransitivity.
  - apply one_call with (good := λ r _, ∃ err, Signed_err r = Some err ∧ errors_Is err ContextDeadlineExceeded = true).
    intros r h _. unfold violation. destruct (Signed_err r) as [x|]; [|by split; [|intros (? & ? & ?)]].
    destruct (errors_Is x _) eqn:Ex; split; [by exists x|done..|]. intros (? & [= <-] & ?). congruence.
  - unfold refuses. split; [intros (r & h & ? & err & ? & ?)|intros (r & h & err & ? & ? & ?)]; exists r, h; eauto.
Qed.

Lemma partial_decides : decides_rule (checkNoPartial S_ signer ctx) (no_half_value signer).
Proof.
  apply one_call with (good := λ r _, Signed_err r = None ∨ Signed_val r = zeroVal). intros r h _. unfold isZero, violation.
  destruct (Signed_err r) as [e|]; cbn; [|naive_solver].
  destruct (bool_decide_reflect (Signed_val r = zeroVal)); cbn; naive_solver.
Qed.

Lemma usable_decides : decides_rule (checkUsableAfterFailure S_ signer ctx) (recovers signer ctx).
Proof.
  intros s s'. unfold checkUsableAfterFailure, recovers. rewrite fixture_silent. open_suite.
  unfold SignerTest.signing, cancelled. split.
  - intros (h & Hh & E). destruct (impl_Sign signer Canceled _ h s) as [r0 s1] eqn:E0.
    destruct (impl_Sign signer ctx _ h s1) as [r s2] eqn:E1. destruct (Signed_err r) eqn:He; [done|].
    injection E as <-. by exists r0, r, h, s1.
  - intros (r0 & r & h & s1 & [Hh E0] & [_ E1] & He). exists h. split; [done|]. by rewrite E0, E1, He.
Qed.

Lemma determinism_decides : decides_rule (checkDeterminism S_ cfg signer ctx) (answers_payload cfg signer ctx).
Proof.
  intros s s'. unfold checkDeterminism, answers_payload. destruct (Deterministic cfg); cbn [negb].
  2:{ open_suite. naive_solver. }
  rewrite fixture_silent. open_suite. unfold SignerTest.signing. split.
  - intros (h & Hh & E). destruct (impl_Sign signer ctx _ h s) as [r1 s1] eqn:E1.
    destruct (impl_Sign signer ctx _ h s1) as [r2 s2] eqn:E2.
    destruct (Signed_err r1) eqn:He1; [done|]. destruct (Signed_err r2) eqn:He2; [done|]. cbn [orb] in E.
    rewrite !bool_decide_eq_false_2 in E by (by intros [? ?]). cbn [orb] in E.
    destruct (bytes_Equal (encodedOrNil (Signed_val r1)) _) eqn:Eb; [|done]. cbn [negb] in E.
    apply bytes_Equal_spec in Eb. apply fixture_silent in E as (h' & Hh' & E).
    destruct (impl_Sign signer ctx _ h' s2) as [r3 s3] eqn:E3. destruct (Signed_err r3) eqn:He3; [done|].
    destruct (bytes_Equal (encodedOrNil (Signed_val r1)) (encodedOrNil (Signed_val r3))) eqn:Ec; [done|].
    injection E as <-. exists r1, r2, r3, h, h', s1, s2. split_and!; try done.
    intros Eq%bytes_Equal_spec. congruence.
  - intros (r1 & r2 & r3 & h & h' & s1 & s2 & [Hh E1] & [_ E2] & [Hh' E3] & He1 & He2 & He3 & Eb & Ec).
    exists h. split; [done|]. rewrite E1, E2, He1, He2.
    rewrite !bool_decide_eq_false_2 by (by intros [? ?]). cbn [orb].
    rewrite Eb, (proj2 (bytes_Equal_spec _ _) eq_refl). cbn [negb]. apply fixture_silent.
    exists h'. split; [done|]. rewrite E3, He3. destruct (bytes_Equal _ (encodedOrNil (Signed_val r3))) eqn:Ed; [|done].
    apply bytes_Equal_spec in Ed. congruence.
Qed.

Lemma runChecks_follow l rs :
  Forall2 (λ c rule, decides_rule (c.2 ctx) rule) l rs →
  ∀ s, concat (runChecks S_ ctx l s).1.*2 = [] ↔ follows rs s.
Proof.
  induction 1 as [|[name run] rule l rs Hd _ IH]; intros s; cbn [runChecks follows]; [done|].
  open_suite. destruct (run ctx s) as [v s1] eqn:Ev. specialize (IH s1).
  destruct (runChecks S_ ctx l s1) as [rows s2]. cbn [fst snd fmap list_fmap concat] in *.
  split.
  - intros [-> Hf%IH]%app_eq_nil. exists s1. split; [by apply Hd|done].
  - intros (s' & Hr%Hd & Hf). cbn in Hr. rewrite Ev in Hr. injection Hr as -> ->. by apply IH.
Qed.

Lemma checks_decide : Forall2 (λ c rule, decides_rule (c.2 ctx) rule) (checks S_ cfg signer) (rules cfg signer ctx).
Proof.
  unfold checks, rules. repeat (apply Forall2_cons; split); [..|by apply Forall2_nil]; cbn [snd];
    auto using address_decides, sign_decides, preimage_decides, cancelled_decides, deadline_decides,
      partial_decides, usable_decides, determinism_decides.
Qed.

End exactness.

Section verdicts.
Context `{SDK} `{!SDKLaws} {S_ : Type}.

(** A subtest passes when its check reports nothing. *)
Lemma silent_rows (rows : list (string * list Violation)) :
  concat rows.*2 = [] ↔ Forall (λ row, row.2 = []) (map (λ '(name, vs), (name, map Violation_String vs)) rows).
Proof.
  induction rows as [|[name vs] rows IH]; cbn; [done|]. rewrite Forall_cons, <- IH. cbn.
  destruct vs; cbn; naive_solver.
Qed.

(** C40. The conformance suite passes exactly the signers that behave.  For any
    implementation, whatever its state does, [Check] raises no violation, and
    every subtest of [Run] passes, if and only if there is a signer and the
    calls the suite makes, in their order, show one valid address that never
    changes, an acceptable signature on a live request, the caller's preimage
    untouched, a refusal under a cancelled context that wraps its error and has
    not signed, one under an expired deadline, no value beside an error, a
    signature after a refusal and, where the signer claims to be
    deterministic, one answer for a payload and another for another.  So an
    implementation that keeps the Signer contract in every state is never
    failed. *)
Theorem Check_decides (cfg : Config S_) ctx s :
  ((Check ctx cfg s).1 = [] ↔
   ∃ signer, Config_Signer cfg = Some signer ∧ follows (rules cfg signer ctx) s) ∧
  ((∃ rows, (RunSuite cfg s).1 = inr rows ∧ Forall (λ row, row.2 = []) rows) ↔
   ∃ signer, Config_Signer cfg = Some signer ∧ follows (rules cfg signer Background) s) ∧
  (∀ signer Inv request address answer, Contract cfg signer Inv request address answer → serves request →
     suite_ready = true → live ctx → Config_Signer cfg = Some signer → Inv s → (Check ctx cfg s).1 = []).
Proof.
  split; [|split].
  - unfold Check. destruct (Config_Signer cfg) as [signer|]; [|naive_solver].
    pose proof (runChecks_follow ctx _ _ (checks_decide cfg signer ctx) s) as Hf. revert Hf.
    unfold mbind, Suite_bind. destruct (runChecks _ _ _ s) as [rows s']. cbn. naive_solver.
  - unfold RunSuite. destruct (Config_Signer cfg) as [signer|]; [|naive_solver].
    pose proof (runChecks_follow Background _ _ (checks_decide cfg signer Background) s) as Hf. revert Hf.
    unfold mbind, Suite_bind. destruct (runChecks _ _ _ s) as [rows s']. cbn. rewrite silent_rows. naive_solver.
  - intros signer Inv request address answer HC Hq Hr Hl Hc Hs.
    by apply (Check_contract cfg signer Inv request address answer ctx s HC).
Qed.
End verdicts.

(** ** Examples *)
Definition ex_fixture_request (p : HashIdPreimage) (h : bytes) : Prop :=
  Exists (λ label, p = fixturePreimage label ∧ Payload (fixturePreimage label) = Ok h) fixtureLabels.

Lemma ex_serves : serves ex_fixture_request.
Proof. intros label h Hl Hh. apply Exists_exists. by exists label. Qed.

Lemma ex_working_keypair : working_keypair ex_fixture_request (ex_keypair "a") (ex_key "a").
Proof.
  split.
  - by vm_compute.
  - intros p h (label & Hl & _ & Hh)%Exists_exists. eexists. split; [done|].
    assert (forallb (λ label, match Payload (fixturePreimage label) with
      | Ok h => is_ok (kp_Verify (ex_keypair "a") h (h ++ ex_key "a")) &&
                is_ok (MarshalBinary (scVec [accountSignature (ex_key "a") (h ++ ex_key "a")]))
      | Err _ => false
      end) fixtureLabels = true) as Hall by (vm_compute; reflexivity).
    rewrite forallb_forall in Hall. specialize (Hall label (proj1 (list_elem_of_In _ _) Hl)).
    rewrite Hh in Hall. apply andb_true_iff in Hall as [Hv Hm]. split; [|done].
    by destruct (kp_Verify _ _ _) as [[]|].
  - intros h h' sig [= <-] [= E]. by apply app_inv_tail in E.
Qed.

Definition ex_suite : Config World :=
  mkConfig (Some (asImplementation (WithRetry (λ _, mret 0%Z) (NewEd25519Signer (Some (ex_keypair "a")))
    (mkRetryConfig 3 0 0)))) true None None.

Lemma Check_decides_witness :
  (Check Background ex_suite initial_world).1 = [] ∧
  ∃ signer, Config_Signer ex_suite = Some signer ∧ follows (rules ex_suite signer Background) initial_world.
Proof.
  destruct (Check_decides ex_suite Background initial_world) as (Hiff & _ & Hc).
  assert ((Check Background ex_suite initial_world).1 = []) as E; [|split; [exact E|by apply Hiff]].
  eapply (Hc _ (λ _, True) ex_fixture_request); [|exact ex_serves|vm_compute; reflexivity|done|done|exact I].
  apply WithRetry_conforms, ed25519_conforms, ex_working_keypair.
Defined.

(** A signer that signs whatever its context says and ignores its payload breaks
    three rules. *)
Definition ex_careless : Implementation unit :=
  mkImplementation (λ u, (ex_text "a", u)) (λ _ p _ u, (mkSigned (ScvU32 (Some 1%Z)) None p, u)).

Example ex_careless_found :
  map Violation_Check (Check Background (mkConfig (Some ex_careless) true None None) tt).1 =
  ["cancelled_context_is_honoured"; "expired_context_is_honoured"; "deterministic_contract"].
Proof. vm_compute. reflexivity. Qed.
