(* ===== verification/Nodes.v ===== *)
(** * Nodes: the signature-bearing nodes of an entry (authorize.go)

    [credentialNodes] returns, for every node, the encoding of its address and
    a pointer to its signature field.  A pointer is modelled as a path: [[]] is
    the top-level signature, and [i :: p] leads into delegate [i] and on along
    [p] through its nested delegates.  [readSignature] and [writeSignature]
    are the loads and stores through such a pointer.  [flatNodes] is the
    abstract view, every node's address, signature and path in walk order. *)
From Stdlib Require Import ZArith Lia Strings.Byte String.
From stdpp Require Import base list strings.
From S2P Require Import Prelude Errors Xdr ModelSDK Runtime Examples Address Limits Arm.

Open Scope string_scope. Open Scope nat_scope. Open Scope list_scope.

Definition NodePtr : Type := list nat.

Record credentialNode := mkNode {
  encoded : bytes;
  signature : NodePtr
}.

(** The node as seen from one level up, as element [i] of an array. *)
Definition under (i : nat) (n : credentialNode) : credentialNode :=
  mkNode (encoded n) (i :: signature n).

Section nodes.
Context `{SDK}.

Fixpoint nodesOfDelegate (depth : Z) (i : nat) (d : SorobanDelegateSignature)
    : result (list credentialNode) :=
  match d with
  | mkDelegateSignature a _ nested =>
      enc ← addressBytes a;
      below ← (_ ← checkTraversalDepth (depth + 1);
               ls ← imapM (nodesOfDelegate (depth + 1)) nested;
               Ok (concat ls));
      Ok (map (under i) (mkNode enc [] :: below))
  end.

Definition delegateNodesOf (nodes : list SorobanDelegateSignature) (depth : Z)
    : result (list credentialNode) :=
  _ ← checkTraversalDepth depth;
  ls ← imapM (nodesOfDelegate depth) nodes;
  Ok (concat ls).

Definition credentialNodes (entry : SorobanAuthorizationEntry)
    : result (list credentialNode) :=
  credentials ← addressCredentials (Credentials entry);
  topLevel ← addressBytes (Address credentials);
  let nodes := [mkNode topLevel []] in
  if (Credentials_Type (Credentials entry) =? CredentialsAddressWithDelegates)%Z then
    match Credentials_AddressWithDelegates (Credentials entry) with
    | Some d => delegates ← delegateNodesOf (Delegates d) 1; Ok (nodes ++ delegates)
    | None => Err (EText "address_with_delegates credentials arm is empty")
    end
  else Ok nodes.

(** A node's list, as the recursion unfolds. *)
Lemma nodesOfDelegate_unfold depth i a s nested :
  nodesOfDelegate depth i (mkDelegateSignature a s nested) =
  (enc ← addressBytes a;
   below ← delegateNodesOf nested (depth + 1);
   Ok (map (under i) (mkNode enc [] :: below))).
Proof. reflexivity. Qed.
End nodes.

(** ** Loads and stores through a pointer *)
Fixpoint writeDelegate (p : NodePtr) (sig : ScVal) (d : SorobanDelegateSignature)
    : SorobanDelegateSignature :=
  match d with
  | mkDelegateSignature a s n =>
      match p with
      | [] => mkDelegateSignature a sig n
      | i :: p' => mkDelegateSignature a s (alter (writeDelegate p' sig) i n)
      end
  end.

Fixpoint readDelegate (p : NodePtr) (d : SorobanDelegateSignature) : option ScVal :=
  match d with
  | mkDelegateSignature a s n =>
      match p with
      | [] => Some s
      | i :: p' => d' ← n !! i; readDelegate p' d'
      end
  end.

Definition readDelegates (ds : list SorobanDelegateSignature) (p : NodePtr) : option ScVal :=
  match p with
  | [] => None
  | i :: p' => d ← ds !! i; readDelegate p' d
  end.

Definition writeDelegates (ds : list SorobanDelegateSignature) (p : NodePtr) (sig : ScVal)
    : list SorobanDelegateSignature :=
  match p with
  | [] => ds
  | i :: p' => alter (writeDelegate p' sig) i ds
  end.

Definition readSignature (e : SorobanAuthorizationEntry) (p : NodePtr) : option ScVal :=
  match p with
  | [] =>
      match addressCredentials (Credentials e) with
      | Ok a => Some (Signature a)
      | Err _ => None
      end
  | _ => d ← Credentials_AddressWithDelegates (Credentials e); readDelegates (Delegates d) p
  end.

Definition writeSignature (e : SorobanAuthorizationEntry) (p : NodePtr) (sig : ScVal)
    : SorobanAuthorizationEntry :=
  match p with
  | [] =>
      match addressCredentials (Credentials e) with
      | Ok a =>
          mkEntry (writeAddressCredentials (Credentials e) (withSignature a sig))
            (RootInvocation e)
      | Err _ => e
      end
  | _ =>
      let c := Credentials e in
      mkEntry (mkCredentials (Credentials_Type c) (Credentials_Address c)
                 (Credentials_AddressV2 c)
                 ((λ d, mkWithDelegates (AddressCredentials d)
                          (writeDelegates (Delegates d) p sig))
                    <$> Credentials_AddressWithDelegates c))
              (RootInvocation e)
  end.

(** [isSigned( *node.signature )] *)
Definition nodeIsSigned (e : SorobanAuthorizationEntry) (p : NodePtr) : bool :=
  match readSignature e p with Some s => isSigned s | None => false end.

(** ** The abstract view *)
Record FlatNode := mkFlat { flat_address : ScAddress; flat_sig : ScVal; flat_path : NodePtr }.

Definition flat_under (i : nat) (n : FlatNode) : FlatNode :=
  mkFlat (flat_address n) (flat_sig n) (i :: flat_path n).

Fixpoint flatDelegate (i : nat) (d : SorobanDelegateSignature) : list FlatNode :=
  match d with
  | mkDelegateSignature a s n =>
      map (flat_under i) (mkFlat a s [] :: concat (imap_from flatDelegate 0 n))
  end.

Definition flatDelegates (ds : list SorobanDelegateSignature) : list FlatNode :=
  concat (imap_from flatDelegate 0 ds).

Definition is_delegates (e : SorobanAuthorizationEntry) : bool :=
  (Credentials_Type (Credentials e) =? CredentialsAddressWithDelegates)%Z.

Definition entryDelegates (e : SorobanAuthorizationEntry) : list SorobanDelegateSignature :=
  if is_delegates e then
    match Credentials_AddressWithDelegates (Credentials e) with
    | Some d => Delegates d | None => []
    end
  else [].

Definition flatNodes (e : SorobanAuthorizationEntry) : list FlatNode :=
  match addressCredentials (Credentials e) with
  | Ok a => mkFlat (Address a) (Signature a) [] :: flatDelegates (entryDelegates e)
  | Err _ => []
  end.

(** The number of levels of delegates below a node. *)
Fixpoint delegate_depth (d : SorobanDelegateSignature) : nat :=
  match d with mkDelegateSignature _ _ n => S (max_list (map delegate_depth n)) end.
Definition delegates_depth (ds : list SorobanDelegateSignature) : nat :=
  max_list (map delegate_depth ds).

(** ** The walk and the abstract view agree *)
Section nodes_lemmas.
Context `{SDK}.

Definition node_of (n : credentialNode) (f : FlatNode) : Prop :=
  addressBytes (flat_address f) = Ok (encoded n) ∧ signature n = flat_path f.

Lemma node_of_under i ns fs :
  Forall2 node_of ns fs → Forall2 node_of (map (under i) ns) (map (flat_under i) fs).
Proof.
  intros Hn. apply Forall2_fmap. eapply Forall2_impl; [exact Hn|].
  intros n f [? Hs]. split; cbn; [done|by rewrite Hs].
Qed.

Lemma nodesOfDelegates_flat_level depth ds :
  Forall (λ d, ∀ i ns, nodesOfDelegate depth i d = Ok ns →
    Forall2 node_of ns (flatDelegate i d)) ds →
  ∀ k ls, imapM_from (nodesOfDelegate depth) k ds = Ok ls →
  Forall2 node_of (concat ls) (concat (imap_from flatDelegate k ds)).
Proof.
  induction 1 as [|d ds Hd _ IH]; intros k ls; cbn [imapM_from imap_from concat].
  - intros [= <-]. constructor.
  - intros Hm. inv_ok. cbn [concat]. apply Forall2_app; eauto.
Qed.

Lemma nodesOfDelegates_flat ds depth k ls :
  imapM_from (nodesOfDelegate depth) k ds = Ok ls →
  Forall2 node_of (concat ls) (concat (imap_from flatDelegate k ds)).
Proof.
  assert (Hd : ∀ ds, Forall (λ d, ∀ depth i ns, nodesOfDelegate depth i d = Ok ns →
      Forall2 node_of ns (flatDelegate i d)) ds).
  { clear. apply delegates_nested_ind. intros a s n IH depth i ns.
    rewrite nodesOfDelegate_unfold. intros Hn. inv_ok. unfold delegateNodesOf in Hx0. inv_ok.
    apply (node_of_under i (mkNode _ [] :: _) (mkFlat a s [] :: _)).
    constructor; [by split|]. eapply nodesOfDelegates_flat_level; [|exact Hx2].
    eapply Forall_impl; [exact IH|]. eauto. }
  apply nodesOfDelegates_flat_level. eapply Forall_impl; [apply Hd|]. eauto.
Qed.

Lemma credentialNodes_flat e ns :
  credentialNodes e = Ok ns → Forall2 node_of ns (flatNodes e).
Proof.
  unfold credentialNodes, flatNodes, entryDelegates, is_delegates. intros Hn. inv_ok.
  rewrite Hx. destruct (_ =? _)%Z.
  - destruct (Credentials_AddressWithDelegates _) as [d|]; [|done].
    inv_ok. cbn. constructor; [by split|].
    unfold delegateNodesOf in Hx1. inv_ok. by eapply nodesOfDelegates_flat.
  - inv_ok. by repeat constructor.
Qed.

Lemma credentialNodes_credentials e ns :
  credentialNodes e = Ok ns → ∃ a, addressCredentials (Credentials e) = Ok a.
Proof. unfold credentialNodes. intros Hn. inv_ok. eauto. Qed.

(** The walk of a tree deeper than the limit is refused. *)
Lemma nodesOfDelegates_depth_level depth ds :
  (depth <= MaxDecodeDepth)%Z →
  Forall (λ d, ∀ i ns, nodesOfDelegate depth i d = Ok ns →
    (depth + Z.of_nat (delegate_depth d) <= MaxDecodeDepth)%Z) ds →
  ∀ k ls, imapM_from (nodesOfDelegate depth) k ds = Ok ls →
  (depth + Z.of_nat (delegates_depth ds) <= MaxDecodeDepth)%Z.
Proof.
  unfold delegates_depth, MaxDecodeDepth. intros Hdep.
  induction 1 as [|d ds Hd _ IH]; intros k ls; cbn; [lia|].
  intros Hm. inv_ok. apply Hd in Hx. apply IH in Hx0. lia.
Qed.

Lemma delegateNodesOf_depth ds depth ns :
  delegateNodesOf ds depth = Ok ns →
  (depth + Z.of_nat (delegates_depth ds) <= MaxDecodeDepth)%Z.
Proof.
  assert (Hd : ∀ ds, Forall (λ d, ∀ depth i ns, nodesOfDelegate depth i d = Ok ns →
      (depth + Z.of_nat (delegate_depth d) <= MaxDecodeDepth)%Z) ds).
  { clear. apply delegates_nested_ind. intros a s n IH depth i ns.
    rewrite nodesOfDelegate_unfold. intros Hn. inv_ok. unfold delegateNodesOf in Hx0. inv_ok.
    apply checkTraversalDepth_Ok in Hx1.
    eapply nodesOfDelegates_depth_level in Hx2; [|done|].
    - cbn [delegate_depth]. unfold delegates_depth in Hx2. lia.
    - eapply Forall_impl; [exact IH|]. eauto. }
  unfold delegateNodesOf. intros Hn. inv_ok. apply checkTraversalDepth_Ok in Hx.
  eapply nodesOfDelegates_depth_level; [done| |done].
  eapply Forall_impl; [apply Hd|]. eauto.
Qed.
End nodes_lemmas.

(** ** Reading back what the view lists *)
Lemma flatDelegates_read ds n :
  n ∈ flatDelegates ds → readDelegates ds (flat_path n) = Some (flat_sig n).
Proof.
  assert (Hd : ∀ ds, Forall (λ d, ∀ i n, n ∈ flatDelegate i d →
      ∃ p, flat_path n = i :: p ∧ readDelegate p d = Some (flat_sig n)) ds).
  { clear ds n. apply delegates_nested_ind. intros a s ds IH i n Hn.
    cbn [flatDelegate] in Hn. apply list_elem_of_In, in_map_iff in Hn as (m & <- & Hm).
    exists (flat_path m). split; [done|].
    destruct Hm as [<-|Hm]; [done|]. apply list_elem_of_In in Hm.
    apply elem_of_concat in Hm as (l & Hm & Hl).
    apply elem_of_imap_from in Hl as (j & d & Hj & ->).
    rewrite Forall_lookup in IH. destruct (IH j d Hj _ _ Hm) as (p & Hp & Hr).
    rewrite Hp. cbn in *. by rewrite Hj. }
  intros Hn. unfold flatDelegates in Hn. apply elem_of_concat in Hn as (l & Hm & Hl).
  apply elem_of_imap_from in Hl as (j & d & Hj & ->). specialize (Hd ds).
  rewrite Forall_lookup in Hd. destruct (Hd j d Hj _ _ Hm) as (p & -> & Hr).
  cbn. by rewrite Hj.
Qed.

Lemma flatDelegates_path ds n : n ∈ flatDelegates ds → flat_path n ≠ [].
Proof. intros Hn%flatDelegates_read He. by rewrite He in Hn. Qed.

Lemma flatNodes_read e n :
  n ∈ flatNodes e → readSignature e (flat_path n) = Some (flat_sig n).
Proof.
  unfold flatNodes. destruct (addressCredentials (Credentials e)) as [a|] eqn:Ha;
    [|by intros ?%not_elem_of_nil].
  intros [->|Hn]%elem_of_cons; [cbn; by rewrite Ha|].
  pose proof (flatDelegates_path _ _ Hn). apply flatDelegates_read in Hn.
  unfold entryDelegates in Hn. unfold readSignature.
  destruct (flat_path n) as [|i p]; [done|].
  destruct (is_delegates e), (Credentials_AddressWithDelegates _); done.
Qed.

Lemma nodeIsSigned_flat e n :
  n ∈ flatNodes e → nodeIsSigned e (flat_path n) = isSigned (flat_sig n).
Proof. intros Hn. unfold nodeIsSigned. by rewrite (flatNodes_read e n Hn). Qed.
