(* ===== verification/Inspect.v ===== *)
(** * Inspect: the structural summary of an entry (inspect.go)

    [Inspect] reads the arm, the address, which nodes are signed and the size
    of the invocation tree.  Its walks are bounded by [checkTraversalDepth]
    like every other.  [Inspect_summary] compares the report with the abstract
    view of the entry ([Nodes.flatNodes]): the reported nodes are the entry's,
    in order, at every depth. *)
From Stdlib Require Import ZArith Lia Strings.Byte String Ascii.
From stdpp Require Import base list strings pretty.
From S2P Require Import Prelude Encoding Errors Xdr ModelSDK Runtime Examples Address Limits Arm Preimage Nodes.

Open Scope string_scope. Open Scope nat_scope. Open Scope list_scope.

(** ** Signature shapes *)
Inductive SignatureShapeType := SignatureShapePasskey | SignatureShapeMap | SignatureShapeUnknown.

Record SignatureShape := mkShape {
  Shape_Type : SignatureShapeType;
  Shape_Description : string
}.

Definition DescribeSignature `{SDK} (sig : ScVal) : SignatureShape :=
  match sig with
  | ScvVoid => mkShape SignatureShapeUnknown "void (unsigned placeholder)"
  | ScvBytes o =>
      let b := default [] o in
      if Nat.eqb (length b) 64 then mkShape SignatureShapePasskey "64-byte binary passkey signature"
      else mkShape SignatureShapeUnknown ("binary signature of length " +:+ pretty (length b))
  | ScvMap _ => mkShape SignatureShapeMap "map structure signature"
  | ScvVec _ => mkShape SignatureShapeUnknown "vector structure signature"
  | _ => mkShape SignatureShapeUnknown ("unknown scval type " +:+ ScValType_String sig)
  end.

(** ** The report *)
Inductive NodeInfo :=
| mkNodeInfo (Address : string) (Signed : bool) (Shape : option SignatureShape)
    (Nested : list NodeInfo).

Record EntryInfo := mkEntryInfo {
  Info_CredentialType : string;
  Info_AddressBound : bool;
  Info_Address : string;
  Info_Nonce : Z;
  Info_ValidUntilLedger : Z;
  Info_TopLevelSigned : bool;
  Info_Delegates : list NodeInfo;
  Info_RootContract : string;
  Info_RootFunction : string;
  Info_SubInvocations : nat
}.

Section inspect.
Context `{SDK}.

(** One invocation of a level: the level below it is at [depth + 1]. *)
Fixpoint countInvocation (depth : Z) (i : SorobanAuthorizedInvocation) : result nat :=
  match i with
  | mkInvocation _ subs =>
      _ ← checkTraversalDepth (depth + 1);
      counts ← imapM_from (λ _ sub, countInvocation (depth + 1) sub) 0 subs;
      Ok (S (sum_list counts))
  end.

Definition countSubInvocations (invocations : list SorobanAuthorizedInvocation) (depth : Z)
    : result nat :=
  _ ← checkTraversalDepth depth;
  counts ← imapM_from (λ _ i, countInvocation depth i) 0 invocations;
  Ok (sum_list counts).

Fixpoint inspectDelegate (depth : Z) (d : SorobanDelegateSignature) : result NodeInfo :=
  match d with
  | mkDelegateSignature a s n =>
      address ← FormatAddress a;
      nested ← (_ ← checkTraversalDepth (depth + 1);
                imapM_from (λ _ x, inspectDelegate (depth + 1) x) 0 n);
      Ok (mkNodeInfo address (isSigned s) (Some (DescribeSignature s)) nested)
  end.

Definition inspectDelegates (nodes : list SorobanDelegateSignature) (depth : Z)
    : result (list NodeInfo) :=
  _ ← checkTraversalDepth depth;
  imapM_from (λ _ d, inspectDelegate depth d) 0 nodes.

(** The credential half of the report; the invocation half is filled in by
    [Inspect]. *)
Definition inspectCredentials (entry : SorobanAuthorizationEntry) : result EntryInfo :=
  let op := "soroauth: inspect" in
  let t := Credentials_Type (Credentials entry) in
  '(name, bound) ←
    (if (t =? CredentialsSourceAccount)%Z then Ok (CredentialTypeSourceAccount, false)
     else if (t =? CredentialsAddress)%Z then Ok (CredentialTypeAddress, false)
     else if (t =? CredentialsAddressV2)%Z then Ok (CredentialTypeAddressV2, true)
     else if (t =? CredentialsAddressWithDelegates)%Z
          then Ok (CredentialTypeAddressWithDelegates, true)
     else Err (EWrap op (ESentinel ErrUnsupportedCredentials)));
  if (t =? CredentialsSourceAccount)%Z then
    Ok (mkEntryInfo name bound "" 0 0 false [] "" "" 0)
  else
    credentials ← wrap op (addressCredentials (Credentials entry));
    address ← wrap op (FormatAddress (Address credentials));
    delegates ←
      (if (t =? CredentialsAddressWithDelegates)%Z then
         match Credentials_AddressWithDelegates (Credentials entry) with
         | Some d => wrap op (inspectDelegates (Delegates d) 1)
         | None => Ok []
         end
       else Ok []);
    Ok (mkEntryInfo name bound address (Nonce credentials)
          (SignatureExpirationLedger credentials) (isSigned (Signature credentials)) delegates
          "" "" 0).

Definition Inspect (entry : SorobanAuthorizationEntry) : result EntryInfo :=
  let op := "soroauth: inspect" in
  info ← inspectCredentials entry;
  '(contract, function) ←
    match Invocation_Function (RootInvocation entry) with
    | FunctionContractFn None =>
        Err (EText (op +:+ ": contract_fn invocation arm is empty"))
    | FunctionContractFn (Some contractFn) =>
        contract ← wrap op (FormatAddress (ContractAddress contractFn));
        Ok (contract, FunctionName contractFn)
    | FunctionCreateContractHostFn _ | FunctionCreateContractV2HostFn _ => Ok ("", "")
    | FunctionUnknown _ => Err (EWrap op (ESentinel ErrUnsupportedFunctionType))
    end;
  subInvocations ← wrap op (countSubInvocations (SubInvocations (RootInvocation entry)) 1);
  Ok (mkEntryInfo (Info_CredentialType info) (Info_AddressBound info) (Info_Address info)
        (Info_Nonce info) (Info_ValidUntilLedger info) (Info_TopLevelSigned info)
        (Info_Delegates info) contract function subInvocations).

(** ** The text for a terminal *)
Definition signedStatus (signed : bool) : string := if signed then "signed" else "unsigned".

Definition spaces (n : nat) : string := String.concat "" (replicate n " ").

(** One node at a position that is the last of its level or not.  The
    indentation of the shape line is [len(connector)] spaces, a number of
    bytes. *)
Fixpoint delegateTreeString (prefix : string) (last : bool) (node : NodeInfo) : string :=
  match node with
  | mkNodeInfo address signed shape nested =>
      let connector := if last then "└── " else "├── " in
      let nextPrefix := prefix +:+ (if last then "    " else "│   ") in
      prefix +:+ connector +:+ address +:+ " (" +:+ signedStatus signed +:+ ")" +:+ newline +:+
      match shape with
      | Some s => prefix +:+ spaces (String.length connector) +:+ "    shape: " +:+
                  Shape_Description s +:+ newline
      | None => ""
      end +:+
      (fix level (l : list NodeInfo) : string :=
         match l with
         | [] => ""
         | x :: rest =>
             delegateTreeString nextPrefix (match rest with [] => true | _ => false end) x
               +:+ level rest
         end) nested
  end.

Fixpoint writeDelegateTreeString (prefix : string) (nodes : list NodeInfo) : string :=
  match nodes with
  | [] => ""
  | x :: rest =>
      delegateTreeString prefix (match rest with [] => true | _ => false end) x
        +:+ writeDelegateTreeString prefix rest
  end.

Definition EntryInfo_String (i : EntryInfo) : string :=
  let when (b : bool) (s : string) := if b then s else "" in
  let arm := if String.eqb (Info_CredentialType i) "" then "unknown" else Info_CredentialType i in
  (if negb (String.eqb (Info_Address i) "") then
     Info_Address i +:+ " (" +:+ signedStatus (Info_TopLevelSigned i) +:+ ") [" +:+ arm +:+ "]"
   else "(no address) (unsigned) [" +:+ arm +:+ "]") +:+ newline +:+
  when (negb (Info_Nonce i =? 0)%Z) ("  nonce: " +:+ FormatInt (Info_Nonce i) +:+ newline) +:+
  when (negb (Info_ValidUntilLedger i =? 0)%Z)
    ("  valid until ledger: " +:+ FormatUint (Info_ValidUntilLedger i) +:+ newline) +:+
  when (Info_AddressBound i) ("  address-bound: yes" +:+ newline) +:+
  when (Nat.ltb 0 (length (Info_Delegates i)))
    (newline +:+ "delegate tree:" +:+ newline +:+ writeDelegateTreeString "" (Info_Delegates i)) +:+
  when (negb (String.eqb (Info_RootContract i) "") || negb (String.eqb (Info_RootFunction i) ""))
    (newline +:+ "invocation:" +:+ newline +:+
     "  " +:+ Info_RootFunction i +:+ " (" +:+ Info_RootContract i +:+ ")" +:+ newline) +:+
  when (Nat.ltb 0 (Info_SubInvocations i))
    ("  " +:+ pretty (Info_SubInvocations i) +:+ " sub-invocation(s)" +:+ newline).
End inspect.

(** ** The report against the abstract view *)
(** The address and the mark of each node of a reported tree, in the order of
    the walk. *)
Fixpoint node_rows (n : NodeInfo) : list (string * bool) :=
  match n with
  | mkNodeInfo a signed _ nested => (a, signed) :: concat (map node_rows nested)
  end.

Fixpoint invocation_size (i : SorobanAuthorizedInvocation) : nat :=
  match i with mkInvocation _ subs => S (sum_list (map invocation_size subs)) end.

Section summary.
Context `{SDK}.

Definition describes (n : FlatNode) (row : string * bool) : Prop :=
  FormatAddress (flat_address n) = Ok (row.1) ∧ row.2 = isSigned (flat_sig n).

Lemma imapM_const_Ok {A B} (f : A → result B) i l ys :
  imapM_from (λ _ x, f x) i l = Ok ys ↔ Forall2 (λ x y, f x = Ok y) l ys.
Proof.
  revert i ys. induction l as [|x l IH]; intros i ys; cbn.
  - split; [intros [= <-]; constructor|by inversion 1].
  - split.
    + intros Hl. inv_ok. constructor; [done|by eapply IH].
    + inversion 1 as [|? y ? ys' Hx Hl]; subst. rewrite Hx. cbn.
      rewrite (proj2 (IH (S i) ys') Hl). done.
Qed.

Lemma describes_under i l rows :
  Forall2 describes l rows → Forall2 describes (map (flat_under i) l) rows.
Proof. intros Hl. induction Hl; constructor; done. Qed.

Lemma level_rows f (j : nat) l infos :
  Forall2 (λ x y, f x = Ok y) l infos →
  Forall (λ d, ∀ i info, f d = Ok info → Forall2 describes (flatDelegate i d) (node_rows info)) l →
  Forall2 describes (concat (imap_from flatDelegate j l)) (concat (map node_rows infos)).
Proof.
  intros Hl. revert j. induction Hl as [|d info l infos Hd _ IH]; intros j Hf; cbn; [constructor|].
  inversion Hf as [|? ? Hx Hr]; subst. apply Forall2_app; [by apply Hx|by apply IH].
Qed.

Lemma inspectDelegate_rows d : ∀ depth i info,
  inspectDelegate depth d = Ok info → Forall2 describes (flatDelegate i d) (node_rows info).
Proof.
  induction d as [a s n IH] using delegate_nested_ind. intros depth i info Hi.
  cbn [inspectDelegate] in Hi. inv_ok. apply imapM_const_Ok in Hx0.
  cbn [flatDelegate node_rows map]. constructor; [done|]. apply describes_under.
  eapply level_rows; [exact Hx0|]. eapply Forall_impl; [exact IH|]. intros d Hd i' info'. apply Hd.
Qed.

Lemma inspectDelegates_rows ds depth infos :
  inspectDelegates ds depth = Ok infos →
  Forall2 describes (flatDelegates ds) (concat (map node_rows infos)).
Proof.
  unfold inspectDelegates, flatDelegates. intros Hi. inv_ok. apply imapM_const_Ok in Hi.
  eapply level_rows; [exact Hi|]. apply Forall_forall. intros d _ i info. apply inspectDelegate_rows.
Qed.

Lemma countInvocation_size i : ∀ depth n, countInvocation depth i = Ok n → n = invocation_size i.
Proof.
  induction i as [f subs IH] using invocation_nested_ind. intros depth n Hc.
  cbn [countInvocation] in Hc. inv_ok. apply imapM_const_Ok in Hx0. cbn. f_equal. f_equal.
  clear -IH Hx0. induction Hx0 as [|x y l ys Hx _ IHl]; [done|].
  inversion IH; subst. cbn. f_equal; [eauto|by apply IHl].
Qed.

Lemma countSubInvocations_size subs depth n :
  countSubInvocations subs depth = Ok n → n = sum_list (map invocation_size subs).
Proof.
  unfold countSubInvocations. intros Hc. inv_ok. apply imapM_const_Ok in Hx0. f_equal.
  induction Hx0 as [|x y l ys Hx' _ IHl]; [done|]. cbn. f_equal; [|done].
  by eapply countInvocation_size.
Qed.
End summary.

(** ** Theorem *)
Section theorem.
Context `{SDK}.

(** A discriminant outside its arm is only accepted as source-account. *)
Lemma inspectCredentials_unknown e t info :
  inspectCredentials e = Ok info → Credentials e = CredentialsUnknown t →
  t = 0%Z ∧ info = mkEntryInfo CredentialTypeSourceAccount false "" 0 0 false [] "" "" 0 ∧
  ∃ err, addressCredentials (CredentialsUnknown t) = Err err.
Proof.
  unfold inspectCredentials. intros Hx He. rewrite He in Hx. clear He.
  assert (∃ err, addressCredentials (CredentialsUnknown t) = Err err) as [err Herr].
  { unfold addressCredentials. cbn. repeat case_match; eauto. }
  rewrite Herr in Hx. cbn in Hx. change CredentialsSourceAccount with 0%Z in Hx.
  destruct (Z.eqb_spec t 0) as [->|Hne]; [cbn in Hx; inv_ok; eauto|].
  inv_ok. match goal with x : string * bool |- _ => destruct x end. inv_ok.
Qed.

(** A report of [Inspect] is about this entry and misses nothing: the
    top-level address, nonce, expiration and mark are the credentials', whether
    the payload binds the address is the arm's, the delegate nodes are the
    entry's in the order of the walk at every depth with the marks of their
    signatures, and the number of sub-invocations is that of the whole tree; a
    source-account entry has no address and no nodes. *)
Theorem Inspect_summary e info :
  Inspect e = Ok info →
  Info_AddressBound info = address_bound (Credentials e) ∧
  S (Info_SubInvocations info) = invocation_size (RootInvocation e) ∧
  Forall2 describes (flatDelegates (entryDelegates e)) (concat (map node_rows (Info_Delegates info))) ∧
  match addressCredentials (Credentials e) with
  | Ok a => describes (mkFlat (Address a) (Signature a) []) (Info_Address info, Info_TopLevelSigned info) ∧
      Info_Nonce info = Nonce a ∧ Info_ValidUntilLedger info = SignatureExpirationLedger a
  | Err _ => Info_CredentialType info = CredentialTypeSourceAccount ∧ Info_Address info = "" ∧
      Info_Delegates info = [] ∧ Info_TopLevelSigned info = false
  end.
Proof.
  unfold Inspect. intros Hi. inv_ok. destruct x0 as [contract function]. inv_ok.
  cbn [Info_AddressBound Info_SubInvocations Info_Delegates Info_Address Info_TopLevelSigned
       Info_Nonce Info_ValidUntilLedger Info_CredentialType].
  assert (Hsub : S x0 = invocation_size (RootInvocation e)).
  { apply countSubInvocations_size in Hx1 as ->. by destruct (RootInvocation e). }
  clear Hx0 Hx1. unfold address_bound, entryDelegates, is_delegates.
  destruct (Credentials e) as [|o|o|o|t] eqn:Hcred; [..|
    apply (inspectCredentials_unknown _ t) in Hx as (-> & -> & [err ->]); [|done];
    repeat split; try done; constructor];
    unfold inspectCredentials in Hx; rewrite Hcred in Hx;
    cbn -[addressCredentials FormatAddress inspectDelegates] in Hx.
  all: inv_ok; try match goal with E : addressCredentials _ = Ok _ |- _ => rewrite E end.
  - repeat split; try done; constructor.
  - repeat split; try done; constructor.
  - repeat split; try done; constructor.
  - split; [done|]. split; [done|]. split; [|done]. cbn.
    destruct o as [d|]; [inv_ok; by eapply inspectDelegates_rows|inv_ok; constructor].
Qed.
End theorem.

(** ** The theorem at a concrete entry *)
Definition ex_inspected : SorobanAuthorizationEntry :=
  ex_with_delegates "a" 1000 (ex_account_signature (ex_key "a") []) ex_tree.

Definition ex_info : EntryInfo :=
  match Inspect ex_inspected with
  | Ok i => i | Err _ => mkEntryInfo "" false "" 0 0 false [] "" "" 0
  end.

Lemma Inspect_summary_witness :
  concat (map node_rows (Info_Delegates ex_info)) =
    [(ex_text "b", false); (ex_text "c", false); (ex_text "c", false)] ∧
  Info_AddressBound ex_info = address_bound (Credentials ex_inspected) ∧
  S (Info_SubInvocations ex_info) = invocation_size (RootInvocation ex_inspected) ∧
  Forall2 describes (flatDelegates (entryDelegates ex_inspected))
    (concat (map node_rows (Info_Delegates ex_info))).
Proof.
  split; [vm_compute; reflexivity|].
  destruct (Inspect_summary ex_inspected ex_info) as (Hb & Hs & Hn & _);
    [vm_compute; reflexivity|]. by split_and!.
Defined.

Example EntryInfo_text :
  EntryInfo_String ex_info =
    ex_text "a" +:+ " (signed) [address_with_delegates]" +:+ newline +:+
    "  nonce: 42" +:+ newline +:+ "  valid until ledger: 1000" +:+ newline +:+
    "  address-bound: yes" +:+ newline +:+ newline +:+ "delegate tree:" +:+ newline +:+
    "├── " +:+ ex_text "b" +:+ " (unsigned)" +:+ newline +:+
    spaces 10 +:+ "    shape: void (unsigned placeholder)" +:+ newline +:+
    "│   └── " +:+ ex_text "c" +:+ " (unsigned)" +:+ newline +:+
    "│   " +:+ spaces 10 +:+ "    shape: void (unsigned placeholder)" +:+ newline +:+
    "└── " +:+ ex_text "c" +:+ " (unsigned)" +:+ newline +:+
    spaces 10 +:+ "    shape: vector structure signature" +:+ newline +:+
    newline +:+ "invocation:" +:+ newline +:+
    "  transfer (" +:+ ex_contract_text "z" +:+ ")" +:+ newline +:+
    "  1 sub-invocation(s)" +:+ newline.
Proof. vm_compute. reflexivity. Qed.
