(* ===== verification/Risk.v ===== *)
(** * Risk: review findings on an entry (risk.go)

    [Analyze] collects findings from the report of [Inspect] and orders them
    by severity with a sort written out as two nested loops; [exchangeSort] is
    that sort.  The expiration check subtracts two [uint32]s, so an entry that
    has expired gets a huge distance into the future:
    [Analyze_findings] states the check as the code computes it, and
    [expirationDelta_expired] what the difference is then. *)
From Stdlib Require Import ZArith Lia Strings.Byte String.
From stdpp Require Import base list strings gmap pretty sorting.
From S2P Require Import Prelude Encoding Errors Xdr ModelSDK Runtime Examples Address Limits Arm Preimage Nodes.
From S2P Require Import Inspect.

Open Scope string_scope. Open Scope nat_scope. Open Scope list_scope.

(** ** Findings and configuration *)
Inductive FindingSeverity := SeverityInfo | SeverityWarning | SeverityCritical.

Definition severity_text (s : FindingSeverity) : string :=
  match s with SeverityInfo => "info" | SeverityWarning => "warning" | SeverityCritical => "critical" end.

Record Finding := mkFinding {
  Code : string;
  Severity : FindingSeverity;
  Title : string;
  Description : string;
  Rationale : string
}.

Definition Finding_String (f : Finding) : string :=
  "[" +:+ severity_text (Severity f) +:+ "] " +:+ Code f +:+ ": " +:+ Title f +:+ newline +:+
  "  " +:+ Description f +:+ newline +:+ "  rationale: " +:+ Rationale f.

Record RiskConfig := mkRiskConfig {
  MaxDelegateDepth : Z;
  MaxTotalDelegates : Z;
  MaxValidUntilLedgerDelta : Z;
  KnownContracts : gmap string bool;
  MaxSubInvocations : Z;
  CurrentLedger : Z
}.

Definition DefaultRiskConfig : RiskConfig := mkRiskConfig 3 10 10000 ∅ 50 0.

(** ** Walks over the reported tree *)
Fixpoint analyzeDelegate (max : Z) (depth : Z) (d : NodeInfo) : list Finding :=
  match d with
  | mkNodeInfo address _ _ nested =>
      (if (depth >? max)%Z then
         [mkFinding "DELEGATE_DEPTH_EXCEEDED" SeverityWarning
            "Delegate nesting exceeds recommended depth"
            ("Delegate " +:+ address +:+ " at depth " +:+ FormatInt depth +:+
             " (max recommended: " +:+ FormatInt max +:+ ")")
            ("Deeply nested delegates are harder to audit and each level adds a signer that must " +:+
             "approve. CAP-71-01 permits arbitrary nesting but operational complexity grows quickly.")]
       else []) ++
      concat (map (analyzeDelegate max (depth + 1)) nested)
  end.

Definition analyzeDelegates (delegates : list NodeInfo) (depth : Z) (cfg : RiskConfig)
    : list Finding := concat (map (analyzeDelegate (MaxDelegateDepth cfg) depth) delegates).

Fixpoint countTotal (d : NodeInfo) : nat :=
  match d with mkNodeInfo _ _ _ nested => S (sum_list (map countTotal nested)) end.
Definition countTotalDelegates (delegates : list NodeInfo) : nat := sum_list (map countTotal delegates).

Fixpoint countUnsigned (d : NodeInfo) : nat :=
  match d with
  | mkNodeInfo _ signed _ nested =>
      (if signed then 0 else 1) + sum_list (map countUnsigned nested)
  end.
Definition countUnsignedDelegates (delegates : list NodeInfo) : nat :=
  sum_list (map countUnsigned delegates).

(** ** The sort at the end of [Analyze] *)
Definition severityOrder (s : FindingSeverity) : nat :=
  match s with SeverityCritical => 0 | SeverityWarning => 1 | SeverityInfo => 2 end.

(** The inner loop for one [i]: [x] is [findings[i]] and the list what follows
    it; a more severe element is exchanged with it. *)
Fixpoint exchangePass (x : Finding) (rest : list Finding) : Finding * list Finding :=
  match rest with
  | [] => (x, [])
  | y :: rest =>
      if Nat.ltb (severityOrder (Severity y)) (severityOrder (Severity x))
      then let '(m, rest) := exchangePass y rest in (m, x :: rest)
      else let '(m, rest) := exchangePass x rest in (m, y :: rest)
  end.

(** The outer loop, for [n] values of [i]. *)
Fixpoint exchangeLoop (n : nat) (findings : list Finding) : list Finding :=
  match n, findings with
  | S n, x :: rest => let '(m, rest) := exchangePass x rest in m :: exchangeLoop n rest
  | _, _ => findings
  end.

Definition exchangeSort (findings : list Finding) : list Finding :=
  exchangeLoop (length findings) findings.

(** ** Analyze *)
Definition sourceWithDelegates : Finding :=
  mkFinding "SOURCE_ACCOUNT_WITH_DELEGATES" SeverityCritical
    "Source account credentials with delegates"
    "Source account arm does not support delegates; this entry is malformed"
    ("The SOURCE_ACCOUNT credential arm has no delegate structure. Presence of delegates " +:+
     "indicates a malformed entry that will fail on-chain.").

Definition check (b : bool) (f : Finding) : list Finding := if b then [f] else [].

Definition expirationDelta (info : EntryInfo) (cfg : RiskConfig) : Z :=
  wrap_u32 (Info_ValidUntilLedger info - CurrentLedger cfg).

Section analyze.
Context `{SDK}.

Definition rawFindings (entry : SorobanAuthorizationEntry) (info : EntryInfo) (cfg : RiskConfig)
    : list Finding :=
  let t := Credentials_Type (Credentials entry) in
  let isType name := String.eqb (Info_CredentialType info) name in
  let totalDelegates := Z.of_nat (countTotalDelegates (Info_Delegates info)) in
  let unsignedCount := countUnsignedDelegates (Info_Delegates info) in
  let delta := expirationDelta info cfg in
  check ((t =? CredentialsSourceAccount)%Z &&
         match Credentials_AddressWithDelegates (Credentials entry) with
         | Some d => Nat.ltb 0 (length (Delegates d))
         | None => false
         end) sourceWithDelegates ++
  analyzeDelegates (Info_Delegates info) 1 cfg ++
  check (totalDelegates >? MaxTotalDelegates cfg)%Z
    (mkFinding "DELEGATE_COUNT_HIGH" SeverityWarning "High number of delegate signers"
       ("Entry has " +:+ FormatInt totalDelegates +:+ " total delegate nodes (limit: " +:+
        FormatInt (MaxTotalDelegates cfg) +:+ ")")
       ("Each delegate must sign the same payload. Many delegates increase coordination " +:+
        "complexity and the chance of a signer rejecting or being unavailable.")) ++
  check (Z.of_nat (Info_SubInvocations info) >? MaxSubInvocations cfg)%Z
    (mkFinding "SUB_INVOCATION_COUNT_HIGH" SeverityWarning "Deep or broad invocation tree"
       ("Entry authorizes " +:+ pretty (Info_SubInvocations info) +:+ " sub-invocations (limit: " +:+
        FormatInt (MaxSubInvocations cfg) +:+ ")")
       ("Each sub-invocation is a nested contract call. Complex trees are harder to audit and " +:+
        "may indicate a contract doing more than expected.")) ++
  check ((CurrentLedger cfg >? 0)%Z && (Info_ValidUntilLedger info >? 0)%Z
         && (delta >? MaxValidUntilLedgerDelta cfg)%Z)
    (mkFinding "EXPIRATION_FAR_FUTURE" SeverityWarning "Signature expiration far in the future"
       ("Valid until ledger " +:+ FormatUint (Info_ValidUntilLedger info) +:+ " (current: " +:+
        FormatUint (CurrentLedger cfg) +:+ ", delta: " +:+ FormatUint delta +:+ ", limit: " +:+
        FormatUint (MaxValidUntilLedgerDelta cfg) +:+ ")")
       ("A distant expiration means the signature can be reused for longer. If the signed " +:+
        "invocation is malicious or buggy, the window for abuse is larger.")) ++
  check (negb (String.eqb (Info_RootContract info) "") && Nat.ltb 0 (size (KnownContracts cfg))
         && negb (default false (KnownContracts cfg !! Info_RootContract info)))
    (mkFinding "CONTRACT_UNKNOWN" SeverityWarning "Unfamiliar contract address"
       ("Root contract " +:+ Info_RootContract info +:+ " is not in the known contracts list")
       ("Signing an invocation for an unknown contract means you cannot verify its behavior. " +:+
        "Add known contract addresses to RiskConfig.KnownContracts to suppress this.")) ++
  check (isType CredentialTypeAddressWithDelegates && Nat.ltb 0 (length (Info_Delegates info))
         && Nat.ltb 0 unsignedCount)
    (mkFinding "UNSIGNED_DELEGATES" SeverityInfo "Some delegates not yet signed"
       (pretty unsignedCount +:+ " of " +:+ FormatInt totalDelegates +:+
        " delegate nodes are unsigned")
       ("Unsigned delegates mean the entry is not yet ready for submission. This is " +:+
        "informational; the entry will be rejected on-chain if submitted incomplete.")) ++
  check ((Info_ValidUntilLedger info =? 0)%Z && negb (isType CredentialTypeSourceAccount))
    (mkFinding "EXPIRATION_ZERO" SeverityCritical "Signature expiration is zero (already expired)"
       "ValidUntilLedger is 0, which the host treats as already expired"
       ("The host rejects signatures where current_ledger > signatureExpirationLedger. A value " +:+
        "of 0 means the signature expired at genesis.")) ++
  check (isType CredentialTypeSourceAccount && Nat.ltb 0 (length (Info_Delegates info)))
    sourceWithDelegates ++
  check (isType CredentialTypeAddress && negb (Info_AddressBound info))
    (mkFinding "LEGACY_CREDENTIALS_NOT_ADDRESS_BOUND" SeverityInfo
       "Legacy address credentials (not address-bound)"
       ("Entry uses SOROBAN_CREDENTIALS_ADDRESS which does not bind the signer address into the " +:+
        "payload")
       ("Legacy credentials are vulnerable to a narrow replay case where a signature for one " +:+
        "account could be replayed for another if they share a signing key and the contract " +:+
        "doesn't bind the address in its arguments. V2 credentials (ADDRESS_V2 or " +:+
        "ADDRESS_WITH_DELEGATES) close this.")).

Definition Analyze (entry : SorobanAuthorizationEntry) (cfg : option RiskConfig)
    : result (list Finding) :=
  let cfg := default DefaultRiskConfig cfg in
  info ← wrap "soroauth: analyze" (Inspect entry);
  Ok (exchangeSort (rawFindings entry info cfg)).

Definition withCurrentLedger (cfg : RiskConfig) (ledger : Z) : RiskConfig :=
  mkRiskConfig (MaxDelegateDepth cfg) (MaxTotalDelegates cfg) (MaxValidUntilLedgerDelta cfg)
    (KnownContracts cfg) (MaxSubInvocations cfg) ledger.

(** The configuration is the caller's own struct, which the call writes to: it
    is returned next to the findings, [None] when the caller gave none. *)
Definition AnalyzeWithCurrentLedger (ctx : Ctx) (entry : SorobanAuthorizationEntry)
    (cfg : option RiskConfig) (src : option (Ctx → IO Z))
    : IO (result (list Finding) * option RiskConfig) :=
  let c := default DefaultRiskConfig cfg in
  c ← (if (CurrentLedger c =? 0)%Z then
         match src with
         | Some GetLatestLedger =>
             r ← try_ (GetLatestLedger ctx);
             mret (match r with Ok ledger => withCurrentLedger c ledger | Err _ => c end)
         | None => mret c
         end
       else mret c);
  mret (Analyze entry (Some c), match cfg with Some _ => Some c | None => None end).
End analyze.

(** ** The sort sorts *)
Definition graver (f g : Finding) : Prop := severityOrder (Severity f) ≤ severityOrder (Severity g).

Lemma exchangePass_spec rest : ∀ x m rest',
  exchangePass x rest = (m, rest') → m :: rest' ≡ₚ x :: rest ∧ Forall (graver m) rest' ∧ graver m x.
Proof.
  induction rest as [|y rest IH]; intros x m rest' He; cbn [exchangePass] in He.
  { simplify_eq. split; [done|]. split; [constructor|]. unfold graver. lia. }
  destruct (Nat.ltb_spec (severityOrder (Severity y)) (severityOrder (Severity x))).
  - destruct (exchangePass y rest) as [m' r] eqn:E. simplify_eq/=.
    destruct (IH _ _ _ E) as (Hp & Hf & Hm). unfold graver in *. split; [|split; [|lia]].
    + rewrite (Permutation_swap x m r), Hp. done.
    + constructor; [lia|done].
  - destruct (exchangePass x rest) as [m' r] eqn:E. simplify_eq/=.
    destruct (IH _ _ _ E) as (Hp & Hf & Hm). unfold graver in *. split; [|split; [|done]].
    + rewrite (Permutation_swap y m r), Hp. apply Permutation_swap.
    + constructor; [lia|done].
Qed.

Lemma exchangeLoop_spec n : ∀ l, length l ≤ n →
  exchangeLoop n l ≡ₚ l ∧ StronglySorted graver (exchangeLoop n l).
Proof.
  induction n as [|n IH]; intros l Hl.
  { destruct l; [|cbn in Hl; lia]. split; [done|apply SSorted_nil]. }
  destruct l as [|x rest]; [split; [done|apply SSorted_nil]|]. cbn [length exchangeLoop] in *.
  destruct (exchangePass x rest) as [m rest'] eqn:E.
  destruct (exchangePass_spec _ _ _ _ E) as (Hp & Hf & _).
  destruct (IH rest') as [Hp' Hs].
  { apply Permutation_length in Hp. cbn in Hp. lia. }
  split; [by rewrite Hp'|]. constructor; [done|]. by rewrite Hp'.
Qed.

Lemma exchangeSort_spec l : exchangeSort l ≡ₚ l ∧ StronglySorted graver (exchangeSort l).
Proof. by apply exchangeLoop_spec. Qed.

(** ** Which findings there are *)
(** A finding with a code. *)
Definition has (code : string) (l : list Finding) : Prop := ∃ f, f ∈ l ∧ Code f = code.

Lemma has_app code l1 l2 : has code (l1 ++ l2) ↔ has code l1 ∨ has code l2.
Proof. unfold has. setoid_rewrite elem_of_app. naive_solver. Qed.

Lemma has_nil code : has code [] ↔ False.
Proof. unfold has. split; [|done]. by intros (f & ?%not_elem_of_nil & _). Qed.

Lemma has_check code b f : has code (check b f) ↔ b = true ∧ Code f = code.
Proof.
  unfold has, check. destruct b; [|split; [by intros (? & ?%not_elem_of_nil & _)|by intros [? _]]].
  setoid_rewrite list_elem_of_singleton. naive_solver.
Qed.

Lemma or_iff (P P' Q Q' : Prop) : (P ↔ P') → (Q ↔ Q') → (P ∨ Q ↔ P' ∨ Q').
Proof. tauto. Qed.

Lemma has_sorted code l : has code (exchangeSort l) ↔ has code l.
Proof. unfold has. by setoid_rewrite (proj1 (exchangeSort_spec l)). Qed.

Lemma has_concat {A} code (f : A → list Finding) l :
  has code (concat (map f l)) ↔ ∃ x, x ∈ l ∧ has code (f x).
Proof.
  induction l as [|x l IH]; cbn.
  - rewrite has_nil. split; [done|]. by intros (x & ?%not_elem_of_nil & _).
  - rewrite has_app, IH. setoid_rewrite elem_of_cons. naive_solver.
Qed.

(** The number of the levels above a node of a reported tree, and its mark. *)
Fixpoint node_depths (depth : nat) (n : NodeInfo) : list (nat * bool) :=
  match n with
  | mkNodeInfo _ signed _ nested => (depth, signed) :: concat (map (node_depths (S depth)) nested)
  end.

Section NodeInfo_ind.
Variable P : NodeInfo → Prop.
Hypothesis Hnode : ∀ a s sh n, Forall P n → P (mkNodeInfo a s sh n).
Lemma NodeInfo_nested_ind : ∀ n, P n.
Proof.
  fix IH 1. intros [a s sh n]. apply Hnode. induction n; constructor; [apply IH|done].
Qed.
End NodeInfo_ind.

Lemma analyzeDelegate_has max n : ∀ depth : nat,
  has "DELEGATE_DEPTH_EXCEEDED" (analyzeDelegate max (Z.of_nat depth) n) ↔
  ∃ row, row ∈ node_depths depth n ∧ (max < Z.of_nat row.1)%Z.
Proof.
  induction n as [a s sh n IH] using NodeInfo_nested_ind. intros depth.
  cbn [analyzeDelegate node_depths]. rewrite has_app, has_concat. setoid_rewrite elem_of_cons.
  assert (Hhead : has "DELEGATE_DEPTH_EXCEEDED" (check (Z.of_nat depth >? max)%Z
    (mkFinding "DELEGATE_DEPTH_EXCEEDED" SeverityWarning "Delegate nesting exceeds recommended depth"
       ("Delegate " +:+ a +:+ " at depth " +:+ FormatInt (Z.of_nat depth) +:+
        " (max recommended: " +:+ FormatInt max +:+ ")")
       ("Deeply nested delegates are harder to audit and each level adds a signer that must " +:+
        "approve. CAP-71-01 permits arbitrary nesting but operational complexity grows quickly.")))
    ↔ (max < Z.of_nat depth)%Z) by (rewrite has_check; cbn [Code]; rewrite Z.gtb_gt; split; [lia|split; [lia|done]]).
  unfold check in Hhead. rewrite Hhead. rewrite Forall_forall in IH.
  split.
  - intros [?|(x & Hx & Hh)]; [by eexists (depth, s); auto|].
    replace (Z.of_nat depth + 1)%Z with (Z.of_nat (S depth)) in Hh by lia.
    apply (IH x Hx) in Hh as (row & Hrow & ?). exists row. split; [|done]. right.
    apply elem_of_concat. exists (node_depths (S depth) x). split; [done|].
    by apply (list_elem_of_fmap_2 (node_depths (S depth))).
  - intros (row & [->|Hrow] & Hlt); [by left|]. right.
    apply elem_of_concat in Hrow as (l & Hl & (x & -> & Hx)%list_elem_of_fmap). exists x. split; [done|].
    replace (Z.of_nat depth + 1)%Z with (Z.of_nat (S depth)) by lia. apply (IH x Hx). eauto.
Qed.

Lemma analyzeDelegate_codes max n code : ∀ depth : Z,
  has code (analyzeDelegate max depth n) → code = "DELEGATE_DEPTH_EXCEEDED".
Proof.
  induction n as [a s sh n IH] using NodeInfo_nested_ind. intros depth.
  cbn [analyzeDelegate]. rewrite has_app, has_concat. rewrite Forall_forall in IH.
  intros [Hh|(x & Hx & Hh)]; [|by eapply IH].
  destruct (depth >? max)%Z; [|by apply has_nil in Hh].
  destruct Hh as (f & ->%list_elem_of_singleton & <-). done.
Qed.

Lemma countTotal_depths n : ∀ depth, countTotal n = length (node_depths depth n).
Proof.
  induction n as [a s sh n IH] using NodeInfo_nested_ind. intros depth. cbn. f_equal.
  induction IH as [|x n Hx _ IHn]; cbn; [done|]. rewrite length_app, <-Hx. by rewrite IHn.
Qed.

Lemma add_pos (a b : nat) : 0 < a + b ↔ 0 < a ∨ 0 < b.
Proof. lia. Qed.

Lemma countUnsigned_depths n : ∀ depth,
  0 < countUnsigned n ↔ ∃ row, row ∈ node_depths depth n ∧ row.2 = false.
Proof.
  induction n as [a s sh n IH] using NodeInfo_nested_ind. intros depth. cbn [countUnsigned node_depths].
  setoid_rewrite elem_of_cons. setoid_rewrite elem_of_concat.
  assert (Hn : 0 < sum_list (map countUnsigned n) ↔
    ∃ row l, row ∈ l ∧ l ∈ map (node_depths (S depth)) n ∧ row.2 = false).
  { induction IH as [|x n Hx _ IHn]; cbn.
    - split; [lia|]. by intros (? & ? & _ & ?%not_elem_of_nil & _).
    - setoid_rewrite elem_of_cons. rewrite add_pos, (Hx (S depth)), IHn.
      split; [intros [(r & ? & ?)|(r & l & ? & ? & ?)]; eauto 10|].
      intros (r & l & Hr & [->|Hl] & Hf); eauto 10. }
  rewrite add_pos, Hn. split.
  - intros [Hs|(row & l & ? & ? & ?)]; [|by eauto 10].
    exists (depth, s). split; [by left|]. destruct s; [lia|done].
  - intros (row & [->|(l & ? & ?)] & Hf); [left; cbn in Hf; subst; lia|right; eauto 10].
Qed.

(** The rows of the report are the delegates of the entry, with their depth. *)
Section rows.
Context `{SDK}.

Definition depth_row (k : nat) (n : FlatNode) : nat * bool :=
  (k + length (flat_path n), isSigned (flat_sig n)).

Lemma depth_row_under k i l : map (depth_row k) (map (flat_under i) l) = map (depth_row (S k)) l.
Proof.
  rewrite map_map. apply map_ext. intros n. unfold depth_row. cbn. f_equal. lia.
Qed.

Lemma level_depths f k l infos :
  Forall2 (λ d info, f d = Ok info) l infos →
  Forall (λ d, ∀ i info, f d = Ok info →
    node_depths (S k) info = map (depth_row k) (flatDelegate i d)) l →
  ∀ j, concat (map (node_depths (S k)) infos) =
    map (depth_row k) (concat (imap_from flatDelegate j l)).
Proof.
  induction 1 as [|d info l infos Hd _ IH]; intros Hf j; [done|]. inversion Hf; subst. cbn.
  rewrite map_app. f_equal; [eauto|by apply IH].
Qed.

Lemma inspectDelegate_depths d : ∀ depth k i info,
  inspectDelegate depth d = Ok info →
  node_depths (S k) info = map (depth_row k) (flatDelegate i d).
Proof.
  induction d as [a s n IH] using delegate_nested_ind. intros depth k i info Hi.
  cbn [inspectDelegate] in Hi. inv_ok. apply imapM_const_Ok in Hx0.
  cbn [flatDelegate node_depths]. rewrite depth_row_under. cbn [map]. f_equal.
  { unfold depth_row. cbn. f_equal. lia. }
  eapply level_depths; [exact Hx0|]. eapply Forall_impl; [exact IH|]. intros d Hd i' info'. apply Hd.
Qed.

Lemma Inspect_depths e info :
  Inspect e = Ok info →
  concat (map (node_depths 1) (Info_Delegates info)) =
    map (depth_row 0) (flatDelegates (entryDelegates e)).
Proof.
  unfold Inspect. intros Hi. inv_ok. destruct x0 as [contract function]. inv_ok.
  cbn [Info_Delegates]. clear Hx0 Hx1.
  unfold entryDelegates, is_delegates.
  destruct (Credentials e) as [|o|o|o|t] eqn:Hcred; [..|
    by apply (inspectCredentials_unknown _ t) in Hx as (-> & -> & _)];
    unfold inspectCredentials in Hx; rewrite Hcred in Hx;
    cbn -[addressCredentials FormatAddress inspectDelegates] in Hx; [by inv_ok|by inv_ok|by inv_ok|].
  inv_ok. cbn. destruct o as [d|]; [|by inv_ok]. inv_ok. unfold inspectDelegates in *. inv_ok.
  match goal with E : imapM_from _ _ _ = Ok _ |- _ => apply imapM_const_Ok in E; rename E into Hl end.
  unfold flatDelegates. eapply level_depths; [exact Hl|]. apply Forall_forall. intros y _ i info.
  apply inspectDelegate_depths.
Qed.
End rows.

(** ** Theorem *)
Section theorem.
Context `{SDK}.

Lemma has_delegates code infos depth cfg :
  has code (analyzeDelegates infos depth cfg) → code = "DELEGATE_DEPTH_EXCEEDED".
Proof.
  unfold analyzeDelegates. rewrite has_concat. intros (n & _ & Hn). by eapply analyzeDelegate_codes.
Qed.

(** Every check gives its own code. *)
Lemma raw_has code e info cfg : has code (rawFindings e info cfg) ↔
  ((Credentials_Type (Credentials e) =? CredentialsSourceAccount)%Z &&
    match Credentials_AddressWithDelegates (Credentials e) with
    | Some d => Nat.ltb 0 (length (Delegates d))
    | None => false
    end = true ∧ "SOURCE_ACCOUNT_WITH_DELEGATES" = code) ∨
  has code (analyzeDelegates (Info_Delegates info) 1 cfg) ∨
  ((Z.of_nat (countTotalDelegates (Info_Delegates info)) >? MaxTotalDelegates cfg)%Z = true ∧
    "DELEGATE_COUNT_HIGH" = code) ∨
  ((Z.of_nat (Info_SubInvocations info) >? MaxSubInvocations cfg)%Z = true ∧
    "SUB_INVOCATION_COUNT_HIGH" = code) ∨
  ((CurrentLedger cfg >? 0)%Z && (Info_ValidUntilLedger info >? 0)%Z
    && (expirationDelta info cfg >? MaxValidUntilLedgerDelta cfg)%Z = true ∧
    "EXPIRATION_FAR_FUTURE" = code) ∨
  (negb (String.eqb (Info_RootContract info) "") && Nat.ltb 0 (size (KnownContracts cfg))
    && negb (default false (KnownContracts cfg !! Info_RootContract info)) = true ∧
    "CONTRACT_UNKNOWN" = code) ∨
  (String.eqb (Info_CredentialType info) CredentialTypeAddressWithDelegates
    && Nat.ltb 0 (length (Info_Delegates info))
    && Nat.ltb 0 (countUnsignedDelegates (Info_Delegates info)) = true ∧
    "UNSIGNED_DELEGATES" = code) ∨
  ((Info_ValidUntilLedger info =? 0)%Z
    && negb (String.eqb (Info_CredentialType info) CredentialTypeSourceAccount) = true ∧
    "EXPIRATION_ZERO" = code) ∨
  (String.eqb (Info_CredentialType info) CredentialTypeSourceAccount
    && Nat.ltb 0 (length (Info_Delegates info)) = true ∧ "SOURCE_ACCOUNT_WITH_DELEGATES" = code) ∨
  (String.eqb (Info_CredentialType info) CredentialTypeAddress && negb (Info_AddressBound info) = true ∧
    "LEGACY_CREDENTIALS_NOT_ADDRESS_BOUND" = code).
Proof.
  unfold rawFindings. cbv zeta.
  repeat (etransitivity; [apply has_app|]; apply or_iff; [first [apply has_check|reflexivity]|]).
  apply has_check.
Qed.

Ltac solve_has :=
  rewrite raw_has;
  split;
    [ intros Hcases; repeat (destruct Hcases as [Hcases|Hcases]);
      first [ by apply has_delegates in Hcases | destruct Hcases as [? Hcode]; by try discriminate Hcode ]
    | intros Hb; repeat first [left; by split | right]; by split ].

Lemma raw_count e info cfg : has "DELEGATE_COUNT_HIGH" (rawFindings e info cfg) ↔
  (Z.of_nat (countTotalDelegates (Info_Delegates info)) >? MaxTotalDelegates cfg)%Z = true.
Proof. solve_has. Qed.

Lemma raw_subs e info cfg : has "SUB_INVOCATION_COUNT_HIGH" (rawFindings e info cfg) ↔
  (Z.of_nat (Info_SubInvocations info) >? MaxSubInvocations cfg)%Z = true.
Proof. solve_has. Qed.

Lemma raw_unsigned e info cfg : has "UNSIGNED_DELEGATES" (rawFindings e info cfg) ↔
  String.eqb (Info_CredentialType info) CredentialTypeAddressWithDelegates
  && Nat.ltb 0 (length (Info_Delegates info))
  && Nat.ltb 0 (countUnsignedDelegates (Info_Delegates info)) = true.
Proof. solve_has. Qed.

Lemma raw_zero e info cfg : has "EXPIRATION_ZERO" (rawFindings e info cfg) ↔
  (Info_ValidUntilLedger info =? 0)%Z
  && negb (String.eqb (Info_CredentialType info) CredentialTypeSourceAccount) = true.
Proof. solve_has. Qed.

Lemma raw_legacy e info cfg : has "LEGACY_CREDENTIALS_NOT_ADDRESS_BOUND" (rawFindings e info cfg) ↔
  String.eqb (Info_CredentialType info) CredentialTypeAddress && negb (Info_AddressBound info) = true.
Proof. solve_has. Qed.

Lemma raw_contract e info cfg : has "CONTRACT_UNKNOWN" (rawFindings e info cfg) ↔
  negb (String.eqb (Info_RootContract info) "") && Nat.ltb 0 (size (KnownContracts cfg))
  && negb (default false (KnownContracts cfg !! Info_RootContract info)) = true.
Proof. solve_has. Qed.

Lemma raw_future e info cfg : has "EXPIRATION_FAR_FUTURE" (rawFindings e info cfg) ↔
  (CurrentLedger cfg >? 0)%Z && (Info_ValidUntilLedger info >? 0)%Z
  && (expirationDelta info cfg >? MaxValidUntilLedgerDelta cfg)%Z = true.
Proof. solve_has. Qed.

Lemma raw_depth e info cfg : has "DELEGATE_DEPTH_EXCEEDED" (rawFindings e info cfg) ↔
  has "DELEGATE_DEPTH_EXCEEDED" (analyzeDelegates (Info_Delegates info) 1 cfg).
Proof.
  rewrite raw_has. split; [|auto]. intros Hcases. repeat (destruct Hcases as [Hcases|Hcases]; try done).
  all: by destruct Hcases as [_ ?].
Qed.

(** Counting the reported tree is counting its rows. *)
Lemma countTotal_rows infos :
  countTotalDelegates infos = length (concat (map (node_depths 1) infos)).
Proof.
  unfold countTotalDelegates. induction infos as [|n infos IH]; cbn; [done|].
  by rewrite length_app, <-countTotal_depths, IH.
Qed.

Lemma countUnsigned_rows infos :
  0 < countUnsignedDelegates infos ↔
  ∃ row, row ∈ concat (map (node_depths 1) infos) ∧ row.2 = false.
Proof.
  unfold countUnsignedDelegates. induction infos as [|n infos IH]; cbn [map concat sum_list].
  - split; [cbn; lia|]. by intros (? & ?%not_elem_of_nil & _).
  - cbn. rewrite add_pos, IH, (countUnsigned_depths n 1). setoid_rewrite elem_of_app. naive_solver.
Qed.

Lemma depth_rows infos max :
  (∃ n, n ∈ infos ∧ has "DELEGATE_DEPTH_EXCEEDED" (analyzeDelegate max 1 n)) ↔
  ∃ row, row ∈ concat (map (node_depths 1) infos) ∧ (max < Z.of_nat row.1)%Z.
Proof.
  change 1%Z with (Z.of_nat 1). setoid_rewrite (analyzeDelegate_has max _ 1).
  setoid_rewrite elem_of_concat. split.
  - intros (n & Hn & row & ? & ?). exists row. split; [|done]. exists (node_depths 1 n).
    split; [done|]. by apply (list_elem_of_fmap_2 (node_depths 1)).
  - intros (row & (l & Hr & (n & -> & Hn)%list_elem_of_fmap) & ?). eauto.
Qed.

(** [Analyze] orders its findings by severity and reports an issue exactly
    when the entry has it: a delegate deeper than the limit, more delegates or
    sub-invocations than the limit, an unsigned delegate, an expiration of zero,
    a legacy arm, an unfamiliar contract; and an expiration too far ahead when
    the 32-bit difference to the current ledger exceeds the limit. *)
Theorem Analyze_findings e cfg info fs :
  Inspect e = Ok info → Analyze e (Some cfg) = Ok fs →
  let ds := flatDelegates (entryDelegates e) in
  StronglySorted graver fs ∧
  (has "DELEGATE_DEPTH_EXCEEDED" fs ↔
     ∃ n, n ∈ ds ∧ (MaxDelegateDepth cfg < Z.of_nat (length (flat_path n)))%Z) ∧
  (has "DELEGATE_COUNT_HIGH" fs ↔ (MaxTotalDelegates cfg < Z.of_nat (length ds))%Z) ∧
  (has "SUB_INVOCATION_COUNT_HIGH" fs ↔ (MaxSubInvocations cfg < Z.of_nat (Info_SubInvocations info))%Z) ∧
  (has "UNSIGNED_DELEGATES" fs ↔ Info_CredentialType info = CredentialTypeAddressWithDelegates ∧
     ∃ n, n ∈ ds ∧ isSigned (flat_sig n) = false) ∧
  (has "EXPIRATION_ZERO" fs ↔ Info_ValidUntilLedger info = 0%Z ∧
     Info_CredentialType info ≠ CredentialTypeSourceAccount) ∧
  (has "LEGACY_CREDENTIALS_NOT_ADDRESS_BOUND" fs ↔
     Info_CredentialType info = CredentialTypeAddress ∧ Info_AddressBound info = false) ∧
  (has "CONTRACT_UNKNOWN" fs ↔ Info_RootContract info ≠ "" ∧ KnownContracts cfg ≠ ∅ ∧
     KnownContracts cfg !! Info_RootContract info ≠ Some true) ∧
  (has "EXPIRATION_FAR_FUTURE" fs ↔ (0 < CurrentLedger cfg)%Z ∧ (0 < Info_ValidUntilLedger info)%Z ∧
     (MaxValidUntilLedgerDelta cfg < wrap_u32 (Info_ValidUntilLedger info - CurrentLedger cfg))%Z).
Proof.
  intros Hi Ha ds. unfold Analyze in Ha. rewrite Hi in Ha. cbn in Ha. injection Ha as <-.
  pose proof (Inspect_depths e info Hi) as Hd. fold ds in Hd.
  split; [apply exchangeSort_spec|]. rewrite !has_sorted.
  assert (Hrow : ∀ P, (∃ row, row ∈ concat (map (node_depths 1) (Info_Delegates info)) ∧ P row) ↔
    ∃ n, n ∈ ds ∧ P (depth_row 0 n)).
  { intros P. rewrite Hd. split.
    - intros (row & (n & -> & ?)%list_elem_of_fmap & ?). eauto.
    - intros (n & ? & ?). exists (depth_row 0 n). split; [|done]. by apply (list_elem_of_fmap_2 (depth_row 0)). }
  split.
  { rewrite raw_depth. unfold analyzeDelegates. rewrite has_concat, depth_rows.
    rewrite (Hrow (λ row, (MaxDelegateDepth cfg < Z.of_nat row.1)%Z)). done. }
  split. { rewrite raw_count, countTotal_rows, Hd, length_map, Z.gtb_lt. done. }
  split; [by rewrite raw_subs, Z.gtb_lt|].
  split.
  { rewrite raw_unsigned, !andb_true_iff, !Nat.ltb_lt, String.eqb_eq, countUnsigned_rows.
    rewrite (Hrow (λ row, row.2 = false)). split; [by intros [[? _] ?]|]. intros [? Hn].
    split; [|done]. split; [done|]. destruct (Info_Delegates info); [|cbn; lia].
    destruct Hn as (n & Hn & _). apply (list_elem_of_fmap_2 (depth_row 0)) in Hn.
    change fmap with (@map FlatNode (nat * bool)) in Hn. rewrite <-Hd in Hn. by apply not_elem_of_nil in Hn. }
  split; [by rewrite raw_zero, andb_true_iff, Z.eqb_eq, negb_true_iff, String.eqb_neq|].
  split; [by rewrite raw_legacy, andb_true_iff, String.eqb_eq, negb_true_iff|].
  split.
  - rewrite raw_contract, !andb_true_iff, !negb_true_iff, String.eqb_neq, Nat.ltb_lt.
    pose proof (map_size_non_empty_iff (KnownContracts cfg)). destruct (_ !! _) as [[]|]; naive_solver lia.
  - rewrite raw_future, !andb_true_iff, !Z.gtb_lt. unfold expirationDelta. tauto.
Qed.

(** The 32-bit difference in words: for an entry past its expiration the
    distance counts as far in the future unless the limit is astronomical. *)
Lemma expirationDelta_expired info cfg :
  (0 < Info_ValidUntilLedger info < CurrentLedger cfg)%Z → (CurrentLedger cfg <= MaxUint32)%Z →
  expirationDelta info cfg = (MaxUint32 + 1 - (CurrentLedger cfg - Info_ValidUntilLedger info))%Z.
Proof.
  unfold expirationDelta, wrap_u32, MaxUint32. intros.
  rewrite <-(Z.mod_add _ 1) by lia. rewrite Z.mod_small; lia.
Qed.
End theorem.

(** ** A concrete entry *)
(** The entry of the tree example, valid until ledger 1000, reviewed at ledger
    2000 with an allowlist that does not hold its contract. *)
Definition ex_risk_config : RiskConfig :=
  mkRiskConfig 1 2 10000 {[ "CDLZ" := true ]} 0 2000.

Definition ex_findings : list Finding :=
  match Analyze ex_inspected (Some ex_risk_config) with Ok fs => fs | Err _ => [] end.

Example Analyze_codes :
  map Code ex_findings =
    ["DELEGATE_DEPTH_EXCEEDED"; "DELEGATE_COUNT_HIGH"; "SUB_INVOCATION_COUNT_HIGH";
     "EXPIRATION_FAR_FUTURE"; "CONTRACT_UNKNOWN"; "UNSIGNED_DELEGATES"].
Proof. vm_compute. reflexivity. Qed.

Lemma Analyze_findings_witness :
  StronglySorted graver ex_findings ∧
  (has "EXPIRATION_FAR_FUTURE" ex_findings ↔
     (0 < CurrentLedger ex_risk_config)%Z ∧ (0 < Info_ValidUntilLedger ex_info)%Z ∧
     (MaxValidUntilLedgerDelta ex_risk_config <
        wrap_u32 (Info_ValidUntilLedger ex_info - CurrentLedger ex_risk_config))%Z) ∧
  Info_ValidUntilLedger ex_info = 1000%Z.
Proof.
  destruct (Analyze_findings ex_inspected ex_risk_config ex_info ex_findings)
    as (Hs & _ & _ & _ & _ & _ & _ & _ & Hf); [vm_compute; reflexivity..|].
  split_and!; [exact Hs|exact Hf|vm_compute; reflexivity].
Defined.
