(* ===== verification/Diff.v ===== *)
(** * Diff: what changed between two entries (diff.go)

    [DiffEntries] compares the fields of two entries one by one, marks each
    change with whether it moves the signed payload, and lists the nodes whose
    signature was carried over although the payload moved.
    [DiffEntries_payload] compares its verdict with the preimages the two
    entries have, [DiffEntries_signatures] its lists with the entries' nodes. *)
From Stdlib Require Import ZArith Lia Strings.Byte String.
From stdpp Require Import base list strings gmap pretty sorting.
From S2P Require Import Prelude Encoding Errors Xdr ModelSDK Runtime Examples Address Limits Arm Preimage Nodes.
From S2P Require Import Inspect.

Open Scope string_scope. Open Scope nat_scope. Open Scope list_scope.

(** ** The report *)
Inductive ChangeKind :=
| ChangeKindArm
| ChangeKindAddress
| ChangeKindNonce
| ChangeKindExpiration
| ChangeKindInvocation
| ChangeKindDelegateAdded
| ChangeKindDelegateRemoved
| ChangeKindSignature.

Definition ChangeKind_text (k : ChangeKind) : string :=
  match k with
  | ChangeKindArm => "arm"
  | ChangeKindAddress => "address"
  | ChangeKindNonce => "nonce"
  | ChangeKindExpiration => "expiration"
  | ChangeKindInvocation => "invocation"
  | ChangeKindDelegateAdded => "delegate_added"
  | ChangeKindDelegateRemoved => "delegate_removed"
  | ChangeKindSignature => "signature"
  end.

Record Change := mkChange {
  Kind : ChangeKind;
  Change_Path : string;
  From : string;
  To : string;
  AffectsPayload : bool
}.

Record EntryDiff := mkEntryDiff {
  Identical : bool;
  PayloadChanged : bool;
  SignaturesChanged : bool;
  StaleSignatures : list string;
  Changes : list Change;
  Diff_Summary : string;
  Note : string
}.

Definition topLevelNodePath : string := "credentials".

Record diffNode := mkDiffNode { path : string; node_signature : ScVal }.

(** ** Names *)
Definition presence (present : bool) : string := if present then "present" else "absent".

Definition functionType (f : SorobanAuthorizedFunction) : Z :=
  match f with
  | FunctionContractFn _ => 0
  | FunctionCreateContractHostFn _ => 1
  | FunctionCreateContractV2HostFn _ => 2
  | FunctionUnknown t => t
  end.

Definition functionTypeName (t : Z) : string :=
  if (t =? 0)%Z then "contract_fn"
  else if (t =? 1)%Z then "create_contract_host_fn"
  else if (t =? 2)%Z then "create_contract_v2_host_fn"
  else "soroauth: " +:+ sentinel_text ErrUnsupportedFunctionType.

Definition armName (t : Z) : result string :=
  if (t =? CredentialsSourceAccount)%Z then Ok CredentialTypeSourceAccount
  else if (t =? CredentialsAddress)%Z then Ok CredentialTypeAddress
  else if (t =? CredentialsAddressV2)%Z then Ok CredentialTypeAddressV2
  else if (t =? CredentialsAddressWithDelegates)%Z then Ok CredentialTypeAddressWithDelegates
  else Err (ESentinel ErrUnsupportedCredentials).

Definition isAddressBoundArm (arm : string) : bool :=
  String.eqb arm CredentialTypeAddressV2 || String.eqb arm CredentialTypeAddressWithDelegates.

Definition xdrEqual {T} `{XdrCodec T} (a b : T) : result bool :=
  encodedA ← wrap "encoding" (MarshalBinary a);
  encodedB ← wrap "encoding" (MarshalBinary b);
  Ok (bytes_Equal encodedA encodedB).

(** A [range] loop that threads a state and appends to a slice. *)
Section loopM.
Context {S A B : Type} (f : S → A → result (S * list B)).
Fixpoint loopM (s : S) (l : list A) : result (list B) :=
  match l with
  | [] => Ok []
  | x :: l' =>
      r ← f s x;
      rest ← loopM r.1 l';
      Ok (r.2 ++ rest)
  end.
End loopM.

Section diff.
Context `{SDK}.

(** ** The signature-bearing nodes, keyed by path *)
(** One iteration of the loop of [diffNodesOf]; [seen] counts the nodes of one
    level by path. *)
Fixpoint diffDelegate (prefix : string) (depth : Z) (seen : gmap string nat)
    (d : SorobanDelegateSignature) : result (gmap string nat * list diffNode) :=
  match d with
  | mkDelegateSignature a s nestedDelegates =>
      address ← FormatAddress a;
      let path := prefix +:+ "[" +:+ address +:+ "]" in
      let n := S (default 0 (seen !! path)) in
      let seen := <[path := n]> seen in
      let path := if Nat.ltb 1 n then path +:+ "#" +:+ pretty n else path in
      nested ← (_ ← checkTraversalDepth (depth + 1);
                loopM (diffDelegate (path +:+ ".nested") (depth + 1)) ∅ nestedDelegates);
      Ok (seen, mkDiffNode path s :: nested)
  end.

Definition diffNodesOf (prefix : string) (delegates : list SorobanDelegateSignature) (depth : Z)
    : result (list diffNode) :=
  _ ← checkTraversalDepth depth;
  loopM (diffDelegate prefix depth) ∅ delegates.

Definition diffNodes (entry : SorobanAuthorizationEntry) : result (list diffNode) :=
  let t := Credentials_Type (Credentials entry) in
  if (t =? CredentialsSourceAccount)%Z then Ok [] else
  credentials ← addressCredentials (Credentials entry);
  let nodes := [mkDiffNode topLevelNodePath (Signature credentials)] in
  if (t =? CredentialsAddressWithDelegates)%Z then
    delegates ← diffNodesOf "credentials.delegates" (entryDelegates entry) 1;
    Ok (nodes ++ delegates)
  else Ok nodes.

Definition renderSignature (value : ScVal) : string :=
  if negb (isSigned value) then "unsigned"
  else
    let shape := DescribeSignature value in
    match MarshalBinary value with
    | Err _ => Shape_Description shape +:+ " (unencodable)"
    | Ok encoded =>
        Shape_Description shape +:+ " (sha256:" +:+
        hex_EncodeToString (take 4 (sha256_Sum256 encoded)) +:+ ")"
    end.

(** ** Invocation trees *)
Definition invocationChange (p from to : string) : Change :=
  mkChange ChangeKindInvocation p from to true.

Definition diffContractFn (path : string) (a b : InvokeContractArgs) : result (list Change) :=
  contractA ← FormatAddress (ContractAddress a);
  contractB ← FormatAddress (ContractAddress b);
  let head :=
    (if String.eqb contractA contractB then []
     else [invocationChange (path +:+ ".contractAddress") contractA contractB]) ++
    (if String.eqb (FunctionName a) (FunctionName b) then []
     else [invocationChange (path +:+ ".functionName") (FunctionName a) (FunctionName b)]) in
  if negb (Nat.eqb (length (Args a)) (length (Args b))) then
    Ok (head ++ [invocationChange (path +:+ ".args")
                   (pretty (length (Args a)) +:+ " arguments")
                   (pretty (length (Args b)) +:+ " arguments")])
  else
    args ← imapM (λ i '(x, y),
      same ← xdrEqual x y;
      Ok (if same : bool then []
          else [invocationChange (path +:+ ".args[" +:+ pretty i +:+ "]")
                  (ScValType_String x) (ScValType_String y)])) (zip (Args a) (Args b));
    Ok (head ++ concat args).

(** The body of one invocation: everything but its sub-invocations. *)
Definition diffFunction (path : string) (a b : SorobanAuthorizedFunction) : result (list Change) :=
  match a, b with
  | FunctionContractFn fnA, FunctionContractFn fnB =>
      match fnA, fnB with
      | Some l, Some r => diffContractFn path l r
      | _, _ => Ok [invocationChange path (presence (bool_decide (is_Some fnA)))
                      (presence (bool_decide (is_Some fnB)))]
      end
  | _, _ =>
      same ← xdrEqual a b;
      Ok (if same : bool then []
          else [invocationChange (path +:+ ".function")
                  (functionTypeName (functionType a) +:+ " (differs)")
                  (functionTypeName (functionType b) +:+ " (differs)")])
  end.

(** The loop over the sub-invocations indexes both slices, which by then have
    one length. *)
Fixpoint diffInvocation (path : string) (a b : SorobanAuthorizedInvocation) (depth : Z)
    : result (list Change) :=
  match a with
  | mkInvocation fa subsA =>
      let fb := Invocation_Function b in
      let subsB := SubInvocations b in
      _ ← checkTraversalDepth depth;
      if negb (functionType fa =? functionType fb)%Z then
        Ok [invocationChange (path +:+ ".function")
              (functionTypeName (functionType fa)) (functionTypeName (functionType fb))]
      else
      changes ← diffFunction path fa fb;
      if negb (Nat.eqb (length subsA) (length subsB)) then
        Ok (changes ++ [invocationChange (path +:+ ".subInvocations")
                          (pretty (length subsA) +:+ " sub-invocations")
                          (pretty (length subsB) +:+ " sub-invocations")])
      else
        subs ← imapM (λ i x,
          match subsB !! i with
          | Some y => diffInvocation (path +:+ ".subInvocations[" +:+ pretty i +:+ "]") x y (depth + 1)
          | None => Ok []
          end) subsA;
        Ok (changes ++ concat subs)
  end.

(** ** Pairing the nodes of two entries *)
(** [for _, node := range nodes { m[node.path] = node.signature }] *)
Definition nodeMap (nodes : list diffNode) : gmap string ScVal :=
  foldl (λ m n, <[path n := node_signature n]> m) ∅ nodes.

(** What one iteration of the loop over [order] appends to [changes] and
    [carriedOver]. *)
Definition diffPath (nodesA nodesB : gmap string ScVal) (p : string)
    : result (list Change * list string) :=
  match nodesA !! p, nodesB !! p with
  | Some before, None =>
      Ok (if String.eqb p topLevelNodePath then []
          else [mkChange ChangeKindDelegateRemoved p (renderSignature before) "absent" false], [])
  | None, Some after =>
      Ok (if String.eqb p topLevelNodePath then []
          else [mkChange ChangeKindDelegateAdded p "absent" (renderSignature after) false], [])
  | before, after =>
      let before := default (ScvBool None) before in
      let after := default (ScvBool None) after in
      same ← xdrEqual before after;
      Ok (if same : bool then ([], if isSigned before then [p] else [])
          else ([mkChange ChangeKindSignature (p +:+ ".signature")
                   (renderSignature before) (renderSignature after) false], []))
  end.

Definition pathOrder (a b : list diffNode) : list string :=
  map path a ++ map path (filter (λ n, nodeMap a !! path n = None) b).

Record NodeSetDiff := mkNodeSetDiff {
  set_changes : list Change;
  set_carriedOver : list string;
  set_signaturesChanged : bool;
  set_signedBefore : bool
}.

Definition isSignatureChange (c : Change) : bool :=
  match Kind c with ChangeKindSignature => true | _ => false end.

(** The loop sets [signaturesChanged] exactly where it appends a change of
    kind signature. *)
Definition diffNodeSets (a b : list diffNode) : result NodeSetDiff :=
  rows ← rmapM (diffPath (nodeMap a) (nodeMap b)) (pathOrder a b);
  let changes := concat (map fst rows) in
  Ok (mkNodeSetDiff changes (concat (map snd rows)) (existsb isSignatureChange changes)
        (existsb (λ n, isSigned (node_signature n)) a)).

(** ** Sorting and the summary *)
(** [sort.SliceStable]: payload changes first, then by path; a stable sort by
    the key that has one byte for the flag before the path. *)
Definition changeKey (c : Change) : bytes :=
  (if AffectsPayload c then x00 else x01) :: bytes_of_string (Change_Path c).
Definition sortChanges (changes : list Change) : list Change := sort_by changeKey changes.

Definition plural (n : nat) (one many : string) : string :=
  pretty n +:+ " " +:+ (if Nat.eqb n 1 then one else many).
Definition isAre (n : nat) : string := if Nat.eqb n 1 then "it is" else "they are".

Definition summarize (d : EntryDiff) (signedBefore : bool) : string :=
  let stale := length (StaleSignatures d) in
  if Identical d then "identical: the two entries encode to the same bytes"
  else if PayloadChanged d && Nat.ltb 0 stale then
    "PAYLOAD CHANGED and " +:+ plural stale "signature" "signatures" +:+
    " carried over unchanged: " +:+ isAre stale +:+ " no longer valid"
  else if PayloadChanged d && SignaturesChanged d && negb signedBefore then
    "payload changed, and the entry went from unsigned to signed: consistent with a first signing"
  else if PayloadChanged d && SignaturesChanged d then
    "payload changed, and every signature present was replaced: consistent with a re-sign"
  else if PayloadChanged d then
    "payload changed, and no signature was carried over: consistent with an unsigned edit"
  else if SignaturesChanged d then
    "signatures changed, payload unchanged: any other signature in the entry is unaffected"
  else "no payload or signature change: the difference is structural only".

(** ** DiffEntries *)
Definition diffCredentials (armA armB : string) (a b : SorobanAddressCredentials)
    : result (list Change) :=
  let op := "soroauth: diff entries" in
  addressA ← wrap (op +:+ ": first entry") ((FormatAddress (Address a)));
  addressB ← wrap (op +:+ ": second entry") ((FormatAddress (Address b)));
  Ok ((if String.eqb addressA addressB then []
       else [mkChange ChangeKindAddress "credentials.address" addressA addressB
               (isAddressBoundArm armA && isAddressBoundArm armB)]) ++
      (if (Nonce a =? Nonce b)%Z then []
       else [mkChange ChangeKindNonce "credentials.nonce"
               (FormatInt (Nonce a)) (FormatInt (Nonce b)) true]) ++
      (if (SignatureExpirationLedger a =? SignatureExpirationLedger b)%Z then []
       else [mkChange ChangeKindExpiration "credentials.signatureExpirationLedger"
               (FormatUint (SignatureExpirationLedger a))
               (FormatUint (SignatureExpirationLedger b)) true])).

Definition networkNote : string :=
  "the network passphrase is not carried in an entry, so it is not compared: " +:+
  "two entries that are otherwise identical still have different payloads on different networks".

Definition isSource (arm : string) : bool := String.eqb arm CredentialTypeSourceAccount.

Definition DiffEntries (a b : SorobanAuthorizationEntry) : result EntryDiff :=
  let op := "soroauth: diff entries" in
  armA ← wrap (op +:+ ": first entry") ((armName (Credentials_Type (Credentials a))));
  armB ← wrap (op +:+ ": second entry") ((armName (Credentials_Type (Credentials b))));
  identical ← wrap op (xdrEqual a b);
  let armChanges :=
    if String.eqb armA armB then [] else [mkChange ChangeKindArm "credentials.type" armA armB true] in
  credentialChanges ←
    (if negb (isSource armA) && negb (isSource armB) then
       credsA ← wrap (op +:+ ": first entry") ((addressCredentials (Credentials a)));
       credsB ← wrap (op +:+ ": second entry") ((addressCredentials (Credentials b)));
       diffCredentials armA armB credsA credsB
     else Ok []);
  invocationChanges ←
    wrap op (diffInvocation "rootInvocation" (RootInvocation a) (RootInvocation b) 1);
  nodesA ← wrap (op +:+ ": first entry") ((diffNodes a));
  nodesB ← wrap (op +:+ ": second entry") ((diffNodes b));
  sets ← wrap op (diffNodeSets nodesA nodesB);
  let changes := armChanges ++ credentialChanges ++ invocationChanges ++ set_changes sets in
  let payloadChanged := existsb AffectsPayload changes in
  let diff := mkEntryDiff identical payloadChanged (set_signaturesChanged sets)
                (if payloadChanged then set_carriedOver sets else [])
                (sortChanges changes) "" (if payloadChanged then "" else networkNote) in
  Ok (mkEntryDiff (Identical diff) (PayloadChanged diff) (SignaturesChanged diff)
        (StaleSignatures diff) (Changes diff) (summarize diff (set_signedBefore sets)) (Note diff)).
End diff.

(** ** The text for a terminal *)
(** fmt's [%-14s]. *)
Definition padRight (n : nat) (s : string) : string := s +:+ spaces (n - String.length s).

Definition Change_line (c : Change) : string :=
  "  " +:+ (if AffectsPayload c then "!" else " ") +:+ " " +:+ padRight 14 (ChangeKind_text (Kind c)) +:+
  " " +:+ Change_Path c +:+ newline +:+
  "      " +:+ From c +:+ " -> " +:+ To c +:+ newline.

Definition EntryDiff_String (d : EntryDiff) : string :=
  Diff_Summary d +:+ newline +:+
  match StaleSignatures d with
  | [] => ""
  | stale => newline +:+ "stale signatures (committed to the old payload):" +:+ newline +:+
             String.concat "" (map (λ p, "  " +:+ p +:+ newline) stale)
  end +:+
  match Changes d with
  | [] => ""
  | changes => newline +:+ "changes:" +:+ newline +:+ String.concat "" (map Change_line changes) +:+
               newline +:+ "  ! marks a change inside the signed payload" +:+ newline
  end +:+
  (if nonEmpty (Note d) then newline +:+ "note: " +:+ Note d +:+ newline else "").

(** ** Comparing invocation trees *)
(** A value a decoder can return: an account address names a key of the one key
    type there is, and a contract function has a body. *)
Definition keyed (a : ScAddress) : Prop :=
  match a with
  | ScAddressTypeAccount (Some id) => AccountId_Type id = 0%Z ∧ is_Some (Ed25519 id)
  | _ => True
  end.

Definition complete_function (f : SorobanAuthorizedFunction) : Prop :=
  match f with
  | FunctionContractFn fn => ∃ c, fn = Some c ∧ keyed (ContractAddress c)
  | _ => True
  end.

Inductive complete : SorobanAuthorizedInvocation → Prop :=
| complete_node f subs :
    complete_function f → Forall complete subs → complete (mkInvocation f subs).

Definition payloadOnly (cs : list Change) : Prop := Forall (λ c, AffectsPayload c = true) cs.

(** A comparison that reports only payload changes, and none exactly for equal
    values. *)
Definition compares {T} (a b : T) (cs : list Change) : Prop :=
  payloadOnly cs ∧ (cs = [] ↔ a = b).

Lemma payloadOnly_exists cs : payloadOnly cs → existsb AffectsPayload cs = false ↔ cs = [].
Proof. destruct 1 as [|c cs Hc _]; cbn; [done|]. by rewrite Hc. Qed.

Lemma app_nil_iff {A} (l k : list A) : l ++ k = [] ↔ l = [] ∧ k = [].
Proof. destruct l; cbn; naive_solver. Qed.

Lemma payloadOnly_if (b : bool) c : AffectsPayload c = true → payloadOnly (if b then [] else [c]).
Proof. destruct b; repeat constructor. done. Qed.

Lemma if_nil_iff {A} (b : bool) (c : A) : (if b then [] else [c]) = [] ↔ b = true.
Proof. destruct b; naive_solver. Qed.

Lemma concat_nil_iff {A} (ls : list (list A)) : concat ls = [] ↔ ∀ i l, ls !! i = Some l → l = [].
Proof.
  induction ls as [|l ls IH]; cbn [concat]; [by split|]. rewrite app_nil_iff, IH. split.
  - intros [-> Hls] [|i] k Hk; [by injection Hk|by eapply Hls].
  - intros Hls. split; [by apply (Hls 0)|]. intros i. apply (Hls (S i)).
Qed.

Section comparisons.
Context `{SDK} `{!SDKLaws}.

Lemma FormatAddress_inj a b s :
  keyed a → keyed b → FormatAddress a = Ok s → FormatAddress b = Ok s → a = b.
Proof.
  assert (Hdec : ∀ x, keyed x → FormatAddress x = Ok s →
    ∃ k, (x = ScAddressTypeAccount (Some (mkAccountId 0 (Some k))) ∧
          strkey_DecodeAny s = Ok (VersionByteAccountID, k)) ∨
         (x = ScAddressTypeContract (Some k) ∧ strkey_DecodeAny s = Ok (VersionByteContract, k))).
  { intros [[[t k]|]|[k|]|?|?|?|?] Hk Hf; cbn in Hk, Hf; try discriminate Hf; apply wrap_Ok in Hf.
    - destruct Hk as [-> [key ->]]. rewrite AccountId_GetAddress_ed25519 in Hf.
      apply strkey_Decode_Encode in Hf. eauto.
    - apply strkey_Decode_Encode in Hf. eauto. }
  intros Ha Hb Hfa Hfb. apply Hdec in Hfa as (k & Hfa); [|done]. apply Hdec in Hfb as (k' & Hfb); [|done].
  destruct Hfa as [[-> Hd]|[-> Hd]], Hfb as [[-> Hd']|[-> Hd']]; rewrite Hd in Hd'; congruence.
Qed.

Lemma FormatAddress_eqb a b s t :
  keyed a → keyed b → FormatAddress a = Ok s → FormatAddress b = Ok t →
  String.eqb s t = true ↔ a = b.
Proof.
  intros Ha Hb Hs Ht. rewrite String.eqb_eq. split; [|congruence].
  intros ->. by eapply FormatAddress_inj.
Qed.

Lemma xdrEqual_Ok {T} `{XdrCodecLaws T} (a b : T) r : xdrEqual a b = Ok r → r = true ↔ a = b.
Proof.
  unfold xdrEqual. intros Hr. inv_ok. rewrite bytes_Equal_spec.
  split; [intros ->; by eapply MarshalBinary_inj|]. congruence.
Qed.

Lemma diffArgs_compares p xs ys args :
  length xs = length ys →
  imapM (λ i '(x, y),
      same ← xdrEqual x y;
      Ok (if same : bool then []
          else [invocationChange (p i) (ScValType_String x) (ScValType_String y)])) (zip xs ys)
    = Ok args →
  compares xs ys (concat args).
Proof.
  generalize 0 as k. revert ys args.
  induction xs as [|x xs IH]; intros [|y ys] args k Hlen Hm; try discriminate Hlen; cbn in Hm.
  - inv_ok. split; [constructor|done].
  - apply bind_Ok in Hm as (row & Hrow & (rest & Hrest & [= <-])%bind_Ok).
    apply bind_Ok in Hrow as (same & Hsame & [= <-]).
    apply IH in Hrest as [Hp Hn]; [|by injection Hlen]. apply xdrEqual_Ok in Hsame. cbn. split.
    + apply Forall_app. split; [by apply payloadOnly_if|done].
    + rewrite app_nil_iff, Hn, if_nil_iff, Hsame. split; [by intros [-> ->]|by intros [= -> ->]].
Qed.

Lemma diffContractFn_compares p a b cs :
  keyed (ContractAddress a) → keyed (ContractAddress b) →
  diffContractFn p a b = Ok cs → compares a b cs.
Proof.
  unfold diffContractFn. intros Ha Hb Hd.
  apply bind_Ok in Hd as (s & Hs & (t & Ht & Hd)%bind_Ok).
  pose proof (FormatAddress_eqb _ _ _ _ Ha Hb Hs Ht) as Haddr.
  assert (Hname : String.eqb (FunctionName a) (FunctionName b) = true ↔ FunctionName a = FunctionName b)
    by apply String.eqb_eq.
  destruct (Nat.eqb_spec (length (Args a)) (length (Args b))) as [Hl|Hl]; cbn [negb] in Hd.
  - apply bind_Ok in Hd as (args & Hargs & [= <-]).
    apply (diffArgs_compares (λ i, p +:+ ".args[" +:+ pretty i +:+ "]")) in Hargs as [Hp Hn]; [|done].
    split; [repeat (apply Forall_app; split); try by apply payloadOnly_if|]; [done|].
    rewrite !app_nil_iff, !if_nil_iff, Haddr, Hname, Hn.
    destruct a, b; cbn; naive_solver.
  - injection Hd as <-. split.
    + repeat (apply Forall_app; split); try by apply payloadOnly_if. by repeat constructor.
    + rewrite !app_nil_iff. split; [by intros [_ ?]|]. by intros ->.
Qed.

Lemma diffFunction_compares p a b cs :
  complete_function a → complete_function b →
  diffFunction p a b = Ok cs → compares a b cs.
Proof.
  assert (Hopaque : ∀ name, (same ← xdrEqual a b;
      Ok (if same : bool then [] else [invocationChange (p +:+ ".function")
            (name a) (name b)])) = Ok cs → compares a b cs).
  { intros name Hd. apply bind_Ok in Hd as (same & Hsame & [= <-]). apply xdrEqual_Ok in Hsame.
    split; [by apply payloadOnly_if|]. by rewrite if_nil_iff. }
  intros Ha Hb Hd.
  destruct a as [fa|?|?|?], b as [fb|?|?|?];
    try exact (Hopaque (λ f, functionTypeName (functionType f) +:+ " (differs)") Hd).
  destruct Ha as (ca & -> & Ha), Hb as (cb & -> & Hb). cbn in Hd.
  apply diffContractFn_compares in Hd as [Hp Hn]; [|done..]. split; [done|].
  rewrite Hn. split; [by intros ->|by intros [= ->]].
Qed.

Lemma diffInvocation_compares a : complete a → ∀ b p depth cs,
  complete b → diffInvocation p a b depth = Ok cs → compares a b cs.
Proof.
  pattern a. revert a. apply invocation_nested_ind. intros fa subsA IH Ha [fb subsB] p depth cs Hb Hd.
  inversion Ha as [? ? Hfa Hsa]; subst. inversion Hb as [? ? Hfb Hsb]; subst.
  cbn [diffInvocation Invocation_Function SubInvocations] in Hd. apply bind_Ok in Hd as ([] & _ & Hd).
  destruct (Z.eqb_spec (functionType fa) (functionType fb)) as [_|Ht]; cbn [negb] in Hd.
  2:{ injection Hd as <-. split; [by repeat constructor|]. split; [done|]. by intros [= -> ->]. }
  apply bind_Ok in Hd as (fc & Hfc & Hd). apply diffFunction_compares in Hfc as [Hp Hn]; [|done..].
  destruct (Nat.eqb_spec (length subsA) (length subsB)) as [Hl|Hl]; cbn [negb] in Hd.
  2:{ injection Hd as <-. split; [apply Forall_app; split; [done|by repeat constructor]|].
      rewrite app_nil_iff. split; [by intros [_ ?]|]. by intros [= -> ->]. }
  apply bind_Ok in Hd as (subs & Hsubs & [= <-]).
  apply imapM_from_Ok in Hsubs as [Hlen Hsubs]. cbn [plus] in Hsubs.
  assert (Hall : ∀ i x y row, subsA !! i = Some x → subsB !! i = Some y → subs !! i = Some row →
    compares x y row).
  { intros i x y row Hx Hy Hrow. destruct (Hsubs i x Hx) as (row' & Hrow' & Hd).
    rewrite Hrow in Hrow'. injection Hrow' as <-. rewrite Hy in Hd. cbn in Hd.
    rewrite Forall_lookup in IH, Hsa, Hsb. by eapply IH; eauto. }
  assert (Hlk : ∀ i row, subs !! i = Some row → ∃ x y, subsA !! i = Some x ∧ subsB !! i = Some y).
  { intros i row Hrow%lookup_lt_Some. destruct (lookup_lt_is_Some_2 subsA i) as [x ?]; [lia|].
    destruct (lookup_lt_is_Some_2 subsB i) as [y ?]; [lia|]. eauto. }
  split.
  - apply Forall_app. split; [done|]. apply Forall_concat, Forall_lookup. intros i row Hrow.
    destruct (Hlk i row Hrow) as (x & y & Hx & Hy). by eapply Hall.
  - rewrite app_nil_iff, Hn, concat_nil_iff. split.
    + intros [-> Hnil]. f_equal. apply list_eq. intros i. destruct (subsA !! i) as [x|] eqn:Hx.
      * destruct (Hsubs i x Hx) as (row & Hrow & _). destruct (Hlk i row Hrow) as (x' & y & _ & Hy).
        rewrite Hy. f_equal. eapply Hall; eauto.
      * symmetry. apply lookup_ge_None in Hx. apply lookup_ge_None. lia.
    + intros [= -> ->]. split; [done|]. intros i row Hrow.
      destruct (Hlk i row Hrow) as (x & y & Hx & Hy). eapply Hall; eauto.
Qed.
End comparisons.

(** ** The verdict on the payload *)
Section verdict.
Context `{SDK} `{!SDKLaws}.

Lemma armName_Ok t n : armName t = Ok n →
  (t = CredentialsSourceAccount ∧ n = CredentialTypeSourceAccount) ∨
  (t = CredentialsAddress ∧ n = CredentialTypeAddress) ∨
  (t = CredentialsAddressV2 ∧ n = CredentialTypeAddressV2) ∨
  (t = CredentialsAddressWithDelegates ∧ n = CredentialTypeAddressWithDelegates).
Proof.
  unfold armName.
  destruct (credentials_type_cases t) as [->|[->|[->|[->|(-> & -> & -> & ->)]]]]; cbn; try discriminate;
    intros [= <-]; tauto.
Qed.

Lemma armName_eqb s t n m : armName s = Ok n → armName t = Ok m → String.eqb n m = true ↔ s = t.
Proof.
  intros Hn%armName_Ok Hm%armName_Ok.
  destruct Hn as [[-> ->]|[[-> ->]|[[-> ->]|[-> ->]]]];
    destruct Hm as [[-> ->]|[[-> ->]|[[-> ->]|[-> ->]]]]; cbn; by split.
Qed.

Lemma armName_bound c n : armName (Credentials_Type c) = Ok n → isAddressBoundArm n = address_bound c.
Proof.
  unfold address_bound. intros [[-> ->]|[[-> ->]|[[-> ->]|[-> ->]]]]%armName_Ok; reflexivity.
Qed.

Lemma armName_source c n a :
  armName (Credentials_Type c) = Ok n → addressCredentials c = Ok a → isSource n = false.
Proof.
  intros [[Ht ->]|[[_ ->]|[[_ ->]|[_ ->]]]]%armName_Ok Ha; [|reflexivity..].
  by rewrite addressCredentials_source in Ha.
Qed.

Lemma diffCredentials_payload armA armB a b cs :
  keyed (Address a) → keyed (Address b) → diffCredentials armA armB a b = Ok cs →
  existsb AffectsPayload cs = false ↔
  (isAddressBoundArm armA && isAddressBoundArm armB = true → Address a = Address b) ∧
  Nonce a = Nonce b ∧ SignatureExpirationLedger a = SignatureExpirationLedger b.
Proof.
  unfold diffCredentials. intros Ha Hb Hd.
  apply bind_Ok in Hd as (s & Hs%wrap_Ok & (t & Ht%wrap_Ok & [= <-])%bind_Ok).
  pose proof (FormatAddress_eqb _ _ _ _ Ha Hb Hs Ht) as Haddr.
  rewrite !existsb_app, !orb_false_iff.
  destruct (String.eqb s t), (isAddressBoundArm armA && isAddressBoundArm armB),
    (Z.eqb_spec (Nonce a) (Nonce b)),
    (Z.eqb_spec (SignatureExpirationLedger a) (SignatureExpirationLedger b)); cbn; naive_solver.
Qed.

Lemma diffNodeSets_payload a b sets :
  diffNodeSets a b = Ok sets → existsb AffectsPayload (set_changes sets) = false.
Proof.
  unfold diffNodeSets. intros Hd. apply bind_Ok in Hd as (rows & Hrows & [= <-]). cbn.
  apply imapM_from_Forall2 in Hrows. induction Hrows as [|p row order rows Hrow _ IH]; [done|].
  cbn. rewrite existsb_app, IH, orb_false_r. clear IH. unfold diffPath in Hrow.
  destruct (nodeMap a !! p), (nodeMap b !! p).
  2,3: injection Hrow as <-; by destruct (String.eqb p topLevelNodePath).
  all: apply bind_Ok in Hrow as (same & _ & [= <-]); by destruct same.
Qed.

(** A successful comparison, taken apart. *)
Lemma DiffEntries_inv a b d : DiffEntries a b = Ok d →
  ∃ armA armB cc ic nodesA nodesB sets,
    armName (Credentials_Type (Credentials a)) = Ok armA ∧
    armName (Credentials_Type (Credentials b)) = Ok armB ∧
    xdrEqual a b = Ok (Identical d) ∧
    (if negb (isSource armA) && negb (isSource armB) then
       ∃ ca cb, addressCredentials (Credentials a) = Ok ca ∧
         addressCredentials (Credentials b) = Ok cb ∧ diffCredentials armA armB ca cb = Ok cc
     else cc = []) ∧
    diffInvocation "rootInvocation" (RootInvocation a) (RootInvocation b) 1 = Ok ic ∧
    diffNodes a = Ok nodesA ∧ diffNodes b = Ok nodesB ∧ diffNodeSets nodesA nodesB = Ok sets ∧
    PayloadChanged d = negb (String.eqb armA armB) || existsb AffectsPayload cc
                       || existsb AffectsPayload ic ∧
    SignaturesChanged d = set_signaturesChanged sets ∧
    StaleSignatures d = (if PayloadChanged d then set_carriedOver sets else []) ∧
    Changes d = sortChanges
      ((if String.eqb armA armB then [] else [mkChange ChangeKindArm "credentials.type" armA armB true])
       ++ cc ++ ic ++ set_changes sets).
Proof.
  unfold DiffEntries. cbv zeta. intros Hd.
  apply bind_Ok in Hd as (armA & HA%wrap_Ok & Hd). apply bind_Ok in Hd as (armB & HB%wrap_Ok & Hd).
  apply bind_Ok in Hd as (id & Hid%wrap_Ok & Hd). apply bind_Ok in Hd as (cc & Hcc & Hd).
  apply bind_Ok in Hd as (ic & Hic%wrap_Ok & Hd). apply bind_Ok in Hd as (na & Hna%wrap_Ok & Hd).
  apply bind_Ok in Hd as (nb & Hnb%wrap_Ok & Hd). apply bind_Ok in Hd as (sets & Hsets%wrap_Ok & Hd).
  injection Hd as <-. exists armA, armB, cc, ic, na, nb, sets.
  cbn [Identical PayloadChanged SignaturesChanged StaleSignatures Changes].
  split_and!; try done.
  - destruct (negb (isSource armA) && negb (isSource armB)); [|by injection Hcc].
    apply bind_Ok in Hcc as (ca & Hca%wrap_Ok & (cb & Hcb%wrap_Ok & Hcc)%bind_Ok). eauto.
  - rewrite !existsb_app, (diffNodeSets_payload _ _ _ Hsets), orb_false_r, orb_assoc.
    by destruct (String.eqb armA armB).
Qed.

(** [PayloadChanged] in terms of the entries. *)
Lemma DiffEntries_content a b d ca cb :
  DiffEntries a b = Ok d →
  addressCredentials (Credentials a) = Ok ca → addressCredentials (Credentials b) = Ok cb →
  keyed (Address ca) → keyed (Address cb) → complete (RootInvocation a) → complete (RootInvocation b) →
  PayloadChanged d = false ↔
  Credentials_Type (Credentials a) = Credentials_Type (Credentials b) ∧
  signed_content a = signed_content b ∧
  SignatureExpirationLedger ca = SignatureExpirationLedger cb.
Proof.
  intros (armA & armB & cc & ic & na & nb & sets & HA & HB & _ & Hcc & Hic & _ & _ & _ & Hp & _)%DiffEntries_inv
    Ha Hb Hka Hkb Hia Hib.
  rewrite (armName_source _ _ _ HA Ha), (armName_source _ _ _ HB Hb) in Hcc. cbn in Hcc.
  destruct Hcc as (ca' & cb' & Ha' & Hb' & Hcc).
  rewrite Ha in Ha'. injection Ha' as <-. rewrite Hb in Hb'. injection Hb' as <-.
  apply diffCredentials_payload in Hcc; [|done..].
  apply diffInvocation_compares in Hic as [Honly Hic]; [|done..].
  rewrite Hp, !orb_false_iff, negb_false_iff, (armName_eqb _ _ _ _ HA HB), Hcc, payloadOnly_exists,
    Hic by done.
  rewrite (armName_bound _ _ HA), (armName_bound _ _ HB).
  assert (Hbound : Credentials_Type (Credentials a) = Credentials_Type (Credentials b) →
    address_bound (Credentials a) = address_bound (Credentials b))
    by (unfold address_bound; by intros ->).
  unfold signed_content. rewrite Ha, Hb. split.
  - intros [[Ht (Hadr & Hn & Hv)] Hi]. rewrite (Hbound Ht), andb_diag in *.
    rewrite Hn, Hi. split; [done|]. split; [|done].
    destruct (address_bound (Credentials b)); [|done]. by rewrite Hadr.
  - intros (Ht & Hc & Hv). rewrite (Hbound Ht), andb_diag in *. injection Hc as Hadr Hn Hi.
    split; [|done]. split; [done|]. split; [|done].
    destruct (address_bound (Credentials b)); [|done]. intros _. by injection Hadr.
Qed.

Lemma content_preimage_inj c c' v v' p p' :
  content_preimage c v p = content_preimage c' v' p' → c = c' ∧ v = v'.
Proof.
  destruct c as [[[?|] ?] ?], c' as [[[?|] ?] ?]; cbn; intros E; try discriminate E;
    by injection E as ? ? ? ?; subst.
Qed.

(** Entries of different arms are reported as such. *)
Lemma DiffEntries_arm a b d :
  DiffEntries a b = Ok d → Credentials_Type (Credentials a) ≠ Credentials_Type (Credentials b) →
  PayloadChanged d = true ∧ ∃ armA armB, armName (Credentials_Type (Credentials a)) = Ok armA ∧
    armName (Credentials_Type (Credentials b)) = Ok armB ∧
    mkChange ChangeKindArm "credentials.type" armA armB true ∈ Changes d.
Proof.
  intros (armA & armB & cc & ic & na & nb & sets & HA & HB & _ & _ & _ & _ & _ & _ & Hp & _ & _ & Hch)%DiffEntries_inv Hne.
  destruct (String.eqb armA armB) eqn:E; [by apply (armName_eqb _ _ _ _ HA HB) in E|].
  split; [by rewrite Hp|]. exists armA, armB. split; [done|]. split; [done|].
  rewrite Hch. unfold sortChanges. rewrite sort_by_perm. by left.
Qed.

(** [signed_content], field by field. *)
Lemma signed_content_fields a b ca cb :
  addressCredentials (Credentials a) = Ok ca → addressCredentials (Credentials b) = Ok cb →
  Credentials_Type (Credentials a) = Credentials_Type (Credentials b) →
  signed_content a = signed_content b ↔
  Nonce ca = Nonce cb ∧ RootInvocation a = RootInvocation b ∧
  (address_bound (Credentials a) = true → Address ca = Address cb).
Proof.
  intros Ha Hb Ht. assert (Hbound : address_bound (Credentials a) = address_bound (Credentials b))
    by (unfold address_bound; by rewrite Ht).
  unfold signed_content. rewrite Ha, Hb, Hbound.
  destruct (address_bound (Credentials b)); split.
  - by intros [= -> -> ->].
  - by intros (-> & -> & ->).
  - by intros [= -> ->].
  - by intros (-> & -> & _).
Qed.

(** C17. The verdict on the payload is right.  Entries are reported identical
    exactly when they are, and entries of different arms always as a changed
    payload with the arm change listed.  For entries of the address arms as a
    decoder returns them (an account address has a key, a contract call a
    body) the payload is reported unchanged exactly when the arm, the nonce,
    the expiration, the invocation tree and, for an address-bound arm, the
    address are the same; the two entries then have the same preimage on every
    network, so a signature made on one holds on the other.  When it is
    reported changed they have different preimages, except for an [address_v2]
    and a delegates entry over the same credentials, whose preimages agree and
    which are reported as changed all the same. *)
Theorem DiffEntries_payload a b d :
  DiffEntries a b = Ok d →
  (Identical d = true ↔ a = b) ∧
  (Credentials_Type (Credentials a) ≠ Credentials_Type (Credentials b) →
   PayloadChanged d = true ∧ ∃ armA armB, armName (Credentials_Type (Credentials a)) = Ok armA ∧
     armName (Credentials_Type (Credentials b)) = Ok armB ∧
     mkChange ChangeKindArm "credentials.type" armA armB true ∈ Changes d) ∧
  (∀ ca cb, addressCredentials (Credentials a) = Ok ca → addressCredentials (Credentials b) = Ok cb →
   keyed (Address ca) → keyed (Address cb) → complete (RootInvocation a) → complete (RootInvocation b) →
   let expA := SignatureExpirationLedger ca in let expB := SignatureExpirationLedger cb in
   (PayloadChanged d = false ↔
    Credentials_Type (Credentials a) = Credentials_Type (Credentials b) ∧
    Nonce ca = Nonce cb ∧ expA = expB ∧ RootInvocation a = RootInvocation b ∧
    (address_bound (Credentials a) = true → Address ca = Address cb)) ∧
   (PayloadChanged d = false → ∀ p, Preimage a expA p = Preimage b expB p) ∧
   (PayloadChanged d = true → ∀ pa pb pre,
      Preimage a expA pa = Ok pre → Preimage b expB pb = Ok pre →
      address_bound (Credentials a) = true ∧ address_bound (Credentials b) = true ∧
      Credentials_Type (Credentials a) ≠ Credentials_Type (Credentials b))).
Proof.
  intros Hd. split; [|split; [by apply DiffEntries_arm|]].
  { apply DiffEntries_inv in Hd as (? & ? & ? & ? & ? & ? & ? & _ & _ & Hid & _).
    by apply xdrEqual_Ok in Hid. }
  intros ca cb Ha Hb Hka Hkb Hia Hib expA expB.
  pose proof (DiffEntries_content a b d ca cb Hd Ha Hb Hka Hkb Hia Hib) as Hc.
  fold expA expB in Hc. split; [|split].
  - rewrite Hc. split.
    + intros (Ht & Hs & Hv). apply (signed_content_fields a b ca cb) in Hs; naive_solver.
    + intros (Ht & Hn & Hv & Hi & Had). split; [done|]. split; [|done].
      by apply (signed_content_fields a b ca cb).
  - intros (_ & Hs & ->)%Hc p. apply Preimage_content_eq; [done|].
    unfold signed_content. by rewrite Ha.
  - intros Hp pa pb pre (_ & c & Hca & ->)%Preimage_Ok (_ & c' & Hcb & E)%Preimage_Ok.
    apply content_preimage_inj in E as [<- Hv].
    assert (Ht : Credentials_Type (Credentials a) ≠ Credentials_Type (Credentials b)).
    { intros Ht. rewrite (proj2 Hc) in Hp; [done|]. by rewrite Hca, Hcb. }
    revert Hca Hcb Ht. unfold signed_content, address_bound. rewrite Ha, Hb. intros [= <-] Hcb.
    apply addressCredentials_Ok in Ha, Hb.
    destruct Ha as [[Ea _]|[[Ea _]|[Ea _]]], Hb as [[Eb _]|[[Eb _]|[Eb _]]];
      rewrite Ea, Eb in *; cbn in *; try discriminate Hcb; done.
Qed.
End verdict.

(** ** The node lists *)
Section node_lists.
Context `{SDK}.

(** The nodes compared are the entry's signature fields, in the order of the
    walk. *)
Lemma loopM_signatures {S : Type} (f : S → SorobanDelegateSignature → result (S * list diffNode)) ds :
  Forall (λ d, ∀ s i r, f s d = Ok r → map node_signature r.2 = map flat_sig (flatDelegate i d)) ds →
  ∀ s i out, loopM f s ds = Ok out →
  map node_signature out = map flat_sig (concat (imap_from flatDelegate i ds)).
Proof.
  induction 1 as [|d ds Hd _ IH]; intros s i out Hl; cbn in Hl |- *; [by injection Hl as <-|].
  apply bind_Ok in Hl as (r & Hr & (rest & Hrest & [= <-])%bind_Ok).
  rewrite !map_app. f_equal; eauto.
Qed.

Lemma diffDelegates_signatures ds : Forall (λ d, ∀ prefix depth seen i r,
  diffDelegate prefix depth seen d = Ok r →
  map node_signature r.2 = map flat_sig (flatDelegate i d)) ds.
Proof.
  apply delegates_nested_ind. intros a s n IH prefix depth seen i r Hd. cbn [diffDelegate] in Hd.
  apply bind_Ok in Hd as (adr & _ & (nested & Hn & [= <-])%bind_Ok).
  apply bind_Ok in Hn as ([] & _ & Hn). cbn [snd flatDelegate map node_signature flat_sig flat_under].
  f_equal. rewrite map_map. eapply loopM_signatures; [|exact Hn].
  eapply Forall_impl; [exact IH|]. cbn. eauto.
Qed.

Lemma diffNodes_signatures e ns :
  diffNodes e = Ok ns → map node_signature ns = map flat_sig (flatNodes e).
Proof.
  unfold diffNodes, flatNodes, entryDelegates, is_delegates.
  destruct (Z.eqb_spec (Credentials_Type (Credentials e)) CredentialsSourceAccount) as [Hs|_]; intros Hn.
  { injection Hn as <-. by rewrite addressCredentials_source. }
  apply bind_Ok in Hn as (a & -> & Hn). destruct (_ =? _)%Z; [|by injection Hn as <-].
  apply bind_Ok in Hn as (ds & Hds & [= <-]). cbn. f_equal.
  unfold diffNodesOf in Hds. apply bind_Ok in Hds as (_ & _ & Hds).
  eapply loopM_signatures; [|exact Hds].
  eapply Forall_impl; [apply diffDelegates_signatures|]. cbn. eauto.
Qed.

Lemma nodeMap_dom ns p : is_Some (nodeMap ns !! p) ↔ p ∈ map path ns.
Proof.
  induction ns as [|n ns IH] using rev_ind.
  { cbn. rewrite lookup_empty. split; [by intros [? ?]|by intros ?%not_elem_of_nil]. }
  unfold nodeMap in *. rewrite foldl_app, map_app, elem_of_app, <-IH. cbn.
  rewrite lookup_insert_is_Some, list_elem_of_singleton.
  destruct (decide (path n = p)); naive_solver.
Qed.

Lemma pathOrder_elem a b p :
  p ∈ pathOrder a b ↔ is_Some (nodeMap a !! p) ∨ is_Some (nodeMap b !! p).
Proof.
  unfold pathOrder. rewrite elem_of_app, !nodeMap_dom. split; [intros [?|Hp]; [by left|]|].
  - apply list_elem_of_fmap in Hp as (n & -> & [_ Hn]%list_elem_of_filter). right.
    by apply (list_elem_of_fmap_2 path).
  - intros [?|Hp]; [by left|]. destruct (decide (is_Some (nodeMap a !! p))) as [Ha|Ha].
    + left. by apply nodeMap_dom.
    + right. apply list_elem_of_fmap in Hp as (n & -> & Hn). apply (list_elem_of_fmap_2 path).
      apply list_elem_of_filter. split; [|done]. by apply eq_None_not_Some.
Qed.

Context `{!SDKLaws}.

(** One path: its carried-over mark and its signature change. *)
Lemma diffPath_spec (l r : gmap string ScVal) p row :
  (is_Some (l !! p) ∨ is_Some (r !! p)) → diffPath l r p = Ok row →
  (∀ q, q ∈ row.2 ↔ q = p ∧ ∃ s, l !! p = Some s ∧ r !! p = Some s ∧ isSigned s = true) ∧
  (existsb isSignatureChange row.1 = true ↔ ∃ s t, l !! p = Some s ∧ r !! p = Some t ∧ s ≠ t).
Proof.
  unfold diffPath. intros Hp Hd.
  destruct (l !! p) as [s|], (r !! p) as [t|]; cbn in Hd.
  2,3: injection Hd as <-; cbn; split;
    [intros q; split; [by intros ?%not_elem_of_nil|naive_solver]|];
    destruct (String.eqb p topLevelNodePath); cbn; naive_solver.
  2: destruct Hp as [[? ?]|[? ?]]; done.
  apply bind_Ok in Hd as (same & Hsame & [= <-]). apply xdrEqual_Ok in Hsame.
  destruct same; cbn.
  - destruct Hsame as [Hsame _]. specialize (Hsame eq_refl) as ->. split; [|naive_solver].
    intros q. destruct (isSigned t) eqn:Ht.
    + rewrite list_elem_of_singleton. naive_solver.
    + rewrite elem_of_nil. split; [done|]. intros (_ & s & [= <-] & _ & ?). congruence.
  - assert (s ≠ t) by naive_solver. split; [intros q; rewrite elem_of_nil; naive_solver|naive_solver].
Qed.

(** The lists are right: the nodes compared are exactly the signature
    fields of the two entries; a node is reported stale exactly when the
    payload is reported changed and it carries one signature, not a
    placeholder, on both sides; signatures are reported changed exactly when a
    node of both entries carries two different values; and the changes come
    sorted, those inside the payload first. *)
Theorem DiffEntries_signatures a b d na nb :
  DiffEntries a b = Ok d → diffNodes a = Ok na → diffNodes b = Ok nb →
  map node_signature na = map flat_sig (flatNodes a) ∧
  map node_signature nb = map flat_sig (flatNodes b) ∧
  (∀ p, p ∈ StaleSignatures d ↔ PayloadChanged d = true ∧
     ∃ s, nodeMap na !! p = Some s ∧ nodeMap nb !! p = Some s ∧ isSigned s = true) ∧
  (SignaturesChanged d = true ↔
     ∃ p s t, nodeMap na !! p = Some s ∧ nodeMap nb !! p = Some t ∧ s ≠ t) ∧
  StronglySorted (key_le changeKey) (Changes d).
Proof.
  intros Hd Hna Hnb. split; [by eapply diffNodes_signatures|]. split; [by eapply diffNodes_signatures|].
  apply DiffEntries_inv in Hd
    as (? & ? & ? & ? & na' & nb' & sets & _ & _ & _ & _ & _ & Ha & Hb & Hsets & _ & -> & -> & ->).
  rewrite Ha in Hna. injection Hna as <-. rewrite Hb in Hnb. injection Hnb as <-.
  unfold diffNodeSets in Hsets. apply bind_Ok in Hsets as (rows & Hrows & [= <-]).
  apply imapM_from_Forall2 in Hrows. cbn [set_carriedOver set_signaturesChanged set_changes].
  assert (Hrow : ∀ p, p ∈ pathOrder na' nb' → ∃ row, row ∈ rows ∧
    diffPath (nodeMap na') (nodeMap nb') p = Ok row).
  { intros p (i & Hi)%list_elem_of_lookup. destruct (Forall2_lookup_l _ _ _ _ _ Hrows Hi) as (row & Hr & ?).
    exists row. split; [by eapply list_elem_of_lookup_2|done]. }
  assert (Hpath : ∀ row, row ∈ rows → ∃ p, p ∈ pathOrder na' nb' ∧
    diffPath (nodeMap na') (nodeMap nb') p = Ok row).
  { intros row (i & Hi)%list_elem_of_lookup. destruct (Forall2_lookup_r _ _ _ _ _ Hrows Hi) as (p & Hp & ?).
    exists p. split; [by eapply list_elem_of_lookup_2|done]. }
  split_and!; [| |apply sort_by_sorted].
  - intros p. destruct (PayloadChanged d); [|rewrite elem_of_nil; naive_solver].
    rewrite elem_of_concat. split.
    + intros (l & Hp & (row & -> & Hr)%list_elem_of_fmap). split; [done|].
      destruct (Hpath row Hr) as (q & Hq%pathOrder_elem & Hd).
      apply (diffPath_spec _ _ _ _ Hq Hd) in Hp as [-> ?]. done.
    + intros (_ & s & Hs & Hrest). assert (Hp : p ∈ pathOrder na' nb') by (apply pathOrder_elem; eauto).
      destruct (Hrow p Hp) as (row & Hr & Hd). exists row.2. split; [|by apply (list_elem_of_fmap_2 snd)].
      apply pathOrder_elem in Hp. apply (diffPath_spec _ _ _ _ Hp Hd). eauto.
  - rewrite existsb_In. split.
    + intros (c & (l & Hc & (row & -> & Hr)%list_elem_of_fmap)%elem_of_concat & Hk).
      destruct (Hpath row Hr) as (q & Hq%pathOrder_elem & Hd). exists q.
      apply (diffPath_spec _ _ _ _ Hq Hd). apply existsb_In. eauto.
    + intros (p & s & t & Hs & Ht & Hne).
      assert (Hp : p ∈ pathOrder na' nb') by (apply pathOrder_elem; eauto).
      destruct (Hrow p Hp) as (row & Hr & Hd). apply pathOrder_elem in Hp.
      assert (Hc : existsb isSignatureChange row.1 = true)
        by (apply (diffPath_spec _ _ _ _ Hp Hd); eauto).
      apply existsb_In in Hc as (c & Hc & Hk).
      exists c. split; [|done]. apply elem_of_concat. exists row.1.
      split; [done|]. by apply (list_elem_of_fmap_2 fst).
Qed.
End node_lists.

(** ** Two concrete entries *)
(** The tree example re-signed at its top level under a new expiration: the
    delegates' old signature is stale. *)
Definition ex_diff_before : SorobanAuthorizationEntry :=
  ex_with_delegates "a" 1000 ScvVoid
    [mkDelegateSignature (ex_account "b") (ex_account_signature (ex_key "b") []) []].
Definition ex_diff_after : SorobanAuthorizationEntry :=
  ex_with_delegates "a" 2000 (ex_account_signature (ex_key "a") [])
    [mkDelegateSignature (ex_account "b") (ex_account_signature (ex_key "b") []) []].
Definition ex_diff : EntryDiff :=
  match DiffEntries ex_diff_before ex_diff_after with
  | Ok d => d | Err _ => mkEntryDiff false false false [] [] "" "" end.
Definition ex_diff_nodes (e : SorobanAuthorizationEntry) : list diffNode :=
  match diffNodes e with Ok ns => ns | Err _ => [] end.
Definition ex_diff_path : string := "credentials.delegates[" +:+ ex_text "b" +:+ "]".

Example ex_diff_stale : StaleSignatures ex_diff = [ex_diff_path].
Proof. vm_compute. reflexivity. Qed.

Example ex_diff_summary : Diff_Summary ex_diff =
  "PAYLOAD CHANGED and 1 signature carried over unchanged: it is no longer valid".
Proof. vm_compute. reflexivity. Qed.

Lemma DiffEntries_signatures_witness :
  StaleSignatures ex_diff = [ex_diff_path] ∧
  (∀ p, p ∈ StaleSignatures ex_diff ↔ PayloadChanged ex_diff = true ∧
     ∃ s, nodeMap (ex_diff_nodes ex_diff_before) !! p = Some s ∧
       nodeMap (ex_diff_nodes ex_diff_after) !! p = Some s ∧ isSigned s = true).
Proof.
  split; [vm_compute; reflexivity|].
  apply (DiffEntries_signatures ex_diff_before ex_diff_after ex_diff (ex_diff_nodes ex_diff_before)
           (ex_diff_nodes ex_diff_after)); vm_compute; reflexivity.
Defined.

(** An entry wrapped with delegates: reported as a changed payload, although the
    preimages agree. *)
Definition ex_diff_wrapped : EntryDiff :=
  match DiffEntries (ex_v2 "a" 1000 ScvVoid) (ex_with_delegates "a" 1000 ScvVoid ex_tree) with
  | Ok d => d | Err _ => mkEntryDiff false false false [] [] "" "" end.

Lemma complete_example : complete ex_invocation.
Proof.
  constructor; [by eexists|]. repeat constructor. by eexists.
Qed.

Lemma DiffEntries_payload_witness :
  let a := ex_v2 "a" 1000 ScvVoid in let b := ex_with_delegates "a" 1000 ScvVoid ex_tree in
  PayloadChanged ex_diff_wrapped = true ∧
  (Identical ex_diff_wrapped = true ↔ a = b) ∧
  Preimage a 1000 ex_network = Ok ex_v2_preimage ∧ Preimage b 1000 ex_network = Ok ex_v2_preimage ∧
  Credentials_Type (Credentials a) ≠ Credentials_Type (Credentials b).
Proof.
  intros a b. split; [vm_compute; reflexivity|].
  assert (Ha : Preimage a 1000 ex_network = Ok ex_v2_preimage) by (vm_compute; reflexivity).
  assert (Hb : Preimage b 1000 ex_network = Ok ex_v2_preimage) by (vm_compute; reflexivity).
  destruct (DiffEntries_payload a b ex_diff_wrapped) as (Hid & _ & Hpay); [vm_compute; reflexivity|].
  destruct (Hpay (ex_credentials "a" 1000 ScvVoid) (ex_credentials "a" 1000 ScvVoid)
    eq_refl eq_refl) as (_ & _ & Hne); [cbn; eauto|cbn; eauto|exact complete_example..|].
  split; [exact Hid|]. split; [exact Ha|]. split; [exact Hb|].
  destruct (Hne ltac:(vm_compute; reflexivity) ex_network ex_network ex_v2_preimage Ha Hb) as (_ & _ & ?).
  assumption.
Defined.
