(* ===== verification/CredentialNodes.v ===== *)
(** * CredentialNodes: the public node iterator (credential_nodes.go)

    [CredentialNodes] is a push iterator: it calls the loop body once per node.
    The loop body is a function [body] on its own state that says whether to go
    on, and Go's range-over-func check is part of the model: a call of the body
    after it has stopped is a panic ([None]). *)
From Stdlib Require Import ZArith Lia Strings.Byte String.
From stdpp Require Import base list strings gmap pretty.
From S2P Require Import Prelude Errors Xdr ModelSDK Runtime Examples Address Limits Arm Preimage Nodes.

Open Scope string_scope. Open Scope nat_scope. Open Scope list_scope.

Record CredentialNode := mkCredentialNode {
  node_Address : string;
  node_Path : string;
  node_Signed : bool
}.

(** What the body is handed: a node, or an error. *)
Definition Item : Type := CredentialNode + error.

Section iterator.
Context `{SDK} {S : Type} (body : S → Item → S * bool).

(** The body's state and whether it still wants items. *)
Record IterState := mkIterState { user : S; live : bool }.

Definition yield (i : Item) (st : IterState) : option (bool * IterState) :=
  if live st then let '(s, more) := body (user st) i in Some (more, mkIterState s more)
  else None.

(** One array of [yieldDelegateNodes], with [nested] its recursive call. *)
Section level.
Variable nested :
  SorobanDelegateSignature → string → IterState → option (result unit * IterState).

Fixpoint yieldLevel (prefix : string) (seen : gmap string nat)
    (delegates : list SorobanDelegateSignature) (st : IterState)
    : option (result unit * IterState) :=
  match delegates with
  | [] => Some (Ok tt, st)
  | d :: rest =>
      match FormatAddress (delegate_Address d) with
      | Err e => Some (Err e, st)
      | Ok address =>
          let path0 := prefix +:+ "[" +:+ address +:+ "]" in
          let n := Datatypes.S (default 0 (seen !! path0)) in
          let path := if Nat.ltb 1 n then path0 +:+ "#" +:+ pretty n else path0 in
          '(more, st) ← yield (inl (mkCredentialNode address path
                                      (isSigned (delegate_Signature d)))) st;
          if more : bool then
            '(r, st) ← nested d (path +:+ ".nested") st;
            match r with
            | Err e => Some (Err e, st)
            | Ok _ => yieldLevel prefix (<[path0 := n]> seen) rest st
            end
          else Some (Ok tt, st)
      end
  end.
End level.

Fixpoint yieldNested (depth : Z) (d : SorobanDelegateSignature) (prefix : string)
    (st : IterState) : option (result unit * IterState) :=
  match d with
  | mkDelegateSignature _ _ [] => Some (Ok tt, st)
  | mkDelegateSignature _ _ nested =>
      match checkTraversalDepth (depth + 1) with
      | Err e => Some (Err e, st)
      | Ok _ => yieldLevel (yieldNested (depth + 1)) prefix ∅ nested st
      end
  end.

Definition yieldDelegateNodes (delegates : list SorobanDelegateSignature) (prefix : string)
    (depth : Z) (st : IterState) : option (result unit * IterState) :=
  match checkTraversalDepth depth with
  | Err e => Some (Err e, st)
  | Ok _ => yieldLevel (yieldNested depth) prefix ∅ delegates st
  end.

(** The range loop over [CredentialNodes entry], from the body's initial
    state to its final one. *)
Definition CredentialNodes (entry : SorobanAuthorizationEntry) (s : S) : option IterState :=
  let st := mkIterState s true in
  let fail e st := '(_, st) ← yield (inr (EWrap "soroauth: credential nodes" e)) st; Some st in
  if (Credentials_Type (Credentials entry) =? CredentialsSourceAccount)%Z then Some st
  else
    match addressCredentials (Credentials entry) with
    | Err e => fail e st
    | Ok credentials =>
        match FormatAddress (Address credentials) with
        | Err e => fail e st
        | Ok address =>
            '(more, st) ← yield (inl (mkCredentialNode address "credentials"
                                        (isSigned (Signature credentials)))) st;
            if negb more then Some st
            else if is_delegates entry then
              '(r, st) ← yieldDelegateNodes (entryDelegates entry) "credentials.delegates" 1 st;
              match r with Err e => fail e st | Ok _ => Some st end
            else Some st
        end
    end.
End iterator.

(** ** Consumers *)
(** Collects every item. *)
Definition collect (acc : list Item) (i : Item) : list Item * bool := (acc ++ [i], true).

(** Stops at the [n]th item. *)
Definition stop_after (n : nat) (k : nat) (i : Item) : nat * bool := (Datatypes.S k, Nat.ltb (Datatypes.S k) n).

Section collect_lemmas.
Context `{SDK}.

(** An item that shows a node of the abstract view. *)
Definition shows (i : Item) (n : FlatNode) : Prop :=
  ∃ c, i = inl c ∧ FormatAddress (flat_address n) = Ok (node_Address c) ∧
       node_Signed c = isSigned (flat_sig n).

Definition formattable (ds : list SorobanDelegateSignature) : Prop :=
  Forall (λ n, is_ok (FormatAddress (flat_address n)) = true) (flatDelegates ds).

Lemma shows_under i items ns : Forall2 shows items ns → Forall2 shows items (map (flat_under i) ns).
Proof.
  intros Hf. apply Forall2_fmap_r. eapply Forall2_impl; [exact Hf|]. intros ? n Hs. exact Hs.
Qed.

(** What a walk below one array adds to the collected items. *)
Definition adds (st : IterState (S:=list Item)) (ns : list FlatNode)
    (o : option (result unit * IterState (S:=list Item))) : Prop :=
  ∃ items, o = Some (Ok tt, mkIterState (user st ++ items) true) ∧ Forall2 shows items ns.

Lemma yieldLevel_collect nested prefix k ds seen st :
  live st = true →
  Forall (λ d, is_ok (FormatAddress (delegate_Address d)) = true) ds →
  Forall (λ d, ∀ p st, live st = true →
    adds st (flatDelegates (NestedDelegates d)) (nested d p st)) ds →
  adds st (concat (imap_from flatDelegate k ds)) (yieldLevel collect nested prefix seen ds st).
Proof.
  intros Hl Hfmt Hn. revert k seen st Hl.
  induction ds as [|d ds IH]; intros k seen st Hl; cbn [yieldLevel imap_from concat].
  { exists []. rewrite app_nil_r. split; [by destruct st; cbn in *; subst|constructor]. }
  inversion Hfmt as [|? ? Hd Hfmt']; inversion Hn as [|? ? Hnd Hn']; subst.
  destruct (is_ok_Ok _ Hd) as [s Hs]. rewrite Hs. unfold yield. rewrite Hl. cbn [mbind option_bind collect].
  match goal with |- context [nested d ?p ?st1] =>
    destruct (Hnd p st1 eq_refl) as (items1 & -> & Hi1) end.
  cbn [mbind option_bind user].
  match goal with |- context [yieldLevel _ _ _ ?seen1 ds ?st1] =>
    destruct (IH Hfmt' Hn' (Datatypes.S k) seen1 st1 eq_refl) as (items2 & -> & Hi2) end.
  cbn [user]. eexists. split.
  { rewrite <-!app_assoc. reflexivity. }
  rewrite app_assoc. apply Forall2_app; [|exact Hi2].
  destruct d as [a sg n]. cbn [flatDelegate map NestedDelegates delegate_Address] in *.
  constructor; [|by apply shows_under]. eexists. split; [reflexivity|]. by split.
Qed.

Lemma formattable_elements k ds :
  Forall (λ n, is_ok (FormatAddress (flat_address n)) = true)
    (concat (imap_from flatDelegate k ds)) →
  Forall (λ d, is_ok (FormatAddress (delegate_Address d)) = true) ds ∧
  Forall (λ d, formattable (NestedDelegates d)) ds.
Proof.
  revert k. induction ds as [|[a s n] ds IH]; intros k; cbn [imap_from concat]; [done|].
  intros [Hd Hds]%Forall_app. destruct (IH _ Hds) as [? ?]. cbn [flatDelegate map] in Hd.
  inversion Hd as [|? ? Ha Hn]; subst. split; constructor; try done.
  unfold formattable. cbn [NestedDelegates]. apply Forall_fmap in Hn.
  eapply Forall_impl; [exact Hn|]. by intros m Hm.
Qed.

Lemma yieldNested_collect ds :
  Forall (λ d, ∀ depth p st, live st = true → formattable (NestedDelegates d) →
    (depth + Z.of_nat (delegate_depth d) <= 65)%Z →
    adds st (flatDelegates (NestedDelegates d)) (yieldNested collect depth d p st)) ds.
Proof.
  apply delegates_nested_ind. intros a s n IH depth p st Hl Hf Hd.
  cbn [NestedDelegates] in *. destruct n as [|d n].
  { exists []. cbn. rewrite app_nil_r. split; [by destruct st; cbn in *; subst|constructor]. }
  change (yieldNested collect depth (mkDelegateSignature a s (d :: n)) p st) with
    (match checkTraversalDepth (depth + 1) with
     | Err e => Some (Err e, st)
     | Ok _ => yieldLevel collect (yieldNested collect (depth + 1)) p ∅ (d :: n) st
     end).
  change (delegate_depth (mkDelegateSignature a s (d :: n)))
    with (Datatypes.S (delegates_depth (d :: n))) in Hd.
  assert (Hpos : 1 <= delegates_depth (d :: n)) by (destruct d; cbn; lia).
  rewrite (proj2 (checkTraversalDepth_Ok (depth + 1) tt)) by lia.
  destruct (formattable_elements _ _ Hf) as [Ha Hn].
  apply yieldLevel_collect; [done|done|]. apply Forall_forall. intros d' Hd' p' st' Hl'.
  rewrite Forall_forall in IH, Hn. apply IH; [done|done|auto|].
  assert (delegate_depth d' <= delegates_depth (d :: n)).
  { unfold delegates_depth. apply max_list_elem_of_le, list_elem_of_fmap. eauto. }
  lia.
Qed.

(** A loop that takes every node sees exactly the entry's
    signature-bearing nodes, in order, each with its address in strkey form
    and whether it is signed, and no error: for an entry whose addresses can
    be written and whose delegate tree is at most 64 levels deep. *)
Theorem CredentialNodes_collect e a :
  addressCredentials (Credentials e) = Ok a →
  is_ok (FormatAddress (Address a)) = true → formattable (entryDelegates e) →
  (delegates_depth (entryDelegates e) <= 64)%nat →
  ∃ items, CredentialNodes collect e [] = Some (mkIterState items true) ∧
           Forall2 shows items (flatNodes e).
Proof.
  intros Ha Hfa Hf Hd. unfold CredentialNodes, flatNodes.
  destruct (Z.eqb_spec (Credentials_Type (Credentials e)) CredentialsSourceAccount) as [E|_].
  { by rewrite (addressCredentials_source _ E) in Ha. }
  rewrite Ha. destruct (is_ok_Ok _ Hfa) as [s Hs]. rewrite Hs.
  unfold yield. cbn [live collect mbind option_bind negb user app].
  set (top := inl _). assert (Htop : shows top (mkFlat (Address a) (Signature a) [])).
  { eexists. split; [reflexivity|]. by split. }
  destruct (is_delegates e) eqn:Hdel.
  - unfold yieldDelegateNodes. rewrite (proj2 (checkTraversalDepth_Ok 1 tt)) by lia.
    destruct (formattable_elements _ _ Hf) as [Hfd Hfn].
    edestruct (yieldLevel_collect (yieldNested collect 1) "credentials.delegates" 0
      (entryDelegates e) ∅ (mkIterState [top] true) eq_refl Hfd) as (items & Hy & Hi).
    { pose proof (yieldNested_collect (entryDelegates e)) as Hy.
      apply Forall_forall. intros d' Hd' p st Hl. rewrite Forall_forall in Hy, Hfn.
      apply Hy; [done|done|auto|].
      assert (delegate_depth d' <= delegates_depth (entryDelegates e)).
      { unfold delegates_depth. apply max_list_elem_of_le, list_elem_of_fmap. eauto. }
      lia. }
    unfold Item in *. rewrite Hy. cbn [mbind option_bind user]. eexists. split; [reflexivity|]. by constructor.
  - eexists. split; [reflexivity|]. unfold entryDelegates. rewrite Hdel. by repeat constructor.
Qed.

(** A loop may stop at any node of an entry whose delegates do not
    themselves delegate: the iterator never calls the body again, for any
    body and any state. *)
Theorem CredentialNodes_break_flat {S} (body : S → Item → S * bool) e s :
  Forall (λ d, NestedDelegates d = []) (entryDelegates e) →
  ∃ st, CredentialNodes body e s = Some st.
Proof.
  intros Hn. unfold CredentialNodes, yield.
  destruct (_ =? _)%Z; [by eexists|].
  destruct (addressCredentials _) as [a|err]; cbn [live user].
  2: { destruct (body s _) as [s1 m1]. by eexists. }
  destruct (FormatAddress (Address a)) as [adr|err].
  2: { destruct (body s _) as [s1 m1]. by eexists. }
  destruct (body s _) as [s1 m1]. cbn. destruct m1; cbn; [|by eexists].
  destruct (is_delegates e); [|by eexists]. unfold yieldDelegateNodes. cbn.
  assert (Hlevel : ∀ ds, Forall (λ d, NestedDelegates d = []) ds → ∀ p seen st, live st = true →
    ∃ r st', yieldLevel body (yieldNested body 1) p seen ds st = Some (r, st') ∧
      (is_ok r = false → live st' = true)).
  { clear. induction ds as [|[ad sg n] ds IH]; intros Hds p seen st Hl; cbn [yieldLevel].
    { exists (Ok tt), st. by split. }
    inversion Hds as [|? ? Hd Hds']; subst. cbn [NestedDelegates] in Hd. subst n.
    cbn [delegate_Address delegate_Signature].
    destruct (FormatAddress ad) as [adr|err]; [|by exists (Err err), st].
    unfold yield. rewrite Hl. destruct (body (user st) _) as [s2 m2]. cbn [mbind option_bind].
    destruct m2; [|by exists (Ok tt), (mkIterState s2 false)].
    cbn [yieldNested mbind option_bind]. by apply IH. }
  destruct (Hlevel _ Hn "credentials.delegates" ∅ (mkIterState s1 true) eq_refl)
    as (r & st' & Hr & Hl). unfold yieldDelegateNodes in *.
  rewrite Hr. cbn. destruct r as [[]|err]; [by eexists|].
  rewrite (Hl eq_refl). destruct (body (user st') _). by eexists.
Qed.
End collect_lemmas.

(** ** The theorems at concrete entries *)
Lemma CredentialNodes_collect_witness : ∃ items,
  CredentialNodes collect ex_delegates [] = Some (mkIterState items true) ∧
  Forall2 shows items (flatNodes ex_delegates).
Proof.
  apply (CredentialNodes_collect _ (ex_credentials "a" 0 ScvVoid)).
  - reflexivity.
  - reflexivity.
  - unfold formattable. repeat constructor.
  - vm_compute. lia.
Defined.

Lemma CredentialNodes_break_flat_witness : ∃ st,
  CredentialNodes (stop_after 2)
    (ex_with_delegates "a" 0 ScvVoid [mkDelegateSignature (ex_account "b") ScvVoid []]) 0 = Some st.
Proof. apply CredentialNodes_break_flat. by repeat constructor. Defined.

(** The restriction to flat entries is needed: in [ex_delegates] the third
    node is nested below [b], and [b] has a sibling.  A loop that stops there
    is called once more, which Go answers with a panic. *)
Lemma CredentialNodes_break_nested : CredentialNodes (stop_after 3) ex_delegates 0 = None.
Proof. vm_compute. reflexivity. Qed.
