(* ===== verification/Delegates.v ===== *)
(** * Delegates: CAP-71 delegate trees (delegates.go)

    Building the delegates arm from descriptors ([WithDelegates]) and checking
    an existing one ([ValidateDelegateOrder]).  [DelegatesOrdered] is CAP-71-01's
    ordering rule as a predicate: at every level, the addresses' encodings
    strictly ascend.  [built_from] relates a built node to its descriptor. *)
From Stdlib Require Import ZArith Lia Strings.Byte String.
From stdpp Require Import base list strings pretty sorting.
From S2P Require Import Prelude Errors Xdr ModelSDK Runtime Examples Address Limits Arm Preimage Nodes.

Open Scope string_scope. Open Scope nat_scope. Open Scope list_scope.

Inductive Delegate :=
| mkDelegate (Address : string) (Signature : option ScVal) (Nested : list Delegate).

Definition Delegate_Address (d : Delegate) : string := let '(mkDelegate a _ _) := d in a.
Definition Delegate_Signature (d : Delegate) : option ScVal := let '(mkDelegate _ s _) := d in s.
Definition Delegate_Nested (d : Delegate) : list Delegate := let '(mkDelegate _ _ n) := d in n.

Section Delegate_ind.
Variable P : Delegate → Prop.
Hypothesis Hnode : ∀ a s n, Forall P n → P (mkDelegate a s n).
Lemma Delegate_nested_ind : ∀ d, P d.
Proof.
  fix IH 1. intros [a s n]. apply Hnode.
  induction n as [|d n IHn]; constructor; [apply IH|exact IHn].
Qed.
End Delegate_ind.

(** A built node with the encoding it sorts on. *)
Record delegateNode := mkDelegateNode {
  node : SorobanDelegateSignature;
  node_encoded : bytes
}.

Section delegates.
Context `{SDK}.

Definition formatOrUnformattable (a : ScAddress) : string :=
  match FormatAddress a with Ok s => s | Err _ => "<unformattable address>" end.

(** Sorts the array in place; the sorted array is returned. *)
Definition sortDelegateLevel (nodes : list delegateNode) : result (list delegateNode) :=
  let nodes := sort_by node_encoded nodes in
  match adjacentBy node_encoded nodes with
  | Some d =>
      let address := formatOrUnformattable (delegate_Address (node d)) in
      Err (EWrap address (DuplicateDelegateError address))
  | None => Ok nodes
  end.

Fixpoint buildDelegate (depth : Z) (d : Delegate) : result delegateNode :=
  match d with
  | mkDelegate text sig nested =>
      address ← ParseAddress text;
      enc ← addressBytes address;
      let signature := default ScvVoid sig in
      nested' ← (_ ← checkTraversalDepth (depth + 1);
                 match nested with
                 | [] => Ok []
                 | _ =>
                     built ← rmapM (buildDelegate (depth + 1)) nested;
                     sorted ← sortDelegateLevel built;
                     Ok (map node sorted)
                 end);
      Ok (mkDelegateNode (mkDelegateSignature address signature nested') enc)
  end.

Definition buildDelegateNodes (delegates : list Delegate) (depth : Z)
    : result (list SorobanDelegateSignature) :=
  _ ← checkTraversalDepth depth;
  match delegates with
  | [] => Ok []
  | _ =>
      built ← rmapM (buildDelegate depth) delegates;
      sorted ← sortDelegateLevel built;
      Ok (map node sorted)
  end.

Lemma buildDelegate_unfold depth text sig nested :
  buildDelegate depth (mkDelegate text sig nested) =
  (address ← ParseAddress text;
   enc ← addressBytes address;
   nested' ← buildDelegateNodes nested (depth + 1);
   Ok (mkDelegateNode (mkDelegateSignature address (default ScvVoid sig) nested') enc)).
Proof. reflexivity. Qed.

Definition WithDelegates (entry : SorobanAuthorizationEntry) (validUntilLedger : Z)
    (delegates : list Delegate) (topSignature : option ScVal)
    : result SorobanAuthorizationEntry :=
  let t := Credentials_Type (Credentials entry) in
  _ ← (if (t =? CredentialsAddress)%Z || (t =? CredentialsAddressV2)%Z then Ok tt
       else if (t =? CredentialsSourceAccount)%Z then
         Err (EWrap "soroauth: with delegates: source-account credentials carry no address to wrap"
                (ESentinel ErrUnsupportedCredentials))
       else if (t =? CredentialsAddressWithDelegates)%Z then
         Err (EWrap "soroauth: with delegates: the entry already uses the delegates arm"
                (ESentinel ErrUnsupportedCredentials))
       else Err (EWrap "soroauth: with delegates" (ESentinel ErrUnsupportedCredentials)));
  credentials ← wrap "soroauth: with delegates" (addressCredentials (Credentials entry));
  _ ← refuse (validUntilLedger =? 0)%Z
        (EWrap "soroauth: with delegates: expiration ledger is zero"
           (ESentinel ErrInvalidExpiration));
  _ ← refuse (isSigned (Signature credentials))
        (EWrap ("soroauth: with delegates: wrapping changes the signing payload, " +:+
                "invalidating the existing signature") (ESentinel ErrAlreadySigned));
  nodes ← wrap "soroauth: with delegates" (buildDelegateNodes delegates 1);
  let signature := default ScvVoid topSignature in
  let wrapped := mkEntry
    (mkCredentials CredentialsAddressWithDelegates None None
       (Some (mkWithDelegates
          (mkAddressCredentials (Address credentials) (Nonce credentials)
             validUntilLedger signature) nodes)))
    (RootInvocation entry) in
  wrap "soroauth: with delegates" (Copy wrapped).

(** One array of [validateDelegateLevel], with [nested] its recursive call on
    each element. *)
Section validate_loop.
Variable nested : SorobanDelegateSignature → result unit.
Fixpoint validateLoop (i : nat) (previous : option bytes)
    (nodes : list SorobanDelegateSignature) : result unit :=
  match nodes with
  | [] => Ok tt
  | n :: rest =>
      current ← addressBytes (delegate_Address n);
      _ ← match previous with
          | None => Ok tt
          | Some p =>
              match bytes_Compare p current with
              | Eq =>
                  let address := formatOrUnformattable (delegate_Address n) in
                  Err (EWrap address (DuplicateDelegateError address))
              | Gt =>
                  Err (EText ("delegates are not in ascending address order at index " +:+
                    pretty i +:+ " (" +:+ formatOrUnformattable (delegate_Address n) +:+ ")"))
              | Lt => Ok tt
              end
          end;
      _ ← nested n;
      validateLoop (S i) (Some current) rest
  end.
End validate_loop.

Fixpoint validateDelegate (depth : Z) (d : SorobanDelegateSignature) : result unit :=
  match d with
  | mkDelegateSignature _ _ nested =>
      _ ← checkTraversalDepth (depth + 1);
      validateLoop (validateDelegate (depth + 1)) 0 None nested
  end.

Definition validateDelegateLevel (nodes : list SorobanDelegateSignature) (depth : Z)
    : result unit :=
  _ ← checkTraversalDepth depth;
  validateLoop (validateDelegate depth) 0 None nodes.

Definition ValidateDelegateOrder (entry : SorobanAuthorizationEntry) : result unit :=
  _ ← refuse (negb (Credentials_Type (Credentials entry) =? CredentialsAddressWithDelegates)%Z)
        (EWrap "soroauth: validate delegate order" (ESentinel ErrUnsupportedCredentials));
  match Credentials_AddressWithDelegates (Credentials entry) with
  | None => Err (EText ("soroauth: validate delegate order: " +:+
                        "address_with_delegates credentials arm is empty"))
  | Some d =>
      wrap "soroauth: validate delegate order" (validateDelegateLevel (Delegates d) 1)
  end.

(** ** Specification *)
Inductive DelegatesOrdered : list SorobanDelegateSignature → Prop :=
| delegates_ordered ds encs :
    Forall2 (λ d e, addressBytes (delegate_Address d) = Ok e) ds encs →
    StronglySorted (λ a b, bytes_lt a b = true) encs →
    Forall (λ d, DelegatesOrdered (NestedDelegates d)) ds →
    DelegatesOrdered ds.

(** A built node carries its descriptor's address, its signature or Void, and
    its descriptor's nested delegates in some order. *)
Inductive built_from : Delegate → SorobanDelegateSignature → Prop :=
| built_node text sig nested a ns ms :
    ParseAddress text = Ok a →
    Forall2 built_from nested ms → ns ≡ₚ ms →
    built_from (mkDelegate text sig nested)
      (mkDelegateSignature a (default ScvVoid sig) ns).

(** ** Lemmas: validation *)
Lemma validateLoop_Ok nested i prev ds :
  validateLoop nested i prev ds = Ok tt ↔
  (∃ encs, Forall2 (λ d e, addressBytes (delegate_Address d) = Ok e) ds encs ∧
     StronglySorted (λ a b, bytes_lt a b = true) (option_list prev ++ encs)) ∧
  Forall (λ d, nested d = Ok tt) ds.
Proof.
  revert i prev. induction ds as [|d ds IH]; intros i prev.
  { cbn. split; [|done]. intros _. split; [|done]. exists []. split; [done|].
    rewrite app_nil_r. destruct prev; repeat constructor. }
  cbn [validateLoop]. split.
  - intros Hv. inv_ok. apply IH in Hv as [(encs & He & Hs) Hn].
    split; [|by constructor]. exists (x :: encs). split; [by constructor|].
    destruct prev as [p|]; [|exact Hs]. cbn in *. constructor; [exact Hs|].
    destruct (bytes_Compare p x) eqn:E; try done.
    apply bytes_lt_spec in E. constructor; [done|].
    inversion Hs as [|? ? _ Hf]; subst. eapply Forall_impl; [exact Hf|].
    intros y Hy. by eapply bytes_lt_trans.
  - intros [(encs & He & Hs) Hn]. inversion He as [|? x ? encs' Hx He']; subst.
    inversion Hn as [|? ? Hd Hn']; subst. rewrite Hx. cbn.
    assert (Hp : (match prev with
                  | Some p => bytes_Compare p x = Lt | None => True end)).
    { destruct prev as [p|]; [|done]. cbn in Hs. inversion Hs as [|? ? _ Hf]; subst.
      inversion Hf; subst. by apply bytes_lt_spec. }
    destruct prev as [p|]; [rewrite Hp|]; cbn; rewrite Hd; cbn;
      apply IH; (split; [exists encs'; split; [done|]|done]); cbn in *.
    + by inversion Hs.
    + exact Hs.
Qed.

Lemma validateDelegate_Ok ds :
  Forall (λ d, ∀ depth, validateDelegate depth d = Ok tt ↔
    DelegatesOrdered (NestedDelegates d) ∧
    (depth + Z.of_nat (delegate_depth d) <= MaxDecodeDepth)%Z) ds.
Proof.
  apply delegates_nested_ind. intros a s n IH depth. cbn [validateDelegate NestedDelegates].
  change (delegate_depth (mkDelegateSignature a s n)) with (S (delegates_depth n)).
  rewrite bind_Ok. split.
  - intros ([] & Hc & Hv). apply checkTraversalDepth_Ok in Hc.
    apply validateLoop_Ok in Hv as [(encs & He & Hs) Hn]. rewrite Forall_forall in IH, Hn.
    split.
    + econstructor; [done|done|]. apply Forall_forall. intros d Hd.
      by destruct (proj1 (IH d Hd _) (Hn d Hd)).
    + assert (Forall (λ d, (depth + 1 + Z.of_nat (delegate_depth d) <= MaxDecodeDepth)%Z) n)
        as Hf by (apply Forall_forall; intros d Hd; apply (IH d Hd); auto).
      clear -Hf Hc. unfold delegates_depth, MaxDecodeDepth in *.
      induction Hf; cbn in *; lia.
  - intros [Ho Hd]. inversion Ho as [? encs He Hs Hn]; subst.
    exists tt. split; [apply checkTraversalDepth_Ok; unfold MaxDecodeDepth in *; lia|].
    apply validateLoop_Ok. split; [by exists encs|]. rewrite Forall_forall in IH, Hn |- *.
    intros d Hin. apply IH; [done|]. split; [auto|].
    assert (delegate_depth d <= delegates_depth n).
    { unfold delegates_depth. apply max_list_elem_of_le, list_elem_of_fmap. eauto. }
    lia.
Qed.

Lemma validateDelegateLevel_Ok ds depth :
  validateDelegateLevel ds depth = Ok tt ↔
  DelegatesOrdered ds ∧ (depth + Z.of_nat (delegates_depth ds) <= MaxDecodeDepth)%Z.
Proof.
  pose proof (validateDelegate_Ok [mkDelegateSignature (ScAddressTypeUnknown 0) ScvVoid ds])
    as Hf. inversion Hf as [|? ? Hd _]; subst. specialize (Hd (depth - 1)%Z).
  cbn [validateDelegate NestedDelegates] in Hd.
  replace (depth - 1 + 1)%Z with depth in Hd by lia. unfold validateDelegateLevel.
  rewrite Hd. change (delegate_depth _) with (S (delegates_depth ds)).
  by replace (depth - 1 + Z.of_nat (S (delegates_depth ds)))%Z
    with (depth + Z.of_nat (delegates_depth ds))%Z by lia.
Qed.

(** ** Lemmas: building *)
Lemma sortDelegateLevel_Ok l l' :
  sortDelegateLevel l = Ok l' →
  l' ≡ₚ l ∧ StronglySorted (key_lt node_encoded) l'.
Proof.
  unfold sortDelegateLevel. destruct (adjacentBy _) eqn:E; [done|].
  intros [= <-]. split; [apply sort_by_perm|].
  apply adjacentBy_None; [apply sort_by_sorted|done].
Qed.

(** A level is refused exactly when two of its addresses encode alike. *)
Lemma sortDelegateLevel_spec l :
  (∃ l', sortDelegateLevel l = Ok l') ↔ NoDup (node_encoded <$> l).
Proof.
  split.
  - intros (l' & [Hp Hs]%sortDelegateLevel_Ok). rewrite <-Hp.
    by apply sorted_strict_nodup.
  - intros Hnd. unfold sortDelegateLevel.
    rewrite (proj2 (adjacentBy_None _ _ (sort_by_sorted node_encoded l))); [eauto|].
    apply sorted_nodup_strict; [apply sort_by_sorted|]. by rewrite sort_by_perm.
Qed.

Definition built_ok (n : delegateNode) : Prop :=
  addressBytes (delegate_Address (node n)) = Ok (node_encoded n) ∧
  DelegatesOrdered (NestedDelegates (node n)).

Lemma sorted_level_ordered l :
  Forall built_ok l → StronglySorted (key_lt node_encoded) l →
  DelegatesOrdered (map node l).
Proof.
  intros Hb Hs. apply (delegates_ordered _ (node_encoded <$> l)).
  - induction Hb as [|n l [? _] _ IH]; cbn; constructor; [done|].
    apply IH. by inversion Hs.
  - clear Hb. induction Hs as [|n l _ IH Hf]; cbn; constructor; [done|].
    apply Forall_fmap. exact Hf.
  - apply Forall_fmap. eapply Forall_impl; [exact Hb|]. by intros n [_ ?].
Qed.

Lemma built_level depth ds built :
  Forall (λ d, ∀ n, buildDelegate depth d = Ok n → built_ok n ∧ built_from d (node n)) ds →
  rmapM (buildDelegate depth) ds = Ok built →
  Forall built_ok built ∧ Forall2 built_from ds (map node built).
Proof.
  rewrite imapM_from_Forall2. intros Hd Hb. induction Hb as [|d n ds ns Hn _ IH]; cbn.
  - done.
  - inversion Hd as [|? ? Hd1 Hd2]; subst. destruct (IH Hd2) as [? ?].
    destruct (Hd1 n Hn) as [? ?]. split; by constructor.
Qed.

Lemma built_nodes depth ds ns :
  Forall (λ d, ∀ n, buildDelegate depth d = Ok n → built_ok n ∧ built_from d (node n)) ds →
  buildDelegateNodes ds depth = Ok ns →
  DelegatesOrdered ns ∧ ∃ ms, Forall2 built_from ds ms ∧ ns ≡ₚ ms.
Proof.
  intros Hd. unfold buildDelegateNodes. intros Hb. inv_ok. destruct ds as [|d ds].
  - injection Hb as <-. split; [apply (delegates_ordered _ []); constructor|].
    exists []. by split; constructor.
  - inv_ok. apply built_level in Hx0 as [Hok Hf]; [|done].
    apply sortDelegateLevel_Ok in Hx1 as [Hp Hs]. split.
    + apply sorted_level_ordered; [by rewrite Hp|done].
    + eexists. split; [exact Hf|]. by apply fmap_Permutation.
Qed.

Lemma buildDelegate_Ok :
  ∀ d depth n, buildDelegate depth d = Ok n → built_ok n ∧ built_from d (node n).
Proof.
  apply (Delegate_nested_ind (λ d, ∀ depth n, buildDelegate depth d = Ok n → _)).
  intros text sig nested IH depth n. rewrite buildDelegate_unfold. intros Hb. inv_ok.
  apply built_nodes in Hx1 as [Ho (ms & Hf & Hp)].
  - split; [by split|]. by econstructor.
  - eapply Forall_impl; [exact IH|]. eauto.
Qed.

Lemma buildDelegateNodes_Ok ds depth ns :
  buildDelegateNodes ds depth = Ok ns →
  DelegatesOrdered ns ∧ ∃ ms, Forall2 built_from ds ms ∧ ns ≡ₚ ms.
Proof.
  apply built_nodes, Forall_true. intros d n. apply buildDelegate_Ok.
Qed.

(** What is built is never deeper than the limit the builder enforces. *)
Lemma built_depth_level depth l :
  (depth <= MaxDecodeDepth)%Z →
  Forall (λ n, (depth + Z.of_nat (delegate_depth (node n)) <= MaxDecodeDepth)%Z) l →
  (depth + Z.of_nat (delegates_depth (map node l)) <= MaxDecodeDepth)%Z.
Proof.
  unfold delegates_depth, MaxDecodeDepth. intros Hd.
  induction 1 as [|n l Hn _ IH]; cbn; [lia|]. lia.
Qed.

Lemma built_nodes_depth depth ds ns :
  Forall (λ d, ∀ n, buildDelegate depth d = Ok n →
    (depth + Z.of_nat (delegate_depth (node n)) <= MaxDecodeDepth)%Z) ds →
  buildDelegateNodes ds depth = Ok ns →
  (depth + Z.of_nat (delegates_depth ns) <= MaxDecodeDepth)%Z.
Proof.
  intros Hd. unfold buildDelegateNodes. intros Hb. inv_ok.
  apply checkTraversalDepth_Ok in Hx. destruct ds as [|d ds].
  - injection Hb as <-. cbn. unfold MaxDecodeDepth. lia.
  - inv_ok. apply built_depth_level; [done|].
    apply sortDelegateLevel_Ok in Hx1 as [Hp _]. rewrite Hp. clear Hx Hp.
    apply imapM_from_Forall2 in Hx0. induction Hx0 as [|d' n' ? ? Hn _ IH]; constructor.
    + inversion Hd; subst. auto.
    + apply IH. by inversion Hd.
Qed.

Lemma buildDelegate_depth :
  ∀ d depth n, buildDelegate depth d = Ok n →
  (depth + Z.of_nat (delegate_depth (node n)) <= MaxDecodeDepth)%Z.
Proof.
  apply (Delegate_nested_ind (λ d, ∀ depth n, buildDelegate depth d = Ok n → _)).
  intros text sig nested IH depth n. rewrite buildDelegate_unfold. intros Hb. inv_ok.
  cbn [node]. change (delegate_depth _) with (S (delegates_depth x1)).
  apply built_nodes_depth in Hx1; [lia|]. eapply Forall_impl; [exact IH|]. eauto.
Qed.

Lemma buildDelegateNodes_depth ds depth ns :
  buildDelegateNodes ds depth = Ok ns →
  (depth + Z.of_nat (delegates_depth ns) <= MaxDecodeDepth)%Z.
Proof.
  apply built_nodes_depth, Forall_true. intros d n. apply buildDelegate_depth.
Qed.
End delegates.

(** ** Theorems *)
Section delegates_theorems.
Context `{SDK} `{!SDKLaws}.

(** [ValidateDelegateOrder] decides CAP-71-01's rule: an entry passes
    exactly when it uses the delegates arm, every array of its tree, at every
    level, is strictly increasing in address encoding, and the tree has at
    most 63 levels. *)
Theorem ValidateDelegateOrder_spec e :
  ValidateDelegateOrder e = Ok tt ↔
  ∃ d, Credentials_Type (Credentials e) = CredentialsAddressWithDelegates ∧
    Credentials_AddressWithDelegates (Credentials e) = Some d ∧
    DelegatesOrdered (Delegates d) ∧ (delegates_depth (Delegates d) <= 63)%nat.
Proof.
  unfold ValidateDelegateOrder. split.
  - intros Hv. inv_ok. apply negb_false_iff, Z.eqb_eq in Hx.
    destruct (Credentials_AddressWithDelegates _) as [d|] eqn:Hd; [|done].
    apply wrap_Ok in Hv. apply validateDelegateLevel_Ok in Hv as [Ho Hl].
    exists d. unfold MaxDecodeDepth in Hl. repeat split; [done..|lia].
  - intros (d & -> & -> & Ho & Hl). cbn [refuse negb Z.eqb mbind result_bind].
    apply wrap_Ok, validateDelegateLevel_Ok. split; [done|]. unfold MaxDecodeDepth. lia.
Qed.

(** Wrapping: a successful [WithDelegates] starts from an unsigned
    [address] or [address_v2] entry and a non-zero expiration, keeps address,
    nonce and invocation, and holds the described tree, each node with its
    descriptor's address and signature (Void when it has none), sorted so
    that the result passes [ValidateDelegateOrder]. *)
Theorem WithDelegates_wraps e v ds sig out :
  WithDelegates e v ds sig = Ok out →
  ∃ a ns ms, addressCredentials (Credentials e) = Ok a ∧ isSigned (Signature a) = false ∧
    v ≠ 0%Z ∧
    (Credentials_Type (Credentials e) = CredentialsAddress ∨
     Credentials_Type (Credentials e) = CredentialsAddressV2) ∧
    out = mkEntry (mkCredentials CredentialsAddressWithDelegates None None
            (Some (mkWithDelegates (mkAddressCredentials (Address a) (Nonce a) v
               (default ScvVoid sig)) ns))) (RootInvocation e) ∧
    Forall2 built_from ds ms ∧ ns ≡ₚ ms ∧
    ValidateDelegateOrder out = Ok tt.
Proof.
  unfold WithDelegates. intros Hw. inv_ok. apply Copy_Ok in Hw.
  pose proof (buildDelegateNodes_Ok _ _ _ Hx3) as (Ho & ms & Hf & Hp).
  pose proof (buildDelegateNodes_depth _ _ _ Hx3) as Hl.
  exists x0, x3, ms. split; [done|]. split; [done|]. split; [by apply Z.eqb_neq|].
  split.
  { destruct (Z.eqb_spec (Credentials_Type (Credentials e)) CredentialsAddress); [by left|].
    destruct (Z.eqb_spec (Credentials_Type (Credentials e)) CredentialsAddressV2); [by right|].
    cbn in Hx. by repeat case_match. }
  split; [done|]. split; [done|]. split; [done|]. subst out.
  apply ValidateDelegateOrder_spec. eexists. split; [done|]. split; [reflexivity|].
  split; [done|]. cbn [Delegates]. unfold MaxDecodeDepth in Hl. lia.
Qed.

(** Two descriptors of one level that parse to the same address are
    always refused, with [ErrDuplicateDelegate] once every node of the level
    has been built. *)
Theorem buildDelegateNodes_duplicate ds depth i j d1 d2 a :
  ds !! i = Some d1 → ds !! j = Some d2 → i ≠ j →
  ParseAddress (Delegate_Address d1) = Ok a → ParseAddress (Delegate_Address d2) = Ok a →
  is_ok (buildDelegateNodes ds depth) = false ∧
  ((depth <= 64)%Z → is_ok (rmapM (buildDelegate depth) ds) = true →
   ∃ e, buildDelegateNodes ds depth = Err e ∧ errors_Is e ErrDuplicateDelegate = true).
Proof.
  intros H1 H2 Hij Hp1 Hp2.
  assert (Hdup : ∀ built, rmapM (buildDelegate depth) ds = Ok built →
    ∃ e, sortDelegateLevel built = Err e ∧ errors_Is e ErrDuplicateDelegate = true).
  { intros built Hb%imapM_from_Forall2.
    destruct (Forall2_lookup_l _ _ _ _ _ Hb H1) as (n1 & Hn1 & Hb1).
    destruct (Forall2_lookup_l _ _ _ _ _ Hb H2) as (n2 & Hn2 & Hb2).
    destruct d1 as [t1 s1 m1], d2 as [t2 s2 m2]. cbn [Delegate_Address] in *.
    rewrite buildDelegate_unfold in Hb1, Hb2. inv_ok.
    destruct (sortDelegateLevel built) as [l|e] eqn:Hs.
    - exfalso. apply Hij. eapply NoDup_lookup; [apply sortDelegateLevel_spec; by exists l| |].
      + rewrite list_lookup_fmap, Hn1. reflexivity.
      + rewrite list_lookup_fmap, Hn2. cbn. congruence.
    - exists e. split; [done|]. unfold sortDelegateLevel in Hs.
      destruct (adjacentBy _); [|done]. by injection Hs as <-. }
  destruct ds as [|d ds]; [done|]. unfold buildDelegateNodes.
  destruct (rmapM (buildDelegate depth) (d :: ds)) as [built|e] eqn:Hb.
  - destruct (Hdup built eq_refl) as (e & He & Hi). split.
    + destruct (checkTraversalDepth depth); [|done]. cbn [mbind result_bind]. by rewrite He.
    + intros Hd _. rewrite (proj2 (checkTraversalDepth_Ok depth tt) Hd).
      cbn [mbind result_bind]. rewrite He. by exists e.
  - split; [|done]. by destruct (checkTraversalDepth depth).
Qed.

Lemma rmapM_Permutation {A B} (f : A → result B) l l' ys :
  l ≡ₚ l' → rmapM f l = Ok ys → ∃ ys', rmapM f l' = Ok ys' ∧ ys ≡ₚ ys'.
Proof.
  setoid_rewrite imapM_from_Forall2. intros Hp. revert ys.
  induction Hp as [|x l l' _ IH|x y l|l l2 l3 _ IH1 _ IH2]; intros ys Hy.
  - exists ys. by inversion Hy.
  - inversion Hy as [|? z ? zs Hz Hzs]; subst. destruct (IH _ Hzs) as (zs' & ? & ?).
    exists (z :: zs'). split; by constructor.
  - inversion Hy as [|? z ? zs Hz Hzs]; subst. inversion Hzs as [|? u ? us Hu Hus]; subst.
    exists (u :: z :: us). split; [by repeat constructor|constructor].
  - destruct (IH1 _ Hy) as (ys2 & Hy2 & Hp2). destruct (IH2 _ Hy2) as (ys3 & ? & ?).
    exists ys3. split; [done|]. by etrans.
Qed.

Lemma sortDelegateLevel_Permutation l l' s :
  l ≡ₚ l' → sortDelegateLevel l = Ok s → sortDelegateLevel l' = Ok s.
Proof.
  intros Hp Hs. pose proof Hs as [Hps Hss]%sortDelegateLevel_Ok.
  assert (Hnd : NoDup (node_encoded <$> l')).
  { rewrite <-Hp, <-Hps. by apply sorted_strict_nodup. }
  destruct (proj2 (sortDelegateLevel_spec l') Hnd) as [s' Hs'].
  pose proof Hs' as [Hps' Hss']%sortDelegateLevel_Ok. rewrite Hs'. f_equal.
  eapply strict_sorted_unique; [done..|]. by rewrite Hps', Hps, Hp.
Qed.

(** The built array does not depend on the order the delegates were
    given in. *)
Theorem buildDelegateNodes_order ds ds' depth ns :
  ds ≡ₚ ds' → buildDelegateNodes ds depth = Ok ns → buildDelegateNodes ds' depth = Ok ns.
Proof.
  unfold buildDelegateNodes. intros Hp Hb. inv_ok. rewrite Hx. cbn [mbind result_bind].
  destruct ds as [|d ds]; [apply Permutation_nil_l in Hp as <-; done|].
  destruct ds' as [|d' ds']; [by apply Permutation_nil_r in Hp|]. inv_ok.
  destruct (rmapM_Permutation _ _ _ _ Hp Hx0) as (built & Hb & Hpb).
  rewrite Hb. cbn [mbind result_bind].
  by rewrite (sortDelegateLevel_Permutation _ _ _ Hpb Hx1).
Qed.
End delegates_theorems.

(** ** The theorems at concrete trees *)
Definition ex_descriptors : list Delegate :=
  [mkDelegate (ex_text "c") None [];
   mkDelegate (ex_text "b") None [mkDelegate (ex_text "c") None []]].

Definition ex_wrapped : SorobanAuthorizationEntry :=
  match WithDelegates (ex_v2 "a" 0 ScvVoid) 1000 ex_descriptors None with
  | Ok out => out
  | Err _ => ex_source
  end.

(** The descriptors came as [c], [b]; the array holds [b], [c]. *)
Example ex_wrapped_sorted :
  map delegate_Address (match Credentials_AddressWithDelegates (Credentials ex_wrapped) with
                        | Some d => Delegates d | None => [] end)
  = [ex_account "b"; ex_account "c"].
Proof. vm_compute. reflexivity. Qed.

Lemma ValidateDelegateOrder_spec_witness : ValidateDelegateOrder ex_wrapped = Ok tt ↔
  ∃ d, Credentials_Type (Credentials ex_wrapped) = CredentialsAddressWithDelegates ∧
    Credentials_AddressWithDelegates (Credentials ex_wrapped) = Some d ∧
    DelegatesOrdered (Delegates d) ∧ (delegates_depth (Delegates d) <= 63)%nat.
Proof. apply ValidateDelegateOrder_spec. Defined.

Lemma WithDelegates_wraps_witness : let e := ex_v2 "a" 0 ScvVoid in
  ∃ a ns ms, addressCredentials (Credentials e) = Ok a ∧ isSigned (Signature a) = false ∧
    1000%Z ≠ 0%Z ∧
    (Credentials_Type (Credentials e) = CredentialsAddress ∨
     Credentials_Type (Credentials e) = CredentialsAddressV2) ∧
    ex_wrapped = mkEntry (mkCredentials CredentialsAddressWithDelegates None None
            (Some (mkWithDelegates (mkAddressCredentials (Address a) (Nonce a) 1000
               (default ScvVoid None)) ns))) (RootInvocation e) ∧
    Forall2 built_from ex_descriptors ms ∧ ns ≡ₚ ms ∧
    ValidateDelegateOrder ex_wrapped = Ok tt.
Proof. intros e. apply WithDelegates_wraps. vm_compute. reflexivity. Defined.

Definition ex_duplicates : list Delegate :=
  [mkDelegate (ex_text "c") None []; mkDelegate (ex_text "b") None [];
   mkDelegate (ex_text "c") None []].

Lemma buildDelegateNodes_duplicate_witness :
  is_ok (buildDelegateNodes ex_duplicates 1) = false ∧
  ((1 <= 64)%Z → is_ok (rmapM (buildDelegate 1) ex_duplicates) = true →
   ∃ e, buildDelegateNodes ex_duplicates 1 = Err e ∧ errors_Is e ErrDuplicateDelegate = true).
Proof.
  by apply (buildDelegateNodes_duplicate _ _ 0 2 (mkDelegate (ex_text "c") None [])
    (mkDelegate (ex_text "c") None []) (ex_account "c")).
Defined.

Lemma buildDelegateNodes_order_witness :
  buildDelegateNodes (rev ex_descriptors) 1 =
  Ok (match Credentials_AddressWithDelegates (Credentials ex_wrapped) with
      | Some d => Delegates d | None => [] end).
Proof.
  apply (buildDelegateNodes_order ex_descriptors).
  - apply Permutation_rev.
  - vm_compute. reflexivity.
Defined.
