(* ===== verification/Planner.v ===== *)
(** * Planner: delegate trees from a declarative policy (planner.go)

    [Plan] turns a policy into delegate descriptors, checks them against the
    registered signers and tries the build [WithDelegates] does; a
    [PlannedTree] is wrapped around an entry later ([Wrap]) and can be described
    as a policy again ([Describe]). *)
From Stdlib Require Import ZArith Lia Strings.Byte String.
From stdpp Require Import base list strings gmap pretty.
From S2P Require Import Prelude Errors Xdr ModelSDK Runtime Examples Address Limits Arm Nodes Delegates.

Open Scope string_scope. Open Scope nat_scope. Open Scope list_scope.

Inductive DelegatePolicy :=
| mkPolicy (Address : string) (Nested : list DelegatePolicy).

Section DelegatePolicy_ind.
Variable P : DelegatePolicy → Prop.
Hypothesis Hnode : ∀ a n, Forall P n → P (mkPolicy a n).
Lemma DelegatePolicy_nested_ind : ∀ p, P p.
Proof.
  fix IH 1. intros [a n]. apply Hnode.
  induction n as [|p n IHn]; constructor; [apply IH|exact IHn].
Qed.
End DelegatePolicy_ind.

(** A registration's signer is not used by the planner. *)
Record SignerRegistration := mkRegistration {
  Registration_Address : string;
  Registration_Signer : option Signer
}.

Record PlannedTree := mkPlannedTree {
  Planned_Delegates : list Delegate;
  Planned_ValidUntilLedger : Z
}.

(** [buildDelegatePolicies]: the source's error result is always nil. *)
Fixpoint buildDelegatePolicy (p : DelegatePolicy) : Delegate :=
  match p with mkPolicy a nested => mkDelegate a None (map buildDelegatePolicy nested) end.

Definition buildDelegatePolicies (policy : list DelegatePolicy) : list Delegate :=
  map buildDelegatePolicy policy.

Definition validateAgainstRegistrations (regMap : gset string) : Delegate → result unit :=
  fix validate (d : Delegate) : result unit :=
  match d with
  | mkDelegate a _ nested =>
      _ ← refuse (negb (bool_decide (a ∈ regMap)))
            (EWrap ("soroauth: plan: " +:+ a +:+ " is not a registered signer")
               (ESentinel ErrMissingSigner));
      iterM_from (λ _, validate) 0 nested
  end.

(** [describeDelegates] *)
Fixpoint describeDelegate (d : Delegate) : DelegatePolicy :=
  match d with mkDelegate a _ nested => mkPolicy a (map describeDelegate nested) end.

Definition Describe (t : PlannedTree) : list DelegatePolicy :=
  map describeDelegate (Planned_Delegates t).

Section planner.
Context `{SDK}.

(** The zero [xdr.ScAddress]: the account arm with no account. *)
Definition zeroAddress : ScAddress := ScAddressTypeAccount None.

Definition testEntry (validUntilLedger : Z) (nodes : list SorobanDelegateSignature)
    : SorobanAuthorizationEntry :=
  mkEntry
    (mkCredentials CredentialsAddressWithDelegates None None
       (Some (mkWithDelegates (mkAddressCredentials zeroAddress 0 validUntilLedger ScvVoid) nodes)))
    (mkInvocation (FunctionContractFn None) []).

Definition Plan (validUntilLedger : Z) (policy : list DelegatePolicy)
    (registrations : list SignerRegistration) : result PlannedTree :=
  _ ← refuse (validUntilLedger =? 0)%Z (EWrap "soroauth: plan" (ESentinel ErrInvalidExpiration));
  _ ← iterM_from (λ _ r,
        _ ← wrap ("soroauth: plan: invalid registration " +:+ Registration_Address r)
              (ParseAddress (Registration_Address r)); Ok tt) 0 registrations;
  let regMap := list_to_set (Registration_Address <$> registrations) in
  let delegates := buildDelegatePolicies policy in
  _ ← (match registrations with
       | [] => Ok tt
       | _ => iterM_from (λ _, validateAgainstRegistrations regMap) 0 delegates
       end);
  nodes ← buildDelegateNodes delegates 1;
  _ ← wrap "soroauth: plan: output does not pass ValidateDelegateOrder"
        (ValidateDelegateOrder (testEntry validUntilLedger nodes));
  Ok (mkPlannedTree delegates validUntilLedger).

Definition Wrap (p : PlannedTree) (entry : SorobanAuthorizationEntry) (topSignature : option ScVal)
    : result SorobanAuthorizationEntry :=
  WithDelegates entry (Planned_ValidUntilLedger p) (Planned_Delegates p) topSignature.
End planner.

(** ** Lemmas *)
Lemma describe_build p : describeDelegate (buildDelegatePolicy p) = p.
Proof.
  induction p as [a n IH] using DelegatePolicy_nested_ind. cbn. f_equal. rewrite map_map.
  induction IH as [|p n Hp _ IHn]; cbn; [done|]. by rewrite Hp, IHn.
Qed.

Lemma describe_builds policy : map describeDelegate (buildDelegatePolicies policy) = policy.
Proof.
  unfold buildDelegatePolicies. rewrite map_map. induction policy as [|p policy IH]; cbn; [done|].
  by rewrite describe_build, IH.
Qed.

(** The addresses of a policy, at every depth. *)
Fixpoint policy_addresses (p : DelegatePolicy) : list string :=
  match p with mkPolicy a nested => a :: concat (map policy_addresses nested) end.


Lemma validateAgainstRegistrations_Ok regMap p :
  validateAgainstRegistrations regMap (buildDelegatePolicy p) = Ok tt ↔
  Forall (λ a, a ∈ regMap) (policy_addresses p).
Proof.
  induction p as [a n IH] using DelegatePolicy_nested_ind.
  change (validateAgainstRegistrations regMap (buildDelegatePolicy (mkPolicy a n))) with
    (_ ← refuse (negb (bool_decide (a ∈ regMap)))
        (EWrap ("soroauth: plan: " +:+ a +:+ " is not a registered signer")
           (ESentinel ErrMissingSigner));
     iterM_from (λ _, validateAgainstRegistrations regMap) 0 (map buildDelegatePolicy n)).
  rewrite bind_Ok. cbn [policy_addresses]. rewrite Forall_cons, Forall_concat.
  assert (Hn : iterM_from (λ _ : nat, validateAgainstRegistrations regMap) 0
      (map buildDelegatePolicy n) = Ok tt ↔ Forall (Forall (λ a, a ∈ regMap)) (map policy_addresses n)).
  { rewrite iterM_from_Ok. clear -IH. generalize 0. induction IH as [|p n Hp _ IHn]; intros i; cbn.
    - split; [constructor|by intros _ ? ? ?].
    - rewrite Forall_cons, <-Hp, <-(IHn i). split.
      + intros Hf. split; [by apply (Hf 0)|]. intros j x Hj. by apply (Hf (S j)).
      + intros [H1 H2] [|j] x Hj; cbn in Hj; [by simplify_eq|by apply (H2 j)]. }
  rewrite <-Hn. split.
  - intros (u & Hu%refuse_Ok & Hrest). split; [|done].
    by apply negb_false_iff, bool_decide_eq_true in Hu.
  - intros [Ha Hrest]. exists tt. split; [|done]. by rewrite bool_decide_eq_true_2.
Qed.

(** ** Theorems *)
Section planner_theorems.
Context `{SDKLaws}.

(** A plan is its policy: a successful [Plan] can be described again as
    exactly the given policy, names only registered addresses when
    registrations are given, carries the given non-zero expiration, and can be
    wrapped around every unsigned entry of an address arm whose codec works, the
    result passing [ValidateDelegateOrder]. *)
Theorem Plan_wraps v policy regs t :
  Plan v policy regs = Ok t →
  Describe t = policy ∧ Planned_ValidUntilLedger t = v ∧ v ≠ 0%Z ∧
  (regs ≠ [] → Forall (λ a, a ∈ Registration_Address <$> regs) (concat (map policy_addresses policy))) ∧
  ∃ nodes, ValidateDelegateOrder (testEntry v nodes) = Ok tt ∧
  ∀ e sig a, addressCredentials (Credentials e) = Ok a → isSigned (Signature a) = false →
    Credentials_Type (Credentials e) = CredentialsAddress ∨
    Credentials_Type (Credentials e) = CredentialsAddressV2 →
    Wrap t e sig = wrap "soroauth: with delegates" (Copy (mkEntry
      (mkCredentials CredentialsAddressWithDelegates None None
        (Some (mkWithDelegates (mkAddressCredentials (Address a) (Nonce a) v (default ScvVoid sig))
                 nodes))) (RootInvocation e))).
Proof.
  unfold Plan. intros Hp. inv_ok.
  unfold Describe. cbn [Planned_Delegates Planned_ValidUntilLedger].
  split; [apply describe_builds|]. split; [done|]. split; [by apply Z.eqb_neq|].
  split.
  { intros Hne. destruct regs as [|r regs]; [done|].
    rewrite Forall_concat.
    apply Forall_fmap, Forall_lookup_2. intros j p Hj. cbn.
    rewrite iterM_from_Ok in Hx1. specialize (Hx1 j (buildDelegatePolicy p)).
    unfold buildDelegatePolicies in Hx1. rewrite list_lookup_fmap, Hj in Hx1.
    specialize (Hx1 eq_refl). apply validateAgainstRegistrations_Ok in Hx1.
    eapply Forall_impl; [exact Hx1|]. intros a Ha. by apply elem_of_list_to_set in Ha. }
  eexists. split; [exact Hx3|]. intros e sig a Ha Hsig Ht. unfold Wrap, WithDelegates.
  cbn [Planned_Delegates Planned_ValidUntilLedger]. rewrite Ha, Hx2, Hx. cbn [wrap refuse].
  assert (((Credentials_Type (Credentials e) =? CredentialsAddress)%Z
    || (Credentials_Type (Credentials e) =? CredentialsAddressV2)%Z) = true) as ->.
  { by destruct Ht as [-> | ->]. }
  cbn. by rewrite Hsig.
Qed.
End planner_theorems.

(** ** The theorem at a concrete policy *)
Definition ex_policy : list DelegatePolicy :=
  [mkPolicy (ex_text "c") []; mkPolicy (ex_text "b") [mkPolicy (ex_text "c") []]].
Definition ex_registrations : list SignerRegistration :=
  [mkRegistration (ex_text "b") None; mkRegistration (ex_text "c") (Some (ex_signer "c"))].
Definition ex_planned : PlannedTree :=
  mkPlannedTree [mkDelegate (ex_text "c") None [];
                 mkDelegate (ex_text "b") None [mkDelegate (ex_text "c") None []]] 1000.

Lemma ex_plan : Plan 1000 ex_policy ex_registrations = Ok ex_planned.
Proof. vm_compute. reflexivity. Qed.

Lemma Plan_wraps_witness : Describe ex_planned = ex_policy ∧
  Forall (λ a, a ∈ Registration_Address <$> ex_registrations)
    (concat (map policy_addresses ex_policy)) ∧
  ∃ out, Wrap ex_planned (ex_v2 "a" 0 ScvVoid) None = wrap "soroauth: with delegates" (Copy out).
Proof.
  destruct (Plan_wraps _ _ _ _ ex_plan) as (Hd & _ & _ & Hr & nodes & _ & Hw).
  split; [exact Hd|]. split; [by apply Hr|].
  eexists. apply (Hw _ _ (ex_credentials "a" 0 ScvVoid)); [reflexivity|reflexivity|].
  right. reflexivity.
Defined.
