(* ===== verification/Authorize.v ===== *)
(** * Authorize: signing one entry (authorize.go)

    [AuthorizeEntry] as the source has it: the checks in order on a private
    copy ([prepareAuthorize]), the hooks and the signer call in [IO], then the
    stores through the matching nodes' pointers ([fillEntry]).  [signEntry] is
    the abstract specification: the entry with the expiration set and the
    signature on exactly the nodes that carry the target address. *)
From Stdlib Require Import ZArith Lia Strings.Byte String.
From stdpp Require Import base list strings pretty.
From S2P Require Import Prelude Errors Xdr ModelSDK Runtime Address Limits Arm Preimage Nodes Delegates Examples.

Open Scope string_scope. Open Scope nat_scope. Open Scope list_scope.

(** ** Options *)
Record authorizeConfig := mkAuthorizeConfig {
  targetAddress : string;
  hasTarget : bool;
  allowResign : bool;
  allowResignAddresses : list string;
  hook : hookList
}.

Definition AuthorizeOption : Type := authorizeConfig → authorizeConfig.

Definition zeroAuthorizeConfig : authorizeConfig := mkAuthorizeConfig "" false false [] [].

Definition ForAddress (addr : string) : AuthorizeOption := λ c,
  mkAuthorizeConfig addr true (allowResign c) (allowResignAddresses c) (hook c).

Definition AllowResign (addresses : list string) : AuthorizeOption := λ c,
  mkAuthorizeConfig (targetAddress c) (hasTarget c) true addresses (hook c).

Definition WithHook (h : option Hook) : AuthorizeOption := λ c,
  mkAuthorizeConfig (targetAddress c) (hasTarget c) (allowResign c) (allowResignAddresses c)
    (newHookList [h]).

Definition applyOptions (opts : list AuthorizeOption) : authorizeConfig :=
  foldl (λ c o, o c) zeroAuthorizeConfig opts.

Definition resignAllowedFor (targetEncoded : bytes) (scope : list bytes) : bool :=
  match scope with
  | [] => true
  | _ => existsb (bytes_Equal targetEncoded) scope
  end.

(** Pointers of the nodes whose address encodes as the target. *)
Definition matchingNodes (nodes : list credentialNode) (targetEncoded : bytes) : list NodePtr :=
  omap (λ n, if bytes_Equal (encoded n) targetEncoded then Some (signature n) else None) nodes.

(** What the checks hand to the signing step. *)
Record authorizePlan := mkPlan {
  plan_signed : SorobanAuthorizationEntry;
  plan_matches : list NodePtr;
  plan_target : string;
  plan_preimage : HashIdPreimage
}.

Definition is_source (e : SorobanAuthorizationEntry) : bool :=
  (Credentials_Type (Credentials e) =? CredentialsSourceAccount)%Z.

(** [existingCredentials.SignatureExpirationLedger = v] *)
Definition setExpiration (e : SorobanAuthorizationEntry) (v : Z) : SorobanAuthorizationEntry :=
  match addressCredentials (Credentials e) with
  | Ok a => mkEntry (writeAddressCredentials (Credentials e) (withExpiration a v))
              (RootInvocation e)
  | Err _ => e
  end.

(** The stores after signing: the expiration, then [*match = signature] for
    every match in turn. *)
Definition fillEntry (e : SorobanAuthorizationEntry) (v : Z) (matches : list NodePtr)
    (sig : ScVal) : SorobanAuthorizationEntry :=
  foldl (λ e p, writeSignature e p sig) (setExpiration e v) matches.

Section authorize.
Context `{SDK}.

Abbreviation op := "soroauth: authorize entry".

Definition resignScope (addresses : list string) : result (list bytes) :=
  rmapM (λ addr,
    parsed ← wrap (op +:+ ": AllowResign address " +:+ quoted addr) (ParseAddress addr);
    wrap op (addressBytes parsed)) addresses.

Definition prepareAuthorize (entry : SorobanAuthorizationEntry) (signer : option Signer)
    (validUntilLedger : Z) (networkPassphrase : string) (config : authorizeConfig)
    : result (authorizePlan * Signer) :=
  _ ← wrap op (addressCredentials (Credentials entry));
  _ ← refuse (validUntilLedger =? 0)%Z
        (EWrap (op +:+ ": expiration ledger is zero") (ESentinel ErrInvalidExpiration));
  signer ← of_option signer (EWrap op (ESentinel ErrMissingSigner));
  let target := if hasTarget config then targetAddress config else signer_Address signer in
  _ ← refuse (bool_decide (target = ""))
        (EWrap (op +:+ ": no target address; the signer has none and ForAddress was not given")
           (ESentinel ErrMissingSigner));
  targetAddr ← wrap op (ParseAddress target);
  targetEncoded ← wrap op (addressBytes targetAddr);
  scope ← resignScope (allowResignAddresses config);
  let resignAllowed := allowResign config && resignAllowedFor targetEncoded scope in
  signed ← wrap op (Copy entry);
  existing ← wrap op (addressCredentials (Credentials signed));
  let isDelegates := is_delegates signed in
  _ ← (if isDelegates then wrap op (ValidateDelegateOrder signed) else Ok tt);
  nodes ← wrap op (credentialNodes signed);
  let matches := matchingNodes nodes targetEncoded in
  _ ← refuse (Nat.eqb (length matches) 0)
        (EWrap (op +:+ ": " +:+ target) (NoMatchingCredentialNodeError target));
  _ ← refuse (isDelegates
              && negb (SignatureExpirationLedger existing =? validUntilLedger)%Z
              && existsb (λ n, nodeIsSigned signed (signature n)) nodes)
        (EWrap (op +:+ ": the entry already carries signatures over expiration " +:+
                pretty (SignatureExpirationLedger existing) +:+ ", but " +:+
                pretty validUntilLedger +:+ " was requested") (ESentinel ErrInvalidExpiration));
  _ ← refuse (negb resignAllowed && existsb (nodeIsSigned signed) matches)
        (EWrap (op +:+ ": " +:+ target) (ESentinel ErrAlreadySigned));
  preimage ← wrap op (Preimage signed validUntilLedger networkPassphrase);
  Ok (mkPlan signed matches target preimage, signer).

Definition AuthorizeEntry (ctx : Ctx) (entry : SorobanAuthorizationEntry)
    (signer : option Signer) (validUntilLedger : Z) (networkPassphrase : string)
    (opts : list AuthorizeOption) : IO SorobanAuthorizationEntry :=
  _ ← ctx_check ctx op;
  let config := applyOptions opts in
  if is_source entry then lift (wrap op (Copy entry))
  else
    '(plan, signer) ← lift
      (prepareAuthorize entry signer validUntilLedger networkPassphrase config);
    let event p err := hookEvent p (credentialTypeName (Credentials_Type (Credentials entry)))
                         (plan_target plan) validUntilLedger err in
    _ ← emit ctx (hook config) (event HookPhasePreimage None);
    payload ← lift (wrap op (Payload (plan_preimage plan)));
    _ ← emit ctx (hook config) (event HookPhaseSign None);
    r ← try_ (call_Sign signer ctx (plan_preimage plan) payload);
    match r with
    | Err e =>
        _ ← emit ctx (hook config) (event HookPhaseSign (Some e));
        lift (Err (EWrap op e))
    | Ok sig =>
        _ ← emit ctx (hook config) (event HookPhaseWrite None);
        let signed := fillEntry (plan_signed plan) validUntilLedger (plan_matches plan) sig in
        _ ← emit ctx (hook config) (event HookPhasePostSign None);
        mret signed
    end.
End authorize.

(** ** Specification *)
Fixpoint signDelegate (target : ScAddress) (sig : ScVal) (d : SorobanDelegateSignature)
    : SorobanDelegateSignature :=
  match d with
  | mkDelegateSignature a s n =>
      mkDelegateSignature a (if decide (a = target) then sig else s)
        (map (signDelegate target sig) n)
  end.

Definition signEntry (target : ScAddress) (sig : ScVal) (v : Z)
    (e : SorobanAuthorizationEntry) : SorobanAuthorizationEntry :=
  match addressCredentials (Credentials e) with
  | Err _ => e
  | Ok a =>
      let a' := mkAddressCredentials (Address a) (Nonce a) v
                  (if decide (Address a = target) then sig else Signature a) in
      let c := writeAddressCredentials (Credentials e) a' in
      mkEntry
        (if is_delegates e then
           mkCredentials (Credentials_Type c) (Credentials_Address c) (Credentials_AddressV2 c)
             ((λ d, mkWithDelegates (AddressCredentials d)
                      (map (signDelegate target sig) (Delegates d)))
                <$> Credentials_AddressWithDelegates c)
         else c)
        (RootInvocation e)
  end.

(** ** The stores implement the specification *)
Section fill.
Variables (target : ScAddress) (sig : ScVal).

Definition target_paths (l : list FlatNode) : list NodePtr :=
  omap (λ n, if decide (flat_address n = target) then Some (flat_path n) else None) l.

Lemma target_paths_app l1 l2 : target_paths (l1 ++ l2) = target_paths l1 ++ target_paths l2.
Proof. apply omap_app. Qed.

Lemma target_paths_under i l :
  target_paths (map (flat_under i) l) = map (cons i) (target_paths l).
Proof.
  induction l as [|n l IH]; [done|]. unfold target_paths in *. cbn [map omap list_omap].
  cbn. destruct (decide (flat_address n = target)); cbn; by rewrite IH.
Qed.

(** Stores under index [length pre] touch that element only. *)
Lemma writeDelegates_foldl_at pre d ds ps :
  foldl (λ ds p, writeDelegates ds p sig) (pre ++ d :: ds) (map (cons (length pre)) ps)
  = pre ++ foldl (λ d p, writeDelegate p sig d) d ps :: ds.
Proof.
  revert d. induction ps as [|p ps IH]; intros d; cbn; [done|].
  rewrite <-(Nat.add_0_r (length pre)) at 1. rewrite alter_app_r. cbn. apply IH.
Qed.

Lemma writeDelegate_foldl_below a s n ps :
  Forall (λ p, p ≠ []) ps →
  foldl (λ d p, writeDelegate p sig d) (mkDelegateSignature a s n) ps
  = mkDelegateSignature a s (foldl (λ ds p, writeDelegates ds p sig) n ps).
Proof.
  intros Hp. revert n. induction Hp as [|p ps Hp _ IH]; intros n; cbn; [done|].
  destruct p as [|i p]; [done|]. apply IH.
Qed.

Lemma target_paths_nonempty ds : Forall (λ p, p ≠ []) (target_paths (flatDelegates ds)).
Proof.
  apply Forall_forall. intros p (n & Hn & Hp)%list_elem_of_omap.
  case_decide; [|done]. injection Hp as <-. by eapply flatDelegates_path.
Qed.

Lemma fill_level ds :
  Forall (λ d, foldl (λ d p, writeDelegate p sig d) d
      (target_paths (match d with mkDelegateSignature a s n =>
         mkFlat a s [] :: flatDelegates n end)) = signDelegate target sig d) ds →
  ∀ pre, foldl (λ ds p, writeDelegates ds p sig) (pre ++ ds)
           (target_paths (concat (imap_from flatDelegate (length pre) ds)))
         = pre ++ map (signDelegate target sig) ds.
Proof.
  induction 1 as [|d ds Hd _ IH]; intros pre; cbn [imap_from concat map].
  - by rewrite app_nil_r.
  - rewrite target_paths_app, foldl_app.
    assert (flatDelegate (length pre) d = map (flat_under (length pre))
      (match d with mkDelegateSignature a s n => mkFlat a s [] :: flatDelegates n end)) as ->
      by (by destruct d).
    rewrite target_paths_under, writeDelegates_foldl_at, Hd.
    specialize (IH (pre ++ [signDelegate target sig d])).
    rewrite length_app in IH. cbn in IH. rewrite Nat.add_1_r in IH.
    by rewrite <-!app_assoc in IH.
Qed.

Lemma fill_delegates ds :
  foldl (λ ds p, writeDelegates ds p sig) ds (target_paths (flatDelegates ds))
  = map (signDelegate target sig) ds.
Proof.
  apply (fill_level ds) with (pre := []). revert ds. apply delegates_nested_ind.
  intros a s n IH. unfold target_paths at 1. cbn [omap list_omap].
  fold (target_paths (flatDelegates n)). cbn [flat_address flat_path].
  pose proof (target_paths_nonempty n). pose proof (fill_level n IH []) as Hn.
  cbn [app length] in Hn. cbn [signDelegate].
  change (concat (imap_from flatDelegate 0 n)) with (flatDelegates n) in Hn.
  destruct (decide (a = target)); cbn [foldl writeDelegate];
    by rewrite writeDelegate_foldl_below, Hn.
Qed.

Lemma writeSignature_foldl_below d inv ps :
  Forall (λ p, p ≠ []) ps →
  foldl (λ e p, writeSignature e p sig)
    (mkEntry (CredentialsOfAddressWithDelegates (Some d)) inv) ps =
  mkEntry (CredentialsOfAddressWithDelegates (Some (mkWithDelegates (AddressCredentials d)
             (foldl (λ ds p, writeDelegates ds p sig) (Delegates d) ps)))) inv.
Proof.
  intros Hp. revert d. induction Hp as [|p ps Hp _ IH]; intros d; cbn; [by destruct d|].
  destruct p as [|i p]; [done|]. apply IH.
Qed.

Lemma flatNodes_setExpiration_paths e v a :
  addressCredentials (Credentials e) = Ok a →
  flatDelegates (entryDelegates (setExpiration e v)) = flatDelegates (entryDelegates e).
Proof.
  intros Ha. unfold setExpiration. rewrite Ha. apply addressCredentials_Ok in Ha.
  destruct e as [[|o|o|o|t] inv]; cbn in Ha |- *;
    destruct Ha as [[Ht ?]|[[Ht ?]|(Ht & d & ? & <-)]]; by simplify_eq/=.
Qed.

Lemma fillEntry_signEntry e v a :
  addressCredentials (Credentials e) = Ok a →
  fillEntry e v (target_paths (flatNodes e)) sig = signEntry target sig v e.
Proof.
  intros Ha. unfold fillEntry, flatNodes, signEntry, setExpiration. rewrite Ha.
  unfold target_paths at 1. cbn [omap list_omap flat_address flat_path].
  fold (target_paths (flatDelegates (entryDelegates e))).
  pose proof (target_paths_nonempty (entryDelegates e)) as Hne.
  apply addressCredentials_Ok in Ha. unfold entryDelegates, is_delegates in *.
  destruct e as [[|o|o|o|t] inv]; cbn in Ha, Hne |- *;
    destruct Ha as [[Ht ?]|[[Ht ?]|(Ht & d & ? & <-)]]; simplify_eq/=.
  - by destruct (decide _).
  - by destruct (decide _).
  - fold (flatDelegates (Delegates d)) in Hne |- *.
    fold (target_paths (flatDelegates (Delegates d))) in Hne |- *.
    destruct (decide _); cbn; rewrite writeSignature_foldl_below by done; cbn;
      by rewrite fill_delegates.
Qed.
End fill.

(** ** What the checks establish *)
Section prepare.
Context `{SDK} `{!SDKLaws}.

Lemma matchingNodes_target e ns t tenc :
  credentialNodes e = Ok ns → addressBytes t = Ok tenc →
  matchingNodes ns tenc = target_paths t (flatNodes e).
Proof.
  intros Hn%credentialNodes_flat Ht. unfold matchingNodes, target_paths.
  induction Hn as [|n f ns fs [Ha Hs] _ IH]; [done|].
  rewrite !omap_step, IH, Hs.
  destruct (decide (flat_address f = t)) as [Heq|Hne].
  - rewrite (proj2 (bytes_Equal_spec _ _)); [done|]. congruence.
  - destruct (bytes_Equal (encoded n) tenc) eqn:E; [|done].
    apply bytes_Equal_spec in E. subst. destruct Hne. by eapply addressBytes_inj.
Qed.

Lemma nodes_existsb_signed e ns :
  credentialNodes e = Ok ns →
  existsb (λ n, nodeIsSigned e (signature n)) ns
  = existsb (λ n, isSigned (flat_sig n)) (flatNodes e).
Proof.
  intros Hn%credentialNodes_flat.
  assert (Hr : ∀ f, f ∈ flatNodes e → nodeIsSigned e (flat_path f) = isSigned (flat_sig f))
    by apply nodeIsSigned_flat.
  induction Hn as [|n f ns fs [_ Hs] _ IH]; [done|]. cbn.
  rewrite Hs, Hr by constructor. f_equal. apply IH. intros. apply Hr. by constructor.
Qed.

Lemma target_signed e t :
  existsb (nodeIsSigned e) (target_paths t (flatNodes e)) = true ↔
  ∃ n, n ∈ flatNodes e ∧ flat_address n = t ∧ isSigned (flat_sig n) = true.
Proof.
  rewrite existsb_In. split.
  - intros (p & (n & Hn & Hp)%list_elem_of_omap & Hs).
    destruct (decide _) as [Ht|]; [|done]. injection Hp as <-.
    rewrite nodeIsSigned_flat in Hs by done. eauto.
  - intros (n & Hn & Ht & Hs). exists (flat_path n). split.
    + apply list_elem_of_omap. exists n. by rewrite decide_True.
    + by rewrite nodeIsSigned_flat.
Qed.

(** The target address a configuration and a signer select. *)
Definition targetOf (config : authorizeConfig) (s : Signer) : string :=
  if hasTarget config then targetAddress config else signer_Address s.

(** Overwriting a signature of [t] is permitted: by an unscoped AllowResign,
    or by one that names [t]. *)
Definition resign_permitted (config : authorizeConfig) (t : ScAddress) : Prop :=
  allowResign config = true ∧
  (allowResignAddresses config = [] ∨
   ∃ addr, addr ∈ allowResignAddresses config ∧ ParseAddress addr = Ok t).

Lemma resignAllowedFor_permitted config scope t tenc :
  addressBytes t = Ok tenc → resignScope (allowResignAddresses config) = Ok scope →
  allowResign config && resignAllowedFor tenc scope = true → resign_permitted config t.
Proof.
  intros Ht Hs%imapM_from_Forall2 [Ha Hr]%andb_true_iff. split; [done|].
  destruct (allowResignAddresses config) as [|addr addrs]; [by left|right].
  destruct scope as [|enc scope]; [by inversion Hs|]. unfold resignAllowedFor in Hr.
  apply existsb_In in Hr as (x & Hin & Hx). apply bytes_Equal_spec in Hx. subst x.
  apply list_elem_of_lookup in Hin as (i & Hi).
  destruct (Forall2_lookup_r _ _ _ _ _ Hs Hi) as (addr' & Hj & Hp). inv_ok.
  exists addr'. split; [by eapply list_elem_of_lookup_2|].
  rewrite Hx. f_equal. by eapply addressBytes_inj.
Qed.

(** Everything a passed set of checks says about the entry. *)
Record prepared (entry : SorobanAuthorizationEntry) (v : Z) (pass : string)
    (config : authorizeConfig) (s : Signer) (t : ScAddress) (plan : authorizePlan) : Prop := {
  prepared_signed : plan_signed plan = entry;
  prepared_expiration : v ≠ 0%Z;
  prepared_target : plan_target plan = targetOf config s;
  prepared_parse : ParseAddress (targetOf config s) = Ok t;
  prepared_matches : plan_matches plan = target_paths t (flatNodes entry);
  prepared_found : ∃ n, n ∈ flatNodes entry ∧ flat_address n = t;
  prepared_preimage : Preimage entry v pass = Ok (plan_preimage plan);
  prepared_ordered : is_delegates entry = true → ValidateDelegateOrder entry = Ok tt;
  prepared_agrees a n : addressCredentials (Credentials entry) = Ok a →
    is_delegates entry = true → n ∈ flatNodes entry → isSigned (flat_sig n) = true →
    SignatureExpirationLedger a = v;
  prepared_resign n : n ∈ flatNodes entry → flat_address n = t →
    isSigned (flat_sig n) = true → resign_permitted config t
}.

Lemma prepareAuthorize_Ok entry signer v pass config plan s :
  prepareAuthorize entry signer v pass config = Ok (plan, s) →
  signer = Some s ∧ ∃ t, prepared entry v pass config s t plan.
Proof.
  unfold prepareAuthorize. intros Hp. inv_ok. subst plan s.
  match goal with E : Copy entry = Ok _ |- _ => apply Copy_Ok in E; subst end.
  split; [done|]. match goal with E : ParseAddress _ = Ok ?t |- _ => exists t end.
  split; cbn [plan_signed plan_matches plan_target plan_preimage]; try done.
  - lia.
  - by eapply matchingNodes_target.
  - match goal with E : (length _ =? 0) = false |- _ => rename E into Hlen end.
    erewrite matchingNodes_target in Hlen by done.
    destruct (target_paths _ _) as [|p ps] eqn:Hps; [done|].
    assert (Hp : p ∈ target_paths x3 (flatNodes entry)) by (rewrite Hps; constructor).
    apply list_elem_of_omap in Hp as (n & Hn & Hd). case_decide; [|done]. eauto.
  - intros Hd. rewrite Hd in Hx8. apply wrap_Ok in Hx8. exact Hx8.
  - intros a n Ha Hd Hn Hs. rewrite Hd in Hx11. cbn in Hx11.
    erewrite nodes_existsb_signed in Hx11 by done. rewrite Ha in Hx7. injection Hx7 as <-.
    destruct (SignatureExpirationLedger a =? v)%Z eqn:E; [by apply Z.eqb_eq|]. cbn in Hx11.
    rewrite (proj2 (existsb_In _ _)) in Hx11; [done|eauto].
  - intros n Hn Ht Hs. eapply resignAllowedFor_permitted; [done..|].
    destruct (allowResign config && _); [done|]. cbn in Hx12.
    erewrite matchingNodes_target in Hx12 by done.
    rewrite (proj2 (target_signed entry x3)) in Hx12; [done|eauto].
Qed.
End prepare.

(** ** What signing changes *)
Section sign_entry.
Variables (target : ScAddress) (sig : ScVal) (v : Z).

Definition signFlat (n : FlatNode) : FlatNode :=
  mkFlat (flat_address n) (if decide (flat_address n = target) then sig else flat_sig n)
    (flat_path n).

Lemma signFlat_under i l :
  map signFlat (map (flat_under i) l) = map (flat_under i) (map signFlat l).
Proof. rewrite !map_map. reflexivity. Qed.

Lemma flatDelegates_signDelegate ds :
  flatDelegates (map (signDelegate target sig) ds) = map signFlat (flatDelegates ds).
Proof.
  assert (Hd : ∀ ds, Forall (λ d, ∀ i,
    flatDelegate i (signDelegate target sig d) = map signFlat (flatDelegate i d)) ds).
  { clear ds. apply delegates_nested_ind. intros a s n IH i. cbn [signDelegate flatDelegate].
    rewrite signFlat_under. f_equal. cbn [map]. f_equal.
    generalize 0. induction IH as [|d n Hd _ IHn]; intros k; [done|].
    cbn [map imap_from concat]. by rewrite Hd, IHn, map_app. }
  unfold flatDelegates. generalize 0. induction (Hd ds) as [|d ds' Hd' _ IH]; intros k; [done|].
  cbn [map imap_from concat]. by rewrite Hd', IH, map_app.
Qed.

Lemma signEntry_credentials e a :
  addressCredentials (Credentials e) = Ok a →
  addressCredentials (Credentials (signEntry target sig v e)) =
    Ok (mkAddressCredentials (Address a) (Nonce a) v
          (if decide (Address a = target) then sig else Signature a)) ∧
  Credentials_Type (Credentials (signEntry target sig v e)) = Credentials_Type (Credentials e) ∧
  RootInvocation (signEntry target sig v e) = RootInvocation e ∧
  entryDelegates (signEntry target sig v e) = map (signDelegate target sig) (entryDelegates e).
Proof.
  intros Ha. unfold signEntry. rewrite Ha. unfold entryDelegates, is_delegates.
  apply addressCredentials_Ok in Ha.
  destruct e as [[|o|o|o|t] inv]; cbn in Ha;
    destruct Ha as [[Ht ?]|[[Ht ?]|(Ht & d & ? & <-)]]; by simplify_eq/=.
Qed.

Lemma flatNodes_signEntry e a :
  addressCredentials (Credentials e) = Ok a →
  flatNodes (signEntry target sig v e) = map signFlat (flatNodes e).
Proof.
  intros Ha. pose proof (signEntry_credentials e a Ha) as (Ha' & _ & _ & Hd).
  unfold flatNodes. rewrite Ha', Ha, Hd, flatDelegates_signDelegate. done.
Qed.

Lemma signed_content_signEntry e : signed_content (signEntry target sig v e) = signed_content e.
Proof.
  unfold signed_content at 2. destruct (addressCredentials (Credentials e)) as [a|] eqn:Ha.
  - pose proof (signEntry_credentials e a Ha) as (Ha' & Ht & Hr & _).
    unfold signed_content. rewrite Ha', Hr. unfold address_bound. by rewrite Ht.
  - unfold signEntry, signed_content. by rewrite !Ha.
Qed.
End sign_entry.

(** ** A successful call, taken apart *)
Section authorized.
Context `{SDK} `{!SDKLaws}.

Lemma AuthorizeEntry_Ok ctx entry signer v pass opts w out w' :
  AuthorizeEntry ctx entry signer v pass opts w = (Ok out, w') →
  is_source entry = false →
  ∃ s t plan payload sig w1 w2,
    signer = Some s ∧ prepared entry v pass (applyOptions opts) s t plan ∧
    Payload (plan_preimage plan) = Ok payload ∧
    signer_Sign s ctx (plan_preimage plan) payload w1 = (Ok sig, w2) ∧
    out = signEntry t sig v entry.
Proof.
  unfold AuthorizeEntry. intros Ha Hsrc. apply io_bind_Ok in Ha as ([] & w0 & Hc & Ha).
  rewrite Hsrc in Ha. inv_io. destruct x as [plan s].
  apply prepareAuthorize_Ok in Hl as (-> & t & Hprep). inv_io.
  destruct x2 as [sig|e]; inv_io; [|done]. unfold call_Sign in Hx2. inv_io.
  exists s, t, plan, x0, sig. apply wrap_Ok in Hl.
  do 2 eexists. split; [done|]. split; [exact Hprep|]. split; [done|]. split; [done|].
  pose proof Hprep as [Hs _ _ _ Hm [n [Hn _]] _ _ _ _]. rewrite Hs, Hm.
  unfold flatNodes in Hn. destruct (addressCredentials (Credentials entry)) as [a|] eqn:Hac;
    [by eapply fillEntry_signEntry|by apply not_elem_of_nil in Hn].
Qed.

Lemma prepared_credentials entry v pass config s t plan :
  prepared entry v pass config s t plan →
  ∃ a, addressCredentials (Credentials entry) = Ok a.
Proof.
  intros [_ _ _ _ _ (n & Hn & _) _ _ _ _]. unfold flatNodes in Hn.
  destruct (addressCredentials _); [eauto|by apply not_elem_of_nil in Hn].
Qed.

Lemma Preimage_signEntry t sig v e a v' pass :
  addressCredentials (Credentials e) = Ok a →
  Preimage (signEntry t sig v e) v' pass = Preimage e v' pass.
Proof.
  intros Ha. apply Preimage_content_eq; rewrite signed_content_signEntry; [done|].
  unfold signed_content. by rewrite Ha.
Qed.

(** Two different addresses are only found among the nodes of a delegates
    entry. *)
Lemma other_node_delegates entry v pass config s t plan n :
  prepared entry v pass config s t plan → n ∈ flatNodes entry → flat_address n ≠ t →
  is_delegates entry = true.
Proof.
  intros [_ _ _ _ _ (m & Hm & Ht) _ _ _ _] Hn Hne. unfold flatNodes, entryDelegates in *.
  destruct (addressCredentials _); [|by apply not_elem_of_nil in Hn].
  destruct (is_delegates entry); [done|].
  apply list_elem_of_singleton in Hn, Hm. congruence.
Qed.
End authorized.

(** ** Enough for a call to succeed *)
Section complete.
Context `{SDK} `{!SDKLaws}.

(** The conditions under which the checks pass: the mirror image of
    [prepared], plus the codec's and the parser's cooperation. *)
Record signable (entry : SorobanAuthorizationEntry) (v : Z) (pass : string)
    (config : authorizeConfig) (s : Signer) (t : ScAddress) (pre : HashIdPreimage) : Prop := {
  signable_expiration : v ≠ 0%Z;
  signable_named : targetOf config s ≠ "";
  signable_parse : ParseAddress (targetOf config s) = Ok t;
  signable_encoded : is_ok (addressBytes t) = true;
  signable_scope : is_ok (resignScope (allowResignAddresses config)) = true;
  signable_copy : Copy entry = Ok entry;
  signable_ordered : is_delegates entry = true → ValidateDelegateOrder entry = Ok tt;
  signable_walk : is_ok (credentialNodes entry) = true;
  signable_found : ∃ n, n ∈ flatNodes entry ∧ flat_address n = t;
  signable_agrees a n : addressCredentials (Credentials entry) = Ok a →
    is_delegates entry = true → n ∈ flatNodes entry → isSigned (flat_sig n) = true →
    SignatureExpirationLedger a = v;
  signable_resign n : n ∈ flatNodes entry → flat_address n = t →
    isSigned (flat_sig n) = true → resign_permitted config t;
  signable_preimage : Preimage entry v pass = Ok pre
}.

Lemma permitted_resignAllowedFor config scope t tenc :
  addressBytes t = Ok tenc → resignScope (allowResignAddresses config) = Ok scope →
  resign_permitted config t → allowResign config && resignAllowedFor tenc scope = true.
Proof.
  intros Ht Hs%imapM_from_Forall2 [-> Hr]. cbn.
  destruct Hr as [He|(addr & Hin & Hp)].
  { rewrite He in Hs. by inversion Hs. }
  unfold resignAllowedFor. destruct scope as [|x scope'] eqn:Hsc; [done|]. rewrite <-Hsc in *.
  apply list_elem_of_lookup in Hin as (i & Hi).
  destruct (Forall2_lookup_l _ _ _ _ _ Hs Hi) as (y & Hy & Hf). rewrite Hp in Hf. cbn in Hf.
  rewrite Ht in Hf. injection Hf as <-.
  apply existsb_In. exists tenc. split; [by eapply list_elem_of_lookup_2|by apply bytes_Equal_spec].
Qed.

Lemma prepareAuthorize_complete entry v pass config s t pre :
  signable entry v pass config s t pre → ∃ plan,
  prepareAuthorize entry (Some s) v pass config = Ok (plan, s) ∧ plan_preimage plan = pre.
Proof.
  intros [Hv Hnm Hpa Hen Hsc Hcp Hord Hwk Hfd Hag Hrs Hpre]. unfold prepareAuthorize.
  destruct (is_ok_Ok _ Hen) as [tenc Ht], (is_ok_Ok _ Hsc) as [scope Hscope],
    (is_ok_Ok _ Hwk) as [ns Hns].
  destruct (credentialNodes_credentials _ _ Hns) as [a Ha].
  unfold targetOf in *. rewrite Ha, (proj2 (Z.eqb_neq v 0) Hv).
  cbn [wrap refuse of_option mbind result_bind]. cbv zeta.
  rewrite bool_decide_eq_false_2 by done. cbn [refuse mbind result_bind]. rewrite Hpa. cbn [wrap mbind result_bind].
  rewrite Ht. cbn [wrap mbind result_bind]. rewrite Hscope. cbn [mbind result_bind].
  rewrite Hcp. cbn [wrap mbind result_bind]. rewrite Ha. cbn [wrap mbind result_bind].
  assert ((if is_delegates entry then wrap "soroauth: authorize entry"
    (ValidateDelegateOrder entry) else Ok tt) = Ok tt) as ->.
  { destruct (is_delegates entry); [by rewrite Hord|done]. }
  cbn [mbind result_bind]. rewrite Hns. cbn [wrap mbind result_bind].
  rewrite (matchingNodes_target _ _ _ _ Hns Ht).
  assert ((length (target_paths t (flatNodes entry)) =? 0) = false) as ->.
  { apply Nat.eqb_neq. destruct Hfd as (n & Hn & Hnt).
    assert (Hin : flat_path n ∈ target_paths t (flatNodes entry)).
    { apply list_elem_of_omap. exists n. by rewrite decide_True. }
    intros Hl%length_zero_iff_nil. rewrite Hl in Hin. by apply not_elem_of_nil in Hin. }
  cbn [refuse mbind result_bind].
  assert (is_delegates entry && negb (SignatureExpirationLedger a =? v)%Z &&
    existsb (λ n, nodeIsSigned entry (signature n)) ns = false) as ->.
  { rewrite (nodes_existsb_signed _ _ Hns). destruct (is_delegates entry); [|done]. cbn.
    destruct (existsb _ _) eqn:E; [|by rewrite andb_false_r].
    apply existsb_In in E as (n & Hn & Hs'). by rewrite (Hag a n), Z.eqb_refl. }
  cbn [refuse mbind result_bind].
  assert (negb (allowResign config && resignAllowedFor tenc scope) &&
    existsb (nodeIsSigned entry) (target_paths t (flatNodes entry)) = false) as ->.
  { destruct (existsb _ _) eqn:E; [|by rewrite andb_false_r].
    apply target_signed in E as (n & Hn & Hnt & Hs').
    by rewrite (permitted_resignAllowedFor _ _ t tenc) by eauto. }
  cbn [refuse mbind result_bind]. rewrite Hpre. cbn. eexists. by split.
Qed.
End complete.

(** ** Theorems *)
Section theorems.
Context `{SDK} `{!SDKLaws}.

(** A successful call of [AuthorizeEntry] on a signable entry asked the
    given signer once for a signature over the entry's own preimage and
    payload at a non-zero expiration, and returns exactly [signEntry]: the
    expiration set and that signature on the nodes of the target address. *)
Theorem AuthorizeEntry_signs ctx entry signer v pass opts w out w' :
  AuthorizeEntry ctx entry signer v pass opts w = (Ok out, w') →
  is_source entry = false →
  ∃ s t pre payload sig w1 w2,
    signer = Some s ∧ v ≠ 0%Z ∧
    ParseAddress (targetOf (applyOptions opts) s) = Ok t ∧
    Preimage entry v pass = Ok pre ∧ Payload pre = Ok payload ∧
    signer_Sign s ctx pre payload w1 = (Ok sig, w2) ∧
    out = signEntry t sig v entry.
Proof.
  intros Ha Hs. apply AuthorizeEntry_Ok in Ha as (s & t & plan & payload & sig & w1 & w2 &
    Hsig & [] & Hp & Hcall & Hout); [|done].
  exists s, t, (plan_preimage plan), payload, sig, w1, w2. by repeat split.
Qed.

(** C1. What was signed is what the host recomputes: the preimage of the
    returned entry at the expiration stored in it is the preimage handed to
    the signer, and the signer's answer sits on every node of the target
    address, of which there is one. *)
Theorem AuthorizeEntry_payload_agrees ctx entry signer v pass opts w out w' :
  AuthorizeEntry ctx entry signer v pass opts w = (Ok out, w') →
  is_source entry = false →
  ∃ s t a pre payload sig w1 w2,
    signer = Some s ∧ ParseAddress (targetOf (applyOptions opts) s) = Ok t ∧
    addressCredentials (Credentials out) = Ok a ∧
    Preimage out (SignatureExpirationLedger a) pass = Ok pre ∧ Payload pre = Ok payload ∧
    signer_Sign s ctx pre payload w1 = (Ok sig, w2) ∧
    (∃ n, n ∈ flatNodes out ∧ flat_address n = t) ∧
    (∀ n, n ∈ flatNodes out → flat_address n = t → flat_sig n = sig).
Proof.
  intros Ha Hs. apply AuthorizeEntry_Ok in Ha as (s & t & plan & payload & sig & w1 & w2 &
    Hsig & Hprep & Hp & Hcall & ->); [|done].
  destruct (prepared_credentials _ _ _ _ _ _ _ Hprep) as [a Ha].
  pose proof (signEntry_credentials t sig v entry a Ha) as (Ha' & _).
  pose proof (flatNodes_signEntry t sig v entry a Ha) as Hf.
  exists s, t. do 2 eexists. exists payload, sig, w1, w2.
  split; [done|]. split; [apply Hprep|]. split; [exact Ha'|]. cbn [SignatureExpirationLedger].
  rewrite (Preimage_signEntry _ _ _ _ a _ _ Ha).
  split; [apply Hprep|]. split; [done|]. split; [done|]. rewrite Hf. split.
  - destruct (prepared_found _ _ _ _ _ _ _ Hprep) as (n & Hn & Ht).
    exists (signFlat t sig n). split; [by apply list_elem_of_fmap_2|done].
  - intros n (m & -> & Hm)%list_elem_of_fmap. cbn. intros ->. by rewrite decide_True.
Qed.

(** C3. Nothing else changes: the returned entry has the credentials arm, the
    address, the nonce and the invocation tree of the input, and the same
    nodes in the same places, with every signature of another address as it
    was. *)
Theorem AuthorizeEntry_preserves ctx entry signer v pass opts w out w' :
  AuthorizeEntry ctx entry signer v pass opts w = (Ok out, w') →
  is_source entry = false →
  ∃ s t a a', signer = Some s ∧ ParseAddress (targetOf (applyOptions opts) s) = Ok t ∧
    addressCredentials (Credentials entry) = Ok a ∧
    addressCredentials (Credentials out) = Ok a' ∧
    Address a' = Address a ∧ Nonce a' = Nonce a ∧ SignatureExpirationLedger a' = v ∧
    Credentials_Type (Credentials out) = Credentials_Type (Credentials entry) ∧
    RootInvocation out = RootInvocation entry ∧
    Forall2 (λ n n', flat_address n' = flat_address n ∧ flat_path n' = flat_path n ∧
               (flat_address n ≠ t → flat_sig n' = flat_sig n))
      (flatNodes entry) (flatNodes out).
Proof.
  intros Ha Hs. apply AuthorizeEntry_Ok in Ha as (s & t & plan & payload & sig & w1 & w2 &
    Hsig & Hprep & _ & _ & ->); [|done].
  destruct (prepared_credentials _ _ _ _ _ _ _ Hprep) as [a Ha].
  pose proof (signEntry_credentials t sig v entry a Ha) as (Ha' & Ht & Hr & _).
  rewrite (flatNodes_signEntry t sig v entry a Ha). do 4 eexists.
  split; [done|]. split; [apply Hprep|]. split; [done|]. split; [exact Ha'|].
  do 3 (split; [done|]). split; [done|]. split; [done|].
  apply Forall2_fmap_r, Forall_Forall2_diag, Forall_true. intros n. cbn.
  split; [done|]. split; [done|]. intros. by rewrite decide_False.
Qed.

(** C2. Signatures that survive stay valid, and none is overwritten without
    permission: an existing signature of the target address is replaced only
    under an [AllowResign] that covers it, and for every other signed node
    the entry has the same payload before and after the call. *)
Theorem AuthorizeEntry_guards ctx entry signer v pass opts w out w' n :
  AuthorizeEntry ctx entry signer v pass opts w = (Ok out, w') →
  is_source entry = false → n ∈ flatNodes entry → isSigned (flat_sig n) = true →
  ∃ s t, signer = Some s ∧ ParseAddress (targetOf (applyOptions opts) s) = Ok t ∧
    (flat_address n = t → resign_permitted (applyOptions opts) t) ∧
    (flat_address n ≠ t → ∃ a a',
       addressCredentials (Credentials entry) = Ok a ∧
       addressCredentials (Credentials out) = Ok a' ∧
       Preimage out (SignatureExpirationLedger a') pass
       = Preimage entry (SignatureExpirationLedger a) pass).
Proof.
  intros Ha Hs Hn Hsn. apply AuthorizeEntry_Ok in Ha as (s & t & plan & payload & sig & w1 & w2 &
    Hsig & Hprep & _ & _ & ->); [|done].
  exists s, t. split; [done|]. split; [apply Hprep|]. split.
  { intros Ht. by eapply prepared_resign. }
  intros Ht. destruct (prepared_credentials _ _ _ _ _ _ _ Hprep) as [a Ha].
  pose proof (signEntry_credentials t sig v entry a Ha) as (Ha' & _).
  do 2 eexists. split; [done|]. split; [exact Ha'|]. cbn [SignatureExpirationLedger].
  rewrite (prepared_agrees _ _ _ _ _ _ _ Hprep a n Ha); [|eapply other_node_delegates|..]; try done.
  by eapply Preimage_signEntry.
Qed.

(** What a call asks of the outside, on every branch, for hooks and a
    signer that do nothing else: nothing when a check refuses; otherwise the
    hook events in the order preimage, sign, the request to the signer, then
    write and post-sign on success or a sign event carrying the error.  The
    signer is asked at most once, and once whenever a signable entry is
    returned. *)
Theorem AuthorizeEntry_trace ctx entry signer v pass opts w r w' :
  AuthorizeEntry ctx entry signer v pass opts w = (r, w') →
  Forall quiet (hook (applyOptions opts)) → (∀ s, signer = Some s → silent s) →
  (log w' = log w ∧ (is_ok r = true → is_source entry = true)) ∨
  ∃ s t pre,
    let ev p err := hookLog (hook (applyOptions opts)) (hookEvent p
      (credentialTypeName (Credentials_Type (Credentials entry))) t v err) in
    signer = Some s ∧ t = targetOf (applyOptions opts) s ∧ Preimage entry v pass = Ok pre ∧
    match Payload pre with
    | Err _ => is_ok r = false ∧ log w' = log w ++ ev HookPhasePreimage None
    | Ok payload => ∃ after,
        log w' = log w ++ ev HookPhasePreimage None ++ ev HookPhaseSign None ++
                 [EvSign (signer_Address s) pre payload] ++ after ∧
        ((is_ok r = true ∧ after = ev HookPhaseWrite None ++ ev HookPhasePostSign None) ∨
         (is_ok r = false ∧ ∃ e, after = ev HookPhaseSign (Some e)))
    end.
Proof.
  intros Ha Hq Hsil. unfold AuthorizeEntry in Ha.
  unfold mbind at 1, IO_bind at 1 in Ha.
  destruct (ctx_check ctx _ w) as [[[]|e] w1] eqn:Hc.
  2: { injection Ha as <- <-. apply ctx_check_Err in Hc as (? & _ & _ & ->). by left. }
  apply ctx_check_Ok in Hc as [_ ->].
  destruct (is_source entry); [unfold lift in Ha; injection Ha as <- <-; by left|].
  unfold mbind at 1, IO_bind at 1, lift at 1 in Ha.
  destruct (prepareAuthorize _ _ _ _ _) as [[plan s]|e] eqn:Hp;
    [right|injection Ha as <- <-; by left].
  apply prepareAuthorize_Ok in Hp as (-> & t & [Hps _ Htg _ _ _ Hpre _ _ _]).
  exists s, (plan_target plan), (plan_preimage plan). split; [done|]. split; [done|].
  split; [done|].
  apply emit_bind_quiet in Ha as (w1 & Hl1 & Ha); [|done].
  unfold mbind at 1, IO_bind at 1, lift at 1 in Ha.
  destruct (Payload (plan_preimage plan)) as [payload|e]; cbn [wrap] in Ha;
    [|by injection Ha as <- <-].
  apply emit_bind_quiet in Ha as (w2 & Hl2 & Ha); [|done].
  apply call_Sign_silent in Ha as (rs & w3 & Hl3 & Ha); [|by apply Hsil].
  destruct rs as [sig|e].
  - apply emit_bind_quiet in Ha as (w4 & Hl4 & Ha); [|done].
    apply emit_bind_quiet in Ha as (w5 & Hl5 & Ha); [|done].
    injection Ha as <- <-. eexists. split; [|left; split; [done|reflexivity]].
    rewrite Hl5, Hl4, Hl3, Hl2, Hl1, <-!app_assoc. done.
  - apply emit_bind_quiet in Ha as (w4 & Hl4 & Ha); [|done].
    injection Ha as <- <-. eexists. split; [|right; split; [done|exists e; reflexivity]].
    rewrite Hl4, Hl3, Hl2, Hl1, <-!app_assoc. done.
Qed.

(** Source-account entries pass through: with a live context and a
    working codec the call returns the entry itself, for any signer, even
    none, and asks the outside nothing. *)
Theorem AuthorizeEntry_source ctx entry signer v pass opts w :
  is_source entry = true → ctx_Err ctx (now w) = None → Copy entry = Ok entry →
  AuthorizeEntry ctx entry signer v pass opts w = (Ok entry, tick w).
Proof.
  intros Hs Hc Hcp. unfold AuthorizeEntry.
  unfold mbind at 1, IO_bind at 1. rewrite (proj2 (ctx_check_Ok _ _ _ tt _)) by done.
  by rewrite Hs, Hcp.
Qed.

(** C4. The checks refuse nothing else: on a [signable] entry, with a live
    context, a payload and a signer that answers, the call returns an entry,
    whatever the hooks do. *)
Theorem AuthorizeEntry_complete ctx entry s v pass opts w t pre payload :
  signable entry v pass (applyOptions opts) s t pre →
  is_source entry = false → ctx_Err ctx (now w) = None → Payload pre = Ok payload →
  (∀ w1, ∃ sig w2, signer_Sign s ctx pre payload w1 = (Ok sig, w2)) →
  ∃ out w', AuthorizeEntry ctx entry (Some s) v pass opts w = (Ok out, w').
Proof.
  intros Hsg Hs Hc Hp Hsign. unfold AuthorizeEntry.
  unfold mbind at 1, IO_bind at 1. rewrite (proj2 (ctx_check_Ok _ _ _ tt _)) by done.
  rewrite Hs. destruct (prepareAuthorize_complete _ _ _ _ _ _ _ Hsg) as (plan & Hpl & <-).
  unfold mbind at 1, IO_bind at 1, lift at 1. rewrite Hpl.
  apply emit_bind_ok. intros w1. unfold mbind at 1, IO_bind at 1, lift at 1. rewrite Hp.
  cbn [wrap]. apply emit_bind_ok. intros w2.
  destruct (Hsign (emit_event (EvSign (signer_Address s) (plan_preimage plan) payload) w2))
    as (sig & w3 & Hsig).
  unfold mbind at 1, IO_bind at 1, try_, call_Sign. unfold mbind at 1, IO_bind at 1. cbn.
  rewrite Hsig. apply emit_bind_ok. intros w4. apply emit_bind_ok. intros w5. by do 2 eexists.
Qed.
End theorems.

(** ** The theorems at concrete entries *)
(** Signing the delegates entry for the address at two depths, with a hook. *)
Definition ex_opts : list AuthorizeOption := [WithHook (Some NoOpHook)].

Definition ex_authorized : SorobanAuthorizationEntry :=
  match (AuthorizeEntry Background ex_delegates (Some (ex_signer "c")) 1000 ex_network ex_opts
           initial_world).1 with
  | Ok out => out
  | Err _ => ex_source
  end.

Lemma ex_authorized_run : ∃ w',
  AuthorizeEntry Background ex_delegates (Some (ex_signer "c")) 1000 ex_network ex_opts
    initial_world = (Ok ex_authorized, w').
Proof. eexists. vm_compute. reflexivity. Qed.

(** Both nodes of [c] are signed, [b] and the account are not. *)
Example ex_authorized_nodes :
  map (λ n, isSigned (flat_sig n)) (flatNodes ex_authorized) = [false; false; true; true].
Proof. vm_compute. reflexivity. Qed.

Lemma AuthorizeEntry_signs_witness : ∃ s t pre payload sig w1 w2,
  Some (ex_signer "c") = Some s ∧ 1000%Z ≠ 0%Z ∧
  ParseAddress (targetOf (applyOptions ex_opts) s) = Ok t ∧
  Preimage ex_delegates 1000 ex_network = Ok pre ∧ Payload pre = Ok payload ∧
  signer_Sign s Background pre payload w1 = (Ok sig, w2) ∧
  ex_authorized = signEntry t sig 1000 ex_delegates.
Proof.
  destruct ex_authorized_run as [w' Hr]. exact (AuthorizeEntry_signs _ _ _ _ _ _ _ _ _ Hr eq_refl).
Defined.

Lemma AuthorizeEntry_payload_agrees_witness : ∃ s t a pre payload sig w1 w2,
  Some (ex_signer "c") = Some s ∧ ParseAddress (targetOf (applyOptions ex_opts) s) = Ok t ∧
  addressCredentials (Credentials ex_authorized) = Ok a ∧
  Preimage ex_authorized (SignatureExpirationLedger a) ex_network = Ok pre ∧
  Payload pre = Ok payload ∧ signer_Sign s Background pre payload w1 = (Ok sig, w2) ∧
  (∃ n, n ∈ flatNodes ex_authorized ∧ flat_address n = t) ∧
  (∀ n, n ∈ flatNodes ex_authorized → flat_address n = t → flat_sig n = sig).
Proof.
  destruct ex_authorized_run as [w' Hr].
  exact (AuthorizeEntry_payload_agrees _ _ _ _ _ _ _ _ _ Hr eq_refl).
Defined.

Lemma AuthorizeEntry_preserves_witness : ∃ s t a a',
  Some (ex_signer "c") = Some s ∧ ParseAddress (targetOf (applyOptions ex_opts) s) = Ok t ∧
  addressCredentials (Credentials ex_delegates) = Ok a ∧
  addressCredentials (Credentials ex_authorized) = Ok a' ∧
  Address a' = Address a ∧ Nonce a' = Nonce a ∧ SignatureExpirationLedger a' = 1000%Z ∧
  Credentials_Type (Credentials ex_authorized) = Credentials_Type (Credentials ex_delegates) ∧
  RootInvocation ex_authorized = RootInvocation ex_delegates ∧
  Forall2 (λ n n', flat_address n' = flat_address n ∧ flat_path n' = flat_path n ∧
             (flat_address n ≠ t → flat_sig n' = flat_sig n))
    (flatNodes ex_delegates) (flatNodes ex_authorized).
Proof.
  destruct ex_authorized_run as [w' Hr].
  exact (AuthorizeEntry_preserves _ _ _ _ _ _ _ _ _ Hr eq_refl).
Defined.

(** A second signer adds its signature at the same expiration; [c]'s node is
    one of the survivors. *)
Definition ex_signed_node : FlatNode :=
  mkFlat (ex_account "c") (default ScvVoid (readSignature ex_authorized [1])) [1].

Lemma ex_second_run : ∃ out w',
  AuthorizeEntry Background ex_authorized (Some (ex_signer "b")) 1000 ex_network [] initial_world
  = (Ok out, w').
Proof. do 2 eexists. vm_compute. reflexivity. Qed.

Lemma AuthorizeEntry_guards_witness : ∃ out s t, Some (ex_signer "b") = Some s ∧
  ParseAddress (targetOf (applyOptions []) s) = Ok t ∧
  (flat_address ex_signed_node = t → resign_permitted (applyOptions []) t) ∧
  (flat_address ex_signed_node ≠ t → ∃ a a',
     addressCredentials (Credentials ex_authorized) = Ok a ∧
     addressCredentials (Credentials out) = Ok a' ∧
     Preimage out (SignatureExpirationLedger a') ex_network
     = Preimage ex_authorized (SignatureExpirationLedger a) ex_network).
Proof.
  destruct ex_second_run as (out & w' & Hr). exists out.
  apply (AuthorizeEntry_guards _ _ _ _ _ _ _ _ _ ex_signed_node Hr).
  - reflexivity.
  - apply (list_elem_of_lookup_2 _ 3). vm_compute. reflexivity.
  - vm_compute. reflexivity.
Defined.

Lemma AuthorizeEntry_trace_witness : let w := initial_world in
  let '(r, w') := AuthorizeEntry Background ex_delegates (Some (ex_signer "c")) 1000 ex_network
                    ex_opts w in
  (log w' = log w ∧ (is_ok r = true → is_source ex_delegates = true)) ∨
  ∃ s t pre,
    let ev p err := hookLog (hook (applyOptions ex_opts)) (hookEvent p
      (credentialTypeName (Credentials_Type (Credentials ex_delegates))) t 1000 err) in
    Some (ex_signer "c") = Some s ∧ t = targetOf (applyOptions ex_opts) s ∧
    Preimage ex_delegates 1000 ex_network = Ok pre ∧
    match Payload pre with
    | Err _ => is_ok r = false ∧ log w' = log w ++ ev HookPhasePreimage None
    | Ok payload => ∃ after,
        log w' = log w ++ ev HookPhasePreimage None ++ ev HookPhaseSign None ++
                 [EvSign (signer_Address s) pre payload] ++ after ∧
        ((is_ok r = true ∧ after = ev HookPhaseWrite None ++ ev HookPhasePostSign None) ∨
         (is_ok r = false ∧ ∃ e, after = ev HookPhaseSign (Some e)))
    end.
Proof.
  intros w. destruct (AuthorizeEntry _ _ _ _ _ _ w) as [r w'] eqn:Hr.
  apply (AuthorizeEntry_trace _ _ _ _ _ _ _ _ _ Hr).
  - constructor; [|constructor]. intros ctx e w1. exists (Ok tt). reflexivity.
  - intros s [= <-] ctx pre payload w1. reflexivity.
Defined.

Lemma AuthorizeEntry_source_witness :
  AuthorizeEntry Background ex_source None 0 "" [] initial_world
  = (Ok ex_source, tick initial_world).
Proof. apply AuthorizeEntry_source; vm_compute; reflexivity. Defined.

Definition ex_preimage : HashIdPreimage :=
  match Preimage ex_delegates 1000 ex_network with
  | Ok p => p
  | Err _ => mkHashIdPreimage 0 None None
  end.

Definition ex_payload : bytes :=
  match Payload ex_preimage with Ok p => p | Err _ => [] end.

Lemma ex_unsigned n : n ∈ flatNodes ex_delegates → isSigned (flat_sig n) = true → False.
Proof.
  intros Hn Hs. assert (Hf : existsb (λ n, isSigned (flat_sig n)) (flatNodes ex_delegates) = false)
    by (vm_compute; reflexivity).
  rewrite (proj2 (existsb_In _ _)) in Hf; [done|eauto].
Qed.

Lemma AuthorizeEntry_complete_witness : ∃ out w',
  AuthorizeEntry Background ex_delegates (Some (ex_signer "c")) 1000 ex_network [] initial_world
  = (Ok out, w').
Proof.
  apply (AuthorizeEntry_complete _ _ _ _ _ _ _ (ex_account "c") ex_preimage ex_payload).
  - split; try (vm_compute; reflexivity); try done.
    + exists (mkFlat (ex_account "c") ScvVoid [0; 0]). split; [|reflexivity].
      apply (list_elem_of_lookup_2 _ 2). vm_compute. reflexivity.
    + intros a n _ _ Hn Hs. by destruct (ex_unsigned n).
    + intros n Hn _ Hs. by destruct (ex_unsigned n).
  - reflexivity.
  - reflexivity.
  - vm_compute. reflexivity.
  - intros w1. do 2 eexists. reflexivity.
Defined.
