(* ===== verification/Coordinator.v ===== *)
(** * Coordinator: following the signing of a delegate tree (coordinator.go)

    A coordinator holds a delegates entry, the tree's nodes and a map from
    address encodings to "has signed".  Its methods are functions on that
    state; a failed [Record] leaves it as it was.  The entry is stored as it
    is given, without a copy, so the model is of a caller who leaves it alone.

    [Record] keeps the copy of the entry it made before asking for the
    signature and drops what [AuthorizeEntry] returns, so the tracked entry
    never changes: [Coordinator_session] shows both sides, an exact account of
    who was recorded and an entry that holds none of the answers. *)
From Stdlib Require Import ZArith Lia Strings.Byte String.
From stdpp Require Import base list strings gmap pretty sorting.
From S2P Require Import Prelude Errors Xdr ModelSDK Runtime Examples Address Limits Arm Preimage Nodes.
From S2P Require Import Delegates Authorize.

Open Scope string_scope. Open Scope nat_scope. Open Scope list_scope.

(** ** State *)
Record NodeState := mkNodeState {
  NodeState_Address : string;
  NodeState_Signed : bool;
  NodeState_Depth : nat
}.

Record SessionState := mkSessionState {
  Session_CredentialType : string;
  Session_TopLevel : string;
  Session_ValidUntilLedger : Z;
  Session_Nodes : list NodeState;
  Session_SignedCount : nat;
  Session_TotalNodes : nat
}.

Record trackedNode := mkTrackedNode {
  tracked_node : SorobanDelegateSignature;
  tracked_encoded : bytes;
  tracked_depth : nat
}.

Record Coordinator := mkCoordinator {
  coordinator_entry : SorobanAuthorizationEntry;
  coordinator_validUntilLedger : Z;
  coordinator_networkPassphrase : string;
  coordinator_nodes : list trackedNode;
  signedMap : gmap bytes bool
}.

Section coordinator.
Context `{SDK}.

(** ** Construction *)
(** A node whose address does not encode is left out, with everything below
    it. *)
Fixpoint flattenDelegate (depth : nat) (d : SorobanDelegateSignature) : list trackedNode :=
  match d with
  | mkDelegateSignature a s n =>
      match addressBytes a with
      | Err _ => []
      | Ok encoded => mkTrackedNode d encoded depth :: concat (map (flattenDelegate (S depth)) n)
      end
  end.

Definition flattenDelegates (nodes : list SorobanDelegateSignature) (depth : nat)
    : list trackedNode := concat (map (flattenDelegate depth) nodes).

Definition buildNodes (nodes : list trackedNode) : gmap bytes bool :=
  foldl (λ m n, <[tracked_encoded n := false]> m) ∅ nodes.

Definition NewCoordinator (entry : SorobanAuthorizationEntry) (validUntilLedger : Z)
    (networkPassphrase : string) : result Coordinator :=
  let op := "soroauth: new coordinator" in
  _ ← refuse (negb (Credentials_Type (Credentials entry) =? CredentialsAddressWithDelegates)%Z)
        (EWrap op (ESentinel ErrUnsupportedCredentials));
  _ ← refuse (validUntilLedger =? 0)%Z (EWrap op (ESentinel ErrInvalidExpiration));
  arm ← of_option (Credentials_AddressWithDelegates (Credentials entry))
          (EWrap (op +:+ ": address_with_delegates credentials arm is empty")
             (ESentinel ErrUnsupportedCredentials));
  let nodes := flattenDelegates (Delegates arm) 0 in
  Ok (mkCoordinator entry validUntilLedger networkPassphrase nodes (buildNodes nodes)).

(** ** Queries *)
(** A key that is not in the map reads as [false]. *)
Definition hasSigned (c : Coordinator) (encoded : bytes) : bool :=
  default false (signedMap c !! encoded).

(** [address, _ := FormatAddress(a)]: the zero string when it fails. *)
Definition formatOrEmpty (a : ScAddress) : string :=
  match FormatAddress a with Ok s => s | Err _ => "" end.

Definition nodeState (c : Coordinator) (n : trackedNode) : NodeState :=
  mkNodeState (formatOrEmpty (delegate_Address (tracked_node n)))
    (hasSigned c (tracked_encoded n)) (tracked_depth n).

(** Nodes of one address may come out of [sort.Slice] in any order; this is
    the order of a stable sort. *)
Definition State (c : Coordinator) : SessionState :=
  let states := map (nodeState c) (coordinator_nodes c) in
  mkSessionState "address_with_delegates"
    (match Credentials_AddressWithDelegates (Credentials (coordinator_entry c)) with
     | Some d => formatOrEmpty (Address (AddressCredentials d))
     | None => ""
     end)
    (coordinator_validUntilLedger c)
    (sort_by (bytes_of_string ∘ NodeState_Address) states)
    (length (filter (λ n, hasSigned c (tracked_encoded n) = true) (coordinator_nodes c)))
    (length (coordinator_nodes c)).

Definition Coordinator_IsComplete (c : Coordinator) : bool :=
  forallb snd (map_to_list (signedMap c)) && Nat.ltb 0 (length (coordinator_nodes c)).

Definition Remaining (c : Coordinator) : list string :=
  sort_by bytes_of_string
    (map (λ n, formatOrEmpty (delegate_Address (tracked_node n)))
       (filter (λ n, hasSigned c (tracked_encoded n) = false) (coordinator_nodes c))).

Definition SignedCount (c : Coordinator) : nat :=
  length (filter (λ kv, kv.2 = true) (map_to_list (signedMap c))).

Definition TotalCount (c : Coordinator) : nat := length (coordinator_nodes c).

Definition TopLevelAddress (c : Coordinator) : result string :=
  arm ← of_option (Credentials_AddressWithDelegates (Credentials (coordinator_entry c)))
          (EText "soroauth: coordinator: not a delegates entry");
  FormatAddress (Address (AddressCredentials arm)).

Definition Entry (c : Coordinator) : result SorobanAuthorizationEntry :=
  Copy (coordinator_entry c).

Definition ValidateExpirationConsistency (c : Coordinator) : result unit :=
  existing ← addressCredentials (Credentials (coordinator_entry c));
  refuse (negb (SignatureExpirationLedger existing =? coordinator_validUntilLedger c)%Z
          && existsb (λ n, isSigned (delegate_Signature (tracked_node n))) (coordinator_nodes c))
    (EWrap "soroauth: coordinator: expiration mismatch" (ESentinel ErrInvalidExpiration)).

(** ** Persistence *)
Section persistence.
Context (json_Marshal : SessionState → result bytes) (json_Unmarshal : bytes → result SessionState).

Definition MarshalState (c : Coordinator) : result bytes := json_Marshal (State c).

Definition UnmarshalState (data : bytes) : result SessionState :=
  wrap "soroauth: unmarshal state" (json_Unmarshal data).
End persistence.

(** ** Recording a signature *)
Definition addressBytesFromStr (addr : string) : result bytes :=
  parsed ← ParseAddress addr; addressBytes parsed.

Definition Record_ (c : Coordinator) (ctx : Ctx) (target : string) (signer : option Signer)
    : IO Coordinator :=
  let op := "soroauth: coordinator record" in
  let requested := coordinator_validUntilLedger c in
  _ ← ctx_check ctx op;
  signed ← lift (wrap op (Copy (coordinator_entry c)));
  existing ← lift (wrap op (addressCredentials (Credentials signed)));
  let stored := SignatureExpirationLedger existing in
  _ ← lift (refuse (negb (stored =? requested)%Z
                    && existsb (λ n, hasSigned c (tracked_encoded n)) (coordinator_nodes c))
              (EWrap (op +:+ ": the entry already carries signatures over expiration " +:+
                      pretty stored +:+ ", but " +:+ pretty requested +:+ " was requested")
                 (ESentinel ErrInvalidExpiration)));
  _ ← io_wrap op (AuthorizeEntry ctx signed signer requested (coordinator_networkPassphrase c)
                    [ForAddress target]);
  targetEncoded ← lift (wrap op (addressBytesFromStr target));
  mret (mkCoordinator signed requested (coordinator_networkPassphrase c) (coordinator_nodes c)
          (<[targetEncoded := true]> (signedMap c))).
End coordinator.

(** ** The nodes of a coordinator are the delegates of its entry *)
Section tracked.
Context `{SDK}.

Definition encodable (a : ScAddress) : Prop := ∃ b, addressBytes a = Ok b.

(** A node's address and the number of its level, counted from one. *)
Definition flat_level (depth : nat) (n : FlatNode) : ScAddress * nat :=
  (flat_address n, depth + length (flat_path n)).
Definition tracked_level (n : trackedNode) : ScAddress * nat :=
  (delegate_Address (tracked_node n), S (tracked_depth n)).

Lemma flat_level_under depth i l :
  map (flat_level depth) (map (flat_under i) l) = map (flat_level (S depth)) l.
Proof. rewrite map_map. apply map_ext. intros n. unfold flat_level. cbn. by rewrite Nat.add_succ_r. Qed.

Lemma flat_address_under i l : map flat_address (map (flat_under i) l) = map flat_address l.
Proof. rewrite map_map. by apply map_ext. Qed.

Lemma flattenDelegate_levels d depth i :
  Forall encodable (map flat_address (flatDelegate i d)) →
  map (flat_level depth) (flatDelegate i d) = map tracked_level (flattenDelegate depth d).
Proof.
  revert depth i. induction d as [a s n IH] using delegate_nested_ind. intros depth i.
  cbn [flatDelegate flattenDelegate]. rewrite flat_level_under, flat_address_under.
  cbn [map flat_address].
  intros [(b & ->) Hf]%Forall_cons. cbn [map]. f_equal.
  { unfold flat_level, tracked_level. cbn. by rewrite Nat.add_0_r. }
  revert Hf. generalize 0 as j.
  induction IH as [|d n Hd _ IHn]; intros j Hf; [done|].
  cbn in Hf |- *. rewrite map_app in Hf. apply Forall_app in Hf as [Hh Ht].
  rewrite !map_app. f_equal; [by apply Hd|by apply IHn].
Qed.

Lemma flattenDelegates_levels ds depth :
  Forall encodable (map flat_address (flatDelegates ds)) →
  map (flat_level depth) (flatDelegates ds) = map tracked_level (flattenDelegates ds depth).
Proof.
  unfold flatDelegates, flattenDelegates. generalize 0 as i. induction ds as [|d ds IH]; intros i Hf; [done|].
  cbn in Hf |- *. rewrite map_app in Hf. apply Forall_app in Hf as [Hh Ht]. rewrite !map_app.
  f_equal; [by apply flattenDelegate_levels|by apply IH].
Qed.

Lemma flattenDelegates_addresses ds depth :
  Forall encodable (map flat_address (flatDelegates ds)) →
  map flat_address (flatDelegates ds) =
    map (λ n, delegate_Address (tracked_node n)) (flattenDelegates ds depth).
Proof.
  intros Hf%(flattenDelegates_levels ds depth)%(f_equal (map fst)). by rewrite !map_map in Hf.
Qed.

Lemma flattenDelegate_encoded d depth :
  Forall (λ n, addressBytes (delegate_Address (tracked_node n)) = Ok (tracked_encoded n))
    (flattenDelegate depth d).
Proof.
  revert depth. induction d as [a s n IH] using delegate_nested_ind. intros depth.
  cbn [flattenDelegate]. destruct (addressBytes a) as [b|e] eqn:Hb; [|constructor].
  constructor; [done|]. induction IH as [|d n Hd _ IHn]; cbn; [constructor|].
  apply Forall_app. split; [apply Hd|apply IHn].
Qed.

Lemma flattenDelegates_encoded ds depth :
  Forall (λ n, addressBytes (delegate_Address (tracked_node n)) = Ok (tracked_encoded n))
    (flattenDelegates ds depth).
Proof.
  unfold flattenDelegates. induction ds as [|d ds IH]; cbn; [constructor|].
  apply Forall_app. split; [apply flattenDelegate_encoded|done].
Qed.
End tracked.

(** ** A session: attempts to record, in order *)
(** [attempts c targets c']: from [c], some attempts failed and those for
    [targets] succeeded, in that order, and led to [c']. *)
Inductive attempts `{SDK} : Coordinator → list string → Coordinator → Prop :=
| attempts_none c : attempts c [] c
| attempts_recorded c ctx target signer w c1 w' targets c2 :
    Record_ c ctx target signer w = (Ok c1, w') → attempts c1 targets c2 →
    attempts c (target :: targets) c2
| attempts_failed c ctx target signer w e w' targets c2 :
    Record_ c ctx target signer w = (Err e, w') → attempts c targets c2 →
    attempts c targets c2.

(** ** The persisted state *)
Section persisted.
Context `{SDK}.
Context (json_Marshal : SessionState → result bytes) (json_Unmarshal : bytes → result SessionState).
(** [encoding/json] reads back what it wrote. *)
Hypothesis json_round : ∀ st b, json_Marshal st = Ok b → json_Unmarshal b = Ok st.

Lemma counts_split {A} (p : A → bool) l :
  length (filter (λ x, p x = true) l) + length (filter (λ x, p x = false) l) = length l.
Proof.
  induction l as [|x l IH]; [done|]. rewrite !filter_cons.
  destruct (p x); repeat case_decide; cbn [length]; done || lia.
Qed.

(** Whoever reads a persisted state knows what the coordinator knows: one row
    per node, the counts of the rows, and the addresses that remain as the rows
    that are not signed. *)
Lemma UnmarshalState_reads c data : MarshalState json_Marshal c = Ok data →
  ∃ st, UnmarshalState json_Unmarshal data = Ok st ∧
    Session_TotalNodes st = TotalCount c ∧ length (Session_Nodes st) = Session_TotalNodes st ∧
    Session_SignedCount st + length (Remaining c) = Session_TotalNodes st ∧
    ∀ a, a ∈ Remaining c ↔ ∃ n, n ∈ Session_Nodes st ∧ NodeState_Address n = a ∧
           NodeState_Signed n = false.
Proof.
  intros Hm%json_round. exists (State c). unfold UnmarshalState. rewrite Hm. split; [done|].
  unfold State, Remaining, TotalCount; cbn. rewrite !sort_by_perm, !length_map, counts_split.
  do 3 (split; [done|]). intros a. setoid_rewrite sort_by_perm. setoid_rewrite list_elem_of_fmap.
  setoid_rewrite list_elem_of_filter. unfold nodeState. naive_solver.
Qed.
End persisted.

Section session.
Context `{SDK} `{!SDKLaws}.

(** The map of a coordinator in which exactly the encodings [recorded] were
    recorded. *)
Definition tracks (c : Coordinator) (recorded : list bytes) : Prop := ∀ k,
  (signedMap c !! k = Some true ↔ k ∈ recorded) ∧
  (signedMap c !! k = Some false ↔ k ∈ tracked_encoded <$> coordinator_nodes c ∧ k ∉ recorded).

Lemma buildNodes_lookup nodes k b :
  buildNodes nodes !! k = Some b ↔ b = false ∧ k ∈ tracked_encoded <$> nodes.
Proof.
  unfold buildNodes. 
  enough (Hgen : ∀ m : gmap bytes bool,
    lookup k (foldl (λ m n, <[tracked_encoded n := false]> m) m nodes) = Some b ↔
      (b = false ∧ k ∈ (tracked_encoded <$> nodes)) ∨
      (¬ (k ∈ (tracked_encoded <$> nodes)) ∧ m !! k = Some b)).
  { rewrite Hgen, lookup_empty. split; [by intros [?|[_ ?]]|auto]. }
  induction nodes as [|n nodes IH]; intros m; cbn.
  - split; [intros Hm; right; split; [apply not_elem_of_nil|done]|].
    intros [[_ Hk]|[_ Hk]]; [by apply not_elem_of_nil in Hk|done].
  - rewrite IH, elem_of_cons. destruct (decide (k = tracked_encoded n)) as [->|Hne].
    + rewrite lookup_insert_eq. split.
      * intros [[-> ?]|[? [= <-]]]; left; auto.
      * intros [[-> _]|[Hn _]]; [|exfalso; auto].
        destruct (decide (tracked_encoded n ∈ tracked_encoded <$> nodes)); auto.
    + rewrite lookup_insert_ne by done. split; [tauto|]. intros [(-> & [?|?])|[? ?]]; tauto.
Qed.

Lemma Record_Ok c ctx target signer w c' w' :
  Record_ c ctx target signer w = (Ok c', w') →
  is_source (coordinator_entry c) = false →
  ∃ a k, ParseAddress target = Ok a ∧ addressBytes a = Ok k ∧
    (∃ n, n ∈ flatNodes (coordinator_entry c) ∧ flat_address n = a) ∧
    c' = mkCoordinator (coordinator_entry c) (coordinator_validUntilLedger c)
           (coordinator_networkPassphrase c) (coordinator_nodes c) (<[k := true]> (signedMap c)).
Proof.
  unfold Record_. intros Hr Hsrc. apply io_bind_Ok in Hr as ([] & w0 & _ & Hr).
  apply io_bind_Ok in Hr as (signed & w1 & (Hc%wrap_Ok%Copy_Ok & ->)%lift_Ok & Hr). subst signed.
  apply io_bind_Ok in Hr as (ex & w2 & _ & Hr). apply io_bind_Ok in Hr as (? & w3 & _ & Hr).
  apply io_bind_Ok in Hr as (out & w4 & Ha%io_wrap_Ok & Hr).
  apply AuthorizeEntry_Ok in Ha as (s & t & plan & payload & sig & ? & ? & _ & Hp & _); [|done].
  destruct Hp as [_ _ _ Hparse _ Hfound _ _ _ _]. cbn in Hparse.
  apply io_bind_Ok in Hr as (k & w5 & (Hk%wrap_Ok & ->)%lift_Ok & Hr).
  unfold addressBytesFromStr in Hk. rewrite Hparse in Hk. cbn in Hk.
  injection Hr as <- _. eauto 10.
Qed.

Lemma tracks_insert c recorded e k :
  tracks c recorded →
  tracks (mkCoordinator e (coordinator_validUntilLedger c) (coordinator_networkPassphrase c)
            (coordinator_nodes c) (<[k := true]> (signedMap c))) (k :: recorded).
Proof.
  intros Ht k'. destruct (Ht k') as [H1 H2]. cbn [signedMap coordinator_nodes].
  rewrite elem_of_cons. destruct (decide (k' = k)) as [->|Hne].
  - rewrite lookup_insert_eq. split; [tauto|]. split; [done|tauto].
  - rewrite lookup_insert_ne by done. rewrite H1, H2. tauto.
Qed.

(** Everything but the map is kept, and the map gains the targets. *)
Lemma attempts_tracks c targets c' :
  attempts c targets c' → is_source (coordinator_entry c) = false → ∀ recorded, tracks c recorded →
  coordinator_entry c' = coordinator_entry c ∧ coordinator_nodes c' = coordinator_nodes c ∧
  coordinator_validUntilLedger c' = coordinator_validUntilLedger c ∧
  Forall (λ t, ∃ a, ParseAddress t = Ok a ∧
            ∃ n, n ∈ flatNodes (coordinator_entry c) ∧ flat_address n = a) targets ∧
  ∃ recorded', tracks c' recorded' ∧
    ∀ k, k ∈ recorded' ↔ k ∈ recorded ∨ ∃ t, t ∈ targets ∧ addressBytesFromStr t = Ok k.
Proof.
  induction 1 as [c|c ctx t s w c1 w' ts c2 Hr _ IH|c ctx t s w e w' ts c2 _ _ IH];
    intros Hsrc rec Hrec.
  - repeat split; [constructor|]. exists rec. split; [done|]. intros k. set_solver.
  - apply Record_Ok in Hr as (a & k & Hp & Hk & Hfound & ->); [|done].
    destruct (IH Hsrc (k :: rec) (tracks_insert _ _ _ _ Hrec)) as (He & Hn & Hv & Hf & rec' & Ht & Hrec').
    cbn in He, Hn, Hv, Hf. do 3 (split; [done|]). split; [constructor; eauto|].
    exists rec'. split; [done|]. intros k'. rewrite Hrec'.
    assert (Hk' : addressBytesFromStr t = Ok k) by (unfold addressBytesFromStr; by rewrite Hp).
    setoid_rewrite elem_of_cons. split.
    + intros [[->|?]|(t' & ? & ?)]; eauto.
    + intros [?|(t' & [->|?] & Ht')]; [auto| |eauto]. left. left. congruence.
  - by apply IH.
Qed.

Lemma IsComplete_tracks c recorded :
  tracks c recorded →
  Coordinator_IsComplete c = true ↔
  coordinator_nodes c ≠ [] ∧ Forall (λ n, tracked_encoded n ∈ recorded) (coordinator_nodes c).
Proof.
  intros Ht. unfold Coordinator_IsComplete. rewrite andb_true_iff, Nat.ltb_lt, forallb_forall.
  setoid_rewrite <-list_elem_of_In. rewrite Forall_forall. split.
  - intros [Hall Hlen]. split; [by destruct (coordinator_nodes c); cbn in Hlen; [lia|]|].
    intros n Hn. destruct (Ht (tracked_encoded n)) as [_ H2].
    destruct (decide (tracked_encoded n ∈ recorded)) as [|Hni]; [done|]. exfalso.
    enough (false = true) by done. apply (Hall (tracked_encoded n, false)), elem_of_map_to_list, H2.
    split; [by apply list_elem_of_fmap_2|done].
  - intros [Hne Hall]. split; [|destruct (coordinator_nodes c); [done|cbn; lia]].
    intros [k []] Hk; [done|]. apply elem_of_map_to_list, Ht in Hk as [Hk Hni].
    apply list_elem_of_fmap in Hk as (n & -> & Hn). by apply Hall in Hn.
Qed.
End session.

(** ** The check against the stored expiration *)
Section stuck.
Context `{SDK} `{!SDKLaws}.

(** A delegate is recorded and the entry stores another expiration. *)
Definition stuck (c : Coordinator) : Prop :=
  (∃ n, n ∈ coordinator_nodes c ∧ hasSigned c (tracked_encoded n) = true) ∧
  ∀ a, addressCredentials (Credentials (coordinator_entry c)) = Ok a →
    SignatureExpirationLedger a ≠ coordinator_validUntilLedger c.

Lemma Record_stuck c ctx target signer w c' w' :
  stuck c → Record_ c ctx target signer w ≠ (Ok c', w').
Proof.
  intros [(n & Hn & Hs) Hexp] Hr. unfold Record_ in Hr.
  apply io_bind_Ok in Hr as ([] & w0 & _ & Hr).
  apply io_bind_Ok in Hr as (signed & w1 & (Hc%wrap_Ok%Copy_Ok & ->)%lift_Ok & Hr). subst signed.
  apply io_bind_Ok in Hr as (a & w2 & (Ha%wrap_Ok & ->)%lift_Ok & Hr).
  apply io_bind_Ok in Hr as ([] & w3 & (Hx%refuse_Ok & ->)%lift_Ok & _).
  apply andb_false_iff in Hx as [Hx|Hx].
  - apply negb_false_iff, Z.eqb_eq in Hx. by apply (Hexp a).
  - rewrite <-not_true_iff_false in Hx. apply Hx, existsb_In. eauto.
Qed.

Lemma attempts_stuck c targets c' : attempts c targets c' → stuck c → targets = [].
Proof.
  induction 1 as [c|c ctx t s w c1 w' ts c2 Hr _ _|c ctx t s w e w' ts c2 _ _ IH]; intros Hs;
    [done| |by apply IH]. by destruct (Record_stuck _ _ _ _ _ _ _ Hs Hr).
Qed.

(** After a delegate is recorded, nothing more is. *)
Lemma attempts_once c before t after c' :
  attempts c (before ++ t :: after) c' → is_source (coordinator_entry c) = false →
  (∀ a, addressCredentials (Credentials (coordinator_entry c)) = Ok a →
     SignatureExpirationLedger a ≠ coordinator_validUntilLedger c) →
  (∃ n, n ∈ coordinator_nodes c ∧ addressBytesFromStr t = Ok (tracked_encoded n)) →
  after = [].
Proof.
  intros Hat. remember (before ++ t :: after) as ts eqn:Hts. revert before Hts.
  induction Hat as [c|c ctx t' s w c1 w' ts c2 Hr Hat IH|c ctx t' s w e w' ts c2 _ _ IH];
    intros before Hts Hsrc Hexp Hn.
  - by destruct before.
  - apply Record_Ok in Hr as (a & k & Hp & Hk & _ & ->); [|done].
    destruct before as [|b before]; injection Hts as -> ->; [|by eapply IH].
    eapply attempts_stuck; [exact Hat|]. split; [|done].
    destruct Hn as (n & Hn & Hb). exists n. split; [done|]. unfold addressBytesFromStr in Hb.
    rewrite Hp in Hb. cbn in Hb. unfold hasSigned. cbn [signedMap].
    replace k with (tracked_encoded n) by congruence. by rewrite lookup_insert_eq.
  - by eapply IH.
Qed.
End stuck.

(** ** Theorem *)
Section theorem.
Context `{SDK} `{!SDKLaws}.

Lemma NewCoordinator_Ok e v pass c :
  NewCoordinator e v pass = Ok c →
  v ≠ 0%Z ∧ is_delegates e = true ∧
  c = mkCoordinator e v pass (flattenDelegates (entryDelegates e) 0)
        (buildNodes (flattenDelegates (entryDelegates e) 0)).
Proof.
  unfold NewCoordinator, entryDelegates, is_delegates. intros Hn. inv_ok.
  apply negb_false_iff in Hx. rewrite Hx, Hx1. split; [lia|]. done.
Qed.

Lemma delegates_not_source e : is_delegates e = true → is_source e = false.
Proof. unfold is_delegates, is_source. intros ->%Z.eqb_eq. done. Qed.

(** *** What a session shows, given the targets that were recorded *)
Definition names (a : ScAddress) (t : string) : bool :=
  match ParseAddress t with Ok a' => bool_decide (a' = a) | Err _ => false end.

Definition row (targets : list string) (n : FlatNode) : NodeState :=
  mkNodeState (formatOrEmpty (flat_address n)) (existsb (names (flat_address n)) targets)
    (pred (length (flat_path n))).

(** The state shows one row per delegate of [e], whatever its depth, with its
    address, whether a recorded target names that address, and its depth; the
    addresses that remain are those of the rows not signed. *)
Definition session_shows (e : SorobanAuthorizationEntry) (v : Z) (targets : list string) (c : Coordinator)
    : Prop :=
  let rows := map (row targets) (flatDelegates (entryDelegates e)) in
  let by_address := key_le (bytes_of_string ∘ NodeState_Address) in
  Session_Nodes (State c) ≡ₚ rows ∧ StronglySorted by_address (Session_Nodes (State c)) ∧
  Session_SignedCount (State c) = length (List.filter NodeState_Signed rows) ∧
  Session_TotalNodes (State c) = length rows ∧ Session_ValidUntilLedger (State c) = v ∧
  (∀ a, addressCredentials (Credentials e) = Ok a →
     Session_TopLevel (State c) = formatOrEmpty (Address a)) ∧
  Remaining c ≡ₚ map NodeState_Address (List.filter (λ r, negb (NodeState_Signed r)) rows) ∧
  StronglySorted (key_le bytes_of_string) (Remaining c).

Lemma names_spec a t : names a t = true ↔ ParseAddress t = Ok a.
Proof.
  unfold names. destruct (ParseAddress t) as [a'|]; [|done]. rewrite bool_decide_eq_true. naive_solver.
Qed.

(** A tracked node is signed exactly when a recorded target names it. *)
Lemma hasSigned_names c targets rec n :
  tracks c rec → (∀ k, k ∈ rec ↔ ∃ t, t ∈ targets ∧ addressBytesFromStr t = Ok k) →
  addressBytes (delegate_Address (tracked_node n)) = Ok (tracked_encoded n) →
  hasSigned c (tracked_encoded n) = existsb (names (delegate_Address (tracked_node n))) targets.
Proof.
  intros Ht Hrec Hcode. apply eq_true_iff_eq. rewrite existsb_In. unfold hasSigned.
  transitivity (signedMap c !! tracked_encoded n = Some true).
  { destruct (signedMap c !! tracked_encoded n) as [[]|]; naive_solver. }
  rewrite (proj1 (Ht _)), Hrec. unfold addressBytesFromStr. split; intros (t & Hin & Hb); exists t;
    (split; [done|]).
  - apply names_spec. inv_ok. by rewrite <-(addressBytes_inj _ _ _ Hb Hcode).
  - apply names_spec in Hb. by rewrite Hb.
Qed.

Lemma rows_tracked c targets e :
  coordinator_nodes c = flattenDelegates (entryDelegates e) 0 →
  Forall encodable (map flat_address (flatDelegates (entryDelegates e))) →
  Forall (λ n, hasSigned c (tracked_encoded n)
               = existsb (names (delegate_Address (tracked_node n))) targets) (coordinator_nodes c) →
  map (nodeState c) (coordinator_nodes c) = map (row targets) (flatDelegates (entryDelegates e)).
Proof.
  intros Hn Henc%(flattenDelegates_levels _ 0) Hs.
  transitivity (map (λ al : ScAddress * nat, mkNodeState (formatOrEmpty al.1)
    (existsb (names al.1) targets) (pred al.2)) (map tracked_level (coordinator_nodes c))).
  - rewrite map_map. apply map_ext_in. intros n Hin%list_elem_of_In. rewrite Forall_forall in Hs.
    unfold nodeState. by rewrite (Hs n Hin).
  - rewrite Hn, <-Henc, map_map. by apply map_ext.
Qed.

Lemma filter_map {A B} (p : A → bool) (f : B → A) l :
  List.filter p (map f l) = map f (filter (λ x, p (f x) = true) l).
Proof. induction l as [|x l IH]; [done|]. cbn [map List.filter]. rewrite filter_cons, IH.
  by destruct (p (f x)); [rewrite decide_True|rewrite decide_False]. Qed.

Lemma tracked_shows e c targets :
  is_delegates e = true → coordinator_entry c = e →
  map (nodeState c) (coordinator_nodes c) = map (row targets) (flatDelegates (entryDelegates e)) →
  session_shows e (coordinator_validUntilLedger c) targets c.
Proof.
  intros Hd He Hrows. unfold session_shows. rewrite <-Hrows. unfold State, Remaining. cbn.
  rewrite !filter_map, !length_map. split_and!; try done.
  - apply sort_by_perm.
  - apply sort_by_sorted.
  - rewrite He. intros a Ha. unfold addressCredentials, is_delegates in *. apply Z.eqb_eq in Hd.
    rewrite Hd in Ha. cbn in Ha. destruct (Credentials_AddressWithDelegates _); inv_ok; congruence.
  - rewrite sort_by_perm, map_map. cbn.
    rewrite (list_filter_iff _ (λ n, negb (hasSigned c (tracked_encoded n)) = true)); [done|].
    intros n. by destruct (hasSigned c _).
  - apply sort_by_sorted.
Qed.

(** C18. Over any session of a coordinator, whatever the signers answer: a target
    is only recorded when it is the address of a node of the entry; the tracked
    nodes never change; [State] shows one row per delegate, sorted by address,
    signed exactly when one of the recorded targets is its address, with the
    counts of those rows, and [Remaining] the addresses of the rows not signed;
    the session is complete exactly when there are delegates and each of their
    addresses was recorded; and the tracked entry is the one the coordinator was
    made with, so [Entry] gives a copy that holds none of the recorded
    signatures.  When that entry stores another expiration than the session's,
    as an entry straight from [WithDelegates] does, the session ends with the
    first delegate it records. *)
Theorem Coordinator_session e v pass c0 targets c :
  NewCoordinator e v pass = Ok c0 →
  Forall encodable (map flat_address (flatDelegates (entryDelegates e))) →
  attempts c0 targets c →
  Forall (λ t, ∃ a, ParseAddress t = Ok a ∧ ∃ n, n ∈ flatNodes e ∧ flat_address n = a) targets ∧
  coordinator_nodes c = coordinator_nodes c0 ∧
  session_shows e v targets c ∧
  (Coordinator_IsComplete c = true ↔ entryDelegates e ≠ [] ∧
     ∀ n, n ∈ flatDelegates (entryDelegates e) →
       ∃ t, t ∈ targets ∧ ParseAddress t = Ok (flat_address n)) ∧
  Entry c = Copy e ∧
  (∀ a before t after n, addressCredentials (Credentials e) = Ok a →
     SignatureExpirationLedger a ≠ v → targets = before ++ t :: after →
     n ∈ flatDelegates (entryDelegates e) → ParseAddress t = Ok (flat_address n) → after = []).
Proof.
  intros (_ & Hd & Hc0)%NewCoordinator_Ok Henc Hat. set (ds := entryDelegates e) in *.
  destruct (attempts_tracks _ _ _ Hat) with (recorded := @nil bytes)
    as (He & Hn & Hv & Hf & rec & Ht & Hrec).
  { rewrite Hc0. by apply delegates_not_source. }
  { rewrite Hc0. intros k. cbn. rewrite !buildNodes_lookup. set_solver. }
  split; [by rewrite Hc0 in Hf|]. split; [done|].
  rewrite Hc0 in He, Hn, Hf, Hv. cbn in He, Hn, Hf, Hv.
  assert (Hin : ∀ k, k ∈ rec ↔ ∃ t, t ∈ targets ∧ addressBytesFromStr t = Ok k).
  { intros k. rewrite Hrec. set_solver. }
  pose proof (flattenDelegates_addresses ds 0 Henc) as Haddr.
  pose proof (flattenDelegates_encoded ds 0) as Hcode. split.
  { rewrite <-Hv. apply tracked_shows; [done..|]. apply rows_tracked; [done..|].
    rewrite Hn. eapply Forall_impl; [exact Hcode|]. intros n. by apply hasSigned_names with (rec := rec). }
  assert (Hnode : ∀ n, n ∈ flatDelegates ds → ∃ x, x ∈ flattenDelegates ds 0 ∧
    delegate_Address (tracked_node x) = flat_address n).
  { intros n Hn'. assert (Hmem : flat_address n ∈ map flat_address (flatDelegates ds))
      by by apply (list_elem_of_fmap_2 flat_address).
    rewrite Haddr in Hmem. apply list_elem_of_fmap in Hmem as (x & ? & ?). eauto. }
  rewrite !Forall_forall in *. split; [|split; [unfold Entry; by rewrite He|]].
  2:{ intros a before t after n Ha Hexp -> Hn' Hp. eapply attempts_once; [exact Hat|..].
      - rewrite Hc0. by apply delegates_not_source.
      - rewrite Hc0. cbn. intros a' Ha'. congruence.
      - rewrite Hc0. cbn. destruct (Hnode n Hn') as (x & Hx & Heq). exists x. split; [done|].
        unfold addressBytesFromStr. rewrite Hp, <-Heq. cbn. by apply Hcode. }
  rewrite (IsComplete_tracks _ _ Ht), Hn, Forall_forall.
  assert (Hds : flattenDelegates ds 0 ≠ [] ↔ ds ≠ []).
  { rewrite <-!(length_zero_iff_nil _) in *. apply (f_equal length) in Haddr. rewrite !length_map in Haddr.
    rewrite <-Haddr. unfold flatDelegates. destruct ds as [|[a s n] ds']; cbn; [done|]. split; [done|]. lia. }
  rewrite Hds. split; intros [Hne Hall]; (split; [done|]).
  - intros n Hn'. destruct (Hnode n Hn') as (x & Hxin & Hx).
    destruct (proj1 (Hin _) (Hall x Hxin)) as (t & Htin & Hbt). exists t. split; [done|].
    unfold addressBytesFromStr in Hbt. inv_ok. rewrite <-Hx.
    by rewrite (addressBytes_inj _ _ _ Hbt (Hcode x Hxin)) in Hx0.
  - intros x Hxin. apply Hin.
    assert (Ha : delegate_Address (tracked_node x) ∈ map flat_address (flatDelegates ds)).
    { rewrite Haddr. by apply (list_elem_of_fmap_2 (λ n, delegate_Address (tracked_node n))). }
    apply list_elem_of_fmap in Ha as (n & Hn' & Hnin). destruct (Hall n Hnin) as (t & ? & Hp).
    exists t. split; [done|]. unfold addressBytesFromStr. rewrite Hp, <-Hn'. cbn. by apply Hcode.
Qed.
End theorem.

(** ** The theorem at a concrete session *)
Definition ex_tracked : SorobanAuthorizationEntry := ex_with_delegates "a" 1000 ScvVoid ex_tree.

Definition ex_coordinator : Coordinator :=
  match NewCoordinator ex_tracked 1000 ex_network with
  | Ok c => c | Err _ => mkCoordinator ex_source 0 "" [] ∅
  end.

Definition ex_record (c : Coordinator) (b : Byte.byte) : Coordinator :=
  match (Record_ c Background (ex_text b) (Some (ex_signer b)) initial_world).1 with
  | Ok c => c | Err _ => c
  end.

Definition ex_coordinated : Coordinator := ex_record (ex_record ex_coordinator "b") "c".

Lemma ex_record_run c b :
  is_ok (Record_ c Background (ex_text b) (Some (ex_signer b)) initial_world).1 = true →
  ∃ w, Record_ c Background (ex_text b) (Some (ex_signer b)) initial_world = (Ok (ex_record c b), w).
Proof. unfold ex_record. destruct (Record_ _ _ _ _ _) as [[c'|e] w]; [by eexists|done]. Qed.

Lemma ex_attempts : attempts ex_coordinator [ex_text "b"; ex_text "c"] ex_coordinated.
Proof.
  destruct (ex_record_run ex_coordinator "b" eq_refl) as [w1 H1].
  destruct (ex_record_run (ex_record ex_coordinator "b") "c" eq_refl) as [w2 H2].
  eapply attempts_recorded; [exact H1|]. eapply attempts_recorded; [exact H2|]. constructor.
Qed.

Lemma ex_coordinator_new : NewCoordinator ex_tracked 1000 ex_network = Ok ex_coordinator.
Proof. reflexivity. Qed.

Lemma ex_encodable : Forall encodable (map flat_address (flatDelegates (entryDelegates ex_tracked))).
Proof. repeat constructor; eexists; vm_compute; reflexivity. Qed.

Lemma Coordinator_session_witness :
  Coordinator_IsComplete ex_coordinated = true ∧
  (Coordinator_IsComplete ex_coordinated = true ↔ entryDelegates ex_tracked ≠ [] ∧
     ∀ n, n ∈ flatDelegates (entryDelegates ex_tracked) →
       ∃ t, t ∈ [ex_text "b"; ex_text "c"] ∧ ParseAddress t = Ok (flat_address n)) ∧
  session_shows ex_tracked 1000 [ex_text "b"; ex_text "c"] ex_coordinated ∧
  Entry ex_coordinated = Copy ex_tracked.
Proof.
  split; [vm_compute; reflexivity|].
  destruct (Coordinator_session ex_tracked 1000 ex_network ex_coordinator
    [ex_text "b"; ex_text "c"] ex_coordinated ex_coordinator_new ex_encodable ex_attempts)
    as (_ & _ & Hshows & Hcomplete & Hentry & _).
  split; [exact Hcomplete|]. split; [exact Hshows|exact Hentry].
Defined.

(** An entry that stores no expiration yet: the second delegate is refused. *)
Example Coordinator_second_refused :
  match NewCoordinator ex_delegates 1000 ex_network with
  | Ok c => is_ok (Record_ (ex_record c "b") Background (ex_text "c") (Some (ex_signer "c"))
              initial_world).1 = false
  | Err _ => False
  end.
Proof. vm_compute. reflexivity. Qed.

(** [SignedCount] counts addresses, [TotalCount] nodes: a complete session whose
    tree names an address twice has fewer signed than there are. *)
Example ex_counts : Coordinator_IsComplete ex_coordinated = true ∧ SignedCount ex_coordinated = 2 ∧
  TotalCount ex_coordinated = 3 ∧ Session_SignedCount (State ex_coordinated) = 3.
Proof. vm_compute. done. Qed.
