(* ===== verification/Wrappers.v ===== *)
(** * Wrappers: signers around a signer (network_pinned_signer.go,
    signer_cache.go)

    A signer pinned to one network refuses every preimage that names another;
    a cached signer remembers its inner signer's address.  The address of an
    inner signer that asks a remote service may change, so the cache is a
    state, and the inner address a function of the time it is asked. *)
From Stdlib Require Import ZArith Lia Strings.Byte String.
From stdpp Require Import base list strings.
From S2P Require Import Prelude Errors Xdr ModelSDK Runtime Examples Address Limits Arm Preimage Nodes.
From S2P Require Import Delegates Authorize.

Open Scope string_scope. Open Scope nat_scope. Open Scope list_scope.

(** ** The network-pinned signer *)
Section pinned.
Context `{SDK}.

Record networkPinnedSigner := mkPinned {
  inner : Signer;
  passphrase : string;
  expectedID : bytes
}.

(** The network id a preimage names. *)
Definition preimageNetwork (preimage : HashIdPreimage) : result bytes :=
  let op := "soroauth: network pinned signer" in
  if (Preimage_Type preimage =? EnvelopeTypeSorobanAuthorization)%Z then
    match SorobanAuthorization preimage with
    | None => Err (EWrap (op +:+ ": nil soroban authorization preimage") (ESentinel ErrWrongNetwork))
    | Some p => Ok (NetworkId p)
    end
  else if (Preimage_Type preimage =? EnvelopeTypeSorobanAuthorizationWithAddress)%Z then
    match SorobanAuthorizationWithAddress preimage with
    | None => Err (EWrap (op +:+ ": nil soroban authorization with address preimage")
                     (ESentinel ErrWrongNetwork))
    | Some p => Ok (WithAddress_NetworkId p)
    end
  else Err (EWrap (op +:+ ": unsupported or missing preimage type for network check")
              (ESentinel ErrWrongNetwork)).

Definition networkPinnedSigner_Sign (p : networkPinnedSigner) (ctx : Ctx)
    (preimage : HashIdPreimage) (payload : bytes) : IO ScVal :=
  _ ← ctx_check ctx "soroauth: network pinned signer";
  gotID ← lift (preimageNetwork preimage);
  _ ← lift (refuse (negb (bytes_Equal gotID (expectedID p)))
        (EWrap ("soroauth: network pinned signer: network ID mismatch (got " +:+
                hex_EncodeToString gotID +:+ ", want " +:+ hex_EncodeToString (expectedID p) +:+ ")")
           (ESentinel ErrWrongNetwork)));
  call_Sign (inner p) ctx preimage payload.

(** The wrapper declares no capabilities of its own. *)
Definition PinSignerToNetwork (inner : option Signer) (networkPassphrase : string)
    : result Signer :=
  inner ← of_option inner (EWrap "soroauth: pin signer" (ESentinel ErrMissingSigner));
  let p := mkPinned inner networkPassphrase (network_ID networkPassphrase) in
  Ok (mkSigner (signer_Address inner) (networkPinnedSigner_Sign p) None).

Definition PinSigner (signer : option Signer) (passphrase : string) : result Signer :=
  PinSignerToNetwork signer passphrase.
End pinned.

Definition names_network `{SDK} (preimage : HashIdPreimage) (id : bytes) : Prop :=
  preimageNetwork preimage = Ok id.

Section pinned_theorems.
Context `{SDKLaws}.

(** A preimage of an entry names the network it was built for. *)
Lemma Preimage_network e v p pre :
  Preimage e v p = Ok pre → names_network pre (network_ID p).
Proof. by intros (_ & [[[a|] n] i] & _ & ->)%Preimage_Ok. Qed.

Lemma preimageNetwork_wrong pre e :
  preimageNetwork pre = Err e → errors_Is e ErrWrongNetwork = true.
Proof.
  unfold preimageNetwork. intros He.
  destruct (_ =? _)%Z; [|destruct (_ =? _)%Z]; [by destruct (SorobanAuthorization pre); simplify_eq|
    by destruct (SorobanAuthorizationWithAddress pre); simplify_eq|by simplify_eq].
Qed.

Lemma pinned_Sign_cases s net ctx pre payload w r w' :
  networkPinnedSigner_Sign (mkPinned s net (network_ID net)) ctx pre payload w = (r, w') →
  (names_network pre (network_ID net) ∧ ∃ w1, signer_Sign s ctx pre payload w1 = (r, w')) ∨
  (log w' = log w ∧ ∃ e, r = Err e ∧
     (ctx_Err ctx (now w) = None → errors_Is e ErrWrongNetwork = true)).
Proof.
  unfold networkPinnedSigner_Sign, mbind at 1, IO_bind at 1, ctx_check, ctx_poll.
  unfold mbind at 1, IO_bind at 1. destruct (ctx_Err ctx (now w)) as [ce|] eqn:Hctx.
  { intros [= <- <-]. right. split; [done|]. by eexists. }
  cbn. unfold mbind at 1, IO_bind at 1, lift at 1.
  destruct (preimageNetwork pre) as [id|e] eqn:Hn; cycle 1.
  { intros [= <- <-]. right. split; [done|]. eexists. split; [done|]. intros _.
    by eapply preimageNetwork_wrong. }
  unfold mbind at 1, IO_bind at 1, lift at 1, refuse.
  destruct (bytes_Equal id (network_ID net)) eqn:Hid; cbn.
  - apply bytes_Equal_spec in Hid as ->. intros Hr. left. split; [done|]. eexists. exact Hr.
  - intros [= <- <-]. right. split; [done|]. by eexists.
Qed.

(** A pinned signer cannot be made to sign for another network: a call
    either hands its inner signer a preimage that names the pinned network, and
    gives its answer, or asks it nothing and fails (with [ErrWrongNetwork] while
    the context is live); so an entry is authorized with it only under a
    passphrase of the pinned network's id. *)
Theorem PinSigner_network s net p :
  PinSigner (Some s) net = Ok p →
  (∀ ctx pre payload w r w', signer_Sign p ctx pre payload w = (r, w') →
    (names_network pre (network_ID net) ∧ ∃ w1, signer_Sign s ctx pre payload w1 = (r, w')) ∨
    (log w' = log w ∧ ∃ e, r = Err e ∧
       (ctx_Err ctx (now w) = None → errors_Is e ErrWrongNetwork = true))) ∧
  (∀ ctx entry v pass opts w out w', is_source entry = false →
    AuthorizeEntry ctx entry (Some p) v pass opts w = (Ok out, w') →
    network_ID pass = network_ID net).
Proof.
  intros [= <-]. split; [intros ctx pre payload w r w'; apply pinned_Sign_cases|].
  intros ctx entry v pass opts w out w' Hsrc Ha.
  destruct (AuthorizeEntry_Ok _ _ _ _ _ _ _ _ _ Ha Hsrc)
    as (s' & t & plan & payload & sig & w1 & w2 & [= <-] & Hprep & _ & Hsign & _).
  apply pinned_Sign_cases in Hsign as [[Hn _]|(_ & e & He & _)]; [|done].
  assert (Hp : Preimage entry v pass = Ok (plan_preimage plan)) by (by destruct Hprep).
  apply Preimage_network in Hp. unfold names_network in *. congruence.
Qed.
End pinned_theorems.

(** ** The cached signer *)
(** The source's [err] field is never set. *)
Record CachedSigner := mkCached {
  ttl : Z;                           (* nanoseconds *)
  cached_address : string;
  fetchedAt : Z
}.

Definition NewCachedSigner (ttl : Z) : CachedSigner := mkCached ttl "" 0.

Section cached.
(** What the inner signer's [Address] answers at a time. *)
Variable inner_Address : Z → string.

Definition cached_Address (now : Z) (c : CachedSigner) : string * CachedSigner :=
  if nonEmpty (cached_address c)
     && ((ttl c <=? 0)%Z || (now - fetchedAt c <? ttl c)%Z)
  then (cached_address c, c)
  else let a := inner_Address now in (a, mkCached (ttl c) a now).

Definition Invalidate (c : CachedSigner) : CachedSigner := mkCached (ttl c) "" 0.

Inductive CacheCall := CacheAddress (now : Z) | CacheInvalidate.

(** The answers of a sequence of calls, in the order they took the lock. *)
Fixpoint cache_run (c : CachedSigner) (calls : list CacheCall) : list string * CachedSigner :=
  match calls with
  | [] => ([], c)
  | CacheAddress now :: rest =>
      let '(a, c) := cached_Address now c in
      let '(l, c) := cache_run c rest in (a :: l, c)
  | CacheInvalidate :: rest => cache_run (Invalidate c) rest
  end.

Definition fresh (ttl : Z) (now : Z) (a : string) : Prop :=
  ∃ t, a = inner_Address t ∧ (t = now ∨ (ttl <= 0)%Z ∨ (now - t < ttl)%Z).

Definition cached_ok (c : CachedSigner) : Prop :=
  cached_address c = "" ∨ cached_address c = inner_Address (fetchedAt c).

Lemma cached_Address_fresh now c :
  cached_ok c → fresh (ttl c) now (cached_Address now c).1 ∧ cached_ok (cached_Address now c).2 ∧
  ttl (cached_Address now c).2 = ttl c.
Proof.
  unfold cached_Address, nonEmpty. intros Hc. destruct (bool_decide _) eqn:He; cbn.
  - split; [|split; [by right|done]]. exists now. auto.
  - apply bool_decide_eq_false in He. destruct Hc as [Hc|Hc]; [done|].
    destruct (_ || _) eqn:Ht; cbn.
    + split; [|split; [by right|done]]. exists (fetchedAt c). split; [done|]. lia.
    + split; [|split; [by right|done]]. exists now. auto.
Qed.

Definition call_times (calls : list CacheCall) : list Z :=
  omap (λ c, match c with CacheAddress now => Some now | CacheInvalidate => None end) calls.

(** Bounded staleness: over any calls, each answer is the inner signer's at the
    time of the call, or at an earlier fetch that is less than the lifetime
    old when there is one. *)
Lemma CachedSigner_fresh c calls :
  cached_ok c → Forall2 (fresh (ttl c)) (call_times calls) (cache_run c calls).1.
Proof.
  revert c. induction calls as [|[now|] calls IH]; intros c Hc; cbn; [constructor|..].
  - destruct (cached_Address_fresh now c Hc) as (Hf & Hok & Ht).
    destruct (cached_Address now c) as [a c'] eqn:E. cbn in *. rewrite <-Ht in Hf |- *.
    specialize (IH c' Hok). destruct (cache_run c' calls). by constructor.
  - apply (IH (Invalidate c)). by left.
Qed.
End cached.

(** ** The theorem at a concrete signer *)
Definition ex_pinned : Signer :=
  mkSigner (ex_text "a")
    (networkPinnedSigner_Sign (mkPinned (ex_signer "a") ex_network (network_ID ex_network))) None.

Lemma ex_pinned_run : ∃ out w', AuthorizeEntry Background (ex_v2 "a" 0 ScvVoid) (Some ex_pinned) 1000
  ex_network [] initial_world = (Ok out, w').
Proof. do 2 eexists. vm_compute. reflexivity. Qed.

Lemma PinSigner_network_witness : ∃ out w',
  AuthorizeEntry Background (ex_v2 "a" 0 ScvVoid) (Some ex_pinned) 1000 ex_network [] initial_world
  = (Ok out, w') ∧ network_ID ex_network = network_ID ex_network.
Proof.
  destruct ex_pinned_run as (out & w' & Hr). exists out, w'. split; [exact Hr|].
  destruct (PinSigner_network (ex_signer "a") ex_network ex_pinned eq_refl) as [_ Ha].
  apply (Ha _ _ _ _ _ _ _ _ (eq_refl : is_source (ex_v2 "a" 0 ScvVoid) = false) Hr).
Defined.
