(* ===== verification/Invocation.v ===== *)
(** * Invocation: authorizing a call tree from scratch (invocation.go), and
    reserving nonces (noncetracker.go)

    [AuthorizeInvocation] builds an unsigned entry around a random nonce and
    hands it to [AuthorizeEntry].  Randomness is a parameter: [rand_Read n]
    stands for reading [n] bytes of crypto/rand.  The in-memory nonce tracker
    is a map from addresses to the nonces reserved; its mutex makes every
    [Reserve] one step, so a concurrent use is some sequence of steps. *)
From Stdlib Require Import ZArith Lia Strings.Byte String.
From stdpp Require Import base list strings gmap pretty.
From S2P Require Import Prelude Errors Xdr ModelSDK Runtime Examples Address Signers Limits Arm Preimage Nodes Delegates Authorize.

Open Scope string_scope. Open Scope nat_scope. Open Scope list_scope.

(** ** invocation.go *)
Record AuthorizeInvocationParams := mkInvocationParams {
  Params_Signer : option Signer;
  Params_Invocation : SorobanAuthorizedInvocation;
  Params_ValidUntilLedger : Z;
  Params_NetworkPassphrase : string;
  Params_Legacy : bool
}.

Section invocation.
Context `{SDK}.
Variable rand_Read : nat → IO bytes.

Definition newNonce : IO Z :=
  buf ← io_wrap "reading a random nonce" (rand_Read 8);
  mret (wrap_i64 (be_value buf)).

Definition unsignedEntry (legacy : bool) (address : ScAddress) (nonce : Z)
    (invocation : SorobanAuthorizedInvocation) : SorobanAuthorizationEntry :=
  let credentials := mkAddressCredentials address nonce 0 (scVec []) in
  mkEntry
    (if legacy then mkCredentials CredentialsAddress (Some credentials) None None
     else mkCredentials CredentialsAddressV2 None (Some credentials) None) invocation.

Definition AuthorizeInvocation (ctx : Ctx) (p : AuthorizeInvocationParams)
    : IO SorobanAuthorizationEntry :=
  _ ← ctx_check ctx "soroauth: authorize invocation";
  signer ← lift (of_option (Params_Signer p)
    (EWrap "soroauth: authorize invocation" (ESentinel ErrMissingSigner)));
  address ← lift (wrap "soroauth: authorize invocation" (ParseAddress (signer_Address signer)));
  nonce ← io_wrap "soroauth: authorize invocation" newNonce;
  io_wrap "soroauth: authorize invocation"
    (AuthorizeEntry ctx (unsignedEntry (Params_Legacy p) address nonce (Params_Invocation p))
       (Some signer) (Params_ValidUntilLedger p) (Params_NetworkPassphrase p) []).

Context `{!SDKLaws}.

(** A returned entry authorizes exactly the given call tree for the
    signer's own address, in the [address_v2] arm unless [Legacy] asks for
    the other, at the given non-zero expiration, under a nonce that is the
    signed 64-bit reading of eight random bytes, and carries the signer's
    answer to that entry's own payload. *)
Theorem AuthorizeInvocation_Ok ctx p w out w' :
  AuthorizeInvocation ctx p w = (Ok out, w') →
  ∃ s t buf w1 w2 pre payload sig w3 w4,
    Params_Signer p = Some s ∧ ParseAddress (signer_Address s) = Ok t ∧
    rand_Read 8 w1 = (Ok buf, w2) ∧ Params_ValidUntilLedger p ≠ 0%Z ∧
    out = mkEntry
      (let c := mkAddressCredentials t (wrap_i64 (be_value buf)) (Params_ValidUntilLedger p) sig in
       if Params_Legacy p then mkCredentials CredentialsAddress (Some c) None None
       else mkCredentials CredentialsAddressV2 None (Some c) None) (Params_Invocation p) ∧
    Preimage out (Params_ValidUntilLedger p) (Params_NetworkPassphrase p) = Ok pre ∧
    Payload pre = Ok payload ∧
    signer_Sign s ctx pre payload w3 = (Ok sig, w4).
Proof.
  unfold AuthorizeInvocation, newNonce. intros Ha. inv_io. apply of_option_Ok in Hl0.
  apply wrap_Ok in Hl. rename x0 into x, Hx3 into Hx2.
  assert (Hsrc : is_source (unsignedEntry (Params_Legacy p) x1 (wrap_i64 (be_value x3))
    (Params_Invocation p)) = false) by (by destruct (Params_Legacy p)).
  apply AuthorizeEntry_Ok in Ha as (s & t & plan & payload & sig & w5 & w6 & [= <-] & Hprep &
    Hp & Hcall & Hout); [|done].
  pose proof Hprep as [_ Hv _ Hparse _ _ Hpre _ _ _].
  unfold targetOf in Hparse. cbn [applyOptions foldl zeroAuthorizeConfig hasTarget] in Hparse.
  assert (t = x1) as -> by congruence.
  exists x, x1, x3. do 2 eexists. exists (plan_preimage plan), payload, sig. do 2 eexists.
  split; [done|]. split; [done|]. split; [exact Hx2|]. split; [done|]. split.
  - rewrite Hout. unfold unsignedEntry, signEntry. destruct (Params_Legacy p); cbn;
      by rewrite decide_True.
  - split; [|by split]. rewrite Hout. destruct (prepared_credentials _ _ _ _ _ _ _ Hprep) as [a Ha'].
    by rewrite (Preimage_signEntry _ _ _ _ a _ _ Ha').
Qed.
End invocation.

(** Eight bytes give every nonce: the reading is onto and one-to-one. *)
Lemma newNonce_range buf : is_i64 (wrap_i64 (be_value buf)).
Proof. apply wrap_i64_range. Qed.

(** ** noncetracker.go *)
Abbreviation NonceStore := (gmap string (gset Z)).

Definition Reserve (ctx_err : option error) (address : string) (nonce : Z) (store : NonceStore)
    : result unit * NonceStore :=
  match ctx_err with
  | Some e => (Err (EWrap "soroauth: nonce tracker reserve" e), store)
  | None =>
      let nonces := default ∅ (store !! address) in
      if decide (nonce ∈ nonces)
      then (Err (EWrap ("soroauth: nonce tracker reserve: " +:+ address)
                   (NonceAlreadyReservedError address nonce)), <[address := nonces]> store)
      else (Ok tt, <[address := {[nonce]} ∪ nonces]> store)
  end.

(** One call, as the scheduler orders them: the caller's context at that
    moment, the address and the nonce. *)
Record ReserveCall := mkReserveCall {
  Call_ctx : option error;
  Call_address : string;
  Call_nonce : Z
}.

Fixpoint reserveAll (calls : list ReserveCall) (store : NonceStore)
    : list (result unit) * NonceStore :=
  match calls with
  | [] => ([], store)
  | c :: rest =>
      let '(r, store) := Reserve (Call_ctx c) (Call_address c) (Call_nonce c) store in
      let '(rs, store) := reserveAll rest store in
      (r :: rs, store)
  end.

Definition reserved (store : NonceStore) (address : string) (nonce : Z) : Prop :=
  nonce ∈ default ∅ (store !! address).

Lemma Reserve_reserved e a n store a' n' :
  reserved (Reserve e a n store).2 a' n' ↔
  reserved store a' n' ∨ (e = None ∧ a = a' ∧ n = n').
Proof.
  unfold Reserve, reserved. destruct e as [e|]; cbn [fst snd]; [naive_solver|].
  destruct (decide (n ∈ default ∅ (store !! a))) as [Hin|Hin]; cbn [fst snd];
    (destruct (decide (a = a')) as [<-|Hne];
     [rewrite lookup_insert_eq; cbn [default]; set_solver
     |rewrite lookup_insert_ne by done; naive_solver]).
Qed.

Lemma Reserve_result e a n store :
  is_ok (Reserve e a n store).1 = true ↔ e = None ∧ ¬ reserved store a n.
Proof.
  unfold Reserve, reserved. destruct e as [e|]; cbn; [naive_solver|].
  destruct (decide (n ∈ default ∅ (store !! a))) as [Hin|Hin]; cbn; naive_solver.
Qed.

(** C11. In whatever order concurrent calls of one tracker take its lock, a call
    succeeds exactly when its context is live and no earlier call with a live
    context named the same address and nonce: the first wins, every other is
    refused, and neither a cancelled call nor another address or nonce is in
    the way. *)
Theorem Reserve_once calls i c :
  calls !! i = Some c →
  ∃ r, (reserveAll calls ∅).1 !! i = Some r ∧
    (is_ok r = true ↔ Call_ctx c = None ∧
       ¬ ∃ j c', (j < i)%nat ∧ calls !! j = Some c' ∧ Call_ctx c' = None ∧
           Call_address c' = Call_address c ∧ Call_nonce c' = Call_nonce c).
Proof.
  assert (Hgen : ∀ calls store i c, calls !! i = Some c →
    ∃ r, (reserveAll calls store).1 !! i = Some r ∧
      (is_ok r = true ↔ Call_ctx c = None ∧ ¬ reserved store (Call_address c) (Call_nonce c) ∧
         ¬ ∃ j c', (j < i)%nat ∧ calls !! j = Some c' ∧ Call_ctx c' = None ∧
             Call_address c' = Call_address c ∧ Call_nonce c' = Call_nonce c)).
  { clear. induction calls as [|c0 calls IH]; intros store i c Hc; [done|].
    cbn [reserveAll]. pose proof (Reserve_reserved (Call_ctx c0) (Call_address c0)
      (Call_nonce c0) store (Call_address c) (Call_nonce c)) as Hres.
    pose proof (Reserve_result (Call_ctx c0) (Call_address c0) (Call_nonce c0) store) as Hok.
    destruct (Reserve (Call_ctx c0) (Call_address c0) (Call_nonce c0) store) as [r0 store0].
    cbn [fst snd] in *. destruct i as [|i].
    - injection Hc as <-. exists r0. destruct (reserveAll calls store0) as [rs store1].
      split; [done|]. rewrite Hok. split; [|tauto]. intros [? ?]. split; [done|]. split; [done|].
      intros (j & ? & ? & _). lia.
    - destruct (IH store0 i c Hc) as (r & Hr & Hiff). exists r.
      destruct (reserveAll calls store0) as [rs store1]. cbn [fst] in *. split; [done|].
      rewrite Hiff, Hres. split.
      + intros (Hctx & Hnr & Hnj). split; [done|]. split; [tauto|].
        intros ([|j] & c' & Hj & Hc' & Hl & Ha & Hn); [injection Hc' as <-; tauto|].
        apply Hnj. exists j, c'. split; [lia|done].
      + intros (Hctx & Hnr & Hnj). split; [done|]. split.
        * intros [?|(? & ? & ?)]; [done|]. apply Hnj. exists 0, c0. split; [lia|done].
        * intros (j & c' & Hj & Hc'). apply Hnj. exists (S j), c'. split; [lia|done]. }
  intros Hc. destruct (Hgen calls ∅ i c Hc) as (r & Hr & Hiff). exists r. split; [done|].
  rewrite Hiff. unfold reserved. split; [tauto|]. intros [? ?]. split; [done|]. split; [|done].
  rewrite lookup_empty. cbn. set_solver.
Qed.

(** ** The theorems at concrete inputs *)
Definition ex_rand (n : nat) : IO bytes := mret (replicate n xff).

Definition ex_params : AuthorizeInvocationParams :=
  mkInvocationParams (Some (ex_signer "a")) ex_invocation 1000 ex_network false.

Definition ex_invocation_out : SorobanAuthorizationEntry :=
  match (AuthorizeInvocation ex_rand Background ex_params initial_world).1 with
  | Ok out => out | Err _ => ex_source
  end.

Lemma ex_invocation_run : ∃ w',
  AuthorizeInvocation ex_rand Background ex_params initial_world = (Ok ex_invocation_out, w').
Proof. eexists. vm_compute. reflexivity. Qed.

Lemma AuthorizeInvocation_Ok_witness :
  ∃ s t buf w1 w2 pre payload sig w3 w4,
    Params_Signer ex_params = Some s ∧ ParseAddress (signer_Address s) = Ok t ∧
    ex_rand 8 w1 = (Ok buf, w2) ∧ Params_ValidUntilLedger ex_params ≠ 0%Z ∧
    ex_invocation_out = mkEntry
      (let c := mkAddressCredentials t (wrap_i64 (be_value buf))
                  (Params_ValidUntilLedger ex_params) sig in
       if Params_Legacy ex_params then mkCredentials CredentialsAddress (Some c) None None
       else mkCredentials CredentialsAddressV2 None (Some c) None) (Params_Invocation ex_params) ∧
    Preimage ex_invocation_out (Params_ValidUntilLedger ex_params)
      (Params_NetworkPassphrase ex_params) = Ok pre ∧
    Payload pre = Ok payload ∧
    signer_Sign s Background pre payload w3 = (Ok sig, w4).
Proof.
  destruct ex_invocation_run as [w' Hr]. exact (AuthorizeInvocation_Ok _ _ _ _ _ _ Hr).
Defined.

Definition ex_calls : list ReserveCall :=
  [mkReserveCall (Some (ESentinel ContextCanceled)) "G" 7; mkReserveCall None "G" 7;
   mkReserveCall None "C" 7; mkReserveCall None "G" 7].

Example Reserve_example :
  map is_ok (reserveAll ex_calls ∅).1 = [false; true; true; false].
Proof. vm_compute. reflexivity. Qed.

Lemma Reserve_once_witness : ∃ r, (reserveAll ex_calls ∅).1 !! 3 = Some r ∧
  (is_ok r = true ↔ None = None (A:=error) ∧
     ¬ ∃ j c', (j < 3)%nat ∧ ex_calls !! j = Some c' ∧ Call_ctx c' = None ∧
         Call_address c' = "G" ∧ Call_nonce c' = 7%Z).
Proof. apply (Reserve_once ex_calls 3 (mkReserveCall None "G" 7)). reflexivity. Defined.
