(* ===== verification/Verify.v ===== *)
(** * Verify: offline verification of an entry's signatures (verify.go)

    [VerifyEntry] rebuilds the payload from the entry as it stands and gives
    every credential node one of four verdicts.  [node_verdict] is the abstract
    specification of a verdict; the theorems show that the report lists it for
    exactly the nodes of the entry, that nothing but a checked signature is
    ever reported verified, and that what [AuthorizeEntry] returns verifies. *)
From Stdlib Require Import ZArith Lia Strings.Byte String.
From stdpp Require Import base list strings pretty.
From S2P Require Import Prelude Errors Xdr ModelSDK Runtime Examples Address Limits Arm Preimage Nodes Delegates Authorize.

Open Scope string_scope. Open Scope nat_scope. Open Scope list_scope.

Inductive VerifyVerdict := VerdictVerified | VerdictUnsigned | VerdictInvalid | VerdictCannotCheck.

#[export] Instance VerifyVerdict_eq_dec : EqDecision VerifyVerdict.
Proof. solve_decision. Defined.

Definition verdict_string (v : VerifyVerdict) : string :=
  match v with
  | VerdictVerified => "verified"
  | VerdictUnsigned => "unsigned"
  | VerdictInvalid => "invalid"
  | VerdictCannotCheck => "cannot_check"
  end.

Record NodeVerdict := mkNodeVerdict {
  Verdict_Address : string;
  Verdict : VerifyVerdict;
  Reason : string
}.

Record VerificationReport := mkReport {
  Report_CredentialType : string;
  AddressBound : bool;
  Report_Address : string;
  Report_ValidUntilLedger : Z;
  Report_Nodes : list NodeVerdict;
  Note : string
}.

Definition Verified (r : VerificationReport) : bool :=
  forallb (λ n, bool_decide (Verdict n = VerdictVerified)) (Report_Nodes r).

Definition HasUnsignedNodes (r : VerificationReport) : bool :=
  existsb (λ n, bool_decide (Verdict n = VerdictUnsigned)) (Report_Nodes r).

Definition VerificationReport_String (r : VerificationReport) : string :=
  if bool_decide (Report_CredentialType r = CredentialTypeSourceAccount) then
    "source_account (no payload to verify)" +:+
    (if nonEmpty (Note r) then ": " +:+ Note r else "") +:+ newline
  else
    (if Verified r then "VERIFIED: all credential nodes verified"
     else if HasUnsignedNodes r then "NOT VERIFIED: unsigned node(s) present"
     else "NOT VERIFIED: invalid or uncheckable node(s)") +:+
    (if nonEmpty (Report_Address r) then " [" +:+ Report_Address r +:+ "]" else "") +:+
    (if nonEmpty (Report_CredentialType r) then " [" +:+ Report_CredentialType r +:+ "]" else "") +:+
    newline +:+
    (if (Report_ValidUntilLedger r =? 0)%Z then ""
     else "  valid until ledger: " +:+ pretty (Report_ValidUntilLedger r) +:+ newline) +:+
    (if AddressBound r then "  address-bound: yes" +:+ newline else "") +:+
    (if Nat.ltb 0 (length (Report_Nodes r)) then
       newline +:+ "credential nodes:" +:+ newline +:+
       String.concat "" (map (λ n,
         "  " +:+ Verdict_Address n +:+ ": " +:+ verdict_string (Verdict n) +:+
         (if nonEmpty (Reason n) then " (" +:+ Reason n +:+ ")" else "") +:+ newline)
         (Report_Nodes r))
     else "") +:+
    (if nonEmpty (Note r) then newline +:+ "note: " +:+ Note r +:+ newline else "").

Definition sourceNote : string :=
  "source-account credentials carry no signature payload of their own; the transaction " +:+
  "envelope's signature covers them, so there is nothing here to verify".

Definition contractAccountNote : string :=
  "the node addresses a C… contract; only the contract's __check_auth defines whether its " +:+
  "signature is valid, so this cannot be checked offline".

Definition shapeNote : string :=
  "the signature is not the built-in {public_key, signature} account shape; only the account's " +:+
  "own logic defines its validity, so this cannot be checked offline".

Section verify.
Context `{SDK}.

(** The scan over the map's entries, last occurrence of a name winning. *)
Fixpoint accountFields (entries : list (ScVal * ScVal)) (publicKey signature : option bytes)
    : result (option bytes * option bytes) :=
  match entries with
  | [] => Ok (publicKey, signature)
  | (ScvSymbol (Some sym), ScvBytes (Some b)) :: rest =>
      if bool_decide (sym = "public_key") then accountFields rest (Some b) signature
      else if bool_decide (sym = "signature") then accountFields rest publicKey (Some b)
      else accountFields rest publicKey signature
  | (ScvSymbol (Some sym), v) :: _ =>
      Err (EText ("signature field " +:+ quoted sym +:+ " is " +:+ ScValType_String v +:+
                  ", not bytes"))
  | _ :: rest => accountFields rest publicKey signature
  end.

Definition parseAccountSignature (value : ScVal) : result (bytes * bytes) :=
  match value with
  | ScvVec (Some (Some entries)) =>
      match entries with
      | [ScvMap (Some (Some fields))] =>
          '(publicKey, signature) ← accountFields fields None None;
          match publicKey, signature with
          | Some publicKey, Some signature =>
              _ ← refuse (negb (Nat.eqb (length publicKey) 32))
                    (EText ("signature public key is " +:+ pretty (length publicKey) +:+
                            " bytes, want 32"));
              _ ← refuse (negb (Nat.eqb (length signature) 64))
                    (EText ("signature is " +:+ pretty (length signature) +:+
                            " bytes, want 64"));
              Ok (publicKey, signature)
          | _, _ => Err (EText "signature map is missing public_key or signature")
          end
      | [element] =>
          Err (EText ("signature vector holds " +:+ ScValType_String element +:+ ", not a map"))
      | _ =>
          Err (EText ("signature vector holds " +:+ pretty (length entries) +:+
                      " entries, want exactly 1"))
      end
  | _ => Err (EText ("signature is " +:+ ScValType_String value +:+
                     ", not the built-in account vector"))
  end.

Definition verifyNode (signature : ScVal) (encoded : bytes) (payload : bytes)
    : result NodeVerdict :=
  address ← wrap "decoding credential node address" (UnmarshalBinary encoded);
  formatted ← FormatAddress address;
  match address with
  | ScAddressTypeAccount _ =>
      if negb (isSigned signature) then
        Ok (mkNodeVerdict formatted VerdictUnsigned
              "the node carries no signature (Void or an empty vector)")
      else
        match parseAccountSignature signature with
        | Err e =>
            Ok (mkNodeVerdict formatted VerdictCannotCheck
                  (shapeNote +:+ " (" +:+ Error e +:+ ")"))
        | Ok (publicKey, rawSignature) =>
            if negb (ed25519_Verify publicKey payload rawSignature) then
              Ok (mkNodeVerdict formatted VerdictInvalid
                    ("the stored signature does not verify over the payload the entry " +:+
                     "commits to"))
            else Ok (mkNodeVerdict formatted VerdictVerified "")
        end
  | _ => Ok (mkNodeVerdict formatted VerdictCannotCheck contractAccountNote)
  end.

(** [*node.signature]; every pointer of a walk is valid ([flatNodes_read]). *)
Definition loadSignature (e : SorobanAuthorizationEntry) (p : NodePtr) : ScVal :=
  default ScvVoid (readSignature e p).

Definition verifyEntry (entry : SorobanAuthorizationEntry) (networkPassphrase : string)
    : result VerificationReport :=
  let t := Credentials_Type (Credentials entry) in
  if (t =? CredentialsSourceAccount)%Z then
    Ok (mkReport CredentialTypeSourceAccount false "" 0 [] sourceNote)
  else
    _ ← refuse (negb ((t =? CredentialsAddress)%Z || (t =? CredentialsAddressV2)%Z
                      || (t =? CredentialsAddressWithDelegates)%Z))
          (EWrap "soroauth: verify entry" (ESentinel ErrUnsupportedCredentials));
    credentials ← wrap "soroauth: verify entry" (addressCredentials (Credentials entry));
    address ← wrap "soroauth: verify entry" (FormatAddress (Address credentials));
    let expiration := SignatureExpirationLedger credentials in
    preimage ← wrap ("soroauth: verify entry for " +:+ address)
                 (Preimage entry expiration networkPassphrase);
    payload ← wrap ("soroauth: verify entry for " +:+ address) (Payload preimage);
    nodes ← wrap "soroauth: verify entry" (credentialNodes entry);
    verdicts ← rmapM (λ n, wrap "soroauth: verify entry"
                 (verifyNode (loadSignature entry (signature n)) (encoded n) payload)) nodes;
    Ok (mkReport (credentialTypeName t) (negb (t =? CredentialsAddress)%Z) address expiration
          verdicts "").

Definition VerifyEntryContext (ctx : Ctx) (entry : SorobanAuthorizationEntry)
    (networkPassphrase : string) : IO VerificationReport :=
  _ ← ctx_check ctx "soroauth: verify entry";
  lift (verifyEntry entry networkPassphrase).

Definition VerifyEntry (entry : SorobanAuthorizationEntry) (networkPassphrase : string)
    : IO VerificationReport :=
  VerifyEntryContext Background entry networkPassphrase.

(** ** Specification *)
Definition node_verdict (n : FlatNode) (payload : bytes) : VerifyVerdict :=
  match flat_address n with
  | ScAddressTypeAccount _ =>
      if negb (isSigned (flat_sig n)) then VerdictUnsigned
      else match parseAccountSignature (flat_sig n) with
           | Err _ => VerdictCannotCheck
           | Ok (pk, sig) =>
               if ed25519_Verify pk payload sig then VerdictVerified else VerdictInvalid
           end
  | _ => VerdictCannotCheck
  end.

(** The payload an entry commits to, at the expiration stored in it. *)
Definition own_payload (e : SorobanAuthorizationEntry) (pass : string) : result bytes :=
  a ← addressCredentials (Credentials e);
  pre ← Preimage e (SignatureExpirationLedger a) pass;
  Payload pre.

(** ** Lemmas *)
Context `{!SDKLaws}.

Lemma parseAccountSignature_lengths sig pk raw :
  parseAccountSignature sig = Ok (pk, raw) → length pk = 32 ∧ length raw = 64.
Proof.
  unfold parseAccountSignature. intros Hp. repeat (case_match; try done). inv_ok.
  destruct x as [[pk0|] [raw0|]]; try done. inv_ok.
  apply negb_false_iff, Nat.eqb_eq in Hx0, Hx1. by subst.
Qed.

(** The host's account shape reads back. *)
Lemma parseAccountSignature_account pk raw :
  length pk = 32 → length raw = 64 →
  parseAccountSignature (ex_account_signature pk raw) = Ok (pk, raw).
Proof.
  intros Hpk Hraw. unfold parseAccountSignature, ex_account_signature, accountFields.
  rewrite bool_decide_eq_true_2 by done. rewrite bool_decide_eq_false_2 by done.
  rewrite bool_decide_eq_true_2 by done. cbn [mbind result_bind]. by rewrite Hpk, Hraw.
Qed.

Lemma parseAccountSignature_signed sig pk raw :
  parseAccountSignature sig = Ok (pk, raw) → isSigned sig = true.
Proof. unfold parseAccountSignature. intros Hp. by repeat (case_match; try done). Qed.

Lemma verifyNode_Ok sig f enc payload v :
  addressBytes (flat_address f) = Ok enc → sig = flat_sig f →
  verifyNode sig enc payload = Ok v →
  FormatAddress (flat_address f) = Ok (Verdict_Address v) ∧ Verdict v = node_verdict f payload.
Proof.
  unfold addressBytes, verifyNode, node_verdict. intros Henc%wrap_Ok -> Hv.
  rewrite (UnmarshalBinary_ScAddress _ _ Henc) in Hv. cbn [wrap mbind result_bind] in Hv.
  inv_ok. destruct (flat_address f); try by injection Hv as <-.
  destruct (negb (isSigned (flat_sig f))); [by injection Hv as <-|].
  destruct (parseAccountSignature (flat_sig f)) as [[pk s]|e]; [|by injection Hv as <-].
  by destruct (ed25519_Verify pk payload s); injection Hv as <-.
Qed.

Lemma verifyEntry_Ok e pass r :
  verifyEntry e pass = Ok r → is_source e = false →
  ∃ a payload, addressCredentials (Credentials e) = Ok a ∧ own_payload e pass = Ok payload ∧
    FormatAddress (Address a) = Ok (Report_Address r) ∧
    Report_ValidUntilLedger r = SignatureExpirationLedger a ∧
    AddressBound r = address_bound (Credentials e) ∧
    Report_CredentialType r = credentialTypeName (Credentials_Type (Credentials e)) ∧
    Forall2 (λ n v, FormatAddress (flat_address n) = Ok (Verdict_Address v) ∧
               Verdict v = node_verdict n payload) (flatNodes e) (Report_Nodes r).
Proof.
  unfold verifyEntry, is_source, own_payload. intros Hv Hs. rewrite Hs in Hv. inv_ok.
  apply negb_false_iff in Hx. exists x0, x3. subst. rewrite Hx0. cbn [mbind result_bind].
  rewrite Hx2. cbn [mbind result_bind]. repeat (split; [done|]).
  cbn [AddressBound Report_CredentialType Report_Nodes]. split.
  { unfold address_bound. destruct (Z.eqb_spec (Credentials_Type (Credentials e))
      CredentialsAddress) as [->|]; [done|]. by destruct (_ || _)%bool. }
  split; [done|]. pose proof (credentialNodes_flat _ _ Hx4) as Hf.
  apply imapM_from_Forall2 in Hx5.
  assert (Hr : ∀ f, f ∈ flatNodes e → readSignature e (flat_path f) = Some (flat_sig f))
    by apply flatNodes_read.
  clear Hx4. revert x5 Hx5. induction Hf as [|n f ns fs [Ha Hp] _ IH]; intros vs Hvs;
    inversion Hvs as [|? v ? vs' Hv' Hvs']; subst; constructor.
  - apply wrap_Ok in Hv'. eapply verifyNode_Ok; [exact Ha| |exact Hv'].
    unfold loadSignature. rewrite Hp, Hr by constructor. done.
  - apply IH; [|done]. intros f' Hf'. apply Hr. by constructor.
Qed.
End verify.

(** ** Theorems *)
Section verify_theorems.
Context `{SDK} `{!SDKLaws}.

(** A report on an entry of an address arm lists exactly the entry's
    signature-bearing nodes, in walk order, each under its own address with
    the verdict [node_verdict] gives it over the payload the entry commits to
    at the expiration stored in it. *)
Theorem VerifyEntry_report ctx e pass w r w' :
  VerifyEntryContext ctx e pass w = (Ok r, w') → is_source e = false →
  ∃ a payload, addressCredentials (Credentials e) = Ok a ∧ own_payload e pass = Ok payload ∧
    Report_ValidUntilLedger r = SignatureExpirationLedger a ∧
    AddressBound r = address_bound (Credentials e) ∧
    Forall2 (λ n v, FormatAddress (flat_address n) = Ok (Verdict_Address v) ∧
               Verdict v = node_verdict n payload) (flatNodes e) (Report_Nodes r).
Proof.
  unfold VerifyEntryContext. intros Hv Hs. inv_io.
  apply verifyEntry_Ok in Hl as (a & payload & ? & ? & ? & ? & ? & ? & ?); [|done].
  exists a, payload. by repeat split.
Qed.

(** C7. The report never overstates: when it says the entry is verified, the
    entry has a node, and every node is an account's, is signed, and carries
    a 32-byte key and a 64-byte signature of that key over the entry's own
    payload. *)
Theorem VerifyEntry_sound ctx e pass w r w' :
  VerifyEntryContext ctx e pass w = (Ok r, w') → is_source e = false → Verified r = true →
  flatNodes e ≠ [] ∧ ∃ payload, own_payload e pass = Ok payload ∧
    ∀ n, n ∈ flatNodes e →
      (∃ id, flat_address n = ScAddressTypeAccount id) ∧ isSigned (flat_sig n) = true ∧
      ∃ pk sig, parseAccountSignature (flat_sig n) = Ok (pk, sig) ∧
        length pk = 32 ∧ length sig = 64 ∧ ed25519_Verify pk payload sig = true.
Proof.
  unfold VerifyEntryContext. intros Hv Hs Hver. inv_io.
  apply verifyEntry_Ok in Hl as (a & payload & Ha & Hp & _ & _ & _ & _ & Hf); [|done].
  split; [unfold flatNodes; by rewrite Ha|]. exists payload. split; [done|].
  intros n (i & Hn)%list_elem_of_lookup.
  destruct (Forall2_lookup_l _ _ _ _ _ Hf Hn) as (v & Hv & _ & Hd).
  unfold Verified in Hver. rewrite forallb_forall in Hver.
  assert (Hvv : Verdict v = VerdictVerified).
  { eapply bool_decide_eq_true, Hver, list_elem_of_In, list_elem_of_lookup_2, Hv. }
  rewrite Hd in Hvv. unfold node_verdict in Hvv.
  destruct (flat_address n) as [id|?|?|?|?|?]; try done. split; [by exists id|].
  destruct (isSigned (flat_sig n)); [|done]. cbn [negb] in Hvv. split; [done|].
  destruct (parseAccountSignature (flat_sig n)) as [[pk sg]|] eqn:Hpa; [|done].
  exists pk, sg. split; [done|]. destruct (ed25519_Verify pk payload sg); [|done].
  pose proof (parseAccountSignature_lengths _ _ _ Hpa) as [? ?]. by repeat split.
Qed.

(** An entry signed by account signatures that check. *)
Lemma AuthorizeEntry_verifies ctx entry s v pass opts w out w' t id r :
  AuthorizeEntry ctx entry (Some s) v pass opts w = (Ok out, w') → is_source entry = false →
  ParseAddress (targetOf (applyOptions opts) s) = Ok t → t = ScAddressTypeAccount id →
  (∀ pre payload w1 sig w2, signer_Sign s ctx pre payload w1 = (Ok sig, w2) →
     ∃ pk raw, parseAccountSignature sig = Ok (pk, raw) ∧
               ed25519_Verify pk payload raw = true) →
  verifyEntry out pass = Ok r →
  ∃ payload, own_payload out pass = Ok payload ∧
    (∃ verdict n, (n, verdict) ∈ zip (flatNodes out) (Report_Nodes r) ∧ flat_address n = t) ∧
    Forall2 (λ n verdict, flat_address n = t → Verdict verdict = VerdictVerified)
      (flatNodes out) (Report_Nodes r) ∧
    Forall2 (λ n verdict, flat_address n ≠ t → Verdict verdict = node_verdict n payload)
      (flatNodes entry) (Report_Nodes r).
Proof.
  intros Hauth Hsrc Hpt Hid Hsign Hver.
  apply AuthorizeEntry_Ok in Hauth as (s' & t' & plan & payload & sig & w1 & w2 &
    [= <-] & Hprep & Hp & Hcall & ->); [|done].
  pose proof (prepared_parse _ _ _ _ _ _ _ Hprep) as Hpt'.
  assert (t' = t) as -> by congruence. clear Hpt'.
  destruct (prepared_credentials _ _ _ _ _ _ _ Hprep) as [a Ha].
  pose proof (signEntry_credentials t sig v entry a Ha) as (Ha' & Hty & _).
  apply verifyEntry_Ok in Hver as (a' & payload' & Ha2 & Hown & _ & _ & _ & _ & Hf).
  2: { unfold is_source in *. by rewrite Hty. }
  rewrite Ha' in Ha2. injection Ha2 as <-.
  assert (Hpp : own_payload (signEntry t sig v entry) pass = Ok payload).
  { unfold own_payload. rewrite Ha'. cbn [mbind result_bind SignatureExpirationLedger].
    rewrite (Preimage_signEntry _ _ _ _ a _ _ Ha), (prepared_preimage _ _ _ _ _ _ _ Hprep).
    exact Hp. }
  assert (payload' = payload) as -> by congruence. exists payload. split; [done|].
  destruct (Hsign _ _ _ _ _ Hcall) as (pk & raw & Hparse & Hcheck).
  rewrite (flatNodes_signEntry t sig v entry a Ha) in *. apply Forall2_fmap_l in Hf.
  split; [|split].
  - destruct (prepared_found _ _ _ _ _ _ _ Hprep) as (n & Hn & Hnt).
    apply list_elem_of_lookup in Hn as (i & Hi).
    destruct (Forall2_lookup_l _ _ _ _ _ Hf Hi) as (vd & Hvd & _).
    exists vd, (signFlat t sig n). split; [|done].
    apply (list_elem_of_lookup_2 _ i). apply lookup_zip_Some. split; [|done].
    rewrite list_lookup_fmap, Hi. done.
  - apply Forall2_fmap_l. eapply Forall2_impl; [exact Hf|]. intros n vd [_ Hd] Hn.
    rewrite Hd. unfold node_verdict. cbn in Hn |- *. rewrite Hn, Hid, decide_True by congruence.
    assert (isSigned sig = true) as -> by (by eapply parseAccountSignature_signed).
    cbn [negb]. by rewrite Hparse, Hcheck.
  - eapply Forall2_impl; [exact Hf|]. intros n vd [_ Hd] Hn. rewrite Hd.
    unfold node_verdict. cbn. by rewrite decide_False.
Qed.

(** C6. Signing and verifying fit together: whatever [AuthorizeEntry] returns
    for a signer whose answers are account signatures that check, a report on
    that entry gives every node of the target account the verdict verified,
    and every other node the verdict its old signature has over the payload
    now committed to. *)
Theorem AuthorizeEntry_VerifyEntry ctx entry s v pass opts w out w' t id r :
  AuthorizeEntry ctx entry (Some s) v pass opts w = (Ok out, w') → is_source entry = false →
  ParseAddress (targetOf (applyOptions opts) s) = Ok t → t = ScAddressTypeAccount id →
  (∀ pre payload w1 sig w2, signer_Sign s ctx pre payload w1 = (Ok sig, w2) →
     ∃ pk raw, parseAccountSignature sig = Ok (pk, raw) ∧
               ed25519_Verify pk payload raw = true) →
  verifyEntry out pass = Ok r →
  ∃ payload, own_payload out pass = Ok payload ∧
    (∃ verdict n, (n, verdict) ∈ zip (flatNodes out) (Report_Nodes r) ∧ flat_address n = t) ∧
    Forall2 (λ n verdict, flat_address n = t → Verdict verdict = VerdictVerified)
      (flatNodes out) (Report_Nodes r) ∧
    Forall2 (λ n verdict, flat_address n ≠ t → Verdict verdict = node_verdict n payload)
      (flatNodes entry) (Report_Nodes r).
Proof. apply AuthorizeEntry_verifies. Qed.
End verify_theorems.

(** ** The theorems at concrete entries *)
Definition ex_report : VerificationReport :=
  match verifyEntry ex_authorized ex_network with
  | Ok r => r | Err _ => mkReport "" false "" 0 [] ""
  end.

Example ex_report_verdicts : map Verdict (Report_Nodes ex_report) =
  [VerdictUnsigned; VerdictUnsigned; VerdictVerified; VerdictVerified].
Proof. vm_compute. reflexivity. Qed.

Lemma ex_report_run : ∃ w',
  VerifyEntryContext Background ex_authorized ex_network initial_world = (Ok ex_report, w').
Proof. eexists. vm_compute. reflexivity. Qed.

Lemma VerifyEntry_report_witness : ∃ a payload,
  addressCredentials (Credentials ex_authorized) = Ok a ∧
  own_payload ex_authorized ex_network = Ok payload ∧
  Report_ValidUntilLedger ex_report = SignatureExpirationLedger a ∧
  AddressBound ex_report = address_bound (Credentials ex_authorized) ∧
  Forall2 (λ n v, FormatAddress (flat_address n) = Ok (Verdict_Address v) ∧
             Verdict v = node_verdict n payload) (flatNodes ex_authorized) (Report_Nodes ex_report).
Proof.
  destruct ex_report_run as [w' Hr]. exact (VerifyEntry_report _ _ _ _ _ _ Hr eq_refl).
Defined.

Definition ex_v2_signed : SorobanAuthorizationEntry :=
  match (AuthorizeEntry Background (ex_v2 "a" 0 ScvVoid) (Some (ex_signer "a")) 1000 ex_network []
           initial_world).1 with
  | Ok out => out | Err _ => ex_source
  end.

Definition ex_v2_report : VerificationReport :=
  match verifyEntry ex_v2_signed ex_network with
  | Ok r => r | Err _ => mkReport "" false "" 0 [] ""
  end.

Lemma ex_v2_report_run : ∃ w',
  VerifyEntryContext Background ex_v2_signed ex_network initial_world = (Ok ex_v2_report, w').
Proof. eexists. vm_compute. reflexivity. Qed.

Lemma VerifyEntry_sound_witness : flatNodes ex_v2_signed ≠ [] ∧
  ∃ payload, own_payload ex_v2_signed ex_network = Ok payload ∧
    ∀ n, n ∈ flatNodes ex_v2_signed →
      (∃ id, flat_address n = ScAddressTypeAccount id) ∧ isSigned (flat_sig n) = true ∧
      ∃ pk sig, parseAccountSignature (flat_sig n) = Ok (pk, sig) ∧
        length pk = 32 ∧ length sig = 64 ∧ ed25519_Verify pk payload sig = true.
Proof.
  destruct ex_v2_report_run as [w' Hr].
  apply (VerifyEntry_sound _ _ _ _ _ _ Hr); vm_compute; reflexivity.
Defined.

Lemma ex_signer_checks b ctx pre payload w1 sig w2 :
  length payload = 32 → signer_Sign (ex_signer b) ctx pre payload w1 = (Ok sig, w2) →
  ∃ pk raw, parseAccountSignature sig = Ok (pk, raw) ∧ ed25519_Verify pk payload raw = true.
Proof.
  intros Hl [= <- _]. exists (ex_key b), (payload ++ ex_key b). split.
  - apply parseAccountSignature_account; [by apply length_replicate|].
    rewrite length_app, Hl. unfold ex_key. by rewrite length_replicate.
  - by apply bytes_Equal_spec.
Qed.

(** A signer that insists on a 32-byte payload. *)
Definition ex_careful_signer (b : Byte.byte) : Signer := mkSigner (ex_text b)
  (λ ctx pre payload, if Nat.eqb (length payload) 32 then signer_Sign (ex_signer b) ctx pre payload
                      else lift (Err (EText "bad payload"))) None.

Definition ex_careful_out : SorobanAuthorizationEntry :=
  match (AuthorizeEntry Background ex_delegates (Some (ex_careful_signer "c")) 1000 ex_network []
           initial_world).1 with
  | Ok out => out | Err _ => ex_source
  end.

Definition ex_careful_report : VerificationReport :=
  match verifyEntry ex_careful_out ex_network with
  | Ok r => r | Err _ => mkReport "" false "" 0 [] ""
  end.

Lemma AuthorizeEntry_VerifyEntry_witness : ∃ payload,
  own_payload ex_careful_out ex_network = Ok payload ∧
  (∃ verdict n, (n, verdict) ∈ zip (flatNodes ex_careful_out) (Report_Nodes ex_careful_report) ∧
     flat_address n = ex_account "c") ∧
  Forall2 (λ n verdict, flat_address n = ex_account "c" → Verdict verdict = VerdictVerified)
    (flatNodes ex_careful_out) (Report_Nodes ex_careful_report) ∧
  Forall2 (λ n verdict, flat_address n ≠ ex_account "c" →
             Verdict verdict = node_verdict n payload)
    (flatNodes ex_delegates) (Report_Nodes ex_careful_report).
Proof.
  assert (Hrun : ∃ w', AuthorizeEntry Background ex_delegates (Some (ex_careful_signer "c")) 1000
    ex_network [] initial_world = (Ok ex_careful_out, w')) by (eexists; vm_compute; reflexivity).
  destruct Hrun as [w' Hrun].
  refine (AuthorizeEntry_VerifyEntry _ _ _ _ _ _ _ _ _ (ex_account "c") _ _ Hrun eq_refl _ eq_refl
    _ _).
  - vm_compute. reflexivity.
  - intros pre payload w1 sig w2 Hs. unfold ex_careful_signer in Hs. cbn [signer_Sign] in Hs.
    destruct (Nat.eqb_spec (length payload) 32) as [Hl|]; [|done].
    by eapply (ex_signer_checks "c").
  - vm_compute. reflexivity.
Defined.
