(* ===== verification/Workers.v ===== *)
(** * Workers: concurrent jobs that each fill their own slot

    The batch operations start one goroutine per entry; each writes its result
    into its own position of a shared array and the caller waits for all of
    them.  [runSlots] runs the jobs one after another in the order a scheduler
    picked; the array's final state is stated for every order. *)
From Stdlib Require Import ZArith Lia String.
From stdpp Require Import base list strings.
From S2P Require Import Prelude Errors Xdr Runtime.

Open Scope string_scope. Open Scope nat_scope. Open Scope list_scope.

Section workers.
Context {A : Type} (job : nat → IO A).

Fixpoint runSlots (order : list nat) (slots : list (option (result A)))
    : IO (list (option (result A))) :=
  match order with
  | [] => mret slots
  | i :: order =>
      r ← try_ (job i);
      runSlots order (<[i := Some r]> slots)
  end.

Definition emptySlots (n : nat) : list (option (result A)) := replicate n None.

(** Slot [i] after a run: its own job's result, at some point of the run. *)
Definition job_result (i : nat) (r : result A) : Prop := ∃ w w', job i w = (r, w').

Lemma runSlots_spec order slots w :
  NoDup order →
  ∃ slots' w', runSlots order slots w = (Ok slots', w') ∧ length slots' = length slots ∧
    (∀ i, i ∉ order → slots' !! i = slots !! i) ∧
    (∀ i, i ∈ order → i < length slots → ∃ r, slots' !! i = Some (Some r) ∧ job_result i r).
Proof.
  intros Hnd. revert slots w. induction Hnd as [|i order Hi _ IH]; intros slots w.
  { exists slots, w. split; [done|]. split; [done|]. split; [done|].
    intros i Hin. by apply not_elem_of_nil in Hin. }
  cbn [runSlots]. unfold mbind at 1, IO_bind at 1, try_ at 1.
  destruct (job i w) as [r w1] eqn:Hj.
  destruct (IH (<[i := Some r]> slots) w1) as (slots' & w' & -> & Hl & Hout & Hin).
  rewrite length_insert in Hl, Hin. exists slots', w'. split; [done|]. split; [done|]. split.
  - intros j Hj'. apply not_elem_of_cons in Hj' as [Hne Hj'].
    by rewrite Hout, list_lookup_insert_ne by done.
  - intros j [->|Hj']%elem_of_cons Hlt; [|by apply Hin].
    exists r. rewrite Hout by done. rewrite list_lookup_insert_eq by done.
    split; [done|]. by exists w, w1.
Qed.

(** Every slot is filled by its own job, in whatever order the jobs ran. *)
Lemma runSlots_all order n w :
  order ≡ₚ seq 0 n →
  ∃ results w', runSlots order (emptySlots n) w = (Ok (Some <$> results), w') ∧
    length results = n ∧ ∀ i r, results !! i = Some r → job_result i r.
Proof.
  intros Hp. assert (Hnd : NoDup order) by (rewrite Hp; apply NoDup_seq).
  destruct (runSlots_spec order (emptySlots n) w Hnd) as (slots & w' & Hr & Hl & _ & Hin).
  unfold emptySlots in Hl, Hin. rewrite length_replicate in Hl, Hin.
  assert (Hex : ∃ results, slots = Some <$> results).
  { assert (Hall : Forall is_Some slots).
    { apply Forall_lookup. intros i o Ho.
      assert (Hlt : i < n) by (rewrite <-Hl; by eapply lookup_lt_Some).
      destruct (Hin i) as (r & Hi & _); [rewrite Hp; apply elem_of_seq; lia|done|].
      rewrite Ho in Hi. injection Hi as ->. by exists r. }
    clear -Hall. induction Hall as [|o slots [r ->] _ [rs ->]]; [by exists []|by exists (r :: rs)]. }
  destruct Hex as [results ->]. exists results, w'. rewrite length_fmap in Hl.
  split; [done|]. split; [done|]. intros i r Hi.
  assert (Hlt : i < n) by (rewrite <-Hl; by eapply lookup_lt_Some).
  destruct (Hin i) as (r' & Hi' & Hj); [rewrite Hp; apply elem_of_seq; lia|done|].
  rewrite list_lookup_fmap, Hi in Hi'. cbn in Hi'. by injection Hi' as ->.
Qed.

(** When a job's result does not depend on when it runs, neither does the
    array. *)
Lemma runSlots_deterministic (f : nat → result A) order n w :
  order ≡ₚ seq 0 n → (∀ i w, i < n → (job i w).1 = f i) →
  ∃ w', runSlots order (emptySlots n) w = (Ok (Some <$> map f (seq 0 n)), w').
Proof.
  intros Hp Hf. destruct (runSlots_all order n w Hp) as (results & w' & -> & Hl & Hr).
  exists w'. do 3 f_equal. apply list_eq. intros i.
  destruct (results !! i) as [r|] eqn:Hi.
  - assert (Hlt : i < n) by (rewrite <-Hl; by eapply lookup_lt_Some).
    destruct (Hr i r Hi) as (w1 & w2 & Hj). rewrite list_lookup_fmap, lookup_seq_lt by done. cbn.
    rewrite <-(Hf i w1 Hlt), Hj. done.
  - apply lookup_ge_None in Hi. symmetry. apply lookup_ge_None.
    rewrite length_map, length_seq. lia.
Qed.
End workers.

(** Reading the slots back after the wait. *)
Definition slotResult {A} (o : option (result A)) (zero : A) : result A :=
  match o with Some r => r | None => Ok zero end.
