(* ===== verification/Batch.v ===== *)
(** * Batch: signing and verifying many entries (batch.go, batch_sign.go)

    [AuthorizeAll] validates the whole batch before the first signature;
    [AuthorizeBatch] signs with one goroutine per entry and [VerifyAll]
    verifies with a pool.  Goroutines write to their own slots ([Workers]);
    [order] is the order the scheduler ran them in.  [signed_by] is the
    abstract specification of what signing one entry with several signers
    leaves. *)
From Stdlib Require Import ZArith Lia Strings.Byte String.
From stdpp Require Import base list strings gmap pretty.
From S2P Require Import Prelude Errors Xdr ModelSDK Runtime Examples Address Signers Limits Arm Preimage Nodes Delegates Authorize Verify Workers.

Open Scope string_scope. Open Scope nat_scope. Open Scope list_scope.

Record DelegatePlan := mkDelegatePlan {
  Plan_Delegates : list Delegate;
  Plan_TopSignature : option ScVal
}.

Record authorizeAllConfig := mkAllConfig {
  requireAllSigned : bool;
  delegatePlans : gmap string DelegatePlan
}.

Definition AuthorizeAllOption : Type := authorizeAllConfig → authorizeAllConfig.

Definition RequireAllSigned : AuthorizeAllOption := λ c, mkAllConfig true (delegatePlans c).
Definition WithDelegatePlans (plans : gmap string DelegatePlan) : AuthorizeAllOption := λ c,
  mkAllConfig (requireAllSigned c) plans.

(** Options may be nil; nil ones are skipped. *)
Definition allConfig (opts : list (option AuthorizeAllOption)) : authorizeAllConfig :=
  foldl (λ c o, match o with Some o => o c | None => c end) (mkAllConfig false ∅) opts.

(** An entry that passed validation: the entry to sign, its top-level address
    and the signers that apply. *)
Record preparedEntry := mkPrepared {
  prep_entry : SorobanAuthorizationEntry;
  prep_address : string;
  prep_signers : list Signer
}.

Section batch.
Context `{SDK}.

(** ** batch.go: signersForEntry *)
Fixpoint matchSigners (nodes : list credentialNode) (topLevel : bytes)
    (signers : list (option Signer)) : result (list Signer * bool) :=
  match signers with
  | [] => Ok ([], false)
  | None :: rest => matchSigners nodes topLevel rest
  | Some s :: rest =>
      match ParseAddress (signer_Address s) with
      | Err _ => matchSigners nodes topLevel rest
      | Ok address =>
          enc ← addressBytes address;
          '(matched, top) ← matchSigners nodes topLevel rest;
          if existsb (λ n, bytes_Equal (encoded n) enc) nodes
          then Ok (s :: matched, top || bytes_Equal enc topLevel)
          else Ok (matched, top)
      end
  end.

Definition signersForEntry (entry : SorobanAuthorizationEntry) (signers : list (option Signer))
    : result (list Signer * bool) :=
  nodes ← credentialNodes entry;
  match nodes with
  | [] => Err (EText "entry has no credential nodes")
  | n :: _ => matchSigners nodes (encoded n) signers
  end.

(** ** batch.go: AuthorizeAll *)
(** Phase 1 for one entry: the plan it used, if any, and the outcome. *)
Definition validateEntry (config : authorizeAllConfig) (signers : list (option Signer))
    (validUntilLedger : Z) (i : nat) (entry : SorobanAuthorizationEntry)
    : option string * result preparedEntry :=
  let t := Credentials_Type (Credentials entry) in
  let prefix s := "entry " +:+ pretty i +:+ " (" +:+ s +:+ ")" in
  if (t =? CredentialsSourceAccount)%Z then
    (None, copied ← wrap (prefix "source account") (Copy entry);
           Ok (mkPrepared copied "" []))
  else
    match wrap (prefix ("credentials type " +:+ pretty t)) (addressCredentials (Credentials entry)) with
    | Err e => (None, Err e)
    | Ok credentials =>
        match wrap (prefix "<unformattable address>") (FormatAddress (Address credentials)) with
        | Err e => (None, Err e)
        | Ok address =>
            let finish used entry :=
              (used : option string,
               '(matched, _) ← wrap (prefix address) (signersForEntry entry signers);
               _ ← refuse (Nat.eqb (length matched) 0)
                     (EWrap (prefix address) (MissingSignerError address));
               Ok (mkPrepared entry address matched)) in
            match delegatePlans config !! address with
            | Some plan =>
                match wrap (prefix address +:+ ": delegate plan")
                        (WithDelegates entry validUntilLedger (Plan_Delegates plan)
                           (Plan_TopSignature plan)) with
                | Err e => (None, Err e)
                | Ok wrapped => finish (Some address) wrapped
                end
            | None => finish None entry
            end
        end
    end.

(** All of phase 1: the errors in the order they are collected and the
    prepared entries.  Go visits the plans in an unspecified order; here it is
    the map's own. *)
Definition validateAll (config : authorizeAllConfig) (signers : list (option Signer))
    (validUntilLedger : Z) (entries : list SorobanAuthorizationEntry)
    : list error * list preparedEntry :=
  let outcomes := imap (validateEntry config signers validUntilLedger) entries in
  let used : gset string := list_to_set (omap fst outcomes) in
  let errs := omap (λ o, match o.2 with Err e => Some e | Ok _ => None end) outcomes in
  let unmatched := omap (λ '(address, _),
    if decide (address ∈ used) then None
    else Some (EWrap address (DelegatePlanUnmatchedError address)))
    (map_to_list (delegatePlans config)) in
  (errs ++ unmatched,
   omap (λ o, match o.2 with Ok p => Some p | Err _ => None end) outcomes).

(** One entry's signers in turn, each targeted with [ForAddress]. *)
Fixpoint signWithAll (prefix : string) (ctx : Ctx) (validUntilLedger : Z)
    (networkPassphrase : string) (signers : list Signer) (entry : SorobanAuthorizationEntry)
    : IO SorobanAuthorizationEntry :=
  match signers with
  | [] => mret entry
  | s :: rest =>
      signed ← io_wrap (prefix +:+ ": signer " +:+ signer_Address s)
        (AuthorizeEntry ctx entry (Some s) validUntilLedger networkPassphrase
           [ForAddress (signer_Address s)]);
      signWithAll prefix ctx validUntilLedger networkPassphrase rest signed
  end.

(** Phase 2. *)
Fixpoint signPrepared (ctx : Ctx) (validUntilLedger : Z) (networkPassphrase : string)
    (i : nat) (prepared : list preparedEntry) : IO (list SorobanAuthorizationEntry) :=
  match prepared with
  | [] => mret []
  | p :: rest =>
      signed ← (if is_source (prep_entry p) then mret (prep_entry p)
                else signWithAll ("soroauth: authorize all: entry " +:+ pretty i +:+ " (" +:+
                                  prep_address p +:+ ")") ctx validUntilLedger
                       networkPassphrase (prep_signers p) (prep_entry p));
      out ← signPrepared ctx validUntilLedger networkPassphrase (S i) rest;
      mret (signed :: out)
  end.

(** The check of [RequireAllSigned], on the signed entries. *)
Definition checkAllSigned (prepared : list preparedEntry)
    (out : list SorobanAuthorizationEntry) : result unit :=
  iterM_from (λ i '(p, e),
    if is_source e then Ok tt
    else
      nodes ← wrap ("soroauth: authorize all: entry " +:+ pretty i +:+ " (" +:+
                    prep_address p +:+ ")") (credentialNodes e);
      iterM_from (λ _ n,
        if nodeIsSigned e (signature n) then Ok tt
        else
          let address := match formatAddressBytes (encoded n) with
                         | Ok s => s | Err _ => "<unformattable address>" end in
          Err (EWrap ("soroauth: authorize all: entry " +:+ pretty i +:+ " (" +:+ address +:+ ")")
                 (UnsignedCredentialNodeError address))) 0 nodes) 0 (zip prepared out).

Definition AuthorizeAll (ctx : Ctx) (entries : list SorobanAuthorizationEntry)
    (signers : list (option Signer)) (validUntilLedger : Z) (networkPassphrase : string)
    (opts : list (option AuthorizeAllOption)) : IO (list SorobanAuthorizationEntry) :=
  _ ← ctx_check ctx "soroauth: authorize all";
  let config := allConfig opts in
  let '(errs, prepared) := validateAll config signers validUntilLedger entries in
  match errs with
  | _ :: _ => lift (Err (EWrap "soroauth: authorize all" (EJoin errs)))
  | [] =>
      out ← signPrepared ctx validUntilLedger networkPassphrase 0 prepared;
      _ ← lift (if requireAllSigned config then checkAllSigned prepared out else Ok tt);
      mret out
  end.

(** ** batch_sign.go *)
Definition authorizeOne (ctx : Ctx) (entry : SorobanAuthorizationEntry)
    (signers : list (option Signer)) (validUntilLedger : Z) (networkPassphrase : string)
    : IO SorobanAuthorizationEntry :=
  if is_source entry then lift (Copy entry)
  else
    credentials ← lift (wrap "soroauth: authorize batch" (addressCredentials (Credentials entry)));
    address ← lift (wrap "soroauth: authorize batch" (FormatAddress (Address credentials)));
    '(matched, _) ← lift (wrap "soroauth: authorize batch" (signersForEntry entry signers));
    _ ← lift (refuse (Nat.eqb (length matched) 0)
          (EWrap ("soroauth: authorize batch: " +:+ address) (MissingSignerError address)));
    signWithAll "soroauth: authorize batch" ctx validUntilLedger networkPassphrase matched entry.

Definition zeroEntry : SorobanAuthorizationEntry :=
  mkEntry (mkCredentials 0 None None None)
    (mkInvocation (FunctionContractFn None) []).

(** What the caller makes of the slots: the first failure by position, with
    the number of failures, or every result. *)
Definition collectBatch (n : nat) (results : list (result SorobanAuthorizationEntry))
    : result (list SorobanAuthorizationEntry) :=
  let failures := omap (λ '(i, r), match r with Err e => Some (i, e) | Ok _ => None end)
                    (imap pair results) in
  match failures with
  | (i, e) :: _ =>
      Err (EWrap ("soroauth: authorize batch: " +:+ pretty (length failures) +:+ " of " +:+
                  pretty n +:+ " entries failed, first at entry " +:+ pretty i) e)
  | [] => Ok (omap (λ r, match r with Ok a => Some a | Err _ => None end) results)
  end.

(** [order] is the order the goroutines ran in; the worker limit only
    restricts which orders and overlaps occur. *)
Definition AuthorizeBatch (order : list nat) (ctx : Ctx)
    (entries : list SorobanAuthorizationEntry) (signers : list (option Signer))
    (validUntilLedger : Z) (networkPassphrase : string) : IO (list SorobanAuthorizationEntry) :=
  _ ← ctx_check ctx "soroauth: authorize batch";
  slots ← runSlots (λ i, authorizeOne ctx (nth i entries zeroEntry) signers validUntilLedger
                      networkPassphrase) order (emptySlots (length entries));
  _ ← ctx_check ctx "soroauth: authorize batch";
  lift (collectBatch (length entries) (map (λ o, slotResult o zeroEntry) slots)).

(** ** batch.go: VerifyAll *)
Record VerifyResult := mkVerifyResult {
  Result_Index : nat;
  Result_Address : string;
  Result_Error : option error
}.

(** One job of the pool; [VerifyEntry]'s own context is never cancelled. *)
Definition verifyJob (networkPassphrase : string) (index : nat)
    (entry : SorobanAuthorizationEntry) : VerifyResult :=
  if is_source entry then mkVerifyResult index "" None
  else
    match addressCredentials (Credentials entry) with
    | Err e => mkVerifyResult index "" (Some e)
    | Ok credentials =>
        let address := match FormatAddress (Address credentials) with Ok s => s | Err _ => "" end in
        mkVerifyResult index address
          (match verifyEntry entry networkPassphrase with
           | Err e => Some e
           | Ok rep =>
               if Verified rep then None
               else
                 match List.find (λ n, negb (bool_decide (Verdict n = VerdictVerified))
                         && negb (bool_decide (Verdict n = VerdictUnsigned))) (Report_Nodes rep) with
                 | Some n => Some (EText ("node " +:+ Verdict_Address n +:+ " verdict " +:+
                               verdict_string (Verdict n) +:+ ": " +:+ Reason n))
                 | None => None
                 end
           end)
    end.

Definition VerifyAll (order : list nat) (ctx : Ctx) (entries : list SorobanAuthorizationEntry)
    (networkPassphrase : string) : IO (list VerifyResult) :=
  _ ← ctx_check ctx "soroauth: verify all";
  match entries with
  | [] => mret []
  | _ =>
      slots ← runSlots (λ i, mret (verifyJob networkPassphrase i (nth i entries zeroEntry)))
                order (emptySlots (length entries));
      lift (Ok (omap (λ o, match slotResult o (mkVerifyResult 0 "" None) with
                           | Ok r => Some r | Err _ => None end) slots))
  end.
End batch.

(** ** Specification *)
(** The entry after the given (address, signature) pairs in turn. *)
Definition signedWith (v : Z) (e : SorobanAuthorizationEntry) (sigs : list (ScAddress * ScVal))
    : SorobanAuthorizationEntry :=
  foldl (λ e '(t, sig), signEntry t sig v e) e sigs.

Section batch_lemmas.
Context `{SDK} `{!SDKLaws}.
Variables (ctx : Ctx) (v : Z) (pass : string).

(** A node of the entry, the top-level one or a delegate at any depth, is of
    the signer's address. *)
Definition holds (e : SorobanAuthorizationEntry) (s : Signer) : Prop :=
  ∃ n, n ∈ flatNodes e ∧ ParseAddress (signer_Address s) = Ok (flat_address n).

#[global] Instance holds_dec e s : Decision (holds e s).
Proof.
  destruct (ParseAddress (signer_Address s)) as [a|err] eqn:Hp.
  - destruct (decide (a ∈ flat_address <$> flatNodes e)) as [Hin|Hin]; [left|right].
    + apply list_elem_of_fmap in Hin as (n & -> & Hn). by exists n.
    + intros (n & Hn & Ht). apply Hin, list_elem_of_fmap. exists n. split; [congruence|done].
  - right. intros (n & _ & Ht). congruence.
Defined.

(** What a signer contributed to [e]: its answer to [e]'s payload, for its own
    address. *)
Definition contributed (e : SorobanAuthorizationEntry) (s : Signer) (ts : ScAddress * ScVal)
    : Prop :=
  ParseAddress (signer_Address s) = Ok ts.1 ∧
  ∃ pre payload w1 w2, Preimage e v pass = Ok pre ∧ Payload pre = Ok payload ∧
    signer_Sign s ctx pre payload w1 = (Ok ts.2, w2).

(** [out] is [e] signed by every signer of the list whose address it holds,
    at least one, in their order, all over one payload. *)
Definition signed_by (signers : list (option Signer)) (e out : SorobanAuthorizationEntry)
    : Prop :=
  let matched := filter (holds e) (omap id signers) in
  matched ≠ [] ∧ ∃ sigs, Forall2 (contributed e) matched sigs ∧ out = signedWith v e sigs.

(** The entry's walk finds exactly the signers it holds. *)
Lemma matchSigners_holds e nodes topLevel signers matched top :
  Forall2 node_of nodes (flatNodes e) →
  matchSigners nodes topLevel signers = Ok (matched, top) →
  matched = filter (holds e) (omap id signers).
Proof.
  intros Hf. revert matched top.
  induction signers as [|[s|] rest IH]; intros matched top; cbn [matchSigners].
  - by intros [= <- _].
  - change (omap id (Some s :: rest)) with (s :: omap id rest). rewrite filter_cons.
    destruct (ParseAddress (signer_Address s)) as [a|] eqn:Hp.
    + intros Hm. inv_ok. destruct x0 as [m t].
      rewrite <-(IH m t) by done.
      assert (Hiff : existsb (λ n, bytes_Equal (encoded n) x) nodes = true ↔ holds e s).
      { rewrite existsb_In. unfold holds. split.
        - intros (n & Hn & Henc%bytes_Equal_spec). apply list_elem_of_lookup in Hn as [i Hi].
          destruct (Forall2_lookup_l _ _ _ _ _ Hf Hi) as (f & Hfi & Ha & _).
          exists f. split; [by eapply list_elem_of_lookup_2|]. rewrite Hp. f_equal.
          eapply addressBytes_inj; [|exact Ha]. congruence.
        - intros (f & Hin & Hpf). rewrite Hp in Hpf. injection Hpf as ->.
          apply list_elem_of_lookup in Hin as [i Hi].
          destruct (Forall2_lookup_r _ _ _ _ _ Hf Hi) as (n & Hn & Ha & _).
          exists n. split; [by eapply list_elem_of_lookup_2|]. apply bytes_Equal_spec. congruence. }
      destruct (existsb _ nodes); injection Hm as <- _;
        [rewrite decide_True by by apply Hiff|rewrite decide_False by (by rewrite <-Hiff)]; done.
    + intros Hm. rewrite decide_False; [by eapply IH|].
      intros (f & _ & Hpf). congruence.
  - intros Hm. by eapply IH.
Qed.

Lemma signersForEntry_holds e signers matched top :
  signersForEntry e signers = Ok (matched, top) →
  matched = filter (holds e) (omap id signers).
Proof.
  unfold signersForEntry. intros Hs. inv_ok.
  pose proof (credentialNodes_flat _ _ Hx) as Hf. destruct x as [|n0 ns]; [done|].
  by eapply matchSigners_holds.
Qed.

Lemma signWithAll_Ok prefix signers e w out w' :
  is_source e = false → signWithAll prefix ctx v pass signers e w = (Ok out, w') →
  ∃ sigs, Forall2 (contributed e) signers sigs ∧ out = signedWith v e sigs.
Proof.
  revert e w. induction signers as [|s rest IH]; intros e w Hs; cbn [signWithAll].
  { intros [= <- _]. exists []. by split. }
  intros Hr. inv_io. apply AuthorizeEntry_Ok in Hx as (s' & t & plan & payload & sig & w2 & w3 &
    [= <-] & Hprep & Hp & Hcall & ->); [|done].
  destruct (prepared_credentials _ _ _ _ _ _ _ Hprep) as [a Ha].
  pose proof (signEntry_credentials t sig v e a Ha) as (_ & Hty & _).
  apply IH in Hr as (sigs & Hsigs & ->); [|by unfold is_source in *; rewrite Hty].
  exists ((t, sig) :: sigs). split; [|done]. constructor.
  - split; [apply Hprep|]. exists (plan_preimage plan), payload, w2, w3.
    split; [apply Hprep|]. by split.
  - eapply Forall2_impl; [exact Hsigs|]. intros s' [t' sig'] [Ht Hc]. split; [done|].
    cbn [snd] in *. by setoid_rewrite (Preimage_signEntry t sig v e a _ _ Ha) in Hc.
Qed.

(** ** Validation *)
Lemma validateEntry_Ok config signers i e used p :
  validateEntry config signers v i e = (used, Ok p) →
  (is_source e = true ∧ prep_entry p = e) ∨
  (is_source e = false ∧ is_source (prep_entry p) = false ∧
   prep_signers p ≠ [] ∧ (∃ top, signersForEntry (prep_entry p) signers = Ok (prep_signers p, top)) ∧
   ∃ a address, addressCredentials (Credentials e) = Ok a ∧ FormatAddress (Address a) = Ok address ∧
     match delegatePlans config !! address with
     | None => prep_entry p = e
     | Some plan => WithDelegates e v (Plan_Delegates plan) (Plan_TopSignature plan)
                    = Ok (prep_entry p)
     end).
Proof.
  unfold validateEntry, is_source. intros Hv.
  destruct (Credentials_Type (Credentials e) =? CredentialsSourceAccount)%Z eqn:Ht.
  - left. injection Hv as _ Hv. inv_ok. split; [done|]. subst. by apply Copy_Ok in Hx.
  - right. destruct (wrap _ (addressCredentials _)) as [a|] eqn:Ha; [|done].
    destruct (wrap _ (FormatAddress _)) as [address|] eqn:Hf; [|done].
    apply wrap_Ok in Ha, Hf.
    assert (Hfin : ∀ used' e', (used', '(matched, _) ← wrap ("entry " +:+ pretty i +:+ " (" +:+
          address +:+ ")") (signersForEntry e' signers);
        _ ← refuse (Nat.eqb (length matched) 0) (EWrap ("entry " +:+ pretty i +:+ " (" +:+
          address +:+ ")") (MissingSignerError address));
        Ok (mkPrepared e' address matched)) = (used, Ok p) →
      prep_entry p = e' ∧ prep_signers p ≠ [] ∧
      ∃ top, signersForEntry e' signers = Ok (prep_signers p, top)).
    { intros used' e' [= _ Hp]. inv_ok. destruct x as [matched top]. inv_ok. subst.
      split; [done|]. split; [by destruct matched|]. by exists top. }
    destruct (delegatePlans config !! address) as [plan|] eqn:Hplan.
    + destruct (wrap _ (WithDelegates _ _ _ _)) as [wrapped|] eqn:Hw; [|done].
      apply wrap_Ok in Hw. apply Hfin in Hv as (-> & Hne & Hs). split; [done|]. split.
      { unfold WithDelegates in Hw. inv_ok. apply Copy_Ok in Hw. by subst. }
      split; [done|]. split; [done|]. exists a, address. by rewrite Hplan.
    + apply Hfin in Hv as (-> & Hne & Hs). split; [done|]. split; [done|].
      split; [done|]. split; [done|]. exists a, address. by rewrite Hplan.
Qed.

(** No errors: one prepared entry per entry, in order. *)
Lemma validateAll_Ok config signers entries prepared :
  validateAll config signers v entries = ([], prepared) →
  length prepared = length entries ∧
  ∀ i e, entries !! i = Some e → ∃ p used, prepared !! i = Some p ∧
    validateEntry config signers v i e = (used, Ok p).
Proof.
  unfold validateAll. intros Hv. injection Hv as [He _]%app_nil <-.
  assert (Hgen : ∀ k l, omap (λ o : option string * result preparedEntry,
      match o.2 with Err e => Some e | Ok _ => None end)
      (imap (λ j, validateEntry config signers v (k + j)) l) = [] →
    length (omap (λ o : option string * result preparedEntry,
      match o.2 with Ok p => Some p | Err _ => None end)
      (imap (λ j, validateEntry config signers v (k + j)) l)) = length l ∧
    ∀ i e, l !! i = Some e → ∃ p used,
      omap (λ o : option string * result preparedEntry,
        match o.2 with Ok p => Some p | Err _ => None end)
        (imap (λ j, validateEntry config signers v (k + j)) l) !! i = Some p ∧
      validateEntry config signers v (k + i) e = (used, Ok p)).
  { clear. intros k l. revert k. induction l as [|e l IH]; intros k; [done|].
    rewrite imap_cons. cbn [omap list_omap].
    assert (Hext : imap ((λ j, validateEntry config signers v (k + j)) ∘ S) l
      = imap (λ j, validateEntry config signers v (S k + j)) l).
    { apply imap_ext. intros j x _. cbn. by rewrite Nat.add_succ_r. }
    rewrite Hext. destruct (validateEntry config signers v (k + 0) e) as [used [p|err]] eqn:Hv;
      cbn [snd]; [|done].
    intros He. destruct (IH (S k) He) as [Hl Hi]. split; [cbn; by f_equal|].
    intros [|i] e' He'; cbn in He' |- *.
    - injection He' as <-. by exists p, used.
    - destruct (Hi i e' He') as (p' & used' & Hp' & Hv'). exists p', used'.
      split; [done|]. by rewrite Nat.add_succ_r. }
  destruct (Hgen 0 entries He) as [Hl Hi]. split; [exact Hl|exact Hi].
Qed.

Lemma signPrepared_Ok prepared i w outs w' :
  signPrepared ctx v pass i prepared w = (Ok outs, w') →
  Forall2 (λ p out,
    if is_source (prep_entry p) then out = prep_entry p
    else ∃ sigs, Forall2 (contributed (prep_entry p)) (prep_signers p) sigs ∧
           out = signedWith v (prep_entry p) sigs) prepared outs.
Proof.
  revert i w outs. induction prepared as [|p rest IH]; intros i w outs; cbn [signPrepared].
  { intros [= <- _]. constructor. }
  intros Hr. inv_io. constructor; [|by eapply IH].
  destruct (is_source (prep_entry p)) eqn:Hs.
  - injection Hx as <- _. done.
  - by eapply signWithAll_Ok.
Qed.
End batch_lemmas.

(** ** Theorems *)
Section batch_theorems.
Context `{SDK} `{!SDKLaws}.

(** A returned batch has one entry for each it was given. *)
Lemma AuthorizeAll_length ctx entries signers v pass opts w outs w' :
  AuthorizeAll ctx entries signers v pass opts w = (Ok outs, w') → length outs = length entries.
Proof.
  unfold AuthorizeAll. intros Ha. apply io_bind_Ok in Ha as ([] & w0 & _ & Ha).
  destruct (validateAll (allConfig opts) signers v entries) as [errs prepared] eqn:Hv.
  destruct errs as [|e0 errs]; [|by apply lift_Ok in Ha as [? _]]. inv_io.
  apply validateAll_Ok in Hv as [Hlen _]. apply signPrepared_Ok in Hx.
  pose proof (Forall2_length _ _ _ Hx) as Hlen'. congruence.
Qed.

(** What a returned batch holds, position by position. *)
Lemma AuthorizeAll_Ok ctx entries signers v pass opts w outs w' :
  AuthorizeAll ctx entries signers v pass opts w = (Ok outs, w') →
  length outs = length entries ∧
  ∀ i e, entries !! i = Some e → ∃ out, outs !! i = Some out ∧
    (is_source e = true → out = e) ∧
    (is_source e = false → ∃ e' a address,
       addressCredentials (Credentials e) = Ok a ∧ FormatAddress (Address a) = Ok address ∧
       match delegatePlans (allConfig opts) !! address with
       | None => e' = e
       | Some plan => WithDelegates e v (Plan_Delegates plan) (Plan_TopSignature plan) = Ok e'
       end ∧ signed_by ctx v pass signers e' out).
Proof.
  unfold AuthorizeAll. intros Ha. apply io_bind_Ok in Ha as ([] & w0 & _ & Ha).
  destruct (validateAll (allConfig opts) signers v entries) as [errs prepared] eqn:Hv.
  destruct errs as [|e0 errs]; [|by apply lift_Ok in Ha as [? _]]. inv_io.
  apply validateAll_Ok in Hv as [Hlen Hv]. apply signPrepared_Ok in Hx.
  pose proof (Forall2_length _ _ _ Hx) as Hlen'. split; [congruence|].
  intros i e He. destruct (Hv i e He) as (p & used & Hp & Hve).
  destruct (Forall2_lookup_l _ _ _ _ _ Hx Hp) as (out & Hout & Hspec). exists out.
  split; [done|].
  apply validateEntry_Ok in Hve as [[Hs Hpe]|(Hs & Hps & Hne & [top Hm] & a & adr & Ha & Hf & Hpl)].
  - split; [|by rewrite Hs]. intros _. rewrite Hpe, Hs in Hspec. congruence.
  - split; [by rewrite Hs|]. intros _. rewrite Hps in Hspec.
    destruct Hspec as (sigs & Hsigs & ->). exists (prep_entry p), a, adr.
    split; [done|]. split; [done|]. split; [done|].
    rewrite (signersForEntry_holds _ _ _ _ Hm) in Hsigs, Hne. split; [done|]. by exists sigs.
Qed.

(** C8. A returned batch is complete and in order: position by position, a
    source-account entry is returned unchanged, and every other entry (after
    wrapping, when a delegate plan names its address) is signed by every
    given signer whose address it holds, at least one, all over the same
    payload. *)
Theorem AuthorizeAll_signs ctx entries signers v pass opts w outs w' :
  AuthorizeAll ctx entries signers v pass opts w = (Ok outs, w') →
  length outs = length entries ∧
  ∀ i e, entries !! i = Some e → ∃ out, outs !! i = Some out ∧
    (is_source e = true → out = e) ∧
    (is_source e = false → ∃ e' a address,
       addressCredentials (Credentials e) = Ok a ∧ FormatAddress (Address a) = Ok address ∧
       match delegatePlans (allConfig opts) !! address with
       | None => e' = e
       | Some plan => WithDelegates e v (Plan_Delegates plan) (Plan_TopSignature plan) = Ok e'
       end ∧ signed_by ctx v pass signers e' out).
Proof. apply AuthorizeAll_Ok. Qed.


Lemma iterM_from_all {A} (f : nat → A → result unit) i l :
  iterM_from f i l = Ok tt → ∀ j x, l !! j = Some x → f (i + j) x = Ok tt.
Proof.
  revert i. induction l as [|x l IH]; intros i Hi j y Hy; [done|]. cbn in Hi. inv_ok.
  destruct j as [|j]; cbn in Hy.
  - injection Hy as <-. by rewrite Nat.add_0_r.
  - rewrite <-Nat.add_succ_comm. by apply IH.
Qed.

(** Under [RequireAllSigned] a returned batch has no unsigned node: every
    signature-bearing node of every entry that is not a source-account entry
    holds a signature. *)
Theorem AuthorizeAll_all_signed ctx entries signers v pass opts w outs w' :
  AuthorizeAll ctx entries signers v pass opts w = (Ok outs, w') →
  requireAllSigned (allConfig opts) = true →
  ∀ e n, e ∈ outs → is_source e = false → n ∈ flatNodes e → isSigned (flat_sig n) = true.
Proof.
  unfold AuthorizeAll. intros Ha Hreq e n He Hs Hn.
  apply io_bind_Ok in Ha as ([] & w0 & _ & Ha).
  destruct (validateAll (allConfig opts) signers v entries) as [errs prepared] eqn:Hv.
  destruct errs as [|e0 errs]; [|by apply lift_Ok in Ha as [? _]]. inv_io.
  rewrite Hreq in Hl. unfold checkAllSigned in Hl.
  apply signPrepared_Ok, Forall2_length in Hx.
  apply list_elem_of_lookup in He as [i Hi].
  assert (Hp : ∃ p, prepared !! i = Some p).
  { apply lookup_lt_is_Some. rewrite Hx. by eapply lookup_lt_Some. }
  destruct Hp as [p Hp].
  pose proof (iterM_from_all _ _ _ Hl i (p, e)) as Hck.
  rewrite lookup_zip_Some in Hck. specialize (Hck (conj Hp Hi)). cbn in Hck.
  rewrite Hs in Hck. inv_ok. rename x into nodes.
  match goal with E : credentialNodes e = Ok nodes |- _ => rename E into Hcn end.
  pose proof (credentialNodes_flat _ _ Hcn) as Hf.
  apply list_elem_of_lookup in Hn as [j Hj].
  destruct (Forall2_lookup_r _ _ _ _ _ Hf Hj) as (c & Hc & _ & Hsig).
  pose proof (iterM_from_all _ _ _ Hck j c Hc) as Hone. cbn in Hone.
  rewrite Hsig, nodeIsSigned_flat in Hone by (by eapply list_elem_of_lookup_2).
  by destruct (isSigned (flat_sig n)).
Qed.

Lemma authorizeOne_Ok ctx e signers v pass w out w' :
  authorizeOne ctx e signers v pass w = (Ok out, w') →
  (is_source e = true ∧ out = e) ∨ (is_source e = false ∧ signed_by ctx v pass signers e out).
Proof.
  unfold authorizeOne. destruct (is_source e) eqn:Hs.
  - intros Ha. apply lift_Ok in Ha as [Ha _]. left. split; [done|]. by apply Copy_Ok in Ha.
  - intros Ha. right. split; [done|]. inv_io. destruct x1 as [matched top]. inv_io.
    apply signWithAll_Ok in Ha as (sigs & Hsigs & ->); [|done].
    assert (Hm : signersForEntry e signers = Ok (matched, top)) by by eapply wrap_Ok.
    unfold signed_by. rewrite <-(signersForEntry_holds _ _ _ _ Hm).
    split; [by destruct matched|]. by exists sigs.
Qed.

Lemma collectBatch_Ok n results outs :
  collectBatch n results = Ok outs → results = map Ok outs.
Proof.
  unfold collectBatch.
  assert (Hgen : ∀ k, omap (λ '(i, r), match r with Err e => Some (i, e) | Ok _ => None end)
      (imap (λ j, pair (k + j)) results) = [] →
    results = map Ok (omap (λ r : result SorobanAuthorizationEntry,
      match r with Ok a => Some a | Err _ => None end) results)).
  { clear. induction results as [|r results IH]; intros k; [done|]. rewrite imap_cons.
    cbn [omap list_omap]. destruct r as [a|e]; [|done]. intros Hk. cbn [map]. f_equal.
    apply (IH (S k)). etrans; [|exact Hk]. f_equal. apply imap_ext. intros j x _. cbn.
    by rewrite Nat.add_succ_r. }
  destruct (omap _ (imap pair results)) as [|[i e] l] eqn:E; [|done].
  intros [= <-]. by apply (Hgen 0).
Qed.

Lemma map_slots {A} (results : list (result A)) zero :
  map (λ o, slotResult o zero) (Some <$> results) = results.
Proof. induction results as [|r results IH]; [done|]. cbn. f_equal. exact IH. Qed.

(** In whatever order the goroutines of a batch ran, a returned batch is
    complete and in input order: position by position a source-account entry
    unchanged, or the entry signed by every given signer whose address it
    holds, at least one, all over one payload. *)
Theorem AuthorizeBatch_signs order ctx entries signers v pass w outs w' :
  order ≡ₚ seq 0 (length entries) →
  AuthorizeBatch order ctx entries signers v pass w = (Ok outs, w') →
  Forall2 (λ e out, (is_source e = true ∧ out = e) ∨
                    (is_source e = false ∧ signed_by ctx v pass signers e out)) entries outs.
Proof.
  unfold AuthorizeBatch. intros Hp Ha. inv_io.
  rename Hl into Hcol.
  destruct (runSlots_all (λ i, authorizeOne ctx (nth i entries zeroEntry) signers v pass)
    order (length entries) (tick w) Hp) as (results & w2 & Hr & Hl & Hj).
  rewrite Hr in Hx0. injection Hx0 as <- <-.
  rewrite map_slots in Hcol. apply collectBatch_Ok in Hcol. subst results.
  rewrite length_map in Hl.
  apply Forall2_same_length_lookup_2; [done|]. intros i e out He Hout.
  destruct (Hj i (Ok out)) as (w3 & w4 & Hjob).
  { change (map Ok outs) with (Ok <$> outs). by rewrite list_lookup_fmap, Hout. }
  rewrite (nth_lookup_Some entries i zeroEntry e He) in Hjob. by eapply authorizeOne_Ok.
Qed.

(** C10. The batch's result does not depend on scheduling: when signing each
    entry has one outcome whenever it runs, and the context stays live, any
    two orders give the same entries or the same error, the first failure by
    position. *)
Theorem AuthorizeBatch_schedule order1 order2 ctx entries signers v pass w f :
  order1 ≡ₚ seq 0 (length entries) → order2 ≡ₚ seq 0 (length entries) →
  (∀ t, ctx_Err ctx t = None) →
  (∀ i e w, entries !! i = Some e → (authorizeOne ctx e signers v pass w).1 = f i) →
  (AuthorizeBatch order1 ctx entries signers v pass w).1
  = (AuthorizeBatch order2 ctx entries signers v pass w).1.
Proof.
  intros Hp1 Hp2 Hctx Hf.
  assert (Hrun : ∀ order, order ≡ₚ seq 0 (length entries) →
    (AuthorizeBatch order ctx entries signers v pass w).1
    = collectBatch (length entries) (map f (seq 0 (length entries)))).
  { intros order Hp. unfold AuthorizeBatch. unfold mbind at 1, IO_bind at 1.
    rewrite (proj2 (ctx_check_Ok ctx _ w tt (tick w))) by done.
    unfold mbind at 1, IO_bind at 1.
    destruct (runSlots_deterministic (λ i, authorizeOne ctx (nth i entries zeroEntry) signers
      v pass) f order (length entries) (tick w) Hp) as (w1 & Hr).
    { intros i w2 Hi. destruct (lookup_lt_is_Some_2 entries i Hi) as [e He].
      rewrite (nth_lookup_Some entries i zeroEntry e He). by apply (Hf i e). }
    rewrite Hr. unfold mbind at 1, IO_bind at 1.
    rewrite (proj2 (ctx_check_Ok ctx _ w1 tt (tick w1))) by done. cbn [lift fst].
    by rewrite map_slots. }
  by rewrite (Hrun _ Hp1), (Hrun _ Hp2).
Qed.

Lemma map_verify_slots (g : nat → VerifyResult) l zero :
  omap (λ o, match slotResult o zero with Ok r => Some r | Err _ => None end)
    (Some <$> map (λ i, Ok (g i)) l) = g <$> l.
Proof. induction l as [|i l IH]; [done|]. cbn in IH |- *. by rewrite IH. Qed.

(** [VerifyAll] checks every entry whatever the others hold: with a live
    context and any scheduling of the pool, result [i] is the verdict on
    entry [i] alone, under index [i]. *)
Theorem VerifyAll_each order ctx entries pass w :
  order ≡ₚ seq 0 (length entries) → ctx_Err ctx (now w) = None →
  ∃ w', VerifyAll order ctx entries pass w = (Ok (imap (verifyJob pass) entries), w').
Proof.
  intros Hp Hc. unfold VerifyAll. unfold mbind at 1, IO_bind at 1.
  rewrite (proj2 (ctx_check_Ok ctx _ w tt (tick w))) by done.
  destruct entries as [|e0 entries0] eqn:He; [by eexists|]. rewrite <-He in *.
  unfold mbind at 1, IO_bind at 1.
  destruct (runSlots_deterministic (λ i, mret (verifyJob pass i (nth i entries zeroEntry)))
    (λ i, Ok (verifyJob pass i (nth i entries zeroEntry))) order (length entries) (tick w) Hp)
    as (w1 & Hr); [by intros|].
  rewrite Hr. exists w1. cbn [lift]. do 2 f_equal. clear.
  apply list_eq. intros i. rewrite list_lookup_imap.
  rewrite map_verify_slots. destruct (entries !! i) as [e|] eqn:He.
  - rewrite list_lookup_fmap, lookup_seq_lt by (by eapply lookup_lt_Some). cbn.
    by rewrite (nth_lookup_Some entries i zeroEntry e He).
  - apply lookup_ge_None. rewrite length_fmap, length_seq. by apply lookup_ge_None.
Qed.
End batch_theorems.

(** ** The theorems at concrete batches *)
Definition ex_entries : list SorobanAuthorizationEntry :=
  [ex_source; ex_v2 "a" 0 ScvVoid; ex_legacy "b" 0 ScvVoid].

Definition ex_signers : list (option Signer) :=
  [Some (ex_signer "b"); None; Some (ex_signer "z"); Some (ex_signer "a")].

(** A plan for [a]'s entry: wrapped with [b] as its delegate. *)
Definition ex_plans : gmap string DelegatePlan :=
  {[ ex_text "a" := mkDelegatePlan [mkDelegate (ex_text "b") None []] None ]}.

Definition ex_all_opts : list (option AuthorizeAllOption) :=
  [Some RequireAllSigned; None; Some (WithDelegatePlans ex_plans)].

Definition ex_all : list SorobanAuthorizationEntry :=
  match (AuthorizeAll Background ex_entries ex_signers 1000 ex_network ex_all_opts
           initial_world).1 with
  | Ok outs => outs | Err _ => []
  end.

Lemma ex_all_run : ∃ w',
  AuthorizeAll Background ex_entries ex_signers 1000 ex_network ex_all_opts initial_world
  = (Ok ex_all, w').
Proof. eexists. vm_compute. reflexivity. Qed.

Lemma AuthorizeAll_signs_witness : length ex_all = length ex_entries ∧
  ∀ i e, ex_entries !! i = Some e → ∃ out, ex_all !! i = Some out ∧
    (is_source e = true → out = e) ∧
    (is_source e = false → ∃ e' a address,
       addressCredentials (Credentials e) = Ok a ∧ FormatAddress (Address a) = Ok address ∧
       match delegatePlans (allConfig ex_all_opts) !! address with
       | None => e' = e
       | Some plan => WithDelegates e 1000 (Plan_Delegates plan) (Plan_TopSignature plan) = Ok e'
       end ∧ signed_by Background 1000 ex_network ex_signers e' out).
Proof.
  destruct ex_all_run as [w' Hr]. exact (AuthorizeAll_signs _ _ _ _ _ _ _ _ _ Hr).
Defined.

Lemma AuthorizeAll_all_signed_witness :
  Forall (λ e, ∀ n, is_source e = false → n ∈ flatNodes e → isSigned (flat_sig n) = true) ex_all.
Proof.
  apply Forall_forall. intros e He n. revert e n He. destruct ex_all_run as [w' Hr].
  apply (AuthorizeAll_all_signed _ _ _ _ _ _ _ _ _ Hr). reflexivity.
Defined.


Lemma AuthorizeBatch_signs_witness : ∃ outs,
  Forall2 (λ e out, (is_source e = true ∧ out = e) ∨
    (is_source e = false ∧ signed_by Background 1000 ex_network ex_signers e out))
    ex_entries outs.
Proof.
  destruct (AuthorizeBatch [2; 0; 1] Background ex_entries ex_signers 1000 ex_network
    initial_world) as [[outs|e] w'] eqn:Hr.
  - exists outs. apply (AuthorizeBatch_signs [2; 0; 1] _ _ _ _ _ initial_world outs w'); [|exact Hr].
    vm_compute. apply (Permutation_app_comm [2] [0; 1]).
  - exfalso. assert (Hok : is_ok (AuthorizeBatch [2; 0; 1] Background ex_entries ex_signers 1000
      ex_network initial_world).1 = true) by (vm_compute; reflexivity).
    by rewrite Hr in Hok.
Defined.

Definition ex_outcome (i : nat) : result SorobanAuthorizationEntry :=
  (authorizeOne Background (nth i ex_entries zeroEntry) ex_signers 1000 ex_network initial_world).1.

Lemma ex_outcome_fixed i e w : ex_entries !! i = Some e →
  (authorizeOne Background e ex_signers 1000 ex_network w).1 = ex_outcome i.
Proof.
  intros He. unfold ex_outcome. rewrite (nth_lookup_Some _ _ zeroEntry _ He).
  destruct i as [|[|[|i]]]; [injection He as <-..|by rewrite lookup_ge_None_2 in He by (cbn; lia)];
    vm_compute; reflexivity.
Qed.

Lemma AuthorizeBatch_schedule_witness :
  (AuthorizeBatch [2; 0; 1] Background ex_entries ex_signers 1000 ex_network initial_world).1
  = (AuthorizeBatch [0; 1; 2] Background ex_entries ex_signers 1000 ex_network initial_world).1.
Proof.
  apply (AuthorizeBatch_schedule _ _ _ _ _ _ _ _ ex_outcome).
  - vm_compute. apply (Permutation_app_comm [2] [0; 1]).
  - reflexivity.
  - reflexivity.
  - apply ex_outcome_fixed.
Defined.

Lemma VerifyAll_each_witness : ∃ w',
  VerifyAll [1; 2; 0] Background ex_all ex_network initial_world
  = (Ok (imap (verifyJob ex_network) ex_all), w').
Proof.
  apply VerifyAll_each; [|reflexivity]. vm_compute. apply (Permutation_app_comm [1; 2] [0]).
Defined.
