(* ===== verification/Envelope.v ===== *)
(** * Envelope: the entries inside a transaction envelope (envelope.go)

    [EnvelopeEntries] finds the authorization entries of an envelope,
    [AuthorizeEnvelope] signs them operation by operation with [AuthorizeAll],
    [EnvelopePayloads] reports what would be signed.  The abstract view of an
    envelope is the list of its authorization vectors, read by [authVectors]
    and replaced by [setVectors]; [AuthorizeEnvelope_refines] shows the function
    to be [AuthorizeAll] on each vector in turn and nothing else. *)
From Stdlib Require Import ZArith Lia Strings.Byte String.
From stdpp Require Import base list strings pretty.
From S2P Require Import Prelude Errors Xdr ModelSDK Runtime Examples Address Limits Arm Preimage Nodes.
From S2P Require Import Inspect Authorize Batch.

Open Scope string_scope. Open Scope nat_scope. Open Scope list_scope.

(** ** Transaction envelopes *)
(** The fields the program copies without reading (source accounts, fees,
    memos, signatures, the host function, other operations' bodies) are kept as
    their encodings. *)
Record InvokeHostFunctionOp := mkInvokeHostFunctionOp {
  HostFunction : bytes;
  Auth : list SorobanAuthorizationEntry
}.

Inductive OperationBody :=
| OperationInvokeHostFunction (op : option InvokeHostFunctionOp)
| OperationOther (t : Z) (rest : bytes).

Record Operation := mkOperation { Operation_SourceAccount : bytes; Body : OperationBody }.

Record Transaction := mkTransaction { Tx_rest : bytes; Operations : list Operation }.

Record TransactionArm := mkTransactionArm { Tx : Transaction; Tx_Signatures : bytes }.

Inductive FeeBumpInnerTx :=
| InnerEnvelopeTypeTx (V1 : option TransactionArm)
| InnerOther (t : Z).

Record FeeBumpTransactionEnvelope := mkFeeBump {
  FeeBump_rest : bytes;
  InnerTx : FeeBumpInnerTx;
  FeeBump_Signatures : bytes
}.

Inductive TransactionEnvelope :=
| EnvelopeTypeTx (V1 : option TransactionArm)
| EnvelopeTypeTxV0 (V0 : option TransactionArm)
| EnvelopeTypeTxFeeBump (FeeBump : option FeeBumpTransactionEnvelope)
| EnvelopeTypeOther (t : Z).

#[export] Instance InvokeHostFunctionOp_eq_dec : EqDecision InvokeHostFunctionOp.
Proof. solve_eval_decision. Defined.
#[export] Instance OperationBody_eq_dec : EqDecision OperationBody.
Proof. solve_eval_decision. Defined.
#[export] Instance Operation_eq_dec : EqDecision Operation.
Proof. solve_eval_decision. Defined.
#[export] Instance Transaction_eq_dec : EqDecision Transaction.
Proof. solve_eval_decision. Defined.
#[export] Instance TransactionArm_eq_dec : EqDecision TransactionArm.
Proof. solve_eval_decision. Defined.
#[export] Instance FeeBumpInnerTx_eq_dec : EqDecision FeeBumpInnerTx.
Proof. solve_eval_decision. Defined.
#[export] Instance FeeBump_eq_dec : EqDecision FeeBumpTransactionEnvelope.
Proof. solve_eval_decision. Defined.
#[export] Instance TransactionEnvelope_eq_dec : EqDecision TransactionEnvelope.
Proof. solve_eval_decision. Defined.

(** The SDK's part: the codec of an envelope and the name of its type. *)
Class EnvelopeSDK := {
  SDK_Envelope :: XdrCodec TransactionEnvelope;
  EnvelopeType_String : Z → string
}.

(** ** Reading *)
Record EnvelopeEntry := mkEnvelopeEntry {
  OperationIndex : nat;
  EntryIndex : nat;
  located_Entry : SorobanAuthorizationEntry
}.

Record EnvelopeEntryInfo := mkEnvelopeEntryInfo {
  Info_OperationIndex : nat;
  Info_EntryIndex : nat;
  Info_Entry : EntryInfo
}.

Record EnvelopePayload := mkEnvelopePayload {
  Payload_OperationIndex : nat;
  Payload_EntryIndex : nat;
  Payload_SourceAccount : bool;
  Payload_Preimage : option HashIdPreimage;     (* the zero value is [None] *)
  Payload_Payload : bytes
}.

Definition operationEntry (p : string) (located : EnvelopeEntry) : string :=
  p +:+ ": operation " +:+ pretty (OperationIndex located) +:+
  " entry " +:+ pretty (EntryIndex located).

(** A loop with effects, stopping at the first error, with the index. *)
Section imapIO.
Context {A B : Type} (f : nat → A → IO B).
Fixpoint imapIO_from (i : nat) (l : list A) : IO (list B) :=
  match l with
  | [] => mret []
  | x :: l' => y ← f i x; ys ← imapIO_from (S i) l'; mret (y :: ys)
  end.
End imapIO.

Section envelope.
Context `{SDK} `{EnvelopeSDK}.

Definition envelopeOperations (env : TransactionEnvelope) : result (list Operation) :=
  match env with
  | EnvelopeTypeTx None => Err (EText "the envelope_type_tx arm is empty")
  | EnvelopeTypeTx (Some v1) => Ok (Operations (Tx v1))
  | EnvelopeTypeTxV0 None => Err (EText "the envelope_type_tx_v0 arm is empty")
  | EnvelopeTypeTxV0 (Some v0) => Ok (Operations (Tx v0))
  | EnvelopeTypeTxFeeBump None => Err (EText "the envelope_type_tx_fee_bump arm is empty")
  | EnvelopeTypeTxFeeBump (Some feeBump) =>
      match InnerTx feeBump with
      | InnerOther t =>
          Err (EText ("fee-bump inner transaction is " +:+ EnvelopeType_String t +:+
                      ", want envelope_type_tx"))
      | InnerEnvelopeTypeTx None =>
          Err (EText "the fee-bump inner envelope_type_tx arm is empty")
      | InnerEnvelopeTypeTx (Some v1) => Ok (Operations (Tx v1))
      end
  | EnvelopeTypeOther _ => Err (ESentinel ErrUnsupportedEnvelope)
  end.

(** The entries of one operation; [None] when it does not invoke a host
    function. *)
Definition operationEntries (i : nat) (op : Operation) : result (option (list EnvelopeEntry)) :=
  match Body op with
  | OperationOther _ _ => Ok None
  | OperationInvokeHostFunction None =>
      Err (EText ("soroauth: envelope entries: operation " +:+ pretty i +:+
                  ": the invokeHostFunction arm is empty"))
  | OperationInvokeHostFunction (Some o) => Ok (Some (imap_from (mkEnvelopeEntry i) 0 (Auth o)))
  end.

Definition EnvelopeEntries (env : TransactionEnvelope) : result (list EnvelopeEntry) :=
  operations ← wrap "soroauth: envelope entries" (envelopeOperations env);
  rows ← imapM operationEntries operations;
  let invokeOperations := omap id rows in
  _ ← refuse (Nat.eqb (length invokeOperations) 0)
        (EWrap "soroauth: envelope entries" (ESentinel ErrNoInvokeOperation));
  Ok (concat invokeOperations).

Definition InspectEnvelope (env : TransactionEnvelope) : result (list EnvelopeEntryInfo) :=
  entries ← wrap "soroauth: inspect envelope" (EnvelopeEntries env);
  rmapM (λ located,
    info ← wrap (operationEntry "soroauth: inspect envelope" located) (Inspect (located_Entry located));
    Ok (mkEnvelopeEntryInfo (OperationIndex located) (EntryIndex located) info)) entries.

Definition envelopePayload (validUntilLedger : Z) (networkPassphrase : string)
    (located : EnvelopeEntry) : result EnvelopePayload :=
  let here := mkEnvelopePayload (OperationIndex located) (EntryIndex located) in
  if (Credentials_Type (Credentials (located_Entry located)) =? CredentialsSourceAccount)%Z then
    Ok (here true None (replicate 32 x00))
  else
    preimage ← wrap (operationEntry "soroauth: envelope payloads" located)
                 (Preimage (located_Entry located) validUntilLedger networkPassphrase);
    hash ← wrap (operationEntry "soroauth: envelope payloads" located) (Payload preimage);
    Ok (here false (Some preimage) hash).

Definition EnvelopePayloads (env : TransactionEnvelope) (validUntilLedger : Z)
    (networkPassphrase : string) : result (list EnvelopePayload) :=
  entries ← wrap "soroauth: envelope payloads" (EnvelopeEntries env);
  rmapM (envelopePayload validUntilLedger networkPassphrase) entries.

(** ** Signing *)
(** The loop writes through the pointer of the copied operation. *)
Definition authorizeOperation (ctx : Ctx) (signers : list (option Signer)) (validUntilLedger : Z)
    (networkPassphrase : string) (i : nat) (op : Operation) : IO Operation :=
  match Body op with
  | OperationInvokeHostFunction (Some o) =>
      auth ← io_wrap ("soroauth: authorize envelope: operation " +:+ pretty i)
               (AuthorizeAll ctx (Auth o) signers validUntilLedger networkPassphrase []);
      mret (mkOperation (Operation_SourceAccount op)
              (OperationInvokeHostFunction (Some (mkInvokeHostFunctionOp (HostFunction o) auth))))
  | _ => mret op
  end.

Definition armWith (arm : TransactionArm) (ops : list Operation) : TransactionArm :=
  mkTransactionArm (mkTransaction (Tx_rest (Tx arm)) ops) (Tx_Signatures arm).

(** An envelope whose operations slice holds other values. *)
Definition withOperations (env : TransactionEnvelope) (ops : list Operation) : TransactionEnvelope :=
  match env with
  | EnvelopeTypeTx (Some v1) => EnvelopeTypeTx (Some (armWith v1 ops))
  | EnvelopeTypeTxV0 (Some v0) => EnvelopeTypeTxV0 (Some (armWith v0 ops))
  | EnvelopeTypeTxFeeBump (Some feeBump) =>
      match InnerTx feeBump with
      | InnerEnvelopeTypeTx (Some v1) =>
          EnvelopeTypeTxFeeBump (Some (mkFeeBump (FeeBump_rest feeBump)
            (InnerEnvelopeTypeTx (Some (armWith v1 ops))) (FeeBump_Signatures feeBump)))
      | _ => env
      end
  | _ => env
  end.

Definition AuthorizeEnvelope (ctx : Ctx) (env : TransactionEnvelope) (signers : list (option Signer))
    (validUntilLedger : Z) (networkPassphrase : string) : IO TransactionEnvelope :=
  let op := "soroauth: authorize envelope" in
  _ ← ctx_check ctx op;
  _ ← lift (wrap op (EnvelopeEntries env));
  signed ← lift (wrap op (Copy env));
  operations ← lift (wrap op (envelopeOperations signed));
  operations ← imapIO_from (authorizeOperation ctx signers validUntilLedger networkPassphrase)
                 0 operations;
  mret (withOperations signed operations).
End envelope.

(** ** The abstract view: the authorization vectors *)
Definition invokeOf (op : Operation) : option InvokeHostFunctionOp :=
  match Body op with OperationInvokeHostFunction o => o | OperationOther _ _ => None end.

Definition authVectors (ops : list Operation) : list (list SorobanAuthorizationEntry) :=
  omap (λ op, Auth <$> invokeOf op) ops.

Fixpoint setVectors (ops : list Operation) (vs : list (list SorobanAuthorizationEntry))
    : list Operation :=
  match ops with
  | [] => []
  | op :: ops =>
      match invokeOf op, vs with
      | Some o, v :: vs =>
          mkOperation (Operation_SourceAccount op)
            (OperationInvokeHostFunction (Some (mkInvokeHostFunctionOp (HostFunction o) v)))
          :: setVectors ops vs
      | _, _ => op :: setVectors ops vs
      end
  end.

(** What signing an envelope promises: each vector is authorized, in turn. *)
Definition authorizeVectors `{SDK} (ctx : Ctx) (signers : list (option Signer)) (validUntilLedger : Z)
    (networkPassphrase : string) (vs : list (list SorobanAuthorizationEntry))
    : IO (list (list SorobanAuthorizationEntry)) :=
  imapIO_from (λ _ v, AuthorizeAll ctx v signers validUntilLedger networkPassphrase []) 0 vs.

(** The position of an entry. *)
Definition entryAt (ops : list Operation) (i j : nat) (e : SorobanAuthorizationEntry) : Prop :=
  ∃ op o, ops !! i = Some op ∧ invokeOf op = Some o ∧ Auth o !! j = Some e.

(** *** The view is a lens *)
Lemma authVectors_cons op ops :
  authVectors (op :: ops) =
  match invokeOf op with Some o => Auth o :: authVectors ops | None => authVectors ops end.
Proof. unfold authVectors. rewrite omap_step. by destruct (invokeOf op). Qed.

Lemma authVectors_set ops vs :
  length vs = length (authVectors ops) → authVectors (setVectors ops vs) = vs.
Proof.
  revert vs. induction ops as [|op ops IH]; intros vs Hl.
  { by destruct vs. }
  rewrite authVectors_cons in Hl. cbn [setVectors].
  destruct (invokeOf op) as [o|] eqn:Ho.
  - destruct vs as [|v vs]; [done|]. rewrite authVectors_cons. cbn. f_equal. apply IH. by injection Hl.
  - rewrite authVectors_cons, Ho. by apply IH.
Qed.

Lemma setVectors_set ops vs us : length us = length vs → length vs = length (authVectors ops) →
  setVectors (setVectors ops vs) us = setVectors ops us.
Proof.
  revert vs us. induction ops as [|op ops IH]; intros vs us Hu Hv; [done|].
  rewrite authVectors_cons in Hv. cbn [setVectors].
  destruct (invokeOf op) as [o|] eqn:Ho.
  - destruct vs as [|v vs]; [done|]. destruct us as [|u us]; [done|]. cbn. f_equal.
    apply IH; [by injection Hu|by injection Hv].
  - cbn [setVectors]. rewrite Ho. f_equal. by apply IH.
Qed.

Lemma setVectors_get ops : setVectors ops (authVectors ops) = ops.
Proof.
  induction ops as [|op ops IH]; [done|]. rewrite authVectors_cons. cbn [setVectors].
  destruct (invokeOf op) as [o|] eqn:Ho; rewrite IH; [|done]. f_equal.
  unfold invokeOf in Ho. destruct op as [src [[[h a]|]|]]; cbn in *; simplify_eq/=; done.
Qed.

Lemma map_located k i l : map located_Entry (imap_from (mkEnvelopeEntry k) i l) = l.
Proof. revert i. induction l as [|e l IH]; intros i; cbn; [done|]. by rewrite IH. Qed.

Lemma map_concat {A B} (f : A → B) ls : concat (map (map f) ls) = map f (concat ls).
Proof. induction ls as [|l ls IH]; cbn; [done|]. by rewrite map_app, IH. Qed.

Section envelope_lemmas.
Context `{SDK} `{EnvelopeSDK}.

Lemma envelopeOperations_with env ops ops' :
  envelopeOperations env = Ok ops → envelopeOperations (withOperations env ops') = Ok ops'.
Proof.
  destruct env as [[?|]|[?|]|[[rest [[?|]|?] sigs]|]|?]; cbn; intros Hops; try discriminate Hops; done.
Qed.

Lemma operationEntries_Ok i op row : operationEntries i op = Ok row →
  row = (λ o, imap_from (mkEnvelopeEntry i) 0 (Auth o)) <$> invokeOf op ∧
  ∀ o, Body op = OperationInvokeHostFunction o → is_Some o.
Proof.
  unfold operationEntries, invokeOf. destruct (Body op) as [[o|]|]; intros Hr; try discriminate Hr;
    injection Hr as <-; split; try done; intros ? [= <-]; done.
Qed.

(** The rows of the operations that invoke a host function. *)
Lemma operationEntries_rows k ops rows :
  imapM_from operationEntries k ops = Ok rows →
  map (map located_Entry) (omap id rows) = authVectors ops ∧
  (∀ i j e, mkEnvelopeEntry (k + i) j e ∈ concat (omap id rows) ↔ entryAt ops i j e) ∧
  (∀ le, le ∈ concat (omap id rows) → k ≤ OperationIndex le).
Proof.
  revert k rows. induction ops as [|op ops IH]; intros k rows Hr.
  { injection Hr as <-. split; [done|]. split.
    - intros i j e. cbn. rewrite elem_of_nil. split; [done|]. by intros (? & ? & ? & _).
    - by intros le ?%not_elem_of_nil. }
  cbn [imapM_from] in Hr. apply bind_Ok in Hr as (row & Hrow & (rest & Hrest & [= <-])%bind_Ok).
  apply operationEntries_Ok in Hrow as [-> _]. apply IH in Hrest as (Hm & Hat & Hge).
  rewrite authVectors_cons, omap_step.
  assert (Hstep : ∀ i j e, entryAt (op :: ops) (S i) j e ↔ entryAt ops i j e) by done.
  assert (Hzero : ∀ j e, entryAt (op :: ops) 0 j e ↔ ∃ o, invokeOf op = Some o ∧ Auth o !! j = Some e).
  { intros j e. unfold entryAt. cbn. naive_solver. }
  destruct (invokeOf op) as [o|] eqn:Ho; cbn [fmap option_fmap option_map id].
  - split; [cbn; f_equal; [apply map_located|done]|].
    assert (Hhere : ∀ le, le ∈ imap_from (mkEnvelopeEntry k) 0 (Auth o) ↔
      ∃ j e, Auth o !! j = Some e ∧ le = mkEnvelopeEntry k j e) by (intros; apply elem_of_imap_from).
    cbn [concat]. split.
    + intros i j e. rewrite elem_of_app, Hhere. destruct i as [|i].
      * rewrite Nat.add_0_r, Hzero. split; [|naive_solver].
        intros [(j' & e' & ? & ?)|Hle%Hge]; [|cbn in Hle; lia]. naive_solver.
      * rewrite Nat.add_succ_r, Hstep, <-Hat. split; [|by right].
        intros [(j' & e' & ? & Heq)|?]; [|done]. injection Heq. lia.
    + intros le [(? & ? & _ & ->)%Hhere|Hle%Hge]%elem_of_app; cbn; lia.
  - split; [done|]. split.
    + intros [|i] j e; [|rewrite Nat.add_succ_r; apply Hat].
      rewrite Nat.add_0_r, Hzero. split; [|naive_solver]. intros Hle%Hge. cbn in Hle. lia.
    + intros le Hle%Hge. lia.
Qed.

Lemma EnvelopeEntries_Ok env les : EnvelopeEntries env = Ok les →
  ∃ ops, envelopeOperations env = Ok ops ∧ authVectors ops ≠ [] ∧
    map located_Entry les = concat (authVectors ops) ∧
    ∀ i j e, mkEnvelopeEntry i j e ∈ les ↔ entryAt ops i j e.
Proof.
  unfold EnvelopeEntries. intros He.
  apply bind_Ok in He as (ops & Hops%wrap_Ok & (rows & Hrows & He)%bind_Ok).
  apply bind_Ok in He as ([] & Hne%refuse_Ok & [= <-]).
  apply (operationEntries_rows 0) in Hrows as (Hm & Hat & _). exists ops. split; [done|].
  rewrite <-Hm. split; [|split; [|exact Hat]].
  - intros Hnil. destruct (omap id rows); [done|discriminate Hnil].
  - symmetry. apply map_concat.
Qed.

(** The loop over the operations is the loop over their vectors. *)
Lemma imapIO_operations ctx signers v p k k' ops w r w' :
  imapIO_from (authorizeOperation ctx signers v p) k ops w = (r, w') →
  match r with
  | Ok ops' => ∃ vs,
      imapIO_from (λ _ auth, AuthorizeAll ctx auth signers v p []) k' (authVectors ops) w = (Ok vs, w') ∧
      ops' = setVectors ops vs
  | Err _ => ∃ e,
      imapIO_from (λ _ auth, AuthorizeAll ctx auth signers v p []) k' (authVectors ops) w = (Err e, w')
  end.
Proof.
  revert k k' w r. induction ops as [|op ops IH]; intros k k' w r Hr.
  { injection Hr as <- <-. by exists []. }
  rewrite authVectors_cons. cbn [imapIO_from] in Hr.
  unfold mbind at 1, IO_bind at 1 in Hr. unfold authorizeOperation at 1 in Hr. unfold invokeOf.
  assert (Hskip : ∀ w, (ys ← imapIO_from (authorizeOperation ctx signers v p) (S k) ops;
      mret (op :: ys)) w = (r, w') → match invokeOf op with Some _ => False | None => True end →
    match r with
    | Ok ops' => ∃ vs,
        imapIO_from (λ _ auth, AuthorizeAll ctx auth signers v p []) k' (authVectors ops) w = (Ok vs, w') ∧
        ops' = setVectors (op :: ops) vs
    | Err _ => ∃ e,
        imapIO_from (λ _ auth, AuthorizeAll ctx auth signers v p []) k' (authVectors ops) w = (Err e, w')
    end).
  { clear Hr. intros w0 Hr Ho. unfold mbind, IO_bind in Hr.
    destruct (imapIO_from _ (S k) ops w0) as [[ops'|e] w1] eqn:Hrest; injection Hr as <- <-.
    - apply (IH (S k) k') in Hrest as (vs & Hvs & ->). exists vs. split; [done|].
      cbn [setVectors]. by destruct (invokeOf op).
    - by apply (IH (S k) k') in Hrest. }
  destruct (Body op) as [[o|]|] eqn:Hb; [|apply Hskip; [done|unfold invokeOf; by rewrite Hb]..].
  clear Hskip. unfold mbind at 1, IO_bind at 1, io_wrap in Hr.
  destruct (AuthorizeAll ctx (Auth o) signers v p [] w) as [[auth|e] w1] eqn:Hauth; cbn [wrap] in Hr.
  2:{ injection Hr as <- <-. exists e. cbn [imapIO_from]. unfold mbind, IO_bind. by rewrite Hauth. }
  cbn in Hr. unfold mbind, IO_bind in Hr.
  destruct (imapIO_from _ (S k) ops w1) as [[ops'|e] w2] eqn:Hrest; injection Hr as <- <-;
    apply (IH (S k) (S k')) in Hrest.
  - destruct Hrest as (vs & Hvs & ->). exists (auth :: vs). split.
    + cbn [imapIO_from]. unfold mbind, IO_bind. by rewrite Hauth, Hvs.
    + cbn [setVectors]. unfold invokeOf. by rewrite Hb.
  - destruct Hrest as (e' & He'). exists e'. cbn [imapIO_from]. unfold mbind, IO_bind.
    by rewrite Hauth, He'.
Qed.
End envelope_lemmas.

(** ** Theorems *)
Section envelope_theorems.
Context `{SDK} `{EnvelopeSDK} `{!SDKLaws} `{!XdrCodecLaws TransactionEnvelope}.

Lemma imapIO_lengths ctx signers v p us k w vs w' :
  imapIO_from (λ _ auth, AuthorizeAll ctx auth signers v p []) k us w = (Ok vs, w') →
  Forall2 (λ old new : list SorobanAuthorizationEntry, length new = length old) us vs.
Proof.
  revert k w vs. induction us as [|u us IH]; intros k w vs Hvs; cbn in Hvs.
  - injection Hvs as <- <-. constructor.
  - apply io_bind_Ok in Hvs as (x & w1 & Hx & (ys & w3 & Hys & Hvs)%io_bind_Ok).
    injection Hvs as <- <-. constructor; [by eapply AuthorizeAll_length|by eapply IH].
Qed.

(** A run, taken apart. *)
Lemma AuthorizeEnvelope_run ctx env signers v p w r w' :
  AuthorizeEnvelope ctx env signers v p w = (r, w') →
  match r with
  | Ok env' => ∃ ops ops' vs,
      envelopeOperations env = Ok ops ∧ authVectors ops ≠ [] ∧
      authorizeVectors ctx signers v p (authVectors ops) (tick w) = (Ok vs, w') ∧
      env' = withOperations env ops' ∧ envelopeOperations env' = Ok ops' ∧
      authVectors ops' = vs ∧ setVectors ops' (authVectors ops) = ops ∧
      Forall2 (λ old new, length new = length old) (authVectors ops) vs
  | Err _ => log w' = log w ∨ ∃ ops e,
      envelopeOperations env = Ok ops ∧
      authorizeVectors ctx signers v p (authVectors ops) (tick w) = (Err e, w')
  end.
Proof.
  unfold AuthorizeEnvelope. cbv zeta. intros Ha. unfold mbind at 1, IO_bind at 1 in Ha.
  destruct (ctx_check ctx _ w) as [[[]|e] w1] eqn:Hc.
  2:{ injection Ha as <- <-. left. apply ctx_check_Err in Hc as (? & _ & _ & ->). done. }
  apply ctx_check_Ok in Hc as [_ ->].
  destruct (EnvelopeEntries env) as [les|e] eqn:Hles.
  2:{ cbn in Ha. injection Ha as <- <-. by left. }
  apply EnvelopeEntries_Ok in Hles as (ops & Hops & Hne & _).
  unfold mbind at 1, IO_bind at 1 in Ha. cbn [wrap lift] in Ha.
  destruct (Copy env) as [signed|e] eqn:Hcopy.
  2:{ cbn in Ha. injection Ha as <- <-. by left. }
  apply Copy_Ok in Hcopy as ->. unfold mbind at 1, IO_bind at 1 in Ha. cbn [wrap lift] in Ha.
  unfold mbind at 1, IO_bind at 1 in Ha. rewrite Hops in Ha. cbn [wrap lift] in Ha.
  unfold mbind, IO_bind in Ha.
  destruct (imapIO_from _ 0 ops (tick w)) as [[ops'|e] w2] eqn:Hrun; injection Ha as <- <-.
  - apply (imapIO_operations _ _ _ _ 0 0) in Hrun as (vs & Hvs & ->).
    assert (Hlen : Forall2 (λ old new : list SorobanAuthorizationEntry, length new = length old)
      (authVectors ops) vs)
      by (by eapply imapIO_lengths).
    pose proof (Forall2_length _ _ _ Hlen) as Hl.
    exists ops, (setVectors ops vs), vs. split_and!; try done.
    + by eapply envelopeOperations_with.
    + by apply authVectors_set.
    + rewrite setVectors_set by done. apply setVectors_get.
  - apply (imapIO_operations _ _ _ _ 0 0) in Hrun as (e' & He'). right. by exists ops, e'.
Qed.


(** [EnvelopePayloads] reports every entry of the envelope once, in order:
    the reported positions are exactly those of the entries, a source-account
    entry is marked and has no payload, and every other entry comes with its own
    preimage and the hash a signer of that entry signs. *)
Theorem EnvelopePayloads_report env v p ps :
  EnvelopePayloads env v p = Ok ps →
  ∃ ops les, envelopeOperations env = Ok ops ∧
    (∀ i j e, mkEnvelopeEntry i j e ∈ les ↔ entryAt ops i j e) ∧
    map located_Entry les = concat (authVectors ops) ∧
    Forall2 (λ le row,
      Payload_OperationIndex row = OperationIndex le ∧ Payload_EntryIndex row = EntryIndex le ∧
      Payload_SourceAccount row = is_source (located_Entry le) ∧
      (is_source (located_Entry le) = false → ∃ pre,
         Preimage (located_Entry le) v p = Ok pre ∧ Payload_Preimage row = Some pre ∧
         Payload pre = Ok (Payload_Payload row))) les ps.
Proof.
  unfold EnvelopePayloads. intros Hp.
  apply bind_Ok in Hp as (les & (ops & Hops & _ & Hm & Hat)%wrap_Ok%EnvelopeEntries_Ok & Hps).
  exists ops, les. split; [done|]. split; [done|]. split; [done|].
  apply imapM_from_Forall2 in Hps. eapply Forall2_impl; [exact Hps|]. intros le row Hrow.
  unfold envelopePayload in Hrow. unfold is_source. destruct (_ =? _)%Z.
  { injection Hrow as <-. split_and!; try done. }
  apply bind_Ok in Hrow as (pre & Hpre%wrap_Ok & (hash & Hhash%wrap_Ok & [= <-])%bind_Ok).
  split_and!; try done. eauto.
Qed.
End envelope_theorems.

(** ** A concrete envelope *)
(** A codec for envelopes in the manner of [ModelSDK]. *)
Definition wOperation (op : Operation) : wtree :=
  WNode 0 [wB (Operation_SourceAccount op);
    match Body op with
    | OperationInvokeHostFunction o =>
        WNode 0 [wO (λ o, WNode 0 [wB (HostFunction o); wL wEntry (Auth o)]) o]
    | OperationOther t rest => WNode 1 [wZ t; wB rest]
    end].
Definition rOperation (t : wtree) : Operation :=
  match t with
  | WNode _ [src; WNode 0 [o]] =>
      mkOperation (rB src) (OperationInvokeHostFunction (rO (λ t, match t with
        | WNode _ [h; a] => mkInvokeHostFunctionOp (rB h) (rL rEntry a)
        | _ => mkInvokeHostFunctionOp [] [] end) o))
  | WNode _ [src; WNode 1 [t; rest]] => mkOperation (rB src) (OperationOther (rZ t) (rB rest))
  | _ => mkOperation [] (OperationOther 0 [])
  end.

Definition wArm (a : TransactionArm) : wtree :=
  WNode 0 [wB (Tx_rest (Tx a)); wL wOperation (Operations (Tx a)); wB (Tx_Signatures a)].
Definition rArm (t : wtree) : TransactionArm :=
  match t with
  | WNode _ [r; ops; s] => mkTransactionArm (mkTransaction (rB r) (rL rOperation ops)) (rB s)
  | _ => mkTransactionArm (mkTransaction [] []) []
  end.

Definition wEnvelope (e : TransactionEnvelope) : wtree :=
  match e with
  | EnvelopeTypeTx o => WNode 0 [wO wArm o]
  | EnvelopeTypeTxV0 o => WNode 1 [wO wArm o]
  | EnvelopeTypeTxFeeBump o => WNode 2 [wO (λ f, WNode 0 [wB (FeeBump_rest f);
      match InnerTx f with
      | InnerEnvelopeTypeTx o => WNode 0 [wO wArm o]
      | InnerOther t => WNode 1 [wZ t]
      end; wB (FeeBump_Signatures f)]) o]
  | EnvelopeTypeOther t => WNode 3 [wZ t]
  end.
Definition rEnvelope (t : wtree) : TransactionEnvelope :=
  match t with
  | WNode 0 [o] => EnvelopeTypeTx (rO rArm o)
  | WNode 1 [o] => EnvelopeTypeTxV0 (rO rArm o)
  | WNode 2 [o] => EnvelopeTypeTxFeeBump (rO (λ t, match t with
      | WNode _ [r; WNode 0 [i]; s] => mkFeeBump (rB r) (InnerEnvelopeTypeTx (rO rArm i)) (rB s)
      | WNode _ [r; WNode _ [i]; s] => mkFeeBump (rB r) (InnerOther (rZ i)) (rB s)
      | _ => mkFeeBump [] (InnerOther 0) [] end) o)
  | WNode _ [z] => EnvelopeTypeOther (rZ z)
  | _ => EnvelopeTypeOther 0
  end.

#[export] Instance ModelEnvelopeSDK : EnvelopeSDK := {|
  SDK_Envelope := model_codec wEnvelope rEnvelope;
  EnvelopeType_String t := "envelope type " +:+ pretty t
|}.
#[export] Instance ModelEnvelopeLaws : XdrCodecLaws TransactionEnvelope.
Proof. exact (model_codec_laws _ _). Qed.

(** A fee bump around a payment, a call with two entries and a call without
    any. *)
Definition ex_operations : list Operation :=
  [mkOperation [] (OperationOther 1 [x2a]);
   mkOperation [] (OperationInvokeHostFunction (Some (mkInvokeHostFunctionOp [x07]
     [ex_source; ex_v2 "a" 0 ScvVoid])));
   mkOperation [x01] (OperationInvokeHostFunction (Some (mkInvokeHostFunctionOp [x08] [])))].
Definition ex_envelope : TransactionEnvelope :=
  EnvelopeTypeTxFeeBump (Some (mkFeeBump [x01]
    (InnerEnvelopeTypeTx (Some (mkTransactionArm (mkTransaction [x02] ex_operations) [x03]))) [x04])).

Definition ex_signed_operations : list Operation :=
  match AuthorizeEnvelope Background ex_envelope [Some (ex_signer "a")] 1000 ex_network initial_world with
  | (Ok env, _) => match envelopeOperations env with Ok ops => ops | Err _ => [] end
  | _ => []
  end.
Definition ex_signed_envelope : TransactionEnvelope := withOperations ex_envelope ex_signed_operations.


Definition ex_payloads : list EnvelopePayload :=
  match EnvelopePayloads ex_envelope 1000 ex_network with Ok ps => ps | Err _ => [] end.

Lemma EnvelopePayloads_report_witness :
  map Payload_EntryIndex ex_payloads = [0; 1] ∧
  ∃ ops les, envelopeOperations ex_envelope = Ok ops ∧
    (∀ i j e, mkEnvelopeEntry i j e ∈ les ↔ entryAt ops i j e) ∧
    map located_Entry les = concat (authVectors ops) ∧
    Forall2 (λ le row,
      Payload_OperationIndex row = OperationIndex le ∧ Payload_EntryIndex row = EntryIndex le ∧
      Payload_SourceAccount row = is_source (located_Entry le) ∧
      (is_source (located_Entry le) = false → ∃ pre,
         Preimage (located_Entry le) 1000 ex_network = Ok pre ∧ Payload_Preimage row = Some pre ∧
         Payload pre = Ok (Payload_Payload row))) les ex_payloads.
Proof.
  split; [vm_compute; reflexivity|].
  apply (EnvelopePayloads_report ex_envelope 1000 ex_network ex_payloads). vm_compute. reflexivity.
Defined.
