(* ===== verification/Cbor.v ===== *)
(** * Cbor: the strict CBOR reader of attestation objects (attestation_cbor.go)

    [decodeCBOR] reads one data item of a subset of RFC 8949.  [item] is that
    subset as a grammar, a relation between values and their encodings, and
    [decodeCBOR_grammar] shows the reader to accept exactly it.
    [decodeCBOR_typed] is what a caller may assume of a value it got.

    The source counts nesting up to [cborMaxDepth]; the recursion here counts
    the levels that are left down, from [cborMaxDepth + 1], so it needs no other
    fuel.  The loop over the items of an array or map runs on the number its
    header claims, which the length check before it keeps below the number of
    bytes that remain. *)
From Stdlib Require Import ZArith Lia Strings.Byte String.
From stdpp Require Import base list strings pretty.
From S2P Require Import Prelude Encoding Errors.

Open Scope string_scope. Open Scope nat_scope. Open Scope list_scope.

Definition cborMaxDepth : nat := 8.

(** Go's [any], as far as the decoder fills it. *)
Inductive cborValue :=
| CborInt (n : Z)
| CborBytes (b : bytes)
| CborText (s : bytes)
| CborArray (items : list cborValue)
| CborMap (pairs : list (cborValue * cborValue))
| CborBool (b : bool)
| CborNull.

Abbreviation cborMap := (list (cborValue * cborValue)).

(** [p.key == key], for the keys a map may have. *)
Definition keyEqual (a b : cborValue) : bool :=
  match a, b with
  | CborInt n, CborInt m => (n =? m)%Z
  | CborText s, CborText t => bytes_Equal s t
  | _, _ => false
  end.

Definition get (m : cborMap) (key : cborValue) : option cborValue :=
  match find (λ p, keyEqual p.1 key) m with Some p => Some p.2 | None => None end.

Definition cborErr {A} (text : string) : result A := Err (EMarked (sentinel_text errCBOR +:+ ": " +:+ text) errCBOR).

(** [%T] and [%v] of a value. *)
Definition typeText (v : cborValue) : string :=
  match v with
  | CborInt _ => "int64"
  | CborBytes _ => "[]uint8"
  | CborText _ => "string"
  | CborArray _ => "[]interface {}"
  | CborMap _ => "soroauth.cborMap"
  | CborBool _ => "bool"
  | CborNull => "<nil>"
  end.
Definition keyText (v : cborValue) : string :=
  match v with CborInt n => FormatInt n | CborText s => string_of_bytes s | _ => "" end.

(** ** The reader *)
(** The head of an item: major type, additional information and argument, with
    the bytes after it. *)
Definition decodeHead (data : bytes) : result (Z * Z * Z * bytes) :=
  match data with
  | [] => cborErr "unexpected end of data"
  | b :: data =>
      let major := Z.shiftr (byteZ b) 5 in
      let info := Z.land (byteZ b) 31 in
      if (info <? 24)%Z then Ok (major, info, info, data)
      else if (24 <=? info)%Z && (info <=? 27)%Z then
        let size := Z.to_nat (Z.shiftl 1 (info - 24)) in
        if Nat.ltb (length data) size then
          cborErr ("truncated " +:+ pretty size +:+ "-byte argument")
        else Ok (major, info, be_value (take size data), drop size data)
      else cborErr ("additional information " +:+ FormatInt info +:+
                    " (indefinite length or reserved) is not allowed")
  end.

Section items.
Variable decodeItem : bytes → result (cborValue * bytes).

Fixpoint decodeArray (n : nat) (data : bytes) : result (list cborValue * bytes) :=
  match n with
  | O => Ok ([], data)
  | S n =>
      '(item, data) ← decodeItem data;
      '(items, data) ← decodeArray n data;
      Ok (item :: items, data)
  end.

(** [m] holds the pairs read so far. *)
Fixpoint decodeMap (n : nat) (m : cborMap) (data : bytes) : result (cborMap * bytes) :=
  match n with
  | O => Ok (m, data)
  | S n =>
      '(k, data) ← decodeItem data;
      _ ← match k with
          | CborInt _ | CborText _ => Ok tt
          | _ => cborErr ("map key of type " +:+ typeText k +:+
                          "; only integer and text keys are allowed")
          end;
      _ ← match get m k with
          | Some _ => cborErr ("duplicate map key " +:+ keyText k)
          | None => Ok tt
          end;
      '(v, data) ← decodeItem data;
      decodeMap n (m ++ [(k, v)]) data
  end.
End items.

Fixpoint decodeCBORItem (levels : nat) (data : bytes) : result (cborValue * bytes) :=
  match levels with
  | O => cborErr ("nesting deeper than " +:+ pretty cborMaxDepth)
  | S levels =>
      '(major, info, arg, data) ← decodeHead data;
      let remaining := Z.of_nat (length data) in
      if (major =? 0)%Z then
        if (arg >? MaxInt64)%Z then
          cborErr ("unsigned integer " +:+ FormatUint arg +:+ " does not fit an int64")
        else Ok (CborInt arg, data)
      else if (major =? 1)%Z then
        if (arg >? MaxInt64)%Z then cborErr "negative integer does not fit an int64"
        else Ok (CborInt (-1 - arg), data)
      else if (major =? 2)%Z || (major =? 3)%Z then
        if (arg >? remaining)%Z then
          cborErr ("string of " +:+ FormatUint arg +:+ " bytes with " +:+ FormatInt remaining +:+
                   " remaining")
        else
          let body := take (Z.to_nat arg) data in
          Ok (if (major =? 2)%Z then CborBytes body else CborText body, drop (Z.to_nat arg) data)
      else if (major =? 4)%Z then
        if (arg >? remaining)%Z then
          cborErr ("array of " +:+ FormatUint arg +:+ " items with " +:+ FormatInt remaining +:+
                   " bytes remaining")
        else
          '(items, data) ← decodeArray (decodeCBORItem levels) (Z.to_nat arg) data;
          Ok (CborArray items, data)
      else if (major =? 5)%Z then
        if (arg >? remaining)%Z then
          cborErr ("map of " +:+ FormatUint arg +:+ " entries with " +:+ FormatInt remaining +:+
                   " bytes remaining")
        else
          '(m, data) ← decodeMap (decodeCBORItem levels) (Z.to_nat arg) [] data;
          Ok (CborMap m, data)
      else if (major =? 7)%Z then
        if (info =? 20)%Z then Ok (CborBool false, data)
        else if (info =? 21)%Z then Ok (CborBool true, data)
        else if (info =? 22)%Z then Ok (CborNull, data)
        else cborErr ("simple or float value " +:+ FormatInt info +:+ " is not allowed")
      else cborErr ("major type " +:+ FormatInt major +:+ " (tag) is not allowed")
  end.

Definition decodeCBOR (data : bytes) : result (cborValue * bytes) :=
  decodeCBORItem (S cborMaxDepth) data.

(** ** The grammar *)
(** The head of an item: argument in the head byte, or in the 1, 2, 4 or 8 bytes
    after it; RFC 8949 leaves the choice open and so does the reader. *)
Inductive head : Z → Z → Z → bytes → Prop :=
| head_short major arg :
    (0 <= major < 8)%Z → (0 <= arg < 24)%Z → head major arg arg [Zbyte (major * 32 + arg)]
| head_wide major k arg :
    (0 <= major < 8)%Z → k ≤ 3 → (0 <= arg < 256 ^ Z.of_nat (2 ^ k))%Z →
    head major (24 + Z.of_nat k) arg
      (Zbyte (major * 32 + (24 + Z.of_nat k)) :: be_bytes (2 ^ k) arg).

Definition is_key (v : cborValue) : Prop :=
  match v with CborInt _ | CborText _ => True | _ => False end.

(** Encodings of a value within a number of levels. *)
Inductive item : nat → cborValue → bytes → Prop :=
| item_uint k i n b : head 0 i n b → (n <= MaxInt64)%Z → item (S k) (CborInt n) b
| item_nint k i n b : head 1 i n b → (n <= MaxInt64)%Z → item (S k) (CborInt (-1 - n)) b
| item_bytes k i s b : head 2 i (Z.of_nat (length s)) b → item (S k) (CborBytes s) (b ++ s)
| item_text k i s b : head 3 i (Z.of_nat (length s)) b → item (S k) (CborText s) (b ++ s)
| item_array k i l b bs :
    head 4 i (Z.of_nat (length l)) b → Forall2 (item k) l bs →
    item (S k) (CborArray l) (b ++ concat bs)
| item_map k i m b bs :
    head 5 i (Z.of_nat (length m)) b →
    Forall2 (λ kv e, ∃ e1 e2, item k kv.1 e1 ∧ item k kv.2 e2 ∧ e = e1 ++ e2) m bs →
    Forall is_key (map fst m) → NoDup (map fst m) →
    item (S k) (CborMap m) (b ++ concat bs)
| item_false k : item (S k) (CborBool false) [xf4]
| item_true k : item (S k) (CborBool true) [xf5]
| item_null k : item (S k) CborNull [xf6].

(** ** Heads *)
Lemma byte_split b : byteZ b = (Z.shiftr (byteZ b) 5 * 32 + Z.land (byteZ b) 31)%Z.
Proof.
  rewrite Z.shiftr_div_pow2, (Z.land_ones _ 5) by lia. change (2 ^ 5)%Z with 32%Z.
  pose proof (Z.div_mod (byteZ b) 32). lia.
Qed.

Lemma byte_parts b : (0 <= Z.shiftr (byteZ b) 5 < 8)%Z ∧ (0 <= Z.land (byteZ b) 31 < 32)%Z.
Proof.
  pose proof (byteZ_range b). rewrite Z.shiftr_div_pow2, (Z.land_ones _ 5) by lia.
  change (2 ^ 5)%Z with 32%Z. split.
  - split; [apply Z.div_pos; lia|apply Z.div_lt_upper_bound; lia].
  - apply Z.mod_pos_bound. lia.
Qed.

Lemma byte_join major info : (0 <= major < 8)%Z → (0 <= info < 32)%Z →
  Z.shiftr (byteZ (Zbyte (major * 32 + info))) 5 = major ∧
  Z.land (byteZ (Zbyte (major * 32 + info))) 31 = info.
Proof.
  intros Hm Hi. rewrite byteZ_Zbyte, Z.mod_small by lia.
  rewrite Z.shiftr_div_pow2, (Z.land_ones _ 5) by lia. split.
  - change (2 ^ 5)%Z with 32%Z. rewrite Z.div_add_l, Z.div_small by lia. lia.
  - change (2 ^ 5)%Z with 32%Z. rewrite Z.add_comm, Z.mod_add, Z.mod_small by lia. done.
Qed.

Lemma head_size k : k ≤ 3 → Z.to_nat (Z.shiftl 1 (24 + Z.of_nat k - 24)) = 2 ^ k.
Proof. intros Hk. destruct k as [|[|[|[|k]]]]; [reflexivity..|lia]. Qed.

Lemma decodeHead_spec data major info arg rest :
  decodeHead data = Ok (major, info, arg, rest) ↔ ∃ hb, head major info arg hb ∧ data = hb ++ rest.
Proof.
  split.
  - destruct data as [|b data]; cbn [decodeHead]; [discriminate|].
    pose proof (byte_parts b) as [Hm Hi]. pose proof (byte_split b) as Hb.
    revert Hm Hi Hb. generalize (Z.shiftr (byteZ b) 5), (Z.land (byteZ b) 31). intros m i Hm Hi Hb.
    assert (b = Zbyte (m * 32 + i)) as -> by (rewrite <-Hb; symmetry; apply Zbyte_byteZ). clear Hb.
    destruct (Z.ltb_spec i 24).
    { intros [= -> -> <- ->]. eexists. split; [apply head_short; lia|done]. }
    destruct ((24 <=? i)%Z && (i <=? 27)%Z) eqn:Hr; [|discriminate].
    apply andb_true_iff in Hr as [_ Hr%Z.leb_le].
    assert (Hk : ∃ k, k ≤ 3 ∧ i = (24 + Z.of_nat k)%Z) by (exists (Z.to_nat (i - 24)); lia).
    destruct Hk as (k & Hk & ->). rewrite head_size by done.
    destruct (Nat.ltb_spec (length data) (2 ^ k)); [discriminate|]. intros [= -> <- <- <-].
    assert (Hl : length (take (2 ^ k) data) = 2 ^ k) by (rewrite length_take; lia).
    eexists. split.
    + apply (head_wide _ k); [lia|lia|].
      pose proof (be_value_bound (take (2 ^ k) data)) as Hv. by rewrite Hl in Hv.
    + cbn [app]. f_equal. pose proof (be_value_bytes (take (2 ^ k) data)) as Hv.
      rewrite Hl in Hv. by rewrite Hv, take_drop.
  - intros (hb & Hh & ->). destruct Hh as [m arg Hm Ha|m k arg Hm Hk Ha]; cbn [app decodeHead].
    + destruct (byte_join m arg) as [-> ->]; [lia..|].
      destruct (Z.ltb_spec arg 24); [done|lia].
    + destruct (byte_join m (24 + Z.of_nat k)) as [-> ->]; [lia..|].
      destruct (Z.ltb_spec (24 + Z.of_nat k) 24); [lia|].
      rewrite head_size by done.
      destruct (_ && _) eqn:Hr; [|apply andb_false_iff in Hr as [?%Z.leb_gt|?%Z.leb_gt]; lia].
      destruct (Nat.ltb_spec (length (be_bytes (2 ^ k) arg ++ rest)) (2 ^ k)) as [Hl|Hl].
      { rewrite length_app, length_be_bytes in Hl. lia. }
      rewrite take_app_length', drop_app_length' by (symmetry; apply length_be_bytes).
      by rewrite be_bytes_value.
Qed.

Lemma head_range major info arg b : head major info arg b → (0 <= arg < 2 ^ 64)%Z ∧ 1 ≤ length b.
Proof.
  destruct 1 as [m arg _ Ha|m k arg _ Hk Ha]; split; cbn; try lia.
  assert (256 ^ Z.of_nat (2 ^ k) <= 2 ^ 64)%Z; [|lia].
  destruct k as [|[|[|[|k]]]]; [cbn; lia..|lia].
Qed.

Lemma head_major7 info arg b : head 7 info arg b → (info < 24)%Z → b = [Zbyte (7 * 32 + info)].
Proof. inversion 1; subst; [done|lia]. Qed.

(** ** Keys *)
Lemma keyEqual_spec a b : is_key b → keyEqual a b = true ↔ a = b.
Proof.
  destruct a, b; cbn; intros Hk; try done;
    rewrite ?Z.eqb_eq, ?bytes_Equal_spec; naive_solver.
Qed.

Lemma get_None m k : is_key k → get m k = None ↔ k ∉ map fst m.
Proof.
  intros Hk. unfold get. induction m as [|[a v] m IH]; cbn; [split; [by intros _ ?%not_elem_of_nil|done]|].
  rewrite not_elem_of_cons. destruct (keyEqual a k) eqn:E.
  - apply keyEqual_spec in E; [|done]. naive_solver.
  - rewrite IH. assert (k ≠ a) by (intros <-; rewrite (proj2 (keyEqual_spec k k Hk)) in E; done).
    naive_solver.
Qed.

(** ** Loops over items *)
Section loops.
Variable decodeItem : bytes → result (cborValue * bytes).
Variable R : cborValue → bytes → Prop.
Hypothesis Hdec : ∀ d v r, decodeItem d = Ok (v, r) ↔ ∃ b, R v b ∧ d = b ++ r.

Definition pairR (kv : cborValue * cborValue) (e : bytes) : Prop :=
  ∃ e1 e2, R kv.1 e1 ∧ R kv.2 e2 ∧ e = e1 ++ e2.

Lemma decodeArray_spec n d l r :
  decodeArray decodeItem n d = Ok (l, r) ↔
  ∃ bs, length l = n ∧ Forall2 R l bs ∧ d = concat bs ++ r.
Proof.
  revert d l r. induction n as [|n IH]; intros d l r; cbn [decodeArray].
  - split.
    + intros [= <- <-]. exists []. by split_and!.
    + intros (bs & Hl & Hf & ->). destruct l; [|done]. by inversion Hf; subst.
  - rewrite bind_Ok. split.
    + intros ([v d'] & (b & Hb & ->)%Hdec & ([l' d''] & (bs & Hl & Hf & ->)%IH & [= <- <-])%bind_Ok).
      exists (b :: bs). cbn. split_and!; [by f_equal|by constructor|by rewrite app_assoc].
    + intros (bs & Hl & Hf & ->). destruct Hf as [|v b l bs Hb Hf]; [done|]. cbn.
      exists (v, concat bs ++ r). split; [apply Hdec; exists b; by rewrite app_assoc|].
      apply bind_Ok. exists (l, r). split; [|done]. apply IH. exists bs. by injection Hl.
Qed.

Lemma decodeMap_key k : (match k with
    | CborInt _ | CborText _ => Ok tt
    | _ => cborErr ("map key of type " +:+ typeText k +:+ "; only integer and text keys are allowed")
    end) = Ok tt ↔ is_key k.
Proof. destruct k; cbn; unfold cborErr; naive_solver. Qed.

Lemma decodeMap_spec n m d m' r :
  decodeMap decodeItem n m d = Ok (m', r) ↔
  ∃ new bs, m' = m ++ new ∧ length new = n ∧ Forall2 pairR new bs ∧ d = concat bs ++ r ∧
    Forall is_key (map fst new) ∧ NoDup (map fst new) ∧
    Forall (λ k, k ∉ map fst m) (map fst new).
Proof.
  revert m d. induction n as [|n IH]; intros m d; cbn [decodeMap].
  - split.
    + intros [= <- <-]. exists [], []. rewrite app_nil_r. split_and!; try done; constructor.
    + intros (new & bs & -> & Hl & Hf & -> & _). destruct new; [|done]. inversion Hf; subst.
      by rewrite app_nil_r.
  - rewrite bind_Ok. split.
    + intros ([k d1] & (e1 & He1 & ->)%Hdec & ([] & Hk & Hd)%bind_Ok).
      apply decodeMap_key in Hk. apply bind_Ok in Hd as ([] & Hnew & Hd).
      destruct (get m k) eqn:Hg; [discriminate|]. apply get_None in Hg; [|done].
      apply bind_Ok in Hd as ([v d2] & (e2 & He2 & ->)%Hdec & Hd).
      apply IH in Hd as (new & bs & -> & Hl & Hf & -> & Hks & Hnd & Hfresh).
      exists ((k, v) :: new), ((e1 ++ e2) :: bs). cbn. rewrite <-app_assoc. cbn.
      split_and!; try done.
      * by f_equal.
      * constructor; [|done]. by exists e1, e2.
      * by rewrite <-!app_assoc.
      * by constructor.
      * constructor; [|done]. rewrite Forall_forall in Hfresh. intros Hin.
        apply (Hfresh k Hin). rewrite map_app. cbn. apply elem_of_app. right. constructor.
      * constructor; [done|]. eapply Forall_impl; [exact Hfresh|]. intros q. cbn.
        rewrite map_app, elem_of_app. tauto.
    + intros (new & bs & -> & Hl & Hf & -> & Hks & Hnd & Hfresh).
      destruct Hf as [|[k v] e new bs (e1 & e2 & He1 & He2 & ->) Hf]; [done|]. cbn in *.
      inversion Hks as [|? ? Hk Hks']; subst. inversion Hnd as [|? ? Hnin Hnd']; subst.
      inversion Hfresh as [|? ? Hkm Hfresh']; subst.
      exists (k, e2 ++ concat bs ++ r). split; [apply Hdec; exists e1; by rewrite <-!app_assoc|].
      apply bind_Ok. exists tt. split; [by apply decodeMap_key|].
      rewrite (proj2 (get_None m k Hk)) by done. cbn.
      apply bind_Ok. exists (v, concat bs ++ r). split; [apply Hdec; by exists e2|].
      apply IH. exists new, bs. rewrite <-app_assoc. cbn. split_and!; try done; [lia|].
      rewrite Forall_forall in Hfresh' |- *. intros q Hq. rewrite map_app, elem_of_app. cbn.
      intros [?|?%list_elem_of_singleton]; [by eapply Hfresh'|]. by subst.
Qed.
End loops.

Lemma item_nonempty k v b : item k v b → 1 ≤ length b.
Proof.
  destruct 1 as [? ? ? ? Hh|? ? ? ? Hh|? ? ? ? Hh|? ? ? ? Hh|? ? ? ? ? Hh|? ? ? ? ? Hh| | |];
    try (apply head_range in Hh as [_ Hh]; rewrite ?length_app; lia); cbn; lia.
Qed.

Lemma concat_length_le {A} (R : A → bytes → Prop) l bs :
  (∀ x b, R x b → 1 ≤ length b) → Forall2 R l bs → length l ≤ length (concat bs).
Proof.
  intros HR. induction 1 as [|x b l bs Hx _ IH]; cbn; [lia|].
  rewrite length_app. apply HR in Hx. lia.
Qed.

(** ** The reader and the grammar *)
Lemma decodeCBORItem_sound k :
  (∀ d v r, decodeCBORItem k d = Ok (v, r) ↔ ∃ b, item k v b ∧ d = b ++ r) →
  ∀ d v r, decodeCBORItem (S k) d = Ok (v, r) → ∃ b, item (S k) v b ∧ d = b ++ r.
Proof.
  intros IH d v r Hd. cbn [decodeCBORItem] in Hd.
  apply bind_Ok in Hd as ([[[major info] arg] data] & (hb & Hh & ->)%decodeHead_spec & Hd).
  pose proof (head_range _ _ _ _ Hh) as [Harg _].
  destruct (Z.eqb_spec major 0) as [->|_].
  { destruct (arg >? MaxInt64)%Z eqn:Hmax; [discriminate|]. injection Hd as <- <-.
    exists hb. split; [eapply item_uint; [done|lia]|done]. }
  destruct (Z.eqb_spec major 1) as [->|_].
  { destruct (arg >? MaxInt64)%Z eqn:Hmax; [discriminate|]. injection Hd as <- <-.
    exists hb. split; [eapply item_nint; [done|lia]|done]. }
  destruct ((major =? 2)%Z || (major =? 3)%Z) eqn:Hstr.
  { destruct (arg >? Z.of_nat (length data))%Z eqn:Hmax; [discriminate|].
    assert (Hl : arg = Z.of_nat (length (take (Z.to_nat arg) data))) by (rewrite length_take; lia).
    injection Hd as <- <-. exists (hb ++ take (Z.to_nat arg) data).
    rewrite <-app_assoc, take_drop. split; [|done]. rewrite Hl in Hh.
    apply orb_true_iff in Hstr as [->%Z.eqb_eq| ->%Z.eqb_eq]; cbn;
      [eapply item_bytes|eapply item_text]; exact Hh. }
  destruct (Z.eqb_spec major 4) as [->|_].
  { destruct (arg >? Z.of_nat (length data))%Z; [discriminate|].
    apply bind_Ok in Hd as ([l d'] & Hl & [= <- <-]).
    apply (decodeArray_spec _ _ IH) in Hl as (bs & Hn & Hf & ->).
    exists (hb ++ concat bs). rewrite <-app_assoc. split; [|done].
    eapply item_array; [|exact Hf]. replace (Z.of_nat (length l)) with arg by lia. exact Hh. }
  destruct (Z.eqb_spec major 5) as [->|_].
  { destruct (arg >? Z.of_nat (length data))%Z; [discriminate|].
    apply bind_Ok in Hd as ([m d'] & Hm & [= <- <-]).
    apply (decodeMap_spec _ _ IH) in Hm as (new & bs & -> & Hn & Hf & -> & Hk & Hnd & _).
    exists (hb ++ concat bs). rewrite <-app_assoc. split; [|done].
    eapply item_map; [|exact Hf|exact Hk|exact Hnd]. cbn [app].
    replace (Z.of_nat (length new)) with arg by lia. exact Hh. }
  destruct (Z.eqb_spec major 7) as [->|_]; [|discriminate].
  destruct (Z.eqb_spec info 20) as [->|_].
  { injection Hd as <- <-. apply head_major7 in Hh as ->; [|lia]. eexists. split; [apply item_false|done]. }
  destruct (Z.eqb_spec info 21) as [->|_].
  { injection Hd as <- <-. apply head_major7 in Hh as ->; [|lia]. eexists. split; [apply item_true|done]. }
  destruct (Z.eqb_spec info 22) as [->|_]; [|discriminate].
  injection Hd as <- <-. apply head_major7 in Hh as ->; [|lia]. eexists. split; [apply item_null|done].
Qed.

Lemma gtb_false a b : (a <= b)%Z → (a >? b)%Z = false.
Proof. rewrite Z.gtb_ltb. intros ?. by apply Z.ltb_ge. Qed.

Lemma decodeCBORItem_complete k :
  (∀ d v r, decodeCBORItem k d = Ok (v, r) ↔ ∃ b, item k v b ∧ d = b ++ r) →
  ∀ v b r, item (S k) v b → decodeCBORItem (S k) (b ++ r) = Ok (v, r).
Proof.
  intros IH v b r Hi. cbn [decodeCBORItem].
  assert (Hhead : ∀ major info arg hb d, head major info arg hb →
    decodeHead (hb ++ d) = Ok (major, info, arg, d)) by (intros; apply decodeHead_spec; eauto).
  inversion Hi as [? i n ? Hh Hn|? i n ? Hh Hn|? i s hb Hh|? i s hb Hh|? i l hb bs Hh Hf
    |? i m hb bs Hh Hf Hk Hnd| | |]; subst; rewrite <-?app_assoc;
    try (rewrite (Hhead _ _ _ _ _ Hh); cbn [mbind result_bind Z.eqb Pos.eqb orb]); try reflexivity.
  - by rewrite gtb_false by lia.
  - by rewrite gtb_false by lia.
  - rewrite length_app, gtb_false by lia.
    by rewrite Nat2Z.id, take_app_length, drop_app_length.
  - rewrite length_app, gtb_false by lia.
    by rewrite Nat2Z.id, take_app_length, drop_app_length.
  - pose proof (concat_length_le _ _ _ (item_nonempty k) Hf).
    rewrite length_app, gtb_false by lia. rewrite Nat2Z.id.
    rewrite (proj2 (decodeArray_spec _ _ IH _ _ l r)); [done|]. by exists bs.
  - assert (Hpair : ∀ kv e, pairR (item k) kv e → 1 ≤ length e).
    { intros kv e (e1 & e2 & He1%item_nonempty & _ & ->). rewrite length_app. lia. }
    pose proof (concat_length_le _ _ _ Hpair Hf).
    rewrite length_app, gtb_false by lia. rewrite Nat2Z.id.
    rewrite (proj2 (decodeMap_spec _ _ IH _ [] _ m r)); [done|].
    exists m, bs. split_and!; try done. apply Forall_true. intros q ?%not_elem_of_nil. done.
Qed.

Lemma decodeCBORItem_spec k d v r :
  decodeCBORItem k d = Ok (v, r) ↔ ∃ b, item k v b ∧ d = b ++ r.
Proof.
  revert d v r. induction k as [|k IH]; intros d v r.
  - split; [discriminate|]. intros (b & Hi & _). inversion Hi.
  - split; [by apply decodeCBORItem_sound|]. intros (b & Hi & ->). by apply decodeCBORItem_complete.
Qed.

(** C21. The reader accepts exactly the grammar: a successful read consumed an
    encoding of the value it returned and nothing more, and every encoding of a
    value, followed by anything, reads as that value.  So no object reads as two
    values, and two encodings that are prefixes of one input are one. *)
Theorem decodeCBOR_grammar data v rest :
  (decodeCBOR data = Ok (v, rest) ↔ ∃ b, item (S cborMaxDepth) v b ∧ data = b ++ rest) ∧
  ∀ w b1 b2 rest2, data = b1 ++ rest → data = b2 ++ rest2 →
    item (S cborMaxDepth) v b1 → item (S cborMaxDepth) w b2 → v = w ∧ b1 = b2.
Proof.
  split; [apply decodeCBORItem_spec|]. intros w b1 b2 rest2 -> He H1 H2.
  assert (E1 : decodeCBORItem (S cborMaxDepth) (b1 ++ rest) = Ok (v, rest))
    by (apply decodeCBORItem_spec; eauto).
  assert (E2 : decodeCBORItem (S cborMaxDepth) (b1 ++ rest) = Ok (w, rest2))
    by (apply decodeCBORItem_spec; eauto).
  rewrite E1 in E2. injection E2 as <- <-. split; [done|]. by apply app_inv_tail in He.
Qed.

(** ** What a read value is *)
(** Go's types, at every depth: integers fit an int64, map keys are integers or
    text and pairwise different. *)
Inductive typed : cborValue → Prop :=
| typed_int n : is_i64 n → typed (CborInt n)
| typed_bytes b : typed (CborBytes b)
| typed_text s : typed (CborText s)
| typed_array l : Forall typed l → typed (CborArray l)
| typed_map m :
    Forall is_key (map fst m) → NoDup (map fst m) →
    Forall (λ kv, typed kv.1 ∧ typed kv.2) m → typed (CborMap m)
| typed_bool b : typed (CborBool b)
| typed_null : typed CborNull.

Fixpoint cbor_depth (v : cborValue) : nat :=
  match v with
  | CborArray l => S (max_list (map cbor_depth l))
  | CborMap m => S (max_list (map (λ '(k, v), Nat.max (cbor_depth k) (cbor_depth v)) m))
  | _ => 1
  end.

(** The memory a value takes: a cell per node and a cell per byte. *)
Fixpoint cbor_size (v : cborValue) : nat :=
  match v with
  | CborBytes s | CborText s => S (length s)
  | CborArray l => S (sum_list (map cbor_size l))
  | CborMap m => S (sum_list (map (λ '(k, v), cbor_size k + cbor_size v) m))
  | _ => 1
  end.

Lemma max_list_le l n : Forall (λ x, x ≤ n) l → max_list l ≤ n.
Proof. induction 1; cbn; lia. Qed.

Lemma item_typed k v b :
  item k v b → typed v ∧ cbor_depth v ≤ k ∧ cbor_size v ≤ length b.
Proof.
  revert v b. induction k as [|k IH]; intros v b Hi; [inversion Hi|].
  inversion Hi as [? i n ? Hh Hn|? i n ? Hh Hn|? i s hb Hh|? i s hb Hh|? i l hb bs Hh Hf
    |? i m hb bs Hh Hf Hk Hnd| | |]; subst;
    try (apply head_range in Hh as [Hr Hl]); cbn [cbor_depth cbor_size];
    rewrite ?length_app; try (split_and!; [by constructor|lia|cbn; lia]).
  - split_and!; [constructor; unfold is_i64, MaxInt64 in *; lia|lia|done].
  - split_and!; [constructor; unfold is_i64, MaxInt64 in *; lia|lia|done].
  - assert (Hall : Forall typed l ∧ Forall (λ n, n ≤ k) (map cbor_depth l) ∧
      sum_list (map cbor_size l) ≤ length (concat bs)).
    { clear Hi Hr. induction Hf as [|x e l bs Hx _ IHf]; [split_and!; [constructor..|done]|].
      apply IH in Hx as (? & ? & ?). destruct IHf as (? & ? & ?). cbn. rewrite length_app.
      split_and!; [by constructor..|lia]. }
    destruct Hall as (? & ?%max_list_le & ?). split_and!; [by constructor|lia|lia].
  - assert (Hall : Forall (λ kv, typed kv.1 ∧ typed kv.2) m ∧
      Forall (λ n, n ≤ k) (map (λ '(k, v), Nat.max (cbor_depth k) (cbor_depth v)) m) ∧
      sum_list (map (λ '(k, v), cbor_size k + cbor_size v) m) ≤ length (concat bs)).
    { clear Hi Hr Hk Hnd. induction Hf as [|[x y] e m bs (e1 & e2 & Hx & Hy & ->) _ IHf];
        [split_and!; [constructor..|done]|].
      apply IH in Hx as (? & ? & ?). apply IH in Hy as (? & ? & ?). destruct IHf as (? & ? & ?).
      cbn in *. rewrite !length_app. split_and!; [by constructor|constructor; [lia|done]|lia]. }
    destruct Hall as (? & ?%max_list_le & ?). split_and!; [by constructor|lia|lia].
Qed.

(** C22. Whatever bytes a client sends, a value read has the types the callers
    switch on at every depth (integers in the range of int64, map keys integers
    or text without repeats), is nested at most [cborMaxDepth + 1] deep, and
    takes no more memory than the bytes consumed; and each read consumes at
    least one byte. *)
Theorem decodeCBOR_typed data v rest :
  decodeCBOR data = Ok (v, rest) →
  typed v ∧ cbor_depth v ≤ S cborMaxDepth ∧ cbor_size v + length rest ≤ length data ∧
  length rest < length data.
Proof.
  intros (b & Hi & ->)%decodeCBORItem_spec. pose proof (item_nonempty _ _ _ Hi).
  apply item_typed in Hi as (? & ? & ?). rewrite length_app. split_and!; [done..|lia|lia].
Qed.

(** ** A concrete object *)
(** {"fmt": "none", "attStmt": {}, -1: [h'04', true]} followed by a byte. *)
Definition ex_cbor : bytes :=
  [xa3; x63; x66; x6d; x74; x64; x6e; x6f; x6e; x65;
   x67; x61; x74; x74; x53; x74; x6d; x74; xa0;
   x20; x82; x41; x04; xf5; x2a].
Definition ex_cbor_value : cborValue :=
  CborMap [(CborText (bytes_of_string "fmt"), CborText (bytes_of_string "none"));
           (CborText (bytes_of_string "attStmt"), CborMap []);
           (CborInt (-1), CborArray [CborBytes [x04]; CborBool true])].

Example ex_cbor_read : decodeCBOR ex_cbor = Ok (ex_cbor_value, [x2a]).
Proof. vm_compute. reflexivity. Qed.

(** The head 0x19 0x00 0x05 is the number 5 too: the reader does not ask for the
    shortest form. *)
Example ex_cbor_long : decodeCBOR [x19; x00; x05] = decodeCBOR [x05].
Proof. vm_compute. reflexivity. Qed.

Example ex_cbor_duplicate : decodeCBOR [xa2; x01; x01; x18; x01; x02] =
  Err (EMarked "malformed CBOR: duplicate map key 1" errCBOR).
Proof. vm_compute. reflexivity. Qed.

Example ex_cbor_huge : decodeCBOR [x9b; xff; xff; xff; xff; xff; xff; xff; xff; x00] =
  Err (EMarked "malformed CBOR: array of 18446744073709551615 items with 1 bytes remaining" errCBOR).
Proof. vm_compute. reflexivity. Qed.

Lemma decodeCBOR_grammar_witness :
  ∃ b, item (S cborMaxDepth) ex_cbor_value b ∧ ex_cbor = b ++ [x2a].
Proof. apply (decodeCBOR_grammar ex_cbor ex_cbor_value [x2a]). vm_compute. reflexivity. Defined.

Lemma decodeCBOR_typed_witness :
  typed ex_cbor_value ∧ cbor_depth ex_cbor_value ≤ S cborMaxDepth ∧
  cbor_size ex_cbor_value + length [x2a] ≤ length ex_cbor ∧ length [x2a] < length ex_cbor.
Proof. apply (decodeCBOR_typed ex_cbor). vm_compute. reflexivity. Defined.
