(* ===== verification/Secp256r1.v ===== *)
(** * Secp256r1: P-256 signatures in their two encodings (secp256r1.go)

    A passkey signs with ECDSA over P-256.  WebAuthn delivers the signature in
    DER, a wallet contract takes 64 fixed-width bytes with a low S.  The curve
    arithmetic of crypto/ecdsa is the class [ECDSA]; the encodings, the range
    checks and the part of encoding/asn1 the DER parser drives are modelled.

    [ParseSecp256r1Signature_roundtrip] is the fixed-width form,
    [ParseDERECDSASignature_accepts] says exactly which bytes the DER parser
    takes: the minimal encoding, followed inside the SEQUENCE by anything. *)
From Stdlib Require Import ZArith Lia Strings.Byte String.
From stdpp Require Import base list strings pretty.
From S2P Require Import Prelude Errors Xdr ModelSDK Runtime Signers.

Open Scope string_scope. Open Scope nat_scope. Open Scope list_scope.

Definition Secp256r1PublicKeySize : nat := 65.
Definition Secp256r1SignatureSize : nat := 64.

(** ** elliptic.P256() *)
Definition P256_P : Z := 2 ^ 256 - 2 ^ 224 + 2 ^ 192 + 2 ^ 96 - 1.
Definition P256_N : Z := 0xffffffff00000000ffffffffffffffffbce6faada7179e84f3b9cac2fc632551.
Definition P256_B : Z := 0x5ac635d8aa3a93e7b3ebbd55769886bc651d06b0cc53b0f63bce3c3e27d2604b.

Definition IsOnCurve (x y : Z) : bool :=
  (0 <=? x)%Z && (x <? P256_P)%Z && (0 <=? y)%Z && (y <? P256_P)%Z &&
  ((y * y) mod P256_P =? (x * x * x - 3 * x + P256_B) mod P256_P)%Z.

(** [*ecdsa.PublicKey] and [*ecdsa.PrivateKey]: whether the curve is P-256, and
    coordinates that may be nil. *)
Record PublicKey := mkPublicKey { Curve_P256 : bool; X : option Z; Y : option Z }.
Record PrivateKey := mkPrivateKey { Private_PublicKey : PublicKey; D : option Z }.

(** crypto/ecdsa on valid keys: coordinates or scalar, digest, r and s. *)
Class ECDSA := {
  ecdsa_Verify : Z → Z → bytes → Z → Z → bool;
  ecdsa_Sign : Z → bytes → IO (Z * Z)
}.

(** What is used of it: a signature made has scalars in range, and (r, s) and
    (r, n - s) verify alike, because they name points with one x coordinate. *)
Class ECDSALaws `{ECDSA} : Prop := {
  ecdsa_Sign_range d digest w r s w' :
    ecdsa_Sign d digest w = (Ok (r, s), w') → (0 < r < P256_N)%Z ∧ (0 < s < P256_N)%Z;
  ecdsa_Verify_symmetric x y digest r s :
    (0 < s < P256_N)%Z → ecdsa_Verify x y digest r (P256_N - s) = ecdsa_Verify x y digest r s
}.

Definition validP256PublicKey (key : option PublicKey) : bool :=
  match key with
  | Some (mkPublicKey true (Some x) (Some y)) => IsOnCurve x y
  | _ => false
  end.

Definition validP256PrivateKey (key : option PrivateKey) : bool :=
  match key with
  | Some k =>
      Curve_P256 (Private_PublicKey k) &&
      match D k with
      | Some d => (0 <? d)%Z && (d <? P256_N)%Z && validP256PublicKey (Some (Private_PublicKey k))
      | None => false
      end
  | None => false
  end.

(** ** Scalars *)
Definition checkP256Scalars (r s : Z) : result unit :=
  refuse ((r <=? 0)%Z || (r >=? P256_N)%Z || (s <=? 0)%Z || (s >=? P256_N)%Z)
    (EText "signature scalars are outside the P-256 range").

Definition normalizeP256LowS (s order : Z) : Z :=
  let half := Z.shiftr order 1 in if (s >? half)%Z then (order - s)%Z else s.

(** ** The fixed-width form *)
Definition ParseSecp256r1Signature (signature : bytes) : result (Z * Z) :=
  _ ← refuse (negb (Nat.eqb (length signature) Secp256r1SignatureSize))
        (EText ("signature is " +:+ pretty (length signature) +:+ " bytes, want " +:+
                pretty Secp256r1SignatureSize));
  let r := be_value (take 32 signature) in
  let s := be_value (drop 32 signature) in
  _ ← checkP256Scalars r s;
  Ok (r, s).

Definition marshalSecp256r1Signature (r s : Z) : bytes := be_bytes 32 r ++ be_bytes 32 s.

(** [elliptic.Marshal] *)
Definition elliptic_Marshal (x y : Z) : bytes := x04 :: be_bytes 32 x ++ be_bytes 32 y.

Definition Secp256r1SignatureScVal (publicKey : option PublicKey) (signature : bytes)
    : result ScVal :=
  _ ← refuse (negb (validP256PublicKey publicKey))
        (EText "soroauth: secp256r1 signature scval: invalid P-256 public key");
  _ ← wrap "soroauth: secp256r1 signature scval" (ParseSecp256r1Signature signature);
  let coordinate f := default 0%Z (k ← publicKey; f k) in
  Ok (ScvMap (Some (Some
    [(scSymbol "public_key", scBytes (elliptic_Marshal (coordinate X) (coordinate Y)));
     (scSymbol "signature", scBytes signature)]))).

(** ** encoding/asn1, as far as [Unmarshal] into a struct of two [*big.Int]
    drives it *)
Definition asn1_syntax {A} (msg : string) : result A := Err (EText ("asn1: syntax error: " +:+ msg)).
Definition asn1_structure {A} (msg : string) : result A :=
  Err (EText ("asn1: structure error: " +:+ msg)).

(** The long form of a length, [n] bytes to go. *)
Fixpoint lengthLoop (n : nat) (acc : Z) (data : bytes) : result (Z * bytes) :=
  match n with
  | O => Ok (acc, data)
  | S n =>
      match data with
      | [] => asn1_syntax "truncated tag or length"
      | b :: data =>
          if (2 ^ 23 <=? acc)%Z then asn1_structure "length too large"
          else
            let acc := (acc * 256 + byteZ b)%Z in
            if (acc =? 0)%Z then asn1_structure "superfluous leading zeros in length"
            else lengthLoop n acc data
      end
  end.

Definition parseLength (data : bytes) : result (Z * bytes) :=
  match data with
  | [] => asn1_syntax "truncated tag or length"
  | b :: data =>
      if (byteZ b <? 128)%Z then Ok (byteZ b, data)
      else
        let numBytes := Z.to_nat (byteZ b - 128) in
        if Nat.eqb numBytes 0 then asn1_syntax "indefinite length found (not DER)"
        else
          '(l, data) ← lengthLoop numBytes 0 data;
          if (l <? 128)%Z then asn1_structure "non-minimal length" else Ok (l, data)
  end.

(** One field: its identifier must be the given byte (class, form and tag
    number in one), and its contents are there.  A tag number past 30 takes more
    identifier bytes and never matches. *)
Definition parseField (tag : Byte.byte) (data : bytes) : result (bytes * bytes) :=
  match data with
  | [] => asn1_syntax "sequence truncated"
  | t :: data =>
      if negb (bool_decide (t = tag)) then asn1_structure "tags don't match"
      else
        '(l, data) ← parseLength data;
        if (l >? Z.of_nat (length data))%Z then asn1_syntax "data truncated"
        else Ok (take (Z.to_nat l) data, drop (Z.to_nat l) data)
  end.

Definition highBit (b : Byte.byte) : bool := (128 <=? byteZ b)%Z.

(** [parseBigInt]: two's complement, minimal. *)
Definition parseBigInt (b : bytes) : result Z :=
  match b with
  | [] => asn1_structure "empty integer"
  | x :: rest =>
      let redundant :=
        match rest with
        | [] => false
        | y :: _ => (bool_decide (x = x00) && negb (highBit y)) || (bool_decide (x = xff) && highBit y)
        end in
      if redundant then asn1_structure "integer not minimally-encoded"
      else Ok (if highBit x then be_value b - 256 ^ Z.of_nat (length b) else be_value b)%Z
  end.

(** The two fields of the struct; bytes after them inside the SEQUENCE are
    allowed, as encoding/asn1 does for every struct. *)
Definition asn1_UnmarshalSignature (data : bytes) : result (Z * Z * bytes) :=
  '(inner, rest) ← parseField x30 data;
  '(rb, inner) ← parseField x02 inner;
  r ← parseBigInt rb;
  '(sb, _) ← parseField x02 inner;
  s ← parseBigInt sb;
  Ok (r, s, rest).

(** The nil check of the source has nothing to refuse: a parsed struct has both
    integers. *)
Definition ParseDERECDSASignature (signature : bytes) : result (Z * Z) :=
  '(r, s, rest) ← wrap "DER signature" (asn1_UnmarshalSignature signature);
  _ ← refuse (negb (Nat.eqb (length rest) 0))
        (EText ("DER signature carries " +:+ pretty (length rest) +:+ " trailing bytes"));
  _ ← checkP256Scalars r s;
  Ok (r, s).

(** ** Signing and verifying *)
Section ecdsa.
Context `{ECDSA}.

Definition SignSecp256r1 (privateKey : option PrivateKey) (payload : bytes) : IO bytes :=
  _ ← lift (refuse (negb (validP256PrivateKey privateKey))
        (EText "soroauth: secp256r1 sign: invalid P-256 private key"));
  let d := default 0%Z (k ← privateKey; D k) in
  '(r, s) ← io_wrap "soroauth: secp256r1 sign" (ecdsa_Sign d payload);
  let s := normalizeP256LowS s P256_N in
  mret (marshalSecp256r1Signature r s).

(** [ecdsa.Verify] on a key [validP256PublicKey] accepts. *)
Definition verifyKey (publicKey : option PublicKey) (digest : bytes) (r s : Z) : bool :=
  match publicKey with
  | Some (mkPublicKey _ (Some x) (Some y)) => ecdsa_Verify x y digest r s
  | _ => false
  end.

Definition VerifySecp256r1 (publicKey : option PublicKey) (payload signature : bytes)
    : result unit :=
  _ ← refuse (negb (validP256PublicKey publicKey))
        (EText "soroauth: secp256r1 verify: invalid P-256 public key");
  '(r, s) ← wrap "soroauth: secp256r1 verify" (ParseSecp256r1Signature signature);
  _ ← refuse (s >? Z.shiftr P256_N 1)%Z
        (EWrap "soroauth: secp256r1 verify: high-S signature" (ESentinel ErrSignatureMismatch));
  refuse (negb (verifyKey publicKey payload r s))
    (EWrap "soroauth: secp256r1 verify" (ESentinel ErrSignatureMismatch)).
End ecdsa.

(** ** Lemmas *)
Lemma checkP256Scalars_Ok r s u :
  checkP256Scalars r s = Ok u ↔ (0 < r < P256_N)%Z ∧ (0 < s < P256_N)%Z.
Proof.
  unfold checkP256Scalars. rewrite refuse_Ok, !orb_false_iff, !Z.leb_gt, !Z.geb_leb, !Z.leb_gt. lia.
Qed.

Lemma P256_N_bound : (P256_N < 256 ^ 32)%Z.
Proof. reflexivity. Qed.

(** *** The fixed-width form *)
Lemma ParseSecp256r1Signature_Ok b r s :
  ParseSecp256r1Signature b = Ok (r, s) ↔
  (0 < r < P256_N)%Z ∧ (0 < s < P256_N)%Z ∧ b = marshalSecp256r1Signature r s.
Proof.
  unfold ParseSecp256r1Signature, marshalSecp256r1Signature. pose proof P256_N_bound as HN. split.
  - intros Hp. apply bind_Ok in Hp as ([] & Hl & ([] & Hc & [= <- <-])%bind_Ok).
    apply refuse_Ok, negb_false_iff, Nat.eqb_eq in Hl. apply checkP256Scalars_Ok in Hc as [Hr Hs].
    split; [done|]. split; [done|]. unfold Secp256r1SignatureSize in Hl.
    assert (H1 : length (take 32 b) = 32) by (rewrite length_take; lia).
    assert (H2 : length (drop 32 b) = 32) by (rewrite length_drop; lia).
    pose proof (be_value_bytes (take 32 b)) as E1. rewrite H1 in E1.
    pose proof (be_value_bytes (drop 32 b)) as E2. rewrite H2 in E2.
    rewrite E1, E2. symmetry. apply take_drop.
  - intros (Hr & Hs & ->). rewrite length_app, !length_be_bytes.
    rewrite (take_app_length' _ _ 32), (drop_app_length' _ _ 32) by (by rewrite length_be_bytes).
    rewrite !be_bytes_value by lia. cbn [negb Nat.eqb Nat.add Secp256r1SignatureSize refuse mbind result_bind].
    by rewrite (proj2 (checkP256Scalars_Ok r s tt)).
Qed.

Lemma normalizeP256LowS_spec s :
  (0 < s < P256_N)%Z →
  (0 < normalizeP256LowS s P256_N <= Z.shiftr P256_N 1)%Z ∧
  (normalizeP256LowS s P256_N = s ∨ normalizeP256LowS s P256_N = P256_N - s)%Z.
Proof.
  intros Hs. unfold normalizeP256LowS. assert (HN : (P256_N = 2 * Z.shiftr P256_N 1 + 1)%Z) by reflexivity.
  destruct (Z.gtb_spec s (Z.shiftr P256_N 1)); lia.
Qed.

(** *** Big-endian values, head first *)
Lemma be_value_app a b : be_value (a ++ b) = (be_value a * 256 ^ Z.of_nat (length b) + be_value b)%Z.
Proof.
  induction b as [|x b IH] using rev_ind; [rewrite app_nil_r; cbn; lia|].
  rewrite app_assoc, !be_value_snoc, IH, length_app. cbn [length].
  rewrite Nat2Z.inj_add, Z.pow_add_r by lia. change (256 ^ Z.of_nat 1)%Z with 256%Z. lia.
Qed.

Lemma be_value_cons x b :
  be_value (x :: b) = (byteZ x * 256 ^ Z.of_nat (length b) + be_value b)%Z.
Proof. change (x :: b) with ([x] ++ b). rewrite be_value_app. reflexivity. Qed.

(** *** DER lengths *)
(** The minimal form of a length. *)
Definition der_length (l : Z) : bytes :=
  if (l <? 128)%Z then [Zbyte l]
  else if (l <? 2 ^ 8)%Z then x81 :: be_bytes 1 l
  else if (l <? 2 ^ 16)%Z then x82 :: be_bytes 2 l
  else if (l <? 2 ^ 24)%Z then x83 :: be_bytes 3 l
  else x84 :: be_bytes 4 l.

Lemma lengthLoop_Ok n acc data l rest :
  (0 <= acc)%Z → lengthLoop n acc data = Ok (l, rest) →
  ∃ hb, data = hb ++ rest ∧ length hb = n ∧ l = (acc * 256 ^ Z.of_nat n + be_value hb)%Z ∧
    (∀ x tl, hb = x :: tl → (0 < acc * 256 + byteZ x)%Z) ∧
    (n ≠ 0 → (l < 2 ^ 31)%Z).
Proof.
  revert acc data. induction n as [|n IH]; intros acc data Hacc Hl; cbn [lengthLoop] in Hl.
  - injection Hl as <- <-. exists []. split_and!; try done. cbn. lia.
  - destruct data as [|b data]; [discriminate|].
    destruct (Z.leb_spec (2 ^ 23) acc) as [|Hmax]; [discriminate|].
    destruct (Z.eqb_spec (acc * 256 + byteZ b) 0) as [|Hne]; [discriminate|].
    pose proof (byteZ_range b).
    apply IH in Hl as (hb & -> & Hlen & -> & Hpos & Hmax'); [|lia].
    exists (b :: hb). split_and!; try done.
    + cbn. by f_equal.
    + rewrite be_value_cons, Hlen, Nat2Z.inj_succ, Z.pow_succ_r by lia. ring.
    + intros x tl [= <- <-]. lia.
    + intros _. destruct n as [|n].
      * cbn [length] in Hlen. destruct hb; [|discriminate Hlen]. cbn. lia.
      * by apply Hmax'.
Qed.

Lemma be_value_pos_length b x tl n :
  b = x :: tl → (0 < byteZ x)%Z → length b = S n → (256 ^ Z.of_nat n <= be_value b)%Z.
Proof.
  intros -> Hx Hl. rewrite be_value_cons. injection Hl as ->.
  pose proof (be_value_bound tl). pose proof (Z.pow_pos_nonneg 256 (Z.of_nat n)). nia.
Qed.

(** The long form of [n] length bytes is the minimal one. *)
Lemma der_length_long hb l n :
  length hb = n → l = be_value hb → (∀ x tl, hb = x :: tl → (0 < byteZ x)%Z) →
  (128 <= l < 2 ^ 31)%Z → Zbyte (Z.of_nat n + 128) :: hb = der_length l.
Proof.
  intros Hn -> Hpos Hl. pose proof (be_value_bound hb) as Hb. pose proof (be_value_bytes hb) as Hv.
  rewrite Hn in Hb, Hv.
  assert (Hlow : ∀ m, n = S m → (256 ^ Z.of_nat m <= be_value hb)%Z).
  { intros m ->. destruct hb as [|x tl]; [discriminate Hn|]. eapply be_value_pos_length; eauto. }
  destruct n as [|[|[|[|[|n]]]]].
  - cbn in Hb. lia.
  - unfold der_length. change (256 ^ Z.of_nat 1)%Z with (2 ^ 8)%Z in Hb.
    destruct (Z.ltb_spec (be_value hb) 128); [lia|].
    destruct (Z.ltb_spec (be_value hb) (2 ^ 8)); [|lia]. by rewrite Hv.
  - specialize (Hlow 1 eq_refl). change (256 ^ Z.of_nat 1)%Z with (2 ^ 8)%Z in Hlow.
    change (256 ^ Z.of_nat 2)%Z with (2 ^ 16)%Z in Hb. unfold der_length.
    destruct (Z.ltb_spec (be_value hb) 128); [lia|].
    destruct (Z.ltb_spec (be_value hb) (2 ^ 8)); [lia|].
    destruct (Z.ltb_spec (be_value hb) (2 ^ 16)); [|lia]. by rewrite Hv.
  - specialize (Hlow 2 eq_refl). change (256 ^ Z.of_nat 2)%Z with (2 ^ 16)%Z in Hlow.
    change (256 ^ Z.of_nat 3)%Z with (2 ^ 24)%Z in Hb. unfold der_length.
    destruct (Z.ltb_spec (be_value hb) 128); [lia|].
    destruct (Z.ltb_spec (be_value hb) (2 ^ 8)); [lia|].
    destruct (Z.ltb_spec (be_value hb) (2 ^ 16)); [lia|].
    destruct (Z.ltb_spec (be_value hb) (2 ^ 24)); [|lia]. by rewrite Hv.
  - specialize (Hlow 3 eq_refl). change (256 ^ Z.of_nat 3)%Z with (2 ^ 24)%Z in Hlow. unfold der_length.
    destruct (Z.ltb_spec (be_value hb) 128); [lia|].
    destruct (Z.ltb_spec (be_value hb) (2 ^ 8)); [lia|].
    destruct (Z.ltb_spec (be_value hb) (2 ^ 16)); [lia|].
    destruct (Z.ltb_spec (be_value hb) (2 ^ 24)); [lia|]. by rewrite Hv.
  - specialize (Hlow (4 + n) eq_refl).
    assert (2 ^ 31 <= 256 ^ Z.of_nat (4 + n))%Z; [|lia].
    rewrite Nat2Z.inj_add, Z.pow_add_r by lia. change (256 ^ Z.of_nat 4)%Z with (2 ^ 32)%Z.
    pose proof (Z.pow_pos_nonneg 256 (Z.of_nat n)). nia.
Qed.

Lemma lengthLoop_bytes hb acc rest :
  (0 <= acc)%Z → (acc * 256 ^ Z.of_nat (length hb) + be_value hb < 2 ^ 31)%Z →
  (∀ x tl, hb = x :: tl → (0 < acc * 256 + byteZ x)%Z) →
  lengthLoop (length hb) acc (hb ++ rest) = Ok (acc * 256 ^ Z.of_nat (length hb) + be_value hb, rest)%Z.
Proof.
  revert acc. induction hb as [|b hb IH]; intros acc Hacc Hmax Hpos; cbn [lengthLoop length app].
  { cbn. do 3 f_equal. lia. }
  specialize (Hpos b hb eq_refl). rewrite be_value_cons in Hmax |- *. cbn [length] in Hmax.
  rewrite Nat2Z.inj_succ, Z.pow_succ_r in Hmax |- * by lia.
  pose proof (byteZ_range b). pose proof (be_value_bound hb).
  pose proof (Z.pow_pos_nonneg 256 (Z.of_nat (length hb))).
  destruct (Z.leb_spec (2 ^ 23) acc); [nia|].
  destruct (Z.eqb_spec (acc * 256 + byteZ b) 0); [lia|].
  rewrite IH; [do 2 f_equal; ring|lia|rewrite Z.mul_add_distr_r, <-Z.mul_assoc; lia|].
  intros x tl ->. pose proof (byteZ_range x). lia.
Qed.

Lemma parseLength_spec data l rest :
  parseLength data = Ok (l, rest) ↔ (0 <= l < 2 ^ 31)%Z ∧ data = der_length l ++ rest.
Proof.
  split.
  - destruct data as [|b data]; [discriminate|]. cbn [parseLength]. pose proof (byteZ_range b) as Hb.
    destruct (Z.ltb_spec (byteZ b) 128) as [Hs|Hs].
    { intros [= <- <-]. split; [lia|]. unfold der_length.
      destruct (Z.ltb_spec (byteZ b) 128); [|lia]. by rewrite Zbyte_byteZ. }
    set (n := Z.to_nat (byteZ b - 128)). destruct (Nat.eqb_spec n 0) as [|Hn]; [discriminate|].
    intros ([l' d'] & Hl & Hd)%bind_Ok.
    destruct (Z.ltb_spec l' 128) as [|Hmin]; [discriminate|]. injection Hd as -> ->.
    apply lengthLoop_Ok in Hl as (hb & -> & Hlen & Hv & Hpos & Hmax); [|lia]. cbn in Hv.
    split; [lia|]. rewrite <-(der_length_long hb l n); [|done|done|done|lia].
    cbn. f_equal. apply byteZ_inj. rewrite byteZ_Zbyte, Z.mod_small; lia.
  - intros [Hl ->].
    assert (Hlong : ∀ n, (128 <= l)%Z → n ≠ 0 → n <= 4 → (256 ^ Z.of_nat (n - 1) <= l < 256 ^ Z.of_nat n)%Z →
      parseLength (Zbyte (Z.of_nat n + 128) :: be_bytes n l ++ rest) = Ok (l, rest)).
    { intros n Hmin Hn0 Hn4 Hr. cbn [parseLength]. rewrite byteZ_Zbyte, Z.mod_small by lia.
      destruct (Z.ltb_spec (Z.of_nat n + 128) 128); [lia|].
      replace (Z.to_nat (Z.of_nat n + 128 - 128)) with (length (be_bytes n l))
        by (rewrite length_be_bytes; lia).
      destruct (Nat.eqb_spec (length (be_bytes n l)) 0) as [E|_]; [rewrite length_be_bytes in E; lia|].
      rewrite lengthLoop_bytes; rewrite ?length_be_bytes, ?be_bytes_value by lia; [|lia|lia|].
      - cbn. rewrite Z.mul_0_l, Z.add_0_l. destruct (Z.ltb_spec l 128); [lia|done].
      - intros x tl Hx. pose proof (length_be_bytes n l) as Hlen. rewrite Hx in Hlen. cbn in Hlen.
        pose proof (be_bytes_value n l ltac:(lia)) as Hv. rewrite Hx, be_value_cons in Hv.
        pose proof (be_value_bound tl) as Ht. replace (length tl) with (n - 1) in * by lia.
        pose proof (byteZ_range x). destruct (Z.eq_dec (byteZ x) 0%Z) as [E|]; [|lia]. rewrite E in Hv. lia. }
    unfold der_length. destruct (Z.ltb_spec l 128).
    { cbn [app parseLength]. rewrite byteZ_Zbyte, Z.mod_small by lia. by destruct (Z.ltb_spec l 128); [|lia]. }
    destruct (Z.ltb_spec l (2 ^ 8)); [apply (Hlong 1); cbn; lia|].
    destruct (Z.ltb_spec l (2 ^ 16)); [apply (Hlong 2); cbn; lia|].
    destruct (Z.ltb_spec l (2 ^ 24)); [apply (Hlong 3); cbn; lia|apply (Hlong 4); cbn; lia].
Qed.

(** *** DER integers *)
(** The minimal two's complement form of a positive number. *)
Definition der_integer (z : Z) : bytes := be_bytes (Z.to_nat ((Z.log2 z + 1) / 8 + 1)) z.

Lemma der_integer_length v n :
  (0 < v < 2 ^ (8 * Z.of_nat n - 1))%Z → (n = 1 ∨ (2 ^ (8 * Z.of_nat n - 9) <= v)%Z) → n ≠ 0 →
  Z.to_nat ((Z.log2 v + 1) / 8 + 1) = n.
Proof.
  intros Hv Hmin Hn.
  assert (Hhi : (Z.log2 v < 8 * Z.of_nat n - 1)%Z) by (apply Z.log2_lt_pow2; lia).
  assert (Hlo : (8 * Z.of_nat n - 9 <= Z.log2 v)%Z).
  { destruct Hmin as [->|Hmin]; [pose proof (Z.log2_nonneg v); lia|].
    destruct (Z.le_gt_cases 0 (8 * Z.of_nat n - 9)); [apply Z.log2_le_pow2; lia|].
    pose proof (Z.log2_nonneg v). lia. }
  assert ((Z.log2 v + 1) / 8 = Z.of_nat n - 1)%Z as ->; [|lia].
  symmetry. apply (Z.div_unique _ _ _ (Z.log2 v + 1 - 8 * (Z.of_nat n - 1))); lia.
Qed.

Lemma pow256 n : (256 ^ Z.of_nat n = 2 ^ (8 * Z.of_nat n))%Z.
Proof. rewrite Z.pow_mul_r by lia. reflexivity. Qed.

(** Bounds of a value by its first bytes. *)
Lemma first_byte_bounds x tl :
  highBit x = false →
  (be_value (x :: tl) < 2 ^ (8 * Z.of_nat (S (length tl)) - 1))%Z.
Proof.
  unfold highBit. intros Hx%Z.leb_gt. rewrite be_value_cons.
  pose proof (be_value_bound tl) as Ht. rewrite pow256 in *.
  replace (8 * Z.of_nat (S (length tl)) - 1)%Z with (7 + 8 * Z.of_nat (length tl))%Z by lia.
  rewrite Z.pow_add_r by lia. change (2 ^ 7)%Z with 128%Z. nia.
Qed.

Lemma Ok_inj {A} (a b : A) : Ok a = Ok b → a = b.
Proof. congruence. Qed.

Lemma parseBigInt_spec b z : (0 < z)%Z → parseBigInt b = Ok z ↔ b = der_integer z.
Proof.
  intros Hz. split.
  - destruct b as [|x tl]; [discriminate|]. cbn [parseBigInt].
    destruct (match tl with [] => false | _ => _ end) eqn:Hred; [discriminate|].
    destruct (highBit x) eqn:Hx; intros Hv%Ok_inj.
    { pose proof (be_value_bound (x :: tl)). lia. }
    pose proof (first_byte_bounds x tl Hx) as Hhi. rewrite Hv in Hhi.
    unfold der_integer. rewrite (der_integer_length z (S (length tl))); [|lia| |done].
    { rewrite <-Hv. symmetry. apply (be_value_bytes (x :: tl)). }
    destruct tl as [|y tl]; [by left|right]. cbn [length] in *.
    apply orb_false_iff in Hred as [Hred _].
    replace (8 * Z.of_nat (S (S (length tl))) - 9)%Z with (7 + 8 * Z.of_nat (length tl))%Z by lia.
    rewrite Z.pow_add_r, <-Hv, !be_value_cons by lia. change (2 ^ 7)%Z with 128%Z.
    cbn [length]. rewrite Nat2Z.inj_succ, Z.pow_succ_r, pow256 by lia.
    pose proof (be_value_bound tl). pose proof (byteZ_range x). pose proof (byteZ_range y).
    pose proof (Z.pow_pos_nonneg 2 (8 * Z.of_nat (length tl))).
    destruct (Z.eq_dec (byteZ x) 0%Z) as [E|E]; [|nia].
    assert (x = x00) as -> by (by apply byteZ_inj).
    cbn in Hred. apply negb_false_iff, Z.leb_le in Hred. nia.
  - intros ->. unfold der_integer. set (n := Z.to_nat ((Z.log2 z + 1) / 8 + 1)).
    pose proof (Z.log2_spec z Hz) as Hlog. pose proof (Z.log2_nonneg z) as Hnn.
    assert (Hn : (Z.of_nat n = (Z.log2 z + 1) / 8 + 1)%Z).
    { unfold n. rewrite Z2Nat.id; [done|]. pose proof (Z.div_pos (Z.log2 z + 1) 8). lia. }
    pose proof (Z.div_mod (Z.log2 z + 1) 8 ltac:(lia)) as Hdm.
    pose proof (Z.mod_pos_bound (Z.log2 z + 1) 8 ltac:(lia)) as Hmb.
    assert (Hhi : (z < 2 ^ (8 * Z.of_nat n - 1))%Z).
    { eapply Z.lt_le_trans; [apply Hlog|]. apply Z.pow_le_mono_r; lia. }
    assert (Hv : be_value (be_bytes n z) = z).
    { apply be_bytes_value. rewrite pow256. split; [lia|].
      eapply Z.lt_trans; [exact Hhi|]. apply Z.pow_lt_mono_r; lia. }
    pose proof (length_be_bytes n z) as Hlen. revert Hv Hlen. generalize (be_bytes n z).
    intros b Hv Hlen. destruct b as [|x tl]; [cbn in Hlen; lia|]. cbn [length] in Hlen.
    assert (Hx : highBit x = false).
    { apply Z.leb_gt. rewrite be_value_cons in Hv. pose proof (be_value_bound tl). rewrite pow256 in *.
      replace (8 * Z.of_nat n - 1)%Z with (7 + 8 * Z.of_nat (length tl))%Z in Hhi by lia.
      rewrite Z.pow_add_r in Hhi by lia. change (2 ^ 7)%Z with 128%Z in Hhi.
      pose proof (Z.pow_pos_nonneg 2 (8 * Z.of_nat (length tl))). nia. }
    cbn [parseBigInt]. rewrite Hx, Hv. destruct tl as [|y tl]; [done|].
    assert (Hff : bool_decide (x = xff) = false).
    { apply bool_decide_eq_false. intros ->. discriminate Hx. }
    rewrite Hff. cbn [andb]. rewrite orb_false_r.
    destruct (bool_decide_reflect (x = x00)) as [->|]; [|done]. cbn [andb].
    destruct (highBit y) eqn:Hy; [done|]. exfalso.
    pose proof (first_byte_bounds y tl Hy) as Hsmall.
    rewrite be_value_cons in Hv. change (byteZ x00) with 0%Z in Hv. cbn [length] in *.
    assert (2 ^ (8 * Z.of_nat (S (length tl)) - 1) <= z)%Z; [|lia].
    eapply Z.le_trans; [|apply Hlog]. apply Z.pow_le_mono_r; lia.
Qed.

(** *** Fields *)
Definition der_field (tag : Byte.byte) (contents : bytes) : bytes :=
  tag :: der_length (Z.of_nat (length contents)) ++ contents.

Definition fits (contents : bytes) : Prop := (Z.of_nat (length contents) < 2 ^ 31)%Z.

Lemma parseField_spec tag data inner rest :
  parseField tag data = Ok (inner, rest) ↔ fits inner ∧ data = der_field tag inner ++ rest.
Proof.
  unfold der_field, fits. split.
  - destruct data as [|t data]; [discriminate|]. cbn [parseField].
    destruct (bool_decide_reflect (t = tag)) as [->|]; [|discriminate].
    intros ([l d] & (Hl & ->)%parseLength_spec & Hd)%bind_Ok.
    destruct (Z.gtb_spec l (Z.of_nat (length d))); [discriminate|]. injection Hd as <- <-.
    assert (Hlen : Z.of_nat (length (take (Z.to_nat l) d)) = l) by (rewrite length_take; lia).
    rewrite Hlen. split; [lia|]. cbn [app]. by rewrite <-app_assoc, take_drop.
  - intros [Hf ->]. cbn [app parseField]. rewrite bool_decide_eq_true_2 by done. cbn [negb].
    rewrite <-app_assoc.
    rewrite (proj2 (parseLength_spec _ (Z.of_nat (length inner)) (inner ++ rest))) by (split; [lia|done]).
    cbn [mbind result_bind]. rewrite length_app.
    destruct (Z.gtb_spec (Z.of_nat (length inner)) (Z.of_nat (length inner + length rest))); [lia|].
    by rewrite Nat2Z.id, take_app_length, drop_app_length.
Qed.

Definition der_scalar (z : Z) : bytes := der_field x02 (der_integer z).

Lemma der_integer_fits z : (0 < z < P256_N)%Z → fits (der_integer z).
Proof.
  intros Hz. unfold fits, der_integer. rewrite length_be_bytes.
  assert (Z.log2 z < 256)%Z by (apply Z.log2_lt_pow2; [lia|]; pose proof P256_N_bound; lia).
  pose proof (Z.log2_nonneg z).
  assert ((Z.log2 z + 1) / 8 <= 32)%Z by (apply Z.div_le_upper_bound; lia). lia.
Qed.

(** *** Theorems *)
(** The fixed-width form and the pairs of scalars in range are in
    bijection: 64 bytes parse to (r, s) exactly when they are its encoding, and
    a pair outside the range, zero included, is the encoding of nothing. *)
Theorem ParseSecp256r1Signature_roundtrip b r s :
  ParseSecp256r1Signature b = Ok (r, s) ↔
  (0 < r < P256_N)%Z ∧ (0 < s < P256_N)%Z ∧ b = marshalSecp256r1Signature r s.
Proof. apply ParseSecp256r1Signature_Ok. Qed.

Lemma ParseDERECDSASignature_Ok b r s :
  ParseDERECDSASignature b = Ok (r, s) ↔
  (0 < r < P256_N)%Z ∧ (0 < s < P256_N)%Z ∧ ∃ extra,
    let body := der_scalar r ++ der_scalar s ++ extra in fits body ∧ b = der_field x30 body.
Proof.
  unfold ParseDERECDSASignature, asn1_UnmarshalSignature, der_scalar. split.
  - intros ([[r' s'] rest] & Hu%wrap_Ok & ([] & Hrest & ([] & Hc & [= -> ->])%bind_Ok)%bind_Ok)%bind_Ok.
    apply refuse_Ok, negb_false_iff, Nat.eqb_eq in Hrest. destruct rest; [|discriminate Hrest].
    apply checkP256Scalars_Ok in Hc as [Hr Hs]. split; [done|]. split; [done|].
    apply bind_Ok in Hu as ([inner rest] & (Hfit & ->)%parseField_spec & Hu).
    apply bind_Ok in Hu as ([rb inner'] & (_ & ->)%parseField_spec & Hu).
    apply bind_Ok in Hu as (r' & Hrb & Hu).
    apply bind_Ok in Hu as ([sb extra] & (_ & ->)%parseField_spec & Hu).
    apply bind_Ok in Hu as (s' & Hsb & Hu). injection Hu as -> -> ->.
    apply parseBigInt_spec in Hrb as ->; [|lia]. apply parseBigInt_spec in Hsb as ->; [|lia].
    exists extra. split; [done|]. by rewrite app_nil_r.
  - intros (Hr & Hs & extra & Hfit & ->).
    pose proof (der_integer_fits r Hr) as Hfr. pose proof (der_integer_fits s Hs) as Hfs.
    set (body := der_field x02 (der_integer r) ++ der_field x02 (der_integer s) ++ extra) in *.
    rewrite (proj2 (parseField_spec x30 (der_field x30 body) body [])) by (by rewrite app_nil_r).
    cbn [mbind result_bind]. unfold body.
    rewrite (proj2 (parseField_spec x02 _ (der_integer r) _)) by (split; [exact Hfr|reflexivity]).
    cbn [mbind result_bind]. rewrite (proj2 (parseBigInt_spec _ r ltac:(lia))) by done.
    cbn [mbind result_bind].
    rewrite (proj2 (parseField_spec x02 _ (der_integer s) _)) by (split; [exact Hfs|reflexivity]).
    cbn [mbind result_bind]. rewrite (proj2 (parseBigInt_spec _ s ltac:(lia))) by done.
    cbn [mbind result_bind wrap negb Nat.eqb length refuse].
    by rewrite (proj2 (checkP256Scalars_Ok r s tt)).
Qed.

(** The DER parser takes exactly: a SEQUENCE with a minimal length, holding
    the minimal encodings of two scalars in [1, n-1], followed inside the
    SEQUENCE by any bytes at all; bytes after the SEQUENCE are refused.  So one
    signature has one canonical encoding, and many more that are accepted. *)
Theorem ParseDERECDSASignature_accepts b r s :
  (ParseDERECDSASignature b = Ok (r, s) ↔
   (0 < r < P256_N)%Z ∧ (0 < s < P256_N)%Z ∧ ∃ extra,
     let body := der_scalar r ++ der_scalar s ++ extra in fits body ∧ b = der_field x30 body) ∧
  (∀ tail, tail ≠ [] → ParseDERECDSASignature b = Ok (r, s) →
     is_ok (ParseDERECDSASignature (b ++ tail)) = false).
Proof.
  split; [apply ParseDERECDSASignature_Ok|].
  intros tail Ht (_ & _ & extra & Hfit & ->)%ParseDERECDSASignature_Ok.
  unfold ParseDERECDSASignature, asn1_UnmarshalSignature.
  rewrite (proj2 (parseField_spec x30 _ _ tail)) by (split; [exact Hfit|reflexivity]).
  cbn [mbind result_bind].
  destruct (parseField x02 _) as [[rb inner]|]; [|done]. cbn [mbind result_bind].
  destruct (parseBigInt rb); [|done]. cbn [mbind result_bind].
  destruct (parseField x02 inner) as [[sb ?]|]; [|done]. cbn [mbind result_bind].
  destruct (parseBigInt sb); [|done]. by destruct tail.
Qed.

Section ecdsa_theorems.
Context `{ECDSA} `{!ECDSALaws}.

Lemma verifyKey_low_S key digest r s : (0 < s < P256_N)%Z →
  verifyKey key digest r (normalizeP256LowS s P256_N) = verifyKey key digest r s.
Proof.
  intros Hs. destruct (normalizeP256LowS_spec s Hs) as [_ [->| ->]]; [done|].
  destruct key as [[? [x|] [y|]]|]; try done. by apply ecdsa_Verify_symmetric.
Qed.

Lemma VerifySecp256r1_low pub payload r s :
  validP256PublicKey pub = true → (0 < r < P256_N)%Z → (0 < s < P256_N)%Z →
  (s <= Z.shiftr P256_N 1)%Z →
  VerifySecp256r1 pub payload (marshalSecp256r1Signature r s) = Ok tt ↔
  verifyKey pub payload r s = true.
Proof.
  intros Hpub Hr Hs Hlow. unfold VerifySecp256r1. rewrite Hpub.
  rewrite (proj2 (ParseSecp256r1Signature_Ok _ r s)) by done. cbn [negb refuse mbind result_bind wrap].
  destruct (Z.gtb_spec s (Z.shiftr P256_N 1)); [lia|]. cbn [refuse mbind result_bind].
  by rewrite refuse_Ok, negb_false_iff.
Qed.

Lemma VerifySecp256r1_high pub payload r s :
  validP256PublicKey pub = true → (0 < r < P256_N)%Z → (0 < s < P256_N)%Z →
  (Z.shiftr P256_N 1 < s)%Z →
  VerifySecp256r1 pub payload (marshalSecp256r1Signature r s) =
  Err (EWrap "soroauth: secp256r1 verify: high-S signature" (ESentinel ErrSignatureMismatch)).
Proof.
  intros Hpub Hr Hs Hhigh. unfold VerifySecp256r1. rewrite Hpub.
  rewrite (proj2 (ParseSecp256r1Signature_Ok _ r s)) by done. cbn [negb refuse mbind result_bind wrap].
  destruct (Z.gtb_spec s (Z.shiftr P256_N 1)); [done|lia].
Qed.

(** What [SignSecp256r1] returns is the 64-byte low-S form of the scalars
    the key produced, and [VerifySecp256r1] accepts it exactly when those scalars
    verify; the mirrored encoding with n - s, which ECDSA itself would accept,
    is refused. *)
Theorem SignSecp256r1_verifies key payload w sig w' :
  SignSecp256r1 (Some key) payload w = (Ok sig, w') →
  ∃ d r s, D key = Some d ∧ ecdsa_Sign d payload w = (Ok (r, s), w') ∧
    length sig = Secp256r1SignatureSize ∧
    let pub := Some (Private_PublicKey key) in let low := normalizeP256LowS s P256_N in
    ParseSecp256r1Signature sig = Ok (r, low) ∧ (low <= Z.shiftr P256_N 1)%Z ∧
    (VerifySecp256r1 pub payload sig = Ok tt ↔ verifyKey pub payload r s = true) ∧
    VerifySecp256r1 pub payload (marshalSecp256r1Signature r (P256_N - low)) =
      Err (EWrap "soroauth: secp256r1 verify: high-S signature" (ESentinel ErrSignatureMismatch)).
Proof.
  unfold SignSecp256r1. intros Hs.
  apply io_bind_Ok in Hs as ([] & w0 & [Hv ->]%lift_Ok & Hs). apply refuse_Ok, negb_false_iff in Hv.
  apply io_bind_Ok in Hs as ([r s] & w1 & Hsign%io_wrap_Ok & Hs). injection Hs as <- <-.
  unfold validP256PrivateKey in Hv. apply andb_true_iff in Hv as [_ Hv]. cbn in Hsign.
  destruct (D key) as [d|]; [|discriminate Hv].
  apply andb_true_iff in Hv as [_ Hpub]. cbn in Hsign. exists d, r, s.
  destruct (ecdsa_Sign_range _ _ _ _ _ _ Hsign) as [Hr Hsr].
  destruct (normalizeP256LowS_spec s Hsr) as [Hlow _].
  assert (HN : (P256_N = 2 * Z.shiftr P256_N 1 + 1)%Z) by reflexivity.
  pose proof (verifyKey_low_S (Some (Private_PublicKey key)) payload r s Hsr) as Hkey.
  split; [done|]. split; [done|]. split.
  { unfold marshalSecp256r1Signature. by rewrite length_app, !length_be_bytes. }
  cbv zeta. revert Hlow Hkey. generalize (normalizeP256LowS s P256_N). intros low Hlow Hkey.
  split; [apply ParseSecp256r1Signature_Ok; split; [done|]; split; [lia|done]|]. split; [lia|].
  split; [rewrite <-Hkey; apply VerifySecp256r1_low; [done|done|lia|lia]|].
  apply VerifySecp256r1_high; [done|done|lia|lia].
Qed.
End ecdsa_theorems.

(** ** A concrete instance *)
(** A stand-in for crypto/ecdsa with the two facts used: signatures depend on
    key and digest, and come with a high S. *)
Definition P256_Gx : Z := 0x6b17d1f2e12c4247f8bce6e563a440f277037d812deb33a0f4a13945d898c296.
Definition P256_Gy : Z := 0x4fe342e2fe1a7f9b8ee7eb4a7c0f9e162bce33576b315ececbb6406837bf51f5.

Definition model_r (x : Z) (digest : bytes) : Z := ((be_value digest + x) mod (P256_N - 1) + 1)%Z.

#[export] Instance ModelECDSA : ECDSA := {|
  ecdsa_Verify x y digest r s := (r =? model_r x digest)%Z && (Z.min s (P256_N - s) =? 1)%Z;
  ecdsa_Sign d digest := mret (model_r (P256_Gx * d) digest, P256_N - 1)%Z
|}.

#[export] Instance ModelECDSALaws : ECDSALaws.
Proof.
  split.
  - intros d digest w r s w' Hs. cbn in Hs. injection Hs as <- <- _. unfold model_r.
    pose proof (Z.mod_pos_bound (be_value digest + P256_Gx * d) (P256_N - 1) eq_refl).
    assert (2 < P256_N)%Z by reflexivity. lia.
  - intros x y digest r s Hs. cbn. f_equal. f_equal. lia.
Qed.

Definition ex_p256_public : PublicKey := mkPublicKey true (Some P256_Gx) (Some P256_Gy).
Definition ex_p256_key : PrivateKey := mkPrivateKey ex_p256_public (Some 1%Z).
Definition ex_digest : bytes := replicate 32 x2a.
Definition ex_signature : bytes :=
  match SignSecp256r1 (Some ex_p256_key) ex_digest initial_world with (Ok b, _) => b | _ => [] end.

Example ex_p256_generator : IsOnCurve P256_Gx P256_Gy = true ∧ IsOnCurve P256_Gx (P256_Gy + 1) = false.
Proof. split; vm_compute; reflexivity. Qed.

Lemma ParseSecp256r1Signature_roundtrip_witness :
  ParseSecp256r1Signature ex_signature = Ok (model_r P256_Gx ex_digest, 1%Z) ∧
  (0 < 1 < P256_N)%Z ∧ ex_signature = marshalSecp256r1Signature (model_r P256_Gx ex_digest) 1.
Proof.
  assert (Hp : ParseSecp256r1Signature ex_signature = Ok (model_r P256_Gx ex_digest, 1%Z))
    by (vm_compute; reflexivity).
  split; [exact Hp|]. apply ParseSecp256r1Signature_roundtrip in Hp as (_ & Hs & Hb). by split.
Defined.

(** The canonical encoding of (1, 128) and one with a byte to spare inside the
    SEQUENCE: both are taken. *)
Definition ex_der : bytes := [x30; x07; x02; x01; x01; x02; x02; x00; x80].
Definition ex_der_extra : bytes := [x30; x08; x02; x01; x01; x02; x02; x00; x80; xff].

Example ex_der_minimal :
  is_ok (ParseDERECDSASignature [x30; x08; x02; x01; x01; x02; x03; x00; x00; x80]) = false ∧
  is_ok (ParseDERECDSASignature [x30; x06; x02; x01; x01; x02; x01; x80]) = false.
Proof. split; vm_compute; reflexivity. Qed.

Lemma ParseDERECDSASignature_accepts_witness :
  ParseDERECDSASignature ex_der = ParseDERECDSASignature ex_der_extra ∧
  (∃ extra, let body := der_scalar 1 ++ der_scalar 128 ++ extra in
     fits body ∧ ex_der_extra = der_field x30 body) ∧
  is_ok (ParseDERECDSASignature (ex_der ++ [xff])) = false.
Proof.
  split; [vm_compute; reflexivity|]. split.
  - apply (ParseDERECDSASignature_accepts ex_der_extra 1 128). vm_compute. reflexivity.
  - apply (ParseDERECDSASignature_accepts ex_der 1 128); [discriminate|vm_compute; reflexivity].
Defined.

Lemma SignSecp256r1_verifies_witness : ∃ d r s,
  D ex_p256_key = Some d ∧ ecdsa_Sign d ex_digest initial_world = (Ok (r, s), initial_world) ∧
  length ex_signature = Secp256r1SignatureSize ∧
  let pub := Some (Private_PublicKey ex_p256_key) in let low := normalizeP256LowS s P256_N in
  ParseSecp256r1Signature ex_signature = Ok (r, low) ∧ (low <= Z.shiftr P256_N 1)%Z ∧
  (VerifySecp256r1 pub ex_digest ex_signature = Ok tt ↔ verifyKey pub ex_digest r s = true) ∧
  VerifySecp256r1 pub ex_digest (marshalSecp256r1Signature r (P256_N - low)) =
    Err (EWrap "soroauth: secp256r1 verify: high-S signature" (ESentinel ErrSignatureMismatch)).
Proof.
  apply (SignSecp256r1_verifies ex_p256_key ex_digest initial_world ex_signature initial_world).
  vm_compute. reflexivity.
Defined.

Example ex_signature_verifies : VerifySecp256r1 (Some ex_p256_public) ex_digest ex_signature = Ok tt.
Proof. vm_compute. reflexivity. Qed.
