(* ===== verification/WebAuthn.v ===== *)
(** * WebAuthn: assertions and the passkey signer (webauthn.go, signer.go)

    [ParseWebAuthnAssertion] takes a browser's assertion apart,
    [VerifyChallenge] ties it to one payload, and
    [NewPasskeySignerFromAssertion] is the signer that hands it to a wallet
    contract after verifying it.  [VerifyChallenge_binds] shows that an
    assertion answers for one 32-byte payload at most, whichever of the six
    accepted spellings its challenge has; [PasskeyAssertionSigner_sound] says
    what a returned signature was checked against.

    The two [json.Unmarshal] calls are parameters ([WebAuthnJSON]): they read
    the named members of a JSON text, empty when absent. *)
From Stdlib Require Import ZArith Lia Strings.Byte String Ascii.
From stdpp Require Import base list strings pretty.
From S2P Require Import Prelude Encoding Errors Xdr ModelSDK Runtime Examples Signers Secp256r1.

Open Scope string_scope. Open Scope nat_scope. Open Scope list_scope.

(** ** encoding/base64, four ways *)
Fixpoint string_map (f : ascii → ascii) (s : string) : string :=
  match s with EmptyString => EmptyString | String c s => String (f c) (string_map f s) end.
Fixpoint without (x : ascii) (s : string) : string :=
  match s with
  | EmptyString => EmptyString
  | String c s => if Ascii.eqb c x then without x s else String c (without x s)
  end.

(** The two characters in which base64url differs. *)
Definition url_char (c : ascii) : ascii :=
  if Ascii.eqb c "+" then "-"%char else if Ascii.eqb c "/" then "_"%char else c.
Definition std_char (c : ascii) : ascii :=
  if Ascii.eqb c "-" then "+"%char else if Ascii.eqb c "_" then "/"%char else c.

Record Encoding := mkEncoding { url : bool; raw : bool }.
Definition RawURLEncoding : Encoding := mkEncoding true true.
Definition URLEncoding : Encoding := mkEncoding true false.
Definition RawStdEncoding : Encoding := mkEncoding false true.
Definition StdEncoding : Encoding := mkEncoding false false.

Definition EncodeToString (e : Encoding) (b : bytes) : string :=
  let s := base64_EncodeToString b in
  let s := if raw e then without "=" s else s in
  if url e then string_map url_char s else s.

Definition sextet (e : Encoding) (c : ascii) : option Z :=
  if url e
  then if Ascii.eqb c "+" || Ascii.eqb c "/" then None else b64_value (std_char c)
  else b64_value c.

(** [DecodeString] without [Strict]: unused bits of the last quartet are not
    looked at, line breaks are skipped. *)
Fixpoint decodeQuartets (e : Encoding) (s : string) : option bytes :=
  match s with
  | EmptyString => Some []
  | String a (String b EmptyString) =>
      a ← sextet e a; b ← sextet e b;
      if raw e then Some [Zbyte ((a * 64 + b) / 16)] else None
  | String a (String b (String c EmptyString)) =>
      a ← sextet e a; b ← sextet e b; c ← sextet e c;
      let n := ((a * 64 + b) * 64 + c)%Z in
      if raw e then Some [Zbyte (n / 1024); Zbyte (n / 4)] else None
  | String a (String b (String c (String d s))) =>
      a ← sextet e a; b ← sextet e b;
      if negb (raw e) && Ascii.eqb c "=" then
        if Ascii.eqb d "=" && String.eqb s "" then Some [Zbyte ((a * 64 + b) / 16)] else None
      else
        c ← sextet e c;
        if negb (raw e) && Ascii.eqb d "=" then
          let n := ((a * 64 + b) * 64 + c)%Z in
          if String.eqb s "" then Some [Zbyte (n / 1024); Zbyte (n / 4)] else None
        else
          d ← sextet e d; r ← decodeQuartets e s;
          let n := (((a * 64 + b) * 64 + c) * 64 + d)%Z in
          Some (Zbyte (n / 65536) :: Zbyte (n / 256) :: Zbyte n :: r)
  | _ => None
  end.

Definition DecodeString (e : Encoding) (s : string) : option bytes :=
  decodeQuartets e (without_newlines s).

Definition decodeBase64Loose (value : string) : option bytes :=
  match DecodeString RawURLEncoding value with
  | Some b => Some b
  | None =>
      match DecodeString URLEncoding value with
      | Some b => Some b
      | None =>
          match DecodeString RawStdEncoding value with
          | Some b => Some b
          | None => DecodeString StdEncoding value
          end
      end
  end.

(** [strings.ToUpper] on ASCII text. *)
Definition upper_char (c : ascii) : ascii :=
  let n := N_of_ascii c in
  if (97 <=? n)%N && (n <=? 122)%N then ascii_of_N (n - 32) else c.
Definition ToUpper (s : string) : string := string_map upper_char s.

(** ** Assertions *)
Record WebAuthnAssertion := mkAssertion {
  AuthenticatorData : bytes;
  ClientDataJSON : bytes;
  Assertion_Signature : bytes;
  ChallengeString : string
}.

Record webAuthnAssertionJSON := mkAssertionJSON {
  json_Type : string;
  json_ClientDataJSON : string;
  json_AuthenticatorData : string;
  json_Signature : string
}.

Record clientDataJSON := mkClientData {
  clientData_Type : string;
  clientData_Challenge : string;
  clientData_Origin : string
}.

(** [json.Unmarshal] into the two structs; [None] is its error. *)
Class WebAuthnJSON := {
  json_UnmarshalAssertion : bytes → option webAuthnAssertionJSON;
  json_UnmarshalClientData : bytes → option clientDataJSON
}.

Definition authDataMinLen : nat := 37.
Definition flagUserPresent : Z := 1.
Definition flagUserVerified : Z := 4.

(** The receiver may be a nil pointer. *)
Definition Flags (a : option WebAuthnAssertion) : Byte.byte :=
  match a with
  | Some a => if Nat.leb (length (AuthenticatorData a)) 32 then x00
              else default x00 (AuthenticatorData a !! 32)
  | None => x00
  end.
Definition UserPresent (a : option WebAuthnAssertion) : bool :=
  negb (Z.land (byteZ (Flags a)) flagUserPresent =? 0)%Z.
Definition UserVerified (a : option WebAuthnAssertion) : bool :=
  negb (Z.land (byteZ (Flags a)) flagUserVerified =? 0)%Z.

(** *** The challenge *)
Definition challengeCandidates (expected : bytes) : list string :=
  let hexLower := hex_EncodeToString expected in
  [EncodeToString RawURLEncoding expected;
   EncodeToString URLEncoding expected;
   EncodeToString RawStdEncoding expected;
   EncodeToString StdEncoding expected;
   hexLower;
   ToUpper hexLower].

Definition VerifyChallenge (a : option WebAuthnAssertion) (expected : bytes) : result unit :=
  let mismatch := Err (EWrap "soroauth: verify webauthn challenge"
                         (ESentinel ErrWebAuthnChallengeMismatch)) in
  match a with
  | Some a =>
      if Nat.eqb (length expected) 0 then mismatch
      else if existsb (λ c, String.eqb c (ChallengeString a)) (challengeCandidates expected)
      then Ok tt else mismatch
  | None => mismatch
  end.

(** A shape check, not a check of the value. *)
Definition isDecodableChallenge (value : string) : bool :=
  match decodeBase64Loose value with
  | Some _ => true
  | None => match hex_DecodeString value with Some _ => true | None => false end
  end.

(** *** Parsing *)
Definition missingFieldError {A} (field : string) : result A :=
  Err (EWrap ("soroauth: parse webauthn assertion: " +:+ field) (ESentinel ErrWebAuthnMissingField)).

Definition decodeAssertionField (value field : string) : result bytes :=
  if String.eqb value "" then Ok []
  else of_option (decodeBase64Loose value)
         (EWrap ("soroauth: parse webauthn assertion: " +:+ field)
            (ESentinel ErrWebAuthnMalformedField)).

Section webauthn.
Context `{SDK} `{WebAuthnJSON}.

(** A nil assertion has no signed bytes. *)
Definition SignedBytes (a : option WebAuthnAssertion) : bytes :=
  match a with
  | Some a => AuthenticatorData a ++ sha256_Sum256 (ClientDataJSON a)
  | None => []
  end.

Definition ParseWebAuthnAssertion (input : bytes) : result WebAuthnAssertion :=
  let op := "soroauth: parse webauthn assertion" in
  _ ← refuse (Nat.eqb (length input) 0) (EWrap op (ESentinel ErrWebAuthnMalformedJSON));
  credential ← of_option (json_UnmarshalAssertion input) (EWrap op (ESentinel ErrWebAuthnMalformedJSON));
  _ ← refuse (negb (String.eqb (json_Type credential) "") &&
              negb (String.eqb (json_Type credential) "public-key"))
        (EWrap (op +:+ ": credential type " +:+ quoted (json_Type credential))
           (ESentinel ErrWebAuthnMalformedField));
  authenticatorData ← decodeAssertionField (json_AuthenticatorData credential) "authenticatorData";
  _ ← (if Nat.eqb (length authenticatorData) 0 then missingFieldError "authenticatorData" else Ok tt);
  _ ← refuse (Nat.ltb (length authenticatorData) authDataMinLen)
        (EWrap (op +:+ ": authenticatorData is " +:+ pretty (length authenticatorData) +:+
                " bytes, need at least " +:+ pretty authDataMinLen)
           (ESentinel ErrWebAuthnTruncatedAuthenticatorData));
  clientData ← decodeAssertionField (json_ClientDataJSON credential) "clientDataJSON";
  _ ← (if Nat.eqb (length clientData) 0 then missingFieldError "clientDataJSON" else Ok tt);
  signature ← decodeAssertionField (json_Signature credential) "signature";
  _ ← (if Nat.eqb (length signature) 0 then missingFieldError "signature" else Ok tt);
  fields ← of_option (json_UnmarshalClientData clientData)
             (EWrap (op +:+ ": clientDataJSON") (ESentinel ErrWebAuthnMalformedJSON));
  _ ← (if String.eqb (clientData_Challenge fields) "" then missingFieldError "challenge" else Ok tt);
  _ ← refuse (negb (isDecodableChallenge (clientData_Challenge fields)))
        (EWrap (op +:+ ": challenge") (ESentinel ErrWebAuthnMalformedField));
  Ok (mkAssertion authenticatorData clientData signature (clientData_Challenge fields)).

Definition ParseWebAuthnAssertionForPayload (input payload : bytes) : result WebAuthnAssertion :=
  assertion ← ParseWebAuthnAssertion input;
  _ ← VerifyChallenge (Some assertion) payload;
  Ok assertion.

(** ** The passkey signer (signer.go) *)
Context `{ECDSA}.

Definition assertionFlagsCheck (cfg : passkeySignerConfig) (assertion : option WebAuthnAssertion)
    : result unit :=
  if requireUserPresence cfg || requireUserVerification cfg then
    let flags := byteZ (Flags assertion) in
    let required what := EWrap ("soroauth: sign passkey: " +:+ what +:+
      " required but not set in flags 0x" +:+ hex_byte (Flags assertion)) (ESentinel ErrVerificationFailed) in
    _ ← refuse (requireUserPresence cfg && (Z.land flags flagUserPresent =? 0)%Z)
          (required "user presence (UP)");
    refuse (requireUserVerification cfg && (Z.land flags flagUserVerified =? 0)%Z)
      (required "user verification (UV)")
  else Ok tt.

Definition passkeyAssertionSigner_Sign (publicKey : option PublicKey)
    (assertion : option WebAuthnAssertion) (cfg : passkeySignerConfig) (payload : bytes)
    : result ScVal :=
  let op := "soroauth: sign passkey" in
  a ← (match assertion, publicKey with
       | Some a, Some _ => Ok a
       | _, _ => Err (EWrap op (ESentinel ErrMissingSigner))
       end);
  _ ← refuse (negb (validP256PublicKey publicKey))
        (EWrap (op +:+ ": credential public key is not an uncompressed P-256 key")
           (ESentinel ErrVerificationFailed));
  _ ← assertionFlagsCheck cfg assertion;
  _ ← (match VerifyChallenge assertion payload with
       | Ok _ => Ok tt
       | Err _ => Err (EWrap2 op (ESentinel ErrSignatureMismatch)
                         (ESentinel ErrWebAuthnChallengeMismatch))
       end);
  let digest := sha256_Sum256 (SignedBytes assertion) in
  '(r, s) ← (match ParseDERECDSASignature (Assertion_Signature a) with
             | Ok rs => Ok rs
             | Err _ => Err (EWrap op (ESentinel ErrSignatureMismatch))
             end);
  _ ← refuse (negb (verifyKey publicKey digest r s)) (EWrap op (ESentinel ErrSignatureMismatch));
  let lowS := normalizeP256LowS s P256_N in
  wrap op (Secp256r1SignatureScVal publicKey (marshalSecp256r1Signature r lowS)).

Definition NewPasskeySignerFromAssertion (address : string) (publicKey : option PublicKey)
    (assertion : option WebAuthnAssertion) (opts : list (option PasskeySignerOption)) : Signer :=
  let cfg := passkeyConfig opts in
  mkSigner address
    (λ ctx _ payload,
      _ ← ctx_check ctx "soroauth: sign passkey";
      lift (passkeyAssertionSigner_Sign publicKey assertion cfg payload))
    (Some (mkCapabilities false true false false)).
End webauthn.

(** ** One challenge, one payload *)
(** What a 32-byte payload's challenge decodes to, whichever of the spellings it
    is in: hexadecimal when it has 64 characters, base64 otherwise. *)
Definition challengeValue (s : string) : option bytes :=
  if Nat.eqb (String.length s) 64 then hex_DecodeString s
  else base64_quartets (without "=" (string_map std_char s) +:+ "=").

Lemma string_map_id (f : ascii → ascii) (P : ascii → Prop) s :
  (∀ c, P c → f c = c) → (∀ c, In c (list_ascii_of_string s) → P c) → string_map f s = s.
Proof.
  intros Hf. induction s as [|c s IH]; intros Hs; cbn; [done|].
  rewrite Hf by (apply Hs; by left). f_equal. apply IH. intros d Hd. apply Hs. by right.
Qed.

Lemma string_map_comp f g s : string_map f (string_map g s) = string_map (λ c, f (g c)) s.
Proof. induction s as [|c s IH]; cbn; [done|]. by rewrite IH. Qed.

Lemma string_map_without f x s :
  (∀ c, Ascii.eqb (f c) x = Ascii.eqb c x) → string_map f (without x s) = without x (string_map f s).
Proof.
  intros Hf. induction s as [|c s IH]; cbn; [done|]. rewrite Hf.
  destruct (Ascii.eqb c x); cbn; by rewrite IH.
Qed.

Lemma length_string_map f s : String.length (string_map f s) = String.length s.
Proof. induction s; cbn; auto. Qed.

(** The characters of base64 text. *)
Lemma b64_char_std n : (0 <= n < 64)%Z →
  std_char (url_char (b64_char n)) = b64_char n ∧ std_char (b64_char n) = b64_char n.
Proof.
  intros Hn. assert (Hin : Forall (λ k, let c := b64_char (Z.of_nat k) in
    std_char (url_char c) = c ∧ std_char c = c) (seq 0 64)) by (repeat constructor).
  rewrite Forall_forall in Hin. rewrite <-(Z2Nat.id n) by lia. apply Hin, elem_of_seq. lia.
Qed.

Lemma base64_std_char b :
  string_map std_char (base64_EncodeToString b) = base64_EncodeToString b ∧
  string_map std_char (string_map url_char (base64_EncodeToString b)) = base64_EncodeToString b.
Proof.
  base64_steps b IH; cbn [base64_EncodeToString string_map]; [done|..]; cbv zeta;
    repeat match goal with
    | |- context [url_char (b64_char ?n)] =>
        let H := fresh in assert (H : (0 <= n < 64)%Z);
          [div_lia|destruct (b64_char_std n H) as [-> ->]]
    end; [done|done|].
  destruct (IH b) as [-> ->]; [unfold ltof; cbn; lia|done].
Qed.

(** Padding is the only thing dropped. *)
Lemma base64_unpadded b :
  without "=" (base64_EncodeToString b) +:+
    match length b mod 3 with 1 => "==" | 2 => "=" | _ => "" end = base64_EncodeToString b.
Proof.
  base64_steps b IH; cbn [base64_EncodeToString]; cbv zeta; [done|..];
    cbn [without];
    repeat match goal with
    | |- context [Ascii.eqb (b64_char ?n) "="] =>
        let H := fresh in assert (H : (0 <= n < 64)%Z);
          [div_lia|destruct (b64_value_char n H) as (_ & -> & _ & _)]
    end; [done|done|].
  replace (length (x :: y :: z :: b) mod 3) with (length b mod 3).
  2:{ cbn [length]. replace (S (S (S (length b)))) with (length b + 1 * 3) by lia.
      by rewrite Nat.Div0.mod_add. }
  specialize (IH b). rewrite <-IH at 2 by (unfold ltof; cbn; lia). done.
Qed.

Lemma length_base64 b : String.length (base64_EncodeToString b) = 4 * ((length b + 2) / 3).
Proof.
  base64_steps b IH; cbn [base64_EncodeToString]; cbv zeta; [done|done|done|].
  cbn [String.length length]. rewrite IH by (unfold ltof; cbn; lia).
  replace (S (S (S (length b))) + 2) with (length b + 2 + 1 * 3) by lia.
  rewrite Nat.div_add by lia. lia.
Qed.

Lemma without_idem x s : without x (without x s) = without x s.
Proof.
  induction s as [|c s IH]; cbn; [done|]. destruct (Ascii.eqb c x) eqn:E; cbn; rewrite ?E; by rewrite IH.
Qed.

Lemma length_without x s : String.length (without x s) <= String.length s.
Proof. induction s as [|c s IH]; cbn; [lia|]. destruct (Ascii.eqb c x); cbn; lia. Qed.

Lemma url_char_pad c : Ascii.eqb (url_char c) "=" = Ascii.eqb c "=".
Proof. by destruct c as [[] [] [] [] [] [] [] []]. Qed.
Lemma std_char_pad c : Ascii.eqb (std_char c) "=" = Ascii.eqb c "=".
Proof. by destruct c as [[] [] [] [] [] [] [] []]. Qed.
Lemma hex_value_upper c : hex_value (upper_char c) = hex_value c.
Proof. by destruct c as [[] [] [] [] [] [] [] []]. Qed.

Lemma hex_DecodeString_ToUpper s : hex_DecodeString (ToUpper s) = hex_DecodeString s.
Proof.
  assert (H : ∀ n s, String.length s <= n → hex_DecodeString (ToUpper s) = hex_DecodeString s);
    [|by eapply H].
  clear s. intros n. induction n as [|n IH]; intros [|a [|b s]] Hs; try done; cbn in Hs; [lia|].
  cbn [ToUpper string_map hex_DecodeString]. rewrite !hex_value_upper.
  change (string_map upper_char s) with (ToUpper s). by rewrite IH by lia.
Qed.

Lemma challengeValue_base64 e b : length b = 32 → challengeValue (EncodeToString e b) = Some b.
Proof.
  intros Hb. unfold challengeValue.
  assert (Hlen : String.length (EncodeToString e b) <= 44).
  { unfold EncodeToString. pose proof (length_base64 b) as Hl. rewrite Hb in Hl. cbn in Hl.
    pose proof (length_without "=" (base64_EncodeToString b)).
    destruct (url e), (raw e); rewrite ?length_string_map; lia. }
  destruct (Nat.eqb_spec (String.length (EncodeToString e b)) 64); [lia|].
  assert (Hstd : without "=" (string_map std_char (EncodeToString e b)) =
    without "=" (base64_EncodeToString b)).
  { unfold EncodeToString. destruct (base64_std_char b) as [H1 H2].
    destruct (url e), (raw e);
      rewrite ?(string_map_without url_char), ?(string_map_without std_char), ?without_idem,
        ?H2, ?H1 by (first [apply url_char_pad|apply std_char_pad]); done. }
  rewrite Hstd. pose proof (base64_unpadded b) as Hpad. rewrite Hb in Hpad.
  change (32 mod 3) with 2 in Hpad. cbn [Nat.eqb] in Hpad. rewrite Hpad. apply base64_quartets_Encode.
Qed.

Lemma challengeValue_candidate b c :
  length b = 32 → c ∈ challengeCandidates b → challengeValue c = Some b.
Proof.
  intros Hb Hc. unfold challengeCandidates in Hc.
  repeat (apply elem_of_cons in Hc as [->|Hc]; [try (by apply challengeValue_base64)|]).
  - unfold challengeValue. rewrite length_hex_EncodeToString, Hb. apply hex_DecodeString_Encode.
  - unfold challengeValue, ToUpper. rewrite length_string_map, length_hex_EncodeToString, Hb.
    cbn [Nat.mul Nat.add Nat.eqb]. change (string_map upper_char ?s) with (ToUpper s).
    rewrite hex_DecodeString_ToUpper. apply hex_DecodeString_Encode.
  - by apply not_elem_of_nil in Hc.
Qed.

Lemma VerifyChallenge_Ok a expected u :
  VerifyChallenge a expected = Ok u ↔
  ∃ a', a = Some a' ∧ expected ≠ [] ∧ ChallengeString a' ∈ challengeCandidates expected.
Proof.
  unfold VerifyChallenge. destruct a as [a|]; [|split; [discriminate|naive_solver]].
  destruct (Nat.eqb_spec (length expected) 0) as [He|He].
  { split; [discriminate|]. intros (_ & _ & Hne & _). by destruct expected. }
  destruct (existsb _ _) eqn:Hc.
  - apply existsb_In in Hc as (c & Hc & ->%String.eqb_eq). destruct u. split; [|done].
    intros _. exists a. split; [done|]. split; [by intros ->|done].
  - split; [discriminate|]. intros (a' & [= <-] & _ & Hin).
    rewrite (proj2 (existsb_In _ _)) in Hc; [done|]. exists (ChallengeString a).
    by rewrite String.eqb_refl.
Qed.

(** An assertion answers for one payload: if its challenge is accepted for
    two 32-byte payloads they are the same, although six spellings are accepted
    and a text can be both base64 and hexadecimal; and the assertion made for a
    payload is accepted in each of the six. *)
Theorem VerifyChallenge_binds a p q :
  length p = 32 → length q = 32 →
  (VerifyChallenge a p = Ok tt → VerifyChallenge a q = Ok tt → p = q) ∧
  ∀ c data client sig, c ∈ challengeCandidates p →
    VerifyChallenge (Some (mkAssertion data client sig c)) p = Ok tt.
Proof.
  intros Hp Hq. split.
  - intros (a' & -> & _ & H1)%VerifyChallenge_Ok (a'' & [= <-] & _ & H2)%VerifyChallenge_Ok.
    apply challengeValue_candidate in H1, H2; [|done..]. congruence.
  - intros c data client sig Hc. apply VerifyChallenge_Ok. eexists. split; [done|].
    split; [by intros ->|done].
Qed.

(** ** Parsing *)
Section webauthn_theorems.
Context `{SDK} `{WebAuthnJSON}.

Definition webauthnSentinels : list sentinel :=
  [ErrWebAuthnMalformedJSON; ErrWebAuthnMissingField; ErrWebAuthnMalformedField;
   ErrWebAuthnTruncatedAuthenticatorData].

(** A step that refuses with one of the parser's sentinels only. *)
Definition classified {A} (m : result A) : Prop :=
  ∀ e, m = Err e → ∃ s, s ∈ webauthnSentinels ∧ errors_Is e s = true.

Lemma classified_bind {A B} (m : result A) (k : A → result B) :
  classified m → (∀ x, m = Ok x → classified (k x)) → classified (x ← m; k x).
Proof. intros Hm Hk e. destruct m as [a|e']; cbn; [by apply Hk|]. intros [= <-]. by apply Hm. Qed.

Lemma classified_sentinel {A} s p : s ∈ webauthnSentinels → classified (Err (EWrap p (ESentinel s)) : result A).
Proof. intros Hs e [= <-]. exists s. split; [done|]. cbn. by rewrite bool_decide_eq_true_2. Qed.

Lemma classified_refuse b s p : s ∈ webauthnSentinels → classified (refuse b (EWrap p (ESentinel s))).
Proof. intros Hs. destruct b; [by apply classified_sentinel|by intros ?]. Qed.

Lemma classified_option {A} (o : option A) s p :
  s ∈ webauthnSentinels → classified (of_option o (EWrap p (ESentinel s))).
Proof. intros Hs. destruct o; [by intros ?|by apply classified_sentinel]. Qed.

Lemma classified_field v f : classified (decodeAssertionField v f).
Proof.
  unfold decodeAssertionField. destruct (String.eqb v ""); [by intros ?|].
  apply classified_option. repeat constructor.
Qed.

Lemma classified_missing (b : bool) f :
  classified (if b then missingFieldError f else Ok tt : result unit).
Proof. destruct b; [apply classified_sentinel; repeat constructor|by intros ?]. Qed.

Lemma missing_Ok (b : bool) f u : (if b then missingFieldError f else Ok tt : result unit) = Ok u → b = false.
Proof. by destruct b. Qed.

(** The parser fails closed: every refusal is one of its four documented
    errors, and a parsed assertion has at least 37 bytes of authenticator data
    (so its flags byte exists), non-empty client data and signature, and the
    decodable challenge its own client data states. *)
Theorem ParseWebAuthnAssertion_classified input :
  match ParseWebAuthnAssertion input with
  | Ok a =>
      authDataMinLen ≤ length (AuthenticatorData a) ∧
      (AuthenticatorData a !! 32) = Some (Flags (Some a)) ∧
      ClientDataJSON a ≠ [] ∧ Assertion_Signature a ≠ [] ∧
      ∃ fields, json_UnmarshalClientData (ClientDataJSON a) = Some fields ∧
        ChallengeString a = clientData_Challenge fields ∧ ChallengeString a ≠ "" ∧
        isDecodableChallenge (ChallengeString a) = true
  | Err e => ∃ s, s ∈ webauthnSentinels ∧ errors_Is e s = true
  end.
Proof.
  destruct (ParseWebAuthnAssertion input) as [a|e] eqn:Hp; unfold ParseWebAuthnAssertion in Hp; cbv zeta in Hp.
  - apply bind_Ok in Hp as ([] & _ & (cred & _ & ([] & _ & Hp)%bind_Ok)%bind_Ok).
    apply bind_Ok in Hp as (auth & _ & ([] & _ & ([] & Hlen & Hp)%bind_Ok)%bind_Ok).
    apply refuse_Ok, Nat.ltb_ge in Hlen.
    apply bind_Ok in Hp as (client & _ & ([] & Hclient & Hp)%bind_Ok).
    apply bind_Ok in Hp as (sig & _ & ([] & Hsig & Hp)%bind_Ok).
    apply bind_Ok in Hp as (fields & Hf & ([] & Hne & ([] & Hdec & [= <-])%bind_Ok)%bind_Ok).
    apply of_option_Ok in Hf. apply missing_Ok in Hclient, Hsig, Hne. apply refuse_Ok in Hdec.
    cbn [AuthenticatorData ClientDataJSON Assertion_Signature ChallengeString].
    split; [done|]. split.
    { unfold Flags. cbn [AuthenticatorData]. unfold authDataMinLen in Hlen.
      destruct (Nat.leb_spec (length auth) 32); [lia|].
      destruct (lookup_lt_is_Some_2 auth 32) as [b ->]; [lia|done]. }
    split; [by intros ->|]. split; [by intros ->|]. exists fields. split; [done|]. split; [done|].
    split; [by intros Hz; rewrite Hz in Hne|]. by apply negb_false_iff in Hdec.
  - revert e Hp. change (classified (ParseWebAuthnAssertion input)).
    unfold ParseWebAuthnAssertion. cbv zeta.
    repeat (apply classified_bind;
      [first [apply classified_refuse|apply classified_option|apply classified_field
             |apply classified_missing]; repeat constructor|intros ? _]).
    by intros ?.
Qed.

(** ** The signer *)
Context `{ECDSA} `{!ECDSALaws}.

Lemma assertionFlagsCheck_Ok cfg a u :
  assertionFlagsCheck cfg a = Ok u →
  (requireUserPresence cfg = true → Z.testbit (byteZ (Flags a)) 0 = true) ∧
  (requireUserVerification cfg = true → Z.testbit (byteZ (Flags a)) 2 = true).
Proof.
  unfold assertionFlagsCheck.
  rewrite (testbit_land_pow2 _ 0), (testbit_land_pow2 _ 2) by done.
  change (2 ^ 0)%Z with flagUserPresent. change (2 ^ 2)%Z with flagUserVerified.
  destruct (requireUserPresence cfg), (requireUserVerification cfg); cbn [orb]; intros Hc; try done.
  all: apply bind_Ok in Hc as ([] & Hu%refuse_Ok & Hv%refuse_Ok); cbn [andb] in *;
    split; intros; try done; by rewrite ?Hu, ?Hv.
Qed.

(** C19. A passkey signer built on an assertion never returns an unverified
    signature: an answer for a 32-byte payload means the assertion's challenge
    is that payload's and no other's, the required flags are set in the
    authenticator data, the DER signature verifies under the credential's key
    over the authenticator data and the hash of the client data, and the value
    returned holds that key and the same signature in its low-S form, which
    verifies too. *)
Theorem PasskeyAssertionSigner_sound address publicKey assertion opts ctx pre payload w v w' :
  signer_Sign (NewPasskeySignerFromAssertion address publicKey assertion opts) ctx pre payload w
    = (Ok v, w') → length payload = 32 →
  let cfg := passkeyConfig opts in
  ∃ a x y r s, assertion = Some a ∧ publicKey = Some (mkPublicKey true (Some x) (Some y)) ∧
    IsOnCurve x y = true ∧
    (∀ q, length q = 32 → VerifyChallenge assertion q = Ok tt ↔ q = payload) ∧
    (requireUserPresence cfg = true → Z.testbit (byteZ (Flags assertion)) 0 = true) ∧
    (requireUserVerification cfg = true → Z.testbit (byteZ (Flags assertion)) 2 = true) ∧
    ParseDERECDSASignature (Assertion_Signature a) = Ok (r, s) ∧
    let digest := sha256_Sum256 (AuthenticatorData a ++ sha256_Sum256 (ClientDataJSON a)) in
    let low := normalizeP256LowS s P256_N in
    ecdsa_Verify x y digest r s = true ∧ ecdsa_Verify x y digest r low = true ∧
    (0 < low <= Z.shiftr P256_N 1)%Z ∧
    v = ScvMap (Some (Some
      [(scSymbol "public_key", scBytes (elliptic_Marshal x y));
       (scSymbol "signature", scBytes (marshalSecp256r1Signature r low))])).
Proof.
  intros Hs Hlen cfg. cbn [signer_Sign NewPasskeySignerFromAssertion] in Hs.
  apply io_bind_Ok in Hs as ([] & w0 & _ & [Hs _]%lift_Ok). fold cfg in Hs.
  unfold passkeyAssertionSigner_Sign in Hs.
  apply bind_Ok in Hs as (a & Ha & ([] & Hkey%refuse_Ok & ([] & Hflags & Hs)%bind_Ok)%bind_Ok).
  destruct assertion as [a'|]; [|discriminate Ha]. destruct publicKey as [[curve ox oy]|]; [|discriminate Ha].
  injection Ha as ->. apply negb_false_iff in Hkey.
  destruct curve, ox as [x|], oy as [y|]; try discriminate Hkey. cbn in Hkey.
  apply bind_Ok in Hs as ([] & Hch & ([r s] & Hder & ([] & Hver%refuse_Ok & Hval)%bind_Ok)%bind_Ok).
  destruct (VerifyChallenge (Some a) payload) as [[]|] eqn:Hbind; [|discriminate Hch].
  destruct (ParseDERECDSASignature (Assertion_Signature a)) as [rs|] eqn:Hparse; [|discriminate Hder].
  injection Hder as ->. apply negb_false_iff in Hver. cbn in Hver.
  apply assertionFlagsCheck_Ok in Hflags as [Hup Huv].
  pose proof Hparse as (Hr & Hsr & _)%ParseDERECDSASignature_Ok.
  pose proof (normalizeP256LowS_spec s Hsr) as [Hlow _].
  pose proof (verifyKey_low_S (Some (mkPublicKey true (Some x) (Some y)))
    (sha256_Sum256 (AuthenticatorData a ++ sha256_Sum256 (ClientDataJSON a))) r s Hsr) as Hlowv.
  cbn in Hlowv. rewrite Hver in Hlowv.
  exists a, x, y, r, s. split; [done|]. split; [done|]. split; [done|]. split; [|split; [done|]].
  { intros q Hq. split; [|by intros ->].
    apply VerifyChallenge_Ok in Hbind as (a1 & [= <-] & _ & Hc1).
    intros (a2 & [= <-] & _ & Hc2)%VerifyChallenge_Ok.
    apply challengeValue_candidate in Hc1, Hc2; [|done..]. congruence. }
  split; [done|]. split; [done|]. cbv zeta. split; [done|]. split; [done|]. split; [done|].
  apply wrap_Ok in Hval. unfold Secp256r1SignatureScVal in Hval.
  apply bind_Ok in Hval as ([] & _ & (_ & _ & Hval)%bind_Ok). by injection Hval as <-.
Qed.
End webauthn_theorems.

(** ** A concrete assertion *)
Definition ex_challenge : string := EncodeToString RawURLEncoding ex_digest.
Definition ex_client_data : bytes :=
  bytes_of_string ("{" +:+ quoted "challenge" +:+ ":" +:+ quoted ex_challenge +:+ "}").
(** Flags 0x05: user present and verified. *)
Definition ex_auth_data : bytes := replicate 32 x11 ++ [x05; x00; x00; x00; x07].
Definition ex_assertion_digest : bytes :=
  sha256_Sum256 (ex_auth_data ++ sha256_Sum256 ex_client_data).
Definition ex_assertion : WebAuthnAssertion :=
  mkAssertion ex_auth_data ex_client_data
    (der_field x30 (der_scalar (model_r P256_Gx ex_assertion_digest) ++ der_scalar (P256_N - 1)))
    ex_challenge.

Definition ex_assertion_text : bytes := bytes_of_string "the assertion of the example".

(** A JSON decoder that knows the two texts of the example. *)
#[export] Instance ModelWebAuthnJSON : WebAuthnJSON := {|
  json_UnmarshalAssertion input :=
    if bytes_Equal input ex_assertion_text then
      Some (mkAssertionJSON "public-key" (EncodeToString RawURLEncoding ex_client_data)
              (EncodeToString URLEncoding ex_auth_data)
              (EncodeToString StdEncoding (Assertion_Signature ex_assertion)))
    else None;
  json_UnmarshalClientData input :=
    if bytes_Equal input ex_client_data then Some (mkClientData "webauthn.get" ex_challenge "") else None
|}.

Example ex_assertion_parsed : ParseWebAuthnAssertion ex_assertion_text = Ok ex_assertion.
Proof. vm_compute. reflexivity. Qed.

(** A hexadecimal challenge that is base64url too: decoding first would read
    other bytes. *)
Example ex_challenge_hex :
  length (default [] (DecodeString RawURLEncoding (hex_EncodeToString ex_digest))) = 48 ∧
  VerifyChallenge (Some (mkAssertion [] [] [] (hex_EncodeToString ex_digest))) ex_digest = Ok tt.
Proof. split; vm_compute; reflexivity. Qed.

Lemma VerifyChallenge_binds_witness :
  length ex_digest = 32 ∧ VerifyChallenge (Some ex_assertion) ex_digest = Ok tt ∧
  (VerifyChallenge (Some ex_assertion) (replicate 32 x2b) = Ok tt → ex_digest = replicate 32 x2b).
Proof.
  split; [reflexivity|]. split; [vm_compute; reflexivity|].
  apply (VerifyChallenge_binds (Some ex_assertion)); [reflexivity|reflexivity|vm_compute; reflexivity].
Defined.

Definition ex_passkey_signer : Signer :=
  NewPasskeySignerFromAssertion (ex_contract_text "w") (Some ex_p256_public) (Some ex_assertion)
    [Some (RequireUserPresence true); None; Some (RequireUserVerification true)].
Definition ex_passkey_value : ScVal :=
  match signer_Sign ex_passkey_signer Background (mkHashIdPreimage 0 None None) ex_digest initial_world with
  | (Ok v, _) => v | _ => ScvVoid end.

Lemma PasskeyAssertionSigner_sound_witness : ex_passkey_value ≠ ScvVoid ∧
  ∃ a x y r s, Some ex_assertion = Some a ∧
    Some ex_p256_public = Some (mkPublicKey true (Some x) (Some y)) ∧
    IsOnCurve x y = true ∧
    (∀ q, length q = 32 → VerifyChallenge (Some ex_assertion) q = Ok tt ↔ q = ex_digest) ∧
    (true = true → Z.testbit (byteZ (Flags (Some ex_assertion))) 0 = true) ∧
    (true = true → Z.testbit (byteZ (Flags (Some ex_assertion))) 2 = true) ∧
    ParseDERECDSASignature (Assertion_Signature a) = Ok (r, s) ∧
    let digest := sha256_Sum256 (AuthenticatorData a ++ sha256_Sum256 (ClientDataJSON a)) in
    let low := normalizeP256LowS s P256_N in
    ecdsa_Verify x y digest r s = true ∧ ecdsa_Verify x y digest r low = true ∧
    (0 < low <= Z.shiftr P256_N 1)%Z ∧
    ex_passkey_value = ScvMap (Some (Some
      [(scSymbol "public_key", scBytes (elliptic_Marshal x y));
       (scSymbol "signature", scBytes (marshalSecp256r1Signature r low))])).
Proof.
  split; [vm_compute; discriminate|].
  apply (PasskeyAssertionSigner_sound (ex_contract_text "w") (Some ex_p256_public) (Some ex_assertion)
    [Some (RequireUserPresence true); None; Some (RequireUserVerification true)] Background
    (mkHashIdPreimage 0 None None) ex_digest initial_world ex_passkey_value (tick initial_world));
    [vm_compute; reflexivity|reflexivity].
Defined.
