(* ===== verification/Possession.v ===== *)
(** * Possession: does a signer control its address (possession.go)

    [CheckPossession] asks a signer for a signature over a payload that cannot
    be an authorization and verifies the answer against the address the signer
    claims.  [CheckPossession_verdict] says when a signer passes, and what an
    entry would have to be for the answer to authorize it. *)
From Stdlib Require Import ZArith Lia Strings.Byte String.
From stdpp Require Import base list strings pretty.
From S2P Require Import Prelude Errors Xdr ModelSDK Runtime Examples Address Signers Limits Arm Preimage.
From S2P Require Import Verify.

Open Scope string_scope. Open Scope nat_scope. Open Scope list_scope.

Definition possessionNetworkPassphrase : string :=
  "soroauth possession check - this is not a network".
Definition possessionFunction : string := "soroauth_possession_check".

Record PossessionReport := mkPossessionReport {
  Possession_Address : string;
  Possession_Verdict : VerifyVerdict;
  Possession_Reason : string
}.

Definition Passed (r : PossessionReport) : bool :=
  bool_decide (Possession_Verdict r = VerdictVerified).

Record possessionConfig := mkPossessionConfig { foreignKeys : bool }.
Definition PossessionOption : Type := possessionConfig → possessionConfig.
Definition AllowAccountSigningKeys : PossessionOption := λ _, mkPossessionConfig true.

(** Options may be nil; nil ones are skipped. *)
Definition possessionOptions (opts : list (option PossessionOption)) : possessionConfig :=
  foldl (λ cfg o, match o with Some o => o cfg | None => cfg end) (mkPossessionConfig false) opts.

Section possession.
Context `{SDK}.
Variable rand_Read : nat → IO bytes.

(** The preimage for a nonce. *)
Definition possessionPreimageOf (nonce : Z) : HashIdPreimage :=
  mkHashIdPreimage EnvelopeTypeSorobanAuthorization
    (Some (mkSorobanAuthorization (network_ID possessionNetworkPassphrase) nonce 0
       (mkInvocation (FunctionContractFn (Some (mkInvokeContractArgs
          (ScAddressTypeContract (Some (replicate 32 x00))) possessionFunction []))) []))) None.

Definition possessionPreimage : IO (HashIdPreimage * bytes) :=
  nonceBytes ← io_wrap "reading a nonce" (rand_Read 8);
  let preimage := possessionPreimageOf (wrap_i64 (be_value nonceBytes)) in
  payload ← lift (Payload preimage);
  mret (preimage, payload).

(** The scan over the vector: the index and reason of the first element that
    stops it, or whether the account's own key was among them. *)
Fixpoint scanPossession (rawKey payload : bytes) (i : nat) (ownKey : bool) (elements : list ScVal)
    : (VerifyVerdict * string) + bool :=
  match elements with
  | [] => inr ownKey
  | element :: rest =>
      match parseAccountSignature (scVec [element]) with
      | Err e => inl (VerdictCannotCheck, shapeNote +:+ " (" +:+ Error e +:+ ")")
      | Ok (publicKey, rawSignature) =>
          if negb (ed25519_Verify publicKey payload rawSignature) then
            inl (VerdictInvalid, "signature " +:+ pretty i +:+ " does not verify over the payload: " +:+
                                 "the signer does not control the key it presents")
          else scanPossession rawKey payload (S i) (ownKey || bytes_Equal publicKey rawKey) rest
      end
  end.

Definition verifyAccountPossession (signature : ScVal) (payload : bytes) (address : string)
    (cfg : possessionConfig) : VerifyVerdict * string :=
  match rawEd25519Key address with
  | Err e => (VerdictInvalid, Error e)
  | Ok rawKey =>
      if negb (isSigned signature) then
        (VerdictInvalid, "the signer returned no signature (Void or an empty vector)")
      else
        match signature with
        | ScvVec (Some (Some ((_ :: _) as elements))) =>
            match scanPossession rawKey payload 0 false elements with
            | inl stopped => stopped
            | inr true => (VerdictVerified, "")
            | inr false =>
                if foreignKeys cfg then
                  (VerdictCannotCheck, "the signatures verify, but are made by keys other than " +:+
                     "the account's own; whether those keys are signers of the account is on-chain state")
                else
                  (VerdictInvalid, "the signatures verify, but not under the key of " +:+ address +:+
                     ": the signer's key does not match its configured address (pass " +:+
                     "AllowAccountSigningKeys for an account signed by other keys)")
            end
        | _ => (VerdictCannotCheck, shapeNote)
        end
  end.

(** A nil signer is [None], a nil pointer in a non-nil interface too. *)
Definition CheckPossession (ctx : Ctx) (signer : option Signer) (opts : list (option PossessionOption))
    : IO PossessionReport :=
  let op := "soroauth: check possession" in
  let cfg := possessionOptions opts in
  signer ← lift (of_option signer (EWrap op (ESentinel ErrMissingSigner)));
  let address := signer_Address signer in
  scAddress ← lift (wrap op (ParseAddress address));
  '(preimage, payload) ← io_wrap op possessionPreimage;
  signature ← io_wrap (op +:+ ": " +:+ address) (call_Sign signer ctx preimage payload);
  match scAddress with
  | ScAddressTypeAccount _ =>
      let '(verdict, reason) := verifyAccountPossession signature payload address cfg in
      mret (mkPossessionReport address verdict reason)
  | _ => mret (mkPossessionReport address VerdictCannotCheck contractAccountNote)
  end.

(** ** When a signer passes *)
(** A vector of account signatures that all verify over the payload, the given
    key among those that made them. *)
Definition provesKey (rawKey payload : bytes) (signature : ScVal) : Prop :=
  ∃ elements keys, signature = ScvVec (Some (Some elements)) ∧
    Forall2 (λ el k, ∃ sig, parseAccountSignature (scVec [el]) = Ok (k, sig) ∧
      ed25519_Verify k payload sig = true) elements keys ∧ rawKey ∈ keys.

Lemma elem_of_consb (a k : bytes) l :
  bool_decide (a ∈ k :: l) = bool_decide (k = a) || bool_decide (a ∈ l).
Proof.
  apply eq_true_iff_eq. rewrite orb_true_iff, !bool_decide_eq_true, elem_of_cons. naive_solver.
Qed.

Lemma scanPossession_own rawKey payload i own elements b :
  scanPossession rawKey payload i own elements = inr b ↔
  ∃ keys, Forall2 (λ el k, ∃ sig, parseAccountSignature (scVec [el]) = Ok (k, sig) ∧
      ed25519_Verify k payload sig = true) elements keys ∧ b = own || bool_decide (rawKey ∈ keys).
Proof.
  revert i own. induction elements as [|el elements IH]; intros i own; cbn [scanPossession].
  - split.
    + intros [= <-]. exists []. split; [constructor|]. by rewrite orb_false_r.
    + intros (keys & Hk & ->). inversion Hk; subst. by rewrite orb_false_r.
  - destruct (parseAccountSignature (scVec [el])) as [[pk sig]|e] eqn:Hp.
    2:{ split; [discriminate|]. intros (keys & Hk & _). inversion Hk as [|? ? ? ? (? & ? & _)]; congruence. }
    destruct (ed25519_Verify pk payload sig) eqn:Hv; cbn [negb].
    2:{ split; [discriminate|]. intros (keys & Hk & _).
        inversion Hk as [|? ? ? ? (? & ? & ?)]; subst. congruence. }
    rewrite IH. unfold bytes_Equal. split.
    + intros (keys & Hk & ->). exists (pk :: keys). split; [constructor; eauto|].
      by rewrite <-orb_assoc, elem_of_consb.
    + intros (keys & Hk & ->). inversion Hk as [|? k ? keys' (sig' & Hp' & _) Hk']; subst.
      rewrite Hp in Hp'. injection Hp' as <- <-. exists keys'. split; [done|].
      by rewrite <-orb_assoc, elem_of_consb.
Qed.

Lemma scanPossession_stop rawKey payload i own elements v why :
  scanPossession rawKey payload i own elements = inl (v, why) → v ≠ VerdictVerified.
Proof.
  revert i own. induction elements as [|el elements IH]; intros i own; cbn [scanPossession]; [discriminate|].
  destruct (parseAccountSignature (scVec [el])) as [[pk sig]|e]; [|by intros [= <- _]].
  destruct (negb (ed25519_Verify pk payload sig)); [by intros [= <- _]|apply IH].
Qed.

Lemma verifyAccountPossession_spec signature payload address cfg rawKey :
  rawEd25519Key address = Ok rawKey →
  (verifyAccountPossession signature payload address cfg).1 = VerdictVerified ↔
  provesKey rawKey payload signature.
Proof.
  unfold verifyAccountPossession, provesKey. intros ->.
  destruct signature as [| | | | | | | | | | | | | | | |[[els|]|]| | | | | | |];
    try (cbn; split; [discriminate|intros (? & ? & [=] & _)]).
  destruct els as [|el els].
  { cbn. split; [discriminate|]. intros (els & keys & [= <-] & Hk & Hin). inversion Hk; subst.
    by apply not_elem_of_nil in Hin. }
  cbn [isSigned length Nat.ltb Nat.leb negb].
  destruct (scanPossession rawKey payload 0 false (el :: els)) as [[v why]|[]] eqn:Hs.
  - split.
    + cbn. intros ->. by apply scanPossession_stop in Hs.
    + intros (els' & keys & [= <-] & Hk & Hin). exfalso.
      assert (scanPossession rawKey payload 0 false (el :: els) = inr true) as E; [|congruence].
      apply scanPossession_own. exists keys. split; [done|]. by rewrite bool_decide_eq_true_2.
  - split; [|done]. intros _. apply scanPossession_own in Hs as (keys & Hk & Hb).
    exists (el :: els), keys. split; [done|]. split; [done|]. cbn in Hb. symmetry in Hb. by apply bool_decide_eq_true_1 in Hb.
  - split; [cbn; by destruct (foreignKeys cfg)|]. intros (els' & keys & [= <-] & Hk & Hin). exfalso.
    assert (scanPossession rawKey payload 0 false (el :: els) = inr true) as E; [|congruence].
    apply scanPossession_own. exists keys. split; [done|]. by rewrite bool_decide_eq_true_2.
Qed.

Context `{!SDKLaws}.

Lemma ParseAddress_raw address key :
  ParseAddress address = Ok (ScAddressTypeAccount (Some (mkAccountId 0 (Some key)))) →
  rawEd25519Key address = Ok key.
Proof.
  intros (k & _ & [[Hd [= ->]]|[_ [=]]])%ParseAddress_Ok. unfold rawEd25519Key.
  apply strkey_Decode_Any in Hd. by rewrite Hd.
Qed.

(** An entry with the preimage of a check is of the legacy arm, on a network
    with the id of the check's passphrase, expired since ledger 0, and invokes
    the check's function of the zero contract. *)
Definition replayable (nonce : Z) (e : SorobanAuthorizationEntry) (v : Z) (passphrase : string) : Prop :=
  network_ID passphrase = network_ID "soroauth possession check - this is not a network" ∧ v = 0%Z ∧
  (∃ a, Credentials_Type (Credentials e) = CredentialsAddress ∧
     addressCredentials (Credentials e) = Ok a ∧ Nonce a = nonce) ∧
  RootInvocation e = mkInvocation (FunctionContractFn (Some (mkInvokeContractArgs
    (ScAddressTypeContract (Some (replicate 32 x00))) "soroauth_possession_check" []))) [].

Lemma possessionPreimage_entry nonce e v passphrase :
  Preimage e v passphrase = Ok (possessionPreimageOf nonce) → replayable nonce e v passphrase.
Proof.
  intros (_ & c & Hs & Hp)%Preimage_Ok. unfold signed_content in Hs.
  destruct (addressCredentials (Credentials e)) as [a|] eqn:Ha; [|done]. injection Hs as <-.
  unfold possessionPreimageOf in Hp.
  destruct (address_bound (Credentials e)) eqn:Hb; cbn in Hp; [discriminate Hp|].
  injection Hp as Hnet Hn Hv Hi. split; [by symmetry|]. split; [by symmetry|].
  split; [|by symmetry]. exists a. split; [|done]. apply addressCredentials_Ok in Ha.
  unfold address_bound in Hb. destruct Ha as [[Ht _]|[[Ht _]|[Ht _]]]; rewrite Ht in Hb |- *; done.
Qed.

(** C23. A signer passes exactly when it proves its key: the report of a check
    that ran is about the signer's address, the signer was asked once, over the
    payload of a fresh possession preimage, and the verdict is verified if and
    only if the address is an account's and the answer is a vector of account
    signatures that all verify over that payload with the account's own key
    among those that made them.  An answer from other keys, a contract address
    or a shape the library does not define never passes, whatever the options.
    An entry for which that payload is the one to sign is of the legacy arm,
    for the network of the check's own passphrase, at expiration 0, which
    [AuthorizeEntry] refuses, and invokes only the check's function of the zero
    contract. *)
Theorem CheckPossession_verdict ctx signer opts w report w' :
  CheckPossession ctx signer opts w = (Ok report, w') →
  ∃ s a nonce payload w1 w2 sig, signer = Some s ∧ ParseAddress (signer_Address s) = Ok a ∧
    Payload (possessionPreimageOf nonce) = Ok payload ∧
    rand_Read 8 w = (Ok w1, w2) ∧ nonce = wrap_i64 (be_value w1) ∧
    call_Sign s ctx (possessionPreimageOf nonce) payload w2 = (Ok sig, w') ∧
    Possession_Address report = signer_Address s ∧
    (Passed report = true ↔ ∃ key,
       a = ScAddressTypeAccount (Some (mkAccountId 0 (Some key))) ∧ provesKey key payload sig) ∧
    (∀ e v passphrase, Preimage e v passphrase = Ok (possessionPreimageOf nonce) →
       replayable nonce e v passphrase).
Proof.
  unfold CheckPossession. cbv zeta. intros Hc.
  apply io_bind_Ok in Hc as (s & w0 & [Hs%of_option_Ok ->]%lift_Ok & Hc).
  apply io_bind_Ok in Hc as (a & w0 & [Ha%wrap_Ok ->]%lift_Ok & Hc).
  apply io_bind_Ok in Hc as ([pre payload] & w2 & Hpre%io_wrap_Ok & Hc).
  apply io_bind_Ok in Hc as (sig & w3 & Hsig%io_wrap_Ok & Hc).
  unfold possessionPreimage in Hpre.
  apply io_bind_Ok in Hpre as (buf & w1 & Hbuf%io_wrap_Ok & Hpre).
  apply io_bind_Ok in Hpre as (pl & w4 & [Hpl ->]%lift_Ok & Hpre). injection Hpre as <- <- <-.
  exists s, a, (wrap_i64 (be_value buf)), pl, buf, w1, sig.
  split; [done|]. split; [done|]. split; [done|]. split; [done|]. split; [done|].
  pose proof Ha as Hacc. apply ParseAddress_Ok in Hacc as (k & _ & [[_ ->]|[_ ->]]).
  - pose proof (ParseAddress_raw _ _ Ha) as Hraw.
    pose proof (verifyAccountPossession_spec sig pl (signer_Address s) (possessionOptions opts) k Hraw) as Hspec.
    destruct (verifyAccountPossession sig pl (signer_Address s) (possessionOptions opts)) as [v why].
    injection Hc as <- <-. split; [done|]. split; [done|]. cbn in Hspec |- *.
    split; [|intros; by apply possessionPreimage_entry].
    unfold Passed. cbn. rewrite bool_decide_eq_true, Hspec. naive_solver.
  - injection Hc as <- <-. split; [done|]. split; [done|].
    split; [|intros; by apply possessionPreimage_entry]. cbn. naive_solver.
Qed.

End possession.

(** ** Concrete signers *)
Definition ex_possession_rand (n : nat) : IO bytes := mret (replicate n xff).

(** A signer whose signatures have the length an account's have and verify. *)
Definition ex_prover (claimed key : Byte.byte) : Signer :=
  NewEd25519Signer (Some (mkKeypair (ex_text claimed) (λ m, Ok (m ++ ex_key key))
    (λ _ _, Ok tt))).

Definition ex_possession (s : Signer) : PossessionReport :=
  match CheckPossession ex_possession_rand Background (Some s) [] initial_world with
  | (Ok r, _) => r | _ => mkPossessionReport "" VerdictUnsigned "" end.

Example ex_possession_right : Passed (ex_possession (ex_prover "a" "a")) = true.
Proof. vm_compute. reflexivity. Qed.
Example ex_possession_wrong : Possession_Verdict (ex_possession (ex_prover "a" "b")) = VerdictInvalid.
Proof. vm_compute. reflexivity. Qed.

Lemma CheckPossession_verdict_witness : Passed (ex_possession (ex_prover "a" "a")) = true ∧
  ∃ s a nonce payload w1 w2 sig, Some (ex_prover "a" "a") = Some s ∧
    ParseAddress (signer_Address s) = Ok a ∧
    Payload (possessionPreimageOf nonce) = Ok payload ∧
    ex_possession_rand 8 initial_world = (Ok w1, w2) ∧ nonce = wrap_i64 (be_value w1) ∧
    call_Sign s Background (possessionPreimageOf nonce) payload w2 =
      (Ok sig, (CheckPossession ex_possession_rand Background (Some (ex_prover "a" "a")) [] initial_world).2) ∧
    Possession_Address (ex_possession (ex_prover "a" "a")) = signer_Address s ∧
    (Passed (ex_possession (ex_prover "a" "a")) = true ↔ ∃ key,
       a = ScAddressTypeAccount (Some (mkAccountId 0 (Some key))) ∧ provesKey key payload sig) ∧
    (∀ e v passphrase, Preimage e v passphrase = Ok (possessionPreimageOf nonce) →
       replayable nonce e v passphrase).
Proof.
  split; [vm_compute; reflexivity|].
  apply (CheckPossession_verdict ex_possession_rand Background (Some (ex_prover "a" "a")) []
    initial_world (ex_possession (ex_prover "a" "a"))). vm_compute. reflexivity.
Defined.
