(* ===== verification/Attestation.v ===== *)
(** * Attestation: passkey registrations (attestation.go)

    [VerifyAttestation] decides whether a new passkey's public key is trusted
    and how far.  It ties the client data to the ceremony, reads the
    authenticator data, and verifies the "none" and "packed" statements.
    [VerifyAttestation_sound] lists what a result was checked against at each
    level of trust; [parseRegistrationAuthData_layout] shows the authenticator
    data to be read byte for byte.

    Certificates, chain verification and [ecdsa.VerifyASN1] are the class
    [X509]; of their errors only the fact is kept. *)
From Stdlib Require Import ZArith Lia Strings.Byte String Ascii.
From stdpp Require Import base list strings pretty.
From S2P Require Import Prelude Encoding Errors Xdr ModelSDK Runtime Examples Signers Cbor Secp256r1 WebAuthn.

Open Scope string_scope. Open Scope nat_scope. Open Scope list_scope.

(** ** Requests and results *)
Definition AttestationFormatNone : string := "none".
Definition AttestationFormatPacked : string := "packed".

Inductive AttestationTrust :=
| AttestationTrustNone
| AttestationTrustSelf
| AttestationTrustUnrooted
| AttestationTrustRooted.

#[export] Instance AttestationTrust_eq_dec : EqDecision AttestationTrust.
Proof. solve_decision. Defined.

Record Extension := mkExtension { Ext_Id : list Z; Critical : bool; Value : bytes }.

(** The members of [*x509.Certificate] that are read; the public key is [None]
    when it is not an ECDSA key. *)
Record Certificate := mkCertificate {
  Version : Z;
  Subject_Country : list string;
  Subject_Organization : list string;
  Subject_OrganizationalUnit : list string;
  Subject_CommonName : string;
  BasicConstraintsValid : bool;
  IsCA : bool;
  Extensions : list Extension;
  Cert_PublicKey : option PublicKey
}.

(** crypto/x509 and [ecdsa.VerifyASN1]. *)
Class X509 := {
  CertPool : Type;
  x509_ParseCertificate : bytes → option Certificate;
  (* the leaf, the roots, the intermediates and the time *)
  Certificate_Verify : Certificate → CertPool → list Certificate → Z → bool;
  ecdsa_VerifyASN1 : PublicKey → bytes → bytes → bool
}.

Record AttestationRequest `{X509} := mkAttestationRequest {
  AttestationObject : bytes;
  Request_ClientDataJSON : bytes;
  RPID : string;
  Origin : string;
  Challenge : bytes;
  Request_RequireUserVerification : bool;
  TrustRoots : option CertPool;
  Now : option Z                       (* [None] is the zero time *)
}.

Record AttestationResult := mkAttestationResult {
  Format : string;
  Trust : AttestationTrust;
  AAGUID : bytes;
  AAGUIDAuthenticated : bool;
  HardwareBacked : bool;
  CredentialID : bytes;
  Result_PublicKey : option PublicKey;
  PublicKeySEC1 : bytes;
  SignCount : Z;
  Result_UserPresent : bool;
  Result_UserVerified : bool;
  BackupEligible : bool;
  BackedUp : bool;
  Proven : list string;
  Asserted : list string
}.

Definition flagUP : Z := 1.
Definition flagUV : Z := 4.
Definition flagBE : Z := 8.
Definition flagBS : Z := 16.
Definition flagAT : Z := 64.
Definition flagED : Z := 128.
Definition coseAlgES256 : Z := -7.
Definition coseKtyEC2 : Z := 2.
Definition coseCrvP256 : Z := 1.
Definition maxCredentialIDLength : nat := 1023.
Definition oidFIDOGenCEAAGUID : list Z := [1; 3; 6; 1; 4; 1; 45724; 1; 1; 4]%Z.

Definition op : string := "soroauth: verify attestation".

(** [fmt.Errorf("...: %w: %s", sentinel, text)] *)
Definition attestationErr {A} (s : sentinel) (text : string) : result A :=
  Err (EWrap2 op (ESentinel s) (EText text)).
Definition attestationInvalid {A} (text : string) : result A := attestationErr ErrAttestationInvalid text.
Definition attestationMalformed {A} (text : string) : result A :=
  attestationErr ErrAttestationMalformed text.
Definition attestationUnsupported {A} (text : string) : result A :=
  attestationErr ErrAttestationUnsupportedFormat text.

Definition text (s : string) : cborValue := CborText (bytes_of_string s).
Definition asText (v : option cborValue) : option string :=
  match v with Some (CborText s) => Some (string_of_bytes s) | _ => None end.
Definition asBytes (v : option cborValue) : option bytes :=
  match v with Some (CborBytes b) => Some b | _ => None end.
Definition asInt (v : option cborValue) : option Z :=
  match v with Some (CborInt n) => Some n | _ => None end.
Definition asMap (v : option cborValue) : option cborMap :=
  match v with Some (CborMap m) => Some m | _ => None end.

Definition flagSet (flags : Byte.byte) (flag : Z) : bool := negb (Z.land (byteZ flags) flag =? 0)%Z.

(** [hex.EncodeToString] cut into 8-4-4-4-12. *)
Definition formatAAGUID (a : bytes) : string :=
  let h from n := hex_EncodeToString (take n (drop from a)) in
  h 0 4 +:+ "-" +:+ h 4 2 +:+ "-" +:+ h 6 2 +:+ "-" +:+ h 8 2 +:+ "-" +:+ h 10 (length a - 10).

(** ** The parsers *)
Definition parseAttestationObject (input : bytes) : result (string * cborMap * bytes) :=
  '(value, rest) ← match decodeCBOR input with
                   | Ok r => Ok r
                   | Err e => attestationMalformed ("attestationObject: " +:+ Error e)
                   end;
  _ ← (if negb (Nat.eqb (length rest) 0) then
         attestationMalformed ("attestationObject has " +:+ pretty (length rest) +:+ " trailing bytes")
       else Ok tt);
  obj ← (match value with
         | CborMap m => Ok m
         | _ => attestationMalformed ("attestationObject is " +:+ typeText value +:+ ", not a map")
         end);
  _ ← (if negb (Nat.eqb (length obj) 3) then
         attestationMalformed ("attestationObject has " +:+ pretty (length obj) +:+
           " members, want exactly fmt, attStmt and authData")
       else Ok tt);
  format ← (match asText (get obj (text "fmt")) with
            | Some f => Ok f
            | None => attestationMalformed "attestationObject fmt is missing or not text"
            end);
  stmt ← (match asMap (get obj (text "attStmt")) with
          | Some m => Ok m
          | None => attestationMalformed "attestationObject attStmt is missing or not a map"
          end);
  authData ← (match asBytes (get obj (text "authData")) with
              | Some b => Ok b
              | None => attestationMalformed "attestationObject authData is missing or not bytes"
              end);
  Ok (format, stmt, authData).

(** The key and its SEC1 form.  The message of the unsupported case names the
    three values found; they are left out. *)
Definition parseCOSEKeyES256 (value : cborValue) : result (PublicKey * bytes) :=
  match value with
  | CborMap m =>
      let int k := asInt (get m (CborInt k)) in
      if negb (bool_decide (int 1%Z = Some coseKtyEC2) && bool_decide (int 3%Z = Some coseAlgES256) &&
               bool_decide (int (-1)%Z = Some coseCrvP256)) then
        attestationUnsupported ("credential key is not EC2/ES256/P-256; " +:+
          "only secp256r1 passkeys can be verified by a Soroban host")
      else
        match asBytes (get m (CborInt (-2))), asBytes (get m (CborInt (-3))) with
        | Some x, Some y =>
            if negb (Nat.eqb (length x) 32 && Nat.eqb (length y) 32) then
              attestationMalformed "COSE key coordinates must be two 32-byte strings"
            else if negb (IsOnCurve (be_value x) (be_value y)) then
              attestationMalformed "credential public key is not a point on P-256"
            else Ok (mkPublicKey true (Some (be_value x)) (Some (be_value y)), x04 :: x ++ y)
        | _, _ => attestationMalformed "COSE key coordinates must be two 32-byte strings"
        end
  | _ => attestationMalformed ("credential public key is " +:+ typeText value +:+ ", not a COSE_Key map")
  end.

Section attestation.
Context `{SDK} `{WebAuthnJSON} `{X509}.

Definition checkRegistrationClientData (req : AttestationRequest) : result unit :=
  cd ← (match json_UnmarshalClientData (Request_ClientDataJSON req) with
        | Some cd => Ok cd
        | None => attestationMalformed "clientDataJSON is not valid JSON"
        end);
  _ ← (if negb (String.eqb (clientData_Type cd) "webauthn.create") then
         attestationInvalid ("clientDataJSON type is " +:+ quoted (clientData_Type cd) +:+
           ", want " +:+ quoted "webauthn.create" +:+ " (§7.1 step 8)")
       else Ok tt);
  challenge ← (match decodeBase64Loose (clientData_Challenge cd) with
               | Some c => Ok c
               | None => attestationMalformed "clientDataJSON challenge is not base64url"
               end);
  _ ← (if negb (bytes_Equal challenge (Challenge req)) then
         attestationInvalid "clientDataJSON challenge does not match the one issued (§7.1 step 9)"
       else Ok tt);
  if negb (String.eqb (clientData_Origin cd) (Origin req)) then
    attestationInvalid ("clientDataJSON origin is " +:+ quoted (clientData_Origin cd) +:+ ", want " +:+
      quoted (Origin req) +:+ " (§7.1 step 10)")
  else Ok tt.

Definition parseRegistrationAuthData (authData : bytes) (req : AttestationRequest)
    : result AttestationResult :=
  _ ← (if Nat.ltb (length authData) 37 then
         attestationMalformed ("authData is " +:+ pretty (length authData) +:+
           " bytes, shorter than the 37-byte prefix")
       else Ok tt);
  _ ← (if negb (bytes_Equal (take 32 authData) (sha256_Sum256 (bytes_of_string (RPID req)))) then
         attestationInvalid ("authData rpIdHash does not match the SHA-256 of RP ID " +:+
           quoted (RPID req) +:+ " (§7.1 step 13)")
       else Ok tt);
  let flags := default x00 (authData !! 32) in
  _ ← (if negb (flagSet flags flagUP) then
         attestationInvalid "user presence flag is not set (§7.1 step 14)"
       else Ok tt);
  _ ← (if Request_RequireUserVerification req && negb (flagSet flags flagUV) then
         attestationInvalid "user verification flag is not set and verification was required (§7.1 step 15)"
       else Ok tt);
  _ ← (if negb (flagSet flags flagAT) then
         attestationInvalid "attested credential data flag (AT) is not set on a registration (§6.1)"
       else Ok tt);
  let signCount := be_value (take 4 (drop 33 authData)) in
  let rest := drop 37 authData in
  _ ← (if Nat.ltb (length rest) 18 then
         attestationMalformed ("attested credential data is " +:+ pretty (length rest) +:+
           " bytes, shorter than 18")
       else Ok tt);
  let aaguid := take 16 rest in
  let idLen := Z.to_nat (be_value (take 2 (drop 16 rest))) in
  let rest := drop 18 rest in
  _ ← (if Nat.eqb idLen 0 || Nat.ltb maxCredentialIDLength idLen then
         attestationMalformed ("credential ID length " +:+ pretty idLen +:+ " is outside 1..1023 (§5.8.3)")
       else Ok tt);
  _ ← (if Nat.ltb (length rest) idLen then
         attestationMalformed ("credential ID claims " +:+ pretty idLen +:+ " bytes with " +:+
           pretty (length rest) +:+ " remaining")
       else Ok tt);
  let credentialID := take idLen rest in
  let rest := drop idLen rest in
  '(keyValue, rest) ← (match decodeCBOR rest with
                       | Ok r => Ok r
                       | Err e => attestationMalformed ("credential public key: " +:+ Error e)
                       end);
  '(key, sec1) ← parseCOSEKeyES256 keyValue;
  rest ← (if flagSet flags flagED then
            match decodeCBOR rest with
            | Ok (CborMap _, rest2) => Ok rest2
            | Ok (ext, _) =>
                attestationMalformed ("authenticator extensions are " +:+ typeText ext +:+ ", not a map")
            | Err e => attestationMalformed ("authenticator extensions: " +:+ Error e)
            end
          else Ok rest);
  _ ← (if negb (Nat.eqb (length rest) 0) then
         attestationMalformed ("authData has " +:+ pretty (length rest) +:+ " unexplained trailing bytes")
       else Ok tt);
  Ok (mkAttestationResult "" AttestationTrustNone aaguid false false credentialID (Some key) sec1 signCount
        true (flagSet flags flagUV) (flagSet flags flagBE) (flagSet flags flagBS) [] []).

(** ** The packed statement *)
Fixpoint checkAAGUIDExtension (extensions : list Extension) (aaguid : bytes) : result unit :=
  match extensions with
  | [] => Ok tt
  | ext :: extensions =>
      if negb (bool_decide (Ext_Id ext = oidFIDOGenCEAAGUID)) then checkAAGUIDExtension extensions aaguid
      else if Critical ext then
        attestationInvalid "id-fido-gen-ce-aaguid extension must not be critical (§8.2.1)"
      else
        match parseField x04 (Value ext) with
        | Ok (value, []) =>
            if negb (bytes_Equal value aaguid) then
              attestationInvalid ("certificate AAGUID " +:+ hex_EncodeToString value +:+
                " does not match authenticator data AAGUID " +:+ hex_EncodeToString aaguid +:+ " (§8.2.1)")
            else checkAAGUIDExtension extensions aaguid
        | _ => attestationMalformed "id-fido-gen-ce-aaguid extension is not a DER OCTET STRING"
        end
  end.

Definition checkPackedCertificate (cert : Certificate) (aaguid : bytes) : result unit :=
  _ ← (if negb (Version cert =? 3)%Z then
         attestationInvalid ("attestation certificate version is " +:+ FormatInt (Version cert) +:+
           ", must be 3 (§8.2.1)")
       else Ok tt);
  _ ← (if Nat.eqb (length (Subject_Country cert)) 0 || Nat.eqb (length (Subject_Organization cert)) 0 ||
          String.eqb (Subject_CommonName cert) "" then
         attestationInvalid "attestation certificate subject must carry C, O and CN (§8.2.1)"
       else Ok tt);
  _ ← (if negb (bool_decide (Subject_OrganizationalUnit cert = ["Authenticator Attestation"])) then
         attestationInvalid ("attestation certificate subject OU must be exactly " +:+
           quoted "Authenticator Attestation" +:+ " (§8.2.1)")
       else Ok tt);
  _ ← (if negb (BasicConstraintsValid cert) || IsCA cert then
         attestationInvalid "attestation certificate must carry Basic Constraints with CA=false (§8.2.1)"
       else Ok tt);
  checkAAGUIDExtension (Extensions cert) aaguid.

Definition statementMembers (stmt : cborMap) : result unit :=
  iterM_from (λ _ p,
    let named name := keyEqual p.1 (text name) in
    if named "alg" || named "sig" || named "x5c" then Ok tt
    else if named "ecdaaKeyId" then
      attestationUnsupported "packed ECDAA attestation was removed from WebAuthn Level 2"
    else attestationMalformed ("packed attStmt has unexpected member " +:+ keyText p.1)) 0 stmt.

Definition parseCertificates (items : list cborValue) : result (list Certificate) :=
  imapM (λ i item,
    match item with
    | CborBytes der =>
        match x509_ParseCertificate der with
        | Some cert => Ok cert
        | None => attestationMalformed ("x5c[" +:+ pretty i +:+ "] is not a certificate")
        end
    | _ => attestationMalformed ("x5c[" +:+ pretty i +:+ "] is not bytes")
    end) items.

(** The trust a packed statement earns; [clock] is [time.Now()]. *)
Definition verifyPackedStatement (clock : Z) (result_ : AttestationResult) (stmt : cborMap)
    (signed : bytes) (req : AttestationRequest) : result AttestationTrust :=
  _ ← statementMembers stmt;
  alg ← (match asInt (get stmt (text "alg")) with
         | Some alg => Ok alg
         | None => attestationMalformed "packed attStmt alg is missing or not an integer"
         end);
  sig ← (match asBytes (get stmt (text "sig")) with
         | Some ((_ :: _) as sig) => Ok sig
         | _ => attestationMalformed "packed attStmt sig is missing or not bytes"
         end);
  _ ← (if negb (alg =? coseAlgES256)%Z then
         attestationUnsupported ("packed algorithm " +:+ FormatInt alg +:+ " (only ES256, -7, is verified)")
       else Ok tt);
  let digest := sha256_Sum256 signed in
  match get stmt (text "x5c") with
  | None =>
      match Result_PublicKey result_ with
      | Some key =>
          if negb (ecdsa_VerifyASN1 key digest sig) then
            attestationInvalid ("self attestation signature does not verify under the credential " +:+
              "public key (§8.2.2)")
          else Ok AttestationTrustSelf
      | None => attestationInvalid "no key"
      end
  | Some (CborArray ((_ :: _) as items)) =>
      certs ← parseCertificates items;
      match certs with
      | leaf :: intermediates =>
          leafKey ← (match Cert_PublicKey leaf with
                     | Some key => if Curve_P256 key then Ok key else
                         attestationUnsupported ("attestation certificate key is not ECDSA P-256, " +:+
                           "which the ES256 algorithm requires")
                     | None =>
                         attestationUnsupported ("attestation certificate key is not ECDSA P-256, " +:+
                           "which the ES256 algorithm requires")
                     end);
          _ ← (if negb (ecdsa_VerifyASN1 leafKey digest sig) then
                 attestationInvalid ("attestation signature does not verify under the x5c leaf " +:+
                   "certificate (§8.2.1)")
               else Ok tt);
          _ ← checkPackedCertificate leaf (AAGUID result_);
          match TrustRoots req with
          | None => Ok AttestationTrustUnrooted
          | Some roots =>
              if negb (Certificate_Verify leaf roots intermediates (default clock (Now req))) then
                attestationInvalid "x5c chain does not verify to a supplied trust root"
              else Ok AttestationTrustRooted
          end
      | [] => attestationMalformed "packed attStmt x5c must be a non-empty array"
      end
  | Some _ => attestationMalformed "packed attStmt x5c must be a non-empty array"
  end.

(** ** The result *)
Definition finish (r : AttestationResult) (format : string) (trust : AttestationTrust)
    : AttestationResult :=
  let rooted := bool_decide (trust = AttestationTrustRooted) in
  let aaguid := formatAAGUID (AAGUID r) in
  let proven :=
    ["the client data is a webauthn.create for the expected origin and challenge";
     "the authenticator data is scoped to the expected RP ID";
     "the credential public key is a valid P-256 point"] ++
    (if Result_UserPresent r then
       ["user presence was reported by the authenticator data covered by this registration"] else []) ++
    match trust with
    | AttestationTrustNone => []
    | AttestationTrustSelf =>
        ["the registrant held the private key for the credential public key (self attestation)"]
    | AttestationTrustUnrooted =>
        ["the attestation signature verifies under the leaf certificate in x5c and the certificate meets §8.2.1"]
    | AttestationTrustRooted =>
        ["the x5c chain verifies to a supplied trust root";
         "the AAGUID " +:+ aaguid +:+ " is covered by an attestation signature from that chain"]
    end in
  let asserted :=
    match trust with
    | AttestationTrustNone =>
        ["nothing about the authenticator: the none format is no statement at all";
         "the AAGUID " +:+ aaguid +:+ " and every flag are claims by whoever made the request"]
    | AttestationTrustSelf =>
        ["the authenticator model: self attestation is signed by the credential key itself";
         "the AAGUID " +:+ aaguid]
    | AttestationTrustUnrooted =>
        ["that the certificate belongs to a real authenticator: no trust roots were supplied";
         "the AAGUID " +:+ aaguid +:+ " (signed by an unanchored key)"]
    | AttestationTrustRooted =>
        ["that the supplied roots belong to hardware authenticators: this library does not know which do"]
    end ++
    (if BackupEligible r || BackedUp r then
       ["backup flags (BE/BS): a synced passkey is not a device-bound key"] else []) in
  mkAttestationResult format trust (AAGUID r) rooted rooted (CredentialID r) (Result_PublicKey r)
    (PublicKeySEC1 r) (SignCount r) (Result_UserPresent r) (Result_UserVerified r) (BackupEligible r)
    (BackedUp r) proven asserted.

Definition VerifyAttestation (clock : Z) (req : AttestationRequest) : result AttestationResult :=
  _ ← (if String.eqb (RPID req) "" || String.eqb (Origin req) "" || Nat.eqb (length (Challenge req)) 0 then
         attestationInvalid ("RPID, Origin and Challenge are all required: " +:+
           "verifying without them would not bind the attestation to this ceremony")
       else Ok tt);
  _ ← checkRegistrationClientData req;
  let clientDataHash := sha256_Sum256 (Request_ClientDataJSON req) in
  '(format, stmt, authData) ← parseAttestationObject (AttestationObject req);
  result_ ← parseRegistrationAuthData authData req;
  let signed := authData ++ clientDataHash in
  trust ←
    (if String.eqb format AttestationFormatNone then
       if negb (Nat.eqb (length stmt) 0) then
         attestationInvalid ("none attestation statement must be empty (§8.7), has " +:+
           pretty (length stmt) +:+ " entries")
       else Ok AttestationTrustNone
     else if String.eqb format AttestationFormatPacked then
       verifyPackedStatement clock result_ stmt signed req
     else attestationUnsupported ("format " +:+ quoted format));
  Ok (finish result_ format trust).
End attestation.

(** ** Lemmas *)
Lemma guard_Ok {A} (b : bool) (m : result A) (a : A) u :
  (if b then m else Ok a) = Ok u → (∀ x, m ≠ Ok x) → b = false ∧ u = a.
Proof. destruct b; [intros H Hm; by apply Hm in H|]. intros [= <-] _. done. Qed.

(** Inverts the guards of a successful handler, keeping the conditions. *)
Ltac inv_guards :=
  repeat match goal with
  | H : mbind _ _ = Ok _ |- _ =>
      let x := fresh "x" in let Hx := fresh "Hx" in apply bind_Ok in H as (x & Hx & H)
  | H : (if ?b then _ else Ok tt) = Ok _ |- _ => apply guard_Ok in H as [H _]; [|by intros ?]
  | H : negb _ = false |- _ => apply negb_false_iff in H
  | H : match ?o with Some _ => _ | None => _ end = Ok _ |- _ =>
      let E := fresh "E" in destruct o eqn:E; [|discriminate H]
  | H : Ok _ = Ok _ |- _ => injection H as H; try subst
  end.

Lemma flagSet_bit flags n : (0 <= n)%Z → flagSet flags (2 ^ n) = Z.testbit (byteZ flags) n.
Proof. intros Hn. unfold flagSet. by rewrite testbit_land_pow2. Qed.

Lemma parseCOSEKeyES256_Ok v key sec1 :
  parseCOSEKeyES256 v = Ok (key, sec1) →
  ∃ x y, key = mkPublicKey true (Some x) (Some y) ∧ IsOnCurve x y = true ∧ sec1 = elliptic_Marshal x y.
Proof.
  unfold parseCOSEKeyES256. destruct v as [| | | |m| |]; try discriminate. cbv zeta.
  destruct (negb _); [discriminate|].
  destruct (asBytes (get m (CborInt (-2)))) as [x|]; [|discriminate].
  destruct (asBytes (get m (CborInt (-3)))) as [y|]; [|discriminate].
  destruct (Nat.eqb_spec (length x) 32) as [Hx|]; [|discriminate].
  destruct (Nat.eqb_spec (length y) 32) as [Hy|]; [|discriminate]. cbn [andb negb].
  destruct (IsOnCurve (be_value x) (be_value y)) eqn:Hc; [|discriminate]. intros [= <- <-].
  exists (be_value x), (be_value y). split; [done|]. split; [done|].
  unfold elliptic_Marshal. rewrite <-Hx at 1. rewrite be_value_bytes. rewrite <-Hy at 1.
  by rewrite be_value_bytes.
Qed.

(** ** The layout of authenticator data *)
Section layout.
Context `{SDK} `{WebAuthnJSON} `{X509}.

(** What follows the fixed fields. *)
Definition trailer (flags : Byte.byte) (res : AttestationResult) (b : bytes) : Prop :=
  ∃ kv kb eb key, b = kb ++ eb ∧ item (S cborMaxDepth) kv kb ∧
    Result_PublicKey res = Some key ∧ parseCOSEKeyES256 kv = Ok (key, PublicKeySEC1 res) ∧
    if flagSet flags flagED then ∃ m, item (S cborMaxDepth) (CborMap m) eb else eb = [].

Lemma take_be n (b : bytes) : n <= length b → take n b = be_bytes n (be_value (take n b)).
Proof.
  intros Hl. assert (E : length (take n b) = n) by (rewrite length_take; lia).
  pose proof (be_value_bytes (take n b)) as Hv. by rewrite E in Hv.
Qed.

Lemma authData_split (a : bytes) flags idLen :
  a !! 32 = Some flags →
  a = take 32 a ++ [flags] ++ take 4 (drop 33 a) ++ take 16 (drop 37 a) ++
      take 2 (drop 16 (drop 37 a)) ++ take idLen (drop 18 (drop 37 a)) ++
      drop idLen (drop 18 (drop 37 a)).
Proof.
  intros Hf. rewrite take_drop.
  replace (drop 18 (drop 37 a)) with (drop 2 (drop 16 (drop 37 a))) by by rewrite !drop_drop.
  rewrite take_drop, take_drop.
  replace (drop 37 a) with (drop 4 (drop 33 a)) by by rewrite drop_drop.
  rewrite take_drop. cbn [app]. rewrite <-(drop_S _ _ _ Hf). by rewrite take_drop.
Qed.

Lemma parseRegistrationAuthData_Ok authData req res :
  parseRegistrationAuthData authData req = Ok res →
  ∃ flags b, authData = sha256_Sum256 (bytes_of_string (RPID req)) ++ [flags] ++
      be_bytes 4 (SignCount res) ++ AAGUID res ++
      be_bytes 2 (Z.of_nat (length (CredentialID res))) ++ CredentialID res ++ b ∧
    length (AAGUID res) = 16 ∧ 1 <= length (CredentialID res) <= maxCredentialIDLength ∧
    trailer flags res b ∧ authData !! 32 = Some flags ∧
    flagSet flags flagUP = true ∧ flagSet flags flagAT = true ∧
    (Request_RequireUserVerification req = true → flagSet flags flagUV = true) ∧
    Result_UserPresent res = true ∧ Result_UserVerified res = flagSet flags flagUV ∧
    BackupEligible res = flagSet flags flagBE ∧ BackedUp res = flagSet flags flagBS.
Proof.
  unfold parseRegistrationAuthData. cbv zeta. intros Hp.
  apply bind_Ok in Hp as ([] & Hlen & Hp). apply guard_Ok in Hlen as [Hlen%Nat.ltb_ge _]; [|by intros ?].
  apply bind_Ok in Hp as ([] & Hrp & Hp). apply guard_Ok in Hrp as [Hrp%negb_false_iff _]; [|by intros ?].
  apply bytes_Equal_spec in Hrp.
  destruct (lookup_lt_is_Some_2 authData 32) as [flags Hflags]; [lia|]. rewrite Hflags in Hp. cbn [default id] in Hp.
  apply bind_Ok in Hp as ([] & Hup & Hp). apply guard_Ok in Hup as [Hup%negb_false_iff _]; [|by intros ?].
  apply bind_Ok in Hp as ([] & Huv & Hp). apply guard_Ok in Huv as [Huv _]; [|by intros ?].
  apply bind_Ok in Hp as ([] & Hat & Hp). apply guard_Ok in Hat as [Hat%negb_false_iff _]; [|by intros ?].
  apply bind_Ok in Hp as ([] & H18 & Hp). apply guard_Ok in H18 as [H18%Nat.ltb_ge _]; [|by intros ?].
  set (rest := drop 37 authData) in *. set (idLen := Z.to_nat (be_value (take 2 (drop 16 rest)))) in *.
  apply bind_Ok in Hp as ([] & Hid & Hp). apply guard_Ok in Hid as [Hid _]; [|by intros ?].
  apply orb_false_iff in Hid as [Hid0%Nat.eqb_neq Hid%Nat.ltb_ge].
  apply bind_Ok in Hp as ([] & Hidl & Hp). apply guard_Ok in Hidl as [Hidl%Nat.ltb_ge _]; [|by intros ?].
  apply bind_Ok in Hp as ([kv rest2] & Hkv & Hp).
  destruct (decodeCBOR (drop idLen (drop 18 rest))) as [[kv' r']|] eqn:Hdec; [|discriminate Hkv].
  injection Hkv as -> ->. apply decodeCBORItem_spec in Hdec as (kb & Hitem & Hkb).
  apply bind_Ok in Hp as ([key sec1] & Hkey & Hp). apply bind_Ok in Hp as (rest3 & Hext & Hp).
  apply bind_Ok in Hp as ([] & Hend & Hp). injection Hp as <-. apply guard_Ok in Hend as [Hend%negb_false_iff _]; [|by intros ?].
  apply Nat.eqb_eq in Hend. destruct rest3; [|discriminate Hend].
  cbn [SignCount AAGUID CredentialID Result_UserPresent Result_UserVerified BackupEligible BackedUp].
  assert (Hdropid : length (take idLen (drop 18 rest)) = idLen) by (rewrite length_take; lia).
  exists flags, (drop idLen (drop 18 rest)). split_and!; try done.
  - rewrite <-Hrp, Hdropid. rewrite <-take_be by (rewrite length_drop; lia).
    unfold idLen at 1. rewrite Z2Nat.id by (by apply be_value_bound).
    rewrite <-take_be by (rewrite !length_drop; lia).
    by apply authData_split.
  - rewrite length_take. lia.
  - rewrite Hdropid. lia.
  - rewrite Hdropid. lia.
  - exists kv, kb. destruct (flagSet flags flagED) eqn:Hed.
    + destruct (decodeCBOR rest2) as [[v r]|] eqn:Hd2; [|discriminate Hext].
      destruct v as [| | | |m| |]; try discriminate Hext. injection Hext as ->.
      apply decodeCBORItem_spec in Hd2 as (eb & Hm & Heb). rewrite app_nil_r in Heb.
      exists rest2, key. split_and!; try done. exists m. by rewrite Heb.
    + injection Hext as ->. exists [], key. by split_and!.
  - intros Hr. rewrite Hr in Huv. cbn in Huv. by apply negb_false_iff.
Qed.
End layout.

(** ** The packed statement *)
Lemma require_Ok {A} (b : bool) s t (k : unit → result A) a :
  mbind k (if b then attestationErr s t else Ok tt) = Ok a ↔ b = false ∧ k tt = Ok a.
Proof. destruct b; cbn; naive_solver. Qed.

Lemma require_supported {A} (b : bool) t (k : unit → result A) a :
  mbind k (if b then attestationUnsupported t else Ok tt) = Ok a ↔ b = false ∧ k tt = Ok a.
Proof. apply require_Ok. Qed.

Lemma checkAAGUIDExtension_Ok exts aaguid :
  fits aaguid →
  checkAAGUIDExtension exts aaguid = Ok tt ↔
  Forall (λ ext, Ext_Id ext = oidFIDOGenCEAAGUID → Critical ext = false ∧ Value ext = der_field x04 aaguid)
    exts.
Proof.
  intros Hfit. induction exts as [|[id crit val] exts IH]; [done|]. rewrite Forall_cons, <-IH.
  cbn [checkAAGUIDExtension Ext_Id Critical Value].
  destruct (bool_decide_reflect (id = oidFIDOGenCEAAGUID)) as [->|Hid]; cbn [negb]; [|naive_solver].
  destruct crit; [naive_solver|].
  destruct (parseField x04 val) as [[v rest]|e] eqn:Hp.
  - pose proof Hp as [Hv ->]%parseField_spec. destruct rest as [|b rest].
    + destruct (bytes_Equal v aaguid) eqn:Heq.
      * apply bytes_Equal_spec in Heq as ->. rewrite app_nil_r. naive_solver.
      * rewrite app_nil_r. split; [done|]. intros [Hf _]. destruct (Hf eq_refl) as [_ Hd].
        assert (Hq : parseField x04 (der_field x04 aaguid) = Ok (aaguid, []))
          by (apply parseField_spec; by rewrite app_nil_r).
        rewrite <-Hd in Hq. rewrite app_nil_r in Hp. rewrite Hp in Hq. injection Hq as ->.
        by rewrite (proj2 (bytes_Equal_spec aaguid aaguid)) in Heq.
    + split; [done|]. intros [Hf _]. destruct (Hf eq_refl) as [_ Hd].
      assert (Hq : parseField x04 (der_field x04 aaguid) = Ok (aaguid, []))
        by (apply parseField_spec; by rewrite app_nil_r).
      rewrite <-Hd in Hq. rewrite Hp in Hq. discriminate Hq.
  - split; [done|]. intros [Hf _]. destruct (Hf eq_refl) as [_ ->].
    rewrite (proj2 (parseField_spec x04 _ aaguid [])) in Hp; [done|]. by rewrite app_nil_r.
Qed.

(** The certificate requirements of WebAuthn 8.2.1. *)
Definition certificateMeets (cert : Certificate) (aaguid : bytes) : Prop :=
  Version cert = 3%Z ∧ Subject_Country cert ≠ [] ∧ Subject_Organization cert ≠ [] ∧
  Subject_CommonName cert ≠ "" ∧ Subject_OrganizationalUnit cert = ["Authenticator Attestation"] ∧
  BasicConstraintsValid cert = true ∧ IsCA cert = false ∧
  Forall (λ ext, Ext_Id ext = oidFIDOGenCEAAGUID → Critical ext = false ∧ Value ext = der_field x04 aaguid)
    (Extensions cert).

Lemma checkPackedCertificate_Ok cert aaguid :
  fits aaguid → checkPackedCertificate cert aaguid = Ok tt ↔ certificateMeets cert aaguid.
Proof.
  intros Hfit. unfold checkPackedCertificate, certificateMeets, attestationInvalid.
  rewrite !require_Ok, checkAAGUIDExtension_Ok by done.
  rewrite !orb_false_iff, !negb_false_iff, Z.eqb_eq, bool_decide_eq_true, String.eqb_neq, !Nat.eqb_neq.
  rewrite !length_zero_iff_nil. naive_solver.
Qed.

Lemma statementMembers_Ok stmt :
  statementMembers stmt = Ok tt ↔
  Forall (λ p, p.1 = text "alg" ∨ p.1 = text "sig" ∨ p.1 = text "x5c") stmt.
Proof.
  unfold statementMembers. rewrite iterM_from_Ok, Forall_lookup. split.
  - intros Hf i p Hp. specialize (Hf i p Hp). cbn in Hf.
    destruct (keyEqual p.1 (text "alg")) eqn:E1; [left; by apply keyEqual_spec|].
    destruct (keyEqual p.1 (text "sig")) eqn:E2; [right; left; by apply keyEqual_spec|].
    destruct (keyEqual p.1 (text "x5c")) eqn:E3; [right; right; by apply keyEqual_spec|].
    cbn in Hf. by destruct (keyEqual p.1 (text "ecdaaKeyId")).
  - intros Hf i p Hp. destruct (Hf i p Hp) as [E|[E|E]]; rewrite E; reflexivity.
Qed.

Section packed.
Context `{SDK} `{WebAuthnJSON} `{X509}.

Lemma parseCertificates_Ok items certs :
  parseCertificates items = Ok certs ↔
  ∃ ders, items = map CborBytes ders ∧ Forall2 (λ der c, x509_ParseCertificate der = Some c) ders certs.
Proof.
  unfold parseCertificates, imapM. generalize 0. revert certs.
  induction items as [|it items IH]; intros certs i; cbn [imapM_from].
  - split; [intros [= <-]; by exists []|]. intros ([|? ?] & Hd & Hf); [|done]. by inversion Hf.
  - rewrite bind_Ok. split.
    + intros (c & Hc & (cs & (ders & -> & Hf)%IH & [= <-])%bind_Ok).
      destruct it as [|der| | | | |]; try done.
      destruct (x509_ParseCertificate der) eqn:Hp; [|done]. injection Hc as ->.
      exists (der :: ders). split; [done|]. by constructor.
    + intros ([|der ders] & Hd & Hf); [done|]. injection Hd as -> ->.
      inversion Hf as [|? c ? cs Hc Hcs]; subst. exists c. rewrite Hc. split; [done|].
      apply bind_Ok. exists cs. split; [|done]. apply IH. by exists ders.
Qed.

(** What a packed statement of each trust level was verified against. *)
Definition statementVerified (clock : Z) (r : AttestationResult) (stmt : cborMap) (signed : bytes)
    (req : AttestationRequest) (trust : AttestationTrust) : Prop :=
  Forall (λ p, p.1 = text "alg" ∨ p.1 = text "sig" ∨ p.1 = text "x5c") stmt ∧
  get stmt (text "alg") = Some (CborInt coseAlgES256) ∧
  ∃ sig, sig ≠ [] ∧ get stmt (text "sig") = Some (CborBytes sig) ∧
  match trust with
  | AttestationTrustNone => False
  | AttestationTrustSelf =>
      get stmt (text "x5c") = None ∧
      ∃ key, Result_PublicKey r = Some key ∧ ecdsa_VerifyASN1 key (sha256_Sum256 signed) sig = true
  | _ =>
      ∃ ders leaf intermediates key,
        get stmt (text "x5c") = Some (CborArray (map CborBytes ders)) ∧
        Forall2 (λ der c, x509_ParseCertificate der = Some c) ders (leaf :: intermediates) ∧
        Cert_PublicKey leaf = Some key ∧ Curve_P256 key = true ∧
        ecdsa_VerifyASN1 key (sha256_Sum256 signed) sig = true ∧ certificateMeets leaf (AAGUID r) ∧
        if bool_decide (trust = AttestationTrustRooted)
        then ∃ roots, TrustRoots req = Some roots ∧
               Certificate_Verify leaf roots intermediates (default clock (Now req)) = true
        else TrustRoots req = None
  end.

Lemma asInt_Some v n : asInt v = Some n ↔ v = Some (CborInt n).
Proof. destruct v as [[]|]; cbn; naive_solver. Qed.
Lemma asBytes_Some v b : asBytes v = Some b ↔ v = Some (CborBytes b).
Proof. destruct v as [[]|]; cbn; naive_solver. Qed.

(** The certificates' branch. *)
Lemma verifyPacked_x5c clock r items digest sig req trust :
  fits (AAGUID r) →
  (certs ← parseCertificates items;
   match certs with
   | leaf :: intermediates =>
       leafKey ← (match Cert_PublicKey leaf with
                  | Some key => if Curve_P256 key then Ok key else
                      attestationUnsupported ("attestation certificate key is not ECDSA P-256, " +:+
                        "which the ES256 algorithm requires")
                  | None =>
                      attestationUnsupported ("attestation certificate key is not ECDSA P-256, " +:+
                        "which the ES256 algorithm requires")
                  end);
       _ ← (if negb (ecdsa_VerifyASN1 leafKey digest sig) then
              attestationInvalid ("attestation signature does not verify under the x5c leaf " +:+
                "certificate (§8.2.1)")
            else Ok tt);
       _ ← checkPackedCertificate leaf (AAGUID r);
       match TrustRoots req with
       | None => Ok AttestationTrustUnrooted
       | Some roots =>
           if negb (Certificate_Verify leaf roots intermediates (default clock (Now req))) then
             attestationInvalid "x5c chain does not verify to a supplied trust root"
           else Ok AttestationTrustRooted
       end
   | [] => attestationMalformed "packed attStmt x5c must be a non-empty array"
   end) = Ok trust ↔
  (trust = AttestationTrustUnrooted ∨ trust = AttestationTrustRooted) ∧
  ∃ ders leaf intermediates key,
    items = map CborBytes ders ∧
    Forall2 (λ der c, x509_ParseCertificate der = Some c) ders (leaf :: intermediates) ∧
    Cert_PublicKey leaf = Some key ∧ Curve_P256 key = true ∧
    ecdsa_VerifyASN1 key digest sig = true ∧ certificateMeets leaf (AAGUID r) ∧
    if bool_decide (trust = AttestationTrustRooted)
    then ∃ roots, TrustRoots req = Some roots ∧
           Certificate_Verify leaf roots intermediates (default clock (Now req)) = true
    else TrustRoots req = None.
Proof.
  intros Hfit. rewrite bind_Ok. split.
  - intros ([|leaf inter] & (ders & -> & Hf)%parseCertificates_Ok & Hc); [done|].
    destruct (Cert_PublicKey leaf) as [key|] eqn:Hk; [|done]. destruct (Curve_P256 key) eqn:Hp; [|done].
    cbn [mbind result_bind] in Hc. unfold attestationInvalid in Hc. rewrite require_Ok in Hc.
    destruct Hc as [Hv%negb_false_iff ([] & Hm%checkPackedCertificate_Ok & Hr)%bind_Ok]; [|done].
    destruct (TrustRoots req) as [roots|] eqn:Ht.
    + destruct (Certificate_Verify _ _ _ _) eqn:Hver; [|done]. injection Hr as <-.
      split; [by right|]. exists ders, leaf, inter, key. rewrite bool_decide_true by done. naive_solver.
    + injection Hr as <-. split; [by left|]. exists ders, leaf, inter, key.
      rewrite bool_decide_false by done. naive_solver.
  - intros (Htr & ders & leaf & inter & key & -> & Hf & Hk & Hp & Hv & Hm & Hr).
    exists (leaf :: inter). split; [apply parseCertificates_Ok; by exists ders|].
    rewrite Hk, Hp. cbn [mbind result_bind]. unfold attestationInvalid. rewrite require_Ok, Hv.
    split; [done|]. rewrite (proj2 (checkPackedCertificate_Ok leaf _ Hfit)) by done. cbn [mbind result_bind].
    destruct Htr as [->| ->]; cbn in Hr.
    + by rewrite Hr.
    + destruct Hr as (roots & -> & ->). done.
Qed.

Lemma verifyPackedStatement_Ok clock r stmt signed req trust :
  fits (AAGUID r) →
  verifyPackedStatement clock r stmt signed req = Ok trust ↔
  statementVerified clock r stmt signed req trust.
Proof.
  intros Hfit. unfold verifyPackedStatement, statementVerified. rewrite bind_Ok.
  split.
  - intros ([] & Hm%statementMembers_Ok & Hp). split; [done|].
    apply bind_Ok in Hp as (alg & Ha & (sig & Hs & Hp)%bind_Ok).
    destruct (asInt (get stmt (text "alg"))) as [n|] eqn:Hn; [|done]. injection Ha as <-.
    destruct (asBytes (get stmt (text "sig"))) as [[|b0 sig']|] eqn:Hsig; try done. injection Hs as <-.
    apply asInt_Some in Hn. apply asBytes_Some in Hsig.
    rewrite require_supported, negb_false_iff, Z.eqb_eq in Hp. destruct Hp as [-> Hp]. split; [done|].
    exists (b0 :: sig'). split; [done|]. split; [done|].
    destruct (get stmt (text "x5c")) as [[| | |[|i0 items]| | |]|] eqn:Hx; try done.
    + apply verifyPacked_x5c in Hp as [Ht (ders & leaf & inter & key & Hd & Hrest)]; [|done].
      destruct Ht as [->| ->]; rewrite Hd; exists ders, leaf, inter, key; naive_solver.
    + destruct (Result_PublicKey r) as [key|] eqn:Hk; [|done].
      destruct (ecdsa_VerifyASN1 _ _ _) eqn:Hv; [|done]. injection Hp as <-. naive_solver.
  - intros (Hm & Ha & sig & Hs & Hg & Ht). exists tt. split; [by apply statementMembers_Ok|].
    rewrite Ha, Hg. cbn [asInt asBytes mbind result_bind]. destruct sig as [|b0 sig]; [done|].
    cbn [mbind result_bind]. rewrite require_supported. split; [done|].
    destruct trust; [done| | |].
    + destruct Ht as (-> & key & -> & ->). done.
    + destruct Ht as (ders & leaf & inter & key & -> & Hrest).
      pose proof (Forall2_length _ _ _ (proj1 Hrest)). destruct ders as [|d0 ders]; [done|].
      cbn [map]. apply verifyPacked_x5c; [done|]. split; [by left|].
      exists (d0 :: ders), leaf, inter, key. naive_solver.
    + destruct Ht as (ders & leaf & inter & key & -> & Hrest).
      pose proof (Forall2_length _ _ _ (proj1 Hrest)). destruct ders as [|d0 ders]; [done|].
      cbn [map]. apply verifyPacked_x5c; [done|]. split; [by right|].
      exists (d0 :: ders), leaf, inter, key. naive_solver.
Qed.
End packed.

(** ** The theorems *)
Section attestation_theorems.
Context `{SDK} `{WebAuthnJSON} `{X509}.

Lemma checkRegistrationClientData_Ok req :
  checkRegistrationClientData req = Ok tt ↔
  ∃ cd, json_UnmarshalClientData (Request_ClientDataJSON req) = Some cd ∧
    clientData_Type cd = "webauthn.create" ∧
    decodeBase64Loose (clientData_Challenge cd) = Some (Challenge req) ∧ clientData_Origin cd = Origin req.
Proof.
  unfold checkRegistrationClientData, attestationInvalid.
  destruct (json_UnmarshalClientData _) as [cd|]; [|split; [done|naive_solver]].
  cbn [mbind result_bind]. rewrite require_Ok, negb_false_iff, String.eqb_eq.
  destruct (decodeBase64Loose (clientData_Challenge cd)) as [c|] eqn:E; cbn [mbind result_bind];
    [|split; [by intros [_ Hc]|naive_solver]].
  rewrite require_Ok, negb_false_iff, bytes_Equal_spec.
  destruct (String.eqb_spec (clientData_Origin cd) (Origin req)); cbn [negb];
    [naive_solver|split; [intros [_ [_ Hc]]; discriminate Hc|naive_solver]].
Qed.

(** Authenticator data of a registration is read byte for byte, with
    nothing left over: it is the SHA-256 of the RP ID, a flags byte, the
    4-byte counter, the 16-byte AAGUID, a 2-byte length and that many bytes of
    credential ID, the CBOR key, and an extension map exactly when the ED flag
    is set.  User presence and attested data are flagged, and user
    verification when it was required; the key is a point on P-256. *)
Theorem parseRegistrationAuthData_layout authData req res :
  parseRegistrationAuthData authData req = Ok res →
  (∃ flags b, authData = sha256_Sum256 (bytes_of_string (RPID req)) ++ [flags] ++
      be_bytes 4 (SignCount res) ++ AAGUID res ++
      be_bytes 2 (Z.of_nat (length (CredentialID res))) ++ CredentialID res ++ b ∧
    trailer flags res b ∧
    Z.testbit (byteZ flags) 0 = true ∧ Z.testbit (byteZ flags) 6 = true ∧
    (Request_RequireUserVerification req = true → Z.testbit (byteZ flags) 2 = true) ∧
    Result_UserVerified res = Z.testbit (byteZ flags) 2 ∧
    BackupEligible res = Z.testbit (byteZ flags) 3 ∧ BackedUp res = Z.testbit (byteZ flags) 4) ∧
  length (AAGUID res) = 16 ∧ 1 <= length (CredentialID res) <= 1023 ∧
  (∃ x y, Result_PublicKey res = Some (mkPublicKey true (Some x) (Some y)) ∧ IsOnCurve x y = true ∧
     PublicKeySEC1 res = elliptic_Marshal x y).
Proof.
  intros (flags & b & Hdata & Hlen & Hid & Htr & _ & Hup & Hat & Huv & _ & Hv & Hbe & Hbs)%parseRegistrationAuthData_Ok.
  split; [|split; [done|split; [exact Hid|]]].
  - exists flags, b. rewrite <-!flagSet_bit by lia. by split_and!.
  - destruct Htr as (kv & kb & eb & key & _ & _ & Hkey & (x & y & -> & Hc & Hs)%parseCOSEKeyES256_Ok & _).
    by exists x, y.
Qed.

End attestation_theorems.

(** ** A concrete registration *)
Definition ex_rp_id : string := "example.com".
Definition ex_registration_challenge : bytes := replicate 16 x2a.
Definition ex_registration_data : bytes := bytes_of_string "the client data of the registration".

(** EC2, ES256, P-256 and the coordinates of the generator. *)
Definition ex_cose_key : bytes :=
  [xa5; x01; x02; x03; x26; x20; x01; x21; x58; x20] ++ be_bytes 32 P256_Gx ++
  [x22; x58; x20] ++ be_bytes 32 P256_Gy.
(** Flags 0x45: user present and verified, attested data. *)
Definition ex_registration_auth : bytes :=
  sha256_Sum256 (bytes_of_string ex_rp_id) ++ [x45; x00; x00; x00; x07] ++ replicate 16 xaa ++
  [x00; x04; x01; x02; x03; x04] ++ ex_cose_key.
Definition ex_registration_digest : bytes :=
  sha256_Sum256 (ex_registration_auth ++ sha256_Sum256 ex_registration_data).
Definition ex_cbor_text (s : string) : bytes := Zbyte (96 + Z.of_nat (String.length s)) :: bytes_of_string s.
Definition ex_cbor_bytes (b : bytes) : bytes := x59 :: be_bytes 2 (Z.of_nat (length b)) ++ b.
Definition ex_object (format : string) (stmt : bytes) : bytes :=
  [xa3] ++ ex_cbor_text "fmt" ++ ex_cbor_text format ++ ex_cbor_text "attStmt" ++ stmt ++
  ex_cbor_text "authData" ++ ex_cbor_bytes ex_registration_auth.
(** ES256 and a signature, then one certificate. *)
Definition ex_statement : bytes :=
  [xa3] ++ ex_cbor_text "alg" ++ [x26] ++ ex_cbor_text "sig" ++ ex_cbor_bytes ex_registration_digest ++
  ex_cbor_text "x5c" ++ [x81] ++ ex_cbor_bytes [xcc].
Definition ex_certificate : Certificate :=
  mkCertificate 3 ["SE"] ["Example"] ["Authenticator Attestation"] "Example Authenticator" true false
    [mkExtension oidFIDOGenCEAAGUID false (der_field x04 (replicate 16 xaa))] (Some ex_p256_public).

#[local] Instance ModelRegistrationJSON : WebAuthnJSON := {|
  json_UnmarshalAssertion input := None;
  json_UnmarshalClientData input :=
    if bytes_Equal input ex_registration_data then
      Some (mkClientData "webauthn.create" (EncodeToString RawURLEncoding ex_registration_challenge)
              "https://example.com")
    else None
|}.

(** One certificate, pools of common names, and signatures that repeat the
    digest. *)
#[local] Instance ModelX509 : X509 := {|
  CertPool := list string;
  x509_ParseCertificate der := if bytes_Equal der [xcc] then Some ex_certificate else None;
  Certificate_Verify leaf roots _ _ := bool_decide (Subject_CommonName leaf ∈ roots);
  ecdsa_VerifyASN1 _ digest sig := bytes_Equal sig digest
|}.

Definition ex_registration (object : bytes) (roots : option (list string)) : AttestationRequest :=
  mkAttestationRequest _ object ex_registration_data ex_rp_id "https://example.com"
    ex_registration_challenge true roots None.
Definition ex_rooted : AttestationRequest :=
  ex_registration (ex_object "packed" ex_statement) (Some ["Example Authenticator"]).
Definition ex_result (req : AttestationRequest) : AttestationResult :=
  match VerifyAttestation 0 req with
  | Ok res => res
  | Err _ => mkAttestationResult "" AttestationTrustNone [] false false [] None [] 0 false false false false [] []
  end.

(** The same registration at each level; another root is refused. *)
Example ex_trust_levels :
  let trust req := match VerifyAttestation 0 req with Ok res => Some (Trust res) | Err _ => None end in
  trust (ex_registration (ex_object "none" [xa0]) None) = Some AttestationTrustNone ∧
  trust (ex_registration (ex_object "none" ex_statement) None) = None ∧
  trust (ex_registration (ex_object "packed" ex_statement) None) = Some AttestationTrustUnrooted ∧
  trust ex_rooted = Some AttestationTrustRooted ∧
  trust (ex_registration (ex_object "packed" ex_statement) (Some ["Another"])) = None ∧
  trust (ex_registration (ex_object "fido-u2f" [xa0]) None) = None.
Proof. vm_compute. by split_and!. Qed.


Definition ex_parsed : AttestationResult :=
  match parseRegistrationAuthData ex_registration_auth ex_rooted with
  | Ok res => res | Err _ => ex_result ex_rooted end.

Lemma parseRegistrationAuthData_layout_witness :
  parseRegistrationAuthData ex_registration_auth ex_rooted = Ok ex_parsed ∧
  length (AAGUID ex_parsed) = 16 ∧ CredentialID ex_parsed = [x01; x02; x03; x04] ∧
  ∃ x y, Result_PublicKey ex_parsed = Some (mkPublicKey true (Some x) (Some y)) ∧ IsOnCurve x y = true ∧
     PublicKeySEC1 ex_parsed = elliptic_Marshal x y.
Proof.
  assert (Hp : parseRegistrationAuthData ex_registration_auth ex_rooted = Ok ex_parsed)
    by (vm_compute; reflexivity).
  destruct (parseRegistrationAuthData_layout _ _ _ Hp) as (_ & Hl & _ & Hk).
  split; [exact Hp|]. split; [exact Hl|]. split; [vm_compute; reflexivity|exact Hk].
Defined.
