(* ===== verification/Policy.v ===== *)
(** * Policy: signing behind rules (policy/policy.go, policy/rules.go)

    A [PolicySigner] rebuilds an entry from the preimage it is asked to sign,
    runs the risk analysis and its rules on it, and asks the inner signer only
    when nothing objects.  [PolicySigner_decides] says exactly which preimages
    the rules of the package let through: in particular which amounts
    [MaxAmountRule] bounds, and that [AddressBoundRule] refuses nothing here.

    Rules are caller code, so a rule may act on the world; the ones of the
    package do not.  A nil option or rule panics and is not modelled. *)
From Stdlib Require Import ZArith Lia Strings.Byte String.
From stdpp Require Import base list strings gmap pretty.
From S2P Require Import Prelude Encoding Errors Xdr ModelSDK Runtime Examples Address Limits Arm Preimage Nodes.
From S2P Require Import Inspect Risk.

Open Scope string_scope. Open Scope nat_scope. Open Scope list_scope.

(** [&ErrPolicyRefusal{Rule, Node, Cause: err}] around a step. *)
Definition refused {A} (rule node : string) (m : result A) : result A :=
  match m with Ok a => Ok a | Err e => Err (PolicyRefusal rule node (Some e)) end.

Section policy.
Context `{SDK}.

(** ** Rules (policy/rules.go) *)
Definition contractIdToString (cid : option bytes) : string :=
  match cid with
  | None => ""
  | Some cid =>
      match strkey_Encode VersionByteContract cid with
      | Ok address => address
      | Err _ => "invalid-contract-id-" +:+ hex_EncodeToString cid
      end
  end.

Record PolicyRule := mkRule {
  Rule_Name : string;
  Evaluate : SorobanAuthorizationEntry → bool → IO unit
}.

(** The walk all rules share: the contract call of a node, then its
    sub-invocations. *)
Section walk.
Variable check : InvokeContractArgs → string → result unit.
Fixpoint checkInvocation (path : string) (inv : SorobanAuthorizedInvocation) : result unit :=
  match inv with
  | mkInvocation f subs =>
      _ ← (match f with FunctionContractFn (Some a) => check a path | _ => Ok tt end);
      iterM_from (λ i sub, checkInvocation (path +:+ "/sub[" +:+ pretty i +:+ "]") sub) 0 subs
  end.
End walk.

(** *** Contracts *)
Definition NewContractAllowlistRule (allowedContracts : list string) : result (gmap string bool) :=
  _ ← iterM_from (λ _ addr,
        match ParseAddress addr with
        | Ok _ => Ok tt
        | Err e => Err (EWrap ("policy: contract allowlist: invalid address " +:+ quoted addr) e)
        end) 0 allowedContracts;
  Ok (list_to_map (map (λ addr, (addr, true)) allowedContracts)).

Definition contractAllowed (allowed : gmap string bool) (a : InvokeContractArgs) (path : string)
    : result unit :=
  match ContractAddress a with
  | ScAddressTypeContract (Some id) =>
      let contractStr := contractIdToString (Some id) in
      refuse (negb (default false (allowed !! contractStr)))
        (EText ("contract " +:+ contractStr +:+ " not in allowlist (at " +:+ path +:+ ")"))
  | _ => Ok tt
  end.

Definition ContractAllowlistRule (allowed : gmap string bool) : PolicyRule :=
  mkRule "contract_allowlist"
    (λ entry _, lift (checkInvocation (contractAllowed allowed) "root" (RootInvocation entry))).

(** *** Amounts *)
Fixpoint checkScVal (maxAmount : Z) (location : string) (val : ScVal) : result unit :=
  let exceeds what := EText ("amount " +:+ what +:+ " exceeds maximum " +:+ FormatUint maxAmount +:+
                             " at " +:+ location) in
  match val with
  | ScvU64 (Some n) => refuse (n >? maxAmount)%Z (exceeds (FormatUint n))
  | ScvI64 (Some n) => refuse ((n >? 0)%Z && (n >? maxAmount)%Z) (exceeds (FormatInt n))
  | ScvU128 (Some (hi, lo)) => refuse ((hi >? 0)%Z || (lo >? maxAmount)%Z) (exceeds "(u128)")
  | ScvI128 (Some (hi, lo)) =>
      refuse ((hi >? 0)%Z || ((hi =? 0)%Z && (lo >? 0)%Z && (lo >? maxAmount)%Z)) (exceeds "(i128)")
  | ScvVec (Some (Some vec)) =>
      iterM_from (λ i elem, checkScVal maxAmount (location +:+ "/vec[" +:+ pretty i +:+ "]") elem) 0 vec
  | ScvMap (Some (Some m)) =>
      iterM_from (λ i kv, checkScVal maxAmount (location +:+ "/map[" +:+ pretty i +:+ "]") kv.2) 0 m
  | _ => Ok tt
  end.

Definition checkInvocationArgs (maxAmount : Z) (a : InvokeContractArgs) (path : string) : result unit :=
  iterM_from (λ i arg, checkScVal maxAmount (path +:+ "/arg[" +:+ pretty i +:+ "]") arg) 0 (Args a).

Definition MaxAmountRule (maxAmount : Z) : PolicyRule :=
  mkRule "max_amount"
    (λ entry _, lift (checkInvocation (checkInvocationArgs maxAmount) "root" (RootInvocation entry))).

(** *** Functions *)
Definition defaultSACAdminMethods : list string :=
  ["set_admin"; "set_authorized"; "set_authorization_entry_ttl"; "upgrade"; "set_contract_id";
   "set_spec_entries"].

Definition notForbidden (forbidden : gmap string bool) (a : InvokeContractArgs) (path : string)
    : result unit :=
  refuse (default false (forbidden !! FunctionName a))
    (EText ("forbidden SAC admin method " +:+ quoted (FunctionName a) +:+ " called at " +:+ path)).

Definition trueMap (names : list string) : gmap string bool :=
  list_to_map (map (λ name, (name, true)) names).

Definition ForbiddenSACAdminRule (Additional : list string) : PolicyRule :=
  mkRule "forbidden_sac_admin"
    (λ entry _,
       lift (checkInvocation (notForbidden (trueMap (defaultSACAdminMethods ++ Additional))) "root"
               (RootInvocation entry))).

Definition NewFunctionAllowlistRule (allowedFunctions : list string) : gmap string bool :=
  trueMap allowedFunctions.

Definition functionAllowed (allowed : gmap string bool) (a : InvokeContractArgs) (path : string)
    : result unit :=
  refuse (negb (default false (allowed !! FunctionName a)))
    (EText ("function " +:+ quoted (FunctionName a) +:+ " not in allowlist (at " +:+ path +:+ ")")).

Definition FunctionAllowlistRule (allowed : gmap string bool) : PolicyRule :=
  mkRule "function_allowlist"
    (λ entry _, lift (checkInvocation (functionAllowed allowed) "root" (RootInvocation entry))).

(** *** The credential arm *)
Definition addressBound (entry : SorobanAuthorizationEntry) (credentialsKnown : bool) : result unit :=
  let t := Credentials_Type (Credentials entry) in
  if negb credentialsKnown then Ok tt
  else if (t =? CredentialsAddress)%Z then
    Err (EText "legacy ADDRESS credentials used; requires ADDRESS_V2 or ADDRESS_WITH_DELEGATES")
  else if (t =? CredentialsSourceAccount)%Z then Ok tt
  else if (t =? CredentialsAddressV2)%Z || (t =? CredentialsAddressWithDelegates)%Z then Ok tt
  else Err (EText ("unknown credentials type " +:+ Enum_String "SorobanCredentialsType" t)).

Definition AddressBoundRule : PolicyRule :=
  mkRule "address_bound" (λ entry known, lift (addressBound entry known)).

(** ** The signer (policy/policy.go) *)
Record PolicySigner := mkPolicySigner {
  policy_inner : Signer;
  policy_rules : list PolicyRule;
  policy_cfg : option RiskConfig;
  policy_verify : option (SorobanAuthorizationEntry → IO unit)
}.

Definition PolicySignerOption : Type := PolicySigner → PolicySigner.

Definition WithRiskConfig (cfg : option RiskConfig) : PolicySignerOption := λ p,
  match cfg with
  | Some cfg => mkPolicySigner (policy_inner p) (policy_rules p) (Some cfg) (policy_verify p)
  | None => p
  end.

Definition WithCustomVerifier (fn : option (SorobanAuthorizationEntry → IO unit)) : PolicySignerOption :=
  λ p, mkPolicySigner (policy_inner p) (policy_rules p) (policy_cfg p) fn.

(** [None] is the panic on a nil signer. *)
Definition NewPolicySigner (inner : option Signer) (rules : list PolicyRule)
    (opts : list PolicySignerOption) : option PolicySigner :=
  match inner with
  | None => None
  | Some inner => Some (foldl (λ p opt, opt p) (mkPolicySigner inner rules None None) opts)
  end.

(** The entry a preimage stands for.  The signature of the rebuilt credentials
    is the zero [ScVal]. *)
Definition extractEntryFromPreimage (preimage : HashIdPreimage)
    : result (SorobanAuthorizationEntry * bool) :=
  let t := Preimage_Type preimage in
  if (t =? EnvelopeTypeSorobanAuthorization)%Z then
    match SorobanAuthorization preimage with
    | None => Err (EText "preimage: missing SorobanAuthorization")
    | Some p => Ok (mkEntry (credentialsOf CredentialsSourceAccount) (Invocation p), false)
    end
  else if (t =? EnvelopeTypeSorobanAuthorizationWithAddress)%Z then
    match SorobanAuthorizationWithAddress preimage with
    | None => Err (EText "preimage: missing SorobanAuthorizationWithAddress")
    | Some p =>
        Ok (mkEntry
              (mkCredentials CredentialsAddressV2 None
                 (Some (mkAddressCredentials (WithAddress_Address p) (WithAddress_Nonce p)
                          (WithAddress_SignatureExpirationLedger p) (ScvBool None))) None)
              (WithAddress_Invocation p), true)
    end
  else Err (EText ("preimage: unsupported type " +:+ Enum_String "EnvelopeType" t)).

Definition locateViolation (entry : SorobanAuthorizationEntry) : string :=
  match Invocation_Function (RootInvocation entry) with
  | FunctionContractFn (Some a) =>
      match ContractAddress a with
      | ScAddressTypeContract (Some id) => contractIdToString (Some id)
      | _ => "entry"
      end
  | _ => "entry"
  end.

Definition isCritical (f : Finding) : bool :=
  match Severity f with SeverityCritical => true | _ => false end.

Fixpoint refuseCritical (findings : list Finding) : result unit :=
  match findings with
  | [] => Ok tt
  | f :: findings =>
      if isCritical f then
        Err (PolicyRefusal ("risk:" +:+ Code f) "entry" (Some (EText (Description f))))
      else refuseCritical findings
  end.

Definition io_refused {A} (rule node : string) (m : IO A) : IO A :=
  λ w, let '(r, w') := m w in (refused rule node r, w').

Fixpoint evaluateRules (entry : SorobanAuthorizationEntry) (known : bool) (rules : list PolicyRule)
    : IO unit :=
  match rules with
  | [] => mret tt
  | rule :: rules =>
      _ ← io_refused (Rule_Name rule) (locateViolation entry) (Evaluate rule entry known);
      evaluateRules entry known rules
  end.

Definition PolicySigner_Sign (p : PolicySigner) (ctx : Ctx) (preimage : HashIdPreimage)
    (payload : bytes) : IO ScVal :=
  _ ← ctx_check ctx "policy: sign";
  '(entry, known) ← lift (refused "decode" "preimage"
      (wrap "failed to extract entry from preimage" (extractEntryFromPreimage preimage)));
  findings ← lift (refused "analyze" "entry" (wrap "risk analysis failed" (Analyze entry (policy_cfg p))));
  _ ← lift (refuseCritical findings);
  _ ← evaluateRules entry known (policy_rules p);
  _ ← (match policy_verify p with
       | Some verify => io_refused "custom" "entry" (verify entry)
       | None => mret tt
       end);
  call_Sign (policy_inner p) ctx preimage payload.

Definition PolicySigner_asSigner (p : PolicySigner) : Signer :=
  mkSigner (signer_Address (policy_inner p)) (PolicySigner_Sign p) None.
End policy.

(** ** What the rules ask of an invocation tree *)
(** The contract calls of a tree, in the order of the walk. *)
Fixpoint calls (inv : SorobanAuthorizedInvocation) : list InvokeContractArgs :=
  match inv with
  | mkInvocation f subs =>
      (match f with FunctionContractFn (Some a) => [a] | _ => [] end) ++ concat (map calls subs)
  end.

(** The numbers of a value that [MaxAmountRule] looks at: 64- and 128-bit
    integers, in vectors and in the values of maps. *)
Fixpoint numbers (v : ScVal) : list Z :=
  match v with
  | ScvU64 (Some n) | ScvI64 (Some n) => [n]
  | ScvU128 (Some (hi, lo)) | ScvI128 (Some (hi, lo)) => [(hi * 2 ^ 64 + lo)%Z]
  | ScvVec (Some (Some l)) => concat (map numbers l)
  | ScvMap (Some (Some m)) => concat (map (λ kv, numbers kv.2) m)
  | _ => []
  end.

(** The words of the 128-bit integers are in range, as Go's types make them. *)
Fixpoint sized (v : ScVal) : Prop :=
  match v with
  | ScvU128 (Some (hi, lo)) => (0 <= hi)%Z ∧ (0 <= lo < 2 ^ 64)%Z
  | ScvI128 (Some (hi, lo)) => (0 <= lo < 2 ^ 64)%Z
  | ScvVec (Some (Some l)) => foldr (λ v P, sized v ∧ P) True l
  | ScvMap (Some (Some m)) => foldr (λ kv P, sized kv.2 ∧ P) True m
  | _ => True
  end.

Lemma foldr_Forall {A} (P : A → Prop) l : foldr (λ x Q, P x ∧ Q) True l ↔ Forall P l.
Proof. induction l as [|x l IH]; cbn; [by rewrite Forall_nil|]. by rewrite Forall_cons, IH. Qed.

Lemma Forall_concat_map {A B} (P : B → Prop) (f : A → list B) l :
  Forall P (concat (map f l)) ↔ Forall (λ x, Forall P (f x)) l.
Proof.
  induction l as [|x l IH]; cbn; [by rewrite !Forall_nil|]. by rewrite Forall_app, Forall_cons, IH.
Qed.

Lemma iterM_Forall {A} (f : nat → A → result unit) (P : A → Prop) i l :
  Forall (λ x, ∀ j, f j x = Ok tt ↔ P x) l → iterM_from f i l = Ok tt ↔ Forall P l.
Proof.
  intros Hf. revert i. induction Hf as [|x l Hx Hl IH]; intros i; cbn; [by rewrite Forall_nil|].
  rewrite bind_Ok, Forall_cons, <-(IH (S i)), <-(Hx i). split.
  - by intros ([] & ? & ?).
  - intros [? ?]. by exists tt.
Qed.

Lemma checkScVal_Ok max : (0 <= max < 2 ^ 64)%Z → ∀ v loc,
  sized v → checkScVal max loc v = Ok tt ↔ Forall (λ n, (n <= max)%Z) (numbers v).
Proof.
  intros Hmax v. apply ScVal_nested_ind with (v := v); clear v.
  - intros v. destruct v as [| | | | |[n|]|[n|]| | |[[hi lo]|]|[[hi lo]|]| | | | | |[[l|]|]|[[l|]|]| |
      [[e s]|]| | | |]; cbn; try done; try (by right); try (intros _ _; by rewrite ?Forall_nil).
    + intros loc _. rewrite refuse_Ok, Forall_singleton. destruct (Z.gtb_spec n max); naive_solver lia.
    + intros loc _. rewrite refuse_Ok, Forall_singleton.
      destruct (Z.gtb_spec n max), (Z.gtb_spec n 0); cbn; naive_solver lia.
    + intros loc [Hhi Hlo]. rewrite refuse_Ok, Forall_singleton.
      destruct (Z.gtb_spec hi 0), (Z.gtb_spec lo max); cbn; split; intros; try done; nia.
    + intros loc Hlo. rewrite refuse_Ok, Forall_singleton.
      destruct (Z.gtb_spec hi 0), (Z.eqb_spec hi 0), (Z.gtb_spec lo 0), (Z.gtb_spec lo max);
        cbn; split; intros; try done; nia.
  - intros l IH loc Hs. cbn in Hs |- *. rewrite foldr_Forall in Hs.
    rewrite Forall_concat_map. apply iterM_Forall.
    rewrite Forall_forall in IH, Hs |- *. intros v Hv j. apply (IH v Hv). by apply Hs.
  - intros l IH loc Hs. cbn in Hs |- *. rewrite (foldr_Forall (λ kv, sized kv.2)) in Hs.
    rewrite Forall_concat_map. apply iterM_Forall.
    rewrite Forall_forall in IH, Hs |- *. intros kv Hkv j. apply (proj2 (IH kv Hkv)). by apply Hs.
  - done.
Qed.

Section rules.
Context `{SDKLaws}.

Lemma checkInvocation_Ok check (P : InvokeContractArgs → Prop) inv path :
  Forall (λ a, ∀ path, check a path = Ok tt ↔ P a) (calls inv) →
  checkInvocation check path inv = Ok tt ↔ Forall P (calls inv).
Proof.
  revert path. induction inv as [f subs IH] using invocation_nested_ind. intros path Hc.
  cbn in Hc |- *.
  rewrite Forall_app, (Forall_concat_map _ calls subs) in Hc. rewrite Forall_app, (Forall_concat_map _ calls subs). destruct Hc as [Hf Hs].
  rewrite bind_Ok, <-(iterM_Forall
    (λ i sub, checkInvocation check (path +:+ "/sub[" +:+ pretty i +:+ "]") sub) _ 0).
  - assert (Hhere : (match f with FunctionContractFn (Some a) => check a path | _ => Ok tt end) = Ok tt ↔
      Forall P (match f with FunctionContractFn (Some a) => [a] | _ => [] end)).
    { destruct f as [[a|]| | |]; try (by rewrite Forall_nil). rewrite Forall_singleton.
      rewrite Forall_singleton in Hf. apply Hf. }
    rewrite <-Hhere. split; [by intros ([] & ? & ?)|]. intros [? ?]. by exists tt.
  - rewrite Forall_forall in IH, Hs |- *. intros sub Hsub j. apply (IH sub Hsub). by apply Hs.
Qed.

(** The rules of the package, and what each asks of the tree. *)
Inductive BuiltinRule :=
| Contracts (allowed : gmap string bool)
| MaxAmount (maxAmount : Z)
| ForbiddenSACAdmin (Additional : list string)
| Functions (allowed : gmap string bool)
| AddressBound.

Definition rule_of (r : BuiltinRule) : PolicyRule :=
  match r with
  | Contracts allowed => ContractAllowlistRule allowed
  | MaxAmount max => MaxAmountRule max
  | ForbiddenSACAdmin extra => ForbiddenSACAdminRule extra
  | Functions allowed => FunctionAllowlistRule allowed
  | AddressBound => AddressBoundRule
  end.

Definition call_permitted (r : BuiltinRule) (a : InvokeContractArgs) : Prop :=
  match r with
  | Contracts allowed =>
      ∀ id, ContractAddress a = ScAddressTypeContract (Some id) →
        allowed !! (contractIdToString (Some id)) = Some true
  | MaxAmount max => Forall (λ v, Forall (λ n, (n <= max)%Z) (numbers v)) (Args a)
  | ForbiddenSACAdmin extra =>
      (FunctionName a ∉ defaultSACAdminMethods) ∧ (FunctionName a ∉ extra)
  | Functions allowed => allowed !! FunctionName a = Some true
  | AddressBound => True
  end.

Lemma trueMap_lookup names name : trueMap names !! name = Some true ↔ name ∈ names.
Proof.
  unfold trueMap. induction names as [|n names IH]; cbn.
  - rewrite lookup_empty. split; [done|]. by intros ?%not_elem_of_nil.
  - rewrite elem_of_cons, <-IH. destruct (decide (n = name)) as [->|Hn].
    + rewrite lookup_insert_eq. naive_solver.
    + rewrite lookup_insert_ne by done. naive_solver.
Qed.

Lemma default_false (o : option bool) : default false o = true ↔ o = Some true.
Proof. destruct o as [[]|]; cbn; naive_solver. Qed.

(** The arguments of every call have sized integers. *)
Definition sized_tree (inv : SorobanAuthorizedInvocation) : Prop :=
  Forall (λ a, Forall sized (Args a)) (calls inv).

Definition bounded_rule (r : BuiltinRule) : Prop :=
  match r with MaxAmount max => (0 <= max < 2 ^ 64)%Z | _ => True end.

(** The entries [extractEntryFromPreimage] builds. *)
Definition rebuilt (entry : SorobanAuthorizationEntry) (known : bool) : Prop :=
  if known then Credentials_Type (Credentials entry) = CredentialsAddressV2
  else Credentials entry = CredentialsOfSourceAccount.

Lemma rule_of_pure r entry known :
  ∃ m, ∀ w, Evaluate (rule_of r) entry known w = (m, w) ∧
    (bounded_rule r → rebuilt entry known → sized_tree (RootInvocation entry) →
     m = Ok tt ↔ Forall (call_permitted r) (calls (RootInvocation entry))).
Proof.
  destruct r as [allowed|max|extra|allowed|]; cbn; eexists; intros w; (split; [reflexivity|]).
  - intros _ _ _. apply checkInvocation_Ok, Forall_forall. intros a _ path. unfold contractAllowed, call_permitted.
    destruct (ContractAddress a) as [|[id|]| | | |]; try naive_solver.
    cbv zeta. rewrite refuse_Ok, negb_false_iff, default_false. naive_solver.
  - intros Hb _ Hs. apply checkInvocation_Ok. apply (Forall_impl _ _ _ Hs). intros a Ha path.
    unfold checkInvocationArgs. apply iterM_Forall. apply (Forall_impl _ _ _ Ha). intros v Hv j.
    by apply checkScVal_Ok.
  - intros _ _ _. apply checkInvocation_Ok, Forall_forall. intros a _ path. unfold notForbidden, call_permitted.
    rewrite refuse_Ok, <-not_elem_of_app, <-trueMap_lookup, <-default_false. by rewrite not_true_iff_false.
  - intros _ _ _. apply checkInvocation_Ok, Forall_forall. intros a _ path. unfold functionAllowed.
    by rewrite refuse_Ok, negb_false_iff, default_false.
  - intros _ Hr _. split; [intros _; by apply Forall_forall|]. intros _. unfold addressBound.
    destruct known; cbn in Hr |- *; [by rewrite Hr|done].
Qed.

Definition refusal (r : result ScVal) : Prop := ∃ rule node cause, r = Err (PolicyRefusal rule node (Some cause)).

Lemma evaluateRules_decides entry known rules w :
  Forall bounded_rule rules → rebuilt entry known → sized_tree (RootInvocation entry) →
  let ok := Forall (λ r, Forall (call_permitted r) (calls (RootInvocation entry))) rules in
  let '(m, w') := evaluateRules entry known (map rule_of rules) w in
  w' = w ∧ ((m = Ok tt ∧ ok) ∨
            (∃ rule node cause, m = Err (PolicyRefusal rule node (Some cause))) ∧ ¬ ok).
Proof.
  intros Hb Hr Hs. induction rules as [|r rules IH]; cbn.
  - split; [done|]. left. by rewrite Forall_nil.
  - apply Forall_cons in Hb as [Hb1 Hb2]. specialize (IH Hb2). cbn in IH.
    destruct (rule_of_pure r entry known) as (m & Hm). destruct (Hm w) as [Heval Hiff].
    specialize (Hiff Hb1 Hr Hs). unfold io_refused, mbind, IO_bind. rewrite Heval.
    destruct m as [[]|e]; cbn.
    + pose proof (proj1 Hiff eq_refl) as Hok.
      destruct (evaluateRules entry known (map rule_of rules) w) as [m' w']. rewrite Forall_cons.
      destruct IH as [-> [[-> Hf]|[Hr' Hf]]]; (split; [done|]); [by left|right; by split; [|intros [_ ?]]].
    + split; [done|]. rewrite Forall_cons. right. split; [eauto|]. intros [Hok _]. by apply Hiff in Hok.
Qed.

(** *** The analysis of a rebuilt entry *)
Lemma refuseCritical_Ok fs : refuseCritical fs = Ok tt ↔ Forall (λ f, isCritical f = false) fs.
Proof.
  induction fs as [|f fs IH]; cbn; [by rewrite Forall_nil|]. rewrite Forall_cons, <-IH.
  destruct (isCritical f); naive_solver.
Qed.

Lemma refuseCritical_total fs :
  refuseCritical fs = Ok tt ∨ ∃ rule cause, refuseCritical fs = Err (PolicyRefusal rule "entry" (Some cause)).
Proof. induction fs as [|f fs IH]; cbn; [by left|]. destruct (isCritical f); eauto. Qed.

Lemma Forall_critical fs : Forall (λ f, isCritical f = false) fs ↔ existsb isCritical fs = false.
Proof.
  induction fs as [|f fs IH]; cbn; [by rewrite Forall_nil|]. by rewrite Forall_cons, orb_false_iff, IH.
Qed.

Lemma critical_check b f l : existsb isCritical (check b f ++ l) = (b && isCritical f) || existsb isCritical l.
Proof. rewrite existsb_app. f_equal. by destruct b; cbn; rewrite ?orb_false_r. Qed.

Lemma critical_check_last b f : existsb isCritical (check b f) = b && isCritical f.
Proof. by destruct b; cbn; rewrite ?orb_false_r. Qed.

Lemma rawFindings_critical entry info cfg :
  Info_Delegates info = [] → Credentials_AddressWithDelegates (Credentials entry) = None →
  Forall (λ f, isCritical f = false) (rawFindings entry info cfg) ↔
  (Info_ValidUntilLedger info ≠ 0%Z ∨ Info_CredentialType info = CredentialTypeSourceAccount).
Proof.
  intros Hd Hc. rewrite Forall_critical. unfold rawFindings. cbv zeta. rewrite Hd, Hc.
  cbn [analyzeDelegates map concat length app].
  rewrite !critical_check, critical_check_last. cbn [isCritical Severity sourceWithDelegates].
  rewrite !andb_false_r, !andb_true_r, !orb_false_l, !orb_false_r.
  destruct (Z.eqb_spec (Info_ValidUntilLedger info) 0) as [Hz|Hz];
    destruct (String.eqb_spec (Info_CredentialType info) CredentialTypeSourceAccount) as [Hs|Hs];
    cbn; naive_solver.
Qed.

Lemma Inspect_rebuilt pre entry known info :
  extractEntryFromPreimage pre = Ok (entry, known) → Inspect entry = Ok info →
  rebuilt entry known ∧ Info_Delegates info = [] ∧
  Credentials_AddressWithDelegates (Credentials entry) = None ∧
  ((Info_ValidUntilLedger info ≠ 0%Z ∨ Info_CredentialType info = CredentialTypeSourceAccount) ↔
   ∀ p, pre = PreimageOfSorobanAuthorizationWithAddress (Some p) →
     WithAddress_SignatureExpirationLedger p ≠ 0%Z).
Proof.
  unfold extractEntryFromPreimage. intros Hx Hi.
  destruct pre as [[a|]|[a|]|t]; cbn in Hx; try discriminate Hx.
  - injection Hx as <- <-. unfold Inspect in Hi. cbn -[FormatAddress countSubInvocations] in Hi. inv_ok.
    match goal with x : string * string |- _ => destruct x end. inv_ok. cbn. naive_solver.
  - injection Hx as <- <-. unfold Inspect in Hi. apply bind_Ok in Hi as (i & Hi & Hr).
    unfold inspectCredentials in Hi. cbn -[FormatAddress] in Hi. inv_ok.
    match goal with x : string * string |- _ => destruct x end. inv_ok. cbn. split; [done|]. split; [done|]. split; [done|].
    split; [|intros Hz; left; by apply Hz]. intros [Hz|Hz] p Hp; [by injection Hp as <-|discriminate Hz].
  - destruct (_ =? _)%Z; [discriminate Hx|]. by destruct (_ =? _)%Z.
Qed.

(** *** The decision *)
(** What the rules and the analysis let through. *)
Definition permitted (rules : list BuiltinRule) (preimage : HashIdPreimage) : Prop :=
  ∃ entry known, extractEntryFromPreimage preimage = Ok (entry, known) ∧
    (∃ info, Inspect entry = Ok info) ∧
    (∀ p, preimage = PreimageOfSorobanAuthorizationWithAddress (Some p) →
       WithAddress_SignatureExpirationLedger p ≠ 0%Z) ∧
    Forall (λ r, Forall (call_permitted r) (calls (RootInvocation entry))) rules.

(** C24. With the package's own rules, a policy signer asks its inner signer,
    with the very preimage and payload it was given, exactly when the preimage
    is one of the two authorization variants, its invocation tree can be
    inspected, an address-bound one does not expire at ledger zero, and every
    contract call anywhere in the tree satisfies every rule: the contract or
    function is on the allowlist, no 64- or 128-bit argument exceeds the
    maximum.  Otherwise it answers with a policy refusal and the inner signer
    is not asked.  [AddressBoundRule] never refuses. *)
Theorem PolicySigner_decides inner rules cfg p ctx preimage payload w :
  NewPolicySigner (Some inner) (map rule_of rules) [WithRiskConfig cfg] = Some p →
  ctx_Err ctx (now w) = None → Forall bounded_rule rules →
  (∀ entry known, extractEntryFromPreimage preimage = Ok (entry, known) →
     sized_tree (RootInvocation entry)) →
  (permitted rules preimage →
   signer_Sign (PolicySigner_asSigner p) ctx preimage payload w =
     call_Sign inner ctx preimage payload (tick w)) ∧
  (¬ permitted rules preimage →
   ∃ r, signer_Sign (PolicySigner_asSigner p) ctx preimage payload w = (r, tick w) ∧ refusal r).
Proof.
  intros Hp Hctx Hb Hsized. injection Hp as Hp.
  assert (Hfields : policy_inner p = inner ∧ policy_rules p = map rule_of rules ∧ policy_verify p = None).
  { rewrite <-Hp. by destruct cfg. }
  destruct Hfields as (Hin & Hru & Hve). clear Hp. cbn [signer_Sign PolicySigner_asSigner].
  remember (PolicySigner_Sign p ctx preimage payload w) as out eqn:Hr.
  assert (Hlive : ctx_check ctx "policy: sign" w = (Ok tt, tick w)) by (by apply ctx_check_Ok).
  assert (Hstop : ∀ rule node cause (P : Prop), ¬ P → out = (Err (PolicyRefusal rule node (Some cause)), tick w) →
    (P → out = call_Sign inner ctx preimage payload (tick w)) ∧
    (¬ P → ∃ r, out = (r, tick w) ∧ refusal r)) by (unfold refusal; naive_solver).
  unfold PolicySigner_Sign in Hr. rewrite Hin, Hru, Hve in Hr.
  unfold mbind, IO_bind in Hr. rewrite Hlive in Hr. unfold lift in Hr.
  destruct (extractEntryFromPreimage preimage) as [[entry known]|e] eqn:Hx.
  2:{ eapply Hstop; [|exact Hr]. intros (? & ? & Hx' & _). by rewrite Hx in Hx'. }
  specialize (Hsized _ _ eq_refl). cbn [wrap refused] in Hr. unfold Analyze in Hr.
  destruct (Inspect entry) as [info|e] eqn:Hi.
  2:{ eapply Hstop; [|exact Hr]. intros (? & ? & Hx' & (? & Hi') & _).
      rewrite Hx in Hx'. injection Hx' as <- <-. by rewrite Hi in Hi'. }
  destruct (Inspect_rebuilt _ _ _ _ Hx Hi) as (Hreb & Hd & Hc & Hexp).
  cbn [wrap refused mbind result_bind] in Hr. set (fs := exchangeSort _) in Hr.
  assert (Hcrit : refuseCritical fs = Ok tt ↔ ∀ p, preimage = PreimageOfSorobanAuthorizationWithAddress (Some p) →
     WithAddress_SignatureExpirationLedger p ≠ 0%Z).
  { rewrite refuseCritical_Ok, <-Hexp, <-(rawFindings_critical entry info (default DefaultRiskConfig (policy_cfg p))) by done.
    unfold fs. by rewrite (proj1 (exchangeSort_spec _)). }
  destruct (refuseCritical_total fs) as [Hok|(rule & cause & Hbad)].
  2:{ rewrite Hbad in Hr. eapply Hstop; [|exact Hr]. intros (? & ? & _ & _ & He & _).
      pose proof (proj2 Hcrit He). congruence. }
  rewrite Hok in Hr. pose proof (proj1 Hcrit Hok) as Hexpires.
  pose proof (evaluateRules_decides entry known rules (tick w) Hb Hreb Hsized) as Hev. cbn zeta in Hev.
  destruct (evaluateRules entry known (map rule_of rules) (tick w)) as [m w'].
  destruct Hev as [-> [[-> Hall]|[(rule & node & cause & ->) Hnot]]].
  - split; [done|]. intros Hn. exfalso. apply Hn. exists entry, known. eauto.
  - eapply Hstop; [|exact Hr]. intros (? & ? & Hx' & _ & _ & Ha).
    rewrite Hx in Hx'. by injection Hx' as <- <-.
Qed.
End rules.

(** ** Concrete requests *)
Definition ex_request : HashIdPreimage :=
  match Preimage (ex_v2 "a" 1000 ScvVoid) 1000 ex_network with
  | Ok p => p | Err _ => PreimageOther 0 end.
Definition ex_rules : list BuiltinRule :=
  [Contracts (trueMap [ex_contract_text "z"; ex_contract_text "y"]); MaxAmount 100;
   ForbiddenSACAdmin []; Functions (trueMap ["transfer"; "burn"]); AddressBound].
Definition ex_policy (rules : list BuiltinRule) : PolicySigner :=
  mkPolicySigner (ex_signer "a") (map rule_of rules) None None.

Definition ex_answer (rules : list BuiltinRule) (preimage : HashIdPreimage) : result ScVal :=
  fst (PolicySigner_Sign (ex_policy rules) Background preimage (ex_key "p") initial_world).

(** A 256-bit amount of any size, a number as a map's key, and the creation of
    a contract pass every rule. *)
Example ex_policy_passes :
  let request inv := PreimageOfSorobanAuthorization (Some (mkSorobanAuthorization (ex_key "n") 1 0 inv)) in
  let transfer args := mkInvocation
    (FunctionContractFn (Some (mkInvokeContractArgs (ex_contract "z") "transfer" args))) [] in
  is_ok (ex_answer ex_rules (request (transfer [ScvU256 (Some (1, 0, 0, 0)%Z)]))) = true ∧
  is_ok (ex_answer ex_rules (request (transfer [ScvMap (Some (Some [(ScvU64 (Some 1000%Z), ScvVoid)]))]))) = true ∧
  is_ok (ex_answer ex_rules (request (mkInvocation (FunctionCreateContractHostFn None) []))) = true ∧
  is_ok (ex_answer ex_rules (request (transfer [ScvU64 (Some 101%Z)]))) = false.
Proof. vm_compute. done. Qed.

(** The cause of a refusal is in its text, but [errors.Is] does not reach it. *)
Example ex_refusal_cause :
  match ex_answer ex_rules (PreimageOfSorobanAuthorization (Some (mkSorobanAuthorization (ex_key "n") 1 0
    (mkInvocation (FunctionUnknown 9) [])))) with
  | Err e => errors_Is e ErrPolicyRefusal && negb (errors_Is e ErrUnsupportedFunctionType)
  | Ok _ => false
  end = true.
Proof. vm_compute. reflexivity. Qed.

Definition ex_rebuilt : SorobanAuthorizationEntry :=
  mkEntry (mkCredentials CredentialsAddressV2 None (Some (ex_credentials "a" 1000 (ScvBool None))) None)
    ex_invocation.

Lemma ex_request_permitted : permitted ex_rules ex_request.
Proof.
  eexists _, _. split; [vm_compute; reflexivity|]. split; [eexists; vm_compute; reflexivity|].
  split.
  { intros p Hp. assert (He : WithAddress_SignatureExpirationLedger <$> SorobanAuthorizationWithAddress ex_request
      = Some 1000%Z) by (vm_compute; reflexivity).
    rewrite Hp in He. cbn in He. injection He as ->. done. }
  repeat constructor; cbn; try (intros id [= <-]); try (vm_compute; reflexivity);
    apply (bool_decide_unpack _); vm_compute; exact I.
Qed.

Lemma PolicySigner_decides_witness :
  permitted ex_rules ex_request ∧
  signer_Sign (PolicySigner_asSigner (ex_policy ex_rules)) Background ex_request (ex_key "p") initial_world =
    call_Sign (ex_signer "a") Background ex_request (ex_key "p") (tick initial_world).
Proof.
  split; [exact ex_request_permitted|].
  apply (PolicySigner_decides (ex_signer "a") ex_rules None (ex_policy ex_rules)); [reflexivity|reflexivity|..|
    exact ex_request_permitted].
  - repeat constructor; cbn; lia.
  - intros entry known Hx. assert (He : extractEntryFromPreimage ex_request = Ok (ex_rebuilt, true)) by reflexivity.
    rewrite He in Hx. injection Hx as <- <-. repeat constructor.
Defined.
