(* ===== verification/Ledger.v ===== *)
(** * Ledger: a hardware wallet as a signer (ledger.go)

    The signer talks to the Stellar app of a device in short APDUs: it reads
    the public key once, then sends a preimage in chunks and gets a signature
    back.  [signPreimage_chunks] shows the loop to terminate and to send
    exactly the chunks of [ledgerChunks], which carry the path and the whole
    preimage; [LedgerSigner_sound] says what a returned signature was checked
    against, and [exchange_status] which refusal each status word is.

    The transport is caller code: a function of the context and the command,
    which may act on the world. *)
From Stdlib Require Import ZArith Lia Strings.Byte String.
From stdpp Require Import base list strings pretty.
From S2P Require Import Prelude Encoding Errors Xdr ModelSDK Runtime Examples Address Limits Arm Preimage Signers.
From S2P Require Import Secp256r1 WebAuthn.

Open Scope string_scope. Open Scope nat_scope. Open Scope list_scope.

Definition ledgerCLA : Byte.byte := xe0.
Definition ledgerINSGetPubKey : Byte.byte := x02.
Definition ledgerINSSignSoroban : Byte.byte := x0a.
Definition ledgerP1First : Byte.byte := x00.
Definition ledgerP1More : Byte.byte := x80.
Definition ledgerP2Last : Byte.byte := x00.
Definition ledgerP2More : Byte.byte := x80.
Definition maxLedgerAPDUData : nat := 240.

Definition ledgerSWOK : Z := 0x9000.
Definition ledgerSWLocked : Z := 0x5515.
Definition ledgerSWDeny : Z := 0x6985.
Definition ledgerSWWrongLength : Z := 0x6700.
Definition ledgerSWWrongApduLength : Z := 0x6A87.
Definition ledgerSWWrongP1P2 : Z := 0x6B00.
Definition ledgerSWBlindSigningNotEnabled : Z := 0x6C66.
Definition ledgerSWInsNotSupported : Z := 0x6D00.
Definition ledgerSWCLANotSupported : Z := 0x6E00.

Definition LedgerTransport : Type := Ctx → bytes → IO bytes.

Record ledgerSignerConfig := mkLedgerConfig { accountIndex : Z }.
Definition LedgerSignerOption : Type := ledgerSignerConfig → ledgerSignerConfig.
Definition WithLedgerAccount (index : Z) : LedgerSignerOption := λ _, mkLedgerConfig index.

Record LedgerSigner := mkLedgerSigner {
  transport : option LedgerTransport;
  ledger_path : list Z;
  ledger_address : string;
  rawKey : bytes;
  ledger_publicKey : option bytes
}.

(** ** Commands *)
Definition ledgerEncodePath (path : list Z) : bytes :=
  Zbyte (Z.of_nat (length path)) :: concat (map (be_bytes 4) path).

Definition ledgerBuildAPDU (ins p1 p2 : Byte.byte) (data : bytes) : bytes :=
  [ledgerCLA; ins; p1; p2; Zbyte (Z.of_nat (length data))] ++ data.

Definition ledgerBuildGetPubKeyAPDU (path : list Z) : bytes :=
  ledgerBuildAPDU ledgerINSGetPubKey x00 x00 (ledgerEncodePath path).

(** ** One exchange *)
Definition statusText (status : Z) : string :=
  "status 0x" +:+ ToUpper (hex_EncodeToString (be_bytes 2 status)).

(** The status word of a response and the refusal it stands for. *)
Definition decodeResponse (response : bytes) : result bytes :=
  let n := length response in
  _ ← refuse (Nat.ltb n 2)
        (EWrap ("the device returned a " +:+ pretty n +:+ "-byte response, too short for a status word")
           (ESentinel ErrLedgerUnavailable));
  let data := take (n - 2) response in
  let byte i := byteZ (default x00 (response !! i)) in
  let status := Z.lor (Z.shiftl (byte (n - 2)) 8) (byte (n - 1)) in
  let one_of l := existsb (Z.eqb status) l in
  if (status =? ledgerSWOK)%Z then Ok data
  else if (status =? ledgerSWLocked)%Z then Err (ESentinel ErrLedgerLocked)
  else if (status =? ledgerSWDeny)%Z then Err (ESentinel ErrLedgerDenied)
  else if (status =? ledgerSWBlindSigningNotEnabled)%Z then Err (ESentinel ErrLedgerBlindSigningDisabled)
  else if one_of [ledgerSWCLANotSupported; ledgerSWInsNotSupported] then Err (ESentinel ErrLedgerWrongApp)
  else if one_of [ledgerSWWrongLength; ledgerSWWrongApduLength; ledgerSWWrongP1P2] then
    Err (EWrap ("the device rejected the APDU (" +:+ statusText status +:+ ")")
           (ESentinel ErrLedgerUnavailable))
  else Err (EWrap ("the device returned " +:+ statusText status) (ESentinel ErrLedgerUnavailable)).

Definition ledger_exchange (t : LedgerTransport) (ctx : Ctx) (apdu : bytes) : IO bytes :=
  response ← (λ w, match t ctx apdu w with
                   | (Ok response, w') => (Ok response, w')
                   | (Err e, w') => (Err (EWrap2 "" (ESentinel ErrLedgerUnavailable) e), w')
                   end);
  lift (decodeResponse response).

(** ** Sending a preimage *)
(** The loop at an offset.  [fuel] bounds the iterations;
    [signPreimage_chunks] shows the length of the preimage to be enough. *)
Fixpoint signPreimageLoop (fuel : nat) (t : LedgerTransport) (path : bytes) (ctx : Ctx)
    (preimageXDR : bytes) (offset : nat) : IO bytes :=
  match fuel with
  | O => lift (Err (EText "out of fuel"))
  | S fuel =>
      let first := Nat.eqb offset 0 in
      let capacity := if first then (Z.of_nat maxLedgerAPDUData - Z.of_nat (length path))%Z
                      else Z.of_nat maxLedgerAPDUData in
      if (capacity <=? 0)%Z then
        lift (Err (EWrap "the path leaves no room for preimage data" (ESentinel ErrLedgerUnavailable)))
      else
        let remaining := length preimageXDR - offset in
        let size := if Nat.ltb (Z.to_nat capacity) remaining then Z.to_nat capacity else remaining in
        let last := Nat.leb (length preimageXDR) (offset + size) in
        let data := (if first then path else []) ++ take size (drop offset preimageXDR) in
        let p1 := if first then ledgerP1First else ledgerP1More in
        let p2 := if last then ledgerP2Last else ledgerP2More in
        response ← ledger_exchange t ctx (ledgerBuildAPDU ledgerINSSignSoroban p1 p2 data);
        if last then
          lift (_ ← refuse (Nat.eqb (length response) 0)
                      (EWrap "the device returned no signature" (ESentinel ErrLedgerUnavailable));
                Ok response)
        else signPreimageLoop fuel t path ctx preimageXDR (offset + size)
  end.

Definition signPreimage (t : LedgerTransport) (path : list Z) (ctx : Ctx) (preimageXDR : bytes)
    : IO bytes :=
  signPreimageLoop (S (length preimageXDR)) t (ledgerEncodePath path) ctx preimageXDR 0.

(** ** The signer *)
Section ledger.
Context `{SDK}.

Definition LedgerSigner_Sign (s : LedgerSigner) (ctx : Ctx) (preimage : HashIdPreimage)
    (payload : bytes) : IO ScVal :=
  let op := "soroauth: ledger sign" in
  _ ← ctx_check ctx op;
  '(t, publicKey) ← lift (match transport s, ledger_publicKey s with
                          | Some t, Some k => Ok (t, k)
                          | _, _ => Err (EWrap op (ESentinel ErrMissingSigner))
                          end);
  expected ← lift (wrap op (Payload preimage));
  _ ← lift (refuse (negb (bytes_Equal expected payload))
        (EWrap (op +:+ ": payload does not match the preimage") (ESentinel ErrSignatureMismatch)));
  preimageXDR ← lift (wrap (op +:+ ": encoding the preimage") (MarshalBinary preimage));
  signature ← io_wrap op (signPreimage t (ledger_path s) ctx preimageXDR);
  _ ← lift (refuse (negb (Nat.eqb (length signature) 64))
        (EWrap (op +:+ ": device returned a " +:+ pretty (length signature) +:+
                "-byte signature, want 64") (ESentinel ErrLedgerUnavailable)));
  _ ← lift (refuse (negb (ed25519_Verify publicKey payload signature))
        (EWrap op (ESentinel ErrSignatureMismatch)));
  mret (scVec [accountSignature (rawKey s) signature]).

Definition hardened (n : Z) : Z := Z.lor n 0x80000000.

Definition ledgerOptions (opts : list (option LedgerSignerOption)) : ledgerSignerConfig :=
  foldl (λ cfg opt, match opt with Some opt => opt cfg | None => cfg end) (mkLedgerConfig 0) opts.

Definition NewLedgerSigner (ctx : Ctx) (transport : option LedgerTransport)
    (opts : list (option LedgerSignerOption)) : IO LedgerSigner :=
  let op := "soroauth: new ledger signer" in
  t ← lift (of_option transport (EWrap op (ESentinel ErrLedgerUnavailable)));
  let path := [hardened 44; hardened 148; hardened (accountIndex (ledgerOptions opts))] in
  response ← io_wrap op (ledger_exchange t ctx (ledgerBuildGetPubKeyAPDU path));
  _ ← lift (refuse (negb (Nat.eqb (length response) 32))
        (EWrap (op +:+ ": public key response is " +:+ pretty (length response) +:+ " bytes, want 32")
           (ESentinel ErrLedgerUnavailable)));
  address ← lift (wrap (op +:+ ": encoding the device's address") (strkey_Encode VersionByteAccountID response));
  mret (mkLedgerSigner (Some t) path address response (Some response)).

Definition LedgerSigner_asSigner (s : LedgerSigner) : Signer :=
  mkSigner (ledger_address s) (LedgerSigner_Sign s) None.
End ledger.

(** ** What is sent *)
(** Sends commands in order, stopping at the first failure; the answer is the
    last one's. *)
Fixpoint sendAll (t : LedgerTransport) (ctx : Ctx) (apdus : list bytes) : IO bytes :=
  match apdus with
  | [] => mret []
  | [apdu] => ledger_exchange t ctx apdu
  | apdu :: apdus => _ ← ledger_exchange t ctx apdu; sendAll t ctx apdus
  end.

Definition nonemptyAnswer (m : IO bytes) : IO bytes :=
  response ← m;
  lift (_ ← refuse (Nat.eqb (length response) 0)
              (EWrap "the device returned no signature" (ESentinel ErrLedgerUnavailable));
        Ok response).

(** The commands for the parts of a preimage; the first carries the path. *)
Fixpoint ledgerChunks (p1 : Byte.byte) (prefix : bytes) (parts : list bytes) : list bytes :=
  match parts with
  | [] => []
  | [part] => [ledgerBuildAPDU ledgerINSSignSoroban p1 ledgerP2Last (prefix ++ part)]
  | part :: parts =>
      ledgerBuildAPDU ledgerINSSignSoroban p1 ledgerP2More (prefix ++ part) ::
      ledgerChunks ledgerP1More [] parts
  end.

(** The app's side of the protocol: the data of a sequence of commands, when
    headers and lengths are right, the first command says first and only the
    last says last. *)
Definition apduData (p1 p2 : Byte.byte) (apdu : bytes) : option bytes :=
  match apdu with
  | cla :: ins :: b1 :: b2 :: lc :: data =>
      if bool_decide (cla = ledgerCLA ∧ ins = ledgerINSSignSoroban ∧ b1 = p1 ∧ b2 = p2 ∧
                      byteZ lc = Z.of_nat (length data))
      then Some data else None
  | _ => None
  end.

Fixpoint reassemble (p1 : Byte.byte) (apdus : list bytes) : option bytes :=
  match apdus with
  | [] => None
  | [apdu] => apduData p1 ledgerP2Last apdu
  | apdu :: apdus =>
      data ← apduData p1 ledgerP2More apdu;
      rest ← reassemble ledgerP1More apdus;
      Some (data ++ rest)
  end.

Lemma apduData_build p1 p2 data :
  length data <= maxLedgerAPDUData →
  apduData p1 p2 (ledgerBuildAPDU ledgerINSSignSoroban p1 p2 data) = Some data.
Proof.
  unfold maxLedgerAPDUData. intros Hl. cbn. rewrite bool_decide_true; [done|].
  split_and!; try done. rewrite byteZ_Zbyte. rewrite Z.mod_small; lia.
Qed.

Lemma reassemble_cons p1 a as_ : as_ ≠ [] →
  reassemble p1 (a :: as_) =
    (data ← apduData p1 ledgerP2More a; rest ← reassemble ledgerP1More as_; Some (data ++ rest)).
Proof. by destruct as_. Qed.

Lemma ledgerChunks_nonempty p1 prefix parts : parts ≠ [] → ledgerChunks p1 prefix parts ≠ [].
Proof. by destruct parts as [|p [|q parts]]. Qed.

Lemma reassemble_chunks p1 prefix parts :
  parts ≠ [] → Forall (λ p, length (prefix ++ p) <= maxLedgerAPDUData) (take 1 parts) →
  Forall (λ p, length p <= maxLedgerAPDUData) parts →
  reassemble p1 (ledgerChunks p1 prefix parts) = Some (prefix ++ concat parts).
Proof.
  revert p1 prefix. induction parts as [|p parts IH]; [done|]. intros p1 prefix _ Hf Hl.
  rewrite Forall_cons in Hl. destruct Hl as [Hp Hl].
  change (take 1 (p :: parts)) with [p] in Hf. rewrite Forall_singleton in Hf.
  destruct parts as [|q parts]; [cbn [ledgerChunks reassemble]; rewrite apduData_build by done; by cbn; rewrite app_nil_r|].
  assert (IH' := IH ledgerP1More [] ltac:(done)). cbn [app take] in IH'.
  rewrite Forall_singleton, Forall_cons in IH'. rewrite Forall_cons in Hl.
  specialize (IH' (proj1 Hl) Hl).
  change (ledgerChunks p1 prefix (p :: q :: parts)) with
    (ledgerBuildAPDU ledgerINSSignSoroban p1 ledgerP2More (prefix ++ p) :: ledgerChunks ledgerP1More [] (q :: parts)).
  rewrite reassemble_cons by (by apply ledgerChunks_nonempty). rewrite apduData_build by done. cbn [mbind option_bind]. rewrite IH'.
  cbn [mbind option_bind concat]. by rewrite <-!app_assoc.
Qed.

Lemma ledgerChunks_cons p1 prefix p parts :
  parts ≠ [] →
  ledgerChunks p1 prefix (p :: parts) =
    ledgerBuildAPDU ledgerINSSignSoroban p1 ledgerP2More (prefix ++ p) :: ledgerChunks ledgerP1More [] parts
  ∧ ledgerChunks ledgerP1More [] parts ≠ [].
Proof. intros Hp. split; [by destruct parts|by apply ledgerChunks_nonempty]. Qed.

Lemma sendAll_cons t ctx a as_ : as_ ≠ [] →
  sendAll t ctx (a :: as_) = (_ ← ledger_exchange t ctx a; sendAll t ctx as_).
Proof. by destruct as_. Qed.

(** The loop sends the chunks of some division of what is left, whatever the
    fuel beyond its length. *)
Lemma signPreimageLoop_chunks path xdr : length path < maxLedgerAPDUData → ∀ fuel offset,
  length (drop offset xdr) < fuel → (offset = 0 ∨ drop offset xdr ≠ []) →
  ∃ parts, parts ≠ [] ∧ concat parts = drop offset xdr ∧
    Forall (λ p, length p <= maxLedgerAPDUData) parts ∧
    (offset = 0 → Forall (λ p, length (path ++ p) <= maxLedgerAPDUData) (take 1 parts)) ∧
    ∀ t ctx w, signPreimageLoop fuel t path ctx xdr offset w =
      nonemptyAnswer (sendAll t ctx (if Nat.eqb offset 0 then ledgerChunks ledgerP1First path parts
                                     else ledgerChunks ledgerP1More [] parts)) w.
Proof.
  unfold maxLedgerAPDUData. intros Hpath. induction fuel as [|fuel IH]; [lia|]. intros offset Hfuel Hoff.
  cbn [signPreimageLoop]. unfold maxLedgerAPDUData.
  set (first := Nat.eqb offset 0).
  set (capacity := if first then (Z.of_nat 240 - Z.of_nat (length path))%Z else Z.of_nat 240).
  assert (Hcap : (0 < capacity <= 240)%Z) by (unfold capacity; destruct first; lia).
  destruct (Z.leb_spec capacity 0) as [|_]; [lia|].
  set (size := if Nat.ltb (Z.to_nat capacity) (length xdr - offset) then Z.to_nat capacity
               else length xdr - offset).
  rewrite length_drop in Hfuel.
  assert (Hsize : size <= Z.to_nat capacity ∧ size <= length xdr - offset ∧
    (length xdr - offset = size ∨ 1 <= size)).
  { unfold size. destruct (Nat.ltb_spec (Z.to_nat capacity) (length xdr - offset)); lia. }
  assert (Hpart : length (take size (drop offset xdr)) <= size) by (rewrite length_take; lia).
  assert (Hfirst : offset = 0 → length (path ++ take size (drop offset xdr)) <= 240).
  { intros ->. rewrite length_app. unfold capacity, first in Hsize. cbn in Hsize. lia. }
  destruct (Nat.leb_spec (length xdr) (offset + size)) as [Hlast|Hlast].
  - exists [take size (drop offset xdr)]. split; [done|].
    split; [cbn; rewrite app_nil_r; rewrite take_ge; [done|rewrite length_drop; lia]|].
    split; [apply Forall_singleton; lia|]. split; [intros H0; apply Forall_singleton; by apply Hfirst|].
    intros t ctx w. subst first. by destruct (Nat.eqb_spec offset 0).
  - destruct (IH (offset + size)) as (parts & Hne & Hcat & Hall & _ & Hrun).
    { rewrite length_drop. lia. }
    { right. intros Hd. apply (f_equal length) in Hd. rewrite length_drop in Hd. cbn in Hd. lia. }
    exists (take size (drop offset xdr) :: parts). split; [done|].
    split; [cbn; rewrite Hcat, <-drop_drop; apply take_drop|].
    split; [apply Forall_cons; split; [lia|done]|]. split; [intros H0; apply Forall_singleton; by apply Hfirst|].
    intros t ctx w. assert (Hoff' : Nat.eqb (offset + size) 0 = false) by (apply Nat.eqb_neq; lia).
    rewrite Hoff' in Hrun. subst first.
    destruct (Nat.eqb_spec offset 0) as [H0|H0].
    + destruct (ledgerChunks_cons ledgerP1First path (take size (drop offset xdr)) parts Hne) as [-> Hn].
      rewrite sendAll_cons by done. unfold nonemptyAnswer, mbind, IO_bind.
      destruct (ledger_exchange t ctx _ w) as [[r|e] w1]; [apply Hrun|done].
    + destruct (ledgerChunks_cons ledgerP1More [] (take size (drop offset xdr)) parts Hne) as [-> Hn].
      rewrite sendAll_cons by done. unfold nonemptyAnswer, mbind, IO_bind.
      destruct (ledger_exchange t ctx _ w) as [[r|e] w1]; [apply Hrun|done].
Qed.

Lemma ledgerChunks_short p1 prefix parts :
  Forall (λ p, length (prefix ++ p) <= maxLedgerAPDUData) (take 1 parts) →
  Forall (λ p, length p <= maxLedgerAPDUData) parts →
  Forall (λ a, length a <= 5 + maxLedgerAPDUData) (ledgerChunks p1 prefix parts).
Proof.
  revert p1 prefix. induction parts as [|p parts IH]; intros p1 prefix Hf Hl; [constructor|].
  rewrite Forall_cons in Hl. destruct Hl as [Hp Hl].
  change (take 1 (p :: parts)) with [p] in Hf. rewrite Forall_singleton in Hf.
  destruct parts as [|q parts].
  - cbn [ledgerChunks]. rewrite Forall_singleton. unfold ledgerBuildAPDU. rewrite length_app. cbn [length]. lia.
  - change (ledgerChunks p1 prefix (p :: q :: parts)) with
      (ledgerBuildAPDU ledgerINSSignSoroban p1 ledgerP2More (prefix ++ p) :: ledgerChunks ledgerP1More [] (q :: parts)).
    apply Forall_cons. split.
    + unfold ledgerBuildAPDU. rewrite length_app. cbn [length]. lia.
    + apply IH; [|done]. cbn [take]. rewrite Forall_singleton. cbn [app]. rewrite Forall_cons in Hl. by destruct Hl.
Qed.

(** What the device is sent for a preimage. *)
Definition carries (path : list Z) (xdr : bytes) (apdus : list bytes) : Prop :=
  reassemble ledgerP1First apdus = Some (ledgerEncodePath path ++ xdr) ∧
  Forall (λ a, length a <= 5 + maxLedgerAPDUData) apdus.

Lemma signPreimage_carries path xdr :
  length (ledgerEncodePath path) < maxLedgerAPDUData →
  ∃ apdus, carries path xdr apdus ∧
    ∀ t ctx w, signPreimage t path ctx xdr w = nonemptyAnswer (sendAll t ctx apdus) w.
Proof.
  intros Hp.
  destruct (signPreimageLoop_chunks (ledgerEncodePath path) xdr Hp (S (length xdr)) 0)
    as (parts & Hne & Hcat & Hl & Hf & Hrun); [rewrite length_drop; lia|by left|].
  exists (ledgerChunks ledgerP1First (ledgerEncodePath path) parts). split; [|exact Hrun].
  specialize (Hf eq_refl). split; [|by apply ledgerChunks_short].
  rewrite reassemble_chunks by done. by rewrite Hcat, drop_0.
Qed.

(** *** Status words *)
Lemma word_value b1 b2 : Z.lor (Z.shiftl (byteZ b1) 8) (byteZ b2) = (byteZ b1 * 256 + byteZ b2)%Z.
Proof.
  rewrite Z.shiftl_mul_pow2 by lia. pose proof (byteZ_range b1). pose proof (byteZ_range b2).
  assert (Hand : Z.land (byteZ b1 * 2 ^ 8) (byteZ b2) = 0%Z).
  { rewrite <-Z.shiftl_mul_pow2 by lia. apply Z.bits_inj'. intros n Hn. rewrite Z.land_spec, Z.bits_0.
    destruct (Z.lt_ge_cases n 8); [by rewrite Z.shiftl_spec_low by lia|].
    replace (byteZ b2) with (byteZ b2 mod 2 ^ 8)%Z by (apply Z.mod_small; lia).
    rewrite Z.mod_pow2_bits_high by lia. by rewrite andb_false_r. }
  pose proof (Z.add_lor_land (byteZ b1 * 2 ^ 8) (byteZ b2)) as Hsum. rewrite Hand in Hsum. lia.
Qed.

Lemma decodeResponse_Ok response data :
  decodeResponse response = Ok data ↔ response = data ++ [x90; x00].
Proof.
  unfold decodeResponse. split.
  - intros ([] & Hn%refuse_Ok & Hr)%bind_Ok. apply Nat.ltb_ge in Hn.
    assert (Hsplit : ∃ d b1 b2, response = d ++ [b1; b2]).
    { destruct (exists_last (l := response)) as (r1 & b2 & ->); [intros ->; cbn in Hn; lia|].
      destruct (exists_last (l := r1)) as (d & b1 & ->); [intros ->; cbn in Hn; lia|].
      exists d, b1, b2. by rewrite <-app_assoc. }
    destruct Hsplit as (d & b1 & b2 & ->). rewrite length_app in Hr. cbn [length] in Hr.
    replace (length d + 2 - 2) with (length d) in Hr by lia.
    replace (length d + 2 - 1) with (S (length d)) in Hr by lia.
    rewrite take_app_length in Hr.
    rewrite (lookup_app_r d [b1; b2] (length d)), (lookup_app_r d [b1; b2] (S (length d))) in Hr by lia.
    replace (length d - length d) with 0 in Hr by lia.
    replace (S (length d) - length d) with 1 in Hr by lia. cbn [lookup list_lookup default] in Hr.
    cbn [id] in Hr. rewrite word_value in Hr.
    destruct (Z.eqb_spec (byteZ b1 * 256 + byteZ b2) ledgerSWOK) as [Hok|].
    2:{ repeat match type of Hr with context [if ?b then _ else _] => destruct b end; discriminate Hr. }
    injection Hr as <-. unfold ledgerSWOK in Hok. pose proof (byteZ_range b1). pose proof (byteZ_range b2).
    assert (E1 : byteZ b1 = 144%Z) by lia. assert (E2 : byteZ b2 = 0%Z) by lia.
    apply (f_equal Zbyte) in E1, E2. rewrite Zbyte_byteZ in E1, E2. by rewrite E1, E2.
  - intros ->. rewrite length_app. cbn [length].
    replace (Nat.ltb (length data + 2) 2) with false by (symmetry; apply Nat.ltb_ge; lia).
    cbn [refuse mbind result_bind].
    replace (length data + 2 - 2) with (length data) by lia.
    replace (length data + 2 - 1) with (S (length data)) by lia.
    rewrite take_app_length, (lookup_app_r data [x90; x00] (length data)),
      (lookup_app_r data [x90; x00] (S (length data))) by lia.
    replace (length data - length data) with 0 by lia.
    replace (S (length data) - length data) with 1 by lia. reflexivity.
Qed.

(** ** The theorems *)
(** Sending a preimage always ends, and is exactly this: commands of at
    most 245 bytes, chosen by the path and the preimage alone, go out in order
    until one fails, and the last answer, if it is not empty, is the
    signature.  An app that strips the headers, checks the lengths and the
    first and last marks gets back the path and the whole preimage. *)
Theorem signPreimage_chunks path xdr :
  length path <= 59 →
  ∃ apdus, reassemble ledgerP1First apdus = Some (ledgerEncodePath path ++ xdr) ∧
    Forall (λ a, length a <= 245) apdus ∧
    ∀ t ctx w, signPreimage t path ctx xdr w = nonemptyAnswer (sendAll t ctx apdus) w.
Proof.
  intros Hp. destruct (signPreimage_carries path xdr) as (apdus & [Hr Hl] & Hrun); [|by exists apdus].
  assert (He : length (concat (map (be_bytes 4) path)) = 4 * length path).
  { clear Hp. induction path as [|n path IH]; [done|]. cbn [map concat]. rewrite length_app, IH, length_be_bytes.
    cbn [length]. lia. }
  unfold ledgerEncodePath, maxLedgerAPDUData. cbn [length]. lia.
Qed.

Section ledger_theorems.
Context `{SDKLaws}.

(** A ledger signer signs for the account of the key its own device
    reported.  A returned value is the account shape with that key and a
    64-byte signature that verifies over the payload; the payload is the hash
    of the preimage, and the whole preimage, behind the fixed path of the
    chosen account, is what the device was sent before it answered. *)
Theorem LedgerSigner_sound ctx t opts w0 s w1 ctx' preimage payload w v w' :
  NewLedgerSigner ctx (Some t) opts w0 = (Ok s, w1) →
  signer_Sign (LedgerSigner_asSigner s) ctx' preimage payload w = (Ok v, w') →
  ∃ xdr signature apdus, MarshalBinary preimage = Ok xdr ∧ payload = sha256_Sum256 xdr ∧
    length (rawKey s) = 32 ∧ length signature = 64 ∧
    strkey_Encode VersionByteAccountID (rawKey s) = Ok (signer_Address (LedgerSigner_asSigner s)) ∧
    ed25519_Verify (rawKey s) payload signature = true ∧
    v = scVec [accountSignature (rawKey s) signature] ∧
    carries [hardened 44; hardened 148; hardened (accountIndex (ledgerOptions opts))] xdr apdus ∧
    ∃ w2, sendAll t ctx' apdus w2 = (Ok signature, w').
Proof.
  intros Hnew Hsign. unfold NewLedgerSigner in Hnew. inv_io. inv_ok.
  cbn [signer_Sign signer_Address LedgerSigner_asSigner] in *.
  unfold LedgerSigner_Sign in Hsign. cbn [transport ledger_publicKey ledger_path rawKey ledger_address] in *.
  apply io_bind_Ok in Hsign as ([] & w2 & _ & Hsign).
  apply io_bind_Ok in Hsign as ([t' k'] & w3 & [Hk ->]%lift_Ok & Hsign). injection Hk as <- <-.
  apply io_bind_Ok in Hsign as (expected & w4 & [Hexp%wrap_Ok ->]%lift_Ok & Hsign).
  apply io_bind_Ok in Hsign as ([] & w5 & [Heq%refuse_Ok ->]%lift_Ok & Hsign).
  apply io_bind_Ok in Hsign as (xdr & w6 & [Hxdr%wrap_Ok ->]%lift_Ok & Hsign).
  apply io_bind_Ok in Hsign as (signature & w7 & Hsend%io_wrap_Ok & Hsign).
  apply io_bind_Ok in Hsign as ([] & w8 & [Hlen%refuse_Ok ->]%lift_Ok & Hsign).
  apply io_bind_Ok in Hsign as ([] & w9 & [Hver%refuse_Ok ->]%lift_Ok & Hsign).
  injection Hsign as <- <-.
  apply negb_false_iff in Heq, Hlen, Hver. apply bytes_Equal_spec in Heq as <-. apply Nat.eqb_eq in Hlen.
  unfold Payload in Hexp. rewrite Hxdr in Hexp. cbn in Hexp. injection Hexp as <-.
  destruct (signPreimage_carries
    [hardened 44; hardened 148; hardened (accountIndex (ledgerOptions opts))] xdr) as (apdus & Hc & Hrun);
    [cbn; unfold maxLedgerAPDUData; lia|].
  rewrite Hrun in Hsend. apply io_bind_Ok in Hsend as (r & w10 & Hs & [Hr ->]%lift_Ok).
  apply bind_Ok in Hr as ([] & _ & [= ->]).
  exists xdr, signature, apdus. split; [done|]. split; [done|].
  repeat match goal with H : context [Nat.eqb] |- _ => apply negb_false_iff, Nat.eqb_eq in H end.
  match goal with H : Some _ = Some _ |- _ => injection H as <- end.
  split_and!; try done. eauto.
Qed.
End ledger_theorems.

(** ** A concrete device *)
(** It answers the key command with its key, a chunk that is not the last with
    nothing, and the last chunk with the signature it was made with. *)
Definition ex_device (signature : bytes) : LedgerTransport := λ _ apdu,
  match apdu with
  | _ :: ins :: _ :: p2 :: _ =>
      if bool_decide (ins = ledgerINSGetPubKey) then mret (ex_key "l" ++ [x90; x00])
      else if bool_decide (p2 = ledgerP2More) then mret [x90; x00]
      else mret (signature ++ [x90; x00])
  | _ => mret [x67; x00]
  end.

Definition ex_ledger_request : HashIdPreimage :=
  PreimageOfSorobanAuthorization (Some (mkSorobanAuthorization (ex_key "n") 1 1000 ex_invocation)).
Definition ex_ledger_payload : bytes :=
  match Payload ex_ledger_request with Ok p => p | Err _ => [] end.
Definition ex_ledger_transport : LedgerTransport := ex_device (ex_ledger_payload ++ ex_key "l").
Definition ex_ledger : LedgerSigner :=
  match NewLedgerSigner Background (Some ex_ledger_transport) [Some (WithLedgerAccount 3)] initial_world with
  | (Ok s, _) => s | _ => mkLedgerSigner None [] "" [] None end.
Definition ex_ledger_answer : ScVal * World :=
  match LedgerSigner_Sign ex_ledger Background ex_ledger_request ex_ledger_payload initial_world with
  | (Ok v, w) => (v, w) | (_, w) => (ScvVoid, w) end.

(** A device that rejects: the status words of the app. *)
Example ex_ledger_refusals :
  map (λ sw, match decodeResponse sw with Err (ESentinel s) => Some s | _ => None end)
    [[x69; x85]; [x55; x15]; [x6c; x66]; [x6e; x00]; [x6d; x00]] =
  [Some ErrLedgerDenied; Some ErrLedgerLocked; Some ErrLedgerBlindSigningDisabled;
   Some ErrLedgerWrongApp; Some ErrLedgerWrongApp] ∧
  decodeResponse [x6f; x0a] =
    Err (EWrap "the device returned status 0x6F0A" (ESentinel ErrLedgerUnavailable)).
Proof. split; vm_compute; reflexivity. Qed.

Lemma signPreimage_chunks_witness :
  ∃ apdus, reassemble ledgerP1First apdus = Some (ledgerEncodePath [hardened 44; hardened 148; hardened 0] ++
      replicate 500 x2a) ∧
    Forall (λ a, length a <= 245) apdus ∧
    ∀ t ctx w, signPreimage t [hardened 44; hardened 148; hardened 0] ctx (replicate 500 x2a) w =
      nonemptyAnswer (sendAll t ctx apdus) w.
Proof. apply (signPreimage_chunks [hardened 44; hardened 148; hardened 0] (replicate 500 x2a)). cbn. lia. Defined.

Lemma LedgerSigner_sound_witness :
  fst ex_ledger_answer ≠ ScvVoid ∧
  ∃ xdr signature apdus, MarshalBinary ex_ledger_request = Ok xdr ∧ ex_ledger_payload = sha256_Sum256 xdr ∧
    length (rawKey ex_ledger) = 32 ∧ length signature = 64 ∧
    strkey_Encode VersionByteAccountID (rawKey ex_ledger) = Ok (ex_text "l") ∧
    ed25519_Verify (rawKey ex_ledger) ex_ledger_payload signature = true ∧
    fst ex_ledger_answer = scVec [accountSignature (rawKey ex_ledger) signature] ∧
    carries [hardened 44; hardened 148; hardened 3] xdr apdus ∧
    ∃ w2, sendAll ex_ledger_transport Background apdus w2 = (Ok signature, snd ex_ledger_answer).
Proof.
  split; [vm_compute; discriminate|].
  apply (LedgerSigner_sound Background ex_ledger_transport [Some (WithLedgerAccount 3)] initial_world ex_ledger
    initial_world Background ex_ledger_request ex_ledger_payload initial_world); vm_compute; reflexivity.
Defined.
