(* ===== verification/Remote.v ===== *)
(** * Remote: the remote signing protocol (remote/protocol.go, client.go,
    server.go)

    A client sends a preimage and its hash to a server that holds a signer.
    [Server_decides] says of any request body whatever when the signer is
    asked: only for its own address, and only with the hash of the transmitted
    preimage.  [Remote_transparent] composes the two ends: a signature a client
    gets back from a server is the answer the server's signer gave for exactly
    the preimage and payload of the call.

    HTTP is a function from a request to a response; encoding/json is the
    class [RemoteJSON], whose laws say that what was written, cut off or not, is
    read back or refused (valid UTF-8 text only, as JSON strings carry nothing
    else).  Of the errors
    of base64, hex and JSON decoding the position is left out. *)
From Stdlib Require Import ZArith Lia Strings.Byte String Ascii.
From stdpp Require Import base countable list strings pretty.
From S2P Require Import Prelude Encoding Errors Xdr ModelSDK Runtime Examples Address Limits Arm Preimage Signers WebAuthn.

Open Scope string_scope. Open Scope nat_scope. Open Scope list_scope.

(** ** Messages (remote/protocol.go) *)
Definition Version : Z := 1.
Definition Path : string := "/sign".

Record Request := mkRequest {
  Request_Version : Z;
  Request_Address : string;
  Request_Preimage : string;
  Request_Payload : string
}.

Record Response := mkResponse {
  Response_Version : Z;
  Response_Signature : string;
  Response_Error : string
}.

Record Approval := mkApproval {
  Approval_Address : string;
  Approval_Preimage : HashIdPreimage;
  Approval_Payload : bytes
}.

(** [json.Marshal], [json.Encoder], and [json.Decoder] with unknown fields
    disallowed, reading the first value of a body. *)
Class RemoteJSON := {
  json_MarshalRequest : Request → bytes;
  json_DecodeRequest : bytes → result Request;
  json_EncodeResponse : Response → bytes;
  json_DecodeResponse : bytes → result Response
}.

Definition text_valid (s : string) : Prop := utf8_Valid (bytes_of_string s) = true.

Class RemoteJSONLaws `{RemoteJSON} : Prop := {
  json_Request_back r r' n :
    text_valid (Request_Address r) → text_valid (Request_Preimage r) → text_valid (Request_Payload r) →
    json_DecodeRequest (take n (json_MarshalRequest r)) = Ok r' → r' = r;
  json_Response_back r r' n :
    text_valid (Response_Signature r) → text_valid (Response_Error r) →
    json_DecodeResponse (take n (json_EncodeResponse r)) = Ok r' → r' = r
}.

(** ** HTTP *)
Record HttpResponse := mkHttpResponse { StatusCode : Z; StatusText : string; Body : bytes }.

Definition StatusOK : Z := 200.
Definition StatusBadRequest : Z := 400.
Definition StatusMethodNotAllowed : Z := 405.
Definition StatusInternalServerError : Z := 500.

Definition http_status (code : Z) : string :=
  pretty code +:+ " " +:+
  (if (code =? 200)%Z then "OK" else if (code =? 400)%Z then "Bad Request"
   else if (code =? 404)%Z then "Not Found" else if (code =? 405)%Z then "Method Not Allowed"
   else "Internal Server Error").

(** [http.Client.Do] of a request: context, method, URL and body. *)
Definition HttpDo : Type := Ctx → string → string → bytes → IO HttpResponse.

Definition MaxRequestBytes : nat := 2 ^ 20.
(** [io.LimitReader(body, MaxRequestBytes)]; compared in binary. *)
Definition limitBody (b : bytes) : bytes := take (N.to_nat (N.min (N.of_nat (length b)) (2 ^ 20)%N)) b.

(** [base64.StdEncoding.DecodeString] and [hex.DecodeString]. *)
Definition decodeBase64 (s : string) : result bytes :=
  of_option (DecodeString StdEncoding s) (EText "illegal base64 data").
Definition decodeHex (s : string) : result bytes :=
  of_option (hex_DecodeString s) (EText "encoding/hex: invalid byte").
Definition MarshalBase64 {T} `{XdrCodec T} (v : T) : result string :=
  EncodeToString StdEncoding <$> MarshalBinary v.

(** [strings.TrimRight(s, "/")] *)
Fixpoint TrimRightSlash (s : string) : string :=
  match s with
  | EmptyString => EmptyString
  | String c s =>
      match TrimRightSlash s with
      | EmptyString => if Ascii.eqb c "/" then EmptyString else String c EmptyString
      | s' => String c s'
      end
  end.

Section remote.
Context `{SDK} `{RemoteJSON}.

(** ** The client (remote/client.go) *)
Record RemoteSigner := mkRemoteSigner {
  remote_address : string;
  url : string;
  client : HttpDo
}.

Definition Option_ : Type := RemoteSigner → RemoteSigner.

Definition WithHTTPClient (client : option HttpDo) : Option_ := λ s,
  match client with Some c => mkRemoteSigner (remote_address s) (url s) c | None => s end.

(** [defaultClient] is [&http.Client{Timeout: defaultTimeout}]. *)
Definition NewSigner (defaultClient : HttpDo) (baseURL address : string) (opts : list Option_)
    : RemoteSigner :=
  foldl (λ s opt, opt s) (mkRemoteSigner address (TrimRightSlash baseURL +:+ Path) defaultClient) opts.

Definition decodeAnswer (response : HttpResponse) : result ScVal :=
  let op := "remote: sign" in
  decoded ← wrap (op +:+ ": server returned status " +:+ pretty (StatusCode response) +:+
                  " with an unreadable body") (json_DecodeResponse (limitBody (Body response)));
  _ ← (if negb (StatusCode response =? StatusOK)%Z then
         Err (EText (op +:+ ": server refused: " +:+
                (if String.eqb (Response_Error decoded) "" then StatusText response
                 else Response_Error decoded)))
       else Ok tt);
  _ ← refuse (negb (String.eqb (Response_Error decoded) ""))
        (EText (op +:+ ": server refused: " +:+ Response_Error decoded));
  _ ← refuse (negb (Response_Version decoded =? Version)%Z)
        (EText (op +:+ ": server answered protocol version " +:+ pretty (Response_Version decoded) +:+
                ", want " +:+ pretty Version));
  signatureBytes ← wrap (op +:+ ": signature is not valid base64") (decodeBase64 (Response_Signature decoded));
  wrap (op +:+ ": signature is not valid XDR") (UnmarshalBinary signatureBytes).

(** [None] is a nil receiver. *)
Definition RemoteSigner_Sign (s : option RemoteSigner) (ctx : Ctx) (preimage : HashIdPreimage)
    (payload : bytes) : IO ScVal :=
  let op := "remote: sign" in
  _ ← ctx_check ctx op;
  s ← lift (match s with
            | Some s => if String.eqb (remote_address s) "" then Err (EWrap op (ESentinel ErrMissingSigner))
                        else Ok s
            | None => Err (EWrap op (ESentinel ErrMissingSigner))
            end);
  encodedPreimage ← lift (wrap (op +:+ ": encoding the preimage") (MarshalBase64 preimage));
  let body := json_MarshalRequest
    (mkRequest Version (remote_address s) encodedPreimage (hex_EncodeToString payload)) in
  response ← io_wrap op (client s ctx "POST" (url s) body);
  lift (decodeAnswer response).

Definition RemoteSigner_asSigner (s : option RemoteSigner) : Signer :=
  mkSigner (match s with Some s => remote_address s | None => "" end) (RemoteSigner_Sign s) None.

(** ** The server (remote/server.go) *)
Record Server := mkServer {
  server_signer : option Signer;
  Approver : option (Approval → World → World)
}.

Definition NewServer (signer : option Signer) : Server := mkServer signer None.

Definition writeJSON (status : Z) (body : Response) : HttpResponse :=
  mkHttpResponse status (http_status status) (json_EncodeResponse body).
Definition remote_writeError (status : Z) (message : string) : HttpResponse :=
  writeJSON status (mkResponse Version "" message).

(** The checks on a decoded request: the address, preimage and payload to
    sign, or the message of a 400. *)
Definition checkRequest (signer : Signer) (req : Request) : string + (HashIdPreimage * bytes) :=
  if negb (Request_Version req =? Version)%Z then
    inl ("unsupported protocol version " +:+ pretty (Request_Version req) +:+ ", want " +:+ pretty Version)
  else if negb (String.eqb (Request_Address req) (signer_Address signer)) then
    inl ("this server signs for " +:+ signer_Address signer +:+ ", not " +:+ quoted (Request_Address req))
  else
    match decodeBase64 (Request_Preimage req) with
    | Err e => inl ("preimage is not valid base64: " +:+ Error e)
    | Ok preimageBytes =>
        match UnmarshalBinary preimageBytes with
        | Err e => inl ("preimage is not valid XDR: " +:+ Error e)
        | Ok preimage =>
            match decodeHex (Request_Payload req) with
            | Err e => inl ("payload is not valid hex: " +:+ Error e)
            | Ok payload =>
                if negb (Nat.eqb (length payload) 32) then
                  inl ("payload is " +:+ pretty (length payload) +:+ " bytes, want 32")
                else
                  match Payload preimage with
                  | Err e => inl ("cannot hash the preimage: " +:+ Error e)
                  | Ok recomputed =>
                      if negb (bytes_Equal recomputed payload) then
                        inl "payload does not match SHA-256 of the preimage"
                      else inr (preimage, payload)
                  end
            end
        end
    end.

(** [ServeHTTP] for a request on a path, with a method and a body; [ctx] is
    the request's context. *)
Definition ServeHTTP (s : option Server) (ctx : Ctx) (path method : string) (body : bytes)
    : IO HttpResponse :=
  if negb (String.eqb path Path) then
    mret (mkHttpResponse 404 (http_status 404) (bytes_of_string "404 page not found"))
  else if negb (String.eqb method "POST") then
    mret (remote_writeError StatusMethodNotAllowed "method must be POST")
  else
    match s with
    | Some (mkServer (Some signer) approver) =>
        match json_DecodeRequest (limitBody body) with
        | Err e => mret (remote_writeError StatusBadRequest ("malformed request: " +:+ Error e))
        | Ok req =>
            match checkRequest signer req with
            | inl message => mret (remote_writeError StatusBadRequest message)
            | inr (preimage, payload) =>
                _ ← (λ w, (Ok tt, match approver with
                                  | Some f => f (mkApproval (Request_Address req) preimage payload) w
                                  | None => w end));
                signature ← try_ (call_Sign signer ctx preimage payload);
                match signature with
                | Err e => mret (remote_writeError StatusInternalServerError ("signer refused: " +:+ Error e))
                | Ok signature =>
                    match MarshalBase64 signature with
                    | Err e => mret (remote_writeError StatusInternalServerError
                                       ("cannot encode the signature: " +:+ Error e))
                    | Ok encoded => mret (writeJSON StatusOK (mkResponse Version encoded ""))
                    end
                end
            end
        end
    | _ => mret (remote_writeError StatusInternalServerError "server has no signer")
    end.

(** ** [LogApprover] *)
(** The nonce and the expiration a preimage names; zero where it has none. *)
Definition approvedFields (preimage : HashIdPreimage) : Z * Z :=
  match preimage with
  | PreimageOfSorobanAuthorization (Some a) =>
      (Preimage_Nonce a, Preimage_SignatureExpirationLedger a)
  | PreimageOfSorobanAuthorizationWithAddress (Some a) =>
      (WithAddress_Nonce a, WithAddress_SignatureExpirationLedger a)
  | _ => (0%Z, 0%Z)
  end.

Definition LogApprover (w : string) : Approval → World → World := λ a,
  let '(nonce, expiration) := approvedFields (Approval_Preimage a) in
  emit_event (EvPrint w
    ("remote: approving address=" +:+ Approval_Address a +:+
     " variant=" +:+ Enum_String "EnvelopeType" (Preimage_Type (Approval_Preimage a)) +:+
     " nonce=" +:+ pretty nonce +:+ " valid_until=" +:+ pretty expiration +:+
     " payload=" +:+ hex_EncodeToString (Approval_Payload a) +:+ String "010" "")).
End remote.

(** ** Texts that survive JSON and base64 *)
Lemma ascii_text_valid s : ascii_text s = true → text_valid s.
Proof.
  unfold text_valid. induction s as [|c s IH]; [done|]. cbn [ascii_text]. intros [Hc Hs]%andb_true_iff.
  change (bytes_of_string (String c s)) with (byte_of_ascii c :: bytes_of_string s). cbn [utf8_Valid].
  assert (Hin : utf8_in 0 127 (byte_of_ascii c) = true).
  { destruct c as [[] [] [] [] [] [] [] []]; first [reflexivity|discriminate Hc]. }
  rewrite Hin. by apply IH.
Qed.

(** The reader that ignores the unused bits reads what the strict one reads. *)
Lemma decodeQuartets_lenient s b : base64_quartets s = Some b → decodeQuartets StdEncoding s = Some b.
Proof.
  revert s b. assert (H : ∀ n s b, String.length s <= n → base64_quartets s = Some b →
    decodeQuartets StdEncoding s = Some b); [|by intros s b; apply (H (String.length s))].
  induction n as [|n IH]; intros s b Hl Hs; destruct s as [|c1 [|c2 [|c3 [|c4 s]]]];
    try exact Hs; try discriminate Hs; cbn in Hl; [lia|].
  cbn [base64_quartets decodeQuartets] in Hs |- *. unfold sextet. cbn [url raw StdEncoding negb andb].
  destruct (b64_value c1) as [a1|]; [|done]. destruct (b64_value c2) as [a2|]; [|done].
  cbn [mbind option_bind] in Hs |- *. destruct (Ascii.eqb c3 "=").
  - destruct (Ascii.eqb c4 "="); [|done]. destruct (_ =? 0)%Z; [|done]. exact Hs.
  - destruct (b64_value c3) as [a3|]; [|done]. cbn [mbind option_bind] in Hs |- *.
    destruct (Ascii.eqb c4 "=").
    + destruct (_ =? 0)%Z; [|done]. exact Hs.
    + destruct (b64_value c4) as [a4|]; [|done]. cbn [mbind option_bind] in Hs |- *.
      destruct (base64_quartets s) as [r|] eqn:Hr; [|done]. rewrite (IH s r) by (done || lia). exact Hs.
Qed.

Lemma wire_base64_Encode b : decodeBase64 (EncodeToString StdEncoding b) = Ok b.
Proof.
  unfold decodeBase64, DecodeString. change (EncodeToString StdEncoding b) with (base64_EncodeToString b).
  by rewrite without_newlines_Encode, (decodeQuartets_lenient _ b (base64_quartets_Encode b)).
Qed.

Lemma wire_hex_Encode b : decodeHex (hex_EncodeToString b) = Ok b.
Proof. unfold decodeHex. by rewrite hex_DecodeString_Encode. Qed.

(** ** The server *)
Section server.
Context `{SDK} `{RemoteJSON}.

(** What a request must be to be signed. *)
Definition admissible (signer : Signer) (req : Request) (preimage : HashIdPreimage) (payload : bytes)
    : Prop :=
  Request_Version req = Version ∧ Request_Address req = signer_Address signer ∧
  (∃ b, decodeBase64 (Request_Preimage req) = Ok b ∧ UnmarshalBinary b = Ok preimage) ∧
  decodeHex (Request_Payload req) = Ok payload ∧ length payload = 32 ∧ Payload preimage = Ok payload.

Lemma checkRequest_spec signer req preimage payload :
  checkRequest signer req = inr (preimage, payload) ↔ admissible signer req preimage payload.
Proof.
  unfold checkRequest, admissible.
  destruct (Z.eqb_spec (Request_Version req) Version); cbn [negb]; [|by split; [|intros (? & _)]].
  destruct (String.eqb_spec (Request_Address req) (signer_Address signer)); cbn [negb];
    [|by split; [|intros (_ & ? & _)]].
  destruct (decodeBase64 _) as [b|]; [|by split; [|intros (_ & _ & (? & ? & _) & _)]].
  destruct (UnmarshalBinary b) as [pre|] eqn:Hu;
    [|split; [done|intros (_ & _ & (b' & [= <-] & Hu') & _); rewrite Hu' in Hu; discriminate Hu]].
  destruct (decodeHex _) as [p|]; [|by split; [|intros (_ & _ & _ & ? & _)]].
  destruct (Nat.eqb_spec (length p) 32) as [Hp32|Hp32]; cbn [negb];
    [|by split; [|intros (_ & _ & _ & [= ->] & ? & _)]].
  destruct (Payload pre) as [r|] eqn:Hp;
    [|split; [done|intros (_ & _ & (b' & [= <-] & Hu') & _ & _ & Hpay);
      rewrite Hu' in Hu; injection Hu as ->; rewrite Hpay in Hp; discriminate Hp]].
  destruct (bytes_Equal r p) eqn:He; cbn [negb].
  - apply bytes_Equal_spec in He as ->. split; [intros [= <- <-]; split_and!; eauto|].
    intros (_ & _ & (b' & [= <-] & Hu') & [= ->] & _ & _). rewrite Hu' in Hu. by injection Hu as ->.
  - split; [done|]. intros (_ & _ & (b' & [= <-] & Hu') & [= ->] & _ & Hpay).
    rewrite Hu' in Hu. injection Hu as ->. rewrite Hpay in Hp. injection Hp as ->.
    by rewrite (proj2 (bytes_Equal_spec r r)) in He.
Qed.

(** The answer to what the signer gave. *)
Definition answerOf (r : result ScVal) : HttpResponse :=
  match r with
  | Err e => remote_writeError StatusInternalServerError ("signer refused: " +:+ Error e)
  | Ok v =>
      match MarshalBase64 v with
      | Err e => remote_writeError StatusInternalServerError ("cannot encode the signature: " +:+ Error e)
      | Ok encoded => writeJSON StatusOK (mkResponse Version encoded "")
      end
  end.

Lemma ServeHTTP_decides signer approver ctx path method body w :
  let out := ServeHTTP (Some (mkServer (Some signer) approver)) ctx path method body w in
  (∃ response, out = (Ok response, w) ∧ StatusCode response ≠ StatusOK) ∨
  (path = Path ∧ method = "POST" ∧
   ∃ req preimage payload, json_DecodeRequest (limitBody body) = Ok req ∧
     admissible signer req preimage payload ∧
     let told := match approver with
                 | Some f => f (mkApproval (signer_Address signer) preimage payload) w
                 | None => w end in
     let '(r, w') := call_Sign signer ctx preimage payload told in out = (Ok (answerOf r), w')).
Proof.
  cbv zeta. unfold ServeHTTP.
  destruct (String.eqb_spec path Path) as [->|]; cbn [negb]; [|left; eexists; split; [reflexivity|discriminate]].
  destruct (String.eqb_spec method "POST") as [->|]; cbn [negb]; [|left; eexists; split; [reflexivity|discriminate]].
  destruct (json_DecodeRequest (limitBody body)) as [req|e]; [|left; eexists; split; [reflexivity|discriminate]].
  destruct (checkRequest signer req) as [m|[preimage payload]] eqn:Hc;
    [left; eexists; split; [reflexivity|discriminate]|].
  right. split; [done|]. split; [done|]. exists req, preimage, payload. split; [done|].
  apply checkRequest_spec in Hc. split; [done|]. destruct Hc as (_ & -> & _).
  unfold mbind, IO_bind, try_.
  destruct (call_Sign signer ctx preimage payload _) as [[v|e] w']; [|done].
  unfold answerOf. by destruct (MarshalBase64 v).
Qed.

(** C25. Whatever is sent to the server, its signer is asked at most once, and
    only for a POST to /sign whose body decodes to a request of this protocol
    version, for the signer's own address, with a preimage and exactly its
    hash; the approver is told first, and the answer is the signer's.
    Everything else gets a status other than 200 and has no effect. *)
Theorem Server_decides signer approver ctx path method body w :
  let out := ServeHTTP (Some (mkServer (Some signer) approver)) ctx path method body w in
  (∃ response, out = (Ok response, w) ∧ StatusCode response ≠ StatusOK) ∨
  (path = Path ∧ method = "POST" ∧
   ∃ req preimage payload, json_DecodeRequest (limitBody body) = Ok req ∧
     admissible signer req preimage payload ∧
     let told := match approver with
                 | Some f => f (mkApproval (signer_Address signer) preimage payload) w
                 | None => w end in
     let '(r, w') := call_Sign signer ctx preimage payload told in out = (Ok (answerOf r), w')).
Proof. apply ServeHTTP_decides. Qed.
End server.

(** ** Client and server together *)
Section together.
Context `{SDKLaws} `{RemoteJSONLaws}.

(** A connection to a server whose requests get the context [ctx]. *)
Definition connect (s : Server) (ctx : Ctx) : HttpDo := λ _ method _ body, ServeHTTP (Some s) ctx Path method body.

(** A client whose requests reach a server gets a signature only as the
    answer of the server's signer to the very call: the same preimage, the same
    payload, which is the preimage's hash, for the same address. *)
Theorem Remote_transparent signer approver sctx address u ctx preimage payload w v w' :
  text_valid address →
  signer_Sign (RemoteSigner_asSigner (Some (mkRemoteSigner address u
    (connect (mkServer (Some signer) approver) sctx)))) ctx preimage payload w = (Ok v, w') →
  address = signer_Address signer ∧ Payload preimage = Ok payload ∧
  ∃ told, call_Sign signer sctx preimage payload told = (Ok v, w').
Proof.
  intros Hva Hs. cbn [signer_Sign RemoteSigner_asSigner] in Hs. unfold RemoteSigner_Sign in Hs.
  apply io_bind_Ok in Hs as ([] & w1 & _ & Hs). apply io_bind_Ok in Hs as (s & w2 & [Hrs ->]%lift_Ok & Hs).
  cbn [remote_address] in Hrs. destruct (String.eqb address ""); [discriminate Hrs|]. injection Hrs as <-.
  apply io_bind_Ok in Hs as (enc & w3 & [Henc%wrap_Ok ->]%lift_Ok & Hs).
  apply io_bind_Ok in Hs as (response & w4 & Hdo%io_wrap_Ok & [Hans ->]%lift_Ok).
  cbn [client url remote_address] in Hdo. unfold connect in Hdo.
  apply fmap_Ok in Henc as (xdr & Hxdr & ->).
  match type of Hdo with ServeHTTP _ _ _ _ ?b _ = _ => set (body := b) in Hdo end.
  pose proof (ServeHTTP_decides signer approver sctx Path "POST" body w1) as Hdec. cbv zeta in Hdec.
  rewrite Hdo in Hdec. destruct Hdec as [(r & [= <- <-] & Hbad)|(_ & _ & req & pre & pay & Hreq & Hadm & Hcall)].
  { unfold decodeAnswer in Hans. apply bind_Ok in Hans as (d & _ & Hans).
    apply bind_Ok in Hans as ([] & Hst & _).
    destruct (Z.eqb_spec (StatusCode response) StatusOK); [done|discriminate Hst]. }
  apply json_Request_back in Hreq as ->; cbn [Request_Address Request_Preimage Request_Payload];
    [|done|apply ascii_text_valid, base64_ascii|apply ascii_text_valid, hex_ascii].
  destruct Hadm as (_ & Haddr & (b & Hb & Hu) & Hh & _ & Hpay).
  cbn [Request_Address Request_Preimage Request_Payload] in *.
  rewrite wire_base64_Encode in Hb. injection Hb as <-.
  pose proof (UnmarshalBinary_Marshal _ _ _ Hxdr Hu) as ->.
  rewrite wire_hex_Encode in Hh. injection Hh as ->.
  split; [done|]. split; [done|].
  destruct (call_Sign signer sctx preimage _ _) as [r w5] eqn:Hr. injection Hcall as -> ->.
  eexists. rewrite Hr. f_equal.
  unfold decodeAnswer in Hans. apply bind_Ok in Hans as (d & Hd%wrap_Ok & Hans).
  destruct r as [v0|e]; cbn [answerOf] in Hd, Hans.
  2:{ cbn in Hans. discriminate Hans. }
  destruct (MarshalBase64 v0) as [enc|e] eqn:He; [|cbn in Hans; discriminate Hans].
  apply fmap_Ok in He as (sx & Hsx & ->).
  cbn [StatusCode writeJSON Body] in Hd, Hans.
  apply json_Response_back in Hd as ->; cbn [Response_Signature Response_Error];
    [|apply ascii_text_valid, base64_ascii|done].
  cbn [Response_Signature Response_Error Response_Version] in Hans.
  apply bind_Ok in Hans as ([] & _ & Hans). apply bind_Ok in Hans as ([] & _ & Hans).
  apply bind_Ok in Hans as ([] & _ & Hans). apply bind_Ok in Hans as (sb & Hsb%wrap_Ok & Hv%wrap_Ok).
  rewrite wire_base64_Encode in Hsb. injection Hsb as <-.
  by rewrite (UnmarshalBinary_Marshal _ _ _ Hsx Hv).
Qed.

(** The approver's line shows the nonce and the expiration that are signed: of a
    preimage built for an entry, the entry's nonce and the expiration asked for. *)
Lemma approvedFields_Preimage e validUntil pass preimage : Preimage e validUntil pass = Ok preimage →
  ∃ a, addressCredentials (Credentials e) = Ok a ∧ approvedFields preimage = (Nonce a, validUntil).
Proof.
  intros (_ & c & Hc & ->)%Preimage_Ok. unfold signed_content in Hc.
  destruct (addressCredentials (Credentials e)) as [a|]; [|done]. injection Hc as <-. exists a. split; [done|].
  by destruct (address_bound (Credentials e)).
Qed.
End together.

(** ** A concrete codec and session *)
(** Bits one byte each, least significant first, ended by a mark. *)
Fixpoint bits_of (p : positive) : bytes :=
  match p with xO p => x01 :: bits_of p | xI p => x02 :: bits_of p | xH => [x03] end.
Fixpoint of_bits (b : bytes) : option positive :=
  match b with
  | x01 :: b => xO <$> of_bits b
  | x02 :: b => xI <$> of_bits b
  | x03 :: _ => Some xH
  | _ => None
  end.

Lemma of_bits_take p n q : of_bits (take n (bits_of p)) = Some q → q = p.
Proof.
  revert n q. induction p as [p IH|p IH|]; intros [|n] q Hq; try discriminate Hq; cbn in Hq.
  - apply fmap_Some in Hq as (r & Hr & ->). f_equal. by eapply IH.
  - apply fmap_Some in Hq as (r & Hr & ->). f_equal. by eapply IH.
  - by injection Hq as <-.
Qed.

Definition write_value {A} `{Countable A} (a : A) : bytes := bits_of (encode a).
Definition read_value {A} `{Countable A} (b : bytes) : result A :=
  of_option (p ← of_bits b; decode p) (EText "invalid character").

Lemma read_write {A} `{Countable A} (a a' : A) n : read_value (take n (write_value a)) = Ok a' → a' = a.
Proof.
  unfold read_value, write_value. intros Hr%of_option_Ok. apply bind_Some in Hr as (p & Hp & Hd).
  apply of_bits_take in Hp as ->. rewrite decode_encode in Hd. by injection Hd.
Qed.

#[export] Instance ModelRemoteJSON : RemoteJSON := {|
  json_MarshalRequest r := write_value (Request_Version r, Request_Address r, Request_Preimage r, Request_Payload r);
  json_DecodeRequest b := '(v, a, p, h) ← read_value b; Ok (mkRequest v a p h);
  json_EncodeResponse r := write_value (Response_Version r, Response_Signature r, Response_Error r);
  json_DecodeResponse b := '(v, s, e) ← read_value b; Ok (mkResponse v s e)
|}.

#[export] Instance ModelRemoteJSONLaws : RemoteJSONLaws.
Proof.
  split.
  - intros [v a p h] r' n _ _ _ Hr. apply bind_Ok in Hr as ([[[v' a'] p'] h'] & Hr%read_write & [= <-]).
    by injection Hr as -> -> -> ->.
  - intros [v s e] r' n _ _ Hr. apply bind_Ok in Hr as ([[v' s'] e'] & Hr%read_write & [= <-]).
    by injection Hr as -> -> ->.
Qed.

Definition ex_remote_request : HashIdPreimage :=
  match Preimage (ex_v2 "a" 1000 ScvVoid) 1000 ex_network with Ok p => p | Err _ => PreimageOther 0 end.
Definition ex_remote_payload : bytes := match Payload ex_remote_request with Ok p => p | Err _ => [] end.
Definition ex_remote : RemoteSigner :=
  mkRemoteSigner (ex_text "a") "https://signer/sign" (connect (mkServer (Some (ex_signer "a")) None) Background).
Definition ex_remote_run : result ScVal * World :=
  signer_Sign (RemoteSigner_asSigner (Some ex_remote)) Background ex_remote_request ex_remote_payload initial_world.
Definition ex_remote_value : ScVal := match fst ex_remote_run with Ok v => v | Err _ => ScvVoid end.

(** Another payload, or another address, is refused by the server. *)
Example ex_remote_refused :
  fst (signer_Sign (RemoteSigner_asSigner (Some ex_remote)) Background ex_remote_request (ex_key "p") initial_world)
    = Err (EText "remote: sign: server refused: payload does not match SHA-256 of the preimage") ∧
  TrimRightSlash "https://signer//" = "https://signer".
Proof. split; vm_compute; reflexivity. Qed.

Lemma Remote_transparent_witness :
  ex_remote_value ≠ ScvVoid ∧ ex_text "a" = signer_Address (ex_signer "a") ∧
  Payload ex_remote_request = Ok ex_remote_payload ∧
  ∃ told, call_Sign (ex_signer "a") Background ex_remote_request ex_remote_payload told =
    (Ok ex_remote_value, snd ex_remote_run).
Proof.
  split; [vm_compute; discriminate|].
  apply (Remote_transparent (ex_signer "a") None Background (ex_text "a") "https://signer/sign" Background
    ex_remote_request ex_remote_payload initial_world); vm_compute; reflexivity.
Defined.
