(* ===== verification/TreeRender.v ===== *)
(** * TreeRender: the drawings of a delegate tree and of a call tree
    (treerender.go)

    [DelegateTreeDOT] draws the tree of an entry's report as a Graphviz graph
    with an identifier for each position, so that an address that occurs twice
    is two nodes.  [DelegateTreeDOT_draws] says that the graph is the tree. *)
From Stdlib Require Import ZArith Lia Strings.Byte String Ascii.
From stdpp Require Import base list strings pretty.
From S2P Require Import Prelude Encoding Errors Xdr ModelSDK Runtime Examples Address Limits Arm Preimage Nodes.
From S2P Require Import Inspect Diff.

Open Scope string_scope. Open Scope nat_scope. Open Scope list_scope.

(** ** The delegate tree as text *)
Definition treeSuffix (info : EntryInfo) : string :=
  if String.eqb (Info_CredentialType info) CredentialTypeAddressWithDelegates then ""
  else " [" +:+ Info_CredentialType info +:+ "]".

Definition shownAddress (address : string) : string :=
  if String.eqb address "" then "(no address)" else address.

Definition treeLabel (address : string) (signed : bool) : string :=
  shownAddress address +:+ " (" +:+ signedStatus signed +:+ ")".

(** Whether the elements after one are none: [i == len(nodes)-1]. *)
Definition isLast {A} (rest : list A) : bool := match rest with [] => true | _ => false end.

Definition connector (last : bool) : string := if last then "└── " else "├── ".
Definition continuation (last : bool) : string := if last then "    " else "│   ".

Fixpoint asciiNode (prefix : string) (last : bool) (node : NodeInfo) : string :=
  match node with
  | mkNodeInfo address signed _ nested =>
      prefix +:+ connector last +:+ treeLabel address signed +:+ newline +:+
      (fix level (l : list NodeInfo) : string :=
         match l with
         | [] => ""
         | x :: rest => asciiNode (prefix +:+ continuation last) (isLast rest) x +:+ level rest
         end) nested
  end.

Fixpoint writeASCIINodes (nodes : list NodeInfo) (prefix : string) : string :=
  match nodes with
  | [] => ""
  | x :: rest => asciiNode prefix (isLast rest) x +:+ writeASCIINodes rest prefix
  end.

Definition DelegateTreeASCII (info : EntryInfo) : string :=
  treeLabel (Info_Address info) (Info_TopLevelSigned info) +:+ treeSuffix info +:+ newline +:+
  writeASCIINodes (Info_Delegates info) "".

(** ** The delegate tree as a graph *)
Definition writeDOTNode (id address : string) (signed : bool) : string :=
  "  " +:+ id +:+ " [label=" +:+ quoted (shownAddress address) +:+ ", style=filled, fillcolor=" +:+
  quoted (if signed then "palegreen3" else "white") +:+ ", color=" +:+
  quoted (if signed then "palegreen4" else "grey60") +:+ "];" +:+ newline.

(** The node at position [i] below [parentID]. *)
Fixpoint dotNode (parentID : string) (i : nat) (node : NodeInfo) : string :=
  match node with
  | mkNodeInfo address signed _ nested =>
      let id := parentID +:+ "_" +:+ pretty i in
      writeDOTNode id address signed +:+
      "  " +:+ parentID +:+ " -> " +:+ id +:+ ";" +:+ newline +:+
      String.concat "" (imap_from (dotNode id) 0 nested)
  end.

Definition writeDOTNodes (parentID : string) (nodes : list NodeInfo) : string :=
  String.concat "" (imap_from (dotNode parentID) 0 nodes).

Definition dotOpening : string :=
  "digraph delegates {" +:+ newline +:+ "  rankdir=TB;" +:+ newline +:+
  "  node [shape=box, fontname=" +:+ quoted "monospace" +:+ "];" +:+ newline +:+ newline.

Definition DelegateTreeDOT (info : EntryInfo) : string :=
  dotOpening +:+ writeDOTNode "n0" (Info_Address info) (Info_TopLevelSigned info) +:+
  writeDOTNodes "n0" (Info_Delegates info) +:+ "}" +:+ newline.

(** ** The call tree as text *)
(** Go's [string(n)] of an integer: the UTF-8 encoding of that code point, or
    of U+FFFD where there is none. *)
Definition rune_string (n : Z) : string :=
  let n := if (n <? 0)%Z || (n >? 0x10FFFF)%Z || ((0xD800 <=? n)%Z && (n <=? 0xDFFF)%Z)
           then 0xFFFD%Z else n in
  let tail k := Zbyte (128 + (n / 2 ^ k) mod 64) in
  string_of_bytes
    (if (n <? 128)%Z then [Zbyte n]
     else if (n <? 2048)%Z then [Zbyte (192 + n / 64); tail 0%Z]
     else if (n <? 65536)%Z then [Zbyte (224 + n / 4096); tail 6%Z; tail 0%Z]
     else [Zbyte (240 + n / 262144); tail 12%Z; tail 6%Z; tail 0%Z]).

Section invocation.
Context `{SDK}.

Definition invocationLabel (f : SorobanAuthorizedFunction) : string :=
  match f with
  | FunctionContractFn None => "contract_fn"
  | FunctionContractFn (Some a) =>
      match FormatAddress (ContractAddress a) with
      | Err _ => FunctionName a
      | Ok contract => FunctionName a +:+ " (" +:+ contract +:+ ")"
      end
  | _ => rune_string (functionType f)
  end.

(** The lines of one invocation and of those below it. *)
Fixpoint writeInvocation (prefix : string) (last : bool) (depth : Z) (inv : SorobanAuthorizedInvocation)
    : result string :=
  match inv with
  | mkInvocation f subs =>
      _ ← checkTraversalDepth depth;
      below ← (fix level (l : list SorobanAuthorizedInvocation) : result string :=
         match l with
         | [] => Ok ""
         | x :: rest =>
             text ← writeInvocation (prefix +:+ continuation last) (isLast rest) (depth + 1) x;
             others ← level rest;
             Ok (text +:+ others)
         end) subs;
      Ok (prefix +:+ connector last +:+ invocationLabel f +:+ newline +:+ below)
  end.

Definition InvocationTreeASCII (root : SorobanAuthorizedInvocation) : result string :=
  writeInvocation "" true 1 root.
End invocation.

(** ** Positions *)
#[local] Arguments String.append !_ _ /.

Fixpoint free_of (c : ascii) (s : string) : bool :=
  match s with EmptyString => true | String a s => negb (Ascii.eqb a c) && free_of c s end.

(** Text between separators is determined. *)
Definition ends (c : ascii) (s : string) : Prop := s = "" ∨ ∃ r, s = String c r.

Lemma free_split c a b s t :
  free_of c a = true → free_of c b = true → ends c s → ends c t → (a +:+ s = b +:+ t)%string → a = b ∧ s = t.
Proof.
  intros Ha Hb Hs Ht. revert b Ha Hb. induction a as [|x a IH]; intros [|y b] Ha Hb; cbn.
  - done.
  - intros E. rewrite E in Hs. cbn in Hb. apply andb_prop in Hb as [Hy _].
    destruct Hs as [|[r [= -> _]]]; [done|]. by rewrite Ascii.eqb_refl in Hy.
  - intros E. rewrite <-E in Ht. cbn in Ha. apply andb_prop in Ha as [Hx _].
    destruct Ht as [|[r [= -> _]]]; [done|]. by rewrite Ascii.eqb_refl in Hx.
  - intros [= -> He]. cbn in Ha, Hb. apply andb_prop in Ha as [_ Ha]. apply andb_prop in Hb as [_ Hb].
    by destruct (IH b Ha Hb He) as [-> ->].
Qed.

Lemma pretty_go_free x s : free_of "_" s = true → free_of "_" (pretty_N_go x s) = true.
Proof.
  revert s. induction (N.lt_wf_0 x) as [x _ IH]. intros s Hs.
  assert (x = 0 ∨ 0 < x)%N as [->|Hx] by lia; [by rewrite pretty_N_go_0|].
  rewrite pretty_N_go_step by done. apply IH; [apply N.div_lt; lia|]. cbn. rewrite Hs, andb_true_r.
  unfold pretty_N_char. by repeat case_match.
Qed.

Lemma pretty_nat_free (n : nat) : free_of "_" (pretty n) = true.
Proof.
  unfold pretty, pretty_nat, pretty, pretty_N. destruct (decide _); [done|by apply pretty_go_free].
Qed.

(** The identifier of the node that [path] leads to. *)
Definition dotID (path : list nat) : string :=
  "n0" +:+ String.concat "" (map (λ i, "_" +:+ pretty i) path).

Lemma append_app (a b c : string) : ((a +:+ b) +:+ c)%string = a +:+ b +:+ c.
Proof. induction a as [|x a IH]; cbn; [done|by f_equal]. Qed.

Lemma append_cancel (a b c : string) : (a +:+ b)%string = a +:+ c → b = c.
Proof. induction a as [|x a IH]; cbn; [done|]. intros [= H]. by apply IH. Qed.

Lemma concat_app l l' : String.concat "" (l ++ l') = String.concat "" l +:+ String.concat "" l'.
Proof.
  induction l as [|s l IH]; [done|]. rewrite <-app_comm_cons, !string_concat_cons, IH. by rewrite append_app.
Qed.

Lemma dotID_snoc p i : dotID (p ++ [i]) = dotID p +:+ "_" +:+ pretty i.
Proof. unfold dotID. rewrite map_app, concat_app, append_app. reflexivity. Qed.

#[export] Instance dotID_inj : Inj (=) (=) dotID.
Proof.
  intros p q H. unfold dotID in H. apply append_cancel in H. revert q H.
  assert (Hends : ∀ l, ends "_" (String.concat "" (map (λ i : nat, "_" +:+ pretty i) l))).
  { intros [|i l]; [by left|]. right. cbn [map]. rewrite string_concat_cons. by eexists. }
  induction p as [|i p IH]; intros [|j q] H; cbn [map] in H; rewrite ?string_concat_cons in H; try done.
  cbn in H. injection H as H. apply free_split with (c := "_"%char) in H as [Hi Hr];
    [|apply pretty_nat_free|apply pretty_nat_free|done|done].
  apply (inj pretty) in Hi as ->. f_equal. by apply IH.
Qed.

(** ** The graph *)
(** The nodes of a tree with their positions, in the order of the walk. *)
Fixpoint positions (p : list nat) (n : NodeInfo) : list (list nat * NodeInfo) :=
  match n with
  | mkNodeInfo _ _ _ nested => (p, n) :: concat (imap_from (λ i x, positions (p ++ [i]) x) 0 nested)
  end.

Definition nested_of (n : NodeInfo) : list NodeInfo := match n with mkNodeInfo _ _ _ nested => nested end.
Definition below (p : list nat) (j : nat) (l : list NodeInfo) : list (list nat * NodeInfo) :=
  concat (imap_from (λ i x, positions (p ++ [i]) x) j l).

Lemma positions_eq p n : positions p n = (p, n) :: below p 0 (nested_of n).
Proof. by destruct n. Qed.

Section node_ind.
Context (P : NodeInfo → Prop).
Hypothesis Hnode : ∀ a s sh nested, Forall P nested → P (mkNodeInfo a s sh nested).

Lemma node_nested_ind n : P n.
Proof.
  revert n. fix IH 1. intros [a s sh nested]. apply Hnode.
  induction nested as [|x l IHl]; constructor; [apply IH|exact IHl].
Qed.
End node_ind.

(** An edge of the drawing. *)
Definition child_of (p : list nat) (r : list nat * NodeInfo) : Prop :=
  length r.1 = S (length p) ∧ take (length p) (r.1) = p.
#[export] Instance child_of_dec p r : Decision (child_of p r) := ltac:(unfold child_of; apply _).

Lemma positions_prefix n : ∀ p r, r ∈ positions p n → ∃ s, r.1 = p ++ s.
Proof.
  induction n as [a sg sh nested IH] using node_nested_ind. intros p r Hr.
  rewrite positions_eq in Hr. cbn [nested_of] in Hr. apply elem_of_cons in Hr as [->|Hr];
    [exists []; by rewrite app_nil_r|].
  apply elem_of_concat in Hr as (l & Hr & Hl). apply elem_of_imap_from in Hl as (i & x & Hx & ->).
  apply list_elem_of_lookup_2 in Hx. rewrite Forall_forall in IH.
  destruct (IH x Hx _ _ Hr) as [s ->]. exists (i :: s). by rewrite <-app_assoc.
Qed.

(** Positions under different children are apart. *)
Lemma not_child_below p i j s r x :
  i ≠ j → r ∈ positions (p ++ [j]) x → ¬ child_of (p ++ i :: s) r.
Proof.
  intros Hij (t & Hr)%positions_prefix [_ Ht]. rewrite Hr in Ht. clear Hr.
  apply (f_equal (λ l, l !! length p)) in Ht.
  rewrite lookup_take_lt in Ht by (rewrite length_app; cbn; lia).
  rewrite <-app_assoc, (lookup_app_r p ([j] ++ t)), (lookup_app_r p (i :: s)), Nat.sub_diag in Ht by lia.
  by injection Ht as ->.
Qed.

Lemma filter_none {A} (P : A → Prop) `{!∀ x, Decision (P x)} l : (∀ x, x ∈ l → ¬ P x) → filter P l = [].
Proof.
  induction l as [|x l IH]; intros Hno; [done|]. rewrite filter_cons_False by (apply Hno; by left).
  apply IH. intros y Hy. apply Hno. by right.
Qed.

(** The children of the tree's own root. *)
Lemma children_below p j l :
  filter (child_of p) (below p j l) = imap_from (λ i x, (p ++ [i], x)) j l.
Proof.
  revert j. induction l as [|x l IH]; intros j; [done|]. unfold below in *. cbn [imap_from concat].
  rewrite filter_app, IH, positions_eq, filter_cons_True.
  2:{ split; cbn; [rewrite length_app; cbn; lia|by rewrite take_app_length]. }
  rewrite filter_none; [done|]. intros r (l' & Hr & Hl)%elem_of_concat [Hlen _].
  apply elem_of_imap_from in Hl as (i & y & _ & ->). apply positions_prefix in Hr as [s Hs].
  rewrite Hs, !length_app in Hlen. cbn in Hlen. lia.
Qed.

(** The children of a node in the subtree at index [i]. *)
Lemma children_inside p j l i x s :
  l !! i = Some x →
  filter (child_of (p ++ (j + i) :: s)) (below p j l) =
    filter (child_of (p ++ (j + i) :: s)) (positions (p ++ [j + i]) x).
Proof.
  revert j i. induction l as [|y l IH]; intros j [|i] Hx; [done|done|..]; cbn in Hx; unfold below in *;
    cbn [imap_from concat]; rewrite filter_app.
  - injection Hx as ->. rewrite Nat.add_0_r.
    rewrite (filter_none _ (concat _)); [by rewrite app_nil_r|].
    intros r (l' & Hr & Hl)%elem_of_concat. apply elem_of_imap_from in Hl as (i & z & _ & ->).
    eapply not_child_below; [|done]. lia.
  - rewrite (filter_none _ (positions _ _)).
    + replace (j + S i) with (S j + i) by lia. by apply IH.
    + intros r Hr. eapply not_child_below; [|done]. lia.
Qed.

Lemma positions_children n : ∀ p q m, (q, m) ∈ positions p n →
  filter (child_of q) (positions p n) = imap_from (λ i x, (q ++ [i], x)) 0 (nested_of m).
Proof.
  induction n as [a sg sh nested IH] using node_nested_ind. intros p q m Hq.
  assert (Hself : ∀ s, ¬ child_of (p ++ s) (p, mkNodeInfo a sg sh nested)).
  { intros s [Hl _]. cbn in Hl. rewrite length_app in Hl. lia. }
  rewrite positions_eq in Hq |- *. cbn [nested_of] in *. apply elem_of_cons in Hq as [[= -> ->]|Hq].
  - rewrite filter_cons_False by (rewrite <-(app_nil_r p) at 1; apply Hself). apply children_below.
  - apply elem_of_concat in Hq as (l & Hq & Hl). apply elem_of_imap_from in Hl as (i & x & Hx & ->).
    destruct (positions_prefix _ _ _ Hq) as [s Hs]. cbn in Hs. rewrite <-app_assoc in Hs. subst q.
    rewrite filter_cons_False by apply Hself. change ([i] ++ s) with (i :: s).
    pose proof (children_inside p 0 nested i x s Hx) as Hc. cbn [Nat.add] in Hc, Hq. rewrite Hc.
    rewrite Forall_forall in IH. apply (IH x); [by eapply list_elem_of_lookup_2|done].
Qed.

Lemma positions_order n p : map (λ r, match r.2 with mkNodeInfo a s _ _ => (a, s) end) (positions p n) = node_rows n.
Proof.
  revert p. induction n as [a sg sh nested IH] using node_nested_ind. intros p.
  rewrite positions_eq. cbn. f_equal. unfold below. generalize 0 as j.
  induction nested as [|x l IHl]; intros j; [done|]. cbn. inversion IH as [|? ? Hx Hr]; subst.
  rewrite map_app, Hx. f_equal. by apply IHl.
Qed.

Lemma positions_NoDup n p : NoDup (map fst (positions p n)).
Proof.
  revert p. induction n as [a sg sh nested IH] using node_nested_ind. intros p.
  rewrite positions_eq. cbn [map nested_of fst]. constructor.
  - intros (r & Hp & Hr)%list_elem_of_fmap. apply elem_of_concat in Hr as (l & Hr & Hl).
    apply elem_of_imap_from in Hl as (i & x & _ & ->). apply positions_prefix in Hr as [s Hs].
    rewrite Hs in Hp. apply (f_equal length) in Hp. rewrite !length_app in Hp. cbn in Hp. lia.
  - unfold below. generalize 0 as j. induction nested as [|x l IHl]; intros j; [constructor|].
    inversion IH as [|? ? Hx Hr]; subst. cbn [imap_from concat]. rewrite map_app.
    apply NoDup_app. split; [apply Hx|]. split; [|by apply IHl].
    intros q (r & -> & Hq)%list_elem_of_fmap (r' & Hr' & Hq')%list_elem_of_fmap.
    apply elem_of_concat in Hq' as (l' & Hq' & Hl'). apply elem_of_imap_from in Hl' as (i & y & _ & ->).
    apply positions_prefix in Hq as [s Hs], Hq' as [s' Hs']. rewrite Hs, Hs', <-!app_assoc in Hr'.
    apply app_inv_head in Hr'. injection Hr'. lia.
Qed.

(** What the drawing says of one position. *)
Definition dotText (r : list nat * NodeInfo) : string :=
  match r.2 with
  | mkNodeInfo address signed _ _ =>
      writeDOTNode (dotID r.1) address signed +:+
      match r.1 with
      | [] => ""
      | _ => "  " +:+ dotID (removelast r.1) +:+ " -> " +:+ dotID r.1 +:+ ";" +:+ newline
      end
  end.

Lemma dotNode_positions n p i :
  dotNode (dotID p) i n = String.concat "" (map dotText (positions (p ++ [i]) n)).
Proof.
  revert p i. induction n as [a sg sh nested IH] using node_nested_ind. intros p i.
  rewrite positions_eq. cbn [map nested_of]. rewrite string_concat_cons. cbn [dotNode].
  change (dotID p ++ "_" ++ pretty i)%string with (dotID p +:+ "_" +:+ pretty i). rewrite <-dotID_snoc.
  unfold dotText at 1. cbn [fst snd]. rewrite removelast_last.
  destruct (p ++ [i]) as [|i0 p0] eqn:Hp; [by destruct p|]. rewrite <-Hp, append_app, !append_app. clear Hp i0 p0.
  do 7 f_equal. unfold below. generalize 0 as j.
  induction nested as [|x l IHl]; intros j; [done|]. cbn [imap_from concat map].
  inversion IH as [|? ? Hx Hr]; subst. rewrite string_concat_cons, map_app, concat_app, Hx. f_equal. by apply IHl.
Qed.

(** The report's tree, under its top-level node. *)
Definition report_tree (info : EntryInfo) : NodeInfo :=
  mkNodeInfo (Info_Address info) (Info_TopLevelSigned info) None (Info_Delegates info).

(** The graph of a report draws its tree: every position of the tree is one
    node, in the order of the walk and with its own address and mark, no two
    of them share an identifier even where they share an address, and the
    edges out of a node lead, in order, to the nodes of its nested delegates. *)
Theorem DelegateTreeDOT_draws info :
  let drawn := positions [] (report_tree info) in
  DelegateTreeDOT info = dotOpening +:+ String.concat "" (map dotText drawn) +:+ "}" +:+ newline ∧
  NoDup (map (λ r, dotID r.1) drawn) ∧
  map (λ r, match r.2 with mkNodeInfo a s _ _ => (a, s) end) drawn =
    (Info_Address info, Info_TopLevelSigned info) :: concat (map node_rows (Info_Delegates info)) ∧
  ∀ p n, (p, n) ∈ drawn →
    filter (child_of p) drawn = imap_from (λ i x, (p ++ [i], x)) 0 (nested_of n).
Proof.
  intros drawn. subst drawn. split.
  { rewrite positions_eq. cbn [map]. rewrite string_concat_cons. unfold dotText at 1. cbn [fst snd report_tree].
    unfold DelegateTreeDOT. rewrite !append_app. change (dotID []) with "n0".
    do 2 f_equal. change ("" +:+ ?s)%string with s. f_equal.
    unfold writeDOTNodes, below. cbn [nested_of report_tree]. generalize 0 as j.
    induction (Info_Delegates info) as [|x l IH]; intros j; [done|]. cbn [imap_from concat map].
    rewrite string_concat_cons, map_app, concat_app. f_equal; [apply (dotNode_positions x [])|apply IH]. }
  split; [|split; [apply positions_order|apply positions_children]].
  rewrite <-(map_map fst dotID). apply NoDup_fmap; [apply _|apply positions_NoDup].
Qed.

(** ** The call tree *)
Fixpoint invocation_levels (i : SorobanAuthorizedInvocation) : nat :=
  match i with mkInvocation _ subs => S (max_list (map invocation_levels subs)) end.

Section call_tree.
Context `{SDK}.

(** What [writeInvocation] writes, once the depth is known to be allowed. *)
Fixpoint invocationText (prefix : string) (last : bool) (inv : SorobanAuthorizedInvocation) : string :=
  match inv with
  | mkInvocation f subs =>
      prefix +:+ connector last +:+ invocationLabel f +:+ newline +:+
      (fix level (l : list SorobanAuthorizedInvocation) : string :=
         match l with
         | [] => ""
         | x :: rest => invocationText (prefix +:+ continuation last) (isLast rest) x +:+ level rest
         end) subs
  end.

Lemma writeInvocation_spec i : ∀ prefix last depth,
  ((depth + Z.of_nat (invocation_levels i) <= 65)%Z →
   writeInvocation prefix last depth i = Ok (invocationText prefix last i)) ∧
  ((65 < depth + Z.of_nat (invocation_levels i))%Z →
   ∃ e, writeInvocation prefix last depth i = Err e ∧ errors_Is e ErrDecodeLimit = true).
Proof.
  induction i as [f subs IH] using invocation_nested_ind. intros prefix last depth.
  cbn [invocation_levels writeInvocation invocationText].
  destruct (checkTraversalDepth depth) as [[]|e] eqn:Hd.
  2:{ apply checkTraversalDepth_Err in Hd as [Hd He]. split; [lia|]. intros _. by exists e. }
  apply checkTraversalDepth_Ok in Hd. cbn [mbind result_bind].
  match goal with |- context [mbind _ (?l subs)] => set (level := l) end.
  match goal with |- context [newline +:+ ?t subs] => set (text := t) end.
  assert (Hlevel : ((depth + 1 + Z.of_nat (max_list (map invocation_levels subs)) <= 65)%Z →
                    level subs = Ok (text subs)) ∧
                   ((65 < depth + 1 + Z.of_nat (max_list (map invocation_levels subs)))%Z →
                    ∃ e, level subs = Err e ∧ errors_Is e ErrDecodeLimit = true)).
  { clear -IH Hd. induction subs as [|x l IHl]; cbn [map]; [cbn; split; [done|lia]|].
    change (max_list (?a :: ?b)) with (a `max` max_list b).
    inversion IH as [|? ? Hx Hl]; subst. destruct (IHl Hl) as [Hok Herr].
    destruct (Hx (prefix +:+ continuation last) (isLast l) (depth + 1)%Z) as [Hxok Hxerr].
    split.
    - intros Hle. cbn [level text]. rewrite Hxok by lia. cbn. rewrite Hok by lia. done.
    - intros Hgt. cbn [level]. destruct (Z.leb_spec (depth + 1 + Z.of_nat (invocation_levels x)) 65).
      + rewrite Hxok by lia. destruct (Herr ltac:(lia)) as (e & He & Hi). exists e. cbn. by rewrite He.
      + destruct (Hxerr ltac:(lia)) as (e & He & Hi). exists e. by rewrite He. }
  destruct Hlevel as [Hok Herr]. split.
  - intros Hle. rewrite Hok by lia. done.
  - intros Hgt. destruct (Herr ltac:(lia)) as (e & He & Hi). exists e. by rewrite He.
Qed.

(** A call tree is drawn exactly when it has at most 64 levels; a deeper one
    is refused as past the decoding limit. *)
Theorem InvocationTreeASCII_bounds root :
  match InvocationTreeASCII root with
  | Ok text => invocation_levels root <= 64 ∧ text = invocationText "" true root
  | Err e => 64 < invocation_levels root ∧ errors_Is e ErrDecodeLimit = true
  end.
Proof.
  unfold InvocationTreeASCII. destruct (writeInvocation_spec root "" true 1%Z) as [Hok Herr].
  destruct (Z.leb_spec (1 + Z.of_nat (invocation_levels root)) 65).
  - rewrite Hok by lia. split; [lia|done].
  - destruct Herr as (e & -> & He); [lia|]. split; [lia|done].
Qed.
End call_tree.

(** ** Concrete drawings *)
Example InvocationTree_text :
  InvocationTreeASCII (mkInvocation (Invocation_Function ex_invocation)
      [ex_invocation; mkInvocation (FunctionCreateContractHostFn None) []]) =
  Ok ("└── transfer (" +:+ ex_contract_text "z" +:+ ")" +:+ newline +:+
      "    ├── transfer (" +:+ ex_contract_text "z" +:+ ")" +:+ newline +:+
      "    │   └── burn (" +:+ ex_contract_text "y" +:+ ")" +:+ newline +:+
      "    └── " +:+ string_of_bytes [x01] +:+ newline).
Proof. vm_compute. reflexivity. Qed.

Example DelegateTree_text :
  DelegateTreeASCII (mkEntryInfo CredentialTypeAddressWithDelegates true "G" 0 0 true
      [mkNodeInfo "A" false None [mkNodeInfo "B" true None []]; mkNodeInfo "B" false None []] "" "" 0) =
  "G (signed)" +:+ newline +:+ "├── A (unsigned)" +:+ newline +:+
  "│   └── B (signed)" +:+ newline +:+ "└── B (unsigned)" +:+ newline.
Proof. vm_compute. reflexivity. Qed.
