(* ===== verification/Vault.v ===== *)
(** * Vault: signing with a key held by Vault's transit engine (vault.go)

    The signer reads the public key once and asks Vault for each signature.
    [VaultSigner_sound] says what a returned value was checked against and what
    Vault was asked; [latestPublicKey_newest] which of a key ring's versions
    the signer stands for.

    HTTP is a function from a request to a response, net/url and encoding/json
    are the classes [NetURL] and [VaultJSON].  A map's first element is that of
    [map_to_list]; Go's order is random, and only the name an error reports
    depends on it. *)
From Stdlib Require Import ZArith Lia Strings.Byte String Ascii.
From stdpp Require Import base list strings gmap pretty sorting.
From S2P Require Import Prelude Encoding Errors Xdr ModelSDK Runtime Examples Address Limits Arm Preimage Signers WebAuthn Remote.

Open Scope string_scope. Open Scope nat_scope. Open Scope list_scope.

(** ** Parameters *)
Class NetURL := {
  URL : Type;
  url_Parse : string → result URL;
  url_Scheme : URL → string;
  url_Host : URL → string;
  url_Path : URL → string;
  url_String : URL → string → string;                  (* with another path *)
  http_NewRequest : string → string → result unit      (* method and URL, checked *)
}.

(** A value of the response's ["keys"] object. *)
Inductive KeyValue := KeyText (s : string) | KeyOther.

Record KeyData := mkKeyData {
  Key_Type : string;
  LatestVersion : Z;
  Keys : gmap string KeyValue
}.

Class VaultJSON := {
  json_UnmarshalKey : bytes → result KeyData;
  json_UnmarshalSignature : bytes → result string;
  json_MarshalInput : string → bytes                   (* {"input": ...} *)
}.

(** A response: its status, the bytes of its body, and the error reading past
    them ends with, if any. *)
Record VaultResponse := mkVaultResponse {
  Vault_StatusCode : Z;
  Vault_Body : bytes;
  Vault_ReadError : option error
}.

(** [http.Client.Do]: context, method, URL, headers and body. *)
Definition VaultDo : Type :=
  Ctx → string → string → list (string * string) → option bytes → IO VaultResponse.

Definition maxVaultResponseBytes : N := 2 ^ 20.

(** [io.ReadAll(io.LimitReader(body, maxVaultResponseBytes))] *)
Definition readLimited (r : VaultResponse) : result bytes :=
  let b := Vault_Body r in
  if (maxVaultResponseBytes <=? N.of_nat (length b))%N then Ok (take (N.to_nat maxVaultResponseBytes) b)
  else match Vault_ReadError r with Some e => Err e | None => Ok b end.

(** ** strings *)
Definition TrimSuffixSlash (s : string) : string :=
  if String.eqb (String.substring (String.length s - 1) 1 s) "/"
  then String.substring 0 (String.length s - 1) s else s.

Definition is_space (c : ascii) : bool :=
  let n := N_of_ascii c in ((9 <=? n) && (n <=? 13) || (n =? 32))%N.

(** [strings.TrimSpace], of ASCII text. *)
Fixpoint trimLeft (s : string) : string :=
  match s with
  | String c r => if is_space c then trimLeft r else s
  | EmptyString => s
  end.
Fixpoint trimRight (s : string) : string :=
  match s with
  | EmptyString => EmptyString
  | String c r => match trimRight r with
                  | EmptyString => if is_space c then EmptyString else String c EmptyString
                  | r' => String c r'
                  end
  end.
Definition TrimSpace (s : string) : string := trimLeft (trimRight s).

(** The text after the last colon, if there is one. *)
Fixpoint afterLastColon (s : string) : option string :=
  match s with
  | EmptyString => None
  | String c r =>
      match afterLastColon r with
      | Some t => Some t
      | None => if Ascii.eqb c ":" then Some r else None
      end
  end.

(** ** Key versions and signatures *)
Fixpoint parseVersions (names : list string) : result (list Z) :=
  match names with
  | [] => Ok []
  | name :: names =>
      version ← of_option (ParseInt64 name) (EText ("unexpected version name " +:+ quoted name));
      versions ← parseVersions names;
      Ok (version :: versions)
  end.

Definition latestPublicKey (keys : gmap string KeyValue) (latestVersion : Z) : result bytes :=
  _ ← refuse (bool_decide (keys = ∅)) (EText "the key has no versions");
  versions ← parseVersions (map fst (map_to_list keys));
  let sorted := merge_sort Z.le versions in
  let version := if (latestVersion >? 0)%Z then latestVersion else default 0%Z (last sorted) in
  let text s := "version " +:+ FormatInt version +:+ s in
  value ← of_option (keys !! FormatInt version) (EText (text " is missing from the key ring"));
  encoded ← match value with
            | KeyText s => Ok s
            | KeyOther => Err (EText (text " is not a base64 public key"))
            end;
  raw ← wrap (text " is not valid base64") (decodeBase64 encoded);
  _ ← refuse (negb (Nat.eqb (length raw) 32))
        (EText (text (" decodes to " +:+ pretty (length raw) +:+ " bytes, an ed25519 public key is 32")));
  Ok raw.

Definition decodeVaultSignature (encoded : string) : result bytes :=
  rest ← of_option (afterLastColon encoded)
           (EText ("signature " +:+ quoted encoded +:+ " has no vault:vN: prefix"));
  wrap "signature is not valid base64" (decodeBase64 rest).

Section vault.
Context `{SDK} `{NetURL} `{VaultJSON}.

Record VaultConfig := mkVaultConfig {
  BaseURL : string;
  Token : string;
  Mount : string;
  KeyName : string;
  Vault_Address : string;
  HTTPClient : option VaultDo
}.

Record VaultSigner := mkVaultSigner {
  vault_baseURL : URL;
  vault_token : string;
  vault_mount : string;
  vault_keyName : string;
  vault_address : string;
  vault_client : VaultDo;
  vault_publicKey : option bytes;
  vault_rawKey : bytes
}.

Definition endpoint (s : VaultSigner) (path : string) : string :=
  url_String (vault_baseURL s) (TrimSuffixSlash (url_Path (vault_baseURL s)) +:+ path).

Definition requestHeaders (s : VaultSigner) (requestBody : option bytes) : list (string * string) :=
  ("X-Vault-Token", vault_token s) ::
  match requestBody with Some _ => [("Content-Type", "application/json")] | None => [] end.

(** The answer of a request by its status. *)
Definition vaultStatus (method path : string) (notFound : sentinel) (status : Z) (body : bytes)
    : result bytes :=
  let text := method +:+ " " +:+ path +:+ ": HTTP " +:+ FormatInt status in
  if ((200 <=? status) && (status <? 300))%Z then Ok body
  else if ((status =? 403) || (status =? 401))%Z then Err (EWrap text (ESentinel ErrVaultUnauthorized))
  else if (status =? 404)%Z then Err (EWrap text (ESentinel notFound))
  else Err (EText (text +:+ ": " +:+ TrimSpace (string_of_bytes body))).

Definition vault_do (s : VaultSigner) (ctx : Ctx) (method path : string) (requestBody : option bytes)
    (notFound : sentinel) : IO bytes :=
  _ ← lift (wrap "building the request" (http_NewRequest method (endpoint s path)));
  response ← io_wrap "calling vault"
    (vault_client s ctx method (endpoint s path) (requestHeaders s requestBody) requestBody);
  responseBody ← lift (wrap "reading the response" (readLimited response));
  lift (vaultStatus method path notFound (Vault_StatusCode response) responseBody).

Definition checkAddress (s : VaultSigner) (raw : bytes) : result unit :=
  derived ← wrap "soroauth: vault signer: encoding the public key's address"
              (strkey_Encode VersionByteAccountID raw);
  refuse (negb (String.eqb derived (vault_address s)))
    (EWrap ("soroauth: vault signer: transit key " +:+ quoted (vault_keyName s) +:+ " derives " +:+ derived
            +:+ ", configured address is " +:+ vault_address s) (ESentinel ErrSignerAddressMismatch)).

Definition readPublicKey (s : VaultSigner) (ctx : Ctx) : IO bytes :=
  let op := "soroauth: vault signer" in
  body ← vault_do s ctx "GET" ("/v1/" +:+ vault_mount s +:+ "/keys/" +:+ vault_keyName s) None ErrVaultKeyNotFound;
  lift (response ← wrap (op +:+ ": decoding the key response") (json_UnmarshalKey body);
        _ ← refuse (negb (String.eqb (Key_Type response) "ed25519"))
              (EWrap (op +:+ ": key " +:+ quoted (vault_keyName s) +:+ " is " +:+ quoted (Key_Type response)
                      +:+ ", need ed25519") (ESentinel ErrVaultKeyType));
        wrap (op +:+ ": key " +:+ quoted (vault_keyName s))
          (latestPublicKey (Keys response) (LatestVersion response))).

(** [defaultClient] is [&http.Client{Timeout: defaultVaultHTTPTimeout}]. *)
Definition NewVaultSigner (defaultClient : VaultDo) (ctx : Ctx) (cfg : VaultConfig) : IO VaultSigner :=
  let op := "soroauth: new vault signer" in
  s ← lift (
    _ ← refuse (String.eqb (BaseURL cfg) "") (EText (op +:+ ": base URL is required"));
    baseURL ← wrap (op +:+ ": parsing base URL") (url_Parse (BaseURL cfg));
    _ ← refuse (String.eqb (url_Scheme baseURL) "" || String.eqb (url_Host baseURL) "")
          (EText (op +:+ ": base URL " +:+ quoted (BaseURL cfg) +:+ " must be absolute"));
    _ ← refuse (String.eqb (Token cfg) "")
          (EWrap (op +:+ ": token is required") (ESentinel ErrVaultUnauthorized));
    _ ← refuse (String.eqb (KeyName cfg) "") (EText (op +:+ ": key name is required"));
    _ ← wrap op (rawEd25519Key (Vault_Address cfg));
    Ok (mkVaultSigner baseURL (Token cfg)
          (if String.eqb (Mount cfg) "" then "transit" else Mount cfg) (KeyName cfg) (Vault_Address cfg)
          (default defaultClient (HTTPClient cfg)) None []));
  raw ← readPublicKey s ctx;
  _ ← lift (checkAddress s raw);
  mret (mkVaultSigner (vault_baseURL s) (vault_token s) (vault_mount s) (vault_keyName s) (vault_address s)
          (vault_client s) (Some raw) raw).

Definition VaultSigner_Sign (s : VaultSigner) (ctx : Ctx) (preimage : HashIdPreimage) (payload : bytes)
    : IO ScVal :=
  let op := "soroauth: vault sign" in
  _ ← ctx_check ctx op;
  publicKey ← lift (of_option (vault_publicKey s) (EWrap op (ESentinel ErrMissingSigner)));
  expected ← lift (wrap op (Payload preimage));
  _ ← lift (refuse (negb (bytes_Equal expected payload))
        (EWrap (op +:+ ": payload does not match the preimage") (ESentinel ErrSignatureMismatch)));
  let request := json_MarshalInput (EncodeToString StdEncoding payload) in
  body ← io_wrap op (vault_do s ctx "POST" ("/v1/" +:+ vault_mount s +:+ "/sign/" +:+ vault_keyName s)
                       (Some request) ErrVaultKeyNotFound);
  response ← lift (wrap (op +:+ ": decoding the sign response") (json_UnmarshalSignature body));
  signature ← lift (wrap op (decodeVaultSignature response));
  _ ← lift (refuse (negb (ed25519_Verify publicKey payload signature))
        (EWrap op (ESentinel ErrSignatureMismatch)));
  mret (scVec [accountSignature (vault_rawKey s) signature]).

Definition VaultSigner_asSigner (s : VaultSigner) : Signer :=
  mkSigner (vault_address s) (VaultSigner_Sign s) None.
End vault.

(** ** Lemmas *)
Lemma parseVersions_Forall2 names versions :
  parseVersions names = Ok versions ↔ Forall2 (λ n v, ParseInt64 n = Some v) names versions.
Proof.
  revert versions. induction names as [|n names IH]; intros versions; cbn.
  { split; [intros [= <-]; constructor|by inversion 1]. }
  rewrite bind_Ok. setoid_rewrite of_option_Ok. setoid_rewrite bind_Ok. split.
  - intros (v & Hv & vs & Hvs%IH & [= <-]). by constructor.
  - inversion 1 as [|? v ? vs Hv Hvs]; subst. exists v. split; [done|]. exists vs. by rewrite IH.
Qed.

Lemma last_max (l : list Z) x : last (merge_sort Z.le l) = Some x → ∀ y, y ∈ l → (y <= x)%Z.
Proof.
  intros Hl y Hy. rewrite <-(merge_sort_Permutation Z.le l) in Hy.
  pose proof (StronglySorted_merge_sort Z.le l) as Hs. revert x y Hl Hy.
  induction Hs as [|z l' _ IH Hz]; intros x y Hl Hy; [done|].
  destruct l' as [|z' l']; cbn in Hl.
  - injection Hl as ->. apply elem_of_cons in Hy as [->|Hy]; [done|]. by apply not_elem_of_nil in Hy.
  - apply elem_of_cons in Hy as [->|Hy]; [|by apply IH].
    transitivity z'; [by inversion Hz|]. apply (IH x z'); [done|by left].
Qed.

(** The key a signer stands for is the version Vault calls the latest or,
    where it names none, the one with the greatest number, and it has 32
    bytes. *)
Theorem latestPublicKey_newest keys latestVersion raw :
  latestPublicKey keys latestVersion = Ok raw →
  length raw = 32 ∧
  ∃ version text, keys !! FormatInt version = Some (KeyText text) ∧ DecodeString StdEncoding text = Some raw ∧
    if (latestVersion >? 0)%Z then version = latestVersion
    else ∀ name value v, keys !! name = Some value → ParseInt64 name = Some v → (v <= version)%Z.
Proof.
  unfold latestPublicKey. intros Hk. inv_ok. apply bool_decide_eq_false in Hx.
  apply parseVersions_Forall2 in Hx0. destruct x1 as [text|]; [|discriminate]. inv_ok.
  unfold decodeBase64 in *. inv_ok. apply negb_false_iff, Nat.eqb_eq in Hx4. split; [done|].
  eexists _, _. split; [exact Hx1|]. split; [done|].
  destruct (Z.gtb_spec latestVersion 0); [done|]. intros name value v Hn Hv.
  assert (Hin : v ∈ x0).
  { apply elem_of_map_to_list in Hn. apply (list_elem_of_fmap_2 fst) in Hn. cbn in Hn.
    apply list_elem_of_lookup in Hn as [i Hi].
    destruct (Forall2_lookup_l _ _ _ _ _ Hx0 Hi) as (v' & Hv' & E). rewrite E in Hv. injection Hv as ->.
    by eapply list_elem_of_lookup_2. }
  destruct (last (merge_sort Z.le x0)) as [m|] eqn:Hl; cbn; [by eapply last_max|].
  apply last_None in Hl. rewrite <-(merge_sort_Permutation Z.le x0), Hl in Hin. by apply not_elem_of_nil in Hin.
Qed.

(** ** Theorem *)
Section vault_theorem.
Context `{SDK} `{NetURL} `{VaultJSON}.

Lemma vault_do_Ok s ctx method path body notFound w b w' :
  vault_do s ctx method path body notFound w = (Ok b, w') →
  ∃ response, vault_client s ctx method (endpoint s path) (requestHeaders s body) body w = (Ok response, w') ∧
    readLimited response = Ok b ∧ (200 <= Vault_StatusCode response < 300)%Z.
Proof.
  unfold vault_do. intros Hd. inv_io. inv_ok. eexists. split; [done|].
  unfold vaultStatus in *. destruct ((200 <=? _)%Z && _) eqn:Hs; [|by repeat case_match].
  inv_ok. split; [done|]. lia.
Qed.

Lemma NewVaultSigner_key defaultClient ctx cfg w s w' :
  NewVaultSigner defaultClient ctx cfg w = (Ok s, w') →
  vault_publicKey s = Some (vault_rawKey s) ∧ vault_address s = Vault_Address cfg ∧
  vault_token s = Token cfg ∧
  strkey_Encode VersionByteAccountID (vault_rawKey s) = Ok (Vault_Address cfg) ∧
  ∃ keys latestVersion, latestPublicKey keys latestVersion = Ok (vault_rawKey s).
Proof.
  unfold NewVaultSigner, readPublicKey, checkAddress. intros Hn. inv_io. inv_ok. cbn in *.
  apply negb_false_iff, String.eqb_eq in Hl as ->. repeat split; eauto.
Qed.

(** A Vault signer stands for the configured account, whose key is the one
    Vault named at construction; a value it returns is the account shape with
    that key and a signature that verifies over the payload, the payload is the
    hash of the preimage, and the signature is what Vault answered, with a
    success status, to a request for exactly that payload under the
    configured token. *)
Theorem VaultSigner_sound defaultClient ctx cfg w0 s w1 ctx' preimage payload w v w' :
  NewVaultSigner defaultClient ctx cfg w0 = (Ok s, w1) →
  signer_Sign (VaultSigner_asSigner s) ctx' preimage payload w = (Ok v, w') →
  signer_Address (VaultSigner_asSigner s) = Vault_Address cfg ∧
  Payload preimage = Ok payload ∧ length (vault_rawKey s) = 32 ∧
  strkey_Encode VersionByteAccountID (vault_rawKey s) = Ok (Vault_Address cfg) ∧
  ∃ signature, v = scVec [accountSignature (vault_rawKey s) signature] ∧
    ed25519_Verify (vault_rawKey s) payload signature = true ∧
    ∃ w2 response body text,
      vault_client s ctx' "POST" (endpoint s ("/v1/" +:+ vault_mount s +:+ "/sign/" +:+ vault_keyName s))
        [("X-Vault-Token", Token cfg); ("Content-Type", "application/json")]
        (Some (json_MarshalInput (EncodeToString StdEncoding payload))) w2 = (Ok response, w') ∧
      (200 <= Vault_StatusCode response < 300)%Z ∧ readLimited response = Ok body ∧
      json_UnmarshalSignature body = Ok text ∧ decodeVaultSignature text = Ok signature.
Proof.
  intros Hnew Hs. apply NewVaultSigner_key in Hnew as (Hpub & Haddr & Htok & Hkey & keys & lv & Hraw).
  apply latestPublicKey_newest in Hraw as [Hlen _].
  cbn [signer_Sign signer_Address VaultSigner_asSigner] in *. unfold VaultSigner_Sign in Hs.
  rewrite Hpub in Hs. inv_io. inv_ok.
  match goal with E : vault_do _ _ _ _ _ _ _ = _ |- _ => apply vault_do_Ok in E as (response & Hc & Hb & Hst) end.
  repeat match goal with E : negb _ = false |- _ => apply negb_false_iff in E end.
  match goal with E : bytes_Equal _ _ = true |- _ => apply bytes_Equal_spec in E as -> end.
  match goal with E : Some _ = Some _ |- _ => injection E as <- end.
  unfold requestHeaders in Hc. rewrite Htok in Hc.
  do 4 (split; [done|]). eexists. split; [done|]. split; [done|].
  by eexists _, response, _, _.
Qed.
End vault_theorem.

(** ** A concrete Vault *)
#[export] Instance ModelNetURL : NetURL := {|
  URL := string;
  url_Parse s := Ok s;
  url_Scheme _ := "https";
  url_Host u := u;
  url_Path _ := "/";
  url_String u path := u +:+ path;
  http_NewRequest _ _ := Ok tt
|}.

#[export] Instance ModelVaultJSON : VaultJSON := {|
  json_UnmarshalKey b := '(t, v, l) ← read_value (A := string * Z * list (string * string)) b;
                         Ok (mkKeyData t v (list_to_map (prod_map id KeyText <$> l)));
  json_UnmarshalSignature b := read_value b;
  json_MarshalInput s := bytes_of_string s
|}.

(** It holds two versions of a key, and signs any input with the second. *)
Definition ex_vault_server : VaultDo := λ _ method path headers body,
  match headers, body with
  | ("X-Vault-Token", "token") :: _, None =>
      mret (mkVaultResponse 200 (write_value ("ed25519", 0%Z,
        [("9", EncodeToString StdEncoding (ex_key "a")); ("10", EncodeToString StdEncoding (ex_key "b"))])) None)
  | ("X-Vault-Token", "token") :: _, Some input =>
      payload ← lift (decodeBase64 (string_of_bytes input));
      mret (mkVaultResponse 200 (write_value ("vault:v10:" +:+ EncodeToString StdEncoding (payload ++ ex_key "b"))) None)
  | _, _ => mret (mkVaultResponse 403 [] None)
  end.

Definition ex_vault_config (token address : string) : VaultConfig :=
  mkVaultConfig "https://vault" token "" "soroban" address (Some ex_vault_server).
Definition ex_vault_new (token address : string) : IO VaultSigner :=
  NewVaultSigner (λ _ _ _ _ _, lift (Err (EText "no network"))) Background (ex_vault_config token address).
Definition ex_vault_request : HashIdPreimage :=
  PreimageOfSorobanAuthorization (Some (mkSorobanAuthorization (ex_key "n") 1 1000 ex_invocation)).
Definition ex_vault_payload : bytes := match Payload ex_vault_request with Ok p => p | Err _ => [] end.
Definition ex_vault_run (payload : bytes) : IO (VaultSigner * ScVal) :=
  s ← ex_vault_new "token" (ex_text "b");
  v ← signer_Sign (VaultSigner_asSigner s) Background ex_vault_request payload;
  mret (s, v).

(** A rejected token, an account the key does not derive, another payload. *)
Example ex_vault_refusals :
  let fails {A} s (m : IO A) := match fst (m initial_world) with Err e => errors_Is e s | Ok _ => false end in
  fails ErrVaultUnauthorized (ex_vault_new "other" (ex_text "b")) = true ∧
  fails ErrSignerAddressMismatch (ex_vault_new "token" (ex_text "a")) = true ∧
  fails ErrSignatureMismatch (ex_vault_run (ex_key "p")) = true.
Proof. split_and!; vm_compute; reflexivity. Qed.

(** The prefix is not looked at: anything before the last colon will do. *)
Example ex_vault_prefix :
  decodeVaultSignature "anything:at:all:AAEC" = Ok [x00; x01; x02] ∧ is_ok (decodeVaultSignature "AAEC") = false.
Proof. split; vm_compute; reflexivity. Qed.

Definition ex_key_ring : gmap string KeyValue :=
  <["9" := KeyText (EncodeToString StdEncoding (ex_key "a"))]>
    {["10" := KeyText (EncodeToString StdEncoding (ex_key "b"))]}.

Lemma latestPublicKey_newest_witness :
  length (ex_key "b") = 32 ∧
  ∃ version text, ex_key_ring !! FormatInt version = Some (KeyText text) ∧
    DecodeString StdEncoding text = Some (ex_key "b") ∧
    ∀ name value v, ex_key_ring !! name = Some value → ParseInt64 name = Some v → (v <= version)%Z.
Proof. apply (latestPublicKey_newest ex_key_ring 0 (ex_key "b")). vm_compute. reflexivity. Defined.

Lemma VaultSigner_sound_witness :
  ∃ s v signature, is_ok (fst (ex_vault_run ex_vault_payload initial_world)) = true ∧
    signer_Address (VaultSigner_asSigner s) = ex_text "b" ∧
    Payload ex_vault_request = Ok ex_vault_payload ∧ length (vault_rawKey s) = 32 ∧
    v = scVec [accountSignature (vault_rawKey s) signature] ∧
    ed25519_Verify (vault_rawKey s) ex_vault_payload signature = true.
Proof.
  assert (Hok : is_ok (fst (ex_vault_run ex_vault_payload initial_world)) = true) by (vm_compute; reflexivity).
  destruct (ex_vault_run ex_vault_payload initial_world) as [[[s v]|e] w] eqn:Hrun; [|discriminate Hok].
  apply io_bind_Ok in Hrun as (s' & w1 & Hnew & Hrun). apply io_bind_Ok in Hrun as (v' & w2 & Hsign & Hrun).
  apply (VaultSigner_sound _ _ _ _ _ _ _ _ _ _ _ _ Hnew) in Hsign as (Ha & Hp & Hl & _ & signature & Hv & He & _).
  exists s', v', signature. split_and!; assumption.
Defined.
