(* ===== verification/Frost.v ===== *)
(** * Frost: FROST threshold signing rounds (frost/frost.go)

    A coordinator keeps one session per round: commitments are collected, then
    signature shares, and the share that reaches the threshold turns the session
    into a signature.  Coordinators and the participants' signers are shared
    objects, so they live in a store and are named by pointers.
    [FROSTCoordinator_session] is the invariant of a coordinator under any
    sequence of calls, [FROSTSigner_sound] what the signer built from these
    parts returns and that it leaves no session behind.

    The group and the FROST computations are a third-party library and are the
    classes [FrostGroup] and [FrostLib]; a [frost.Signer]'s own state is the
    parameter [FSigner].  Locks make every call one step. *)
From Stdlib Require Import ZArith Lia Strings.Byte String.
From stdpp Require Import base list strings gmap fin_maps pretty sorting.
From S2P Require Import Prelude Encoding Errors Xdr ModelSDK Runtime Examples Address Limits Arm Preimage Signers.

Open Scope string_scope. Open Scope nat_scope. Open Scope list_scope.

(** ** The FROST library *)
Class FrostGroup := {
  Element : Type;
  Element_Decode : bytes → result Element;
  Element_Encode : Element → bytes;
  PublicKeyShare : Type;
  NewPublicKeyShare : Z → bytes → result PublicKeyShare;
  KeyShare : Type;
  NewKeyShare : Z → bytes → bytes → bytes → result KeyShare
}.

Record Configuration `{FrostGroup} := mkConfiguration {
  Threshold : Z;
  MaxSigners : Z;
  VerificationKey : Element;
  SignerPublicKeyShares : list PublicKeyShare
}.

Class FrostLib `{FrostGroup} := {
  Configuration_Init : Configuration → result unit;
  Commitment : Type;
  SortCommitments : list Commitment → list Commitment;
  ValidateCommitment : Configuration → Commitment → result unit;
  SignatureShare : Type;
  VerifySignatureShare : Configuration → SignatureShare → bytes → list Commitment → result unit;
  (* the encodings of R and Z *)
  AggregateSignatures : Configuration → bytes → list SignatureShare → list Commitment → bool → result (bytes * bytes);
  FSigner : Type;
  Configuration_Signer : Configuration → KeyShare → result FSigner;
  FSigner_Commit : FSigner → FSigner * Commitment;
  FSigner_Sign : FSigner → bytes → list Commitment → FSigner * result SignatureShare;
  (* key shares as (secret key, public key), and the verification key *)
  dealer_Keygen : Z → Z → list (bytes * bytes) * Element
}.

(** Go's [uint16(n)]. *)
Definition wrap_u16 (z : Z) : Z := (z mod 2 ^ 16)%Z.

Section frost.
Context `{SDK} `{FrostLib}.

(** ** The coordinator *)
Record frostSigningSession := mkSession {
  round : Z;
  commitments : list Commitment;
  message : bytes;
  sigShares : list SignatureShare;
  complete : bool;
  signature : bytes
}.

Record FROSTCoordinator := mkCoordinator {
  cfg : Configuration;
  threshold : Z;
  coord_address : string;
  sessions : gmap Z frostSigningSession;
  roundGen : IO Z
}.

Definition withSessions (c : FROSTCoordinator) (m : gmap Z frostSigningSession) : FROSTCoordinator :=
  mkCoordinator (cfg c) (threshold c) (coord_address c) m (roundGen c).

Definition defaultRoundGen (rand_Read : nat → IO bytes) : IO Z :=
  buf ← rand_Read 8;
  mret (wrap_i64 (be_value buf)).

Definition checkShare (i : nat) (pkBytes : bytes) : result PublicKeyShare :=
  _ ← refuse (negb (Nat.eqb (length pkBytes) 32))
        (EText ("frost: public key share " +:+ pretty i +:+ " must be 32 bytes, got " +:+ pretty (length pkBytes)));
  _ ← wrap ("frost: decode public key share " +:+ pretty i) (Element_Decode pkBytes);
  wrap ("frost: create public key share " +:+ pretty i) (NewPublicKeyShare (wrap_u16 (Z.of_nat i + 1)) pkBytes).

Definition NewFROSTCoordinator (rand_Read : nat → IO bytes) (verificationKey : bytes)
    (publicKeyShares : list bytes) (threshold maxSigners : Z) (address : string) : result FROSTCoordinator :=
  _ ← refuse (negb (Nat.eqb (length verificationKey) 32))
        (EText ("frost: verification key must be 32 bytes, got " +:+ pretty (length verificationKey)));
  _ ← refuse ((threshold <? 1) || (threshold >? maxSigners))%Z
        (EText ("frost: threshold " +:+ FormatInt threshold +:+ " must be between 1 and " +:+ FormatInt maxSigners));
  _ ← refuse (negb (Z.of_nat (length publicKeyShares) =? maxSigners)%Z)
        (EText ("frost: expected " +:+ FormatInt maxSigners +:+ " public key shares, got " +:+
                pretty (length publicKeyShares)));
  _ ← wrap ("frost: invalid address " +:+ quoted address) (strkey_Decode VersionByteAccountID address);
  vk ← wrap "frost: decode verification key" (Element_Decode verificationKey);
  pkShares ← imapM checkShare publicKeyShares;
  let cfg := mkConfiguration _ (wrap_u16 threshold) (wrap_u16 maxSigners) vk pkShares in
  _ ← wrap "frost: init configuration" (Configuration_Init cfg);
  Ok (mkCoordinator cfg (wrap_u16 threshold) address ∅ (defaultRoundGen rand_Read)).

(** *** One call on a coordinator, past the check of its context *)
Definition notFound (r : Z) : error := EText ("frost: round " +:+ FormatInt r +:+ " not found").

Definition beginRound (r : Z) (payload : bytes) (c : FROSTCoordinator) : FROSTCoordinator :=
  withSessions c (<[r := mkSession r [] payload [] false []]> (sessions c)).

Definition addCommitment (r : Z) (commitment : Commitment) (c : FROSTCoordinator)
    : result unit * FROSTCoordinator :=
  match sessions c !! r with
  | None => (Err (notFound r), c)
  | Some s =>
      if complete s then (Err (EText ("frost: round " +:+ FormatInt r +:+ " already complete")), c)
      else match ValidateCommitment (cfg c) commitment with
      | Err e => (Err (EWrap "frost: invalid commitment" e), c)
      | Ok _ => (Ok tt, withSessions c (<[r := mkSession (round s) (commitments s ++ [commitment]) (message s)
                                                 (sigShares s) (complete s) (signature s)]> (sessions c)))
      end
  end.

Definition GetCommitments (c : FROSTCoordinator) (r : Z) : result (list Commitment) :=
  s ← of_option (sessions c !! r) (notFound r);
  _ ← refuse (Z.of_nat (length (commitments s)) <? threshold c)%Z
        (EText ("frost: insufficient commitments (" +:+ pretty (length (commitments s)) +:+ "/" +:+
                FormatUint (threshold c) +:+ ")"));
  Ok (SortCommitments (commitments s)).

(** The aggregation once a share has been appended: the signature, if the
    threshold is met. *)
Definition aggregate (c : FROSTCoordinator) (s : frostSigningSession) : result bytes :=
  '(rBytes, sBytes) ← wrap "frost: aggregate signatures"
    (AggregateSignatures (cfg c) (message s) (take (Z.to_nat (threshold c)) (sigShares s))
       (SortCommitments (commitments s)) true);
  _ ← refuse (negb (Nat.eqb (length rBytes) 32) || negb (Nat.eqb (length sBytes) 32))
        (EText ("frost: unexpected signature component size: R=" +:+ pretty (length rBytes) +:+ ", s=" +:+
                pretty (length sBytes)));
  Ok (rBytes ++ sBytes).

Definition addSignatureShare (r : Z) (share : SignatureShare) (c : FROSTCoordinator)
    : result bytes * FROSTCoordinator :=
  match sessions c !! r with
  | None => (Err (notFound r), c)
  | Some s =>
      if complete s then (Ok (signature s), c)
      else match VerifySignatureShare (cfg c) share (message s) (SortCommitments (commitments s)) with
      | Err e => (Err (EWrap "frost: invalid signature share" e), c)
      | Ok _ =>
          let s1 := mkSession (round s) (commitments s) (message s) (sigShares s ++ [share])
                      (complete s) (signature s) in
          let c1 := withSessions c (<[r := s1]> (sessions c)) in
          if (Z.of_nat (length (sigShares s1)) >=? threshold c)%Z then
            match aggregate c s1 with
            | Err e => (Err e, c1)
            | Ok sig => (Ok sig, withSessions c (<[r := mkSession (round s) (commitments s) (message s)
                                                         (sigShares s1) true sig]> (sessions c)))
            end
          else (Ok [], c1)
      end
  end.

Definition GetSignature (c : FROSTCoordinator) (r : Z) : result bytes :=
  s ← of_option (sessions c !! r) (notFound r);
  _ ← refuse (negb (complete s)) (EText ("frost: round " +:+ FormatInt r +:+ " not complete"));
  Ok (signature s).

Definition FROSTCoordinator_IsComplete (c : FROSTCoordinator) (r : Z) : bool :=
  match sessions c !! r with Some s => complete s | None => false end.

Definition cleanup (r : Z) (c : FROSTCoordinator) : FROSTCoordinator := withSessions c (delete r (sessions c)).

(** ** The store *)
Record Store := mkStore {
  coordinators : gmap nat FROSTCoordinator;
  signers : gmap nat FSigner
}.

Definition FM (A : Type) : Type := Store * World → result A * (Store * World).

#[export] Instance FM_ret : MRet FM := λ A a s, (Ok a, s).
#[export] Instance FM_bind : MBind FM := λ A B f m s,
  match m s with
  | (Ok a, s') => f a s'
  | (Err e, s') => (Err e, s')
  end.

Definition fio {A} (m : IO A) : FM A := λ s, let '(r, w) := m (snd s) in (r, (fst s, w)).
Definition flift {A} (r : result A) : FM A := λ s, (r, s).
(** [defer]: the second step runs whatever the first one returned. *)
Definition fdefer {A} (m : FM A) (last : FM unit) : FM A := λ s,
  let '(r, s') := m s in (r, snd (last s')).
Definition fwrap {A} (prefix : string) (m : FM A) : FM A :=
  λ s, let '(r, s') := m s in (wrap prefix r, s').

(** A call on the coordinator at a pointer; Go panics at an invalid one. *)
Definition on_coordinator {A} (p : nat) (f : FROSTCoordinator → result A * FROSTCoordinator) : FM A :=
  λ s, match coordinators (fst s) !! p with
       | Some c => let '(r, c') := f c in
                   (r, (mkStore (<[p := c']> (coordinators (fst s))) (signers (fst s)), snd s))
       | None => (Err (EText "nil pointer dereference"), s)
       end.
Definition read_coordinator {A} (p : nat) (f : FROSTCoordinator → result A) : FM A :=
  on_coordinator p (λ c, (f c, c)).
Definition on_signer {A} (p : nat) (f : FSigner → FSigner * A) : FM A :=
  λ s, match signers (fst s) !! p with
       | Some k => let '(k', a) := f k in
                   (Ok a, (mkStore (coordinators (fst s)) (<[p := k']> (signers (fst s))), snd s))
       | None => (Err (EText "nil pointer dereference"), s)
       end.

Definition new_signer (free : nat) (k : FSigner) : FM unit :=
  λ s, (Ok tt, (mkStore (coordinators (fst s)) (<[free := k]> (signers (fst s))), snd s)).

Definition FROSTCoordinator_Begin (p : nat) (ctx : Ctx) (payload : bytes) : FM Z :=
  _ ← fio (ctx_check ctx "frost: begin");
  gen ← read_coordinator p (λ c, Ok (roundGen c));
  r ← fio (io_wrap "frost: begin: generate round" gen);
  on_coordinator p (λ c, (Ok r, beginRound r payload c)).

Definition AddCommitment (p : nat) (ctx : Ctx) (r : Z) (commitment : Commitment) : FM unit :=
  _ ← fio (ctx_check ctx "frost: add commitment");
  on_coordinator p (addCommitment r commitment).

Definition AddSignatureShare (p : nat) (ctx : Ctx) (r : Z) (share : SignatureShare) : FM bytes :=
  _ ← fio (ctx_check ctx "frost: add signature share");
  on_coordinator p (addSignatureShare r share).

Definition Cleanup (p : nat) (r : Z) : FM unit := on_coordinator p (λ c, (Ok tt, cleanup r c)).

(** ** Participants *)
Record FROSTParticipant := mkParticipant {
  participant_signer : nat;
  participant_id : Z;
  participant_coord : nat;
  participant_publicKey : bytes
}.

(** [free] is the address the new signer is stored at. *)
Definition NewFROSTParticipant (free : nat) (secretShare publicKeyShare : bytes) (participantID : Z)
    (coord : nat) : FM FROSTParticipant :=
  config ← read_coordinator coord (λ c, Ok (cfg c));
  signer ← flift (
    _ ← refuse ((participantID <? 1) || (participantID >? MaxSigners config))%Z
          (EText ("frost: participant ID " +:+ FormatUint participantID +:+ " out of range [1, " +:+
                  FormatUint (MaxSigners config) +:+ "]"));
    _ ← refuse (negb (Nat.eqb (length secretShare) 32))
          (EText ("frost: secret share must be 32 bytes, got " +:+ pretty (length secretShare)));
    _ ← refuse (negb (Nat.eqb (length publicKeyShare) 32))
          (EText ("frost: public key share must be 32 bytes, got " +:+ pretty (length publicKeyShare)));
    keyShare ← wrap "frost: create key share" (NewKeyShare participantID secretShare publicKeyShare
                                                 (Element_Encode (VerificationKey config)));
    wrap "frost: create signer" (Configuration_Signer config keyShare));
  _ ← new_signer free signer;
  mret (mkParticipant free participantID coord publicKeyShare).

Definition Commit (p : FROSTParticipant) (ctx : Ctx) (r : Z) : FM Commitment :=
  _ ← fio (ctx_check ctx "frost: commit");
  commitment ← on_signer (participant_signer p) FSigner_Commit;
  _ ← AddCommitment (participant_coord p) ctx r commitment;
  mret commitment.

Definition Participant_Sign (p : FROSTParticipant) (ctx : Ctx) (r : Z) : FM SignatureShare :=
  _ ← fio (ctx_check ctx "frost: sign");
  commitments ← read_coordinator (participant_coord p) (λ c, GetCommitments c r);
  payload ← read_coordinator (participant_coord p)
    (λ c, s ← of_option (sessions c !! r) (notFound r); Ok (message s));
  share ← on_signer (participant_signer p) (λ k, FSigner_Sign k payload commitments);
  share ← flift (wrap "frost: sign" share);
  _ ← AddSignatureShare (participant_coord p) ctx r share;
  mret share.

(** ** The signer *)
Definition TrustedDealerKeygen (threshold maxSigners : Z)
    : result (list bytes * bytes * list bytes) :=
  _ ← refuse ((threshold <? 1) || (threshold >? maxSigners))%Z
        (EText ("frost: threshold " +:+ FormatInt threshold +:+ " must be between 1 and " +:+ FormatInt maxSigners));
  let '(shares, vk) := dealer_Keygen (wrap_u16 threshold) (wrap_u16 maxSigners) in
  Ok (map fst shares, Element_Encode vk, map snd shares).

Definition VerifySignature (verificationKey message signature : bytes) : result unit :=
  _ ← refuse (negb (Nat.eqb (length verificationKey) 32)) (EText "verification key must be 32 bytes");
  _ ← refuse (negb (Nat.eqb (length signature) 64)) (EText "signature must be 64 bytes");
  refuse (negb (ed25519_Verify verificationKey message signature)) (EText "signature verification failed").

Record FROSTSigner := mkFROSTSigner { frost_coord : nat; participants : list FROSTParticipant }.

Fixpoint checkDuplicates (seen : gmap Z bool) (ps : list FROSTParticipant) : result unit :=
  match ps with
  | [] => Ok tt
  | p :: ps =>
      _ ← refuse (default false (seen !! participant_id p))
            (EText ("frost: duplicate participant ID " +:+ FormatUint (participant_id p)));
      checkDuplicates (<[participant_id p := true]> seen) ps
  end.

Definition NewFROSTSigner (coord : nat) (participants : list FROSTParticipant) : FM FROSTSigner :=
  t ← read_coordinator coord (λ c, Ok (threshold c));
  _ ← flift (
    _ ← refuse (Z.of_nat (length participants) <? t)%Z
          (EText ("frost: need at least " +:+ FormatUint t +:+ " participants, got " +:+ pretty (length participants)));
    checkDuplicates ∅ participants);
  mret (mkFROSTSigner coord participants).

(** One round of the protocol: every participant in turn, the context polled
    before each. *)
Fixpoint eachParticipant {A} (what : string) (f : FROSTParticipant → FM A) (ctx : Ctx)
    (ps : list FROSTParticipant) : FM unit :=
  match ps with
  | [] => mret tt
  | p :: ps =>
      _ ← fio (ctx_check ctx "frost: sign");
      _ ← fwrap ("frost: participant " +:+ FormatUint (participant_id p) +:+ what) (f p);
      eachParticipant what f ctx ps
  end.

Definition equal32 (a b : bytes) : bool := bytes_Equal a b.

Definition FROSTSigner_Sign (s : FROSTSigner) (ctx : Ctx) (preimage : HashIdPreimage) (payload : bytes)
    : FM ScVal :=
  let op := "frost: sign" in
  _ ← fio (ctx_check ctx op);
  expected ← flift (wrap op (Payload preimage));
  _ ← flift (refuse (negb (equal32 payload expected))
        (EWrap (op +:+ ": payload mismatch") (ESentinel ErrSignatureMismatch)));
  r ← fwrap op (FROSTCoordinator_Begin (frost_coord s) ctx payload);
  fdefer
    (_ ← eachParticipant " commit" (λ p, Commit p ctx r) ctx (participants s);
     _ ← eachParticipant " sign" (λ p, Participant_Sign p ctx r) ctx (participants s);
     sig ← fwrap "frost: get signature" (read_coordinator (frost_coord s) (λ c, GetSignature c r));
     key ← read_coordinator (frost_coord s) (λ c, Ok (Element_Encode (VerificationKey (cfg c))));
     _ ← flift (wrap (op +:+ ": signature verification failed") (VerifySignature key payload sig));
     address ← read_coordinator (frost_coord s) (λ c, Ok (coord_address c));
     rawKey ← flift (wrap op (rawEd25519Key address));
     flift (Ed25519SignatureScVal rawKey sig))
    (Cleanup (frost_coord s) r).
End frost.

(** ** Sequences of calls on a coordinator *)
Section sessions.
Context `{SDK} `{FrostLib}.

Inductive Call :=
| CallBegin (r : Z) (payload : bytes)
| CallCommitment (r : Z) (commitment : Commitment)
| CallShare (r : Z) (share : SignatureShare)
| CallCleanup (r : Z).

Definition run_call (c : FROSTCoordinator) (k : Call) : FROSTCoordinator :=
  match k with
  | CallBegin r payload => beginRound r payload c
  | CallCommitment r commitment => snd (addCommitment r commitment c)
  | CallShare r share => snd (addSignatureShare r share c)
  | CallCleanup r => cleanup r c
  end.
Definition run_calls (c : FROSTCoordinator) (ks : list Call) : FROSTCoordinator := foldl run_call c ks.

(** A call that neither starts nor drops the round. *)
Definition continues (r : Z) (k : Call) : Prop :=
  match k with CallBegin r' _ | CallCleanup r' => r' ≠ r | _ => True end.

(** What holds of a session of a coordinator. *)
Record session_ok (c : FROSTCoordinator) (r : Z) (s : frostSigningSession) : Prop := {
  ok_round : round s = r;
  ok_commitments : Forall (λ k, ValidateCommitment (cfg c) k = Ok tt) (commitments s);
  ok_shares : Forall (λ x, ∃ n, VerifySignatureShare (cfg c) x (message s)
                              (SortCommitments (take n (commitments s))) = Ok tt) (sigShares s);
  ok_signature : if complete s
                 then (threshold c <= Z.of_nat (length (sigShares s)))%Z ∧ length (signature s) = 64 ∧
                      aggregate c s = Ok (signature s)
                 else signature s = []
}.

(** How a session goes on. *)
Record session_grows (s s' : frostSigningSession) : Prop := {
  grows_message : message s' = message s;
  grows_commitments : commitments s `prefix_of` commitments s';
  grows_shares : sigShares s `prefix_of` sigShares s';
  grows_complete : complete s = true → s' = s
}.

Lemma session_grows_refl s : session_grows s s.
Proof. done. Qed.

Lemma session_grows_trans s1 s2 s3 : session_grows s1 s2 → session_grows s2 s3 → session_grows s1 s3.
Proof.
  intros [M1 C1 S1 F1] [M2 C2 S2 F2]. split; [congruence|by etrans|by etrans|].
  intros Hc. rewrite <-(F1 Hc) in Hc |- *. by apply F2.
Qed.

Definition same_keys (c c' : FROSTCoordinator) : Prop :=
  cfg c' = cfg c ∧ threshold c' = threshold c ∧ coord_address c' = coord_address c.

#[export] Instance same_keys_equiv : Equivalence same_keys.
Proof.
  split; [done|by intros ? ? (? & ? & ?)|].
  intros ? ? ? (? & ? & ?) (? & ? & ?). split_and!; by etrans.
Qed.

Lemma aggregate_same c c' s : same_keys c c' → aggregate c' s = aggregate c s.
Proof. intros (Hc & Ht & _). unfold aggregate. by rewrite Hc, Ht. Qed.

Lemma session_ok_same c c' r s : same_keys c c' → session_ok c r s → session_ok c' r s.
Proof.
  intros Hk [Hr Hc Hs Hg]. pose proof Hk as (Ec & Et & _). split; rewrite ?Ec, ?Et, ?(aggregate_same c c'); done.
Qed.

Lemma run_call_same c k : same_keys c (run_call c k).
Proof. destruct k; cbn; unfold addCommitment, addSignatureShare; repeat case_match; done. Qed.

Lemma aggregate_length c s sig : aggregate c s = Ok sig → length sig = 64.
Proof.
  unfold aggregate. intros Ha. apply bind_Ok in Ha as ([R S'] & _ & Ha). inv_ok.
  apply orb_false_elim in Hx as [Hr Hs]. apply negb_false_iff, Nat.eqb_eq in Hr, Hs.
  rewrite length_app. lia.
Qed.

Lemma take_prefix_ok {A} (l l' : list A) n : l `prefix_of` l' → ∃ m, take m l' = take n l.
Proof.
  intros [k ->]. exists (n `min` length l). rewrite take_app_le by lia. by rewrite <-take_take, (take_ge l (length l)) by lia.
Qed.

(** One call keeps a session well formed and lets it grow. *)
Lemma run_call_session c k r s' :
  (∀ r s, sessions c !! r = Some s → session_ok c r s) →
  sessions (run_call c k) !! r = Some s' → session_ok c r s'.
Proof.
  intros Hok. destruct k as [r0 payload|r0 commitment|r0 share|r0]; cbn; unfold addCommitment, addSignatureShare.
  - destruct (decide (r0 = r)) as [->|Hne]; [|rewrite lookup_insert_ne by done; apply Hok].
    rewrite lookup_insert_eq. intros [= <-]. by split; cbn.
  - destruct (sessions c !! r0) as [s|] eqn:Hs; [|apply Hok].
    destruct (complete s) eqn:Hc; [apply Hok|].
    destruct (ValidateCommitment _ _) as [[]|] eqn:Hv; [|apply Hok]. cbn.
    destruct (decide (r0 = r)) as [->|Hne]; [|rewrite lookup_insert_ne by done; apply Hok].
    rewrite lookup_insert_eq. intros [= <-]. destruct (Hok _ _ Hs) as [Hr Hcs Hss Hg]. split; cbn.
    + done.
    + by rewrite Forall_app, Forall_singleton.
    + eapply Forall_impl; [exact Hss|]. intros x [n Hx].
      destruct (take_prefix_ok (commitments s) (commitments s ++ [commitment]) n) as [m Hm]; [by eexists|].
      exists m. by rewrite Hm.
    + by rewrite Hc in Hg.
  - destruct (sessions c !! r0) as [s|] eqn:Hs; [|apply Hok].
    destruct (complete s) eqn:Hc; [apply Hok|].
    destruct (VerifySignatureShare _ _ _ _) as [[]|] eqn:Hv; [|apply Hok]. cbn.
    destruct (Hok _ _ Hs) as [Hr Hcs Hss Hg]. rewrite Hc in Hg.
    assert (Hshares : Forall (λ x, ∃ n, VerifySignatureShare (cfg c) x (message s)
        (SortCommitments (take n (commitments s))) = Ok tt) (sigShares s ++ [share])).
    { rewrite Forall_app, Forall_singleton. split; [done|]. exists (length (commitments s)). by rewrite take_ge by lia. }
    case_match eqn:Ht.
    + destruct (aggregate c _) as [sig|e] eqn:Ha; cbn;
        (destruct (decide (r0 = r)) as [->|Hne]; [|rewrite lookup_insert_ne by done; apply Hok]);
        rewrite lookup_insert_eq; intros [= <-]; split; cbn; rewrite ?Hc; try done.
      split; [apply Z.geb_ge in Ht; lia|]. split; [by eapply aggregate_length|exact Ha].
    + cbn. destruct (decide (r0 = r)) as [->|Hne]; [|rewrite lookup_insert_ne by done; apply Hok].
      rewrite lookup_insert_eq; intros [= <-]; split; cbn; rewrite ?Hc; done.
  - destruct (decide (r0 = r)) as [->|Hne]; [by rewrite lookup_delete_eq|].
    rewrite lookup_delete_ne by done. apply Hok.
Qed.

Lemma run_call_grows c k r s :
  sessions c !! r = Some s → continues r k →
  ∃ s', sessions (run_call c k) !! r = Some s' ∧ session_grows s s'.
Proof.
  intros Hs Hk. assert (Hkeep : ∃ s', Some s = Some s' ∧ session_grows s s') by eauto using session_grows_refl.
  destruct k as [r0 payload|r0 commitment|r0 share|r0]; cbn in *; unfold addCommitment, addSignatureShare.
  - by rewrite lookup_insert_ne, Hs by done.
  - destruct (sessions c !! r0) as [s0|] eqn:Hs0; [|by cbn; rewrite Hs].
    destruct (complete s0) eqn:Hc; [by cbn; rewrite Hs|].
    destruct (ValidateCommitment _ _); cbn; [|by cbn; rewrite Hs].
    destruct (decide (r0 = r)) as [->|Hne]; [|by rewrite lookup_insert_ne, Hs by done].
    rewrite lookup_insert_eq. rewrite Hs in Hs0. injection Hs0 as ->. eexists. split; [done|].
    split; cbn; [done|by eexists|done|by rewrite Hc].
  - destruct (sessions c !! r0) as [s0|] eqn:Hs0; [|by cbn; rewrite Hs].
    destruct (complete s0) eqn:Hc; [by cbn; rewrite Hs|].
    destruct (VerifySignatureShare _ _ _ _); cbn; [|by cbn; rewrite Hs].
    repeat case_match; cbn; (destruct (decide (r0 = r)) as [->|Hne]; [|by rewrite lookup_insert_ne, Hs by done]);
      rewrite lookup_insert_eq; rewrite Hs in Hs0; injection Hs0 as ->; (eexists; split; [done|]);
      split; cbn; [done|done|by eexists|by rewrite Hc|done|done|by eexists|by rewrite Hc|done|done|by eexists|by rewrite Hc].
  - by rewrite lookup_delete_ne, Hs by done.
Qed.

Lemma run_calls_ok c ks :
  (∀ r s, sessions c !! r = Some s → session_ok c r s) →
  same_keys c (run_calls c ks) ∧ ∀ r s, sessions (run_calls c ks) !! r = Some s → session_ok c r s.
Proof.
  revert c. induction ks as [|k ks IH]; intros c Hok; cbn; [done|].
  pose proof (run_call_same c k) as Hk.
  destruct (IH (run_call c k)) as [Hsame Hall].
  { intros r s Hs. apply (session_ok_same c); [done|]. by eapply run_call_session. }
  split; [by etrans|]. intros r s Hs. apply (session_ok_same (run_call c k)); [by symmetry|by apply Hall].
Qed.

Lemma run_calls_grows c ks r s :
  sessions c !! r = Some s → Forall (continues r) ks →
  ∃ s', sessions (run_calls c ks) !! r = Some s' ∧ session_grows s s'.
Proof.
  intros Hs Hks. revert c s Hs. induction Hks as [|k ks Hk _ IH]; intros c s Hs; cbn;
    [eauto using session_grows_refl|].
  destruct (run_call_grows c k r s Hs Hk) as (s1 & Hs1 & Hg1).
  destruct (IH _ _ Hs1) as (s2 & Hs2 & Hg2). exists s2. split; [done|by eapply session_grows_trans].
Qed.

(** Under any sequence of calls, every session of a coordinator holds only
    commitments the library validated and shares it verified against the
    session's message; it has a signature exactly when it is complete, and then
    that is the 64-byte aggregate of its first shares, the threshold reached.
    A round that is neither begun again nor cleaned up keeps its message, only
    gains commitments and shares, and once complete never changes. *)
Theorem FROSTCoordinator_session rand_Read vk shares t m address c0 before after r s :
  NewFROSTCoordinator rand_Read vk shares t m address = Ok c0 →
  sessions (run_calls c0 before) !! r = Some s →
  Forall (continues r) after →
  session_ok c0 r s ∧
  ∃ s', sessions (run_calls c0 (before ++ after)) !! r = Some s' ∧ session_grows s s' ∧ session_ok c0 r s'.
Proof.
  intros Hnew Hs Hafter.
  assert (Hempty : sessions c0 = ∅) by (unfold NewFROSTCoordinator in Hnew; inv_ok; done).
  assert (Hok0 : ∀ r s, sessions c0 !! r = Some s → session_ok c0 r s) by (intros ? ?; by rewrite Hempty, lookup_empty).
  split; [by eapply run_calls_ok|].
  destruct (run_calls_grows _ _ _ _ Hs Hafter) as (s' & Hs' & Hg).
  assert (Happ : run_calls (run_calls c0 before) after = run_calls c0 (before ++ after)).
  { unfold run_calls. by rewrite foldl_app. }
  rewrite Happ in Hs'. exists s'. split; [done|]. split; [done|]. by eapply run_calls_ok.
Qed.
End sessions.

(** ** The signer on the store *)
Section signer.
Context `{SDK} `{FrostLib}.

(** Between two stores, every coordinator keeps its keys and its sessions other
    than [r]. *)
Definition kept (r : Z) (s s' : Store) : Prop :=
  ∀ p c, coordinators s !! p = Some c →
    ∃ c', coordinators s' !! p = Some c' ∧ same_keys c c' ∧
      ∀ r', r' ≠ r → sessions c' !! r' = sessions c !! r'.

#[local] Instance kept_preorder r : PreOrder (kept r).
Proof.
  split.
  - intros s p c Hp. exists c. by split_and!.
  - intros s1 s2 s3 Ha Hb p c Hp. destruct (Ha p c Hp) as (c1 & Hp1 & K1 & S1).
    destruct (Hb p c1 Hp1) as (c2 & Hp2 & K2 & S2). exists c2. split; [done|].
    split; [by etrans|]. intros r' Hr. by rewrite S2, S1 by done.
Qed.

Definition keeps {A} (r : Z) (m : FM A) : Prop := ∀ s res s', m s = (res, s') → kept r (fst s) (fst s').

Lemma keeps_ret {A} r (a : A) : keeps r (mret a).
Proof. intros s res s' [= _ <-]. reflexivity. Qed.
Lemma keeps_flift {A} r (x : result A) : keeps r (flift x).
Proof. intros s res s' [= _ <-]. reflexivity. Qed.
Lemma keeps_fio {A} r (m : IO A) : keeps r (fio m).
Proof. intros s res s'. unfold fio. destruct (m (snd s)). intros [= _ <-]. reflexivity. Qed.
Lemma keeps_bind {A B} r (m : FM A) (k : A → FM B) : keeps r m → (∀ a, keeps r (k a)) → keeps r (a ← m; k a).
Proof.
  intros Hm Hk s res s'. unfold mbind, FM_bind. destruct (m s) as [[a|e] s1] eqn:Hs; intros Hrun.
  - etrans; [by eapply Hm|by eapply Hk].
  - injection Hrun as _ <-. by eapply Hm.
Qed.
Lemma keeps_fwrap {A} r p (m : FM A) : keeps r m → keeps r (fwrap p m).
Proof. intros Hm s res s'. unfold fwrap. destruct (m s) as [x s1] eqn:Hs. intros [= _ <-]. by eapply Hm. Qed.
Lemma keeps_on_signer {A} r p (f : FSigner → FSigner * A) : keeps r (on_signer p f).
Proof. intros s res s'. unfold on_signer. repeat case_match; intros [= _ <-] q c Hq; exists c; by split_and!. Qed.
Lemma keeps_on_coordinator {A} r p (f : FROSTCoordinator → result A * FROSTCoordinator) :
  (∀ c, same_keys c (f c).2 ∧ ∀ r', r' ≠ r → sessions (f c).2 !! r' = sessions c !! r') →
  keeps r (on_coordinator p f).
Proof.
  intros Hf s res s'. unfold on_coordinator. destruct (coordinators (fst s) !! p) as [c|] eqn:Hp;
    [|by intros [= _ <-]]. specialize (Hf c). destruct (f c) as [x c']. intros [= _ <-]. cbn in Hf |- *.
  intros q cq Hq. cbn. destruct (decide (p = q)) as [->|Hne].
  - rewrite lookup_insert_eq. rewrite Hq in Hp. injection Hp as ->. by exists c'.
  - rewrite lookup_insert_ne by done. by exists cq.
Qed.
Lemma keeps_read {A} r p (f : FROSTCoordinator → result A) : keeps r (read_coordinator p f).
Proof. by apply keeps_on_coordinator. Qed.

Lemma keeps_add_commitment r p k : keeps r (on_coordinator p (addCommitment r k)).
Proof.
  apply keeps_on_coordinator. intros c. split; [apply (run_call_same c (CallCommitment r k))|].
  intros r' Hr. unfold addCommitment. repeat case_match; cbn; try done. by rewrite lookup_insert_ne.
Qed.
Lemma keeps_add_share r p x : keeps r (on_coordinator p (addSignatureShare r x)).
Proof.
  apply keeps_on_coordinator. intros c. split; [apply (run_call_same c (CallShare r x))|].
  intros r' Hr. unfold addSignatureShare. repeat case_match; cbn; try done; by rewrite lookup_insert_ne.
Qed.
Lemma keeps_begin r p payload : keeps r (on_coordinator p (λ c, (Ok r, beginRound r payload c))).
Proof. apply keeps_on_coordinator. intros c. split; [done|]. intros r' Hr. cbn. by rewrite lookup_insert_ne. Qed.
Lemma keeps_cleanup r p : keeps r (Cleanup p r).
Proof. apply keeps_on_coordinator. intros c. split; [done|]. intros r' Hr. cbn. by rewrite lookup_delete_ne. Qed.

Create HintDb frost discriminated.
Hint Resolve keeps_ret keeps_flift keeps_fio keeps_bind keeps_fwrap keeps_on_signer keeps_read keeps_add_commitment
  keeps_add_share keeps_begin keeps_cleanup : frost.

Lemma keeps_each {A} r what (f : FROSTParticipant → FM A) ctx ps :
  (∀ p, keeps r (f p)) → keeps r (eachParticipant what f ctx ps).
Proof. intros Hf. induction ps as [|p ps IH]; cbn; auto 6 with frost. Qed.

Lemma keeps_Commit r p ctx : keeps r (Commit p ctx r).
Proof. unfold Commit, AddCommitment. auto 8 with frost. Qed.
Lemma keeps_Sign r p ctx : keeps r (Participant_Sign p ctx r).
Proof. unfold Participant_Sign, AddSignatureShare. auto 20 with frost. Qed.

(** *** Inverting a run *)
Lemma fbind_Ok {A B} (m : FM A) (k : A → FM B) s y s' :
  (x ← m; k x) s = (Ok y, s') ↔ ∃ x s1, m s = (Ok x, s1) ∧ k x s1 = (Ok y, s').
Proof. unfold mbind, FM_bind. destruct (m s) as [[a|e] s1]; naive_solver. Qed.
Lemma flift_Ok {A} (r : result A) s y s' : flift r s = (Ok y, s') ↔ r = Ok y ∧ s' = s.
Proof. unfold flift. naive_solver. Qed.
Lemma fwrap_Ok {A} p (m : FM A) s y s' : fwrap p m s = (Ok y, s') ↔ m s = (Ok y, s').
Proof. unfold fwrap. destruct (m s) as [[a|e] s1]; cbn; naive_solver. Qed.

Lemma read_Ok {A} p (f : FROSTCoordinator → result A) s y s' :
  read_coordinator p f s = (Ok y, s') →
  (∃ c, coordinators (fst s) !! p = Some c ∧ f c = Ok y) ∧ kept 0 (fst s) (fst s').
Proof.
  intros Hr. split; [|by eapply keeps_read]. unfold read_coordinator, on_coordinator in Hr.
  destruct (coordinators (fst s) !! p) as [c|]; [|discriminate Hr]. injection Hr as Hf _. by exists c.
Qed.

(** What [kept] says of a coordinator's own keys, for whichever round. *)
Lemma kept_keys r s s' p c c' :
  kept r s s' → coordinators s !! p = Some c → coordinators s' !! p = Some c' → same_keys c c'.
Proof. intros Hk Hc Hc'. destruct (Hk p c Hc) as (c1 & E & Hs & _). rewrite Hc' in E. by injection E as ->. Qed.

Lemma VerifySignature_Ok vk payload sig u :
  VerifySignature vk payload sig = Ok u →
  length vk = 32 ∧ length sig = 64 ∧ ed25519_Verify vk payload sig = true.
Proof.
  unfold VerifySignature. intros Hv. inv_ok. repeat match goal with E : negb _ = false |- _ => apply negb_false_iff in E end.
  apply Nat.eqb_eq in Hx, Hx0. done.
Qed.

(** The protocol between [FROSTCoordinator_Begin] and the deferred [Cleanup]. *)
Definition signingBody (s : FROSTSigner) (ctx : Ctx) (payload : bytes) (r : Z) : FM ScVal :=
  let op := "frost: sign" in
  _ ← eachParticipant " commit" (λ p, Commit p ctx r) ctx (participants s);
  _ ← eachParticipant " sign" (λ p, Participant_Sign p ctx r) ctx (participants s);
  sig ← fwrap "frost: get signature" (read_coordinator (frost_coord s) (λ c, GetSignature c r));
  key ← read_coordinator (frost_coord s) (λ c, Ok (Element_Encode (VerificationKey (cfg c))));
  _ ← flift (wrap (op +:+ ": signature verification failed") (VerifySignature key payload sig));
  address ← read_coordinator (frost_coord s) (λ c, Ok (coord_address c));
  rawKey ← flift (wrap op (rawEd25519Key address));
  flift (Ed25519SignatureScVal rawKey sig).

Lemma keeps_body s ctx payload r : keeps r (signingBody s ctx payload r).
Proof.
  unfold signingBody. apply keeps_bind; [apply keeps_each; intros; apply keeps_Commit|intros []].
  apply keeps_bind; [apply keeps_each; intros; apply keeps_Sign|intros []]. auto 20 with frost.
Qed.

Lemma signingBody_Ok s ctx payload r c s1 v s2 :
  coordinators (fst s1) !! frost_coord s = Some c →
  signingBody s ctx payload r s1 = (Ok v, s2) →
  ∃ key sig, rawEd25519Key (coord_address c) = Ok key ∧ length key = 32 ∧ length sig = 64 ∧
    ed25519_Verify (Element_Encode (VerificationKey (cfg c))) payload sig = true ∧
    v = scVec [accountSignature key sig].
Proof.
  intros Hc Hb. unfold signingBody in Hb.
  apply fbind_Ok in Hb as ([] & s3 & H3 & Hb). apply (keeps_each r) in H3; [|intros; apply keeps_Commit].
  apply fbind_Ok in Hb as ([] & s4 & H4 & Hb). apply (keeps_each r) in H4; [|intros; apply keeps_Sign].
  apply fbind_Ok in Hb as (sig & s5 & [_ H5]%fwrap_Ok%read_Ok & Hb).
  apply fbind_Ok in Hb as (key & s6 & [(c6 & Hc6 & [= <-]) H6]%read_Ok & Hb).
  apply fbind_Ok in Hb as ([] & s7 & [Hver%wrap_Ok%VerifySignature_Ok ->]%flift_Ok & Hb).
  apply fbind_Ok in Hb as (address & s8 & [(c8 & Hc8 & [= <-]) H8]%read_Ok & Hb).
  apply fbind_Ok in Hb as (rawKey & s9 & [Hraw%wrap_Ok ->]%flift_Ok & Hb).
  apply flift_Ok in Hb as [Hb ->]. unfold Ed25519SignatureScVal in Hb. inv_ok.
  repeat match goal with E : negb _ = false |- _ => apply negb_false_iff, Nat.eqb_eq in E end.
  destruct (H3 _ _ Hc) as (c3 & Hc3 & K3 & _). destruct (H4 _ _ Hc3) as (c4 & Hc4 & K4 & _).
  destruct (H5 _ _ Hc4) as (c5 & Hc5 & K5 & _). rewrite Hc6 in Hc5. injection Hc5 as ->.
  destruct (H6 _ _ Hc6) as (c7 & Hc7 & K7 & _). rewrite Hc8 in Hc7. injection Hc7 as ->.
  assert (K : same_keys c c5) by (do 2 (etrans; [|eassumption]); done).
  assert (K' : same_keys c c7) by (by etrans).
  destruct K as (Kc & _), K' as (_ & _ & Ka). rewrite Kc in Hver. rewrite Ka in Hraw.
  exists rawKey, sig. by destruct Hver as (_ & ? & ?).
Qed.

(** *** What the signer leaves behind *)
(** No round is left that was not there before. *)
Definition tidy (p : nat) (s s' : Store) : Prop :=
  ∀ c, coordinators s !! p = Some c →
    ∃ c', coordinators s' !! p = Some c' ∧ same_keys c c' ∧ sessions c' ⊆ sessions c.

#[local] Instance tidy_refl p : Reflexive (tidy p).
Proof. intros s c Hc. by exists c. Qed.

Lemma read_same {A} p (f : FROSTCoordinator → result A) s res s' :
  read_coordinator p f s = (res, s') → tidy p (fst s) (fst s') ∧ kept 0 (fst s) (fst s').
Proof.
  intros Hr. split; [|by eapply keeps_read]. unfold read_coordinator, on_coordinator in Hr.
  destruct (coordinators (fst s) !! p) as [c|] eqn:Hp; injection Hr as _ <-; [|reflexivity].
  intros c0 Hc0. rewrite Hp in Hc0. injection Hc0 as <-. exists c. cbn. by rewrite lookup_insert_eq.
Qed.

Lemma Begin_run p ctx payload s res s' :
  FROSTCoordinator_Begin p ctx payload s = (res, s') →
  match res with Ok r => kept r (fst s) (fst s') | Err _ => tidy p (fst s) (fst s') end.
Proof.
  unfold FROSTCoordinator_Begin, mbind, FM_bind, fio. destruct (ctx_check ctx _ (snd s)) as [[[]|e] w1];
    [|by intros [= <- <-]].
  destruct (read_coordinator p _ _) as [[gen|e] s1] eqn:Hr; [|intros [= <- <-]; exact (proj1 (read_same _ _ _ _ _ Hr))].
  unfold read_coordinator, on_coordinator in Hr. cbn in Hr.
  destruct (coordinators (fst s) !! p) as [c|] eqn:Hp; [|discriminate Hr]. injection Hr as <- <-. cbn.
  assert (Hsame : ∀ q c0, coordinators (fst s) !! q = Some c0 → <[p:=c]> (coordinators (fst s)) !! q = Some c0).
  { intros q c0 Hq. by rewrite (insert_id _ p c). }
  destruct (io_wrap _ (roundGen c) w1) as [[r|e] w2]; [|intros [= <- <-] c0 Hc0; exists c0; cbn; by rewrite (Hsame _ _ Hc0)].
  unfold on_coordinator. cbn. rewrite lookup_insert_eq. intros [= <- <-]. cbn.
  intros q c0 Hq. cbn. rewrite insert_insert_eq. destruct (decide (p = q)) as [->|Hne].
  - rewrite lookup_insert_eq. rewrite Hp in Hq. injection Hq as ->. eexists. split; [done|]. split; [done|].
    intros r' Hr. cbn. by rewrite lookup_insert_ne.
  - rewrite lookup_insert_ne by done. by exists c0.
Qed.

Lemma cleanup_tidy p r s s' res :
  kept r s (fst (snd (res : result ScVal, s'))) → tidy p s (fst (snd (Cleanup p r s'))).
Proof.
  cbn. intros Hk c Hc. destruct (Hk p c Hc) as (c' & Hc' & Hs & Hrest). unfold Cleanup, on_coordinator.
  rewrite Hc'. cbn. exists (cleanup r c'). rewrite lookup_insert_eq. split; [done|]. split; [done|].
  cbn. apply map_subseteq_spec. intros r' x. destruct (decide (r = r')) as [->|Hne]; [by rewrite lookup_delete_eq|].
  by rewrite lookup_delete_ne, Hrest by done.
Qed.

Lemma FROSTSigner_Sign_run s ctx preimage payload st c res st' :
  coordinators (fst st) !! frost_coord s = Some c →
  FROSTSigner_Sign s ctx preimage payload st = (res, st') →
  tidy (frost_coord s) (fst st) (fst st') ∧
  ∀ v, res = Ok v → Payload preimage = Ok payload ∧
    ∃ key sig, rawEd25519Key (coord_address c) = Ok key ∧ length key = 32 ∧ length sig = 64 ∧
      ed25519_Verify (Element_Encode (VerificationKey (cfg c))) payload sig = true ∧
      v = scVec [accountSignature key sig].
Proof.
  intros Hc. unfold FROSTSigner_Sign. unfold mbind at 1, FM_bind at 1, fio at 1.
  destruct (ctx_check ctx _ (snd st)) as [[[]|e] w1]; [|by intros [= <- <-]].
  unfold mbind at 1, FM_bind at 1, flift at 1.
  destruct (Payload preimage) as [expected|e] eqn:Hpay; cbn [wrap]; [|by intros [= <- <-]].
  unfold mbind at 1, FM_bind at 1, flift at 1.
  destruct (equal32 payload expected) eqn:Heq; cbn [negb refuse]; [|by intros [= <- <-]].
  apply bytes_Equal_spec in Heq as <-. unfold mbind at 1, FM_bind at 1, fwrap at 1.
  destruct (FROSTCoordinator_Begin _ _ _ _) as [b s1] eqn:Hb. apply Begin_run in Hb. cbn in Hb.
  destruct b as [r|e]; cbn [wrap]; [|by intros [= <- <-]].
  fold (signingBody s ctx payload r). unfold fdefer.
  destruct (signingBody s ctx payload r s1) as [res' s2] eqn:Hbody. intros [= <- <-].
  pose proof (keeps_body s ctx payload r _ _ _ Hbody) as Hk. split.
  - apply (cleanup_tidy _ r _ s2 res'). cbn. by etrans.
  - intros v ->. split; [done|]. destruct (Hb _ _ Hc) as (c1 & Hc1 & K1 & _).
    destruct (signingBody_Ok _ _ _ _ _ _ _ _ Hc1 Hbody) as (key & sig & Hkey & Hl & Hs & Hv & ->).
    destruct K1 as (K1 & _ & K3). rewrite K3 in Hkey. rewrite K1 in Hv. by exists key, sig.
Qed.

(** C27. However it ends, signing with a FROST group leaves the coordinator's
    keys as they were and no round behind.  A value it returns is for the hash
    of the preimage and holds a 64-byte signature that verifies under the
    group's verification key, next to the key of the coordinator's address. *)
Theorem FROSTSigner_sound s ctx preimage payload st w c res st' w' :
  coordinators st !! frost_coord s = Some c →
  FROSTSigner_Sign s ctx preimage payload (st, w) = (res, (st', w')) →
  (∃ c', coordinators st' !! frost_coord s = Some c' ∧ same_keys c c' ∧ sessions c' ⊆ sessions c) ∧
  ∀ v, res = Ok v → Payload preimage = Ok payload ∧
    ∃ key sig, rawEd25519Key (coord_address c) = Ok key ∧ length key = 32 ∧ length sig = 64 ∧
      ed25519_Verify (Element_Encode (VerificationKey (cfg c))) payload sig = true ∧
      v = scVec [accountSignature key sig].
Proof.
  intros Hc Hs. destruct (FROSTSigner_Sign_run s ctx preimage payload (st, w) c res (st', w') Hc Hs) as [Ht Hv].
  split; [by apply Ht|done].
Qed.
End signer.

(** ** A concrete group *)
(** A stand-in for the library: a share repeats the message under its
    participant's number, and the shares of all committed participants
    aggregate to the signature of [ModelSDK] under the group's key. *)
#[export] Instance ModelFrostGroup : FrostGroup := {|
  Element := bytes;
  Element_Decode b := if Nat.eqb (length b) 32 then Ok b else Err (EText "invalid element");
  Element_Encode e := e;
  PublicKeyShare := bytes;
  NewPublicKeyShare _ b := Ok b;
  KeyShare := Z;
  NewKeyShare id _ _ _ := Ok id
|}.

#[export] Instance ModelFrostLib : FrostLib := {|
  Configuration_Init _ := Ok tt;
  Commitment := Z;
  SortCommitments l := merge_sort Z.le l;
  ValidateCommitment cfg k := refuse (negb ((1 <=? k) && (k <=? MaxSigners cfg)))%Z (EText "invalid identifier");
  SignatureShare := Z * bytes;
  VerifySignatureShare _ x m l :=
    refuse (negb (bool_decide (x.1 ∈ l) && bytes_Equal (x.2) m)) (EText "invalid share");
  AggregateSignatures cfg m xs l _ :=
    if bool_decide (NoDup (map fst xs)) && Nat.eqb (length xs) (length l) then Ok (m, VerificationKey cfg)
    else Err (EText "invalid signature");
  FSigner := Z;
  Configuration_Signer _ k := Ok k;
  FSigner_Commit k := (k, k);
  FSigner_Sign k m _ := (k, Ok (k, m));
  dealer_Keygen _ _ := ([], [])
|}.

Definition ex_frost_rand (_ : nat) : IO bytes := mret [x00; x00; x00; x00; x00; x00; x00; x07].
Definition ex_frost_new (address : string) : result FROSTCoordinator :=
  NewFROSTCoordinator ex_frost_rand (ex_key "g") [ex_key "p"; ex_key "q"; ex_key "r"] 2 3 address.
Definition ex_frost_coordinator (address : string) : FROSTCoordinator :=
  match ex_frost_new address with
  | Ok c => c
  | Err _ => mkCoordinator (mkConfiguration _ 0 0 [] []) 0 "" ∅ (mret 0%Z)
  end.
Definition ex_frost_store (address : string) : Store :=
  mkStore {[0 := ex_frost_coordinator address]} ({[0 := 1%Z; 1 := 3%Z]} : gmap nat FSigner).
Definition ex_frost_signer : FROSTSigner :=
  mkFROSTSigner 0 [mkParticipant 0 1 0 (ex_key "p"); mkParticipant 1 3 0 (ex_key "r")].
Definition ex_frost_request : HashIdPreimage :=
  PreimageOfSorobanAuthorization (Some (mkSorobanAuthorization (ex_key "n") 1 1000 ex_invocation)).
Definition ex_frost_payload : bytes := match Payload ex_frost_request with Ok p => p | Err _ => [] end.
Definition ex_frost_sign (address : string) (payload : bytes) : result ScVal * (Store * World) :=
  FROSTSigner_Sign ex_frost_signer Background ex_frost_request payload (ex_frost_store address, initial_world).

(** The constructors accept what the store was made of. *)
Example ex_frost_setup :
  is_ok (fst ((_ ← NewFROSTParticipant 0 (ex_key "s") (ex_key "p") 1 0;
               p ← NewFROSTParticipant 1 (ex_key "t") (ex_key "r") 3 0;
               q ← NewFROSTParticipant 2 (ex_key "u") (ex_key "q") 2 0;
               NewFROSTSigner 0 [p; q]) (ex_frost_store (ex_text "g"), initial_world))) = true ∧
  is_ok (fst (NewFROSTSigner 0 [mkParticipant 0 1 0 []; mkParticipant 1 1 0 []]
                (ex_frost_store (ex_text "g"), initial_world))) = false ∧
  is_ok (fst (ex_frost_sign (ex_text "g") (ex_key "p"))) = false.
Proof. split_and!; vm_compute; reflexivity. Qed.

(** The address need not be that of the verification key: the constructor
    accepts any account, and the signature it then returns does not verify
    under the key it is returned with. *)
Example ex_frost_other_address :
  match fst (ex_frost_sign (ex_text "a") ex_frost_payload) with
  | Ok v => bool_decide (v = scVec [accountSignature (ex_key "a") (ex_frost_payload ++ ex_key "g")])
            && negb (ed25519_Verify (ex_key "a") ex_frost_payload (ex_frost_payload ++ ex_key "g"))
  | Err _ => false
  end = true.
Proof. vm_compute. reflexivity. Qed.

(** Go's [uint16(threshold)] wraps: a group of 65537 that needs 65537 shares
    becomes one that needs a single share. *)
Example ex_frost_wrap : wrap_u16 65537 = 1%Z.
Proof. reflexivity. Qed.

Definition ex_frost_calls : list Call :=
  [CallBegin 7 ex_frost_payload; CallCommitment 7 (1%Z : Commitment); CallCommitment 7 (3%Z : Commitment);
   CallShare 7 ((3%Z, ex_frost_payload) : SignatureShare)].
Definition ex_frost_more : list Call :=
  [CallBegin 8 []; CallShare 7 ((1%Z, ex_frost_payload) : SignatureShare); CallCleanup 8;
   CallCommitment 7 (2%Z : Commitment)].
Definition ex_frost_session (ks : list Call) : option frostSigningSession :=
  sessions (run_calls (ex_frost_coordinator (ex_text "g")) ks) !! 7%Z.

Lemma FROSTCoordinator_session_witness :
  (complete <$> ex_frost_session ex_frost_calls) = Some false ∧
  (signature <$> ex_frost_session (ex_frost_calls ++ ex_frost_more)) = Some (ex_frost_payload ++ ex_key "g") ∧
  ∃ s s', ex_frost_session ex_frost_calls = Some s ∧
    ex_frost_session (ex_frost_calls ++ ex_frost_more) = Some s' ∧ session_grows s s' ∧
    session_ok (ex_frost_coordinator (ex_text "g")) 7 s'.
Proof.
  assert (Hf : (complete <$> ex_frost_session ex_frost_calls) = Some false) by (vm_compute; reflexivity).
  split; [exact Hf|]. split; [vm_compute; reflexivity|].
  destruct (ex_frost_session ex_frost_calls) as [s|] eqn:Hs; [|discriminate Hf]. clear Hf. exists s.
  destruct (FROSTCoordinator_session ex_frost_rand (ex_key "g") [ex_key "p"; ex_key "q"; ex_key "r"] 2 3 (ex_text "g")
    (ex_frost_coordinator (ex_text "g")) ex_frost_calls ex_frost_more 7%Z s) as (_ & s' & Hs' & Hg & Hok).
  - vm_compute. reflexivity.
  - exact Hs.
  - repeat constructor; discriminate.
  - exists s'. split_and!; done.
Defined.

Lemma FROSTSigner_sound_witness :
  is_ok (fst (ex_frost_sign (ex_text "g") ex_frost_payload)) = true ∧
  (∃ st' c', coordinators st' !! 0 = Some c' ∧ same_keys (ex_frost_coordinator (ex_text "g")) c' ∧
    sessions c' ⊆ sessions (ex_frost_coordinator (ex_text "g"))) ∧
  ∃ key sig, rawEd25519Key (coord_address (ex_frost_coordinator (ex_text "g"))) = Ok key ∧ length key = 32 ∧
    length sig = 64 ∧
    ed25519_Verify (Element_Encode (VerificationKey (cfg (ex_frost_coordinator (ex_text "g"))))) ex_frost_payload sig = true.
Proof.
  assert (Hok : is_ok (fst (ex_frost_sign (ex_text "g") ex_frost_payload)) = true) by (vm_compute; reflexivity).
  split; [exact Hok|]. unfold ex_frost_sign in Hok.
  destruct (FROSTSigner_Sign ex_frost_signer Background ex_frost_request ex_frost_payload
    (ex_frost_store (ex_text "g"), initial_world)) as [[v|e] [st' w']] eqn:Hrun; [|discriminate Hok].
  assert (Hc : coordinators (ex_frost_store (ex_text "g")) !! 0 = Some (ex_frost_coordinator (ex_text "g")))
    by apply lookup_singleton_eq.
  apply (FROSTSigner_sound ex_frost_signer _ _ _ (ex_frost_store (ex_text "g")) _ _ _ _ _ Hc) in Hrun as [(c' & Hc') Hv].
  split; [exists st', c'; exact Hc'|].
  destruct (Hv v eq_refl) as (_ & key & sig & Hk & Hl & Hs & He & _). by exists key, sig.
Defined.
