(* ===== verification/RpcFlow.v ===== *)
(** * RpcFlow: the two simulation passes (rpcflow/simulate.go, submit.go)

    A transaction with entries of its own is simulated twice: in record mode,
    which names the entries to sign, and in enforce mode, which prices the
    signed ones.  [Submit_enforces] says that whatever the RPC answers, nothing
    is sent that the enforcing pass did not price; [SignAndSubmit_passes] how
    the passes are put together; [SimulateRecord_attaches] what the record pass
    hands back.

    The RPC client is a record of functions, each call of which is an [EvRPC]
    event in the log; txnbuild, the RPC's constants and the remaining XDR
    decoders are the class [TxnBuild]. *)
From Stdlib Require Import ZArith Lia Strings.Byte String.
From stdpp Require Import base list strings pretty.
From S2P Require Import Prelude Encoding Errors Xdr ModelSDK Runtime Examples Address Limits Arm Preimage Nodes.
From S2P Require Import Signers WebAuthn Remote Inspect Authorize Batch Envelope.

Open Scope string_scope. Open Scope nat_scope. Open Scope list_scope.

(** ** Transactions under construction *)
Record SorobanTransactionData := mkSorobanTransactionData { Data_rest : bytes; ResourceFee : Z }.

(** [txnbuild.InvokeHostFunction]: its host function and source account are
    only copied. *)
Record InvokeHostFunction := mkInvokeHostFunction {
  Invoke_rest : bytes;
  Invoke_Auth : list SorobanAuthorizationEntry;
  Invoke_Ext : option SorobanTransactionData
}.

Record Account := mkAccount { AccountID : string; SequenceNumber : result Z }.

Class TxnBuild := {
  Txn : Type;
  Keypair : Type;
  MinBaseFee : Z;
  (* one operation, an infinite timeout, the source's sequence number as it is *)
  NewTransaction : Account → InvokeHostFunction → Z → result Txn;
  Txn_Base64 : Txn → result string;
  Txn_Sign : Txn → string → list Keypair → result Txn;
  AuthModeRecord : string;
  AuthModeEnforce : string;
  TXStatusError : string;
  TransactionStatusSuccess : string;
  decode_TransactionData : string → result SorobanTransactionData;
  decode_Envelope : string → result TransactionEnvelope;
  decode_EnvelopeWithOptions : string → Z → result TransactionEnvelope;
  decode_EntryWithOptions : string → Z → result SorobanAuthorizationEntry
}.

(** ** The RPC *)
Record SimulateRequest := mkSimulateRequest {
  Request_Transaction : string;
  AuthMode : string;
  Request_UseUpgradedAuth : bool
}.
Record SimulateResponse := mkSimulateResponse {
  Simulate_Error : string;
  TransactionDataXDR : string;
  MinResourceFee : Z;
  Results : list (option (list string));       (* each result's AuthXDR *)
  LatestLedger : Z
}.
Record SendResponse := mkSendResponse {
  Sent_Hash : string;
  Sent_Status : string;
  ErrorResultXDR : string;
  Sent_Diagnostics : list string
}.
Record PollResponse := mkPollResponse {
  Polled_Status : string;
  Polled_Ledger : Z;
  ResultXDR : string;
  Polled_Diagnostics : list string
}.

Record Client := mkClient {
  SimulateTransaction : Ctx → SimulateRequest → IO SimulateResponse;
  GetLatestLedger : Ctx → IO Z;                (* the response's Sequence *)
  SendTransaction : Ctx → string → IO SendResponse;
  PollTransaction : Ctx → string → IO PollResponse
}.

(** The calls, recorded in the log. *)
Definition simulated (r : SimulateRequest) : Event :=
  EvRPC "simulateTransaction" (AuthMode r +:+ " " +:+ Request_Transaction r).
Definition call_Simulate (c : Client) (ctx : Ctx) (r : SimulateRequest) : IO SimulateResponse :=
  _ ← perform (simulated r); SimulateTransaction c ctx r.
Definition call_Latest (c : Client) (ctx : Ctx) : IO Z :=
  _ ← perform (EvRPC "getLatestLedger" ""); GetLatestLedger c ctx.
Definition call_Send (c : Client) (ctx : Ctx) (transaction : string) : IO SendResponse :=
  _ ← perform (EvRPC "sendTransaction" transaction); SendTransaction c ctx transaction.
Definition call_Poll (c : Client) (ctx : Ctx) (hash : string) : IO PollResponse :=
  _ ← perform (EvRPC "getTransaction" hash); PollTransaction c ctx hash.

Definition DefaultLifetimeLedgers : Z := 720.
Definition DefaultResourceFeePadding : Z := 100000.

Record Submission := mkSubmission {
  Hash : string;
  Ledger : Z;
  Submission_Arm : string;
  Status : string;
  RawError : string;
  Diagnostics : list string
}.

Section rpcflow.
Context `{SDK} `{EnvelopeSDK} `{TxnBuild}.

(** ** What both halves share *)
Definition credentialArm (entry : SorobanAuthorizationEntry) : result string :=
  info ← Inspect entry; Ok (Info_CredentialType info).

Definition credentialArmOf (envelopeBase64 : string) : string :=
  match decode_Envelope envelopeBase64 with
  | Err _ => ""
  | Ok envelope =>
      match EnvelopeEntries envelope with
      | Err _ | Ok [] => ""
      | Ok (e :: _) => match credentialArm (located_Entry e) with Ok arm => arm | Err _ => "" end
      end
  end.

Definition recordedAuthEntries (sim : SimulateResponse) : result (list SorobanAuthorizationEntry) :=
  match Results sim with
  | [None] => Err (EWrap "the simulation recorded no authorization entries" (ESentinel ErrNoInvokeOperation))
  | [Some encodedEntries] =>
      imapM (λ i encoded, wrap ("decoding recorded entry " +:+ pretty i)
                            (DecodeAuthorizationEntry decode_EntryWithOptions encoded [])) encodedEntries
  | results => Err (EWrap ("the simulation returned " +:+ pretty (length results) +:+ " results, want exactly 1")
                      (ESentinel ErrNoInvokeOperation))
  end.

(** ** The record pass on its own (rpcflow/simulate.go) *)
Record SimulatedEntry := mkSimulatedEntry {
  Simulated_OperationIndex : nat;
  Simulated_EntryIndex : nat;
  Simulated_Entry : SorobanAuthorizationEntry;
  Simulated_Arm : string
}.
Record RecordResult := mkRecordResult {
  Record_Entries : list SimulatedEntry;
  Record_MinResourceFee : Z;
  Record_TransactionDataXDR : string;
  Record_LatestLedger : Z;
  Record_EnvelopeXDR : string
}.
Record RecordParams := mkRecordParams {
  Record_Client : option Client;
  EnvelopeXDR : string;
  UseUpgradedAuth : bool
}.

Definition innerTransaction (envelope : TransactionEnvelope) : result Transaction :=
  match envelope with
  | EnvelopeTypeTx None => Err (EText "the envelope carries no transaction")
  | EnvelopeTypeTx (Some v1) => Ok (Tx v1)
  | EnvelopeTypeTxFeeBump None => Err (EText "the fee-bump envelope carries no transaction")
  | EnvelopeTypeTxFeeBump (Some feeBump) =>
      match InnerTx feeBump with
      | InnerEnvelopeTypeTx (Some v1) => Ok (Tx v1)
      | _ => Err (EText "the fee-bump envelope's inner transaction is not a v1 transaction")
      end
  | _ => Err (EText "the envelope is not a transaction envelope")
  end.

(** The loop over the operations; [index] is the one found so far. *)
Fixpoint findInvoke (i : nat) (index : option nat) (ops : list Operation) : result (option nat) :=
  match ops with
  | [] => Ok index
  | op :: ops =>
      match Body op with
      | OperationOther _ _ => findInvoke (S i) index ops
      | OperationInvokeHostFunction _ =>
          match index with
          | Some _ => Err (EWrap "the envelope carries more than one invokeHostFunction operation, want exactly one"
                             (ESentinel ErrNoInvokeOperation))
          | None => findInvoke (S i) (Some i) ops
          end
      end
  end.

Definition emptyArm (i : nat) : error :=
  EText ("operation " +:+ pretty i +:+ ": the invokeHostFunction arm is empty").

Definition invokeOperationIndex (envelope : TransactionEnvelope) : result nat :=
  inner ← innerTransaction envelope;
  found ← findInvoke 0 None (Operations inner);
  index ← of_option found (EWrap "the envelope carries no invokeHostFunction operation"
                             (ESentinel ErrNoInvokeOperation));
  match Operations inner !! index with
  | Some (mkOperation _ (OperationInvokeHostFunction (Some _))) => Ok index
  | _ => Err (emptyArm index)
  end.

Definition setAuth (op : Operation) (o : InvokeHostFunctionOp) (entries : list SorobanAuthorizationEntry) : Operation :=
  mkOperation (Operation_SourceAccount op)
    (OperationInvokeHostFunction (Some (mkInvokeHostFunctionOp (HostFunction o) entries))).

(** The envelope is written to through its pointers. *)
Definition attachRecordedAuth (envelope : TransactionEnvelope) (index : nat)
    (entries : list SorobanAuthorizationEntry) : result TransactionEnvelope :=
  inner ← innerTransaction envelope;
  match Operations inner !! index with
  | None => Err (EText ("operation " +:+ pretty index +:+ " is not in the envelope"))
  | Some op =>
      match Body op with
      | OperationInvokeHostFunction (Some o) =>
          Ok (withOperations envelope (<[index := setAuth op o entries]> (Operations inner)))
      | _ => Err (emptyArm index)
      end
  end.

Definition SimulateRecord (ctx : Ctx) (p : RecordParams) : IO RecordResult :=
  let op := "soroauth: simulate record" in
  _ ← ctx_check ctx op;
  client ← lift (of_option (Record_Client p) (EText (op +:+ ": Client is required")));
  _ ← lift (refuse (String.eqb (EnvelopeXDR p) "") (EText (op +:+ ": EnvelopeXDR is required")));
  envelope ← lift (wrap op (DecodeTransactionEnvelope decode_EnvelopeWithOptions (EnvelopeXDR p) []));
  operationIndex ← lift (wrap op (invokeOperationIndex envelope));
  response ← io_wrap op
    (call_Simulate client ctx (mkSimulateRequest (EnvelopeXDR p) AuthModeRecord (UseUpgradedAuth p)));
  lift (
    _ ← refuse (negb (String.eqb (Simulate_Error response) ""))
          (EText (op +:+ ": the rpc refused the simulation: " +:+ Simulate_Error response));
    entries ← wrap op (recordedAuthEntries response);
    envelope ← wrap op (attachRecordedAuth envelope operationIndex entries);
    rows ← imapM (λ i entry,
             arm ← wrap (op +:+ ": recorded entry " +:+ pretty i) (credentialArm entry);
             Ok (mkSimulatedEntry operationIndex i entry arm)) entries;
    encoded ← wrap (op +:+ ": encoding the recorded envelope") (MarshalBase64 envelope);
    Ok (mkRecordResult rows (MinResourceFee response) (TransactionDataXDR response) (LatestLedger response) encoded)).

(** ** Both passes and the submission (rpcflow/submit.go) *)
Record SubmitParams := mkSubmitParams {
  Submit_Source : option Account;
  Submit_Operation : InvokeHostFunction;
  Submit_Entries : list SorobanAuthorizationEntry;
  Submit_EnvelopeSigners : list Keypair;
  Submit_NetworkPassphrase : string;
  Submit_Client : option Client;
  Submit_BaseFee : Z;
  Submit_ResourceFeePadding : Z;
  Submit_OnSent : option (Submission → World → World)
}.

Record Params := mkParams {
  Source : option Account;
  Params_Operation : InvokeHostFunction;
  Params_Signers : list (option Signer);
  EnvelopeSigners : list Keypair;
  NetworkPassphrase : string;
  Params_Client : option Client;
  ValidUntilLedger : Z;
  BaseFee : Z;
  ResourceFeePadding : Z;
  OnSent : option (Submission → World → World)
}.

(** [validate] of both parameter types; the texts differ in their prefix. *)
Definition validateParams (op : string) (source : option Account) (client : option Client)
    (network : string) (envelopeSigners : list Keypair) : result (Account * Client) :=
  source ← of_option source (EText (op +:+ ": Source is required"));
  client ← of_option client (EText (op +:+ ": Client is required"));
  _ ← refuse (String.eqb network "") (EText (op +:+ ": NetworkPassphrase is required"));
  _ ← refuse (Nat.eqb (length envelopeSigners) 0)
        (EText (op +:+ ": at least one EnvelopeSigner is required to pay for the transaction"));
  Ok (source, client).

(** The source is known not to be nil: [validate] has passed. *)
Definition sequencer (source : Account) : result Account :=
  current ← wrap "reading the source account's sequence number" (SequenceNumber source);
  Ok (mkAccount (AccountID source) (Ok (wrap_i64 (current + 1)))).

Definition buildTransaction (source : Account) (op : InvokeHostFunction) (baseFee : Z) : result Txn :=
  NewTransaction source op (if (baseFee =? 0)%Z then wrap_i64 (MinBaseFee * 100) else baseFee).

Definition simulate (ctx : Ctx) (client : Client) (tx : Txn) (mode : string) : IO SimulateResponse :=
  encoded ← lift (wrap "encoding the transaction" (Txn_Base64 tx));
  response ← call_Simulate client ctx (mkSimulateRequest encoded mode false);
  _ ← lift (refuse (negb (String.eqb (Simulate_Error response) ""))
              (EText ("the rpc refused the simulation: " +:+ Simulate_Error response)));
  mret response.

Definition expiration (ctx : Ctx) (client : Client) (validUntilLedger : Z) : IO Z :=
  if negb (validUntilLedger =? 0)%Z then mret validUntilLedger
  else
    latest ← io_wrap "reading the current ledger to resolve an expiration" (call_Latest client ctx);
    lift (ExpirationAfter latest DefaultLifetimeLedgers).

Definition withAuth (op : InvokeHostFunction) (entries : list SorobanAuthorizationEntry) : InvokeHostFunction :=
  mkInvokeHostFunction (Invoke_rest op) entries (Invoke_Ext op).

Definition applyResources (op : InvokeHostFunction) (sim : SimulateResponse) (padding : Z)
    : result InvokeHostFunction :=
  data ← wrap "decoding the simulated transaction data" (decode_TransactionData (TransactionDataXDR sim));
  let padding := if (padding =? 0)%Z then DefaultResourceFeePadding else padding in
  Ok (mkInvokeHostFunction (Invoke_rest op) (Invoke_Auth op)
        (Some (mkSorobanTransactionData (Data_rest data) (wrap_i64 (MinResourceFee sim + padding))))).

Definition send (ctx : Ctx) (client : Client) (tx : Txn) (onSent : option (Submission → World → World))
    : IO Submission :=
  encoded ← lift (wrap "soroauth: submit (send): encoding the signed transaction" (Txn_Base64 tx));
  let arm := credentialArmOf encoded in
  sent ← io_wrap "soroauth: submit (send)" (call_Send client ctx encoded);
  let sub := mkSubmission (Sent_Hash sent) 0 arm (Sent_Status sent) "" [] in
  _ ← (λ w, (Ok tt, match onSent with Some f => f sub w | None => w end)) : IO unit;
  if String.eqb (Sent_Status sent) TXStatusError then
    mret (mkSubmission (Sent_Hash sent) 0 arm (Sent_Status sent) (ErrorResultXDR sent) (Sent_Diagnostics sent))
  else
    polled ← io_wrap "soroauth: submit (poll)" (call_Poll client ctx (Sent_Hash sent));
    if negb (String.eqb (Polled_Status polled) TransactionStatusSuccess) then
      mret (mkSubmission (Sent_Hash sent) (Polled_Ledger polled) arm (Polled_Status polled)
              (ResultXDR polled) (Polled_Diagnostics polled))
    else mret (mkSubmission (Sent_Hash sent) (Polled_Ledger polled) arm (Polled_Status polled) "" []).

(** The signed transaction the enforcing pass leads to. *)
Definition assemble (source : Account) (p : SubmitParams) (enforced : SimulateResponse) : result Txn :=
  finalOp ← wrap "soroauth: submit (assemble)"
    (applyResources (withAuth (Submit_Operation p) (Submit_Entries p)) enforced (Submit_ResourceFeePadding p));
  finalTx ← wrap "soroauth: submit (assemble)" (buildTransaction source finalOp (Submit_BaseFee p));
  wrap "soroauth: submit (envelope)" (Txn_Sign finalTx (Submit_NetworkPassphrase p) (Submit_EnvelopeSigners p)).

Definition Submit (ctx : Ctx) (p : SubmitParams) : IO Submission :=
  _ ← ctx_check ctx "soroauth: submit";
  '(source, client) ← lift (validateParams "soroauth: submit" (Submit_Source p) (Submit_Client p)
                             (Submit_NetworkPassphrase p) (Submit_EnvelopeSigners p));
  enforceTx ← lift (wrap "soroauth: submit (enforce)"
    (buildTransaction source (withAuth (Submit_Operation p) (Submit_Entries p)) (Submit_BaseFee p)));
  enforced ← io_wrap "soroauth: submit (enforce)" (simulate ctx client enforceTx AuthModeEnforce);
  signedTx ← lift (assemble source p enforced);
  send ctx client signedTx (Submit_OnSent p).

Definition SignAndSubmit (ctx : Ctx) (p : Params) : IO Submission :=
  '(account, client) ← lift (validateParams "soroauth: sign and submit" (Source p) (Params_Client p)
                              (NetworkPassphrase p) (EnvelopeSigners p));
  source ← lift (wrap "soroauth: sign and submit" (sequencer account));
  recordTx ← lift (wrap "soroauth: sign and submit (record)" (buildTransaction source (Params_Operation p) (BaseFee p)));
  recorded ← io_wrap "soroauth: sign and submit (record)" (simulate ctx client recordTx AuthModeRecord);
  entries ← lift (wrap "soroauth: sign and submit (record)" (recordedAuthEntries recorded));
  validUntil ← io_wrap "soroauth: sign and submit (sign)" (expiration ctx client (ValidUntilLedger p));
  signedEntries ← io_wrap "soroauth: sign and submit (sign)"
    (AuthorizeAll ctx entries (Params_Signers p) validUntil (NetworkPassphrase p) []);
  Submit ctx (mkSubmitParams (Some source) (Params_Operation p) signedEntries (EnvelopeSigners p)
                (NetworkPassphrase p) (Some client) (BaseFee p) (ResourceFeePadding p) (OnSent p)).
End rpcflow.

(** ** What the RPC is asked *)
Section submit_theorems.
Context `{SDK} `{EnvelopeSDK} `{TxnBuild}.

(** A client that leaves no trace of its own. *)
Record quiet_client (c : Client) : Prop := {
  quiet_simulate ctx r w : log (SimulateTransaction c ctx r w).2 = log w;
  quiet_latest ctx w : log (GetLatestLedger c ctx w).2 = log w;
  quiet_send ctx t w : log (SendTransaction c ctx t w).2 = log w;
  quiet_poll ctx h w : log (PollTransaction c ctx h w).2 = log w
}.
Definition quiet_callback (f : option (Submission → World → World)) : Prop :=
  ∀ g, f = Some g → ∀ s w, log (g s w) = log w.

Lemma send_run ctx client tx onSent w r w' :
  quiet_client client → quiet_callback onSent →
  send ctx client tx onSent w = (r, w') →
  (∃ e, Txn_Base64 tx = Err e ∧ w' = w ∧ is_ok r = false) ∨
  ∃ text rest, Txn_Base64 tx = Ok text ∧ log w' = log w ++ EvRPC "sendTransaction" text :: rest ∧
    (rest = [] ∨ ∃ hash, rest = [EvRPC "getTransaction" hash]).
Proof.
  intros Hq Hc. unfold send. unfold mbind at 1, IO_bind at 1, lift at 1.
  destruct (Txn_Base64 tx) as [text|e]; cbn [wrap]; [|intros [= <- <-]; left; by exists e].
  intros Hs. right. exists text. unfold mbind at 1, IO_bind at 1, io_wrap at 1, call_Send in Hs.
  unfold mbind at 1, IO_bind at 1, perform at 1 in Hs.
  pose proof (quiet_send client Hq ctx text (emit_event (EvRPC "sendTransaction" text) w)) as Hl.
  destruct (SendTransaction client ctx text _) as [[sent|e] w1]; cbn [wrap snd] in Hs, Hl;
    [|injection Hs as <- <-; exists []; rewrite Hl; split; [done|]; split; [done|by left]].
  unfold mbind at 1, IO_bind at 1 in Hs.
  match type of Hs with (if _ then _ else _) ?w0 = _ => set (w2 := w0) in Hs end.
  assert (Hl2 : log w2 = log w ++ [EvRPC "sendTransaction" text]).
  { unfold w2. destruct onSent as [f|]; [rewrite (Hc f eq_refl)|]; by rewrite Hl. }
  clearbody w2. destruct (String.eqb _ _); [injection Hs as <- <-; exists []; rewrite Hl2; split; [done|]; split; [done|by left]|].
  unfold mbind at 1, IO_bind at 1, io_wrap at 1, call_Poll in Hs.
  unfold mbind at 1, IO_bind at 1, perform at 1 in Hs.
  pose proof (quiet_poll client Hq ctx (Sent_Hash sent) (emit_event (EvRPC "getTransaction" (Sent_Hash sent)) w2)) as Hl3.
  destruct (PollTransaction client ctx _ _) as [polled w3]. cbn [snd] in Hl3.
  exists [EvRPC "getTransaction" (Sent_Hash sent)]. split; [done|]. split; [|right; by eexists].
  assert (w' = w3) as ->. { destruct polled; cbn in Hs; [destruct (negb _) in Hs|]; by injection Hs as _ <-. }
  rewrite Hl3. cbn. by rewrite Hl2, <-app_assoc.
Qed.

Lemma simulate_run ctx client tx mode w r w' :
  quiet_client client → simulate ctx client tx mode w = (r, w') →
  (∃ e, Txn_Base64 tx = Err e ∧ w' = w ∧ is_ok r = false) ∨
  ∃ text response, Txn_Base64 tx = Ok text ∧
    let request := mkSimulateRequest text mode false in
    SimulateTransaction client ctx request (emit_event (simulated request) w) = (response, w') ∧
    log w' = log w ++ [simulated request] ∧
    ∀ sim, r = Ok sim → response = Ok sim ∧ Simulate_Error sim = "".
Proof.
  intros Hq. unfold simulate. unfold mbind at 1, IO_bind at 1, lift at 1.
  destruct (Txn_Base64 tx) as [text|e]; cbn [wrap]; [|intros [= <- <-]; left; by exists e].
  intros Hs. right. exists text. unfold mbind at 1, IO_bind at 1, call_Simulate in Hs.
  unfold mbind at 1, IO_bind at 1, perform at 1 in Hs.
  pose proof (quiet_simulate client Hq ctx (mkSimulateRequest text mode false)
    (emit_event (simulated (mkSimulateRequest text mode false)) w)) as Hl.
  destruct (SimulateTransaction client ctx _ _) as [response w1]. cbn [snd] in Hl. exists response.
  assert (w' = w1 ∧ ∀ sim, r = Ok sim → response = Ok sim ∧ Simulate_Error sim = "") as [-> Hr].
  { destruct response as [resp|e]; [|by injection Hs as <- <-].
    unfold mbind, IO_bind, lift in Hs. destruct (String.eqb_spec (Simulate_Error resp) "") as [He|He];
      cbn in Hs; injection Hs as <- <-; split; try done; by intros ? [= <-]. }
  split; [done|]. split; [done|]. split; [by rewrite Hl|done].
Qed.

(** The transaction that carries the signed entries, as it stands or with the
    resources an enforcing pass reported. *)
Definition enforcing (source : Account) (p : SubmitParams) : result Txn :=
  buildTransaction source (withAuth (Submit_Operation p) (Submit_Entries p)) (Submit_BaseFee p).
Definition priced (source : Account) (p : SubmitParams) (sim : SimulateResponse) (data : SorobanTransactionData)
    : result Txn :=
  let padding := if (Submit_ResourceFeePadding p =? 0)%Z then DefaultResourceFeePadding
                 else Submit_ResourceFeePadding p in
  buildTransaction source
    (mkInvokeHostFunction (Invoke_rest (Submit_Operation p)) (Submit_Entries p)
       (Some (mkSorobanTransactionData (Data_rest data) (wrap_i64 (MinResourceFee sim + padding)))))
    (Submit_BaseFee p).

Lemma assemble_Ok source p sim signed :
  assemble source p sim = Ok signed →
  ∃ data finalTx, decode_TransactionData (TransactionDataXDR sim) = Ok data ∧
    priced source p sim data = Ok finalTx ∧
    Txn_Sign finalTx (Submit_NetworkPassphrase p) (Submit_EnvelopeSigners p) = Ok signed.
Proof. unfold assemble, applyResources. intros Ha. inv_ok. by eexists _, _. Qed.

Lemma validateParams_Ok op source client network keys a c :
  validateParams op source client network keys = Ok (a, c) →
  source = Some a ∧ client = Some c ∧ network ≠ "" ∧ keys ≠ [].
Proof.
  unfold validateParams. intros Hv. inv_ok. subst. split; [done|]. split; [done|].
  apply String.eqb_neq in Hx1. split; [done|]. by intros ->.
Qed.

(** What a run of [Submit] asked of the RPC. *)
Definition submit_calls (ctx : Ctx) (p : SubmitParams) (r : result Submission) (l : list Event) : Prop :=
  l = [] ∧ is_ok r = false ∨
  ∃ source client enforceTx text response w1 w2,
    Submit_Source p = Some source ∧ Submit_Client p = Some client ∧
    enforcing source p = Ok enforceTx ∧ Txn_Base64 enforceTx = Ok text ∧
    let request := mkSimulateRequest text AuthModeEnforce false in
    SimulateTransaction client ctx request w1 = (response, w2) ∧
    (l = [simulated request] ∧ is_ok r = false ∨
     ∃ sim data finalTx signed sent rest, response = Ok sim ∧ Simulate_Error sim = "" ∧
       decode_TransactionData (TransactionDataXDR sim) = Ok data ∧
       priced source p sim data = Ok finalTx ∧
       Txn_Sign finalTx (Submit_NetworkPassphrase p) (Submit_EnvelopeSigners p) = Ok signed ∧
       Txn_Base64 signed = Ok sent ∧
       l = simulated request :: EvRPC "sendTransaction" sent :: rest ∧
       (rest = [] ∨ ∃ hash, rest = [EvRPC "getTransaction" hash])).

Lemma Submit_run ctx p w r w' :
  (∀ client, Submit_Client p = Some client → quiet_client client) → quiet_callback (Submit_OnSent p) →
  Submit ctx p w = (r, w') → ∃ l, log w' = log w ++ l ∧ submit_calls ctx p r l.
Proof.
  intros Hq Hc. unfold Submit. unfold mbind at 1, IO_bind at 1.
  destruct (ctx_check ctx _ w) as [[[]|e] w0] eqn:Hctx.
  2:{ intros [= <- <-]. exists []. apply ctx_check_Err in Hctx as (? & _ & _ & ->). rewrite app_nil_r. split; [done|by left]. }
  apply ctx_check_Ok in Hctx as [_ ->]. unfold mbind at 1, IO_bind at 1, lift at 1.
  destruct (validateParams _ _ _ _ _) as [[source client]|e] eqn:Hv.
  2:{ intros [= <- <-]. exists []. rewrite app_nil_r. split; [done|by left]. }
  apply validateParams_Ok in Hv as (Hsrc & Hcl & _). specialize (Hq client Hcl).
  unfold mbind at 1, IO_bind at 1, lift at 1. fold (enforcing source p).
  destruct (enforcing source p) as [enforceTx|e] eqn:He; cbn [wrap].
  2:{ intros [= <- <-]. exists []. rewrite app_nil_r. split; [done|by left]. }
  unfold mbind at 1, IO_bind at 1, io_wrap at 1.
  destruct (simulate ctx client enforceTx _ (tick w)) as [sim w2] eqn:Hsim.
  apply simulate_run in Hsim as [(e & _ & -> & Hno)|(text & response & Ht & Hrun & Hl & Hok)]; [| |done].
  { destruct sim as [|e']; [discriminate Hno|]. intros [= <- <-]. exists []. rewrite app_nil_r. split; [done|by left]. }
  assert (Hstop : ∀ e l, log w2 = log w ++ l → l = [simulated (mkSimulateRequest text AuthModeEnforce false)] →
            ∃ l, log w2 = log w ++ l ∧ submit_calls ctx p (Err e) l).
  { intros e l Hlog ->. eexists. split; [exact Hlog|]. right.
    exists source, client, enforceTx, text, response, (emit_event (simulated (mkSimulateRequest text AuthModeEnforce false)) (tick w)), w2.
    do 5 (split; [done|]). by left. }
  destruct sim as [sim|e]; cbn [wrap]; [|intros [= <- <-]; by eapply Hstop].
  destruct (Hok sim eq_refl) as [-> Hnone]. unfold mbind at 1, IO_bind at 1, lift at 1.
  destruct (assemble source p sim) as [signed|e] eqn:Ha; [|intros [= <- <-]; by eapply Hstop].
  intros Hsend. apply send_run in Hsend as [(e & _ & -> & Hno)|(sent & rest & Hsent & Hl2 & Hrest)]; [| |done|done].
  { destruct r as [|e']; [discriminate Hno|]. by eapply Hstop. }
  apply assemble_Ok in Ha as (data & finalTx & Hd & Hp & Hs).
  exists (simulated (mkSimulateRequest text AuthModeEnforce false) :: EvRPC "sendTransaction" sent :: rest).
  split; [rewrite Hl2, Hl; cbn; by rewrite <-app_assoc|]. right.
  exists source, client, enforceTx, text, (Ok sim), (emit_event (simulated (mkSimulateRequest text AuthModeEnforce false)) (tick w)), w2.
  do 5 (split; [done|]). right. by exists sim, data, finalTx, signed, sent, rest.
Qed.

(** C28. Whatever the RPC answers, [Submit] asks it at most this: to simulate, in
    enforce mode, the transaction that carries the signed entries; then, if
    that pass reported no error, to send one transaction, which carries the
    same entries and the resources of that very answer, its minimum fee plus
    the padding, under the given signatures; then for the outcome. *)
Theorem Submit_enforces ctx p w r w' :
  (∀ client, Submit_Client p = Some client → quiet_client client) → quiet_callback (Submit_OnSent p) →
  Submit ctx p w = (r, w') → ∃ l, log w' = log w ++ l ∧ submit_calls ctx p r l.
Proof. apply Submit_run. Qed.

Lemma simulate_Ok ctx client tx mode w sim w' :
  simulate ctx client tx mode w = (Ok sim, w') →
  ∃ text w1, Txn_Base64 tx = Ok text ∧
    SimulateTransaction client ctx (mkSimulateRequest text mode false) w1 = (Ok sim, w') ∧ Simulate_Error sim = "".
Proof.
  unfold simulate, call_Simulate. intros Hs. inv_io. inv_ok. eexists _, _. split; [done|]. split; [done|].
  match goal with E : negb _ = false |- _ => by apply negb_false_iff, String.eqb_eq in E end.
Qed.

Lemma expiration_Ok ctx client v w validUntil w' :
  expiration ctx client v w = (Ok validUntil, w') →
  if (v =? 0)%Z then ∃ latest, ExpirationAfter latest DefaultLifetimeLedgers = Ok validUntil else validUntil = v.
Proof.
  unfold expiration. destruct (v =? 0)%Z; cbn [negb]; intros He; [|by injection He as <- _].
  inv_io. by eexists.
Qed.

Context `{!SDKLaws}.

(** A completed run made its three transactions from one sequence number,
    one past the account's: the record pass's, whose entries are exactly those
    the RPC recorded; and the enforced and the sent one, which carry those
    entries as [AuthorizeAll] signed them, all with one expiration. *)
Theorem SignAndSubmit_passes ctx p account client w sub w' :
  Source p = Some account → Params_Client p = Some client →
  quiet_client client → quiet_callback (OnSent p) →
  SignAndSubmit ctx p w = (Ok sub, w') →
  ∃ current recordTx text recorded entries validUntil signed w1 w2 w3 w4,
    SequenceNumber account = Ok current ∧
    let source := mkAccount (AccountID account) (Ok (wrap_i64 (current + 1))) in
    buildTransaction source (Params_Operation p) (BaseFee p) = Ok recordTx ∧ Txn_Base64 recordTx = Ok text ∧
    SimulateTransaction client ctx (mkSimulateRequest text AuthModeRecord false) w1 = (Ok recorded, w2) ∧
    Simulate_Error recorded = "" ∧ recordedAuthEntries recorded = Ok entries ∧
    (if (ValidUntilLedger p =? 0)%Z then ∃ latest, ExpirationAfter latest DefaultLifetimeLedgers = Ok validUntil
     else validUntil = ValidUntilLedger p) ∧
    AuthorizeAll ctx entries (Params_Signers p) validUntil (NetworkPassphrase p) [] w3 = (Ok signed, w4) ∧
    length signed = length entries ∧
    ∃ l, log w' = log w4 ++ l ∧ l ≠ [] ∧
      submit_calls ctx (mkSubmitParams (Some source) (Params_Operation p) signed (EnvelopeSigners p)
        (NetworkPassphrase p) (Some client) (BaseFee p) (ResourceFeePadding p) (OnSent p)) (Ok sub) l.
Proof.
  intros Hsrc Hcl Hq Hc Hs. unfold SignAndSubmit in Hs. inv_io. destruct x as [a c]. inv_io.
  apply validateParams_Ok in Hl as (Ha & Hcc & _). rewrite Hsrc in Ha. rewrite Hcl in Hcc.
  injection Ha as <-. injection Hcc as <-. inv_ok. unfold sequencer in *. inv_ok.
  repeat match goal with E : simulate _ _ _ _ _ = _ |- _ => apply simulate_Ok in E as (text & w1 & Ht & Hsim & Hnone) end.
  match goal with E : expiration _ _ _ _ = _ |- _ => apply expiration_Ok in E end.
  match goal with E : AuthorizeAll _ _ _ _ _ _ _ = _ |- _ => pose proof E as Hall end. apply AuthorizeAll_length in Hall.
  apply Submit_run in Hs as (l & Hlog & Hcalls); [|by intros ? [= <-]|done].
  eexists _, _, text, _, _, _, _, w1, _, _, _. do 9 (split; [eassumption|]).
  exists l. split; [eassumption|]. split; [|exact Hcalls].
  destruct Hcalls as [[_ Hno]|(? & ? & ? & ? & ? & ? & ? & _ & _ & _ & _ & _ & [[-> Hno]|Hyes])]; [done|done|].
  destruct Hyes as (? & ? & ? & ? & ? & ? & _ & _ & _ & _ & _ & _ & -> & _). done.
Qed.
End submit_theorems.

(** ** What the record pass hands back *)
Section record_theorem.
Context `{SDK} `{EnvelopeSDK} `{TxnBuild}.

(** An envelope with exactly one operation that invokes a host function. *)
Definition only_invoke (ops : list Operation) (index : nat) (source : bytes) (o : InvokeHostFunctionOp) : Prop :=
  ∃ pre post, ops = pre ++ mkOperation source (OperationInvokeHostFunction (Some o)) :: post ∧
    index = length pre ∧ Forall (λ op, ∃ t rest, Body op = OperationOther t rest) (pre ++ post).

Lemma findInvoke_found i index ops k :
  findInvoke i (Some index) ops = Ok k ↔ k = Some index ∧ Forall (λ op, ∃ t rest, Body op = OperationOther t rest) ops.
Proof.
  revert i. induction ops as [|op ops IH]; intros i; cbn; [naive_solver|].
  rewrite Forall_cons. destruct (Body op) as [o|t rest]; [|rewrite IH; naive_solver].
  split; [done|]. intros (_ & (t & rest & E) & _). discriminate E.
Qed.

Lemma findInvoke_none i ops k :
  findInvoke i None ops = Ok (Some k) →
  ∃ pre op post, ops = pre ++ op :: post ∧ k = i + length pre ∧
    (∃ o, Body op = OperationInvokeHostFunction o) ∧
    Forall (λ op, ∃ t rest, Body op = OperationOther t rest) (pre ++ post).
Proof.
  revert i. induction ops as [|op ops IH]; intros i; cbn; [done|].
  destruct (Body op) as [o|t rest] eqn:Hb.
  - intros [[= ->] Hall]%findInvoke_found. exists [], op, ops. cbn. split; [done|]. split; [lia|]. eauto.
  - intros (pre & op' & post & -> & -> & Ho & Hall)%IH. exists (op :: pre), op', post. cbn.
    split; [done|]. split; [lia|]. split; [done|]. constructor; [eauto|done].
Qed.

Lemma invokeOperationIndex_Ok envelope index :
  invokeOperationIndex envelope = Ok index →
  ∃ inner source o, innerTransaction envelope = Ok inner ∧ only_invoke (Operations inner) index source o.
Proof.
  unfold invokeOperationIndex. intros Hi. inv_ok.
  rewrite Hx1 in Hx0. apply findInvoke_none in Hx0 as (pre & op & post & Hops & -> & [o Ho] & Hall).
  rewrite Hops, lookup_app_r, Nat.add_0_l, Nat.sub_diag in Hi by lia. cbn in Hi.
  destruct op as [source [o'|]]; cbn in Ho, Hi; [|discriminate Ho]. injection Ho as ->.
  destruct o as [o|]; [|discriminate Hi]. injection Hi as <-.
  exists x, source, o. split; [done|]. by exists pre, post.
Qed.

(** The inner transaction's operations are the envelope's. *)
Lemma innerTransaction_operations envelope inner :
  innerTransaction envelope = Ok inner →
  envelopeOperations envelope = Ok (Operations inner) ∧
  ∀ ops, envelopeOperations (withOperations envelope ops) = Ok ops.
Proof.
  unfold innerTransaction. intros Hi. destruct envelope as [[v1|]|v0|[fb|]|t]; try discriminate Hi.
  - by injection Hi as <-.
  - cbn. destruct (InnerTx fb) as [[v1|]|t]; try discriminate Hi. by injection Hi as <-.
Qed.

Lemma operationEntries_others i ops :
  Forall (λ op, ∃ t rest, Body op = OperationOther t rest) ops →
  ∃ rows, imapM_from operationEntries i ops = Ok rows ∧ omap id rows = [].
Proof.
  intros Hall. revert i. induction Hall as [|op ops (t & rest & Hb) _ IH]; intros i; cbn; [by eexists|].
  assert (He : operationEntries i op = Ok None) by (unfold operationEntries; by rewrite Hb).
  destruct (IH (S i)) as (rows & Hr & Ho). rewrite He. cbn. rewrite Hr. by eexists.
Qed.

Lemma imapM_from_app {A B} (f : nat → A → result B) i l1 l2 ys1 ys2 :
  imapM_from f i l1 = Ok ys1 → imapM_from f (i + length l1) l2 = Ok ys2 → imapM_from f i (l1 ++ l2) = Ok (ys1 ++ ys2).
Proof.
  revert i ys1. induction l1 as [|x l1 IH]; intros i ys1 Hl1 Hl2; cbn in *.
  - injection Hl1 as <-. by rewrite Nat.add_0_r in Hl2.
  - inv_ok. rewrite Hx. cbn. rewrite (IH (S i) x1); [done|done|]. by rewrite Nat.add_succ_comm.
Qed.

(** The only vector of entries is read back where it was written. *)
Lemma EnvelopeEntries_attached envelope inner index source o entries :
  innerTransaction envelope = Ok inner → only_invoke (Operations inner) index source o →
  let op := mkOperation source (OperationInvokeHostFunction (Some o)) in
  EnvelopeEntries (withOperations envelope (<[index := setAuth op o entries]> (Operations inner))) =
    Ok (imap_from (mkEnvelopeEntry index) 0 entries).
Proof.
  intros Hin (pre & post & Hops & -> & Hall) op. apply innerTransaction_operations in Hin as [_ Hwith].
  unfold EnvelopeEntries. rewrite Hwith, Hops, insert_app_r_alt, Nat.sub_diag by lia. cbn [wrap mbind result_bind list_insert].
  apply Forall_app in Hall as [Hpre Hpost].
  destruct (operationEntries_others 0 pre Hpre) as (rows1 & Hr1 & Ho1).
  destruct (operationEntries_others (S (length pre)) post Hpost) as (rows2 & Hr2 & Ho2).
  rewrite (imapM_from_app _ _ _ _ rows1 (Some (imap_from (mkEnvelopeEntry (length pre)) 0 entries) :: rows2)); [|done|].
  - cbn. rewrite omap_app, Ho1. cbn. rewrite Ho2. cbn. by rewrite app_nil_r.
  - assert (He : ∀ i, operationEntries i (setAuth op o entries) = Ok (Some (imap_from (mkEnvelopeEntry i) 0 entries)))
      by done.
    change (<[0:=?y]> (?x :: ?l)) with (y :: l). cbn [imapM_from]. rewrite He. cbn. by rewrite Hr2.
Qed.

(** A record the pass hands back lists the recorded entries in order, each
    with the arm it carries, at the very positions [EnvelopeEntries] finds them
    at in the returned envelope, which is the given one with the single
    invoking operation's entries replaced. *)
Theorem SimulateRecord_attaches ctx p w r w' :
  SimulateRecord ctx p w = (Ok r, w') →
  ∃ envelope inner index source o envelope' response,
    DecodeTransactionEnvelope decode_EnvelopeWithOptions (EnvelopeXDR p) [] = Ok envelope ∧
    innerTransaction envelope = Ok inner ∧ only_invoke (Operations inner) index source o ∧
    let entries := map Simulated_Entry (Record_Entries r) in
    Simulate_Error response = "" ∧ recordedAuthEntries response = Ok entries ∧
    envelope' = withOperations envelope
      (<[index := setAuth (mkOperation source (OperationInvokeHostFunction (Some o))) o entries]> (Operations inner)) ∧
    MarshalBase64 envelope' = Ok (Record_EnvelopeXDR r) ∧
    EnvelopeEntries envelope' =
      Ok (map (λ e, mkEnvelopeEntry (Simulated_OperationIndex e) (Simulated_EntryIndex e) (Simulated_Entry e))
            (Record_Entries r)) ∧
    Forall (λ e, credentialArm (Simulated_Entry e) = Ok (Simulated_Arm e)) (Record_Entries r).
Proof.
  unfold SimulateRecord. intros Hs. inv_io. inv_ok.
  match goal with E : invokeOperationIndex _ = Ok ?i |- _ => rename i into index;
    destruct (invokeOperationIndex_Ok _ _ E) as (inner & source & o & Hin & Hone) end.
  match goal with E : attachRecordedAuth _ _ _ = Ok _ |- _ => rename E into Hatt end.
  match goal with E : recordedAuthEntries _ = Ok ?es |- _ => rename es into entries, E into Hrec end.
  match goal with E : imapM _ entries = Ok ?rs |- _ => rename rs into rows, E into Hrows end.
  unfold attachRecordedAuth in Hatt. rewrite Hin in Hatt. cbn [mbind result_bind] in Hatt.
  pose proof Hone as (pre & post & Hops & Hidx & _).
  rewrite Hops, Hidx, lookup_app_r, Nat.sub_diag in Hatt by lia. cbn [list_lookup lookup Body] in Hatt.
  injection Hatt as Hatt. rewrite <-Hops, <-Hidx in Hatt.
  assert (Hr : map Simulated_Entry rows = entries ∧
    map (λ e, mkEnvelopeEntry (Simulated_OperationIndex e) (Simulated_EntryIndex e) (Simulated_Entry e)) rows =
      imap_from (mkEnvelopeEntry index) 0 entries ∧
    Forall (λ e, credentialArm (Simulated_Entry e) = Ok (Simulated_Arm e)) rows).
  { clear -Hrows. revert Hrows. generalize 0 as i. revert rows.
    induction entries as [|e entries IH]; intros rows i Hrows; cbn in Hrows; inv_ok; [done|].
    match goal with E : imapM_from _ _ entries = Ok _ |- _ => apply IH in E as (E1 & E2 & E3) end.
    cbn. rewrite E1, E2. split_and!; [done|done|]. by constructor. }
  destruct Hr as (Hr1 & Hr2 & Hr3).
  eexists _, inner, index, source, o, _, _. do 3 (split; [eassumption|]). cbn [Record_Entries Record_EnvelopeXDR].
  rewrite Hr1. split; [|split; [eassumption|]].
  { match goal with E : negb _ = false |- _ => by apply negb_false_iff, String.eqb_eq in E end. }
  split; [reflexivity|]. split; [by rewrite Hatt|]. split; [|done].
  rewrite Hr2. by apply EnvelopeEntries_attached.
Qed.
End record_theorem.

(** ** A concrete RPC *)
Definition model_decode {T} `{XdrCodec T} (s : string) : result T :=
  b ← decodeBase64 s; UnmarshalBinary b.

(** A transaction is an envelope whose unread part says what it was built
    with. *)
#[export] Instance ModelTxnBuild : TxnBuild := {|
  Txn := TransactionEnvelope;
  Keypair := bytes;
  MinBaseFee := 100;
  NewTransaction account op fee :=
    sequence ← SequenceNumber account;
    let resources := match Invoke_Ext op with Some d => Data_rest d ++ be_bytes 8 (ResourceFee d) | None => [] end in
    Ok (EnvelopeTypeTx (Some (mkTransactionArm (mkTransaction (be_bytes 8 sequence ++ be_bytes 8 fee ++ resources)
      [mkOperation [] (OperationInvokeHostFunction (Some (mkInvokeHostFunctionOp (Invoke_rest op) (Invoke_Auth op))))])
      [])));
  Txn_Base64 tx := MarshalBase64 tx;
  Txn_Sign tx network keys := match tx with
    | EnvelopeTypeTx (Some arm) => Ok (EnvelopeTypeTx (Some (mkTransactionArm (Tx arm) (concat keys))))
    | _ => Err (EText "not a transaction")
    end;
  AuthModeRecord := "record";
  AuthModeEnforce := "enforce";
  TXStatusError := "ERROR";
  TransactionStatusSuccess := "SUCCESS";
  decode_TransactionData s := b ← decodeBase64 s; Ok (mkSorobanTransactionData b 0);
  decode_Envelope := model_decode;
  decode_EnvelopeWithOptions s _ := model_decode s;
  decode_EntryWithOptions s _ := model_decode s
|}.

Definition ex_rpc_text {T} `{XdrCodec T} (v : T) : string :=
  match MarshalBase64 v with Ok s => s | Err _ => "" end.

(** It records two entries, prices signed ones at 500, and accepts whatever is
    sent. *)
Definition ex_rpc : Client := {|
  SimulateTransaction _ r :=
    if String.eqb (AuthMode r) "record"
    then mret (mkSimulateResponse "" "AAEC" 300 [Some [ex_rpc_text ex_source; ex_rpc_text (ex_v2 "a" 0 ScvVoid)]] 1000)
    else mret (mkSimulateResponse "" "AAED" 500 [] 1001);
  GetLatestLedger _ := mret 1000%Z;
  SendTransaction _ _ := mret (mkSendResponse "hash" "PENDING" "" []);
  PollTransaction _ _ := mret (mkPollResponse "SUCCESS" 1002 "" [])
|}.

Definition ex_account_at (sequence : Z) : Account := mkAccount (ex_text "a") (Ok sequence).
Definition ex_params : Params :=
  mkParams (Some (ex_account_at 41)) (mkInvokeHostFunction [x07] [] None) [Some (ex_signer "a")] [ex_key "e"]
    ex_network (Some ex_rpc) 0 0 0 None.
Definition ex_submit : SubmitParams :=
  mkSubmitParams (Some (ex_account_at 42)) (mkInvokeHostFunction [x07] [] None) [ex_v2 "a" 1720 ScvVoid]
    [ex_key "e"] ex_network (Some ex_rpc) 0 0 None.

Lemma ex_rpc_quiet : quiet_client ex_rpc.
Proof. split; intros; cbn; [by case_match|done..]. Qed.

(** The calls of a whole run: recording, the current ledger, enforcing,
    sending, asking for the outcome. *)
Definition ex_rpc_methods (l : list Event) : list string :=
  omap (λ e, match e with EvRPC m _ => Some m | _ => None end) l.

Example ex_sign_and_submit :
  let '(r, w) := SignAndSubmit Background ex_params initial_world in
  r = Ok (mkSubmission "hash" 1002 CredentialTypeSourceAccount "SUCCESS" "" []) ∧
  ex_rpc_methods (log w) =
    ["simulateTransaction"; "getLatestLedger"; "simulateTransaction"; "sendTransaction"; "getTransaction"].
Proof. vm_compute. done. Qed.

Lemma Submit_enforces_witness :
  is_ok (fst (Submit Background ex_submit initial_world)) = true ∧
  ∃ l, log (snd (Submit Background ex_submit initial_world)) = log initial_world ++ l ∧
    submit_calls Background ex_submit (fst (Submit Background ex_submit initial_world)) l.
Proof.
  split; [vm_compute; reflexivity|].
  destruct (Submit Background ex_submit initial_world) as [r w'] eqn:Hrun.
  apply (Submit_enforces Background ex_submit initial_world r w'); [|done|exact Hrun].
  intros client [= <-]. exact ex_rpc_quiet.
Defined.

Lemma SignAndSubmit_passes_witness : ∃ sub w',
  SignAndSubmit Background ex_params initial_world = (Ok sub, w') ∧
  ∃ recordTx text recorded entries validUntil signed w1 w2 w3 w4,
    buildTransaction (ex_account_at 42) (Params_Operation ex_params) 0 = Ok recordTx ∧
    Txn_Base64 recordTx = Ok text ∧
    SimulateTransaction ex_rpc Background (mkSimulateRequest text "record" false) w1 = (Ok recorded, w2) ∧
    recordedAuthEntries recorded = Ok entries ∧
    AuthorizeAll Background entries [Some (ex_signer "a")] validUntil ex_network [] w3 = (Ok signed, w4) ∧
    length signed = length entries.
Proof.
  assert (Hok : is_ok (fst (SignAndSubmit Background ex_params initial_world)) = true) by (vm_compute; reflexivity).
  destruct (SignAndSubmit Background ex_params initial_world) as [[sub|e] w'] eqn:Hrun; [|discriminate Hok].
  exists sub, w'. split; [reflexivity|].
  destruct (SignAndSubmit_passes Background ex_params (ex_account_at 41) ex_rpc initial_world sub w')
    as (current & recordTx & text & recorded & entries & validUntil & signed & w1 & w2 & w3 & w4 & Hc & Hb & Ht & Hs & _ & Hr
        & _ & Ha & Hl & _); [done|done|exact ex_rpc_quiet|done|exact Hrun|].
  injection Hc as <-. exists recordTx, text, recorded, entries, validUntil, signed, w1, w2, w3, w4. split_and!; done.
Defined.

Definition ex_record_envelope : TransactionEnvelope :=
  EnvelopeTypeTx (Some (mkTransactionArm (mkTransaction [x02]
    [mkOperation [] (OperationOther 1 [x2a]);
     mkOperation [] (OperationInvokeHostFunction (Some (mkInvokeHostFunctionOp [x07] [])))]) [])).
Definition ex_record_run : result RecordResult * World :=
  SimulateRecord Background (mkRecordParams (Some ex_rpc) (ex_rpc_text ex_record_envelope) true) initial_world.

Lemma SimulateRecord_attaches_witness : ∃ r w', ex_record_run = (Ok r, w') ∧
  map (λ e, (Simulated_OperationIndex e, Simulated_EntryIndex e, Simulated_Arm e)) (Record_Entries r) =
    [(1, 0, CredentialTypeSourceAccount); (1, 1, CredentialTypeAddressV2)] ∧
  Forall (λ e, credentialArm (Simulated_Entry e) = Ok (Simulated_Arm e)) (Record_Entries r) ∧
  ∃ envelope', MarshalBase64 envelope' = Ok (Record_EnvelopeXDR r) ∧
    EnvelopeEntries envelope' =
      Ok (map (λ e, mkEnvelopeEntry (Simulated_OperationIndex e) (Simulated_EntryIndex e) (Simulated_Entry e))
            (Record_Entries r)).
Proof.
  assert (Hok : match fst ex_record_run with
    | Ok r => map (λ e, (Simulated_OperationIndex e, Simulated_EntryIndex e, Simulated_Arm e)) (Record_Entries r) =
        [(1, 0, CredentialTypeSourceAccount); (1, 1, CredentialTypeAddressV2)]
    | Err _ => False
    end) by (vm_compute; reflexivity).
  destruct ex_record_run as [[r|e] w'] eqn:Hrun; [|contradiction Hok]. exists r, w'. split; [reflexivity|]. split; [exact Hok|].
  destruct (SimulateRecord_attaches Background (mkRecordParams (Some ex_rpc) (ex_rpc_text ex_record_envelope) true)
    initial_world r w' Hrun) as (envelope & inner & index & source & o & envelope' & response & _ & _ & _ & _ & _ & _ & Hm & He & Ha).
  split; [exact Ha|]. exists envelope'. split; [exact Hm|exact He].
Defined.
