(* ===== verification/Custody.v ===== *)
(** * Custody: signers whose key lives in a service (turnkey/turnkey.go,
    fireblocks/fireblocks.go, adapters/awskms/signer.go,
    adapters/gcpkms/signer.go)

    Each signer asks its service for a signature of the payload and checks the
    answer before it returns it.  What the rest of the library may rely on is
    the class [AccountSigner]: a value the signer returns is one account
    signature that verifies under the account's key.  Every constructor of
    this file gives one ([custody_account]), and signing an entry with any
    [AccountSigner] makes an entry that verifies ([custody_signs]).

    Fireblocks answers later: [waitForSignature] polls until an answer, the
    caller's cancellation or the approval timeout.  Its loop has fuel;
    [waitForSignature_returns] shows that some fuel is enough when the clock
    goes on and Go's select does not ignore a closed channel for ever.

    The services are HTTP and RPC clients, functions in [IO]; JSON texts,
    request signatures and the clock's readings are the class [CustodyLib]. *)
From Stdlib Require Import ZArith Lia Strings.Byte String.
From stdpp Require Import base list strings countable pretty sets.
From S2P Require Import Prelude Encoding Errors Xdr ModelSDK Runtime Examples Address Limits Arm Preimage.
From S2P Require Import Nodes Delegates Authorize Verify Signers Retry WebAuthn Remote Vault.

Open Scope string_scope. Open Scope nat_scope. Open Scope list_scope.

(** ** What a client may rely on *)
Class AccountSigner `{SDK} (s : Signer) (key : bytes) : Prop := {
  account_address : strkey_DecodeAny (signer_Address s) = Ok (VersionByteAccountID, key);
  account_sound ctx pre payload w v w' :
    signer_Sign s ctx pre payload w = (Ok v, w') →
    ∃ signature, v = scVec [accountSignature key signature] ∧
      length key = 32 ∧ length signature = 64 ∧ ed25519_Verify key payload signature = true
}.

(** ** Parameters *)
(** A value given to json.Marshal; the keys of a map are written in order. *)
Inductive json :=
| JString (s : string)
| JInt (z : Z)
| JObject (fields : list (string * json))
| JArray (elements : list json).

Record turnkeyKey := mkTurnkeyKey { TK_Type : string; TK_PublicKey : string; TK_Curve : string }.
Record activityError := mkActivityError { Activity_Code : string; Activity_Message : string }.
Record activity := mkActivity {
  Activity_Status : string;
  Activity_Signature : string;
  Activity_Error : option activityError
}.
Record vaultAsset := mkVaultAsset { Asset_ID : string; Asset_Address : string }.
Record fireblocksTx := mkFireblocksTx {
  FTx_ID : string;
  FTx_Status : string;
  FTx_SignedMessages : list string;
  FTx_ErrorDescription : string
}.

Class CustodyLib := {
  json_Marshal : json → bytes;
  json_UnmarshalTurnkeyKey : bytes → result turnkeyKey;
  json_UnmarshalActivity : bytes → result activity;
  json_UnmarshalVaultAccount : bytes → result (list vaultAsset);
  json_UnmarshalFireblocksTx : bytes → result fireblocksTx;
  ed25519_Sign : bytes → bytes → bytes;               (* private key, message *)
  time_Now : nat → Z                                  (* nanoseconds, at a tick of the clock *)
}.

Definition Minute : Z := 60 * Second.

(** The loop's select picks one of the channels that are ready; [pick] says,
    round by round, whether that is Done when both are. *)
Definition Select : Type := nat → bool.

Section custody.
Context `{SDK} `{NetURL} `{CustodyLib}.

(** [time.Now().UnixMilli()] *)
Definition UnixMilli : IO Z := λ w, (Ok (time_Now (now w) / 1000000)%Z, w).

(** The status of a response, shared by the two HTTP clients. *)
Definition serviceStatus (service method path notFound : string) (status : Z) (body : bytes) : result bytes :=
  let text := service +:+ ": " +:+ method +:+ " " +:+ path +:+ ": HTTP " +:+ FormatInt status in
  if ((200 <=? status) && (status <? 300))%Z then Ok body
  else if ((status =? 401) || (status =? 403))%Z then Err (EWrap text (ESentinel ErrVaultUnauthorized))
  else if (status =? 404)%Z then Err (EText (text +:+ ": " +:+ notFound))
  else Err (EText (text +:+ ": " +:+ string_of_bytes body)).

(** [url.Parse] of an absolute URL, with a default. *)
Definition absoluteURL (service fallback baseURL : string) : result URL :=
  let baseURL := if String.eqb baseURL "" then fallback else baseURL in
  parsedURL ← wrap (service +:+ ": parsing base URL") (url_Parse baseURL);
  _ ← refuse (String.eqb (url_Scheme parsedURL) "" || String.eqb (url_Host parsedURL) "")
        (EText (service +:+ ": base URL " +:+ quoted baseURL +:+ " must be absolute"));
  Ok parsedURL.

Definition required (service what value : string) : result unit :=
  refuse (String.eqb value "") (EText (service +:+ ": " +:+ what +:+ " is required")).

(** The checks before the service is asked: the context, the key and that the
    payload is the preimage's. *)
Definition signChecks (op : string) (ctx : Ctx) (rawPublicKey : option bytes) (preimage : HashIdPreimage)
    (payload : bytes) : IO bytes :=
  _ ← ctx_check ctx op;
  lift (key ← of_option rawPublicKey (EWrap op (ESentinel ErrMissingSigner));
        expected ← wrap op (Payload preimage);
        _ ← refuse (negb (bytes_Equal payload expected))
              (EWrap (op +:+ ": payload mismatch") (ESentinel ErrSignatureMismatch));
        Ok key).

(** The checks after it. *)
Definition verified (op : string) (key payload signature : bytes) : result ScVal :=
  _ ← refuse (negb (ed25519_Verify key payload signature)) (EWrap op (ESentinel ErrSignatureMismatch));
  Ed25519SignatureScVal key signature.

(** A base64 text of a number of bytes. *)
Definition decodeSized (service what short : string) (n : nat) (text : string) : result bytes :=
  raw ← wrap (service +:+ ": decode " +:+ what) (decodeBase64 text);
  _ ← refuse (negb (Nat.eqb (length raw) n))
        (EText (service +:+ ": " +:+ short +:+ " is " +:+ pretty (length raw) +:+ " bytes, want " +:+ pretty n));
  Ok raw.

(** ** turnkey/turnkey.go *)
Record TurnkeyConfig := mkTurnkeyConfig {
  TC_BaseURL : string;
  TC_OrganizationID : string;
  TC_PrivateKey : string;
  TC_PublicKey : string;
  TC_KeyID : string;
  TC_Address : string;
  TC_HTTPClient : option VaultDo
}.

Record TurnkeySigner := mkTurnkeySigner {
  TK_baseURL : URL;
  TK_organizationID : string;
  TK_privateKey : bytes;
  TK_publicKey : bytes;
  TK_keyID : string;
  TK_address : string;
  TK_client : VaultDo;
  TK_rawPublicKey : option bytes
}.

Definition turnkey_do (s : TurnkeySigner) (ctx : Ctx) (method path : string) (body : option json) : IO bytes :=
  let body := json_Marshal <$> body in
  let url := url_String (TK_baseURL s) path in
  _ ← lift (wrap "turnkey: build request" (http_NewRequest method url));
  stamp ← UnixMilli;
  response ← io_wrap "turnkey: do request"
    (TK_client s ctx method url [("Content-Type", "application/json"); ("X-Stamp", FormatInt stamp)] body);
  responseBody ← lift (wrap "turnkey: read response" (readLimited response));
  lift (serviceStatus "turnkey" method path "key not found" (Vault_StatusCode response) responseBody).

Definition turnkey_verifyKey (s : TurnkeySigner) (ctx : Ctx) : IO bytes :=
  response ← io_wrap "turnkey: get key" (turnkey_do s ctx "GET" ("/api/v1/keys/" +:+ TK_keyID s) None);
  lift (key ← wrap "turnkey: decode key response" (json_UnmarshalTurnkeyKey response);
        _ ← refuse (negb (String.eqb (TK_Curve key) "ED25519") && negb (String.eqb (TK_Type key) "ED25519"))
              (EText ("turnkey: key " +:+ quoted (TK_keyID s) +:+ " is " +:+ quoted (TK_Curve key) +:+ ", need ED25519"));
        raw ← decodeSized "turnkey" "public key" "public key" 32 (TK_PublicKey key);
        derived ← wrap "turnkey: encode public key address" (strkey_Encode VersionByteAccountID raw);
        _ ← refuse (negb (String.eqb derived (TK_address s)))
              (EWrap ("turnkey: key " +:+ quoted (TK_keyID s) +:+ " derives " +:+ derived +:+
                      ", configured address is " +:+ TK_address s) (ESentinel ErrSignerAddressMismatch));
        Ok raw).

(** [defaultClient] is [&http.Client{Timeout: defaultTurnkeyTimeout}]. *)
Definition NewTurnkeySigner (defaultClient : VaultDo) (ctx : Ctx) (cfg : TurnkeyConfig) : IO TurnkeySigner :=
  s ← lift (
    _ ← required "turnkey" "organization ID" (TC_OrganizationID cfg);
    _ ← required "turnkey" "private key" (TC_PrivateKey cfg);
    _ ← required "turnkey" "public key" (TC_PublicKey cfg);
    _ ← required "turnkey" "key ID" (TC_KeyID cfg);
    _ ← wrap "turnkey" (strkey_Decode VersionByteAccountID (TC_Address cfg));
    parsedURL ← absoluteURL "turnkey" "https://api.turnkey.com" (TC_BaseURL cfg);
    privateKey ← wrap "turnkey: decode private key" (decodeBase64 (TC_PrivateKey cfg));
    publicKey ← wrap "turnkey: decode public key" (decodeBase64 (TC_PublicKey cfg));
    Ok (mkTurnkeySigner parsedURL (TC_OrganizationID cfg) privateKey publicKey (TC_KeyID cfg) (TC_Address cfg)
          (default defaultClient (TC_HTTPClient cfg)) None));
  raw ← turnkey_verifyKey s ctx;
  mret (mkTurnkeySigner (TK_baseURL s) (TK_organizationID s) (TK_privateKey s) (TK_publicKey s) (TK_keyID s)
          (TK_address s) (TK_client s) (Some raw)).

Definition turnkeyRequest (s : TurnkeySigner) (stamp : Z) (payload : bytes) : json :=
  JObject [("organizationId", JString (TK_organizationID s));
    ("parameters", JObject [("signRaw", JObject [
       ("encoding", JString "PAYLOAD_ENCODING_BASE64"); ("hashFunction", JString "HASH_FUNCTION_SHA256");
       ("keyId", JString (TK_keyID s)); ("payload", JString (EncodeToString StdEncoding payload))])]);
    ("timestampMs", JString (FormatInt stamp)); ("type", JString "ACTIVITY_TYPE_SIGN_RAW")].

(** The signature of a completed activity. *)
Definition activitySignature (a : activity) : result bytes :=
  if negb (String.eqb (Activity_Status a) "ACTIVITY_STATUS_COMPLETED") then
    match Activity_Error a with
    | Some e =>
        if String.eqb (Activity_Code e) "POLICY_DENIED" || String.eqb (Activity_Code e) "POLICY_REQUIRES_APPROVAL"
        then Err (EMarked (sentinel_text ErrPolicyDenied +:+ ": " +:+ Activity_Message e) ErrPolicyDenied)
        else Err (EText ("turnkey: activity error: " +:+ Activity_Code e +:+ ": " +:+ Activity_Message e))
    | None => Err (EText ("turnkey: activity not completed: " +:+ Activity_Status a))
    end
  else decodeSized "turnkey" "signature" "signature" 64 (Activity_Signature a).

Definition TurnkeySigner_Sign (s : TurnkeySigner) (ctx : Ctx) (preimage : HashIdPreimage) (payload : bytes)
    : IO ScVal :=
  key ← signChecks "turnkey: sign" ctx (TK_rawPublicKey s) preimage payload;
  stamp ← UnixMilli;
  response ← io_wrap "turnkey: sign" (turnkey_do s ctx "POST" "/api/v1/submit" (Some (turnkeyRequest s stamp payload)));
  lift (a ← wrap "turnkey: decode activity response" (json_UnmarshalActivity response);
        signature ← activitySignature a;
        verified "turnkey: sign" key payload signature).

Definition TurnkeySigner_asSigner (s : TurnkeySigner) : Signer :=
  mkSigner (TK_address s) (TurnkeySigner_Sign s) None.

(** ** fireblocks/fireblocks.go *)
Record FireblocksConfig := mkFireblocksConfig {
  FC_BaseURL : string;
  FC_APIKey : string;
  FC_PrivateKey : string;
  FC_VaultAccountID : string;
  FC_AssetID : string;
  FC_Address : string;
  FC_HTTPClient : option VaultDo;
  FC_ApprovalTimeout : Z
}.

Record FireblocksSigner := mkFireblocksSigner {
  FB_baseURL : URL;
  FB_apiKey : string;
  FB_privateKey : bytes;
  FB_vaultAccountID : string;
  FB_assetID : string;
  FB_address : string;
  FB_client : VaultDo;
  FB_approvalTimeout : Z;
  FB_rawPublicKey : option bytes
}.

Definition fireblocks_do (s : FireblocksSigner) (ctx : Ctx) (method path : string) (body : option json) : IO bytes :=
  let body := json_Marshal <$> body in
  let url := url_String (FB_baseURL s) path in
  _ ← lift (wrap "fireblocks: build request" (http_NewRequest method url));
  stamp ← UnixMilli;
  let timestamp := FormatInt stamp in
  let message := method +:+ newline +:+ path +:+ newline +:+ string_of_bytes (default [] body) +:+ newline +:+ timestamp in
  let sig := ed25519_Sign (FB_privateKey s) (bytes_of_string message) in
  response ← io_wrap "fireblocks: do request"
    (FB_client s ctx method url
       [("Content-Type", "application/json"); ("X-API-Key", FB_apiKey s);
        ("Authorization", "Bearer " +:+ EncodeToString StdEncoding sig); ("X-Timestamp", timestamp)] body);
  responseBody ← lift (wrap "fireblocks: read response" (readLimited response));
  lift (serviceStatus "fireblocks" method path "not found" (Vault_StatusCode response) responseBody).

(** The first asset of that name with an address. *)
Fixpoint assetKey (assetID : string) (assets : list vaultAsset) : result (option bytes) :=
  match assets with
  | [] => Ok None
  | a :: rest =>
      if String.eqb (Asset_ID a) assetID && negb (String.eqb (Asset_Address a) "") then
        raw ← wrap "fireblocks: decode asset address" (strkey_Decode VersionByteAccountID (Asset_Address a));
        Ok (Some raw)
      else assetKey assetID rest
  end.

Definition fireblocks_verifyKey (s : FireblocksSigner) (ctx : Ctx) : IO bytes :=
  response ← io_wrap "fireblocks: get vault account"
    (fireblocks_do s ctx "GET" ("/v1/vault/accounts/" +:+ FB_vaultAccountID s) None);
  lift (assets ← wrap "fireblocks: decode vault account response" (json_UnmarshalVaultAccount response);
        found ← assetKey (FB_assetID s) assets;
        rawPubKey ← of_option found (EText ("fireblocks: asset " +:+ quoted (FB_assetID s) +:+
                      " not found in vault account " +:+ quoted (FB_vaultAccountID s)));
        _ ← refuse (negb (Nat.eqb (length rawPubKey) 32))
              (EText ("fireblocks: public key is " +:+ pretty (length rawPubKey) +:+ " bytes, want 32"));
        derived ← wrap "fireblocks: encode public key address" (strkey_Encode VersionByteAccountID rawPubKey);
        _ ← refuse (negb (String.eqb derived (FB_address s)))
              (EWrap ("fireblocks: key derives " +:+ derived +:+ ", configured address is " +:+ FB_address s)
                 (ESentinel ErrSignerAddressMismatch));
        Ok rawPubKey).

Definition NewFireblocksSigner (defaultClient : VaultDo) (ctx : Ctx) (cfg : FireblocksConfig) : IO FireblocksSigner :=
  s ← lift (
    _ ← required "fireblocks" "API key" (FC_APIKey cfg);
    _ ← required "fireblocks" "private key" (FC_PrivateKey cfg);
    _ ← required "fireblocks" "vault account ID" (FC_VaultAccountID cfg);
    _ ← required "fireblocks" "asset ID" (FC_AssetID cfg);
    _ ← wrap "fireblocks" (strkey_Decode VersionByteAccountID (FC_Address cfg));
    parsedURL ← absoluteURL "fireblocks" "https://api.fireblocks.io" (FC_BaseURL cfg);
    privateKey ← wrap "fireblocks: decode private key" (decodeBase64 (FC_PrivateKey cfg));
    _ ← refuse (negb (Nat.eqb (length privateKey) 64))
          (EText ("fireblocks: private key must be 64 bytes, got " +:+ pretty (length privateKey)));
    Ok (mkFireblocksSigner parsedURL (FC_APIKey cfg) privateKey (FC_VaultAccountID cfg) (FC_AssetID cfg)
          (FC_Address cfg) (default defaultClient (FC_HTTPClient cfg))
          (if (FC_ApprovalTimeout cfg =? 0)%Z then 5 * Minute else FC_ApprovalTimeout cfg) None));
  raw ← fireblocks_verifyKey s ctx;
  mret (mkFireblocksSigner (FB_baseURL s) (FB_apiKey s) (FB_privateKey s) (FB_vaultAccountID s) (FB_assetID s)
          (FB_address s) (FB_client s) (FB_approvalTimeout s) (Some raw)).

(** [context.WithTimeout]: done at the first tick at which its parent is done
    or the deadline is reached. *)
Fixpoint firstDone (parent : Ctx) (deadline : Z) (from n : nat) : option error :=
  match ctx_Err parent from with
  | Some e => Some e
  | None =>
      if (deadline <=? time_Now from)%Z then Some (ESentinel ContextDeadlineExceeded)
      else match n with O => None | S n => firstDone parent deadline (S from) n end
  end.
Definition WithTimeout (parent : Ctx) (start : nat) (timeout : Z) : Ctx :=
  mkCtx (λ t, firstDone parent (time_Now start + timeout) start (t - start)).

Definition cancelTransaction (s : FireblocksSigner) (ctx : Ctx) (txID : string) : IO unit :=
  _ ← fireblocks_do s ctx "POST" ("/v1/transactions/" +:+ txID +:+ "/cancel") None;
  mret tt.

(** What the status of a transaction says; [None] to go on polling. *)
Definition transactionAnswer (tx : fireblocksTx) : option (result bytes) :=
  let status := FTx_Status tx in
  if String.eqb status "COMPLETED" then
    Some (match FTx_SignedMessages tx with
          | [] => Err (EText "fireblocks: transaction completed but no signature")
          | m :: _ => decodeSized "fireblocks" "signature" "signature" 64 m
          end)
  else if String.eqb status "FAILED" || String.eqb status "REJECTED" || String.eqb status "BLOCKED" then
    let text := sentinel_text ErrHumanRejected in
    Some (Err (EMarked (if negb (String.eqb (FTx_ErrorDescription tx) "") then text +:+ ": " +:+ FTx_ErrorDescription tx
                        else text +:+ ": transaction " +:+ status) ErrHumanRejected))
  else None.

(** The error of a wait that ends with its context. *)
Definition waitEnded (e : error) : error :=
  if errors_Is e ContextDeadlineExceeded then EWrap "fireblocks: approval timeout" (ESentinel ErrHumanRejected)
  else EWrap "fireblocks: wait for signature" e.

(** What one poll says; errors are waited out. *)
Definition pollAnswer (response : result bytes) : option (result bytes) :=
  match response with
  | Err _ => None
  | Ok body => match json_UnmarshalFireblocksTx body with
               | Err _ => None
               | Ok tx => transactionAnswer tx
               end
  end.

(** One round of the loop: the answer, if this one gives it. *)
Definition pollRound (pick : bool) (s : FireblocksSigner) (pollCtx : Ctx) (txID : string) : IO (option (result bytes)) :=
  _ ← perform (EvSleep (2 * Second));
  done ← ctx_poll pollCtx;
  match done, pick with
  | Some e, true =>
      _ ← try_ (cancelTransaction s Background txID);
      mret (Some (Err (waitEnded e)))
  | _, _ =>
      response ← try_ (fireblocks_do s pollCtx "GET" ("/v1/transactions/" +:+ txID) None);
      mret (pollAnswer response)
  end.

Fixpoint pollLoop (fuel : nat) (select : Select) (round : nat) (s : FireblocksSigner) (pollCtx : Ctx) (txID : string)
    (w : World) : option (result bytes * World) :=
  match fuel with
  | O => None
  | S fuel =>
      match pollRound (select round) s pollCtx txID w with
      | (Ok (Some answer), w) => Some (answer, w)
      | (Err e, w) => Some (Err e, w)
      | (Ok None, w) => pollLoop fuel select (S round) s pollCtx txID w
      end
  end.

Definition waitForSignature (fuel : nat) (select : Select) (s : FireblocksSigner) (ctx : Ctx) (txID : string)
    (w : World) : option (result bytes * World) :=
  pollLoop fuel select 0 s (WithTimeout ctx (now w) (FB_approvalTimeout s)) txID w.

Definition fireblocksRequest (s : FireblocksSigner) (payload : bytes) : json :=
  JObject [("amount", JString "0"); ("assetId", JString (FB_assetID s));
    ("extraParameters", JObject [("rawMessageData", JObject [("messages", JArray [JObject [
       ("bip44Change", JInt 0); ("content", JString (EncodeToString StdEncoding payload))]])])]);
    ("operation", JString "RAW");
    ("source", JObject [("id", JString (FB_vaultAccountID s)); ("type", JString "VAULT_ACCOUNT")])].

(** [Sign] up to the wait: the key and the transaction. *)
Definition submitTransaction (s : FireblocksSigner) (ctx : Ctx) (preimage : HashIdPreimage) (payload : bytes)
    : IO (bytes * string) :=
  key ← signChecks "fireblocks: sign" ctx (FB_rawPublicKey s) preimage payload;
  response ← io_wrap "fireblocks: submit transaction"
    (fireblocks_do s ctx "POST" "/v1/transactions" (Some (fireblocksRequest s payload)));
  lift (tx ← wrap "fireblocks: decode transaction response" (json_UnmarshalFireblocksTx response);
        _ ← refuse (String.eqb (FTx_ID tx) "") (EText "fireblocks: no transaction ID returned");
        Ok (key, FTx_ID tx)).

Definition FireblocksSigner_Sign (fuel : nat) (select : Select) (s : FireblocksSigner) (ctx : Ctx)
    (preimage : HashIdPreimage) (payload : bytes) (w : World) : option (result ScVal * World) :=
  match submitTransaction s ctx preimage payload w with
  | (Err e, w) => Some (Err e, w)
  | (Ok (key, txID), w) =>
      match waitForSignature fuel select s ctx txID w with
      | None => None
      | Some (Err e, w) => Some (Err e, w)
      | Some (Ok signature, w) => Some (verified "fireblocks: sign" key payload signature, w)
      end
  end.

(** The signer, for a fuel; a run that needs more does not return. *)
Definition FireblocksSigner_asSigner (fuel : nat) (select : Select) (s : FireblocksSigner) : Signer :=
  mkSigner (FB_address s)
    (λ ctx preimage payload w,
       default (Err (EText "still waiting"), w) (FireblocksSigner_Sign fuel select s ctx preimage payload w)) None.

(** ** adapters/awskms/signer.go, adapters/gcpkms/signer.go *)
(** A client is an interface value: nil, a nil pointer, or a client, which
    signs a message with a key and may answer nothing. *)
Definition KMS : Type := Ctx → string → bytes → IO (option bytes).
Inductive client :=
| NilInterface
| NilPointer
| Client (sign : KMS).

Definition isNilClient (c : client) : bool :=
  match c with NilInterface | NilPointer => true | Client _ => false end.

Record kmsSigner := mkKmsSigner {
  kms_address : string;
  kms_key : string;
  kms_client : client;
  kms_rawPublicKey : bytes
}.

Definition accountKey (op address : string) : result bytes :=
  wrap (op +:+ ": " +:+ quoted address +:+ " is not an account (G…) address")
    (strkey_Decode VersionByteAccountID address).

Definition awskms_NewSigner (address keyID : string) (c : client) : result kmsSigner :=
  let op := "awskms: new signer" in
  _ ← refuse (isNilClient c) (EWrap op (ESentinel ErrMissingSigner));
  _ ← refuse (String.eqb keyID "") (EWrap (op +:+ ": key id is empty") (ESentinel ErrMissingSigner));
  raw ← accountKey op address;
  Ok (mkKmsSigner address keyID c raw).

Definition gcpkms_NewSigner (address keyVersion : string) (c : client) : result kmsSigner :=
  let op := "gcpkms: new signer" in
  _ ← refuse (isNilClient c) (EWrap (op +:+ ": " +:+ address) (ESentinel ErrMissingSigner));
  _ ← refuse (String.eqb keyVersion "") (EWrap (op +:+ ": key version is empty") (ESentinel ErrMissingSigner));
  raw ← accountKey op address;
  Ok (mkKmsSigner address keyVersion c raw).

(** A call through the interface; a nil one panics, which a signer that was
    constructed never does ([isNilClient]). *)
Definition client_Sign (c : client) : KMS :=
  match c with
  | Client sign => sign
  | _ => λ _ _ _, lift (Err (EText "panic: nil pointer dereference"))
  end.

(** [Sign] of both packages; a missing answer has no bytes. *)
Definition kms_Sign (op : string) (s : kmsSigner) (ctx : Ctx) (_ : HashIdPreimage) (payload : bytes) : IO ScVal :=
  _ ← ctx_check ctx op;
  out ← io_wrap op (client_Sign (kms_client s) ctx (kms_key s) payload);
  let signature := default [] out in
  lift (_ ← refuse (negb (Nat.eqb (length signature) 64))
              (EWrap (op +:+ ": KMS returned a " +:+ pretty (length signature) +:+ "-byte signature, want 64")
                 (ESentinel ErrSignatureMismatch));
        _ ← refuse (negb (ed25519_Verify (kms_rawPublicKey s) payload signature))
              (EWrap op (ESentinel ErrSignatureMismatch));
        wrap op (Ed25519SignatureScVal (kms_rawPublicKey s) signature)).

Definition awskms_Sign : kmsSigner → Ctx → HashIdPreimage → bytes → IO ScVal := kms_Sign "awskms: sign".
Definition gcpkms_Sign : kmsSigner → Ctx → HashIdPreimage → bytes → IO ScVal := kms_Sign "gcpkms: sign".
Definition awskms_asSigner (s : kmsSigner) : Signer := mkSigner (kms_address s) (awskms_Sign s) None.
Definition gcpkms_asSigner (s : kmsSigner) : Signer := mkSigner (kms_address s) (gcpkms_Sign s) None.

(** ** A signer of this file *)
Inductive custody : Signer → Prop :=
| custody_turnkey defaultClient ctx cfg w s w' :
    NewTurnkeySigner defaultClient ctx cfg w = (Ok s, w') → custody (TurnkeySigner_asSigner s)
| custody_fireblocks defaultClient ctx cfg w s w' fuel select :
    NewFireblocksSigner defaultClient ctx cfg w = (Ok s, w') → custody (FireblocksSigner_asSigner fuel select s)
| custody_awskms address keyID c s :
    awskms_NewSigner address keyID c = Ok s → custody (awskms_asSigner s)
| custody_gcpkms address keyVersion c s :
    gcpkms_NewSigner address keyVersion c = Ok s → custody (gcpkms_asSigner s).
End custody.

(** ** Lemmas *)
Section custody_lemmas.
Context `{SDK} `{!SDKLaws} `{NetURL} `{CustodyLib}.

Lemma Ed25519SignatureScVal_Ok key signature v :
  Ed25519SignatureScVal key signature = Ok v →
  v = scVec [accountSignature key signature] ∧ length key = 32 ∧ length signature = 64.
Proof.
  unfold Ed25519SignatureScVal. intros Hv. inv_ok.
  apply negb_false_iff, Nat.eqb_eq in Hx, Hx0. done.
Qed.

Lemma verified_Ok op key payload signature v :
  verified op key payload signature = Ok v →
  v = scVec [accountSignature key signature] ∧ length key = 32 ∧ length signature = 64 ∧
  ed25519_Verify key payload signature = true.
Proof.
  unfold verified. intros Hv. inv_ok. apply negb_false_iff in Hx.
  apply Ed25519SignatureScVal_Ok in Hv as (? & ? & ?). done.
Qed.

Lemma signChecks_Ok op ctx key pre payload w k w' :
  signChecks op ctx key pre payload w = (Ok k, w') → key = Some k ∧ Payload pre = Ok payload.
Proof.
  unfold signChecks. intros Hc. inv_io. inv_ok. split; [done|].
  match goal with E : negb (bytes_Equal _ _) = false |- _ => apply negb_false_iff, bytes_Equal_spec in E as -> end.
  done.
Qed.

Lemma encoded_address (derived address : string) raw :
  negb (String.eqb derived address) = false → strkey_Encode VersionByteAccountID raw = Ok derived →
  strkey_DecodeAny address = Ok (VersionByteAccountID, raw).
Proof. intros ->%negb_false_iff%String.eqb_eq He. by apply strkey_Decode_Encode. Qed.

Lemma NewTurnkeySigner_key defaultClient ctx cfg w s w' :
  NewTurnkeySigner defaultClient ctx cfg w = (Ok s, w') →
  ∃ raw, TK_rawPublicKey s = Some raw ∧ TK_address s = TC_Address cfg ∧
    strkey_DecodeAny (TK_address s) = Ok (VersionByteAccountID, raw).
Proof.
  unfold NewTurnkeySigner, turnkey_verifyKey. intros Hn. inv_io. inv_ok. cbn in *.
  eexists. split; [done|]. split; [done|]. by eapply encoded_address.
Qed.

Lemma NewFireblocksSigner_key defaultClient ctx cfg w s w' :
  NewFireblocksSigner defaultClient ctx cfg w = (Ok s, w') →
  ∃ raw, FB_rawPublicKey s = Some raw ∧ FB_address s = FC_Address cfg ∧
    strkey_DecodeAny (FB_address s) = Ok (VersionByteAccountID, raw).
Proof.
  unfold NewFireblocksSigner, fireblocks_verifyKey. intros Hn. inv_io. inv_ok. cbn in *.
  eexists. split; [done|]. split; [done|]. by eapply encoded_address.
Qed.

(** ** The interface, for each signer *)
Lemma turnkey_account defaultClient ctx cfg w s w' :
  NewTurnkeySigner defaultClient ctx cfg w = (Ok s, w') →
  ∃ key, AccountSigner (TurnkeySigner_asSigner s) key.
Proof.
  intros (raw & Hraw & _ & Haddr)%NewTurnkeySigner_key. exists raw. split; [done|].
  intros ctx' pre payload w1 v w2 Hs. cbn in Hs. unfold TurnkeySigner_Sign in Hs. inv_io. inv_ok.
  match goal with E : signChecks _ _ _ _ _ _ = _ |- _ => apply signChecks_Ok in E as [E _] end.
  match goal with E : verified _ _ _ _ = _ |- _ => apply verified_Ok in E end.
  assert (x = raw) as -> by congruence. eauto.
Qed.

Lemma fireblocks_account defaultClient ctx cfg w s w' fuel select :
  NewFireblocksSigner defaultClient ctx cfg w = (Ok s, w') →
  ∃ key, AccountSigner (FireblocksSigner_asSigner fuel select s) key.
Proof.
  intros (raw & Hraw & _ & Haddr)%NewFireblocksSigner_key. exists raw. split; [done|].
  intros ctx' pre payload w1 v w2 Hs. cbn in Hs. unfold FireblocksSigner_Sign in Hs.
  destruct (submitTransaction s ctx' pre payload w1) as [[[key txID]|e] w3] eqn:Hsub; [|done].
  destruct (waitForSignature fuel select s ctx' txID w3) as [[[signature|e] w4]|]; cbn in Hs; try done.
  injection Hs as Hv <-. apply verified_Ok in Hv.
  unfold submitTransaction in Hsub. inv_io. inv_ok.
  apply signChecks_Ok in Hx as [Hx _]. assert (key = raw) as -> by congruence. eauto.
Qed.

Lemma kms_account op s :
  strkey_DecodeAny (kms_address s) = Ok (VersionByteAccountID, kms_rawPublicKey s) →
  AccountSigner (mkSigner (kms_address s) (kms_Sign op s) None) (kms_rawPublicKey s).
Proof.
  intros Ha. split; [done|]. intros ctx pre payload w v w' Hs. cbn in Hs. unfold kms_Sign in Hs.
  inv_io. inv_ok.
  match goal with E : Ed25519SignatureScVal _ _ = _ |- _ => apply Ed25519SignatureScVal_Ok in E as (? & ? & ?) end.
  match goal with E : negb (ed25519_Verify _ _ _) = false |- _ => apply negb_false_iff in E end. eauto.
Qed.

Lemma accountKey_Ok op address raw : accountKey op address = Ok raw →
  strkey_DecodeAny address = Ok (VersionByteAccountID, raw).
Proof. by intros Hk%wrap_Ok%strkey_Decode_Any. Qed.

Lemma custody_account s : custody s → ∃ key, AccountSigner s key.
Proof.
  destruct 1 as [? ? ? ? ? ? Hn|? ? ? ? ? ? ? ? Hn|? ? ? ? Hn|? ? ? ? Hn].
  - by eapply turnkey_account.
  - by eapply fireblocks_account.
  - unfold awskms_NewSigner in Hn. inv_ok. eexists. apply kms_account. by eapply accountKey_Ok.
  - unfold gcpkms_NewSigner in Hn. inv_ok. eexists. apply kms_account. by eapply accountKey_Ok.
Qed.
End custody_lemmas.

(** ** Theorems *)
Section custody_theorems.
Context `{SDK} `{!SDKLaws} `{NetURL} `{CustodyLib}.

Lemma account_signature_parses (key signature : bytes) : length key = 32 → length signature = 64 →
  parseAccountSignature (scVec [accountSignature key signature]) = Ok (key, signature).
Proof. apply parseAccountSignature_account. Qed.

(** What any [AccountSigner] gives its clients: the entry it signs verifies at
    every node of its account, whoever keeps the key. *)
Lemma account_signs s key ctx entry v pass w out w' r :
  AccountSigner s key → AuthorizeEntry ctx entry (Some s) v pass [] w = (Ok out, w') →
  is_source entry = false → verifyEntry out pass = Ok r →
  let t := ScAddressTypeAccount (Some (mkAccountId 0 (Some key))) in
  ∃ payload, own_payload out pass = Ok payload ∧
    (∃ verdict n, (n, verdict) ∈ zip (flatNodes out) (Report_Nodes r) ∧ flat_address n = t) ∧
    Forall2 (λ n verdict, flat_address n = t → Verdict verdict = VerdictVerified)
      (flatNodes out) (Report_Nodes r).
Proof.
  intros [Haddr Hsound] Hauth Hsrc Hver t.
  destruct (AuthorizeEntry_Ok _ _ _ _ _ _ _ _ _ Hauth Hsrc) as
    (s' & t' & plan & payload & sig & w1 & w2 & [= <-] & Hprep & _ & Hcall & _).
  pose proof (Hsound _ _ _ _ _ _ Hcall) as (_ & _ & Hlen & _).
  assert (Hp : ParseAddress (targetOf (applyOptions []) s) = Ok t).
  { cbn. apply ParseAddress_Ok. exists key. auto. }
  destruct (AuthorizeEntry_verifies _ _ _ _ _ _ _ _ _ t _ r Hauth Hsrc Hp eq_refl) as (pl & ? & ? & ? & _);
    [|done|by exists pl].
  intros pre payload' w3 sig' w4 (signature & -> & ? & ? & ?)%Hsound.
  exists key, signature. by rewrite account_signature_parses.
Qed.

(** C29. An entry signed by a custody signer verifies: each constructor's signer
    stands for the account of one key, and whatever [AuthorizeEntry] returns
    for it has a node of that account, and a report on it gives every such
    node the verdict verified over the payload the entry commits to. *)
Theorem custody_signs s ctx entry v pass w out w' r :
  custody s → AuthorizeEntry ctx entry (Some s) v pass [] w = (Ok out, w') →
  is_source entry = false → verifyEntry out pass = Ok r →
  ∃ key payload, strkey_DecodeAny (signer_Address s) = Ok (VersionByteAccountID, key) ∧
    own_payload out pass = Ok payload ∧
    let t := ScAddressTypeAccount (Some (mkAccountId 0 (Some key))) in
    (∃ verdict n, (n, verdict) ∈ zip (flatNodes out) (Report_Nodes r) ∧ flat_address n = t) ∧
    Forall2 (λ n verdict, flat_address n = t → Verdict verdict = VerdictVerified)
      (flatNodes out) (Report_Nodes r).
Proof.
  intros (key & Hs)%custody_account Hauth Hsrc Hver.
  destruct (account_signs _ _ _ _ _ _ _ _ _ _ Hs Hauth Hsrc Hver) as (payload & ? & ? & ?).
  exists key, payload. split; [apply account_address|]. done.
Qed.
End custody_theorems.

(** ** The wait for an approval *)
Section waiting.
Context `{SDK} `{NetURL} `{CustodyLib}.

(** What has to hold for the wait to end: the clock passes every instant, a
    select whose Done channel stays ready picks it again and again, and a
    request does not turn the clock back. *)
Definition clock_goes_on : Prop := ∀ d, ∃ t0, ∀ t, t0 <= t → (d <= time_Now t)%Z.
Definition fair (select : Select) : Prop := ∀ n, ∃ m, n <= m ∧ select m = true.
Definition client_forward (s : FireblocksSigner) : Prop :=
  ∀ ctx method url headers body w, now w <= now (FB_client s ctx method url headers body w).2.

Lemma firstDone_deadline parent deadline from n :
  (deadline <= time_Now (from + n))%Z → ∃ e, firstDone parent deadline from n = Some e.
Proof.
  revert from. induction n as [|n IH]; intros from Hd; cbn [firstDone];
    (destruct (ctx_Err parent from) as [e|]; [by exists e|]);
    (destruct (Z.leb_spec deadline (time_Now from)) as [|Hlt]; [by eexists|]).
  - rewrite Nat.add_0_r in Hd. lia.
  - apply IH. by rewrite Nat.add_succ_comm.
Qed.

Lemma WithTimeout_done ctx start timeout t :
  start <= t → (time_Now start + timeout <= time_Now t)%Z →
  ∃ e, ctx_Err (WithTimeout ctx start timeout) t = Some e.
Proof. intros Hs Hd. apply firstDone_deadline. by rewrite Nat.add_comm, Nat.sub_add. Qed.

Lemma fireblocks_do_forward s ctx method path body w : client_forward s →
  now w <= now (fireblocks_do s ctx method path body w).2.
Proof.
  intros Hc. unfold fireblocks_do, mbind, IO_bind, lift, UnixMilli, io_wrap.
  destruct (wrap _ (http_NewRequest _ _)); cbn; [|lia].
  match goal with |- context [FB_client s ?a ?b ?c ?d ?e ?f] => pose proof (Hc a b c d e f) as Hn;
    destruct (FB_client s a b c d e f) as [[response|err] w1] end; cbn in *; [|lia].
  by destruct (wrap _ (readLimited response)).
Qed.

(** *** How a wait goes *)
(** A context made by [WithTimeout] is only done because its parent is, or
    because its deadline has passed. *)
Definition ctx_stops (ctx : Ctx) (start : nat) (timeout : Z) (t : nat) (e : error) : Prop :=
  ∃ t', start <= t' <= Nat.max start t ∧
    (ctx_Err ctx t' = Some e ∨
     e = ESentinel ContextDeadlineExceeded ∧ (time_Now start + timeout <= time_Now t')%Z).

(** What a reported transaction decides: its signature when it is completed
    and carries one of 64 bytes, an error when it does not, a rejection when it
    failed, was rejected or blocked. *)
Definition signed_message (tx : fireblocksTx) (signature : bytes) : Prop :=
  ∃ m rest, FTx_SignedMessages tx = m :: rest ∧ decodeBase64 m = Ok signature ∧ length signature = 64.

Inductive decides (tx : fireblocksTx) : result bytes → Prop :=
| decides_signature signature :
    FTx_Status tx = "COMPLETED" → signed_message tx signature → decides tx (Ok signature)
| decides_malformed e :
    FTx_Status tx = "COMPLETED" → (∀ signature, ¬ signed_message tx signature) → decides tx (Err e)
| decides_rejected e :
    FTx_Status tx ∈ ["FAILED"; "REJECTED"; "BLOCKED"] → errors_Is e ErrHumanRejected = true →
    decides tx (Err e).

(** An answer of the service that decides nothing. *)
Definition undecided (response : result bytes) : Prop :=
  ∀ body tx, response = Ok body → json_UnmarshalFireblocksTx body = Ok tx →
    FTx_Status tx ∉ ["COMPLETED"; "FAILED"; "REJECTED"; "BLOCKED"].

(** The world in which a round asks: after the ticker's two seconds and a look
    at the context. *)
Definition at_poll (w : World) : World := tick (emit_event (EvSleep (2 * Second)) w).

(** [waits w r w']: from [w] on, every round but the last asked the service for
    the transaction and its answer decided nothing; the last one got the answer
    that decides [r], or found the context done, asked for the transaction to
    be cancelled and gives that reason. *)
Section waits.
Context (s : FireblocksSigner) (ctx : Ctx) (start : nat) (txID : string).
Abbreviation pollCtx := (WithTimeout ctx start (FB_approvalTimeout s)).
Abbreviation ask := (fireblocks_do s pollCtx "GET" ("/v1/transactions/" +:+ txID) None).

Inductive waits : World → result bytes → World → Prop :=
| waits_on w response w1 r w' :
    ask (at_poll w) = (response, w1) → undecided response → waits w1 r w' → waits w r w'
| waits_answer w body tx r w' :
    ask (at_poll w) = (Ok body, w') → json_UnmarshalFireblocksTx body = Ok tx → decides tx r →
    waits w r w'
| waits_stopped w e e' x w' :
    ctx_stops ctx start (FB_approvalTimeout s) (S (now w)) e →
    (if errors_Is e ContextDeadlineExceeded then errors_Is e' ErrHumanRejected = true
     else ∃ p, e' = EWrap p e) →
    cancelTransaction s Background txID (at_poll w) = (x, w') →
    waits w (Err e') w'.
End waits.

Lemma firstDone_stops parent deadline from n e :
  firstDone parent deadline from n = Some e →
  ∃ t', from <= t' <= from + n ∧
    (ctx_Err parent t' = Some e ∨ e = ESentinel ContextDeadlineExceeded ∧ (deadline <= time_Now t')%Z).
Proof.
  revert from. induction n as [|n IH]; intros from; cbn [firstDone];
    (destruct (ctx_Err parent from) as [e'|] eqn:He;
       [intros [= <-]; exists from; split; [lia|by left]|]);
    (destruct (Z.leb_spec deadline (time_Now from));
       [intros [= <-]; exists from; split; [lia|by right]|]); [done|].
  intros (t' & ? & ?)%IH. exists t'. split; [lia|done].
Qed.

Lemma WithTimeout_stops ctx start timeout t e :
  ctx_Err (WithTimeout ctx start timeout) t = Some e → ctx_stops ctx start timeout t e.
Proof. intros (t' & ? & ?)%firstDone_stops. exists t'. split; [lia|done]. Qed.

Lemma waitEnded_reason e :
  if errors_Is e ContextDeadlineExceeded then errors_Is (waitEnded e) ErrHumanRejected = true
  else ∃ p, waitEnded e = EWrap p e.
Proof. unfold waitEnded. destruct (errors_Is e ContextDeadlineExceeded); [done|by eexists]. Qed.

Lemma transactionAnswer_decides tx r : transactionAnswer tx = Some r → decides tx r.
Proof.
  unfold transactionAnswer. destruct (String.eqb_spec (FTx_Status tx) "COMPLETED") as [Hs|_].
  - intros [= <-]. destruct (FTx_SignedMessages tx) as [|m rest] eqn:Hm.
    { apply decides_malformed; [done|]. intros sig (? & ? & ? & _). congruence. }
    unfold decodeSized. destruct (decodeBase64 m) as [sig|e] eqn:Hd; cbn.
    + destruct (Nat.eqb_spec (length sig) 64) as [Hl|Hl]; cbn.
      * apply decides_signature; [done|]. by exists m, rest.
      * apply decides_malformed; [done|]. intros sig' (? & ? & ? & ? & ?). congruence.
    + apply decides_malformed; [done|]. intros sig' (? & ? & ? & ? & ?). congruence.
  - destruct (_ || _) eqn:Hst; [|done]. intros [= <-]. apply decides_rejected; [|done].
    rewrite !orb_true_iff, !String.eqb_eq in Hst. set_solver.
Qed.

Lemma transactionAnswer_undecided tx :
  transactionAnswer tx = None → FTx_Status tx ∉ ["COMPLETED"; "FAILED"; "REJECTED"; "BLOCKED"].
Proof.
  unfold transactionAnswer. destruct (String.eqb_spec (FTx_Status tx) "COMPLETED") as [|Hs]; [done|].
  destruct (_ || _) eqn:Hst; [done|]. intros _.
  rewrite !orb_false_iff, !String.eqb_neq in Hst. set_solver.
Qed.

Lemma try_forward s ctx method path w : client_forward s →
  ∃ r w', try_ (fireblocks_do s ctx method path None) w = (Ok r, w') ∧ now w <= now w'.
Proof.
  intros Hc. unfold try_. pose proof (fireblocks_do_forward s ctx method path None w Hc) as Hf.
  destruct (fireblocks_do s ctx method path None w) as [r w2]. by exists r, w2.
Qed.

Lemma cancel_forward s ctx txID w : client_forward s →
  ∃ r w', try_ (cancelTransaction s ctx txID) w = (Ok r, w') ∧ now w <= now w'.
Proof.
  intros Hc. unfold try_, cancelTransaction, mbind, IO_bind.
  pose proof (fireblocks_do_forward s ctx "POST" ("/v1/transactions/" +:+ txID +:+ "/cancel") None w Hc) as Hf.
  destruct (fireblocks_do s ctx _ _ _ w) as [[r|e] w2]; by eexists _, w2.
Qed.

(** A round goes on after an answer that decides nothing, or ends the wait. *)
Lemma pollRound_spec pick s ctx start txID w : client_forward s →
  let pollCtx := WithTimeout ctx start (FB_approvalTimeout s) in
  ∃ o w', pollRound pick s pollCtx txID w = (Ok o, w') ∧ now w < now w' ∧
    match o with
    | Some r => waits s ctx start txID w r w'
    | None => ∀ r w2, waits s ctx start txID w' r w2 → waits s ctx start txID w r w2
    end ∧
    (pick = true → ctx_Err pollCtx (S (now w)) ≠ None → o ≠ None).
Proof.
  intros Hc pollCtx. unfold pollRound, perform, ctx_poll.
  unfold mbind at 1 2, IO_bind at 1 2. fold (at_poll w).
  change (now (emit_event (EvSleep (2 * Second)) w)) with (S (now w)).
  assert (Hnow : now (at_poll w) = S (S (now w))) by done.
  assert (Hpoll : ∃ o w', (response ← try_ (fireblocks_do s pollCtx "GET" ("/v1/transactions/" +:+ txID) None);
      mret (pollAnswer response)) (at_poll w) = (Ok o, w') ∧ now w < now w' ∧
    match o with
    | Some r => waits s ctx start txID w r w'
    | None => ∀ r w2, waits s ctx start txID w' r w2 → waits s ctx start txID w r w2
    end).
  { unfold mbind, IO_bind, try_.
    pose proof (fireblocks_do_forward s pollCtx "GET" ("/v1/transactions/" +:+ txID) None (at_poll w) Hc) as Hlt.
    destruct (fireblocks_do _ _ _ _ _ (at_poll w)) as [response w1] eqn:Hask. cbn [snd] in Hlt.
    exists (pollAnswer response), w1. split; [done|]. split; [lia|].
    destruct response as [body|e]; cbn [pollAnswer].
    2:{ intros r w2. by apply (waits_on s ctx start txID w _ w1 r w2 Hask). }
    destruct (json_UnmarshalFireblocksTx body) as [tx|e] eqn:Htx.
    2:{ intros r w2. apply (waits_on s ctx start txID w _ w1 r w2 Hask). intros ? ? [= <-] ?. congruence. }
    destruct (transactionAnswer tx) as [r|] eqn:Ha.
    - eapply waits_answer; [exact Hask|exact Htx|]. by apply transactionAnswer_decides.
    - intros r w2. apply (waits_on s ctx start txID w _ w1 r w2 Hask). intros ? tx' [= <-] Htx'.
      replace tx' with tx by congruence. by apply transactionAnswer_undecided. }
  destruct Hpoll as (o & w' & Hrun & Hlt & Hw).
  destruct (ctx_Err pollCtx (S (now w))) as [e|] eqn:He; [destruct pick|].
  - clear o w' Hrun Hlt Hw.
    destruct (cancel_forward s Background txID (at_poll w) Hc) as (x & w2 & Hrun & Hlt).
    unfold mbind, IO_bind. rewrite Hrun. exists (Some (Err (waitEnded e))), w2. split; [done|].
    split; [lia|]. split; [|done].
    unfold try_ in Hrun. destruct (cancelTransaction s Background txID (at_poll w)) as [x' w3] eqn:Hcan.
    injection Hrun as -> ->. eapply waits_stopped; [by apply WithTimeout_stops|apply waitEnded_reason|exact Hcan].
  - exists o, w'. split; [exact Hrun|]. by split.
  - exists o, w'. split; [exact Hrun|]. by repeat split.
Qed.

Lemma pollLoop_more fuel select round s pollCtx txID w o more :
  pollLoop fuel select round s pollCtx txID w = Some o →
  pollLoop (fuel + more) select round s pollCtx txID w = Some o.
Proof.
  revert round w. induction fuel as [|fuel IH]; intros round w; [done|]. cbn [Nat.add pollLoop].
  destruct (pollRound _ _ _ _ _) as [[[answer|]|e] w1]; [done|apply IH|done].
Qed.

Lemma pollLoop_ends select s ctx start txID m t0 :
  let pollCtx := WithTimeout ctx start (FB_approvalTimeout s) in
  client_forward s → select m = true → t0 <= m → (∀ t, t0 <= t → ctx_Err pollCtx t ≠ None) →
  ∀ k round w, m = round + k → round <= now w →
  ∃ r w', pollLoop (S k) select round s pollCtx txID w = Some (r, w') ∧ waits s ctx start txID w r w'.
Proof.
  intros pollCtx Hc Hm Ht Hdone. induction k as [|k IH]; intros round w -> Hw;
    destruct (pollRound_spec (select round) s ctx start txID w Hc) as (o & w1 & Hrun & Hlt & Hend & Hsome);
    fold pollCtx in Hrun, Hsome; cbn [pollLoop]; rewrite Hrun; (destruct o as [r|]; [by exists r, w1|]).
  - rewrite Nat.add_0_r in Hm. destruct (Hsome Hm); [|done]. apply Hdone. lia.
  - destruct (IH (S round) w1) as (r & w' & Hr & Hwaits); [lia|lia|].
    exists r, w'. split; [exact Hr|]. by apply Hend.
Qed.

(** C30. The wait for an approval ends, and rightly: when the clock goes on,
    some number of rounds is enough whatever the service answers, and more
    change nothing.  Round by round it asks the service for the transaction
    and goes on exactly as long as the answers decide nothing; it returns the
    64-byte signature of a transaction the service reported completed, an
    error for a completed one without, or a rejection for one reported failed,
    rejected or blocked.  It gives up only when the caller's context ended or
    the approval timeout had passed, asks for the transaction to be cancelled,
    and calls it a human's rejection when that was a deadline. *)
Theorem waitForSignature_returns select s ctx txID w :
  clock_goes_on → fair select → client_forward s →
  ∃ fuel r w', (∀ more, waitForSignature (fuel + more) select s ctx txID w = Some (r, w')) ∧
    waits s ctx (now w) txID w r w'.
Proof.
  intros Hclock Hfair Hc.
  set (deadline := (time_Now (now w) + FB_approvalTimeout s)%Z).
  destruct (Hclock deadline) as [t0 Ht0]. destruct (Hfair (t0 + now w)) as (m & Hm & Hsel).
  destruct (pollLoop_ends select s ctx (now w) txID m (t0 + now w) Hc Hsel Hm)
    with (k := m) (round := 0) (w := w) as (r & w' & Hrun & Hend); [|done|lia|].
  { intros t Ht. destruct (WithTimeout_done ctx (now w) (FB_approvalTimeout s) t) as [e He]; [lia| |by rewrite He].
    apply Ht0. lia. }
  exists (S m), r, w'. split; [intros more; by apply pollLoop_more|done].
Qed.
End waiting.

(** ** Concrete services *)
Fixpoint json_text (j : json) : string :=
  match j with
  | JString s => quoted s
  | JInt z => FormatInt z
  | JObject fields =>
      "{" +:+ String.concat "," (map (λ f, quoted f.1 +:+ ":" +:+ json_text f.2) fields) +:+ "}"
  | JArray elements => "[" +:+ String.concat "," (map json_text elements) +:+ "]"
  end.

#[export] Instance ModelCustodyLib : CustodyLib := {|
  json_Marshal j := bytes_of_string (json_text j);
  json_UnmarshalTurnkeyKey b := '(t, p, c) ← read_value (A := string * string * string) b; Ok (mkTurnkeyKey t p c);
  json_UnmarshalActivity b :=
    '(status, signature, e) ← read_value (A := string * string * option (string * string)) b;
    Ok (mkActivity status signature ((λ e, mkActivityError e.1 e.2) <$> e));
  json_UnmarshalVaultAccount b := l ← read_value (A := list (string * string)) b; Ok (map (λ a, mkVaultAsset a.1 a.2) l);
  json_UnmarshalFireblocksTx b :=
    '(i, status, messages, text) ← read_value (A := string * string * list string * string) b;
    Ok (mkFireblocksTx i status messages text);
  ed25519_Sign key message := take 64 (key ++ message);
  time_Now t := (Z.of_nat t * Second)%Z
|}.

(** A KMS that signs as [ModelSDK] checks, and one that does not. *)
Definition ex_kms (b : Byte.byte) : client := Client (λ _ _ payload, mret (Some (payload ++ ex_key b))).
Definition ex_kms_signer : kmsSigner := mkKmsSigner (ex_text "a") "alias/soroban" (ex_kms "a") (ex_key "a").
Example ex_kms_new : awskms_NewSigner (ex_text "a") "alias/soroban" (ex_kms "a") = Ok ex_kms_signer.
Proof. vm_compute. reflexivity. Qed.
Example ex_kms_refusals :
  is_ok (awskms_NewSigner (ex_text "a") "alias/soroban" NilPointer) = false ∧
  is_ok (gcpkms_NewSigner (ex_text "a") "" (ex_kms "a")) = false ∧
  is_ok (gcpkms_NewSigner (ex_contract_text "a") "version" (ex_kms "a")) = false.
Proof. split_and!; vm_compute; reflexivity. Qed.

Definition ex_kms_out : SorobanAuthorizationEntry :=
  match (AuthorizeEntry Background (ex_v2 "a" 0 ScvVoid) (Some (awskms_asSigner ex_kms_signer)) 1000 ex_network []
           initial_world).1 with
  | Ok out => out | Err _ => ex_source
  end.
Definition ex_kms_report : VerificationReport :=
  match verifyEntry ex_kms_out ex_network with Ok r => r | Err _ => mkReport "" false "" 0 [] "" end.

Lemma custody_signs_witness : map Verdict (Report_Nodes ex_kms_report) = [VerdictVerified] ∧
  ∃ key payload, strkey_DecodeAny (ex_text "a") = Ok (VersionByteAccountID, key) ∧
    own_payload ex_kms_out ex_network = Ok payload ∧
    let t := ScAddressTypeAccount (Some (mkAccountId 0 (Some key))) in
    (∃ verdict n, (n, verdict) ∈ zip (flatNodes ex_kms_out) (Report_Nodes ex_kms_report) ∧ flat_address n = t) ∧
    Forall2 (λ n verdict, flat_address n = t → Verdict verdict = VerdictVerified)
      (flatNodes ex_kms_out) (Report_Nodes ex_kms_report).
Proof.
  split; [vm_compute; reflexivity|].
  assert (Hrun : ∃ w', AuthorizeEntry Background (ex_v2 "a" 0 ScvVoid) (Some (awskms_asSigner ex_kms_signer)) 1000
    ex_network [] initial_world = (Ok ex_kms_out, w')) by (eexists; vm_compute; reflexivity).
  destruct Hrun as [w' Hrun].
  refine (custody_signs (awskms_asSigner ex_kms_signer) _ _ _ _ _ _ _ ex_kms_report _ Hrun eq_refl _).
  - exact (custody_awskms _ _ _ _ ex_kms_new).
  - vm_compute. reflexivity.
Defined.

(** A Fireblocks workspace: a vault account with one asset, a transaction that
    is pending until an approver acts, at the tick [at], and completes with a
    signature of the payload, or is rejected. *)
Definition ex_fireblocks (answer : string) (approved_at : nat) (payload : bytes) : VaultDo := λ _ method path _ _ w,
  let reply {A} `{Countable A} (a : A) := (Ok (mkVaultResponse 200 (write_value a) None), tick w) in
  if String.eqb path "https://fireblocks/v1/vault/accounts/7" then reply [("XLM_TEST", ex_text "a")]
  else if String.eqb method "POST" then reply ("tx", "SUBMITTED", @nil string, "")
  else if now w <? approved_at then reply ("tx", "PENDING_AUTHORIZATION", @nil string, "")
  else reply ("tx", answer, [EncodeToString StdEncoding (payload ++ ex_key "a")], "").

Definition ex_fireblocks_config (c : VaultDo) : FireblocksConfig :=
  mkFireblocksConfig "https://fireblocks" "key" (EncodeToString StdEncoding (replicate 64 x01)) "7" "XLM_TEST"
    (ex_text "a") (Some c) (60 * Second).
Definition ex_fireblocks_signer (c : VaultDo) : option FireblocksSigner :=
  match (NewFireblocksSigner c Background (ex_fireblocks_config c) initial_world).1 with
  | Ok s => Some s | Err _ => None
  end.
(** The rounds alternate: Done is looked at in every other one. *)
Definition ex_select : Select := Nat.even.

Definition ex_fireblocks_outcome (c : VaultDo) : option (result ScVal) :=
  s ← ex_fireblocks_signer c;
  fst <$> FireblocksSigner_Sign 100 ex_select s Background ex_vault_request ex_vault_payload initial_world.

Example ex_fireblocks_approved :
  ex_fireblocks_outcome (ex_fireblocks "COMPLETED" 20 ex_vault_payload) =
  Some (Ok (ex_account_signature (ex_key "a") (ex_vault_payload ++ ex_key "a"))).
Proof. vm_compute. reflexivity. Qed.

(** A rejection, a failure of the service and the caller's patience ending all
    read as a human's rejection. *)
Example ex_fireblocks_rejected :
  let rejected c := match ex_fireblocks_outcome c with Some (Err e) => errors_Is e ErrHumanRejected | _ => false end in
  rejected (ex_fireblocks "REJECTED" 20 ex_vault_payload) = true ∧
  rejected (ex_fireblocks "FAILED" 20 ex_vault_payload) = true ∧
  rejected (ex_fireblocks "COMPLETED" 1000 ex_vault_payload) = true.
Proof. split_and!; vm_compute; reflexivity. Qed.

Definition ex_waiting : FireblocksSigner :=
  mkFireblocksSigner "https://fireblocks" "key" (replicate 64 x01) "7" "XLM_TEST" (ex_text "a")
    (ex_fireblocks "COMPLETED" 20 ex_vault_payload) (60 * Second) (Some (ex_key "a")).

Lemma waitForSignature_returns_witness :
  ∃ fuel r w', (∀ more, waitForSignature (fuel + more) ex_select ex_waiting Background "tx" initial_world = Some (r, w')) ∧
    waits ex_waiting Background (now initial_world) "tx" initial_world r w'.
Proof.
  apply (waitForSignature_returns ex_select ex_waiting Background "tx" initial_world).
  - intros d. exists (Z.to_nat d). intros t Ht. cbn. unfold Second. lia.
  - intros n. exists (2 * n). split; [lia|]. apply Nat.even_spec. by exists n.
  - intros ctx method url headers body w. cbn. unfold ex_fireblocks. cbv zeta.
    repeat case_match; cbn; lia.
Defined.

(** A Turnkey organization that signs what it is sent, and one that hashes it
    first, as the request asks. *)
Definition ex_turnkey (hash : bytes → bytes) (payload : bytes) : VaultDo := λ _ method _ _ _,
  mret (mkVaultResponse 200
    (if String.eqb method "GET" then write_value ("ED25519", EncodeToString StdEncoding (ex_key "a"), "")
     else write_value ("ACTIVITY_STATUS_COMPLETED", EncodeToString StdEncoding (take 64 (hash payload ++ ex_key "a")),
                       @None (string * string))) None).
Definition ex_turnkey_config (c : VaultDo) : TurnkeyConfig :=
  mkTurnkeyConfig "" "org" "AAEC" "AAEC" "key" (ex_text "a") (Some c).
Definition ex_turnkey_sign (hash : bytes → bytes) : result ScVal :=
  fst ((s ← NewTurnkeySigner (ex_turnkey hash ex_vault_payload) Background (ex_turnkey_config (ex_turnkey hash ex_vault_payload));
   TurnkeySigner_Sign s Background ex_vault_request ex_vault_payload) initial_world).
Example ex_turnkey_hashed :
  is_ok (ex_turnkey_sign id) = true ∧
  (match ex_turnkey_sign sha256_Sum256 with Err e => errors_Is e ErrSignatureMismatch | Ok _ => false end) = true.
Proof. split; vm_compute; reflexivity. Qed.
