(* ===== verification/WalletSDK.v ===== *)
(** * WalletSDK: signing and checking with a wallet's key pair
    (adapters/walletsdk: keypair.go, nodes.go, verify.go, sign.go,
    freighter.go, requirements.go)

    A wallet SDK's key pair is the interface [Signers.ed25519Keypair]; the
    argument of [NewSigner] and [VerifyEntry] may also be nil, or hold a nil
    pointer ([Keypair]).  The package signs through [AuthorizeEnvelope] and
    checks entries with its own walk of the credential nodes; the theorems
    show that this walk agrees with the library's report, that an envelope the
    package signed passes its own check, and what is known of an entry a
    wallet extension returned.

    The base64 decoder of the SDK and the wallet extension are parameters;
    nothing is assumed of either. *)
From Stdlib Require Import ZArith Lia Strings.Byte String.
From stdpp Require Import base list strings pretty.
From S2P Require Import Prelude Encoding Errors Xdr ModelSDK Runtime Examples Address Limits Arm Preimage.
From S2P Require Import Nodes Inspect Delegates Authorize Verify Signers Batch Envelope Remote Custody.

Open Scope string_scope. Open Scope nat_scope. Open Scope list_scope.

(** ** keypair.go *)
Inductive Keypair :=
| NilKeypair                                 (* the nil interface, or a nil pointer in it *)
| SomeKeypair (kp : ed25519Keypair).

Record walletSigner := mkWalletSigner {
  wallet_kp : ed25519Keypair;
  wallet_address : string;
  wallet_raw : bytes
}.

Section walletsdk.
Context `{SDK} `{EnvelopeSDK}.

(** [if isNilKeypair(kp) { return ErrMissingSigner }] *)
Definition theKeypair (op : string) (kp : Keypair) : result ed25519Keypair :=
  match kp with
  | NilKeypair => Err (EWrap op (ESentinel ErrMissingSigner))
  | SomeKeypair kp => Ok kp
  end.

Definition walletSigner_Sign (s : walletSigner) (ctx : Ctx) (_ : HashIdPreimage) (payload : bytes) : IO ScVal :=
  _ ← ctx_check ctx "walletsdk: sign";
  let op := "walletsdk: sign " +:+ wallet_address s in
  lift (signature ← wrap op (kp_Sign (wallet_kp s) payload);
        _ ← refuse (negb (Nat.eqb (length signature) 64))
              (EWrap (op +:+ ": " +:+ pretty (length signature) +:+ "-byte signature, want 64")
                 (ESentinel ErrSignatureMismatch));
        _ ← match kp_Verify (wallet_kp s) payload signature with
            | Ok _ => Ok tt
            | Err _ => Err (EWrap op (ESentinel ErrSignatureMismatch))
            end;
        Ok (scVec [accountSignature (wallet_raw s) signature])).

Definition walletSigner_asSigner (s : walletSigner) : Signer :=
  mkSigner (wallet_address s) (walletSigner_Sign s) None.

Definition walletsdk_NewSigner (kp : Keypair) : result Signer :=
  let op := "walletsdk: new signer" in
  kp ← theKeypair op kp;
  let address := kp_Address kp in
  raw ← wrap op (rawEd25519Key address);
  Ok (walletSigner_asSigner (mkWalletSigner kp address raw)).

(** okx.go: the other SDK's key pair, which is the interface's kind of key. *)
Definition FromOKXKeypair (kp : option ed25519Keypair) : result Signer :=
  let op := "walletsdk: from okx keypair" in
  kp ← of_option kp (EWrap op (ESentinel ErrMissingSigner));
  wrap op (walletsdk_NewSigner (SomeKeypair kp)).

(** ** nodes.go *)
Definition wallet_sameAddress (candidate : ScAddress) (wanted : string) : result bool :=
  formatted ← FormatAddress candidate;
  Ok (String.eqb formatted wanted).

(** The walk of one delegate and everything beneath it; unlike the library's
    walk it has no depth limit. *)
Fixpoint collectDelegate (wanted : string) (d : SorobanDelegateSignature) : result (list ScVal) :=
  match d with
  | mkDelegateSignature address signature nested =>
      found ← (ls ← rmapM (collectDelegate wanted) nested; Ok (concat ls));
      matches ← wallet_sameAddress address wanted;
      Ok (if matches : bool then signature :: found else found)
  end.

Definition collectDelegates (delegates : list SorobanDelegateSignature) (wanted : string)
    : result (list ScVal) :=
  ls ← rmapM (collectDelegate wanted) delegates; Ok (concat ls).

Definition collectSignature (address : ScAddress) (signature : ScVal) (wanted : string)
    (delegates : list SorobanDelegateSignature) : result (list ScVal) :=
  found ← collectDelegates delegates wanted;
  matches ← wallet_sameAddress address wanted;
  Ok (if matches : bool then signature :: found else found).

Definition signatureNodes (entry : SorobanAuthorizationEntry) (address : string) : result (list ScVal) :=
  let credentials := Credentials entry in
  let t := Credentials_Type credentials in
  if (t =? CredentialsSourceAccount)%Z then Ok []
  else if (t =? CredentialsAddress)%Z then
    match Credentials_Address credentials with
    | None => Err (EText "the address arm is empty")
    | Some c => collectSignature (Address c) (Signature c) address []
    end
  else if (t =? CredentialsAddressV2)%Z then
    match Credentials_AddressV2 credentials with
    | None => Err (EText "the address_v2 arm is empty")
    | Some c => collectSignature (Address c) (Signature c) address []
    end
  else if (t =? CredentialsAddressWithDelegates)%Z then
    match Credentials_AddressWithDelegates credentials with
    | None => Err (EText "the delegates arm is empty")
    | Some d =>
        collectSignature (Address (AddressCredentials d)) (Signature (AddressCredentials d)) address
          (Delegates d)
    end
  else Err (ESentinel ErrUnsupportedCredentials).

Definition unreadable (text : string) : error := EWrap text (ESentinel ErrUnreadableSignature).

(** The scan over the map's entries, last occurrence of a name winning. *)
Fixpoint walletFields (entries : list (ScVal * ScVal)) (publicKey signature : option bytes)
    : result (option bytes * option bytes) :=
  match entries with
  | [] => Ok (publicKey, signature)
  | (ScvSymbol (Some sym), ScvBytes (Some b)) :: rest =>
      if bool_decide (sym = "public_key") then walletFields rest (Some b) signature
      else if bool_decide (sym = "signature") then walletFields rest publicKey (Some b)
      else walletFields rest publicKey signature
  | (ScvSymbol (Some sym), v) :: _ =>
      Err (unreadable ("stored signature field " +:+ quoted sym +:+ " is " +:+ ScValType_String v +:+
                       ", want bytes"))
  | _ :: rest => walletFields rest publicKey signature
  end.

Definition walletsdk_parseAccountSignature (value : ScVal) : result (bytes * bytes) :=
  match value with
  | ScvVec (Some (Some entries)) =>
      match entries with
      | [ScvMap (Some (Some fields))] =>
          '(publicKey, signature) ← walletFields fields None None;
          match publicKey, signature with
          | Some publicKey, Some signature =>
              _ ← refuse (negb (Nat.eqb (length publicKey) 32))
                    (unreadable ("stored public key is " +:+ pretty (length publicKey) +:+
                                 " bytes, want 32"));
              _ ← refuse (negb (Nat.eqb (length signature) 64))
                    (unreadable ("stored signature is " +:+ pretty (length signature) +:+
                                 " bytes, want 64"));
              Ok (publicKey, signature)
          | _, _ => Err (unreadable "stored signature is missing public_key or signature")
          end
      | [element] =>
          Err (unreadable ("stored signature holds " +:+ ScValType_String element +:+ ", want a map"))
      | _ =>
          Err (unreadable ("stored signature holds " +:+ pretty (length entries) +:+
                           " entries, want exactly 1"))
      end
  | _ => Err (unreadable ("stored signature is " +:+ ScValType_String value +:+ ", want a vector"))
  end.

(** ** verify.go *)
Definition checkNode (op : string) (kp : ed25519Keypair) (raw payload : bytes) (i : nat) (node : ScVal)
    : result unit :=
  let op := op +:+ ": node " +:+ pretty i in
  '(publicKey, signature) ← wrap op (walletsdk_parseAccountSignature node);
  _ ← refuse (negb (bytes_Equal publicKey raw))
        (EWrap (op +:+ ": stored public key " +:+ hex_EncodeToString publicKey +:+ " is not " +:+
                kp_Address kp +:+ "'s") (ESentinel ErrSignatureNotByKey));
  match kp_Verify kp payload signature with
  | Ok _ => Ok tt
  | Err _ => Err (EWrap (op +:+ ": " +:+ kp_Address kp) (ESentinel ErrSignatureNotByKey))
  end.

Definition walletsdk_VerifyEntry (entry : SorobanAuthorizationEntry) (kp : Keypair)
    (validUntilLedger : Z) (networkPassphrase : string) : result unit :=
  let op := "walletsdk: verify entry" in
  kp ← theKeypair op kp;
  raw ← wrap op (rawEd25519Key (kp_Address kp));
  preimage ← wrap op (Preimage entry validUntilLedger networkPassphrase);
  payload ← wrap op (Payload preimage);
  nodes ← wrap op (signatureNodes entry (kp_Address kp));
  _ ← refuse (Nat.eqb (length nodes) 0)
        (EWrap (op +:+ ": " +:+ kp_Address kp) (ESentinel ErrSignatureNotFound));
  iterM_from (checkNode op kp raw payload) 0 nodes.

Definition VerifyEnvelope (env : TransactionEnvelope) (kp : Keypair) (validUntilLedger : Z)
    (networkPassphrase : string) : result unit :=
  let op := "walletsdk: verify envelope" in
  entries ← wrap op (EnvelopeEntries env);
  iterM_from (λ _ located,
    if is_source (located_Entry located) then Ok tt
    else
      match walletsdk_VerifyEntry (located_Entry located) kp validUntilLedger networkPassphrase with
      | Ok _ => Ok tt
      | Err e =>
          if errors_Is e ErrSignatureNotFound then Ok tt
          else Err (EWrap (operationEntry op located) e)
      end) 0 entries.

(** ** sign.go *)
Record Signed := mkSigned {
  Signed_envelope : TransactionEnvelope;
  Entries : list EnvelopeEntry;
  Enforced : bool
}.

Definition MarkEnforced (s : Signed) : Signed := mkSigned (Signed_envelope s) (Entries s) true.

Definition Signed_Envelope (s : Signed) : result TransactionEnvelope :=
  _ ← refuse (negb (Enforced s)) (EWrap "walletsdk: envelope" (ESentinel ErrEnforcePassMissing));
  Ok (Signed_envelope s).

Definition walletsdk_Sign (ctx : Ctx) (env : TransactionEnvelope) (kp : Keypair) (validUntilLedger : Z)
    (networkPassphrase : string) : IO Signed :=
  let op := "walletsdk: sign" in
  _ ← ctx_check ctx op;
  signer ← lift (wrap op (walletsdk_NewSigner kp));
  signed ← io_wrap op (AuthorizeEnvelope ctx env [Some signer] validUntilLedger networkPassphrase);
  entries ← lift (wrap op (EnvelopeEntries signed));
  mret (mkSigned signed entries false).

(** ** freighter.go *)
Record FreighterSignRequest := mkFreighterSignRequest {
  Freighter_EntryXDR : string;
  Freighter_ValidUntilLedger : Z;
  Freighter_NetworkPassphrase : string;
  Freighter_Address : string
}.

(** The extension answers with the base64 text of an entry. *)
Definition FreighterWallet : Type := Ctx → FreighterSignRequest → IO string.

Definition freighterNetworks : list string :=
  ["Test SDF Network ; September 2015";
   "Test SDF Future Network ; September 2015";
   "Public Global Stellar Network ; September 2015"].

Definition nodesForAddress (report : VerificationReport) (address : string) : list NodeVerdict :=
  filter (λ node, Verdict_Address node = address) (Report_Nodes report).

Definition networkSignedFor (entry : SorobanAuthorizationEntry) (except : string) : string :=
  default "" (List.find (λ candidate,
    negb (String.eqb candidate except) &&
    match verifyEntry entry candidate with Ok report => Verified report | Err _ => false end)
    freighterNetworks).

(** The verdict on one node of the address. *)
Definition freighterNode (signed : SorobanAuthorizationEntry) (networkPassphrase : string) (node : NodeVerdict)
    : result unit :=
  let op := "walletsdk: sign via freighter" in
  match Verdict node with
  | VerdictVerified => Ok tt
  | VerdictUnsigned =>
      Err (EWrap (op +:+ ": node " +:+ Verdict_Address node +:+ " came back unsigned")
             (ESentinel ErrUnreadableSignature))
  | VerdictCannotCheck =>
      Err (EWrap (op +:+ ": node " +:+ Verdict_Address node +:+ " is not a classic account signature")
             (ESentinel ErrUnreadableSignature))
  | VerdictInvalid =>
      let actual := networkSignedFor signed networkPassphrase in
      if negb (String.eqb actual "") then
        Err (EWrap (op +:+ ": want " +:+ quoted networkPassphrase +:+ ", wallet signed for " +:+ quoted actual)
               (ETyped (WrongNetworkError networkPassphrase actual) (ESentinel ErrWalletWrongNetwork)))
      else Err (EWrap (op +:+ ": node " +:+ Verdict_Address node) (ESentinel ErrSignatureNotByKey))
  end.

Variable SafeUnmarshalBase64 : string → result SorobanAuthorizationEntry.

Definition SignViaFreighter (ctx : Ctx) (wallet : option FreighterWallet) (entry : SorobanAuthorizationEntry)
    (validUntilLedger : Z) (networkPassphrase address : string) : IO SorobanAuthorizationEntry :=
  let op := "walletsdk: sign via freighter" in
  _ ← ctx_check ctx op;
  wallet ← lift (of_option wallet (EWrap op (ESentinel ErrMissingSigner)));
  encoded ← lift (wrap (op +:+ ": encoding the entry") (MarshalBase64 entry));
  resp ← try_ (wallet ctx (mkFreighterSignRequest encoded validUntilLedger networkPassphrase address));
  resp ← lift (match resp with
               | Ok resp => Ok resp
               | Err e =>
                   if errors_Is e ErrWalletRejected || errors_Is e ErrWalletLocked then Err (EWrap op e)
                   else Err (EWrap (op +:+ ": the wallet failed") e)
               end);
  signed ← lift (wrap (op +:+ ": the wallet returned an undecodable entry") (SafeUnmarshalBase64 resp));
  report ← io_wrap (op +:+ ": verifying the wallet's entry") (VerifyEntry signed networkPassphrase);
  let nodes := nodesForAddress report address in
  _ ← lift (refuse (Nat.eqb (length nodes) 0) (EWrap (op +:+ ": " +:+ address) (ESentinel ErrSignatureNotFound)));
  _ ← lift (iterM_from (λ _ node, freighterNode signed networkPassphrase node) 0 nodes);
  mret signed.

(** ** requirements.go *)
Record Requirement := mkRequirement {
  Requirement_OperationIndex : nat;
  Requirement_EntryIndex : nat;
  Requirement_EntryInfo : EntryInfo;
  Wanted : bool;
  Requirement_Signed : bool
}.

Definition requirement (address : string) (located : EnvelopeEntry) : result Requirement :=
  let op := operationEntry "walletsdk: requirements" located in
  info ← wrap op (Inspect (located_Entry located));
  nodes ← wrap op (signatureNodes (located_Entry located) address);
  let wanted := negb (Nat.eqb (length nodes) 0) in
  Ok (mkRequirement (OperationIndex located) (EntryIndex located) info wanted
        (wanted && forallb (λ node, negb (bool_decide (node = ScvVoid))) nodes)).

Definition Requirements (env : TransactionEnvelope) (address : string) : result (list Requirement) :=
  entries ← wrap "walletsdk: requirements" (EnvelopeEntries env);
  imapM_from (λ _ located, requirement address located) 0 entries.
End walletsdk.

(** ** The walk and the abstract view *)
(** The signatures of the nodes of a list that are named by a text. *)
Section named.
Context `{SDK}.

Definition named (wanted : string) (n : FlatNode) : bool :=
  match FormatAddress (flat_address n) with Ok s => String.eqb s wanted | Err _ => false end.

Definition signaturesNamed (wanted : string) (ns : list FlatNode) : list ScVal :=
  omap (λ n, if named wanted n then Some (flat_sig n) else None) ns.

Definition formattable (n : FlatNode) : Prop := is_ok (FormatAddress (flat_address n)) = true.

Lemma named_spec wanted n : named wanted n = true ↔ FormatAddress (flat_address n) = Ok wanted.
Proof.
  unfold named. destruct (FormatAddress _) as [s|]; [|done]. rewrite String.eqb_eq.
  split; [by intros ->|by intros [= ->]].
Qed.

Lemma signaturesNamed_app wanted l k :
  signaturesNamed wanted (l ++ k) = signaturesNamed wanted l ++ signaturesNamed wanted k.
Proof. apply omap_app. Qed.

Lemma signaturesNamed_under wanted i l :
  signaturesNamed wanted (map (flat_under i) l) = signaturesNamed wanted l.
Proof.
  unfold signaturesNamed. induction l as [|n l IH]; [done|]. cbn [map omap list_omap].
  rewrite IH. reflexivity.
Qed.

Lemma elem_of_signaturesNamed wanted ns v :
  v ∈ signaturesNamed wanted ns ↔
  ∃ n, n ∈ ns ∧ FormatAddress (flat_address n) = Ok wanted ∧ flat_sig n = v.
Proof.
  unfold signaturesNamed. rewrite list_elem_of_omap. split.
  - intros (n & Hn & Hv). destruct (named wanted n) eqn:Hw; [|done].
    apply named_spec in Hw. injection Hv as <-. by exists n.
  - intros (n & Hn & Hw%named_spec & <-). exists n. by rewrite Hw.
Qed.

Lemma sameAddress_true a wanted b :
  wallet_sameAddress a wanted = Ok b ↔ ∃ s, FormatAddress a = Ok s ∧ b = String.eqb s wanted.
Proof.
  unfold wallet_sameAddress. destruct (FormatAddress a) as [s|]; cbn; [|naive_solver].
  split; [intros [= <-]; eauto|intros (? & [= <-] & ->); done].
Qed.

(** One node before the nodes beneath it. *)
Lemma node_and_below wanted a sig p below found :
  found = signaturesNamed wanted below → Forall formattable below →
  ∀ m, wallet_sameAddress a wanted = Ok m →
  (if m : bool then sig :: found else found) = signaturesNamed wanted (mkFlat a sig p :: below) ∧
  Forall formattable (mkFlat a sig p :: below).
Proof.
  intros -> Hb m (s & Hs & ->)%sameAddress_true. split.
  - assert (Hn : named wanted (mkFlat a sig p) = String.eqb s wanted)
      by (unfold named; cbn; by rewrite Hs).
    unfold signaturesNamed. cbn [omap list_omap]. rewrite Hn. by destruct (String.eqb s wanted).
  - constructor; [|done]. unfold formattable. cbn. by rewrite Hs.
Qed.

Lemma formattable_under i l : Forall formattable (map (flat_under i) l) ↔ Forall formattable l.
Proof. apply Forall_fmap_iff. Qed.

Lemma collectLevel_flat wanted ds :
  Forall (λ d, ∀ i sigs, collectDelegate wanted d = Ok sigs →
    sigs = signaturesNamed wanted (flatDelegate i d) ∧ Forall formattable (flatDelegate i d)) ds →
  ∀ j k ls, imapM_from (λ _, collectDelegate wanted) k ds = Ok ls →
  concat ls = signaturesNamed wanted (concat (imap_from flatDelegate j ds)) ∧
  Forall formattable (concat (imap_from flatDelegate j ds)).
Proof.
  induction 1 as [|d ds Hd _ IH]; intros j k ls; cbn [imapM_from imap_from concat].
  - intros [= <-]. by split.
  - intros Hm. inv_ok. cbn [concat]. rewrite signaturesNamed_app, Forall_app.
    destruct (Hd j _ Hx) as [-> ?]. by destruct (IH (S j) _ _ Hx0) as [-> ?].
Qed.

Lemma collectDelegates_flat ds wanted sigs : collectDelegates ds wanted = Ok sigs →
  sigs = signaturesNamed wanted (flatDelegates ds) ∧ Forall formattable (flatDelegates ds).
Proof.
  unfold collectDelegates, flatDelegates. intros Hc. inv_ok.
  eapply collectLevel_flat; [|exact Hx]. clear. revert ds. apply delegates_nested_ind.
  intros a s n IH i sigs Hc. cbn [collectDelegate] in Hc. inv_ok.
  apply (collectLevel_flat wanted n IH 0) in Hx1 as [-> Hn].
  cbn [flatDelegate]. rewrite signaturesNamed_under, formattable_under.
  by apply (node_and_below _ _ s [] _ _ eq_refl Hn).
Qed.

Lemma collectDelegates_total ds wanted : Forall formattable (flatDelegates ds) →
  ∃ sigs, collectDelegates ds wanted = Ok sigs.
Proof.
  unfold collectDelegates, flatDelegates.
  assert (Hl : ∀ ds, Forall (λ d, ∀ i, Forall formattable (flatDelegate i d) →
      is_ok (collectDelegate wanted d) = true) ds →
    ∀ j k, Forall formattable (concat (imap_from flatDelegate j ds)) →
    ∃ ls, imapM_from (λ _, collectDelegate wanted) k ds = Ok ls).
  { clear. induction 1 as [|d ds Hd _ IH]; intros j k; cbn [imapM_from imap_from concat]; [eauto|].
    intros [H1 H2]%Forall_app. apply Hd, is_ok_Ok in H1 as [sigs ->].
    destruct (IH (S j) (S k) H2) as [ls Hls]. cbn [mbind result_bind]. rewrite Hls. cbn. eauto. }
  assert (Hd : ∀ ds, Forall (λ d, ∀ i, Forall formattable (flatDelegate i d) →
      is_ok (collectDelegate wanted d) = true) ds).
  { clear ds. apply delegates_nested_ind. intros a s n IH i Hf.
    cbn [flatDelegate] in Hf. apply formattable_under in Hf. inversion Hf as [|? ? Ha Hn]; subst.
    cbn [collectDelegate]. destruct (Hl n IH 0 0 Hn) as [ls ->]. cbn.
    unfold wallet_sameAddress. unfold formattable in Ha. cbn in Ha. by destruct (FormatAddress a). }
  intros Hf. destruct (Hl ds (Hd ds) 0 0 Hf) as [ls ->]. cbn. eauto.
Qed.

Lemma collectSignature_flat a sig wanted ds p sigs : collectSignature a sig wanted ds = Ok sigs →
  sigs = signaturesNamed wanted (mkFlat a sig p :: flatDelegates ds) ∧
  Forall formattable (mkFlat a sig p :: flatDelegates ds).
Proof.
  unfold collectSignature. intros Hc. inv_ok. apply collectDelegates_flat in Hx as [-> Hn].
  by apply (node_and_below _ _ _ _ _ _ eq_refl Hn).
Qed.

Lemma collectSignature_total a sig wanted ds p :
  Forall formattable (mkFlat a sig p :: flatDelegates ds) →
  ∃ sigs, collectSignature a sig wanted ds = Ok sigs.
Proof.
  intros Hf. inversion Hf as [|? ? Ha Hn]; subst. unfold collectSignature.
  destruct (collectDelegates_total ds wanted Hn) as [l ->]. cbn.
  unfold wallet_sameAddress. unfold formattable in Ha. cbn in Ha.
  destruct (FormatAddress a); [cbn; eauto|done].
Qed.

(** The collected signatures are those of the view's nodes of that name. *)
Lemma signatureNodes_flat e wanted sigs : signatureNodes e wanted = Ok sigs →
  sigs = signaturesNamed wanted (flatNodes e) ∧ Forall formattable (flatNodes e).
Proof.
  unfold signatureNodes, flatNodes, addressCredentials, entryDelegates, is_delegates. intros Hs.
  destruct (Credentials_Type (Credentials e) =? CredentialsSourceAccount)%Z eqn:H0.
  { injection Hs as <-. by split. }
  destruct (Z.eqb_spec (Credentials_Type (Credentials e)) CredentialsAddress) as [->|_].
  { destruct (Credentials_Address _); [|done]. by apply (collectSignature_flat _ _ _ _ []) in Hs. }
  destruct (Z.eqb_spec (Credentials_Type (Credentials e)) CredentialsAddressV2) as [->|_].
  { destruct (Credentials_AddressV2 _); [|done]. by apply (collectSignature_flat _ _ _ _ []) in Hs. }
  destruct (_ =? CredentialsAddressWithDelegates)%Z; [|done].
  destruct (Credentials_AddressWithDelegates _); [|done]. by apply (collectSignature_flat _ _ _ _ []) in Hs.
Qed.

Lemma signatureNodes_total e wanted a : addressCredentials (Credentials e) = Ok a →
  Forall formattable (flatNodes e) → ∃ sigs, signatureNodes e wanted = Ok sigs.
Proof.
  unfold signatureNodes, flatNodes, addressCredentials, entryDelegates, is_delegates. intros Ha Hf.
  destruct (Credentials_Type (Credentials e) =? CredentialsSourceAccount)%Z eqn:H0; [done|].
  destruct (Z.eqb_spec (Credentials_Type (Credentials e)) CredentialsAddress) as [Ht|_].
  { rewrite Ht in Hf. inv_ok. rewrite Ha in *. by apply (collectSignature_total _ _ _ _ []). }
  destruct (Z.eqb_spec (Credentials_Type (Credentials e)) CredentialsAddressV2) as [Ht|_].
  { rewrite Ht in Hf. inv_ok. rewrite Ha in *. by apply (collectSignature_total _ _ _ _ []). }
  destruct (_ =? CredentialsAddressWithDelegates)%Z; [|done].
  destruct (Credentials_AddressWithDelegates _); [|done]. by apply (collectSignature_total _ _ _ _ []).
Qed.
End named.

(** ** Lemmas *)
Section wallet_lemmas.
Context `{SDK} `{!SDKLaws}.

(** The two readings of the account signature accept the same values. *)
Lemma walletFields_Ok fields pk sig r : walletFields fields pk sig = Ok r ↔ accountFields fields pk sig = Ok r.
Proof.
  revert pk sig. induction fields as [|[k v] fields IH]; intros pk sig; [done|].
  cbn [walletFields accountFields]. destruct k; try apply IH. destruct Sym as [sym|]; [|apply IH].
  destruct v; try done. destruct Bytes; [|done]. repeat case_bool_decide; apply IH.
Qed.

Lemma walletsdk_parse_Ok v r :
  walletsdk_parseAccountSignature v = Ok r ↔ parseAccountSignature v = Ok r.
Proof.
  assert (Herr : ∀ e e', Err e = Ok r ↔ Err e' = Ok r) by (intros; split; discriminate).
  unfold walletsdk_parseAccountSignature, parseAccountSignature.
  destruct v; try apply Herr. destruct Vec as [[[|x [|? ?]]|]|]; [apply Herr| |by destruct x; repeat case_match; apply Herr|apply Herr..].
  destruct x; try apply Herr.
  destruct Map as [[fields|]|]; try apply Herr.
  destruct (walletFields fields None None) as [[pk sig]|e] eqn:Hf.
  - apply walletFields_Ok in Hf as ->. cbn. destruct pk, sig; try apply Herr.
    unfold refuse. repeat (case_match; cbn); done || apply Herr.
  - destruct (accountFields fields None None) as [[pk sig]|e'] eqn:Ha; [|apply Herr].
    apply walletFields_Ok in Ha. by rewrite Ha in Hf.
Qed.

Lemma checkNode_Ok op kp raw payload i v :
  checkNode op kp raw payload i v = Ok tt ↔
  ∃ sig, parseAccountSignature v = Ok (raw, sig) ∧ is_ok (kp_Verify kp payload sig) = true.
Proof.
  unfold checkNode. split.
  - intros Hc. inv_ok. destruct x as [pk sig]. inv_ok. apply walletsdk_parse_Ok in Hx.
    apply negb_false_iff, bytes_Equal_spec in Hx0 as ->. exists sig. split; [done|].
    by destruct (kp_Verify kp payload sig).
  - intros (sig & Hp%walletsdk_parse_Ok & [u Hu]%is_ok_Ok). rewrite Hp. cbn.
    assert (bytes_Equal raw raw = true) as -> by by apply bytes_Equal_spec. cbn. by rewrite Hu.
Qed.

(** What the package's check of an entry checks. *)
Lemma walletsdk_VerifyEntry_spec e kp v pass :
  walletsdk_VerifyEntry e (SomeKeypair kp) v pass = Ok tt ↔
  ∃ raw pre payload sigs, rawEd25519Key (kp_Address kp) = Ok raw ∧ Preimage e v pass = Ok pre ∧
    Payload pre = Ok payload ∧ signatureNodes e (kp_Address kp) = Ok sigs ∧ sigs ≠ [] ∧
    Forall (λ val, ∃ sig, parseAccountSignature val = Ok (raw, sig) ∧
                     is_ok (kp_Verify kp payload sig) = true) sigs.
Proof.
  unfold walletsdk_VerifyEntry. split.
  - intros Hv. inv_ok. cbn [theKeypair] in Hx. injection Hx as <-. apply Nat.eqb_neq in Hx4.
    exists x0, x1, x2, x3. repeat (split; [done|]). split; [by intros ->|].
    apply Forall_lookup. intros i val Hi. apply (iterM_from_all _ _ _ Hv) in Hi.
    by apply checkNode_Ok in Hi.
  - intros (raw & pre & payload & sigs & Hr & Hpre & Hp & Hs & Hne & Hf). cbn [theKeypair mbind result_bind].
    rewrite Hr. cbn. rewrite Hpre. cbn. rewrite Hp. cbn. rewrite Hs. cbn.
    destruct (Nat.eqb_spec (length sigs) 0) as [Hl|_]; [by apply nil_length_inv in Hl|]. cbn.
    clear Hs Hne. generalize 0 at 1. induction Hf as [|val sigs Hval _ IH]; intros i; [done|]. cbn [iterM_from].
    apply (checkNode_Ok "walletsdk: verify entry" kp raw payload i) in Hval as ->. apply IH.
Qed.

(** A node whose text is an account's key is an account's node. *)
Lemma named_account e n kp raw : n ∈ flatNodes e → rawEd25519Key (kp_Address kp) = Ok raw →
  FormatAddress (flat_address n) = Ok (kp_Address kp) → ∃ id, flat_address n = ScAddressTypeAccount id.
Proof.
  unfold rawEd25519Key. intros _ Hr%wrap_Ok%strkey_Decode_Any Hf.
  destruct (flat_address n) as [id|[k|]|?|?|?|?]; try done; [eauto|]. cbn in Hf.
  apply wrap_Ok, strkey_Decode_Encode in Hf. congruence.
Qed.
End wallet_lemmas.

(** ** Theorems *)
Section wallet_theorems.
Context `{SDK} `{EnvelopeSDK} `{!SDKLaws} `{!XdrCodecLaws TransactionEnvelope}.

(** A key pair whose check is ed25519 under the key of its own address. *)
Definition faithful (kp : ed25519Keypair) : Prop := ∀ raw payload sig,
  rawEd25519Key (kp_Address kp) = Ok raw → is_ok (kp_Verify kp payload sig) = ed25519_Verify raw payload sig.

(** The library's verdict on a node named by a key's address. *)
Lemma named_verdict e n kp raw payload : n ∈ flatNodes e → rawEd25519Key (kp_Address kp) = Ok raw →
  FormatAddress (flat_address n) = Ok (kp_Address kp) →
  node_verdict n payload = VerdictVerified ↔
  ∃ pk sig, parseAccountSignature (flat_sig n) = Ok (pk, sig) ∧ ed25519_Verify pk payload sig = true.
Proof.
  intros Hn Hr Hf. destruct (named_account _ _ _ _ Hn Hr Hf) as [id Hid]. unfold node_verdict. rewrite Hid.
  split.
  - destruct (negb _); [done|]. destruct (parseAccountSignature _) as [[pk sig]|]; [|done].
    intros Hv. exists pk, sig. by destruct (ed25519_Verify pk payload sig).
  - intros (pk & sig & Hp & Hv). rewrite (parseAccountSignature_signed _ _ _ Hp). cbn. by rewrite Hp, Hv.
Qed.

(** The report's rows of an address are the view's nodes of that name. *)
Lemma report_named payload addr ns vs :
  Forall2 (λ n v, FormatAddress (flat_address n) = Ok (Verdict_Address v) ∧
             Verdict v = node_verdict n payload) ns vs →
  let rows := filter (λ node, Verdict_Address node = addr) vs in
  length rows = length (signaturesNamed addr ns) ∧ Forall formattable ns ∧
  (Forall (λ node, Verdict node = VerdictVerified) rows ↔
   ∀ n, n ∈ ns → FormatAddress (flat_address n) = Ok addr → node_verdict n payload = VerdictVerified).
Proof.
  intros Hf rows. induction Hf as [|n v ns vs [Hn Hv] _ (IHl & IHf & IHv)].
  { split_and!; [done|done|]. split; [by intros _ ? ?%not_elem_of_nil|constructor]. }
  assert (Hw : named addr n = String.eqb (Verdict_Address v) addr) by (unfold named; by rewrite Hn).
  unfold rows, signaturesNamed. cbn [omap list_omap]. rewrite Hw, filter_cons. clear rows.
  split_and!; [|constructor; [|done]; unfold formattable; by rewrite Hn|].
  - destruct (String.eqb_spec (Verdict_Address v) addr); destruct (decide _); try done. cbn. by f_equal.
  - setoid_rewrite elem_of_cons. destruct (decide _) as [Hd|Hd].
    + rewrite Forall_cons, IHv, Hv. split; [|naive_solver]. intros [? ?] m [->|Hm] ?; eauto.
    + rewrite IHv. split; [|naive_solver]. intros ? m [->|Hm] ?; [congruence|eauto].
Qed.

(** C31. The package's check of an entry is the library's report and one thing
    more: at the expiration stored in the entry it passes exactly when the
    report names the key's address at some node, gives every such node the
    verdict verified, and every such node's signature is made with the key of
    that address, which the report does not look at. *)
Theorem VerifyEntry_agrees e kp pass r :
  verifyEntry e pass = Ok r → is_source e = false → faithful kp →
  walletsdk_VerifyEntry e (SomeKeypair kp) (Report_ValidUntilLedger r) pass = Ok tt ↔
  ∃ raw, rawEd25519Key (kp_Address kp) = Ok raw ∧
    nodesForAddress r (kp_Address kp) ≠ [] ∧
    Forall (λ node, Verdict node = VerdictVerified) (nodesForAddress r (kp_Address kp)) ∧
    ∀ n, n ∈ flatNodes e → FormatAddress (flat_address n) = Ok (kp_Address kp) →
      ∃ sig, parseAccountSignature (flat_sig n) = Ok (raw, sig).
Proof.
  intros Hver Hsrc Hkp. rewrite walletsdk_VerifyEntry_spec.
  apply verifyEntry_Ok in Hver as (a & payload & Ha & Hown & _ & -> & _ & _ & Hf); [|done].
  unfold own_payload in Hown. rewrite Ha in Hown. cbn [mbind result_bind] in Hown. inv_ok.
  destruct (report_named payload (kp_Address kp) _ _ Hf) as (Hlen & Hfmt & Hrows). unfold nodesForAddress.
  assert (Hne : ∀ sigs,
      sigs = signaturesNamed (kp_Address kp) (flatNodes e) →
      sigs ≠ [] ↔ filter (λ node, Verdict_Address node = kp_Address kp) (Report_Nodes r) ≠ []).
  { intros sigs ->. rewrite <-!length_zero_iff_nil. by rewrite Hlen. }
  split.
  - intros (raw & pre & payload' & sigs & Hr & Hpre & Hp & [Hs _]%signatureNodes_flat & Hnil & Hall).
    rewrite Hx in Hpre. injection Hpre as <-. rewrite Hown in Hp. injection Hp as <-.
    exists raw. rewrite <-(Hne sigs), Hrows by done. rewrite Hs, Forall_forall in Hall.
    setoid_rewrite elem_of_signaturesNamed in Hall. split_and!; [done|done| |]; intros n Hn Hna;
      destruct (Hall (flat_sig n)) as (sig & Hsig & Hv); eauto.
    apply (named_verdict e n kp raw payload); try done. exists raw, sig. by rewrite <-(Hkp raw).
  - intros (raw & Hr & Hnil & Hall & Hkeys).
    destruct (signatureNodes_total e (kp_Address kp) a Ha Hfmt) as [sigs Hs].
    exists raw, x, payload, sigs. repeat (split; [done|]). apply signatureNodes_flat in Hs as [Hs _].
    rewrite (Hne sigs), Hs by done. split; [done|]. apply Forall_forall.
    intros v (n & Hn & Hna & <-)%elem_of_signaturesNamed. destruct (Hkeys n Hn Hna) as [sig Hsig].
    exists sig. split; [done|]. rewrite (Hkp raw) by done. rewrite Hrows in Hall.
    destruct (proj1 (named_verdict e n kp raw payload Hn Hr Hna) (Hall n Hn Hna)) as (pk & sig' & Hp & ?).
    rewrite Hsig in Hp. by injection Hp as -> ->.
Qed.

(** Signing with one signer: it is matched at a node of its own address. *)
Lemma filter_holds_one e s : filter (holds e) (omap id [Some s]) ≠ [] →
  filter (holds e) (omap id [Some s]) = [s] ∧ holds e s.
Proof.
  change (omap id [Some s]) with [s]. rewrite filter_cons, filter_nil.
  destruct (decide (holds e s)); [by split|done].
Qed.

Lemma walletSigner_Ok kp raw ctx pre payload w v w' :
  walletSigner_Sign (mkWalletSigner kp (kp_Address kp) raw) ctx pre payload w = (Ok v, w') →
  ∃ sig, v = scVec [accountSignature raw sig] ∧ length sig = 64 ∧ is_ok (kp_Verify kp payload sig) = true.
Proof.
  unfold walletSigner_Sign. intros Hs. inv_io. cbn in Hl. inv_ok.
  apply negb_false_iff, Nat.eqb_eq in Hx0. exists x. split; [done|]. split; [done|].
  by destruct (kp_Verify kp payload x).
Qed.

(** An entry signed with the key pair's signer passes the package's check. *)
Lemma signed_passes ctx e out kp s v pass : walletsdk_NewSigner (SomeKeypair kp) = Ok s →
  signed_by ctx v pass [Some s] e out →
  (∀ n, n ∈ flatNodes out → ∃ text, ParseAddress text = Ok (flat_address n)) →
  walletsdk_VerifyEntry out (SomeKeypair kp) v pass = Ok tt.
Proof.
  intros Hnew (Hne & sigs & Hc & ->) Hwf.
  destruct (filter_holds_one _ _ Hne) as (Hm & n0 & Hn0 & Ht). rewrite Hm in Hc.
  inversion Hc as [|? [t sig] ? ? [Hpa (pre & payload & w1 & w2 & Hpre & Hp & Hsig)] Hc']; subst.
  inversion Hc'; subst. cbn [fst snd] in *. cbn [signedWith foldl].
  unfold walletsdk_NewSigner in Hnew. inv_ok. cbn [theKeypair] in Hx. injection Hx as <-.
  cbn in Ht, Hpa, Hsig. rewrite Ht in Hpa. injection Hpa as <-.
  apply walletSigner_Ok in Hsig as (raw & -> & Hlen & Hv).
  unfold flatNodes in Hn0. destruct (addressCredentials (Credentials e)) as [a|] eqn:Ha; [|by apply not_elem_of_nil in Hn0].
  set (sg := scVec _) in *.
  destruct (signEntry_credentials (flat_address n0) sg v e a Ha) as (Ha' & _).
  pose proof (flatNodes_signEntry (flat_address n0) sg v e a Ha) as Hf.
  assert (Hwf' : ∀ n, n ∈ flatNodes e → ∃ text, ParseAddress text = Ok (flat_address n)).
  { intros n Hn. apply (Hwf (signFlat (flat_address n0) sg n)). cbn [signedWith foldl]. rewrite Hf.
    apply list_elem_of_fmap. by exists n. }
  clear Hwf. rename Hwf' into Hwf.
  assert (Hfmt : Forall formattable (flatNodes (signEntry (flat_address n0) sg v e))).
  { rewrite Hf. apply Forall_fmap, Forall_forall. intros n Hn. destruct (Hwf n Hn) as [text Htext].
    unfold formattable, compose. cbn. by rewrite (ParseAddress_Format_pre _ _ Htext). }
  destruct (signatureNodes_total _ (kp_Address kp) _ Ha' Hfmt) as [sigs Hs].
  apply walletsdk_VerifyEntry_spec. exists x0, pre, payload, sigs. split; [done|].
  rewrite (Preimage_signEntry _ _ _ _ a _ _ Ha). repeat (split; [done|]).
  apply signatureNodes_flat in Hs as [-> _]. rewrite Hf. split.
  - intros Hnil. apply (not_elem_of_nil (flat_sig (signFlat (flat_address n0) sg n0))). rewrite <-Hnil.
    apply elem_of_signaturesNamed. eexists. split; [|split; [|done]]; [|by apply ParseAddress_Format_pre].
    apply list_elem_of_fmap. exists n0. split; [done|]. unfold flatNodes. by rewrite Ha.
  - apply Forall_forall. intros ? (n & (m & -> & Hmn)%list_elem_of_fmap & Hna & <-)%elem_of_signaturesNamed.
    cbn in Hna |- *. destruct (Hwf m Hmn) as [text Htext].
    pose proof (ParseAddress_Format_pre _ _ Htext) as Hft. rewrite Hna in Hft. injection Hft as <-.
    rewrite Ht in Htext. injection Htext as Htext. rewrite decide_True by done. exists raw. split; [|done].
    apply parseAccountSignature_account; [|done]. apply rawEd25519Key_length in Hx0.
    apply ParseAddress_Ok in Ht as (k & Hk & [[Hd _]|[Hd _]]); congruence.
Qed.

(** The vectors a run returns hold signed entries and source entries. *)
Lemma authorizeVectors_signed ctx signers v pass vs k w outs w' :
  imapIO_from (λ _ auth, AuthorizeAll ctx auth signers v pass []) k vs w = (Ok outs, w') →
  ∀ out, out ∈ concat outs → is_source out = false → ∃ e, signed_by ctx v pass signers e out.
Proof.
  revert k w outs. induction vs as [|auth vs IH]; intros k w outs Hr.
  { injection Hr as <- <-. by intros out ?%not_elem_of_nil. }
  cbn [imapIO_from] in Hr. inv_io. intros out. cbn [concat]. intros [Ho|Ho]%elem_of_app Hsrc; [|by eapply IH].
  apply AuthorizeAll_Ok in Hx as [Hlen Hall]. apply list_elem_of_lookup in Ho as [i Hi].
  assert (is_Some (auth !! i)) as [e He].
  { apply lookup_lt_is_Some. apply lookup_lt_Some in Hi. congruence. }
  destruct (Hall i e He) as (out' & Hi' & Hs1 & Hs2). rewrite Hi in Hi'. injection Hi' as <-.
  destruct (is_source e) eqn:Hse; [rewrite Hs1 in Hsrc by done; congruence|].
  destruct (Hs2 eq_refl) as (e' & a & address & _ & _ & _ & Hsb). by exists e'.
Qed.

(** What [Sign] returns passes [VerifyEnvelope]: when every node's address
    has a text, every entry of the signed envelope that is not a source-account
    entry verifies under the very key pair, ledger and network it was signed
    with; and the envelope is handed out after [MarkEnforced] only. *)
Theorem Sign_VerifyEnvelope ctx env kp v pass w s w' :
  walletsdk_Sign ctx env kp v pass w = (Ok s, w') →
  (∀ le n, le ∈ Entries s → n ∈ flatNodes (located_Entry le) →
     ∃ text, ParseAddress text = Ok (flat_address n)) →
  VerifyEnvelope (Signed_envelope s) kp v pass = Ok tt ∧
  (∀ le, le ∈ Entries s → is_source (located_Entry le) = false →
     walletsdk_VerifyEntry (located_Entry le) kp v pass = Ok tt) ∧
  Signed_Envelope s = Err (EWrap "walletsdk: envelope" (ESentinel ErrEnforcePassMissing)) ∧
  Signed_Envelope (MarkEnforced s) = Ok (Signed_envelope s).
Proof.
  unfold walletsdk_Sign. intros Hs Hwf. inv_io. inv_ok. cbn [Entries Signed_envelope] in *.
  apply AuthorizeEnvelope_run in Hx1 as (ops & ops' & vs & _ & _ & Hvs & _ & Hops' & Hav & _).
  destruct kp as [|kp]; [done|].
  assert (Hpass : ∀ le, le ∈ x2 → is_source (located_Entry le) = false →
    walletsdk_VerifyEntry (located_Entry le) (SomeKeypair kp) v pass = Ok tt).
  { intros le Hle Hsrc. pose proof Hl as (ops2 & Hops2 & _ & Hmap & _)%EnvelopeEntries_Ok.
    rewrite Hops' in Hops2. injection Hops2 as <-. rewrite Hav in Hmap.
    edestruct authorizeVectors_signed as [e He]; [exact Hvs| |exact Hsrc|].
    - rewrite <-Hmap. apply list_elem_of_In, in_map, list_elem_of_In. exact Hle.
    - eapply signed_passes; [exact Hl0|exact He|]. intros n Hn. by eapply Hwf. }
  split_and!; [|exact Hpass|done|done].
  unfold VerifyEnvelope. rewrite Hl. cbn [wrap mbind result_bind].
  clear -Hpass. generalize 0. induction x2 as [|le les IH]; intros k; [done|]. cbn [iterM_from].
  destruct (is_source (located_Entry le)) eqn:Hs.
  - cbn. apply IH. intros le' Hle'. apply Hpass. by constructor.
  - rewrite Hpass by (done || constructor). cbn. apply IH. intros le' Hle'. apply Hpass. by constructor.
Qed.

(** The network a failure names is one of the list under which the entry
    verifies, and not the one that was asked for. *)
Lemma networkSignedFor_spec e except :
  networkSignedFor e except = "" ∨
  ∃ report, networkSignedFor e except ∈ freighterNetworks ∧ networkSignedFor e except ≠ except ∧
    verifyEntry e (networkSignedFor e except) = Ok report ∧ Verified report = true.
Proof.
  unfold networkSignedFor. destruct (List.find _ _) as [c|] eqn:Hf; [|by left]. right. cbn [default].
  apply find_some in Hf as [Hin [Hne Hv]%andb_true_iff]. apply list_elem_of_In in Hin.
  apply negb_true_iff, String.eqb_neq in Hne. destruct (verifyEntry e c) as [report|] eqn:Hr; [|done]. by exists report.
Qed.

Lemma freighterNodes_Ok signed pass nodes :
  iterM_from (λ _ node, freighterNode signed pass node) 0 nodes = Ok tt →
  Forall (λ node, Verdict node = VerdictVerified) nodes.
Proof.
  intros Hi. apply Forall_lookup. intros i node Hn. apply (iterM_from_all _ _ _ Hi) in Hn.
  unfold freighterNode in Hn. destruct (Verdict node); try done. cbv zeta in Hn. by case_match.
Qed.

(** An entry [SignViaFreighter] hands out was the wallet's answer to the
    request for the given entry, ledger, network and address, and has a node of
    that address; every such node of an account holds a signature that checks
    over the payload the returned entry commits to on that network. *)
Theorem SignViaFreighter_sound SafeUnmarshalBase64 ctx wallet entry v pass address w signed w' :
  SignViaFreighter SafeUnmarshalBase64 ctx wallet entry v pass address w = (Ok signed, w') →
  ∃ f encoded w1 w2 text payload, wallet = Some f ∧ MarshalBase64 entry = Ok encoded ∧
    f ctx (mkFreighterSignRequest encoded v pass address) w1 = (Ok text, w2) ∧
    SafeUnmarshalBase64 text = Ok signed ∧ own_payload signed pass = Ok payload ∧
    (∃ n, n ∈ flatNodes signed ∧ FormatAddress (flat_address n) = Ok address) ∧
    ∀ n, n ∈ flatNodes signed → FormatAddress (flat_address n) = Ok address →
      ∃ pk sig, parseAccountSignature (flat_sig n) = Ok (pk, sig) ∧ ed25519_Verify pk payload sig = true.
Proof.
  unfold SignViaFreighter. intros Hs. inv_io. destruct x2 as [text|e]; [|by destruct (_ || _)].
  injection Hl2 as ->. inv_ok. unfold VerifyEntry, VerifyEntryContext in Hx5. inv_io.
  apply freighterNodes_Ok in Hl. apply Nat.eqb_neq in Hl0. rename Hl2 into Hver.
  assert (Hsrc : is_source signed = false).
  { destruct (is_source signed) eqn:Hs; [|done]. exfalso. unfold is_source in Hs. unfold verifyEntry in Hver.
    rewrite Hs in Hver. by injection Hver as <-. }
  apply verifyEntry_Ok in Hver as (a & payload & _ & Hown & _ & _ & _ & _ & Hf); [|done].
  destruct (report_named payload address _ _ Hf) as (Hlen & _ & Hrows).
  unfold nodesForAddress in *. rewrite Hlen in Hl0.
  eexists _, _, _, _, _, payload. repeat (split; [done|]). split.
  - destruct (signaturesNamed address (flatNodes signed)) as [|sig l] eqn:Hs; [done|].
    destruct (proj1 (elem_of_signaturesNamed address (flatNodes signed) sig)) as (n & ? & ? & _); [|eauto].
    rewrite Hs. by constructor.
  - intros n Hn Hna. pose proof (proj1 Hrows Hl n Hn Hna) as Hv. unfold node_verdict in Hv.
    destruct (flat_address n); try done. destruct (negb _); [done|].
    destruct (parseAccountSignature _) as [[pk sig]|]; [|done]. exists pk, sig. split; [done|].
    by destruct (ed25519_Verify pk payload sig).
Qed.
End wallet_theorems.

(** ** Concrete wallets *)
Definition ex_wallet (b : Byte.byte) : Keypair := SomeKeypair (ex_keypair b).

Lemma ex_keypair_faithful b : faithful (ex_keypair b).
Proof.
  intros raw payload sig Hr. cbn in Hr.
  assert (raw = ex_key b) as ->.
  { unfold rawEd25519Key in Hr. apply wrap_Ok, strkey_Decode_Any in Hr. cbn in Hr.
    injection Hr as <-. unfold ex_text. apply bytes_of_string_of_bytes. }
  cbn. unfold model_ed25519_Verify. by destruct (bytes_Equal _ _).
Qed.

Lemma VerifyEntry_agrees_witness :
  walletsdk_VerifyEntry ex_v2_signed (ex_wallet "a") (Report_ValidUntilLedger ex_v2_report) ex_network = Ok tt ∧
  (walletsdk_VerifyEntry ex_v2_signed (ex_wallet "a") (Report_ValidUntilLedger ex_v2_report) ex_network = Ok tt ↔
   ∃ raw, rawEd25519Key (kp_Address (ex_keypair "a")) = Ok raw ∧
    nodesForAddress ex_v2_report (kp_Address (ex_keypair "a")) ≠ [] ∧
    Forall (λ node, Verdict node = VerdictVerified) (nodesForAddress ex_v2_report (kp_Address (ex_keypair "a"))) ∧
    ∀ n, n ∈ flatNodes ex_v2_signed → FormatAddress (flat_address n) = Ok (kp_Address (ex_keypair "a")) →
      ∃ sig, parseAccountSignature (flat_sig n) = Ok (raw, sig)).
Proof.
  split; [vm_compute; reflexivity|].
  apply (VerifyEntry_agrees ex_v2_signed (ex_keypair "a") ex_network ex_v2_report).
  - vm_compute. reflexivity.
  - reflexivity.
  - apply ex_keypair_faithful.
Defined.

Definition ex_wallet_signed : Signed :=
  match walletsdk_Sign Background ex_envelope (ex_wallet "a") 1000 ex_network initial_world with
  | (Ok s, _) => s
  | _ => mkSigned ex_envelope [] false
  end.

Lemma Sign_VerifyEnvelope_witness :
  length (Entries ex_wallet_signed) = 2 ∧
  VerifyEnvelope (Signed_envelope ex_wallet_signed) (ex_wallet "a") 1000 ex_network = Ok tt ∧
  (∀ le, le ∈ Entries ex_wallet_signed → is_source (located_Entry le) = false →
     walletsdk_VerifyEntry (located_Entry le) (ex_wallet "a") 1000 ex_network = Ok tt) ∧
  Signed_Envelope ex_wallet_signed = Err (EWrap "walletsdk: envelope" (ESentinel ErrEnforcePassMissing)) ∧
  Signed_Envelope (MarkEnforced ex_wallet_signed) = Ok (Signed_envelope ex_wallet_signed).
Proof.
  split; [vm_compute; reflexivity|].
  assert (Hrun : ∃ w', walletsdk_Sign Background ex_envelope (ex_wallet "a") 1000 ex_network initial_world =
    (Ok ex_wallet_signed, w')) by (eexists; vm_compute; reflexivity).
  destruct Hrun as [w' Hrun].
  apply (Sign_VerifyEnvelope _ _ _ _ _ _ _ _ Hrun).
  assert (Hall : Forall (λ le, Forall (λ n, flat_address n = ex_account "a") (flatNodes (located_Entry le)))
    (Entries ex_wallet_signed)).
  { vm_compute. repeat constructor. }
  intros le n Hle Hn. rewrite Forall_forall in Hall. specialize (Hall le Hle). rewrite Forall_forall in Hall.
  rewrite (Hall n Hn). exists (ex_text "a"). vm_compute. reflexivity.
Defined.

(** A base64 decoder, and an extension that answers with a given entry. *)
Definition ex_Unmarshal (text : string) : result SorobanAuthorizationEntry :=
  raw ← decodeBase64 text; UnmarshalBinary raw.
Definition ex_freighter (e : SorobanAuthorizationEntry) : FreighterWallet := λ _ _, lift (MarshalBase64 e).
Definition ex_asked : SorobanAuthorizationEntry := ex_v2 "a" 0 ScvVoid.
Definition ex_via (e : SorobanAuthorizationEntry) (pass : string) : result SorobanAuthorizationEntry :=
  (SignViaFreighter ex_Unmarshal Background (Some (ex_freighter e)) ex_asked 1000 pass (ex_text "a") initial_world).1.

Lemma SignViaFreighter_sound_witness :
  ∃ f encoded w1 w2 text payload, Some (ex_freighter ex_v2_signed) = Some f ∧ MarshalBase64 ex_asked = Ok encoded ∧
    f Background (mkFreighterSignRequest encoded 1000 ex_network (ex_text "a")) w1 = (Ok text, w2) ∧
    ex_Unmarshal text = Ok ex_v2_signed ∧ own_payload ex_v2_signed ex_network = Ok payload ∧
    (∃ n, n ∈ flatNodes ex_v2_signed ∧ FormatAddress (flat_address n) = Ok (ex_text "a")) ∧
    ∀ n, n ∈ flatNodes ex_v2_signed → FormatAddress (flat_address n) = Ok (ex_text "a") →
      ∃ pk sig, parseAccountSignature (flat_sig n) = Ok (pk, sig) ∧ ed25519_Verify pk payload sig = true.
Proof.
  assert (Hrun : ∃ w', SignViaFreighter ex_Unmarshal Background (Some (ex_freighter ex_v2_signed)) ex_asked 1000
    ex_network (ex_text "a") initial_world = (Ok ex_v2_signed, w')) by (eexists; vm_compute; reflexivity).
  destruct Hrun as [w' Hrun]. exact (SignViaFreighter_sound _ _ _ _ _ _ _ _ _ _ Hrun).
Defined.

(** The wallet may answer with any entry of that address that verifies: another
    expiration and nonce than were asked for, and a key that is not the
    address's.  The package's own check refuses that key. *)
Definition ex_other : SorobanAuthorizationEntry :=
  let e sig := mkEntry (mkCredentials CredentialsAddressV2 None
    (Some (mkAddressCredentials (ex_account "a") 7 2000 sig)) None) (mkInvocation (FunctionContractFn
      (Some (mkInvokeContractArgs (ex_contract "e") "drain" []))) []) in
  match own_payload (e ScvVoid) ex_network with
  | Ok payload => e (ex_account_signature (ex_key "q") (payload ++ ex_key "q"))
  | Err _ => e ScvVoid
  end.
Example ex_freighter_other : ex_via ex_other ex_network = Ok ex_other ∧
  (∃ e, walletsdk_VerifyEntry ex_other (ex_wallet "a") 2000 ex_network = Err e ∧
        errors_Is e ErrSignatureNotByKey = true).
Proof. split; [vm_compute; reflexivity|eexists; split; vm_compute; reflexivity]. Qed.

(** A wallet on another network is named when the network is one of the list. *)
Example ex_freighter_networks :
  (∃ e, ex_via ex_v2_signed "Public Global Stellar Network ; September 2015" = Err e ∧
        errors_Is e ErrWalletWrongNetwork = true) ∧
  (∃ e, ex_via ex_asked ex_network = Err e ∧ errors_Is e ErrUnreadableSignature = true).
Proof. split; eexists; split; vm_compute; reflexivity. Qed.

(** An empty vector is no signature to [Inspect], and one to [Requirements]. *)
Definition ex_empty_vector : TransactionEnvelope :=
  EnvelopeTypeTx (Some (mkTransactionArm (mkTransaction [] [mkOperation [] (OperationInvokeHostFunction
    (Some (mkInvokeHostFunctionOp [] [ex_v2 "a" 0 (ScvVec (Some (Some [])))])))]) [])).
Example ex_requirements :
  (rs ← Requirements ex_empty_vector (ex_text "a");
   Ok (map (λ r, (Wanted r, Requirement_Signed r, Info_TopLevelSigned (Requirement_EntryInfo r))) rs))
  = Ok [(true, true, false)].
Proof. vm_compute. reflexivity. Qed.
