(* ===== verification/CliSpec.v ===== *)
(** * CliSpec: the command line's table of commands and flags
    (cmd/soroauth/completions.go, verbosity.go, json_error.go)

    [commandSpecs] is the table the completion scripts, the flag splitting and
    the error reports are made from.  The theorems show what is computed from
    it: the union of the value flags ([aggregateSpecs_union]), the words a
    shell reads back from a quoted text ([zshQuote_reads], [fishQuote_reads]),
    what the dispatcher takes out of the arguments ([splitVerbosity_once]) and
    which flag an error message is filed under ([fieldForMessage_spec]). *)
From Stdlib Require Import ZArith Lia String Ascii.
From stdpp Require Import base list strings gmap.
From S2P Require Import Prelude Encoding Errors.

Open Scope string_scope. Open Scope nat_scope. Open Scope list_scope.

(** ** The table *)
Inductive dynamicCompletion := dynamicNone | dynamicEntryAddresses.

#[export] Instance dynamicCompletion_eq_dec : EqDecision dynamicCompletion.
Proof. solve_decision. Defined.

Definition namedNetworks : list string := ["testnet"; "futurenet"; "public"].

Record flagSpec := mkFlagSpec {
  Flag_Name : string;
  Flag_Description : string;
  TakesValue : bool;
  Values : list string;
  Dynamic : dynamicCompletion
}.

Record commandSpec := mkCommandSpec {
  Command_Name : string;
  Command_Description : string;
  Flags : list flagSpec
}.

(** The literal of the source, before [init] adds the verbosity flags. *)
Definition completionSpecs : list commandSpec :=
  [
   mkCommandSpec "payload" "print the signing preimage and payload hash for an entry"
     [
      mkFlagSpec "config" "path to CLI configuration file"
        true [] dynamicNone;
      mkFlagSpec "entry" "authorization entry or transaction envelope, as base64 XDR"
        true [] dynamicNone;
      mkFlagSpec "valid-until" "the last ledger at which the signature is valid"
        true [] dynamicNone;
      mkFlagSpec "valid-for" "the signature lifetime in ledgers, resolved against the current ledger (needs --rpc-url)"
        true [] dynamicNone;
      mkFlagSpec "rpc-url" "RPC endpoint used to resolve --valid-for (default $SOROAUTH_RPC_URL)"
        true [] dynamicNone;
      mkFlagSpec "network" "testnet, futurenet, public, or a literal network passphrase"
        true namedNetworks dynamicNone;
      mkFlagSpec "json" "output as JSON"
        false [] dynamicNone];
   mkCommandSpec "sign" "sign an entry with a seed read from an environment variable"
     [
      mkFlagSpec "config" "path to CLI configuration file"
        true [] dynamicNone;
      mkFlagSpec "entry" "authorization entry or transaction envelope, as base64 XDR"
        true [] dynamicNone;
      mkFlagSpec "entries" "a file of entries to sign, one base64 entry per line, or - for stdin"
        true [] dynamicNone;
      mkFlagSpec "valid-until" "the last ledger at which the signature is valid"
        true [] dynamicNone;
      mkFlagSpec "valid-for" "the signature lifetime in ledgers, resolved against the current ledger (needs --rpc-url)"
        true [] dynamicNone;
      mkFlagSpec "rpc-url" "RPC endpoint used to resolve --valid-for (default $SOROAUTH_RPC_URL)"
        true [] dynamicNone;
      mkFlagSpec "network" "testnet, futurenet, public, or a literal network passphrase"
        true namedNetworks dynamicNone;
      mkFlagSpec "secret-env" "name of the environment variable holding the seed"
        true [] dynamicNone;
      mkFlagSpec "assertion" "path to a WebAuthn assertion JSON file, or - for stdin"
        true [] dynamicNone;
      mkFlagSpec "signer-cmd" "path to an external signer executable speaking the remote protocol over stdin/stdout"
        true [] dynamicNone;
      mkFlagSpec "signer-timeout" "timeout for the external signer executable"
        true [] dynamicNone;
      mkFlagSpec "for" "credential node to sign, when it is not the signer's own address"
        true [] dynamicEntryAddresses;
      mkFlagSpec "json" "output as JSON"
        false [] dynamicNone];
   mkCommandSpec "simulate" "run the record pass and print what the host recorded"
     [
      mkFlagSpec "entry" "the transaction envelope to simulate, as base64 XDR"
        true [] dynamicNone;
      mkFlagSpec "rpc-url" "RPC endpoint to simulate against (default $SOROAUTH_RPC_URL)"
        true [] dynamicNone;
      mkFlagSpec "use-upgraded-auth" "ask the host to record the address-bound V2 arm (best-effort)"
        false [] dynamicNone;
      mkFlagSpec "timeout" "how long to wait for the simulation"
        true [] dynamicNone;
      mkFlagSpec "json" "output as JSON"
        false [] dynamicNone];
   mkCommandSpec "submit" "enforce, sign, send and poll a transaction"
     [
      mkFlagSpec "entry" "the signed transaction envelope, as base64 XDR"
        true [] dynamicNone;
      mkFlagSpec "network" "testnet, futurenet, public, or a literal network passphrase"
        true [] dynamicNone;
      mkFlagSpec "secret-env" "name of the environment variable holding the source account's seed"
        true [] dynamicNone;
      mkFlagSpec "rpc-url" "RPC endpoint to submit to (default $SOROAUTH_RPC_URL)"
        true [] dynamicNone;
      mkFlagSpec "allow-unsigned" "submit even though an address entry is unsigned (the host will refuse it)"
        false [] dynamicNone;
      mkFlagSpec "timeout" "how long to wait for the enforcing pass, the send and the poll"
        true [] dynamicNone;
      mkFlagSpec "json" "output as JSON"
        false [] dynamicNone];
   mkCommandSpec "delegates" "wrap an entry in a delegated-signer credential"
     [
      mkFlagSpec "config" "path to CLI configuration file"
        true [] dynamicNone;
      mkFlagSpec "entry" "the authorization entry, as base64 XDR"
        true [] dynamicNone;
      mkFlagSpec "valid-until" "the last ledger at which the signatures are valid"
        true [] dynamicNone;
      mkFlagSpec "valid-for" "the signature lifetime in ledgers, resolved against the current ledger (needs --rpc-url)"
        true [] dynamicNone;
      mkFlagSpec "rpc-url" "RPC endpoint used to resolve --valid-for (default $SOROAUTH_RPC_URL)"
        true [] dynamicNone;
      mkFlagSpec "delegate" "a delegate address; repeat for several"
        true [] dynamicEntryAddresses;
      mkFlagSpec "nested-json" "JSON string defining nested delegate tree"
        true [] dynamicNone;
      mkFlagSpec "json" "output as JSON"
        false [] dynamicNone];
   mkCommandSpec "explain-error" "explain what a host/RPC error means for an authorization entry"
     [
      mkFlagSpec "entry" "authorization entry or transaction envelope, as base64 XDR"
        true [] dynamicNone;
      mkFlagSpec "network" "testnet, futurenet, public, or a literal network passphrase"
        true namedNetworks dynamicNone;
      mkFlagSpec "json" "output as JSON"
        false [] dynamicNone];
   mkCommandSpec "inspect" "print an entry's structure as JSON"
     [
      mkFlagSpec "config" "path to CLI configuration file"
        true [] dynamicNone;
      mkFlagSpec "entry" "the authorization entry or transaction envelope, as base64 XDR"
        true [] dynamicNone;
      mkFlagSpec "entries" "a file of entries to inspect, one base64 entry per line, or - for stdin"
        true [] dynamicNone;
      mkFlagSpec "json" "output as JSON (default)"
        false [] dynamicNone;
      mkFlagSpec "text" "output as human-readable text using EntryInfo.String()"
        false [] dynamicNone];
   mkCommandSpec "tree" "render an entry's delegate tree as ASCII, DOT, or JSON"
     [
      mkFlagSpec "config" "path to CLI configuration file"
        true [] dynamicNone;
      mkFlagSpec "entry" "the authorization entry or transaction envelope, as base64 XDR"
        true [] dynamicNone;
      mkFlagSpec "format" "tree rendering: ascii or dot"
        true ["ascii"; "dot"] dynamicNone;
      mkFlagSpec "json" "output structured JSON instead of a rendering"
        false [] dynamicNone];
   mkCommandSpec "tui" "interactive TUI for inspecting and signing an entry"
     [
      mkFlagSpec "config" "path to CLI configuration file"
        true [] dynamicNone;
      mkFlagSpec "entry" "base64-encoded authorization entry (required)"
        true [] dynamicNone;
      mkFlagSpec "valid-until" "signature expiration ledger (required)"
        true [] dynamicNone;
      mkFlagSpec "network" "testnet, futurenet, public, or a literal passphrase (required)"
        true namedNetworks dynamicNone;
      mkFlagSpec "secret-env" "name of environment variable holding the secret seed (required)"
        true [] dynamicNone;
      mkFlagSpec "for" "target address to sign for (optional)"
        true [] dynamicEntryAddresses];
   mkCommandSpec "doctor" "check the local environment for common first-run problems"
     [
      mkFlagSpec "config" "path to CLI configuration file"
        true [] dynamicNone;
      mkFlagSpec "network" "testnet, futurenet, public, or a literal network passphrase"
        true namedNetworks dynamicNone;
      mkFlagSpec "rpc-url" "URL to check network reachability against"
        true [] dynamicNone;
      mkFlagSpec "secret-env" "name of an environment variable holding the signing seed; checked for presence and key control"
        true [] dynamicNone;
      mkFlagSpec "address" "account the signer is meant to sign for"
        true [] dynamicNone;
      mkFlagSpec "format" "output format: text or json"
        true ["text"; "json"] dynamicNone;
      mkFlagSpec "timeout" "timeout for the network check"
        true [] dynamicNone;
      mkFlagSpec "json" "output as JSON"
        false [] dynamicNone];
   mkCommandSpec "cross-compile" "build soroauth for multiple targets"
     [
      mkFlagSpec "json" "emit results as JSON (one object per line)"
        false [] dynamicNone;
      mkFlagSpec "targets" "comma-separated GOOS/GOARCH pairs (default: all)"
        true [] dynamicNone;
      mkFlagSpec "output-dir" "directory to write binaries (default: stdout only)"
        true [] dynamicNone];
   mkCommandSpec "verify" "check an entry's signatures without submitting it"
     [
      mkFlagSpec "config" "path to CLI configuration file"
        true [] dynamicNone;
      mkFlagSpec "entry" "the authorization entry or transaction envelope, as base64 XDR"
        true [] dynamicNone;
      mkFlagSpec "entries" "a file of entries to verify, one base64 entry per line, or - for stdin"
        true [] dynamicNone;
      mkFlagSpec "network" "testnet, futurenet, public, or a literal network passphrase"
        true namedNetworks dynamicNone;
      mkFlagSpec "valid-until" "assert the expiration the entry carries (optional)"
        true [] dynamicNone;
      mkFlagSpec "allow-unsigned" "accept unsigned nodes (a Void top-level node of a delegates entry is legitimate under CAP-71-01)"
        false [] dynamicNone;
      mkFlagSpec "json" "output as JSON"
        false [] dynamicNone];
   mkCommandSpec "diff" "compare two entries and report what changed"
     [
      mkFlagSpec "config" "path to CLI configuration file"
        true [] dynamicNone;
      mkFlagSpec "before" "the first authorization entry, as base64 XDR"
        true [] dynamicNone;
      mkFlagSpec "after" "the second authorization entry, as base64 XDR"
        true [] dynamicNone;
      mkFlagSpec "before-entries" "a file of entries to compare, one base64 entry per line, or - for stdin; paired with --after-entries"
        true [] dynamicNone;
      mkFlagSpec "after-entries" "a file of entries to compare, one base64 entry per line, or - for stdin; paired with --before-entries"
        true [] dynamicNone;
      mkFlagSpec "json" "output as JSON"
        false [] dynamicNone];
   mkCommandSpec "completions" "emit a shell completion script"
     [
      mkFlagSpec "shell" "which shell: bash, zsh, or fish"
        true ["bash"; "zsh"; "fish"] dynamicNone;
      mkFlagSpec "json" "output as JSON"
        false [] dynamicNone];
   mkCommandSpec "man" "emit a roff man page"
     [
      mkFlagSpec "out" "write the page to this path instead of stdout"
        true [] dynamicNone;
      mkFlagSpec "json" "output as JSON"
        false [] dynamicNone];
   mkCommandSpec "wasm-budget" "measure the wasm core against a size ceiling"
     [
      mkFlagSpec "out" "path to the wasm artifact to measure"
        true [] dynamicNone;
      mkFlagSpec "budget" "maximum allowed size in bytes"
        true [] dynamicNone;
      mkFlagSpec "prev-size" "previous release's size, for a delta"
        true [] dynamicNone;
      mkFlagSpec "build-cmd" "command to build the artifact before measuring"
        true [] dynamicNone;
      mkFlagSpec "json" "output the result as JSON"
        false [] dynamicNone]].

Definition quietFlagUsage : string := "print nothing on success; the exit code is the result".
Definition verboseFlagUsage : string :=
  "explain the verdict on stderr without printing the entry or a secret".

Definition verbosityFlags : list flagSpec :=
  [mkFlagSpec "quiet" quietFlagUsage false [] dynamicNone;
   mkFlagSpec "verbose" verboseFlagUsage false [] dynamicNone].

(** [init] *)
Definition withVerbosityFlags (spec : commandSpec) : commandSpec :=
  mkCommandSpec (Command_Name spec) (Command_Description spec) (Flags spec ++ verbosityFlags).
Definition commandSpecs : list commandSpec := map withVerbosityFlags completionSpecs.

Definition findCommandSpec (name : string) : option commandSpec :=
  List.find (λ spec, String.eqb (Command_Name spec) name) commandSpecs.

Definition commandNames : list string := map Command_Name commandSpecs ++ ["help"].

(** ** completions.go: the union of the value flags *)
(** [byName] and [order] in one list, in the order of first occurrence. *)
Definition addValues (existing : flagSpec) (values : list string) : flagSpec :=
  mkFlagSpec (Flag_Name existing) (Flag_Description existing) (TakesValue existing)
    (foldl (λ vs v, if bool_decide (v ∈ vs) then vs else vs ++ [v]) (Values existing) values)
    (Dynamic existing).

Fixpoint aggregateFlag (f : flagSpec) (acc : list flagSpec) : list flagSpec :=
  match acc with
  | [] => [mkFlagSpec (Flag_Name f) "" false (Values f) (Dynamic f)]
  | existing :: acc =>
      if String.eqb (Flag_Name existing) (Flag_Name f) then addValues existing (Values f) :: acc
      else existing :: aggregateFlag f acc
  end.

Definition completesValue (f : flagSpec) : bool :=
  negb (Nat.eqb (length (Values f)) 0) || negb (bool_decide (Dynamic f = dynamicNone)).

Definition aggregateSpecs (specs : list commandSpec) : list flagSpec :=
  foldl (λ acc f, if completesValue f then aggregateFlag f acc else acc) []
    (concat (map Flags specs)).

Definition aggregateValueFlags : list flagSpec := aggregateSpecs commandSpecs.

(** ** completions.go: quoting *)
Definition apostrophe : ascii := "'".
Definition backslash : ascii := "\".

(** [strings.ReplaceAll] of one character. *)
Fixpoint replaceChar (c : ascii) (by_ : string) (s : string) : string :=
  match s with
  | EmptyString => EmptyString
  | String d s => (if Ascii.eqb d c then by_ else String d EmptyString) +:+ replaceChar c by_ s
  end.

Definition zshQuote (s : string) : string := "'" +:+ replaceChar apostrophe "'\''" s +:+ "'".
Definition fishQuote (s : string) : string := "'" +:+ replaceChar apostrophe "\'" s +:+ "'".

(** ** verbosity.go *)
Record verbosity := mkVerbosity { quiet : bool; verbose : bool }.

(** [strings.Cut(s, "=")] *)
Fixpoint cutEquals (s : string) : string * string * bool :=
  match s with
  | EmptyString => ("", "", false)
  | String c s' =>
      if Ascii.eqb c "=" then ("", s', true)
      else let '(before, after, found) := cutEquals s' in (String c before, after, found)
  end.

(** [strconv.ParseBool] *)
Definition ParseBool (s : string) : option bool :=
  if bool_decide (s ∈ ["1"; "t"; "T"; "TRUE"; "true"; "True"]) then Some true
  else if bool_decide (s ∈ ["0"; "f"; "F"; "FALSE"; "false"; "False"]) then Some false
  else None.

Definition ExitUsageError : Z := 2.
(** [newErrorf] with a text, and with a text around an error ([%w]). *)
Definition newErrorf (exitCode : Z) (e : error) : error := ETyped (cliError exitCode) e.
Definition usageError (text : string) : error := newErrorf ExitUsageError (EText text).

Definition parseVerbosityValue (value : string) (hasValue : bool) (name : string) : result bool :=
  if negb hasValue then Ok true
  else of_option (ParseBool value)
         (usageError (name +:+ " expects true or false, got " +:+ quoted value)).

Definition takesValue (spec : option commandSpec) (name : string) : bool :=
  match spec with
  | Some spec => existsb (λ f, String.eqb ("--" +:+ Flag_Name f) name && TakesValue f) (Flags spec)
  | None => false
  end.

(** The loop over the arguments; an argument may take the next one along. *)
Fixpoint splitLoop (spec : option commandSpec) (args : list string) (level : verbosity)
    : result (list string * verbosity) :=
  match args with
  | [] => Ok ([], level)
  | arg :: rest =>
      if String.eqb arg "--" then Ok (arg :: rest, level)
      else
        let '(name, value, hasValue) := cutEquals arg in
        if String.eqb name "--quiet" then
          parsed ← parseVerbosityValue value hasValue "--quiet";
          splitLoop spec rest (mkVerbosity parsed (verbose level))
        else
          level ← (if String.eqb name "--verbose" then
                     parsed ← parseVerbosityValue value hasValue "--verbose";
                     Ok (mkVerbosity (quiet level) parsed)
                   else Ok level);
          match rest with
          | next :: rest' =>
              if takesValue spec name && negb hasValue then
                '(cleaned, level) ← splitLoop spec rest' level;
                Ok (arg :: next :: cleaned, level)
              else
                '(cleaned, level) ← splitLoop spec rest level;
                Ok (arg :: cleaned, level)
          | [] => Ok ([arg], level)
          end
  end.

Definition splitVerbosity (command : string) (args : list string) : result (list string * verbosity) :=
  '(cleaned, level) ← splitLoop (findCommandSpec command) args (mkVerbosity false false);
  _ ← refuse (quiet level && verbose level)
        (usageError "--quiet and --verbose are mutually exclusive");
  Ok (cleaned, level).

(** ** json_error.go: the flag an error is about *)
Definition flagChar (c : ascii) : bool :=
  let n := nat_of_ascii c in
  (Nat.leb 97 n && Nat.leb n 122) || (Nat.leb 65 n && Nat.leb n 90) ||
  (Nat.leb 48 n && Nat.leb n 57) || Nat.eqb n 45.

(** The first occurrence of a flag's name is looked at, and what follows it. *)
Definition mentions (message name : string) : bool :=
  match String.index 0 name message with
  | Some at_ =>
      match String.get (at_ + String.length name) message with
      | None => true
      | Some c => negb (flagChar c)
      end
  | None => false
  end.

Definition fieldForMessage (message : string) : string :=
  match List.find (mentions message) (map (λ f, "--" +:+ Flag_Name f) (concat (map Flags commandSpecs))) with
  | Some name => name
  | None => ""
  end.

Definition as_inputFieldError (e : error) : option string :=
  match e with ETyped (inputFieldError field) _ => Some field | _ => None end.

Definition fieldForError (err : option error) : string :=
  match err with
  | None => ""
  | Some e =>
      match errors_As as_inputFieldError e with
      | Some field => field
      | None => fieldForMessage (Error e)
      end
  end.

Definition withField (field : string) (err : option error) : option error :=
  ETyped (inputFieldError field) <$> err.

(** ** Reading a quoted word back *)
(** A word of a POSIX shell (and of zsh): what it stands for when it is one
    word of plain characters, escapes and single-quoted parts. *)
Fixpoint posixWord (quotes : bool) (s : string) : option string :=
  match s with
  | EmptyString => if quotes then None else Some ""
  | String c s' =>
      if quotes then
        if Ascii.eqb c apostrophe then posixWord false s' else String c <$> posixWord true s'
      else if Ascii.eqb c apostrophe then posixWord true s'
      else if Ascii.eqb c backslash then
        match s' with String d s'' => String d <$> posixWord false s'' | EmptyString => None end
      else if Ascii.eqb c " " then None
      else String c <$> posixWord false s'
  end.

(** A word of fish: inside single quotes a backslash escapes an apostrophe and
    a backslash. *)
Fixpoint fishWord (quotes : bool) (s : string) : option string :=
  match s with
  | EmptyString => if quotes then None else Some ""
  | String c s' =>
      if quotes then
        if Ascii.eqb c apostrophe then fishWord false s'
        else if Ascii.eqb c backslash then
          match s' with
          | String d s'' =>
              if Ascii.eqb d apostrophe || Ascii.eqb d backslash then String d <$> fishWord true s''
              else String c <$> fishWord true s'
          | EmptyString => None
          end
        else String c <$> fishWord true s'
      else if Ascii.eqb c apostrophe then fishWord true s'
      else if Ascii.eqb c backslash then
        match s' with String d s'' => String d <$> fishWord false s'' | EmptyString => None end
      else if Ascii.eqb c " " then None
      else String c <$> fishWord false s'
  end.

Fixpoint hasChar (c : ascii) (s : string) : bool :=
  match s with EmptyString => false | String d s => Ascii.eqb d c || hasChar c s end.

Lemma posixWord_quoted s : posixWord true (replaceChar apostrophe "'\''" s +:+ "'") = Some s.
Proof.
  induction s as [|c s IH]; [done|]. cbn [replaceChar].
  destruct (Ascii.eqb_spec c apostrophe) as [->|Hc].
  - transitivity (String apostrophe <$> posixWord true (replaceChar apostrophe "'\''" s +:+ "'"));
      [reflexivity|by rewrite IH].
  - apply Ascii.eqb_neq in Hc.
    transitivity (if Ascii.eqb c apostrophe then posixWord false (replaceChar apostrophe "'\''" s +:+ "'")
                  else String c <$> posixWord true (replaceChar apostrophe "'\''" s +:+ "'"));
      [reflexivity|by rewrite Hc, IH].
Qed.

Lemma zshQuote_reads s : posixWord false (zshQuote s) = Some s.
Proof. apply posixWord_quoted. Qed.

(** fish's quoting leaves backslashes alone, so the text must have none; the
    texts of the table have none. *)
Lemma fishWord_quoted s : hasChar backslash s = false →
  fishWord true (replaceChar apostrophe "\'" s +:+ "'") = Some s.
Proof.
  induction s as [|c s IH]; [done|]. cbn [hasChar replaceChar].
  intros [Hb Hs]%orb_false_iff. specialize (IH Hs).
  destruct (Ascii.eqb_spec c apostrophe) as [->|Hc].
  - transitivity (String apostrophe <$> fishWord true (replaceChar apostrophe "\'" s +:+ "'"));
      [reflexivity|by rewrite IH].
  - apply Ascii.eqb_neq in Hc. set (t := replaceChar apostrophe "\'" s +:+ "'") in *.
    transitivity (if Ascii.eqb c apostrophe then fishWord false t
                  else if Ascii.eqb c backslash then
                    match t with
                    | String d s'' => if Ascii.eqb d apostrophe || Ascii.eqb d backslash
                        then String d <$> fishWord true s'' else String c <$> fishWord true t
                    | EmptyString => None
                    end
                  else String c <$> fishWord true t);
      [reflexivity|by rewrite Hc, Hb, IH].
Qed.

Lemma fishQuote_reads s : hasChar backslash s = false → fishWord false (fishQuote s) = Some s.
Proof. apply fishWord_quoted. Qed.

Lemma commandSpecs_fish : Forall (λ spec, fishWord false (fishQuote (Command_Name spec)) = Some (Command_Name spec) ∧
    fishWord false (fishQuote (Command_Description spec)) = Some (Command_Description spec) ∧
    Forall (λ f, fishWord false (fishQuote (Flag_Description f)) = Some (Flag_Description f)) (Flags spec))
  commandSpecs.
Proof. repeat (constructor || split; try (vm_compute; reflexivity)). Qed.

(** Another backslash would end fish's quotes too late. *)
Example ex_fish_backslash : fishWord false (fishQuote "C:\") = None.
Proof. reflexivity. Qed.

(** ** The union of the value flags *)
Section aggregate.

(** What a list of aggregated flags says of a value. *)
Definition offers (fs : list flagSpec) (name v : string) : Prop :=
  ∃ f, f ∈ fs ∧ Flag_Name f = name ∧ v ∈ Values f.

Lemma addValues_elem existing values v :
  v ∈ Values (addValues existing values) ↔ v ∈ Values existing ∨ v ∈ values.
Proof.
  cbn. generalize (Values existing). induction values as [|x values IH]; intros vs; cbn; [set_solver|].
  rewrite IH. case_bool_decide; set_solver.
Qed.

Lemma aggregateFlag_names f acc :
  map Flag_Name (aggregateFlag f acc) =
  if bool_decide (Flag_Name f ∈ map Flag_Name acc) then map Flag_Name acc
  else map Flag_Name acc ++ [Flag_Name f].
Proof.
  induction acc as [|x acc IH]; [done|]. cbn [aggregateFlag map].
  destruct (String.eqb_spec (Flag_Name x) (Flag_Name f)) as [He|He]; cbn [map].
  - rewrite bool_decide_eq_true_2 by (rewrite He; constructor). done.
  - rewrite IH. repeat case_bool_decide; try done; set_solver.
Qed.

Lemma aggregateFlag_offers f acc name v :
  offers (aggregateFlag f acc) name v ↔ offers acc name v ∨ (Flag_Name f = name ∧ v ∈ Values f).
Proof.
  unfold offers. induction acc as [|x acc IH]; cbn [aggregateFlag].
  - split; [intros (g & ->%list_elem_of_singleton & ? & ?); by right|].
    intros [(g & ?%not_elem_of_nil & _)|[? ?]]; [done|]. eexists. split; [by apply list_elem_of_singleton|done].
  - destruct (String.eqb_spec (Flag_Name x) (Flag_Name f)) as [He|He].
    + setoid_rewrite elem_of_cons. split.
      * intros (g & [->|Hg] & Hn & Hv); [|naive_solver]. apply addValues_elem in Hv. cbn in Hn.
        destruct Hv; [left; naive_solver|right; split; [congruence|done]].
      * intros [(g & [->|Hg] & Hn & Hv)|[Hn Hv]].
        -- eexists. split; [by left|]. split; [done|]. apply addValues_elem. by left.
        -- exists g. auto.
        -- eexists. split; [by left|]. split; [cbn; congruence|]. apply addValues_elem. by right.
    + setoid_rewrite elem_of_cons. split.
      * intros (g & [->|Hg] & Hn & Hv); [left; eauto|].
        destruct (proj1 IH) as [(h & ? & ?)|?]; [eauto|left; eauto|by right].
      * intros [(g & [->|Hg] & Hn & Hv)|Hf]; [eauto|..];
          (destruct (proj2 IH) as (h & ? & ? & ?); [eauto|eauto 6]).
Qed.

(** The aggregated flags: one for each name of a flag with values or a dynamic
    source, in the order of first occurrence, offering every value any command
    gives that flag and no other. *)
Lemma aggregateSpecs_union specs :
  NoDup (map Flag_Name (aggregateSpecs specs)) ∧
  (∀ name, name ∈ map Flag_Name (aggregateSpecs specs) ↔
     ∃ spec f, spec ∈ specs ∧ f ∈ Flags spec ∧ completesValue f = true ∧ Flag_Name f = name) ∧
  (∀ name v, offers (aggregateSpecs specs) name v ↔
     ∃ spec f, spec ∈ specs ∧ f ∈ Flags spec ∧ Flag_Name f = name ∧ v ∈ Values f).
Proof.
  assert (Hflat : ∀ f, f ∈ concat (map Flags specs) ↔ ∃ spec, spec ∈ specs ∧ f ∈ Flags spec).
  { intros f. rewrite elem_of_concat. setoid_rewrite list_elem_of_fmap. naive_solver. }
  unfold aggregateSpecs. generalize dependent (concat (map Flags specs)). intros fs Hflat.
  assert (Hgen : ∀ acc, NoDup (map Flag_Name acc) →
    let out := foldl (λ acc f, if completesValue f then aggregateFlag f acc else acc) acc fs in
    NoDup (map Flag_Name out) ∧
    (∀ name, name ∈ map Flag_Name out ↔ name ∈ map Flag_Name acc ∨
       ∃ f, f ∈ fs ∧ completesValue f = true ∧ Flag_Name f = name) ∧
    (∀ name v, offers out name v ↔ offers acc name v ∨ ∃ f, f ∈ fs ∧ Flag_Name f = name ∧ v ∈ Values f)).
  { clear. induction fs as [|f fs IH]; intros acc Hacc; cbn [foldl]; [set_solver|].
    assert (Hstep : NoDup (map Flag_Name (if completesValue f then aggregateFlag f acc else acc))).
    { destruct (completesValue f); [|done]. rewrite aggregateFlag_names. case_bool_decide; [done|].
      apply NoDup_app. split; [done|]. split; [set_solver|]. apply NoDup_singleton. }
    destruct (IH _ Hstep) as (Hn & Hnames & Hoff). split; [exact Hn|]. split.
    - intros name. rewrite Hnames.
      assert (Hf : name ∈ map Flag_Name (if completesValue f then aggregateFlag f acc else acc) ↔
        name ∈ map Flag_Name acc ∨ (completesValue f = true ∧ Flag_Name f = name)).
      { destruct (completesValue f) eqn:Hc; [|split; [by left|intros [?|[? _]]; done]].
        rewrite aggregateFlag_names. case_bool_decide as Hin.
        - split; [by left|]. intros [?|[_ <-]]; done.
        - rewrite elem_of_app, list_elem_of_singleton. split; intros [?|?]; auto; right; naive_solver. }
      rewrite Hf. setoid_rewrite elem_of_cons. split.
      + intros [[?|?]|(g & ? & ?)]; [by left|right; eauto|right; eauto].
      + intros [?|(g & [->|?] & ?)]; [by left; left|by left; right|right; eauto].
    - intros name v. rewrite Hoff.
      assert (Hf : offers (if completesValue f then aggregateFlag f acc else acc) name v ↔
        offers acc name v ∨ (Flag_Name f = name ∧ v ∈ Values f)).
      { destruct (completesValue f) eqn:Hc; [apply aggregateFlag_offers|].
        unfold completesValue in Hc. apply orb_false_iff in Hc as [Hv _].
        apply negb_false_iff, Nat.eqb_eq, nil_length_inv in Hv. rewrite Hv.
        split; [by left|]. intros [?|[_ ?%not_elem_of_nil]]; done. }
      rewrite Hf. setoid_rewrite elem_of_cons. split.
      + intros [[?|?]|(g & ? & ?)]; [by left|right; eauto|right; eauto].
      + intros [?|(g & [->|?] & ?)]; [by left; left|by left; right|right; eauto]. }
  destruct (Hgen [] NoDup_nil_2) as (Hn & Hnames & Hoff). split; [exact Hn|]. split.
  - intros name. rewrite Hnames. setoid_rewrite Hflat. split.
    + intros [?%not_elem_of_nil|(f & (spec & ? & ?) & ?)]; [done|eauto].
    + intros (spec & f & ? & ? & ?). right. eauto.
  - intros name v. rewrite Hoff. setoid_rewrite Hflat. split.
    + intros [(g & ?%not_elem_of_nil & _)|(f & (spec & ? & ?) & ?)]; [done|eauto].
    + intros (spec & f & ? & ? & ?). right. eauto.
Qed.
End aggregate.

Example ex_aggregate : map (λ f, (Flag_Name f, Values f)) aggregateValueFlags =
  [("network", namedNetworks); ("for", []); ("delegate", []); ("format", ["ascii"; "dot"; "text"; "json"]);
   ("shell", ["bash"; "zsh"; "fish"])].
Proof. vm_compute. reflexivity. Qed.

(** ** What the dispatcher takes out of the arguments *)
Section splitting.
Variable spec : option commandSpec.

Lemma splitLoop_once n args level cleaned level' : length args <= n →
  splitLoop spec args level = Ok (cleaned, level') →
  cleaned `sublist_of` args ∧
  ∀ level2, ∃ v, splitLoop spec cleaned level2 = Ok (cleaned, mkVerbosity (quiet level2) v).
Proof.
  assert (Hnil : ∀ level2, ∃ v, splitLoop spec [] level2 = Ok ([], mkVerbosity (quiet level2) v))
    by (intros [q v]; by exists v).
  revert args level cleaned level'.
  induction n as [|n IH]; intros [|arg rest] level cleaned level' Hl Hs; cbn [length] in Hl; try lia.
  1,2: by injection Hs as <- <-.
  cbn [splitLoop] in Hs. destruct (String.eqb arg "--") eqn:Hd.
  { injection Hs as <- <-. split; [done|]. intros [q v]. exists v. cbn [splitLoop]. by rewrite Hd. }
  destruct (cutEquals arg) as [[name value] hasValue] eqn:Hc.
  destruct (String.eqb name "--quiet") eqn:Hq.
  { inv_ok. apply IH in Hs as [Hsub Hagain]; [|lia]. split; [by apply sublist_cons|done]. }
  inv_ok.
  assert (Hstep : ∀ level2, ∃ v, (if String.eqb name "--verbose" then
      parsed ← parseVerbosityValue value hasValue "--verbose"; Ok (mkVerbosity (quiet level2) parsed)
    else Ok level2) = Ok (mkVerbosity (quiet level2) v)).
  { intros [q v]. destruct (String.eqb name "--verbose"); [|by exists v]. inv_ok. rewrite Hx0. by eexists. }
  destruct rest as [|next rest'].
  { injection Hs as <- <-. split; [done|]. intros level2. destruct (Hstep level2) as [v Hv]. exists v.
    cbn [splitLoop]. rewrite Hd, Hc, Hq, Hv. done. }
  destruct (takesValue spec name && negb hasValue) eqn:Htv; inv_ok; destruct x0 as [cleaned' level3];
    inv_ok; apply IH in Hx0 as [Hsub Hagain]; [|cbn [length] in *; lia| |cbn [length] in *; lia]; subst cleaned.
  - split; [by do 2 apply sublist_skip|]. intros level2. destruct (Hstep level2) as [v Hv].
    destruct (Hagain (mkVerbosity (quiet level2) v)) as [v' Hv']. exists v'.
    cbn [splitLoop]. rewrite Hd, Hc, Hq, Hv. cbn [mbind result_bind]. rewrite Htv, Hv'. done.
  - split; [by apply sublist_skip|]. intros level2. destruct (Hstep level2) as [v Hv].
    destruct (Hagain (mkVerbosity (quiet level2) v)) as [v' Hv'].
    cbn [splitLoop]. rewrite Hd, Hc, Hq, Hv. cbn [mbind result_bind]. rewrite Htv.
    destruct cleaned' as [|c cleaned']; [by exists v|]. exists v'. by rewrite Hv'.
Qed.
End splitting.

(** The arguments a command is run with are the given ones in their order,
    less the quiet flags: taking them out again changes nothing and finds no
    quiet flag; and the two levels are never both set. *)
Lemma splitVerbosity_once command args cleaned level :
  splitVerbosity command args = Ok (cleaned, level) →
  cleaned `sublist_of` args ∧ quiet level && verbose level = false ∧
  ∃ v, splitVerbosity command cleaned = Ok (cleaned, mkVerbosity false v).
Proof.
  unfold splitVerbosity. intros Hs. inv_ok. destruct x as [cleaned' level']. inv_ok. subst cleaned level.
  apply (splitLoop_once _ (length args)) in Hx as [Hsub Hagain]; [|done].
  split_and!; [done|done|]. destruct (Hagain (mkVerbosity false false)) as [v ->]. by exists v.
Qed.

Example ex_split_value : splitVerbosity "sign" ["--for"; "--quiet"; "--quiet"; "--json"; "--"; "--quiet"] =
  Ok (["--for"; "--quiet"; "--json"; "--"; "--quiet"], mkVerbosity true false).
Proof. vm_compute. reflexivity. Qed.
Example ex_split_both : is_ok (splitVerbosity "sign" ["--quiet=t"; "--verbose"]) = false ∧
  is_ok (splitVerbosity "sign" ["--quiet=yes"]) = false.
Proof. split; vm_compute; reflexivity. Qed.

(** ** The flag of an error message *)
Lemma fieldForMessage_spec message :
  fieldForMessage message = "" ∨
  ∃ spec f n, spec ∈ commandSpecs ∧ f ∈ Flags spec ∧ fieldForMessage message = "--" +:+ Flag_Name f ∧
    String.index 0 (fieldForMessage message) message = Some n ∧
    (∀ c, String.get (n + String.length (fieldForMessage message)) message = Some c → flagChar c = false).
Proof.
  unfold fieldForMessage. destruct (List.find _ _) as [name|] eqn:Hf; [|by left]. right.
  apply find_some in Hf as [Hin Hm]. apply list_elem_of_In, list_elem_of_fmap in Hin as (f & -> & Hin).
  apply elem_of_concat in Hin as (fs & Hf & Hfs). apply list_elem_of_fmap in Hfs as (spec & -> & Hspec).
  unfold mentions in Hm. destruct (String.index 0 _ _) as [n|]; [|done].
  exists spec, f, n. split_and!; try done. intros c Hc. rewrite Hc in Hm. by apply negb_true_iff.
Qed.

(** Only a name's first occurrence is looked at. *)
Example ex_field : fieldForMessage "--for applies to a single entry" = "--for" ∧
  fieldForMessage "--formats: --for is refused" = "" ∧ fieldForMessage "no flag" = "".
Proof. repeat split; vm_compute; reflexivity. Qed.
