(* ===== verification/Cli.v ===== *)
(** * Cli: the core of the command line (cmd/soroauth: main.go, sign.go,
    json_error.go, config.go, expiration.go, helpers.go)

    What every subcommand shares: the exit codes and the machine-readable form
    of an error, the configuration file and the precedence of its values, the
    network and the expiration a command works with, and the reading of an
    entry or an envelope.

    Texts the program prints are events of the world ([EvPrint]).  The flag
    package, the file system, JSON texts and the key pairs of the SDK are the
    class [CliLib]; the environment is a function, as in the source. *)
From Stdlib Require Import ZArith Lia Strings.Byte String Ascii.
From stdpp Require Import base list strings gmap pretty.
From S2P Require Import Prelude Encoding Errors Xdr ModelSDK Runtime Examples Address Limits Signers.
From S2P Require Import Retry Inspect Envelope Remote Vault Custody CliSpec.

Open Scope string_scope. Open Scope nat_scope. Open Scope list_scope.

(** ** Exit codes (main.go, sign.go) *)
Definition ExitOK : Z := 0.
Definition ExitGeneralError : Z := 1.
Definition ExitSigningRefusal : Z := 3.
Definition ExitVerificationFailed : Z := 4.

Definition as_cliError (e : error) : option Z :=
  match e with ETyped (cliError exitCode) _ => Some exitCode | _ => None end.

(** [None] is the nil error. *)
Definition ExitCode (err : option error) : Z :=
  match err with
  | None => ExitOK
  | Some e => default ExitGeneralError (errors_As as_cliError e)
  end.

Definition generalError (text : string) (e : error) : error := newErrorf ExitGeneralError (EWrap text e).

Definition exitCodeForSigningError (err : error) : Z :=
  if existsb (errors_Is err)
       [ErrNoMatchingCredentialNode; ErrAlreadySigned; ErrSourceAccountCredentials;
        ErrUnsupportedCredentials; ErrDuplicateDelegate; ErrMissingSigner; ErrNoInvokeOperation;
        ErrUnsupportedEnvelope; errExecSignerRefused]
  then ExitSigningRefusal
  else if existsb (errors_Is err) [ErrSignatureMismatch; ErrInvalidExpiration; ErrTooManySignatures]
  then ExitVerificationFailed
  else ExitGeneralError.

(** ** Errors as JSON (json_error.go) *)
Definition jsonErrorSchemaVersion : Z := 1.

Record jsonErrorFields := mkJsonErrorFields {
  SchemaVersion : Z;
  Code : string;
  Message : string;
  Field : string;
  Fields_ExitCode : Z
}.

Record sentinelJSONError := mkSentinelJSONError {
  Sentinel : sentinel;
  Sentinel_code : string;
  Sentinel_field : string;
  Sentinel_message : string
}.

Definition sentinelJSONErrors : list sentinelJSONError :=
  [mkSentinelJSONError ErrSourceAccountCredentials "source_account_credentials" "--entry"
     "credentials are source-account, which carry no signature payload";
   mkSentinelJSONError ErrUnsupportedCredentials "unsupported_credentials" "--entry"
     "unsupported credentials type";
   mkSentinelJSONError ErrUnsupportedFunctionType "unsupported_function_type" "--entry"
     "unsupported authorized-function type in the invocation tree";
   mkSentinelJSONError ErrNoMatchingCredentialNode "no_matching_credential_node" "--entry"
     "no credential node matches the target address";
   mkSentinelJSONError ErrDuplicateDelegate "duplicate_delegate" "--delegate"
     "duplicate delegate address at the same level";
   mkSentinelJSONError ErrSignatureMismatch "signature_mismatch" "--entry"
     "signature does not verify against the payload";
   mkSentinelJSONError ErrMissingSigner "missing_signer" "--secret-env"
     "no signer for address";
   mkSentinelJSONError ErrAlreadySigned "already_signed" "--entry"
     "credential node is already signed";
   mkSentinelJSONError ErrInvalidExpiration "invalid_expiration" "--valid-until"
     "invalid signature expiration ledger";
   mkSentinelJSONError ErrTooManySignatures "too_many_signatures" "--secret-env"
     "too many signatures for a classic account";
   mkSentinelJSONError ErrDecodeLimit "decode_limit" "--entry"
     "untrusted input exceeds a decode limit";
   mkSentinelJSONError ErrNoInvokeOperation "no_invoke_operation" "--entry"
     "envelope carries no invokeHostFunction operation";
   mkSentinelJSONError ErrUnsupportedEnvelope "unsupported_envelope" "--entry"
     "unsupported transaction envelope type";
   mkSentinelJSONError ErrUnsignedCredentialNode "unsigned_credential_node" "--entry"
     "credential node was left unsigned";
   mkSentinelJSONError ErrDelegatePlanUnmatched "delegate_plan_unmatched" "--entries"
     "delegate plan address matches no entry in the batch";
   mkSentinelJSONError ErrNonceAlreadyReserved "nonce_already_reserved" ""
     "nonce already reserved for this address";
   mkSentinelJSONError ErrWebAuthnMalformedJSON "webauthn_malformed_json" "--assertion"
     "webauthn assertion is not valid JSON";
   mkSentinelJSONError ErrWebAuthnMissingField "webauthn_missing_field" "--assertion"
     "webauthn assertion is missing a field";
   mkSentinelJSONError ErrWebAuthnMalformedField "webauthn_malformed_field" "--assertion"
     "webauthn assertion field is not valid base64url";
   mkSentinelJSONError ErrWebAuthnTruncatedAuthenticatorData "webauthn_truncated_authenticator_data" "--assertion"
     "webauthn authenticatorData is shorter than its 37-byte fixed prefix";
   mkSentinelJSONError ErrWebAuthnChallengeMismatch "webauthn_challenge_mismatch" "--assertion"
     "webauthn challenge does not match the expected payload";
   mkSentinelJSONError ErrSignerAddressMismatch "signer_address_mismatch" "--secret-env"
     "signer public key does not match the configured address";
   mkSentinelJSONError ErrVaultUnauthorized "vault_unauthorized" ""
     "vault rejected the token";
   mkSentinelJSONError ErrVaultKeyNotFound "vault_key_not_found" ""
     "vault transit key not found";
   mkSentinelJSONError ErrVaultKeyType "vault_key_type" ""
     "vault transit key is not an ed25519 key";
   mkSentinelJSONError ErrLedgerUnavailable "ledger_unavailable" "--secret-env"
     "ledger device is unavailable";
   mkSentinelJSONError ErrLedgerLocked "ledger_locked" "--secret-env"
     "ledger device is locked";
   mkSentinelJSONError ErrLedgerWrongApp "ledger_wrong_app" "--secret-env"
     "ledger device is not running the Stellar app";
   mkSentinelJSONError ErrLedgerBlindSigningDisabled "ledger_blind_signing_disabled" "--secret-env"
     "blind signing is disabled in the Ledger Stellar app settings";
   mkSentinelJSONError ErrLedgerDenied "ledger_denied" "--secret-env"
     "the request was rejected on the ledger device";
   mkSentinelJSONError ErrAttestationMalformed "attestation_malformed" "--attestation"
     "webauthn attestation is malformed";
   mkSentinelJSONError ErrAttestationInvalid "attestation_invalid" "--attestation"
     "webauthn attestation failed verification";
   mkSentinelJSONError ErrAttestationUnsupportedFormat "attestation_unsupported_format" "--attestation"
     "webauthn attestation format or algorithm is not supported";
   mkSentinelJSONError ErrPolicyRefusal "policy_refusal" "--secret-env"
     "signing refused by policy";
   mkSentinelJSONError ErrSignerTransient "signer_transient" "--secret-env"
     "transient signer failure";
   mkSentinelJSONError ErrChainExhausted "chain_exhausted" "--secret-env"
     "every signer in the chain failed";
   mkSentinelJSONError ErrQuorumNotMet "quorum_not_met" "--secret-env"
     "signer quorum was not met";
   mkSentinelJSONError ErrQuorumDisagreement "quorum_disagreement" "--secret-env"
     "signers disagree on the signature"].

(** The table is searched for the first sentinel the error is. *)
Definition machineError (err : option error) : jsonErrorFields :=
  let exitCode := ExitCode err in
  let field := fieldForError err in
  let base :=
    if (exitCode =? ExitUsageError)%Z then
      mkJsonErrorFields jsonErrorSchemaVersion "usage_error" "invalid command usage" field exitCode
    else if (exitCode =? ExitSigningRefusal)%Z then
      mkJsonErrorFields jsonErrorSchemaVersion "signing_refused" "signing was refused" field exitCode
    else if (exitCode =? ExitVerificationFailed)%Z then
      mkJsonErrorFields jsonErrorSchemaVersion "verification_failed" "verification failed" field exitCode
    else mkJsonErrorFields jsonErrorSchemaVersion "command_failed" "command failed" field exitCode in
  match List.find (λ item, match err with Some e => errors_Is e (Sentinel item) | None => false end)
          sentinelJSONErrors with
  | Some item =>
      mkJsonErrorFields (SchemaVersion base) (Sentinel_code item) (Sentinel_message item)
        (if String.eqb (Field base) "" then Sentinel_field item else Field base) (Fields_ExitCode base)
  | None => base
  end.

(** ** Configuration (config.go) *)
Record fileConfig := mkFileConfig {
  Config_Network : string;
  Config_RPCURL : string;
  Config_SecretEnv : string;
  Config_Format : string
}.
Definition emptyConfig : fileConfig := mkFileConfig "" "" "" "".

Record loadedConfig := mkLoadedConfig { Config_Path : string; Loaded : bool; File : fileConfig }.

Inductive configSource := sourceFlag | sourceEnv | sourceFile | sourceDefault.
#[export] Instance configSource_eq_dec : EqDecision configSource.
Proof. solve_decision. Defined.

Record resolvedValue := mkResolvedValue { Value : string; Source : configSource }.

(** A key the SDK parsed: a seed's key pair, or an address. *)
Inductive parsedKey := FullKey (kp : ed25519Keypair) | PublicKey (address : string).

Class CliLib := {
  keypair_Parse : string → result parsedKey;
  (* [os.ReadFile]; [None] when the file does not exist *)
  os_ReadFile : string → IO (option bytes);
  (* the top-level keys of a JSON object in the order they are visited, with
     their values when they are strings *)
  json_UnmarshalStrings : bytes → result (list (string * option string));
  (* strict decoding of the first value, with the bytes after it *)
  json_DecodeConfig : bytes → result (fileConfig * bytes);
  path_Join : list string → string;
  Networks : string * string * string;           (* testnet, futurenet, public *)
  SafeUnmarshalEntry : string → result SorobanAuthorizationEntry;
  SafeUnmarshalEntryDepth : string → Z → result SorobanAuthorizationEntry;
  SafeUnmarshalEnvelope : string → result TransactionEnvelope;
  json_Encode : jsonErrorFields → string
}.

Definition TestNetworkPassphrase `{CliLib} : string := let '(t, _, _) := Networks in t.
Definition FutureNetworkPassphrase `{CliLib} : string := let '(_, f, _) := Networks in f.
Definition PublicNetworkPassphrase `{CliLib} : string := let '(_, _, p) := Networks in p.

Definition maxConfigBytes : nat := 64 * 1024.

Definition forbiddenSecretKeys : list string :=
  ["secret"; "seed"; "private_key"; "secret_key"; "signing_key"; "key"].

Fixpoint strings_all (p : ascii → bool) (s : string) : bool :=
  match s with EmptyString => true | String c s => p c && strings_all p s end.

Definition upperChar (c : ascii) : bool := let n := nat_of_ascii c in Nat.leb 65 n && Nat.leb n 90.
Definition lowerChar (c : ascii) : bool := let n := nat_of_ascii c in Nat.leb 97 n && Nat.leb n 122.
Definition digitChar (c : ascii) : bool := let n := nat_of_ascii c in Nat.leb 48 n && Nat.leb n 57.
Definition base32Char (c : ascii) : bool :=
  upperChar c || (Nat.leb 50 (nat_of_ascii c) && Nat.leb (nat_of_ascii c) 55).
Definition wordChar (c : ascii) : bool := upperChar c || lowerChar c || Ascii.eqb c "_".

(** The patterns [^[A-Za-z_][A-Za-z0-9_]*$], [^S[A-Z2-7]{9,}$] and
    [^[SGC][A-Z2-7]{55}$]. *)
Definition envVarNamePattern (s : string) : bool :=
  match s with
  | String c s => wordChar c && strings_all (λ c, wordChar c || digitChar c) s
  | EmptyString => false
  end.
Definition base32SeedLike (s : string) : bool :=
  match s with
  | String c s => Ascii.eqb c "S" && Nat.leb 9 (String.length s) && strings_all base32Char s
  | EmptyString => false
  end.
Definition strkey56Pattern (s : string) : bool :=
  match s with
  | String c s => (Ascii.eqb c "S" || Ascii.eqb c "G" || Ascii.eqb c "C") &&
                  Nat.eqb (String.length s) 55 && strings_all base32Char s
  | EmptyString => false
  end.

Definition toLowerChar (c : ascii) : ascii :=
  if upperChar c then ascii_of_nat (nat_of_ascii c + 32) else c.
(** [strings.ToLower], of ASCII text. *)
Fixpoint lowerString (s : string) : string :=
  match s with EmptyString => EmptyString | String c s => String (toLowerChar c) (lowerString s) end.

(** What the JSON decoder calls the end: only white space is left. *)
Definition jsonEOF (rest : bytes) : bool :=
  forallb (λ b, existsb (Byte.eqb b) [x20; x09; x0d; x0a]%byte) rest.

Section cli.
Context `{SDK} `{EnvelopeSDK} `{NetURL} `{CustodyLib} `{CliLib}.

Definition looksLikeSecret (value : string) : bool :=
  let trimmed := TrimSpace value in
  if String.eqb trimmed "" then false
  else
    strings_Contains trimmed "-----BEGIN" ||
    is_ok (keypair_Parse trimmed) ||
    is_ok (strkey_DecodeAny trimmed) ||
    strkey56Pattern trimmed ||
    base32SeedLike trimmed ||
    (Nat.eqb (String.length trimmed) 64 &&
     match hex_DecodeString trimmed with Some _ => true | None => false end).

Definition resolveConfigPath (flagPath : string) (getenv : string → string) : string :=
  if negb (String.eqb flagPath "") then flagPath
  else if negb (String.eqb (getenv "SOROAUTH_CONFIG") "") then getenv "SOROAUTH_CONFIG"
  else if negb (String.eqb (getenv "XDG_CONFIG_HOME") "") then
    path_Join [getenv "XDG_CONFIG_HOME"; "soroauth"; "config.json"]
  else if negb (String.eqb (getenv "HOME") "") then
    path_Join [getenv "HOME"; ".config"; "soroauth"; "config.json"]
  else "".

(** The keys of the file, before it is decoded. *)
Fixpoint checkConfigKeys (path : string) (fields : list (string * option string)) : result unit :=
  match fields with
  | [] => Ok tt
  | (k, v) :: fields =>
      _ ← refuse (bool_decide (lowerString k ∈ forbiddenSecretKeys))
            (usageError ("config file " +:+ path +:+ ": key " +:+ quoted k +:+
               " is refused; no secret value may be stored in the config file (use " +:+ quoted "secret_env" +:+
               " to name an environment variable)"));
      _ ← refuse (match v with Some s => looksLikeSecret s | None => false end)
            (usageError ("config file " +:+ path +:+ ": field " +:+ quoted k +:+
               " contains a secret-shaped value; no secret value may be stored in the config file " +:+
               "(only the name of an environment variable in " +:+ quoted "secret_env" +:+ ")"));
      checkConfigKeys path fields
  end.

Definition configFormats : list string := ["text"; "json"; "ascii"; "dot"].

(** The checks on what was read. *)
Definition parseConfig (path : string) (raw : bytes) : result fileConfig :=
  _ ← refuse (Nat.ltb maxConfigBytes (length raw))
        (usageError ("config file " +:+ path +:+ " exceeds maximum size (65536 bytes)"));
  _ ← match json_UnmarshalStrings raw with Ok fields => checkConfigKeys path fields | Err _ => Ok tt end;
  '(cfg, rest) ← match json_DecodeConfig raw with
                 | Ok r => Ok r
                 | Err e => Err (newErrorf ExitUsageError (EWrap ("parsing config file " +:+ path) e))
                 end;
  _ ← refuse (negb (jsonEOF rest))
        (usageError ("parsing config file " +:+ path +:+ ": unexpected trailing content after JSON object"));
  _ ← (if String.eqb (Config_SecretEnv cfg) "" then Ok tt
       else
         _ ← refuse (looksLikeSecret (Config_SecretEnv cfg))
               (usageError ("config file " +:+ path +:+ ": secret_env contains a secret-shaped value; store the secret in an environment variable " +:+
                  "and put only its variable name in secret_env"));
         refuse (negb (envVarNamePattern (Config_SecretEnv cfg)))
           (usageError ("config file " +:+ path +:+
              ": secret_env must be a valid environment variable name (letters, digits, and underscores), " +:+
              "never a secret value")));
  _ ← refuse (negb (String.eqb (Config_Format cfg) "") && negb (bool_decide (Config_Format cfg ∈ configFormats)))
        (usageError ("config file " +:+ path +:+ ": invalid format " +:+ quoted (Config_Format cfg) +:+
           " (expected text, json, ascii, or dot)"));
  Ok cfg.

Definition cli_loadConfig (flagPath : string) (getenv : string → string) : IO loadedConfig :=
  let none := mkLoadedConfig "" false emptyConfig in
  let path := resolveConfigPath flagPath getenv in
  if String.eqb path "" then mret none
  else
    raw ← try_ (os_ReadFile path);
    match raw with
    | Err e => lift (Err (newErrorf ExitUsageError (EWrap ("reading config file " +:+ path) e)))
    | Ok None => mret none
    | Ok (Some raw) => cfg ← lift (parseConfig path raw); mret (mkLoadedConfig path true cfg)
    end.

(** The names of the flags given on the command line; [None] for the callers
    that do not use the flag package. *)
Definition cli_flagSet : Type := option (list string).

Definition flagIsSet (set : cli_flagSet) (name flagVal : string) : bool :=
  match set with
  | Some names => bool_decide (name ∈ names)
  | None => negb (String.eqb flagVal "")
  end.

Definition resolvePrecedence (isSet : bool) (flagVal envVar : string) (getenv : string → string)
    (cfg : loadedConfig) (fileVal defaultVal : string) : resolvedValue :=
  if isSet then mkResolvedValue flagVal sourceFlag
  else if negb (String.eqb (getenv envVar) "") then mkResolvedValue (getenv envVar) sourceEnv
  else if Loaded cfg && negb (String.eqb fileVal "") then mkResolvedValue fileVal sourceFile
  else mkResolvedValue defaultVal sourceDefault.

Definition resolveNetworkValue (set : cli_flagSet) (flagVal : string) (getenv : string → string)
    (cfg : loadedConfig) : resolvedValue :=
  resolvePrecedence (flagIsSet set "network" flagVal) flagVal "SOROAUTH_NETWORK" getenv cfg
    (Config_Network (File cfg)) "".
Definition resolveRPCURLValue (set : cli_flagSet) (flagVal : string) (getenv : string → string)
    (cfg : loadedConfig) (defaultURL : string) : resolvedValue :=
  resolvePrecedence (flagIsSet set "rpc-url" flagVal) flagVal "SOROAUTH_RPC_URL" getenv cfg
    (Config_RPCURL (File cfg)) defaultURL.
Definition resolveSecretEnvValue (set : cli_flagSet) (flagVal : string) (getenv : string → string)
    (cfg : loadedConfig) : resolvedValue :=
  resolvePrecedence (flagIsSet set "secret-env" flagVal) flagVal "SOROAUTH_SECRET_ENV" getenv cfg
    (Config_SecretEnv (File cfg)) "".

Definition resolveFormatValue (set : cli_flagSet) (formatFlagVal : string) (jsonFlagVal : bool)
    (getenv : string → string) (cfg : loadedConfig) (defaultFormat : string) : result resolvedValue :=
  let given name := match set with Some names => bool_decide (name ∈ names) | None => false end in
  if given "json" then
    Ok (mkResolvedValue (if jsonFlagVal then "json" else if given "format" then formatFlagVal
                         else defaultFormat) sourceFlag)
  else if flagIsSet set "format" formatFlagVal then Ok (mkResolvedValue formatFlagVal sourceFlag)
  else if jsonFlagVal then Ok (mkResolvedValue "json" sourceFlag)
  else if negb (String.eqb (getenv "SOROAUTH_FORMAT") "") then
    _ ← refuse (negb (bool_decide (getenv "SOROAUTH_FORMAT" ∈ configFormats)))
          (usageError ("invalid SOROAUTH_FORMAT " +:+ quoted (getenv "SOROAUTH_FORMAT") +:+
             " (expected text, json, ascii, or dot)"));
    Ok (mkResolvedValue (getenv "SOROAUTH_FORMAT") sourceEnv)
  else if Loaded cfg && negb (String.eqb (Config_Format (File cfg)) "") then
    Ok (mkResolvedValue (Config_Format (File cfg)) sourceFile)
  else Ok (mkResolvedValue defaultFormat sourceDefault).

Definition resolveJSONMode (set : cli_flagSet) (jsonFlagVal : bool) (getenv : string → string)
    (cfg : loadedConfig) : result bool :=
  res ← resolveFormatValue set "" jsonFlagVal getenv cfg "text";
  Ok (String.eqb (Value res) "json").

(** ** The network and the expiration (main.go, expiration.go) *)
Definition Stdout : string := "stdout".
Definition Stderr : string := "stderr".
(** [fmt.Fprint]; the streams do not fail. *)
Definition Fprint (stream text : string) : IO unit := perform (EvPrint stream text).

Definition networkResolver : Type := Ctx → string → IO string.

(** The RPC's own answer to [GetNetwork], by endpoint: the passphrase in it. *)
Definition networkGetter : Type := string → Ctx → IO string.

Definition rpc_fetchNetworkPassphrase (GetNetwork : networkGetter) : networkResolver := λ ctx rpcURL,
  let op := "soroauth: rpc " +:+ rpcURL +:+ ": getNetwork" in
  _ ← perform (EvRPC "getNetwork" rpcURL);
  passphrase ← io_wrap op (GetNetwork rpcURL ctx);
  _ ← lift (refuse (String.eqb passphrase "") (EText (op +:+ " returned empty passphrase")));
  mret passphrase.

Definition resolveRPCURL (flagValue : string) (getenv : string → string) : string :=
  if negb (String.eqb flagValue "") then flagValue else getenv "SOROAUTH_RPC_URL".

Definition cli_resolveNetwork (ctx : Ctx) (value rpcURL : string) (getenv : string → string)
    (fetch : networkResolver) : IO string :=
  if String.eqb value "" then
    lift (Err (usageError "--network is required (testnet, futurenet, public, rpc, or a literal passphrase)"))
  else if String.eqb value "testnet" then mret TestNetworkPassphrase
  else if String.eqb value "futurenet" then mret FutureNetworkPassphrase
  else if String.eqb value "public" then mret PublicNetworkPassphrase
  else if String.eqb value "rpc" then
    let rpcURL := if String.eqb rpcURL "" then resolveRPCURL "" getenv else rpcURL in
    _ ← lift (refuse (String.eqb rpcURL "")
          (usageError ("--network rpc resolves against an RPC endpoint and needs one: " +:+
             "pass --rpc-url <url> or set SOROAUTH_RPC_URL")));
    passphrase ← try_ (fetch ctx rpcURL);
    match passphrase with
    | Err e => lift (Err (generalError ("--network rpc could not fetch the network passphrase from " +:+ rpcURL) e))
    | Ok passphrase =>
        _ ← Fprint Stderr ("soroauth: resolved network passphrase from " +:+ rpcURL +:+ ": " +:+ passphrase +:+ newline);
        mret passphrase
    end
  else mret value.

Definition ledgerFetcher : Type := Ctx → string → IO Z.
Definition validForTimeout : Z := 10 * Second.

Definition resolveValidUntil (ctx : Ctx) (validUntil validFor : Z) (rpcURL : string) (fetch : ledgerFetcher) : IO Z :=
  if negb (validUntil =? 0)%Z && negb (validFor =? 0)%Z then
    lift (Err (usageError "--valid-until and --valid-for are mutually exclusive: give one or the other"))
  else if negb (validUntil =? 0)%Z then
    lift (_ ← refuse (validUntil >? MaxUint32)%Z
            (usageError ("--valid-until " +:+ FormatUint validUntil +:+
               " is out of range for a ledger sequence (maximum 4294967295)"));
          Ok (wrap_u32 validUntil))
  else if negb (validFor =? 0)%Z then
    _ ← lift (refuse (validFor >? MaxUint32)%Z
          (usageError ("--valid-for " +:+ FormatUint validFor +:+
             " is out of range for a ledger count (maximum 4294967295)")));
    _ ← lift (refuse (String.eqb rpcURL "")
          (usageError ("--valid-for resolves against the current ledger and needs an RPC endpoint: " +:+
             "pass --rpc-url <url> or set SOROAUTH_RPC_URL")));
    latest ← (λ w, try_ (fetch (WithTimeout ctx (now w) validForTimeout) rpcURL) w);
    match latest with
    | Err e => lift (Err (generalError ("--valid-for could not read the current ledger from " +:+ rpcURL) e))
    | Ok latest =>
        lift (match ExpirationAfter latest (wrap_u32 validFor) with
              | Ok expiration => Ok expiration
              | Err e => Err (newErrorf ExitVerificationFailed (EWrap ("--valid-for " +:+ FormatUint validFor +:+
                           " from ledger " +:+ FormatUint latest) e))
              end)
    end
  else lift (Err (usageError
         "--valid-until is required and must be greater than zero, or give --valid-for <ledgers>")).

(** ** Reading an entry (main.go, helpers.go) *)
(** Standard input, read to its end. *)
Definition Stdin : Type := result bytes.

Definition resolveEntryArg (val : string) (stdin : Stdin) : result string :=
  if String.eqb val "-" then data ← stdin; Ok (TrimSpace (string_of_bytes data)) else Ok val.

Definition readEntryFlagFrom (value : string) (stdin : Stdin) : result string :=
  wrap "reading from stdin" (resolveEntryArg value stdin).

Definition classifyInput (value want : string) (err : error) : error :=
  if errors_Is err ErrDecodeLimit then err
  else if is_ok (decodeBase64 value) then EWrap ("input is valid base64 but is not " +:+ want) err
  else EWrap "input is not valid base64" err.

(** [newErrorf(ExitUsageError, "%w", err)] *)
Definition asUsage {A} (r : result A) : result A :=
  match r with Ok a => Ok a | Err e => Err (newErrorf ExitUsageError e) end.

Definition decodeEntryNamedFrom (name value : string) (stdin : Stdin) : result SorobanAuthorizationEntry :=
  _ ← refuse (String.eqb value "") (usageError (name +:+ " is required"));
  val ← asUsage (readEntryFlagFrom value stdin);
  match DecodeAuthorizationEntry SafeUnmarshalEntryDepth val [] with
  | Ok entry => Ok entry
  | Err e => Err (newErrorf ExitUsageError (EWrap ("decoding " +:+ name)
               (classifyInput val "a Soroban authorization entry" e)))
  end.

Inductive cliInput :=
| InputEntry (Entry : SorobanAuthorizationEntry)
| InputEnvelope (Envelope : TransactionEnvelope).

Definition IsEnvelope (i : cliInput) : bool :=
  match i with InputEnvelope _ => true | InputEntry _ => false end.

Definition decodeEntryOrEnvelopeFrom (value : string) (stdin : Stdin) : result cliInput :=
  _ ← refuse (String.eqb value "") (usageError "--entry is required");
  val ← asUsage (readEntryFlagFrom value stdin);
  let asEntry :=
    match SafeUnmarshalEntry val with
    | Ok entry => Ok (InputEntry entry)
    | Err e => Err (newErrorf ExitUsageError (EWrap "decoding --entry" (classifyInput val
        "a Soroban authorization entry or a transaction envelope with an invokeHostFunction operation" e)))
    end in
  match SafeUnmarshalEnvelope val with
  | Err _ => asEntry
  | Ok envelope =>
      match EnvelopeEntries envelope, SafeUnmarshalEntry val with
      | Ok _, _ => Ok (InputEnvelope envelope)
      | Err e, Err _ => Err (newErrorf ExitUsageError (EWrap "decoding --entry as an envelope" e))
      | Err _, Ok _ => asEntry
      end
  end.

Definition cli_encodeEntry (entry : SorobanAuthorizationEntry) : result string :=
  wrap "encoding the entry" (MarshalBase64 entry).

(** ** Writing an error (main.go) *)
(** The error object carries its message once more, as [error]. *)
Definition writeJSONError {A} (jsonFlag : bool) (err : error) : IO A :=
  if jsonFlag then
    _ ← Fprint Stdout (json_Encode (machineError (Some err)) +:+ newline);
    lift (Err (ETyped jsonErrorHandled err))
  else lift (Err err).

Definition as_jsonErrorHandled (e : error) : option unit :=
  match e with ETyped jsonErrorHandled _ => Some tt | _ => None end.

(** [main] after [run]: what is written to standard error, and the code the
    process exits with. *)
Definition finishMain (err : option error) : IO Z :=
  match err with
  | None => mret ExitOK
  | Some e =>
      _ ← (match errors_As as_jsonErrorHandled e with
           | Some _ => mret tt
           | None => Fprint Stderr ("soroauth: " +:+ Error e +:+ newline)
           end);
      mret (ExitCode (Some e))
  end.
End cli.

(** ** The classification of errors *)
Lemma ExitCode_newErrorf code e : ExitCode (Some (newErrorf code e)) = code.
Proof. done. Qed.

(** The sentinels of the library's own package. *)
Definition librarySentinels : list sentinel :=
  [ErrSourceAccountCredentials; ErrUnsupportedCredentials; ErrNoMatchingCredentialNode; ErrDuplicateDelegate;
   ErrSignatureMismatch; ErrMissingSigner; ErrAlreadySigned; ErrInvalidExpiration; ErrTooManySignatures;
   ErrDecodeLimit; ErrNoInvokeOperation; ErrUnsupportedFunctionType; ErrUnsupportedEnvelope;
   ErrUnsignedCredentialNode; ErrDelegatePlanUnmatched; ErrNonceAlreadyReserved; ErrWebAuthnMalformedJSON;
   ErrWebAuthnMissingField; ErrWebAuthnMalformedField; ErrWebAuthnTruncatedAuthenticatorData;
   ErrWebAuthnChallengeMismatch; ErrSignerAddressMismatch; ErrVaultUnauthorized; ErrVaultKeyNotFound;
   ErrVaultKeyType; ErrLedgerUnavailable; ErrLedgerLocked; ErrLedgerWrongApp; ErrLedgerBlindSigningDisabled;
   ErrLedgerDenied; ErrAttestationMalformed; ErrAttestationInvalid; ErrAttestationUnsupportedFormat;
   ErrPolicyRefusal; ErrSignerTransient; ErrChainExhausted; ErrQuorumNotMet; ErrQuorumDisagreement;
   ErrWrongNetwork; ErrVerificationFailed].

(** The table has one row for each of them but two. *)
Lemma sentinelJSONErrors_rows :
  NoDup (map Sentinel sentinelJSONErrors) ∧ NoDup (map Sentinel_code sentinelJSONErrors) ∧
  filter (λ s, s ∉ map Sentinel sentinelJSONErrors) librarySentinels = [ErrWrongNetwork; ErrVerificationFailed].
Proof.
  split_and!; [apply (bool_decide_unpack _); vm_compute; done..|].
  apply (bool_decide_unpack (_ = _)). vm_compute. done.
Qed.

(** The code reported for an error is that of the first row it answers to, and
    the exit code is the process's. *)
Lemma machineError_spec e : let fields := machineError (Some e) in
  Fields_ExitCode fields = ExitCode (Some e) ∧
  ((∃ before item after, sentinelJSONErrors = before ++ item :: after ∧ errors_Is e (Sentinel item) = true ∧
      Forall (λ item, errors_Is e (Sentinel item) = false) before ∧ Code fields = Sentinel_code item) ∨
   (Forall (λ item, errors_Is e (Sentinel item) = false) sentinelJSONErrors ∧
    Code fields ∈ ["usage_error"; "signing_refused"; "verification_failed"; "command_failed"])).
Proof.
  cbv zeta. unfold machineError. split; [by repeat case_match|].
  generalize sentinelJSONErrors. intros rows.
  assert (Hfind : match List.find (λ item, errors_Is e (Sentinel item)) rows with
    | Some item => ∃ before after, rows = before ++ item :: after ∧ errors_Is e (Sentinel item) = true ∧
        Forall (λ item, errors_Is e (Sentinel item) = false) before
    | None => Forall (λ item, errors_Is e (Sentinel item) = false) rows
    end).
  { induction rows as [|row rows IH]; cbn [List.find]; [constructor|].
    destruct (errors_Is e (Sentinel row)) eqn:Hr; [by exists [], rows|].
    destruct (List.find _ rows) as [item|]; [|by constructor].
    destruct IH as (before & after & -> & ? & ?). exists (row :: before), after. by repeat (split || constructor). }
  destruct (List.find _ rows) as [item|]; [left|right].
  - destruct Hfind as (before & after & Hrows & ? & ?). exists before, item, after. done.
  - split; [done|]. repeat case_match; cbn; set_solver.
Qed.

Section cli_theorems.
Context `{SDK} `{EnvelopeSDK} `{NetURL} `{CustodyLib} `{CliLib}.

(** C32. The expiration a command works with is exactly the one that was asked
    for: the given ledger, or the current ledger and the given lifetime added
    without wrapping, a positive ledger number in either case; and one of the
    two flags was given, not both. *)
Theorem resolveValidUntil_exact ctx validUntil validFor rpcURL fetch w e w' :
  (0 <= validUntil)%Z → (0 <= validFor)%Z →
  (∀ ctx url w l w', fetch ctx url w = (Ok l, w') → is_u32 l) →
  resolveValidUntil ctx validUntil validFor rpcURL fetch w = (Ok e, w') →
  is_u32 e ∧ (0 < e)%Z ∧
  ((validFor = 0 ∧ e = validUntil)%Z ∨
   (validUntil = 0 ∧ 0 < validFor)%Z ∧ rpcURL ≠ "" ∧
   ∃ latest w1, fetch (WithTimeout ctx (now w) validForTimeout) rpcURL w = (Ok latest, w1) ∧
     (e = latest + validFor)%Z).
Proof.
  intros Hu Hf Hfetch Hr. unfold resolveValidUntil in Hr.
  destruct (Z.eqb_spec validUntil 0) as [->|Hu0]; destruct (Z.eqb_spec validFor 0) as [->|Hf0];
    cbn [negb andb] in Hr; inv_io; inv_ok; try done.
  - apply String.eqb_neq in Hl. rewrite Z.gtb_ltb in Hl0. apply Z.ltb_ge in Hl0.
    destruct x1 as [latest|err]; [|by apply lift_Ok in Hr as [? _]].
    rewrite wrap_u32_id in Hr by (unfold is_u32, MaxUint32 in *; lia).
    assert (Hvf : is_u32 validFor) by (unfold is_u32, MaxUint32 in *; lia).
    pose proof (ExpirationAfter_spec latest validFor (Hfetch _ _ _ _ _ Hx1) Hvf) as Hexp.
    destruct (ExpirationAfter latest validFor) as [r|err]; [|by apply lift_Ok in Hr as [? _]].
    apply lift_Ok in Hr as [[= ->] _].
    destruct Hexp as [(? & ? & -> & ?) ?].
    pose proof (Hfetch _ _ _ _ _ Hx1) as [? _].
    split; [done|]. split; [lia|]. right. split; [lia|]. split; [done|]. by exists latest, w2.
  - rewrite Z.gtb_ltb in Hx. apply Z.ltb_ge in Hx. unfold MaxUint32 in Hx.
    rewrite wrap_u32_id by (unfold is_u32, MaxUint32; lia). split; [unfold is_u32, MaxUint32; lia|]. split; [lia|]. by left.
Qed.

(** A configuration file that is accepted stores no secret: none of its keys
    names one, none of its text values has the shape of one, and what it gives
    for the signing seed is empty or the name of an environment variable; its
    format is one of those the commands know. *)
Theorem parseConfig_no_secret path raw cfg :
  parseConfig path raw = Ok cfg →
  length raw <= maxConfigBytes ∧
  (∀ fields k v, json_UnmarshalStrings raw = Ok fields → (k, v) ∈ fields →
     (lowerString k ∉ forbiddenSecretKeys) ∧ ∀ text, v = Some text → looksLikeSecret text = false) ∧
  (Config_SecretEnv cfg = "" ∨
   (looksLikeSecret (Config_SecretEnv cfg) = false ∧ envVarNamePattern (Config_SecretEnv cfg) = true)) ∧
  (Config_Format cfg = "" ∨ Config_Format cfg ∈ configFormats) ∧
  ∃ rest, json_DecodeConfig raw = Ok (cfg, rest) ∧ jsonEOF rest = true.
Proof.
  unfold parseConfig. intros Hp. inv_ok. destruct x1 as [cfg' rest]. inv_ok.
  destruct (json_DecodeConfig raw) as [[cfg' rest']|] eqn:Hd; [|done]. injection Hx1 as -> ->.
  split; [by apply Nat.ltb_ge|]. split_and!.
  - intros fields k v Hf Hin. rewrite Hf in Hx0. clear Hf. revert Hx0.
    induction fields as [|[k' v'] fields IH]; [by apply not_elem_of_nil in Hin|].
    cbn [checkConfigKeys]. intros Hc. inv_ok. apply elem_of_cons in Hin as [[= -> ->]|Hin]; [|by apply IH].
    split; [by eapply bool_decide_eq_false_1|]. by intros text ->.
  - destruct (String.eqb_spec (Config_SecretEnv cfg) "") as [->|_]; [by left|right]. inv_ok.
    by match goal with E : negb _ = false |- _ => apply negb_false_iff in E end.
  - destruct (String.eqb_spec (Config_Format cfg) "") as [->|_]; [by left|right].
    match goal with E : negb false && _ = false |- _ => cbn in E; apply negb_false_iff, bool_decide_eq_true_1 in E end. done.
  - exists rest. split; [done|]. by match goal with E : negb (jsonEOF rest) = false |- _ => apply negb_false_iff in E end.
Qed.
End cli_theorems.

(** ** A concrete command line *)
(** A configuration file is a list of keys with texts or nulls.  As in Go, the
    map of its keys has the last value of each, and decoding into the record
    leaves a field alone when the value is null. *)
Definition ex_fields (b : bytes) : result (list (string * option string)) := read_value b.
Definition ex_field (name : string) (fields : list (string * option string)) : string :=
  foldl (λ v '(k, o), if String.eqb k name then default v o else v) "" fields.
Definition ex_map (fields : list (string * option string)) : list (string * option string) :=
  map_to_list (foldl (λ m '(k, o), <[k := o]> m) (∅ : gmap string (option string)) fields).

Definition ex_seed : string := "SNOTAREALSEEDATALL".

#[export] Instance ModelCliLib : CliLib := {|
  keypair_Parse s :=
    if String.eqb s ex_seed then Ok (FullKey (ex_keypair "a"))
    else if String.eqb s (ex_text "a") then Ok (PublicKey (ex_text "a"))
    else Err (EText "invalid key");
  os_ReadFile path := mret (if String.eqb path "config.json"
                            then Some (write_value [("network", Some "testnet"); ("secret_env", Some "SEED")]) else None);
  json_UnmarshalStrings b := ex_map <$> ex_fields b;
  json_DecodeConfig b :=
    fs ← ex_fields b;
    Ok (mkFileConfig (ex_field "network" fs) (ex_field "rpc_url" fs) (ex_field "secret_env" fs)
          (ex_field "format" fs), []);
  path_Join := String.concat "/";
  Networks := (ex_network, "Test SDF Future Network ; October 2022", "Public Global Stellar Network ; September 2015");
  SafeUnmarshalEntry s := raw ← decodeBase64 s; UnmarshalBinary raw;
  SafeUnmarshalEntryDepth s _ := raw ← decodeBase64 s; UnmarshalBinary raw;
  SafeUnmarshalEnvelope s := raw ← decodeBase64 s; UnmarshalBinary raw;
  json_Encode f := "{" +:+ Code f +:+ "}"
|}.

Lemma resolveValidUntil_exact_witness :
  is_u32 1007 ∧ (0 < 1007)%Z ∧
  ((7 = 0 ∧ 1007 = 0)%Z ∨
   (0 = 0 ∧ 0 < 7)%Z ∧ "http://rpc" ≠ "" ∧
   ∃ latest w1, (λ _ _, mret 1000%Z : IO Z) (WithTimeout Background 0 validForTimeout) "http://rpc" initial_world =
       (Ok latest, w1) ∧ (1007 = latest + 7)%Z).
Proof.
  apply (resolveValidUntil_exact Background 0 7 "http://rpc" (λ _ _, mret 1000%Z) initial_world 1007 initial_world).
  - done.
  - done.
  - intros ctx url w l w' [= <- _]. unfold is_u32, MaxUint32. lia.
  - vm_compute. reflexivity.
Defined.

Definition ex_config : bytes := write_value [("network", Some "testnet"); ("secret_env", Some "SEED")].
Definition ex_file : fileConfig := mkFileConfig "testnet" "" "SEED" "".

Lemma parseConfig_no_secret_witness :
  length ex_config <= maxConfigBytes ∧
  (∀ fields k v, json_UnmarshalStrings ex_config = Ok fields → (k, v) ∈ fields →
     (lowerString k ∉ forbiddenSecretKeys) ∧ ∀ text, v = Some text → looksLikeSecret text = false) ∧
  (Config_SecretEnv ex_file = "" ∨
   (looksLikeSecret (Config_SecretEnv ex_file) = false ∧ envVarNamePattern (Config_SecretEnv ex_file) = true)) ∧
  (Config_Format ex_file = "" ∨ Config_Format ex_file ∈ configFormats) ∧
  ∃ rest, json_DecodeConfig ex_config = Ok (ex_file, rest) ∧ jsonEOF rest = true.
Proof. apply (parseConfig_no_secret "config.json"). vm_compute. reflexivity. Defined.

Example ex_config_refused :
  map (λ fs, is_ok (parseConfig "c" (write_value (fs : list (string * option string)))))
    [[("Seed", Some "x")]; [("network", Some ex_seed)]; [("secret_env", Some "SEED VAR")];
     [("format", Some "xml")]; [("rpc_url", Some "http://rpc")]] = [false; false; false; false; true].
Proof. vm_compute. reflexivity. Qed.

(** A null after a secret hides it from the check of the keys. *)
Example ex_config_null :
  parseConfig "c" (write_value [("network", Some ex_seed); ("network", None)]) = Ok (mkFileConfig ex_seed "" "" "").
Proof. vm_compute. reflexivity. Qed.

Example ex_precedence :
  let cfg := mkLoadedConfig "c" true ex_file in
  let env name := if String.eqb name "SOROAUTH_NETWORK" then "public" else "" in
  map Value [resolveNetworkValue (Some ["network"]) "" env cfg; resolveNetworkValue (Some []) "x" env cfg;
             resolveNetworkValue (Some []) "x" (λ _, "") cfg; resolveRPCURLValue (Some []) "" env cfg "d"]
  = [""; "public"; "testnet"; "d"].
Proof. vm_compute. reflexivity. Qed.

Example ex_machine :
  let show e := (Code (machineError (Some e)), Field (machineError (Some e)), Fields_ExitCode (machineError (Some e))) in
  show (usageError "--entry is required") = ("usage_error", "--entry", 2%Z) ∧
  show (newErrorf ExitSigningRefusal (EWrap "sign" (MissingSignerError "G"))) = ("missing_signer", "--secret-env", 3%Z) ∧
  show (ESentinel ErrWrongNetwork) = ("command_failed", "", 1%Z).
Proof. repeat split; vm_compute; reflexivity. Qed.
