(* ===== verification/ExecSigner.v ===== *)
(** * ExecSigner: signing through an external program
    (cmd/soroauth/exec_signer.go)

    The command line can hand the payload to a helper program that speaks the
    messages of [Remote] on its standard input and output.  The helper is not
    trusted: [validateSignatureScVal] checks what it answers.  The theorems
    show what an accepted answer is ([execSigner_sound]), and that the helper's
    environment and
    command line hold no secret ([sanitizeHelperEnv_clean]).

    Running the program, the strict JSON decoder and the text of a duration are
    the class [ExecLib]. *)
From Stdlib Require Import ZArith Lia Strings.Byte String Ascii.
From stdpp Require Import base list strings gmap pretty.
From S2P Require Import Prelude Encoding Errors Xdr ModelSDK Runtime Examples Address Limits Arm Preimage Signers.
From S2P Require Import Retry Inspect Verify Envelope Remote Vault Custody CliSpec Cli.

Open Scope string_scope. Open Scope nat_scope. Open Scope list_scope.

(** ** Running a program *)
Inductive runOutcome :=
| RunOk
| RunExit (code : Z)                         (* [*exec.ExitError] *)
| RunFailed (e : error).                     (* any other error of [Run] *)

Record helperRun := mkHelperRun { run_stdout : bytes; run_stderr : bytes; run_outcome : runOutcome }.

Class ExecLib := {
  (* [exec.CommandContext(ctx, command)] run with an environment and an input *)
  exec_Run : Ctx → string → list string → bytes → World → helperRun * World;
  json_DecodeResponseStrict : bytes → result (Response * bytes);
  Duration_String : Z → string
}.

(** ** The environment *)
Definition allowedHelperEnvVars : list string :=
  ["PATH"; "HOME"; "TMPDIR"; "TMP"; "TEMP"; "TERM"; "LANG"; "LC_ALL"; "USER"; "LOGNAME"; "SYSTEMROOT"].

(** [strings.FieldsFunc]: the maximal runs without a separator. *)
Fixpoint FieldsFunc (sep : ascii → bool) (s : string) : list string :=
  match s with
  | EmptyString => []
  | String c s' =>
      let fields := FieldsFunc sep s' in
      if sep c then fields
      else
        match String.get 0 s', fields with
        | Some d, f :: fs => if sep d then String c EmptyString :: f :: fs else String c f :: fs
        | _, fs => String c EmptyString :: fs
        end
  end.

Definition tokenSeparator (c : ascii) : bool :=
  existsb (Ascii.eqb c) [" "; "009"; "010"; "013"; "="; ":"; ";"; ","]%char.

Section exec_signer.
Context `{SDK} `{EnvelopeSDK} `{NetURL} `{CustodyLib} `{CliLib} `{RemoteJSON} `{ExecLib}.

Definition containsSecretToken (s : string) : bool :=
  looksLikeSecret s || existsb looksLikeSecret (FieldsFunc tokenSeparator s).

Definition sanitizeHelperEnv (getenv : string → string) : list string :=
  omap (λ key,
    let val := getenv key in
    if String.eqb val "" then None
    else if containsSecretToken val then None
    else Some (key +:+ "=" +:+ val)) allowedHelperEnvVars.

(** ** The signer *)
Record execSigner := mkExecSigner {
  exec_command : string;
  exec_address : string;
  exec_timeout : Z;
  exec_env : list string
}.

Definition newExecSigner (command address : string) (timeout : Z) (getenv : string → string)
    : result execSigner :=
  let trimmed := TrimSpace command in
  _ ← refuse (String.eqb trimmed "") (usageError "--signer-cmd must not be empty");
  _ ← refuse (containsSecretToken trimmed)
        (usageError ("--signer-cmd contains a secret-shaped value; " +:+
           "pass only the path to the signer executable, never a secret"));
  _ ← refuse (timeout <=? 0)%Z (usageError "--signer-timeout must be greater than zero");
  Ok (mkExecSigner trimmed address timeout (sanitizeHelperEnv getenv)).

Definition withAddress (s : execSigner) (addr : string) : execSigner :=
  mkExecSigner (exec_command s) addr (exec_timeout s) (exec_env s).

(** [fmt.Errorf("%w...", sentinel)] with a text after it. *)
Definition marked (s : sentinel) (text : string) : error := EMarked (sentinel_text s +:+ text) s.
Definition malformed (text : string) : error := marked errExecSignerMalformedOutput (": " +:+ text).

(** ** The checks on a signature *)
(** The keys compared are the neighbouring pairs of symbols. *)
Fixpoint validateMapKeysSorted (entries : list (ScVal * ScVal)) : result unit :=
  match entries with
  | (prev, _) :: ((curr, _) :: _) as rest =>
      _ ← match prev, curr with
          | ScvSymbol (Some p), ScvSymbol (Some c) =>
              refuse (negb (bytes_lt (bytes_of_string p) (bytes_of_string c)))
                (EText ("signature map keys are not in sorted order (" +:+ quoted p +:+ " before " +:+ quoted c +:+ ")"))
          | _, _ => Ok tt
          end;
      validateMapKeysSorted rest
  | _ => Ok tt
  end.

Fixpoint looksLikeAccountSignatureVec (entries : list ScVal) : bool :=
  match entries with
  | [] => false
  | ScvMap (Some (Some fields)) :: rest =>
      existsb (λ '(k, _), match k with
        | ScvSymbol (Some s) => String.eqb s "public_key" || String.eqb s "signature"
        | _ => false
        end) fields || looksLikeAccountSignatureVec rest
  | _ :: _ => false
  end.

(** The loop over the two fields of a map. *)
Fixpoint signatureFields (entry : string) (fields : list (ScVal * ScVal)) (pubKey sigBytes : bytes)
    : result (bytes * bytes) :=
  match fields with
  | [] => Ok (pubKey, sigBytes)
  | (ScvSymbol (Some keyName), val) :: rest =>
      match val with
      | ScvBytes (Some b) =>
          if String.eqb keyName "public_key" then signatureFields entry rest b sigBytes
          else if String.eqb keyName "signature" then signatureFields entry rest pubKey b
          else Err (EText (entry +:+ " has unknown map field " +:+ quoted keyName +:+
                           " (want public_key and signature)"))
      | _ => Err (EText (entry +:+ " field " +:+ quoted keyName +:+ " is " +:+ ScValType_String val +:+
                         ", want ScvBytes"))
      end
  | (key, _) :: _ => Err (EText (entry +:+ " has non-symbol map key " +:+ ScValType_String key))
  end.

Definition validateAccountSignature (payload : bytes) (i : nat) (elem : ScVal) : result unit :=
  let entry := "signature vector entry " +:+ pretty i in
  match elem with
  | ScvMap (Some (Some fields)) =>
      _ ← wrap entry (validateMapKeysSorted fields);
      _ ← refuse (negb (Nat.eqb (length fields) 2))
            (EText (entry +:+ " has " +:+ pretty (length fields) +:+ " map fields, want 2 (public_key and signature)"));
      '(pubKey, sigBytes) ← signatureFields entry fields [] [];
      _ ← refuse (negb (Nat.eqb (length pubKey) 32))
            (EText (entry +:+ " public_key is " +:+ pretty (length pubKey) +:+ " bytes, want 32"));
      _ ← refuse (negb (Nat.eqb (length sigBytes) 64))
            (EText (entry +:+ " signature is " +:+ pretty (length sigBytes) +:+ " bytes, want 64"));
      refuse (negb (ed25519_Verify pubKey payload sigBytes))
        (EText (entry +:+ " Ed25519 signature does not verify over payload"))
  | _ => Err (EText (entry +:+ " is " +:+ ScValType_String elem +:+ ", want ScvMap"))
  end.

Definition validateAccountSignatureVec (entries : list ScVal) (payload : bytes) : result unit :=
  iterM_from (validateAccountSignature payload) 0 entries.

Definition validateCustomScValElement (v : ScVal) : result unit :=
  match v with
  | ScvVoid | ScvError _ => Err (EText ("disallowed element type " +:+ ScValType_String v))
  | ScvMap (Some (Some fields)) => validateMapKeysSorted fields
  | ScvMap _ => Err (EText "nil ScvMap element")
  | _ => Ok tt
  end.

Definition isAccountText (targetAddress : string) : bool :=
  match ParseAddress targetAddress with
  | Ok (ScAddressTypeAccount _) => negb (String.eqb targetAddress "")
  | _ => false
  end.

(** The value's own checks, by its type. *)
Definition validateShape (sig : ScVal) (isClassicAccount : bool) (payload : bytes) : result unit :=
  let wantVec got := EText ("classic account signature must be an ScvVec of {public_key, signature} maps, got " +:+ got) in
  match sig with
  | ScvVoid => Err (EText "signature ScVal is ScvVoid (unsigned placeholder)")
  | ScvVec (Some (Some ((e :: es) as entries))) =>
      _ ← refuse (Nat.ltb 20 (length entries))
            (EText ("signature vector has " +:+ pretty (length entries) +:+ " entries, exceeding maximum 20"));
      if isClassicAccount || looksLikeAccountSignatureVec entries
      then validateAccountSignatureVec entries payload
      else iterM_from (λ i elem, wrap ("signature vector element " +:+ pretty i) (validateCustomScValElement elem)) 0 entries
  | ScvVec _ => Err (EText "signature ScVal is an empty ScvVec (unsigned placeholder)")
  | ScvMap o =>
      _ ← refuse isClassicAccount (wantVec "ScvMap");
      match o with
      | Some (Some ((e :: es) as fields)) => validateMapKeysSorted fields
      | _ => Err (EText "signature ScVal is an empty ScvMap")
      end
  | ScvBytes o =>
      _ ← refuse isClassicAccount (wantVec "ScvBytes");
      match o with
      | Some (_ :: _) => Ok tt
      | _ => Err (EText "signature ScVal is empty ScvBytes")
      end
  | _ => Err (EText ("signature ScVal has unsupported type " +:+ ScValType_String sig))
  end.

Definition validateSignatureScVal (encoded targetAddress : string) (payload : bytes) : result ScVal :=
  raw ← wrap "signature is not valid base64" (decodeBase64 encoded);
  _ ← refuse (Nat.eqb (length raw) 0) (EText "signature base64 decoded to zero bytes");
  sig ← wrap "signature is not valid ScVal XDR" (UnmarshalBinary raw);
  _ ← validateShape sig (isAccountText targetAddress) payload;
  Ok sig.

(** ** One call *)
(** What the process's end makes of the call: its context first, asked for a
    deadline and then for a cancellation. *)
Definition runFailure (s : execSigner) (first callErr : option error) (run : helperRun) : result unit :=
  let is_ c e := match c with Some c => errors_Is c e | None => false end in
  if is_ first ContextDeadlineExceeded then
    Err (marked errExecSignerTimeout (" after " +:+ Duration_String (exec_timeout s) +:+ " running " +:+
           quoted (exec_command s)))
  else if is_ callErr ContextCanceled then
    Err (EWrap "exec signer" (default (EText "") callErr))
  else
    match run_outcome run with
    | RunOk => Ok tt
    | RunExit code =>
        let detail := TrimSpace (string_of_bytes (run_stderr run)) in
        let detail := if containsSecretToken detail then "[stderr redacted: contained secret-shaped token]" else detail in
        Err (marked errExecSignerExit (" (exit code " +:+ FormatInt code +:+ ")" +:+
               (if String.eqb detail "" then "" else ": " +:+ detail)))
    | RunFailed e =>
        Err (marked errExecSignerExit (": starting " +:+ quoted (exec_command s) +:+ ": " +:+ Error e))
    end.

(** The helper's answer. *)
Definition readResponse (rawOut : bytes) : result string :=
  _ ← refuse (2 ^ 20 <? N.of_nat (length rawOut))%N (malformed "response exceeds maximum size (1048576 bytes)");
  _ ← refuse (String.eqb (TrimSpace (string_of_bytes rawOut)) "")
        (malformed "empty stdout (expected JSON response)");
  '(resp, rest) ← match json_DecodeResponseStrict rawOut with
                  | Ok r => Ok r
                  | Err e => Err (malformed ("invalid JSON response: " +:+ Error e))
                  end;
  _ ← refuse (negb (jsonEOF rest)) (malformed "unexpected trailing data after JSON response");
  _ ← refuse (negb (Response_Version resp =? Version)%Z)
        (malformed ("unsupported protocol version " +:+ FormatInt (Response_Version resp) +:+
           " (want " +:+ FormatInt Version +:+ ")"));
  _ ← refuse (negb (String.eqb (Response_Error resp) "") && negb (String.eqb (Response_Signature resp) ""))
        (malformed "response sets both signature and error");
  _ ← refuse (negb (String.eqb (Response_Error resp) ""))
        (marked errExecSignerRefused (": " +:+
           (if containsSecretToken (Response_Error resp) then "[error redacted: contained secret-shaped token]"
            else Response_Error resp)));
  _ ← refuse (String.eqb (Response_Signature resp) "") (malformed "response is missing signature field");
  Ok (Response_Signature resp).

Definition helperRequest (s : execSigner) (encodedPreimage : string) (payload : bytes) : bytes :=
  json_MarshalRequest (mkRequest Version (exec_address s) encodedPreimage (hex_EncodeToString payload)) ++ [x0a]%byte.

(** [None] is a nil receiver. *)
Definition execSigner_Sign (s : option execSigner) (ctx : Ctx) (preimage : HashIdPreimage) (payload : bytes)
    : IO ScVal :=
  _ ← ctx_check ctx "exec signer";
  let missing := EWrap "exec signer" (ESentinel ErrMissingSigner) in
  s ← lift (s ← of_option s missing; _ ← refuse (String.eqb (exec_address s) "") missing; Ok s);
  encodedPreimage ← lift (wrap "exec signer: encoding the preimage" (MarshalBase64 preimage));
  callCtx ← (λ w, (Ok (WithTimeout ctx (now w) (exec_timeout s)), w));
  run ← (λ w, let '(run, w') := exec_Run callCtx (exec_command s) (exec_env s)
                                (helperRequest s encodedPreimage payload) w in (Ok run, w'));
  first ← ctx_poll callCtx;
  callErr ← ctx_poll callCtx;
  lift (_ ← runFailure s first callErr run;
        encoded ← readResponse (run_stdout run);
        match validateSignatureScVal encoded (exec_address s) payload with
        | Ok sig => Ok sig
        | Err e => Err (malformed (Error e))
        end).

Definition execSigner_asSigner (s : option execSigner) : Signer :=
  mkSigner (match s with Some s => exec_address s | None => "" end) (execSigner_Sign s) None.

(** ** Which address to sign for *)
Definition inferSingleEntryAddress (entry : SorobanAuthorizationEntry) : result string :=
  let t := Credentials_Type (Credentials entry) in
  if (t =? CredentialsSourceAccount)%Z then Ok ""
  else if (t =? CredentialsAddressWithDelegates)%Z then
    Err (usageError "--for is required with --signer-cmd when the entry carries delegates")
  else
    match Inspect entry with
    | Err e => Err (newErrorf ExitUsageError (EWrap "inspecting entry address" e))
    | Ok info =>
        _ ← refuse (String.eqb (Info_Address info) "")
              (usageError "--for is required with --signer-cmd when the entry has no address");
        Ok (Info_Address info)
    end.
End exec_signer.

(** ** Lemmas *)
Section exec_lemmas.
Context `{SDK} `{EnvelopeSDK} `{NetURL} `{CustodyLib} `{CliLib} `{RemoteJSON} `{ExecLib} `{!SDKLaws}.

Lemma signatureFields_step entry k v rest pk sg r :
  signatureFields entry ((k, v) :: rest) pk sg = Ok r →
  ∃ name b, k = ScvSymbol (Some name) ∧ v = ScvBytes (Some b) ∧
    ((name = "public_key" ∧ signatureFields entry rest b sg = Ok r) ∨
     (name = "signature" ∧ signatureFields entry rest pk b = Ok r)).
Proof.
  cbn [signatureFields]. destruct k as [| | | | | | | | | | | | | | |[name|]| | | | | | | |]; try done.
  destruct v as [| | | | | | | | | | | | |[b|]| | | | | | | | | |]; try done.
  destruct (String.eqb_spec name "public_key") as [->|_]; [eauto 8|].
  destruct (String.eqb_spec name "signature") as [->|_]; [eauto 8|done].
Qed.

(** One element of an accepted vector is one checked account signature. *)
Lemma validateAccountSignature_Ok payload i elem :
  validateAccountSignature payload i elem = Ok tt →
  ∃ pk sig, elem = accountSignature pk sig ∧ length pk = 32 ∧ length sig = 64 ∧
    ed25519_Verify pk payload sig = true.
Proof.
  unfold validateAccountSignature. intros Hv.
  destruct elem as [| | | | | | | | | | | | | | | | |[[fields|]|]| | | | | |]; try done. inv_ok.
  apply negb_false_iff, Nat.eqb_eq in Hx0. destruct fields as [|[k1 v1] [|[k2 v2] [|]]]; try done.
  destruct x1 as [pk sig]. inv_ok.
  repeat match goal with E : negb _ = false |- _ => apply negb_false_iff in E end.
  match goal with E : (length pk =? 32) = true |- _ => apply Nat.eqb_eq in E end.
  match goal with E : (length sig =? 64) = true |- _ => apply Nat.eqb_eq in E end.
  apply signatureFields_step in Hx1 as (n1 & b1 & -> & -> & Hf).
  destruct Hf as [[-> Hf]|[-> Hf]]; apply signatureFields_step in Hf as (n2 & b2 & -> & -> & [[-> Hf]|[-> Hf]]);
    injection Hf as <- <-; cbn in Hx; try discriminate Hx.
  by exists b1, b2.
Qed.

Lemma validateAccountSignatureVec_Ok entries payload :
  validateAccountSignatureVec entries payload = Ok tt →
  ∃ keys, entries = map (λ '(pk, sig), accountSignature pk sig) keys ∧
    Forall (λ '(pk, sig), length pk = 32 ∧ length sig = 64 ∧ ed25519_Verify pk payload sig = true) keys.
Proof.
  unfold validateAccountSignatureVec. generalize 0 at 1. induction entries as [|e entries IH]; intros i Hi.
  { exists []. by split. }
  cbn [iterM_from] in Hi. inv_ok. apply IH in Hi as (keys & -> & Hf).
  apply validateAccountSignature_Ok in Hx as (pk & sig & -> & Hone).
  exists ((pk, sig) :: keys). split; [done|]. constructor; [exact Hone|exact Hf].
Qed.

(** No variable of the helper's environment holds a secret, whole or as a part,
    and none but those allowed is passed on. *)
Lemma sanitizeHelperEnv_clean getenv v : v ∈ sanitizeHelperEnv getenv →
  ∃ key, key ∈ allowedHelperEnvVars ∧ v = key +:+ "=" +:+ getenv key ∧ getenv key ≠ "" ∧
    containsSecretToken (getenv key) = false.
Proof.
  unfold sanitizeHelperEnv. intros (key & Hk & Hv)%list_elem_of_omap. exists key. split; [done|].
  destruct (String.eqb_spec (getenv key) "") as [|Hne]; [done|].
  destruct (containsSecretToken (getenv key)); [done|]. by injection Hv as <-.
Qed.

Lemma runFailure_Ok s first callErr run u : runFailure s first callErr run = Ok u →
  run_outcome run = RunOk ∧ (∀ c, first = Some c → errors_Is c ContextDeadlineExceeded = false) ∧
  (∀ c, callErr = Some c → errors_Is c ContextCanceled = false).
Proof.
  unfold runFailure. cbv zeta. intros Hr. destruct (match first with Some c => _ | None => _ end) eqn:Hfirst; [done|].
  destruct (match callErr with Some c => _ | None => _ end) eqn:Hcall; [done|].
  destruct (run_outcome run); [|done..]. split; [done|]. split; intros c ->; done.
Qed.

(** *** What a helper may answer, and how it is run *)
(** One response of the protocol's version, of at most 1 MiB with nothing but
    white space after it, that refuses nothing and holds a signature. *)
Definition strict_response (stdout : bytes) (encoded : string) : Prop :=
  (N.of_nat (length stdout) <= 1048576)%N ∧
  ∃ resp rest, json_DecodeResponseStrict stdout = Ok (resp, rest) ∧
    Forall (λ b, b ∈ [x20; x09; x0d; x0a]%byte) rest ∧ Response_Version resp = 1%Z ∧
    Response_Error resp = "" ∧ Response_Signature resp = encoded ∧ encoded ≠ "".

(** The program was run once, from the world [w] of the call, without arguments,
    on the one request for the address and the payload and under the call's
    timeout; nothing but two looks at that context came after it. *)
Definition ran (s : execSigner) (ctx : Ctx) (pre : HashIdPreimage) (payload : bytes) (w : World)
    (run : helperRun) (w1 w' : World) : Prop :=
  ∃ encodedPreimage, MarshalBase64 pre = Ok encodedPreimage ∧
    exec_Run (WithTimeout ctx (now (tick w)) (exec_timeout s)) (exec_command s) (exec_env s)
      (json_MarshalRequest (mkRequest 1 (exec_address s) encodedPreimage (hex_EncodeToString payload)) ++ [x0a]%byte)
      (tick w) = (run, w1) ∧ w' = tick (tick w1).

Lemma jsonEOF_spec rest : jsonEOF rest = true ↔ Forall (λ b, b ∈ [x20; x09; x0d; x0a]%byte) rest.
Proof.
  unfold jsonEOF. rewrite forallb_forall, Forall_forall. setoid_rewrite <-list_elem_of_In.
  split; intros Hall b Hb; specialize (Hall b Hb).
  - apply existsb_In in Hall as (x & Hx & ->%Byte.byte_dec_bl). exact Hx.
  - apply existsb_In. exists b. split; [exact Hall|]. by apply Byte.byte_dec_lb.
Qed.

Lemma readResponse_strict out encoded : readResponse out = Ok encoded → strict_response out encoded.
Proof.
  unfold readResponse. intros Hr. inv_ok.
  destruct (json_DecodeResponseStrict out) as [[resp rest]|e] eqn:Hd; [|done]. inv_ok.
  repeat match goal with
    | E : negb _ = false |- _ => apply negb_false_iff in E
    | E : (?a =? ?b)%Z = true |- _ => apply Z.eqb_eq in E
    | E : String.eqb _ _ = true |- _ => apply String.eqb_eq in E
    | E : String.eqb _ _ = false |- _ => apply String.eqb_neq in E
    | E : (_ <? _)%N = false |- _ => apply N.ltb_ge in E
    end.
  split; [done|]. exists resp, rest. split; [done|]. split; [by apply jsonEOF_spec|]. done.
Qed.

(** A call that gets past its own checks runs the program once. *)
Lemma execSigner_Sign_inv e ctx pre payload w r w' :
  execSigner_Sign (Some e) ctx pre payload w = (r, w') →
  (∃ err, r = Err err ∧ w' = tick w) ∨
  (∃ run w1, ran e ctx pre payload w run w1 w' ∧
    let callCtx := WithTimeout ctx (now (tick w)) (exec_timeout e) in
    r = (_ ← runFailure e (ctx_Err callCtx (now w1)) (ctx_Err callCtx (S (now w1))) run;
         encoded ← readResponse (run_stdout run);
         match validateSignatureScVal encoded (exec_address e) payload with
         | Ok sig => Ok sig
         | Err err => Err (malformed (Error err))
         end)).
Proof.
  unfold execSigner_Sign, ctx_check, ctx_poll, mbind, IO_bind, lift, of_option, ran.
  destruct (ctx_Err ctx (now w)) as [err|]; [intros [= <- <-]; left; by eexists|].
  cbn [mbind result_bind]. destruct (String.eqb (exec_address e) ""); cbn.
  { intros [= <- <-]; left; by eexists. }
  destruct (MarshalBase64 pre) as [encodedPreimage|err]; cbn; [|intros [= <- <-]; left; by eexists].
  unfold helperRequest.
  match goal with |- context [exec_Run ?a ?b ?c ?d ?f] => destruct (exec_Run a b c d f) as [run w1] eqn:Hrun end.
  intros [= <- <-]. right. exists run, w1. split; [|done]. by exists encodedPreimage.
Qed.

(** A classic account's value: a vector of checked account signatures. *)
Lemma validateShape_account sig payload : validateShape sig true payload = Ok tt →
  ∃ keys, sig = account_signatures keys ∧ 1 <= length keys <= 20 ∧
    Forall (λ '(pk, sg), length pk = 32 ∧ length sg = 64 ∧ ed25519_Verify pk payload sg = true) keys.
Proof.
  unfold validateShape. intros Hv. destruct sig; try done.
  destruct Vec as [[[|e es]|]|]; try done. inv_ok. cbn [orb] in Hv.
  apply validateAccountSignatureVec_Ok in Hv as (keys & He & Hf). exists keys.
  apply Nat.ltb_ge in Hx. split; [unfold account_signatures; by rewrite <-He|]. split; [|exact Hf].
  rewrite <-(length_map (λ '(pk, sg), accountSignature pk sg)), <-He. cbn [length] in *. lia.
Qed.

(** An accepted value is never the unsigned placeholder. *)
Lemma validateShape_signed sig classic payload : validateShape sig classic payload = Ok tt →
  isSigned sig = true.
Proof. unfold validateShape. intros Hv. destruct sig; try done. by destruct Vec as [[[|]|]|]. Qed.
End exec_lemmas.

(** ** Theorems *)
Section exec_theorems.
Context `{SDK} `{EnvelopeSDK} `{NetURL} `{CustodyLib} `{CliLib} `{RemoteJSON} `{ExecLib} `{!SDKLaws}.

(** C33. What a helper program can do: its command line and environment hold no
    secret-shaped text, and a call runs it once, or not at all when it fails
    before, on one request for the signer's address and the payload.  A value
    is returned only when the program ended well, before its deadline and with
    the call not cancelled, and printed one response of at most 1 MiB, of the
    protocol's version, with no error and nothing but white space after it,
    whose signature decodes to that value.  For an account the value is one to
    twenty account signatures that verify over the payload, and never the
    unsigned placeholder. *)
Theorem execSigner_sound command address timeout getenv s ctx pre payload w r w' :
  newExecSigner command address timeout getenv = Ok s →
  execSigner_Sign (Some s) ctx pre payload w = (r, w') →
  containsSecretToken (exec_command s) = false ∧
  (∀ var, var ∈ exec_env s → ∃ key, key ∈ allowedHelperEnvVars ∧ var = key +:+ "=" +:+ getenv key ∧
     containsSecretToken (getenv key) = false) ∧
  match r with
  | Err _ => w' = tick w ∨ ∃ run w1, ran s ctx pre payload w run w1 w'
  | Ok v => ∃ run w1 encoded raw, ran s ctx pre payload w run w1 w' ∧ run_outcome run = RunOk ∧
      (∀ e, ctx_Err (WithTimeout ctx (now (tick w)) timeout) (now w1) = Some e →
         errors_Is e ContextDeadlineExceeded = false) ∧
      (∀ e, ctx_Err (WithTimeout ctx (now (tick w)) timeout) (S (now w1)) = Some e →
         errors_Is e ContextCanceled = false) ∧
      strict_response (run_stdout run) encoded ∧
      decodeBase64 encoded = Ok raw ∧ UnmarshalBinary raw = Ok v ∧ isSigned v = true ∧
      (isAccountText address = true → ∃ keys, v = account_signatures keys ∧ 1 <= length keys <= 20 ∧
         Forall (λ '(pk, sig), length pk = 32 ∧ length sig = 64 ∧ ed25519_Verify pk payload sig = true) keys)
  end.
Proof.
  unfold newExecSigner. intros Hnew Hs. inv_ok. cbn [exec_command exec_env].
  split; [done|]. split.
  { intros var (key & ? & ? & _ & ?)%sanitizeHelperEnv_clean. eauto. }
  apply execSigner_Sign_inv in Hs as [(err & -> & ->)|(run & w1 & Hran & Hr)]; [by left|].
  cbn [exec_timeout exec_address] in Hr. destruct r as [v|err]; [|right; by exists run, w1].
  symmetry in Hr. apply bind_Ok in Hr as (u & (Hout & Hd & Hca)%runFailure_Ok & (encoded & Hres%readResponse_strict & Hv)%bind_Ok).
  destruct (validateSignatureScVal encoded address payload) as [sig|] eqn:Hval; [|done]. injection Hv as ->.
  unfold validateSignatureScVal in Hval. inv_ok.
  eexists run, w1, encoded, _. repeat (split; [eassumption|]). split; [by eapply validateShape_signed|].
  intros Ha. rewrite Ha in *. by apply validateShape_account.
Qed.
End exec_theorems.

(** ** Concrete helpers *)
(** A helper answers a payload with a value, or refuses. *)
Definition ex_answer (value : bytes → ScVal) (stdin : bytes) : helperRun :=
  match (req ← json_DecodeRequest (take (length stdin - 1) stdin);
         payload ← decodeHex (Request_Payload req); MarshalBase64 (value payload)) with
  | Ok encoded => mkHelperRun (json_EncodeResponse (mkResponse Version encoded "")) [] RunOk
  | Err e => mkHelperRun (json_EncodeResponse (mkResponse Version "" (Error e))) [] RunOk
  end.
Definition ex_signatures (bs : list Byte.byte) (payload : bytes) : ScVal :=
  account_signatures (map (λ b, (ex_key b, payload ++ ex_key b)) bs).

#[export] Instance ModelExecLib : ExecLib := {|
  exec_Run ctx command env stdin w :=
    (if String.eqb command "sign" then ex_answer (ex_signatures ["a"]%byte) stdin
     else if String.eqb command "unordered" then ex_answer (ex_signatures ["b"; "a"; "b"]%byte) stdin
     else if String.eqb command "void" then ex_answer (λ _, ScvVoid) stdin
     else if String.eqb command "refuse" then
       mkHelperRun (json_EncodeResponse (mkResponse Version "" ("no: " +:+ ex_seed))) [] RunOk
     else mkHelperRun [] (bytes_of_string "boom") (RunExit 3), tick w);
  json_DecodeResponseStrict b := r ← json_DecodeResponse b; Ok (r, []);
  Duration_String d := FormatInt d
|}.

Definition ex_getenv (name : string) : string :=
  if String.eqb name "PATH" then "/bin" else if String.eqb name "HOME" then "x;" +:+ ex_seed
  else if String.eqb name "SOROAUTH_SEED" then ex_seed else "".
Definition ex_exec (command : string) : execSigner :=
  mkExecSigner command (ex_text "a") Minute (sanitizeHelperEnv ex_getenv).
Definition ex_call (command : string) : result ScVal :=
  match Preimage (ex_v2 "a" 0 ScvVoid) 1000 ex_network with
  | Ok pre => (execSigner_Sign (Some (ex_exec command)) Background pre (ex_key "p") initial_world).1
  | Err e => Err e
  end.
Definition ex_preimage : HashIdPreimage :=
  match Preimage (ex_v2 "a" 0 ScvVoid) 1000 ex_network with
  | Ok pre => pre
  | Err _ => PreimageOfSorobanAuthorization None
  end.

Example ex_exec_env : sanitizeHelperEnv ex_getenv = ["PATH=/bin"].
Proof. vm_compute. reflexivity. Qed.

Lemma execSigner_sound_witness :
  ∃ w' run w1 encoded raw, ran (ex_exec "sign") Background ex_preimage (ex_key "p") initial_world run w1 w' ∧
    run_outcome run = RunOk ∧ strict_response (run_stdout run) encoded ∧
    decodeBase64 encoded = Ok raw ∧ UnmarshalBinary raw = Ok (ex_signatures ["a"]%byte (ex_key "p")) ∧
    (isAccountText (ex_text "a") = true → ∃ keys, ex_signatures ["a"]%byte (ex_key "p") = account_signatures keys ∧
       1 <= length keys <= 20 ∧
       Forall (λ '(pk, sig), length pk = 32 ∧ length sig = 64 ∧ ed25519_Verify pk (ex_key "p") sig = true) keys).
Proof.
  assert (Hrun : ∃ w', execSigner_Sign (Some (ex_exec "sign")) Background ex_preimage (ex_key "p") initial_world =
    (Ok (ex_signatures ["a"]%byte (ex_key "p")), w')) by (eexists; vm_compute; reflexivity).
  destruct Hrun as [w' Hrun].
  assert (Hnew : newExecSigner "sign" (ex_text "a") Minute ex_getenv = Ok (ex_exec "sign")) by (vm_compute; reflexivity).
  destruct (execSigner_sound _ _ _ _ _ _ _ _ _ _ _ Hnew Hrun)
    as (_ & _ & run & w1 & encoded & raw & Hran & Ho & _ & _ & Hst & Hd & Hu & _ & Ha).
  exists w', run, w1, encoded, raw. exact (conj Hran (conj Ho (conj Hst (conj Hd (conj Hu Ha))))).
Defined.

(** The refusals keep their sentinels, and no secret of an answer is repeated. *)
Example ex_exec_refusals :
  (∃ e, ex_call "void" = Err e ∧ errors_Is e errExecSignerMalformedOutput = true) ∧
  (∃ e, ex_call "exit" = Err e ∧ errors_Is e errExecSignerExit = true ∧
        Error e = "external signer exited non-zero (exit code 3): boom") ∧
  (∃ e, ex_call "refuse" = Err e ∧ errors_Is e errExecSignerRefused = true ∧
        Error e = "external signer refused to sign: [error redacted: contained secret-shaped token]").
Proof. split_and!; eexists; split_and!; vm_compute; reflexivity. Qed.

(** A vector whose keys are out of order and repeated is accepted, though the
    host takes strictly ascending keys only ([host_accepts]). *)
Example ex_exec_unordered : ex_call "unordered" = Ok (ex_signatures ["b"; "a"; "b"]%byte (ex_key "p")).
Proof. vm_compute. reflexivity. Qed.
