(* ===== verification/CliCommands.v ===== *)
(** * CliCommands: verify, inspect and sign on the command line
    (cmd/soroauth: batch.go, verify.go, inspect.go, sign.go)

    Each command starts from its parsed flags.  Batches read one entry per
    line and report every one of them; the theorems show what a successful exit
    of [verify] means ([runVerify_sound]), that a batch's exit code is its first
    failure's ([batchLoop_run]), and that signing a batch prints everything or
    nothing ([runSignBatch_all_or_nothing]).

    Opening a file and the JSON texts of the reports are the class [ReportLib];
    the fetchers of the network and the ledger are arguments. *)
From Stdlib Require Import ZArith Lia Strings.Byte String Ascii.
From stdpp Require Import base list strings gmap pretty.
From S2P Require Import Prelude Encoding Errors Xdr ModelSDK Runtime Examples Address Limits Arm Preimage Signers.
From S2P Require Diff.
From S2P Require Import Nodes Retry Inspect Delegates Authorize Verify Batch Envelope Remote Vault Custody.
From S2P Require Import CliSpec Cli ExecSigner.

Open Scope string_scope. Open Scope nat_scope. Open Scope list_scope.

(** ** Reports *)
Record verifyEntryOutput := mkVerifyEntryOutput {
  Output_OperationIndex : nat;
  Output_EntryIndex : nat;
  Output_CredentialType : string;
  Output_AddressBound : bool;
  Output_Address : string;
  Output_ValidUntilLedger : Z;
  Output_Verified : bool;
  Output_Nodes : list NodeVerdict;
  Output_Note : string
}.

Definition newVerifyEntryOutput (report : VerificationReport) : verifyEntryOutput :=
  mkVerifyEntryOutput 0 0 (Report_CredentialType report) (AddressBound report) (Report_Address report)
    (Report_ValidUntilLedger report) (Verified report) (Report_Nodes report) (Note report).

Definition verifyEntryOutput_String (v : verifyEntryOutput) : string :=
  VerificationReport_String (mkReport (Output_CredentialType v) (Output_AddressBound v) (Output_Address v)
    (Output_ValidUntilLedger v) (Output_Nodes v) (Output_Note v)).

Definition verifyFailed (report : VerificationReport) (allowUnsigned : bool) : bool :=
  existsb (λ node, match Verdict node with
    | VerdictVerified => false
    | VerdictUnsigned => negb allowUnsigned
    | _ => true
    end) (Report_Nodes report).

(** What one input of a batch came to, by the command. *)
Inductive batchPayload :=
| PayloadVerify (out : verifyEntryOutput)
| PayloadInspect (info : EntryInfo)
| PayloadSigned (SignedEntry : string)
| PayloadDiff (report : Diff.EntryDiff).

Record batchInput := mkBatchInput { Index : nat; Outcome : result SorobanAuthorizationEntry }.

Record batchResult := mkBatchResult {
  BatchEntry : nat;
  Result : option batchPayload;
  BatchError : option jsonErrorFields
}.

Record batchRun := mkBatchRun {
  total : nat;
  results : list batchResult;
  failed : nat;
  first : option error
}.

(** A reader: its bytes, and the error it ends with when that is not the end
    of the file. *)
Record reader := mkReader { reader_bytes : bytes; reader_Err : option error }.

Class ReportLib := {
  os_Open : string → result reader;
  json_EncodeBatch : list batchResult → string;
  json_EncodeOutput : verifyEntryOutput → string;
  json_EncodeOutputs : list verifyEntryOutput → string;
  json_EncodeInfo : EntryInfo → string;
  json_EncodeInfos : list EnvelopeEntryInfo → string;
  json_EncodeSigned : string → string → string       (* the field, the value *)
}.

(** ** batch.go *)
Definition newBatchRun (total : nat) : batchRun := mkBatchRun total [] 0 None.

Definition run_result (b : batchRun) (index : nat) (r : batchPayload) : batchRun :=
  mkBatchRun (total b) (results b ++ [mkBatchResult index (Some r) None]) (failed b) (first b).

Definition recordFailure (b : batchRun) (err : error) : batchRun :=
  mkBatchRun (total b) (results b) (S (failed b)) (if Nat.eqb (failed b) 0 then Some err else first b).

Definition fail_ (b : batchRun) (index : nat) (err : error) : batchRun :=
  recordFailure (mkBatchRun (total b)
    (results b ++ [mkBatchResult index None (Some (machineError (Some err)))]) (failed b) (first b)) err.

Definition summary (b : batchRun) : option error :=
  if Nat.eqb (failed b) 0 then None
  else Some (newErrorf (match first b with Some e => ExitCode (Some e) | None => ExitGeneralError end)
         (EText (pretty (failed b) +:+ " of " +:+ pretty (total b) +:+ " entries failed"))).

Definition signSummary (b : batchRun) : error :=
  let parts := omap (λ r, match BatchError r with
    | Some fields => Some ("entry " +:+ pretty (BatchEntry r) +:+ ": " +:+ Message fields)
    | None => None
    end) (results b) in
  ETyped (inputFieldError "--entries")
    (newErrorf (match first b with Some e => ExitCode (Some e) | None => ExitGeneralError end)
       (EText ("no signed output was written: " +:+ pretty (failed b) +:+ " of " +:+ pretty (total b) +:+
               " entries could not be signed: " +:+ String.concat "; " parts))).

Definition maxBatchLine : N := 2 * 2 ^ 20.

(** [bufio.Scanner] over lines: the lines in turn, and whether one was as long
    as the buffer; a carriage return at a line's end is dropped. *)
Fixpoint splitLines (b : bytes) (line : bytes) : list bytes :=
  match b with
  | [] => match line with [] => [] | _ => [reverse line] end
  | c :: b => if Byte.eqb c x0a then reverse line :: splitLines b [] else splitLines b (c :: line)
  end.
Fixpoint scanLines (lines : list bytes) : list string * bool :=
  match lines with
  | [] => ([], false)
  | l :: lines =>
      if (maxBatchLine <=? N.of_nat (length l))%N then ([], true)
      else let '(rest, tooLong) := scanLines lines in (string_of_bytes l :: rest, tooLong)
  end.

Definition batchSourceName (name : string) : string := if String.eqb name "-" then "stdin" else name.

Definition emptyBatchError (flagName name : string) : error :=
  usageError (flagName +:+ " (" +:+ batchSourceName name +:+ ") contains no entries").

Section commands.
Context `{SDK} `{EnvelopeSDK} `{NetURL} `{CustodyLib} `{CliLib} `{RemoteJSON} `{ExecLib} `{ReportLib}.

(** Writes the summary as [run] returns it. *)
Definition batch_finish (b : batchRun) (jsonMode : bool) : IO unit :=
  if jsonMode then
    _ ← Fprint Stdout (json_EncodeBatch (results b) +:+ newline);
    match summary b with
    | None => mret tt
    | Some e => lift (Err (ETyped jsonErrorHandled e))
    end
  else match summary b with None => mret tt | Some e => lift (Err e) end.

Definition reportBatchFailure (jsonMode : bool) (index : nat) (err : error) : IO unit :=
  if jsonMode then mret tt
  else Fprint Stderr ("entry " +:+ pretty index +:+ ": " +:+ Error err +:+ newline).

Definition decodeBatchLine (index : nat) (line : string) : batchInput :=
  mkBatchInput index
    (match DecodeAuthorizationEntry SafeUnmarshalEntryDepth line [] with
     | Ok entry => Ok entry
     | Err err =>
         let generic := newErrorf ExitUsageError (classifyInput line "a Soroban authorization entry" err) in
         match (envelope ← SafeUnmarshalEnvelope line; EnvelopeEntries envelope) with
         | Ok entries =>
             Err (usageError ("input is a transaction envelope carrying " +:+ pretty (length entries) +:+
               " authorization entries; batch mode takes one entry per line"))
         | Err _ => Err generic
         end
     end).

(** The non-blank lines, numbered from one; a failed read is the next input. *)
Definition batchInputs (name : string) (r : reader) : list batchInput :=
  let '(lines, tooLong) := scanLines (splitLines (reader_bytes r) []) in
  let lines := filter (λ l, l ≠ "") (map TrimSpace lines) in
  let inputs := imap (λ i l, decodeBatchLine (S i) l) lines in
  let failure text :=
    mkBatchInput (S (length inputs)) (Err (newErrorf ExitGeneralError
      (EText ("reading " +:+ batchSourceName name +:+ ": " +:+ text +:+ "; the rest of the input was not read")))) in
  if tooLong then inputs ++ [failure "a line is longer than the 2 MiB line limit"]
  else match reader_Err r with Some e => inputs ++ [failure (Error e)] | None => inputs end.

Definition readBatchEntries (flagName name : string) (stdin : reader) : result (list batchInput) :=
  r ← (if String.eqb name "-" then Ok stdin
       else match os_Open name with
            | Ok r => Ok r
            | Err e => Err (newErrorf ExitUsageError (EWrap ("opening " +:+ flagName +:+ " file") e))
            end);
  Ok (batchInputs name r).

(** Runs a step and writes its error as the command does. *)
Definition orJSON {A} (jsonFlag : bool) (m : IO A) : IO A :=
  r ← try_ m;
  match r with Ok a => mret a | Err e => writeJSONError jsonFlag e end.

(** The inputs of a batch, of which there is one at least. *)
Definition batchOf (entriesFlag : string) (stdin : reader) (jsonFlag : bool) : IO (list batchInput) :=
  inputs ← orJSON jsonFlag (lift (readBatchEntries "--entries" entriesFlag stdin));
  match inputs with
  | [] => writeJSONError jsonFlag (emptyBatchError "--entries" entriesFlag)
  | _ => mret inputs
  end.

(** What a command does with the entry of an input that decoded: a result with
    the text to print, and whether it counts as failed all the same. *)
Definition batchStep : Type := SorobanAuthorizationEntry → IO (batchPayload * string * option error).

(** What is kept and printed of one input. *)
Definition batchRecord (jsonFlag : bool) (i : batchInput) (r : result (batchPayload * string * option error))
    (run : batchRun) : IO batchRun :=
  match r with
  | Err err =>
      _ ← reportBatchFailure jsonFlag (Index i) err;
      mret (fail_ run (Index i) err)
  | Ok (payload, text, verdict) =>
      let run := match verdict with Some err => recordFailure run err | None => run end in
      _ ← (if jsonFlag then mret tt
           else Fprint Stdout ("entry " +:+ pretty (Index i) +:+ ":" +:+ newline +:+ text));
      mret (run_result run (Index i) payload)
  end.

(** The loop of a batch that prints as it goes. *)
Fixpoint batchLoop (step : batchStep) (jsonFlag : bool) (inputs : list batchInput) (run : batchRun) : IO batchRun :=
  match inputs with
  | [] => mret run
  | i :: rest =>
      r ← try_ (e ← lift (Outcome i); step e);
      run ← batchRecord jsonFlag i r run;
      batchLoop step jsonFlag rest run
  end.

(** ** verify.go *)
Record commandFlags := mkCommandFlags {
  configFlag : string;
  entryFlag : string;
  entriesFlag : string;
  networkFlag : string;
  validUntil : Z;
  validFor : Z;
  rpcURLFlag : string;
  allowUnsigned : bool;
  jsonFlag : bool;
  textFlag : bool;
  verboseFlag : bool;
  secretEnv : string;
  assertionFlag : string;
  signerCmd : string;
  signerTimeout : Z;
  forAddress : string;
  set_ : list string
}.

Definition notVerified : error :=
  newErrorf ExitVerificationFailed (EText "one or more credential nodes did not verify").

(** One entry: its report, at the expiration the operator asserts. *)
Definition verifyOne (entry : SorobanAuthorizationEntry) (passphrase : string) (validUntil : Z)
    : IO VerificationReport :=
  report ← try_ (VerifyEntry entry passphrase);
  match report with
  | Err e => lift (Err (newErrorf ExitVerificationFailed e))
  | Ok report =>
      if negb (validUntil =? 0)%Z && negb (Report_ValidUntilLedger report =? wrap_u32 validUntil)%Z
      then lift (Err (newErrorf ExitVerificationFailed (EText ("entry carries expiration " +:+
             FormatUint (Report_ValidUntilLedger report) +:+ ", but --valid-until says " +:+
             FormatUint (wrap_u32 validUntil)))))
      else mret report
  end.

Definition located (input : cliInput) : result (list EnvelopeEntry) :=
  match input with
  | InputEnvelope envelope =>
      match EnvelopeEntries envelope with
      | Ok entries => Ok entries
      | Err e => Err (newErrorf ExitGeneralError e)
      end
  | InputEntry entry => Ok [mkEnvelopeEntry 0 0 entry]
  end.

Definition verifyNodeLine (where_ : string) (node : NodeVerdict) : string :=
  "soroauth: verify: " +:+ where_ +:+ ": node " +:+ Verdict_Address node +:+ ": " +:+
  verdict_string (Verdict node) +:+
  (if String.eqb (Reason node) "" then "" else " (" +:+ Reason node +:+ ")") +:+ newline.

Definition verboseReport (flags : commandFlags) (isEnvelope : bool) (out : verifyEntryOutput) : IO unit :=
  if negb (verboseFlag flags) then mret tt
  else
    let where_ := if isEnvelope then "operation " +:+ pretty (Output_OperationIndex out) +:+ " entry " +:+
                    pretty (Output_EntryIndex out) else "entry" in
    match Output_Nodes out with
    | [] => Fprint Stderr ("soroauth: verify: " +:+ where_ +:+ ": " +:+ Output_CredentialType out +:+
              ", no credential node to check" +:+ newline)
    | nodes => Fprint Stderr (String.concat "" (map (verifyNodeLine where_) nodes))
    end.

(** The loop over the entries of one input: the outputs, and whether one failed. *)
Fixpoint verifyLoop (flags : commandFlags) (isEnvelope : bool) (passphrase : string) (items : list EnvelopeEntry)
    : IO (list verifyEntryOutput * bool) :=
  match items with
  | [] => mret ([], false)
  | item :: rest =>
      report ← verifyOne (located_Entry item) passphrase (validUntil flags);
      let out := newVerifyEntryOutput report in
      let out := if isEnvelope
        then mkVerifyEntryOutput (S (OperationIndex item)) (S (EntryIndex item)) (Output_CredentialType out)
               (Output_AddressBound out) (Output_Address out) (Output_ValidUntilLedger out) (Output_Verified out)
               (Output_Nodes out) (Output_Note out)
        else out in
      _ ← verboseReport flags isEnvelope out;
      '(outputs, failed) ← verifyLoop flags isEnvelope passphrase rest;
      mret (out :: outputs, verifyFailed report (allowUnsigned flags) || failed)
  end.

Definition printReports (jsonMode isEnvelope : bool) (outputs : list verifyEntryOutput) : IO unit :=
  if jsonMode then
    Fprint Stdout ((if isEnvelope then json_EncodeOutputs outputs
                    else match outputs with out :: _ => json_EncodeOutput out | [] => "" end) +:+ newline)
  else Fprint Stdout (String.concat "" (map verifyEntryOutput_String outputs)).

Definition verifyStep (passphrase : string) (flags : commandFlags) : batchStep := λ entry,
  report ← verifyOne entry passphrase (validUntil flags);
  let out := newVerifyEntryOutput report in
  mret (PayloadVerify out, verifyEntryOutput_String out,
        if verifyFailed report (allowUnsigned flags) then Some notVerified else None).

(** The checks every command makes of its flags and configuration. *)
Definition commandMode (flags : commandFlags) (getenv : string → string) : IO (loadedConfig * bool) :=
  cfg ← orJSON (jsonFlag flags) (cli_loadConfig (configFlag flags) getenv);
  jsonMode ← orJSON (jsonFlag flags) (lift (resolveJSONMode (Some (set_ flags)) (jsonFlag flags) getenv cfg));
  _ ← (if negb (String.eqb (entryFlag flags) "") && negb (String.eqb (entriesFlag flags) "")
       then writeJSONError jsonMode (usageError "--entry and --entries are mutually exclusive")
       else mret tt);
  mret (cfg, jsonMode).

Definition neither : error := usageError "--entry or --entries is required".

Variable fetchNetworkPassphrase : networkResolver.

Definition runVerifyBatch (flags : commandFlags) (getenv : string → string) (stdin : reader)
    (cfg : loadedConfig) (jsonMode : bool) : IO unit :=
  let set := Some (set_ flags) in
  passphrase ← orJSON jsonMode (cli_resolveNetwork Background
    (Value (resolveNetworkValue set (networkFlag flags) getenv cfg))
    (Value (resolveRPCURLValue set "" getenv cfg "")) getenv fetchNetworkPassphrase);
  inputs ← batchOf (entriesFlag flags) stdin jsonMode;
  run ← batchLoop (verifyStep passphrase flags) jsonMode inputs (newBatchRun (length inputs));
  batch_finish run jsonMode.

Definition readAll (stdin : reader) : Stdin :=
  match reader_Err stdin with Some e => Err e | None => Ok (reader_bytes stdin) end.

Definition runVerify (flags : commandFlags) (getenv : string → string) (stdin : reader) : IO unit :=
  '(cfg, jsonMode) ← commandMode flags getenv;
  if negb (String.eqb (entriesFlag flags) "") then runVerifyBatch flags getenv stdin cfg jsonMode
  else if String.eqb (entryFlag flags) "" then writeJSONError jsonMode neither
  else
    let set := Some (set_ flags) in
    input ← orJSON jsonMode (lift (decodeEntryOrEnvelopeFrom (entryFlag flags) (readAll stdin)));
    passphrase ← orJSON jsonMode (cli_resolveNetwork Background
      (Value (resolveNetworkValue set (networkFlag flags) getenv cfg))
      (Value (resolveRPCURLValue set "" getenv cfg "")) getenv fetchNetworkPassphrase);
    items ← orJSON jsonMode (lift (located input));
    '(outputs, failed) ← orJSON jsonMode (verifyLoop flags (IsEnvelope input) passphrase items);
    _ ← printReports jsonMode (IsEnvelope input) outputs;
    if failed : bool then lift (Err notVerified) else mret tt.
(** ** inspect.go *)
Fixpoint countDelegateNode (node : NodeInfo) : nat :=
  match node with mkNodeInfo _ _ _ nested => length nested + list_sum (map countDelegateNode nested) end.
Definition countDelegateNodes (nodes : list NodeInfo) : nat :=
  length nodes + list_sum (map countDelegateNode nodes).

Definition bool_text (b : bool) : string := if b then "true" else "false".

Definition inspectLine (where_ : string) (info : EntryInfo) : string :=
  "soroauth: inspect: " +:+ where_ +:+ "credential_type=" +:+ Info_CredentialType info +:+
  " address_bound=" +:+ bool_text (Info_AddressBound info) +:+
  " delegates=" +:+ pretty (countDelegateNodes (Info_Delegates info)) +:+
  " sub_invocations=" +:+ pretty (Info_SubInvocations info) +:+ newline.

Definition inspectEntry (entry : SorobanAuthorizationEntry) : result EntryInfo :=
  match Inspect entry with Ok info => Ok info | Err e => Err (newErrorf ExitGeneralError e) end.

Definition inspectStep (textFlag : bool) : batchStep := λ entry,
  info ← lift (inspectEntry entry);
  mret (PayloadInspect info, (if textFlag then EntryInfo_String info else json_EncodeInfo info) +:+ newline, None).

Definition runInspectBatch (flags : commandFlags) (stdin : reader) (jsonMode : bool) : IO unit :=
  inputs ← batchOf (entriesFlag flags) stdin jsonMode;
  run ← batchLoop (inspectStep (textFlag flags)) jsonMode inputs (newBatchRun (length inputs));
  batch_finish run jsonMode.

(** The report as [any]: what a type assertion finds in it. *)
Inductive inspectReport := ReportOne (info : EntryInfo) | ReportMany (infos : list EnvelopeEntryInfo).

Definition inspectInput (input : cliInput) : result inspectReport :=
  match input with
  | InputEnvelope envelope =>
      match InspectEnvelope envelope with
      | Ok infos => Ok (ReportMany infos)
      | Err e => Err (newErrorf ExitGeneralError e)
      end
  | InputEntry entry => ReportOne <$> inspectEntry entry
  end.

Definition inspectVerbose (report : inspectReport) : string :=
  match report with
  | ReportMany infos => String.concat "" (imap (λ i info,
      inspectLine ("entry " +:+ pretty (S i) +:+ ": ") (Info_Entry info)) infos)
  | ReportOne info => inspectLine "" info
  end.

(** An envelope's report is asserted to be a slice of [EntryInfo], which it is
    not: the assertion panics. *)
Definition inspectText (report : inspectReport) : result string :=
  match report with
  | ReportOne info => Ok (EntryInfo_String info)
  | ReportMany _ => Err (EText ("panic: interface conversion: interface {} is " +:+
                      "[]soroauth.EnvelopeEntryInfo, not []soroauth.EntryInfo"))
  end.

Definition runInspect (flags : commandFlags) (getenv : string → string) (stdin : reader) : IO unit :=
  '(_, jsonMode) ← commandMode flags getenv;
  if negb (String.eqb (entriesFlag flags) "") then runInspectBatch flags stdin jsonMode
  else if String.eqb (entryFlag flags) "" then writeJSONError jsonMode neither
  else
    input ← orJSON jsonMode (lift (asUsage (decodeEntryOrEnvelopeFrom (entryFlag flags) (readAll stdin))));
    report ← orJSON jsonMode (lift (inspectInput input));
    _ ← (if verboseFlag flags then Fprint Stderr (inspectVerbose report) else mret tt);
    if textFlag flags then text ← lift (inspectText report); Fprint Stdout text
    else Fprint Stdout ((match report with
                         | ReportOne info => json_EncodeInfo info
                         | ReportMany infos => json_EncodeInfos infos
                         end) +:+ newline).

(** ** sign.go *)
(** The dynamic type of the signer decides whether an address is inferred. *)
Inductive cliSigner := SeedSigner (s : Signer) | ExternalSigner (s : execSigner).

Definition cliSigner_asSigner (s : cliSigner) : Signer :=
  match s with SeedSigner s => s | ExternalSigner s => execSigner_asSigner (Some s) end.

Definition resolveSeedKeypair (getenv : string → string) (secretEnv : string) : result ed25519Keypair :=
  let seed := getenv secretEnv in
  if String.eqb seed "" then Err (usageError ("environment variable " +:+ secretEnv +:+ " is empty or unset"))
  else
    match keypair_Parse seed with
    | Err _ => Err (usageError ("the value of " +:+ secretEnv +:+ " is not a valid Stellar key"))
    | Ok (PublicKey _) =>
        Err (usageError ("the value of " +:+ secretEnv +:+ " is a public key; a secret seed (S…) is required"))
    | Ok (FullKey full) => Ok full
    end.

Definition given (value : string) : nat := if String.eqb value "" then 0 else 1.

Definition resolveSigner (getenv : string → string) (secretEnv assertion signerCmd forAddress : string)
    (signerTimeout : Z) : result cliSigner :=
  if negb (Nat.eqb (given secretEnv + given assertion + given signerCmd) 1) then
    Err (usageError ("--secret-env is required unless --assertion or --signer-cmd is given: exactly one of " +:+
           "--secret-env or --assertion must be provided (or --signer-cmd)"))
  else if negb (String.eqb signerCmd "") then
    ExternalSigner <$> newExecSigner signerCmd forAddress signerTimeout getenv
  else if String.eqb secretEnv "" then Err (usageError "passkey authentication is not yet supported")
  else full ← resolveSeedKeypair getenv secretEnv; Ok (SeedSigner (NewEd25519Signer (Some full))).

Definition signingError (e : error) : error := newErrorf (exitCodeForSigningError e) e.

(** The signer of one entry: a program without an address is asked to sign for
    the entry's own. *)
Definition signerFor (signer : cliSigner) (entry : SorobanAuthorizationEntry) : result Signer :=
  match signer with
  | ExternalSigner ext =>
      if String.eqb (exec_address ext) ""
      then addr ← inferSingleEntryAddress entry; Ok (execSigner_asSigner (Some (withAddress ext addr)))
      else Ok (execSigner_asSigner (Some ext))
  | SeedSigner s => Ok s
  end.

(** The signers of an envelope, one for each address its entries name. *)
Fixpoint inferSigners (ext : execSigner) (entries : list EnvelopeEntry) (seen : list string) : result (list Signer) :=
  match entries with
  | [] => Ok []
  | loc :: rest =>
      addr ← inferSingleEntryAddress (located_Entry loc);
      if String.eqb addr "" || existsb (String.eqb addr) seen then inferSigners ext rest seen
      else signers ← inferSigners ext rest (addr :: seen);
           Ok (execSigner_asSigner (Some (withAddress ext addr)) :: signers)
  end.

Definition envelopeSigners (signer : cliSigner) (envelope : TransactionEnvelope) : result (list Signer) :=
  match signer with
  | ExternalSigner ext =>
      if String.eqb (exec_address ext) "" then
        match EnvelopeEntries envelope with
        | Err e => Err (signingError e)
        | Ok entries => inferSigners ext entries []
        end
      else Ok [cliSigner_asSigner signer]
  | SeedSigner s => Ok [s]
  end.

Definition signingIO {A} (m : IO A) : IO A :=
  r ← try_ m;
  lift (match r with Ok a => Ok a | Err e => Err (signingError e) end).
Definition generalIO {A} (text : string) (r : result A) : IO A :=
  lift (match r with Ok a => Ok a | Err e => Err (generalError text e) end).

Definition signedOutput (jsonMode : bool) (field encoded : string) : IO unit :=
  Fprint Stdout ((if jsonMode then json_EncodeSigned field encoded else encoded) +:+ newline).

Definition signEnvelopeInput (flags : commandFlags) (jsonMode : bool) (envelope : TransactionEnvelope)
    (signer : cliSigner) (expiration : Z) (passphrase : string) : IO unit :=
  signers ← orJSON jsonMode (lift (envelopeSigners signer envelope));
  signed ← orJSON jsonMode (signingIO (AuthorizeEnvelope Background envelope (map Some signers) expiration passphrase));
  encoded ← orJSON jsonMode (generalIO "encoding the signed envelope" (MarshalBase64 signed));
  _ ← (if verboseFlag flags then
         Fprint Stderr ("soroauth: sign: envelope: signer=" +:+ signer_Address (cliSigner_asSigner signer) +:+
           " expiration=" +:+ FormatUint expiration +:+ " credential_entries=" +:+
           pretty (match EnvelopeEntries signed with Ok entries => length entries | Err _ => 0 end) +:+ newline)
       else mret tt);
  signedOutput jsonMode "signed_envelope" encoded.

Definition signEntryInput (flags : commandFlags) (jsonMode : bool) (entry : SorobanAuthorizationEntry)
    (signer : cliSigner) (expiration : Z) (passphrase : string) : IO unit :=
  signer ← orJSON jsonMode (lift (signerFor signer entry));
  let opts := if String.eqb (forAddress flags) "" then [] else [ForAddress (forAddress flags)] in
  signed ← orJSON jsonMode (signingIO (AuthorizeEntry Background entry (Some signer) expiration passphrase opts));
  _ ← (if verboseFlag flags then
         Fprint Stderr ("soroauth: sign: entry: signer=" +:+ signer_Address signer +:+ " target=" +:+
           (if String.eqb (forAddress flags) "" then signer_Address signer else forAddress flags) +:+ " arm=" +:+
           match Inspect signed with Ok info => Info_CredentialType info | Err _ => "unknown" end +:+
           " expiration=" +:+ FormatUint expiration +:+ newline)
       else mret tt);
  encoded ← orJSON jsonMode (lift (match cli_encodeEntry signed with
                                   | Ok text => Ok text
                                   | Err e => Err (newErrorf ExitGeneralError e)
                                   end));
  signedOutput jsonMode "signed_entry" encoded.

(** One input of a batch: what its signed entry is written as. *)
Definition signBatchInput (signer : cliSigner) (expiration : Z) (passphrase : string) (i : batchInput) : IO string :=
  entry ← lift (Outcome i);
  signer ← lift (signerFor signer entry);
  signed ← signingIO (AuthorizeEntry Background entry (Some signer) expiration passphrase []);
  lift (match cli_encodeEntry signed with
        | Ok text => Ok text
        | Err e => Err (newErrorf ExitGeneralError e)
        end).

Fixpoint signBatchLoop (signer : cliSigner) (expiration : Z) (passphrase : string) (inputs : list batchInput)
    (run : batchRun) (encodedEntries : list string) : IO (batchRun * list string) :=
  match inputs with
  | [] => mret (run, encodedEntries)
  | i :: rest =>
      r ← try_ (signBatchInput signer expiration passphrase i);
      match r with
      | Err e => signBatchLoop signer expiration passphrase rest (fail_ run (Index i) e) encodedEntries
      | Ok encoded => signBatchLoop signer expiration passphrase rest run (encodedEntries ++ [encoded])
      end
  end.

(** The signed entries in turn, numbered by their place among them. *)
Fixpoint printSigned (jsonFlag : bool) (i : nat) (encodedEntries : list string) (run : batchRun) : IO batchRun :=
  match encodedEntries with
  | [] => mret run
  | encoded :: rest =>
      if jsonFlag then printSigned jsonFlag (S i) rest (run_result run (S i) (PayloadSigned encoded))
      else
        _ ← Fprint Stdout ("entry " +:+ pretty (S i) +:+ ":" +:+ newline +:+ encoded +:+ newline);
        printSigned jsonFlag (S i) rest run
  end.

Definition runSignBatch (entriesFlag : string) (stdin : reader) (signer : cliSigner) (expiration : Z)
    (passphrase : string) (jsonFlag : bool) : IO unit :=
  inputs ← batchOf entriesFlag stdin jsonFlag;
  '(run, encodedEntries) ← signBatchLoop signer expiration passphrase inputs (newBatchRun (length inputs)) [];
  if Nat.ltb 0 (failed run) then writeJSONError jsonFlag (signSummary run)
  else run ← printSigned jsonFlag 0 encodedEntries run; batch_finish run jsonFlag.

Variable fetchLatestLedger : ledgerFetcher.

Definition effectiveSecretEnv (flags : commandFlags) (getenv : string → string) (cfg : loadedConfig) : string :=
  let isSet name := existsb (String.eqb name) (set_ flags) in
  if isSet "secret-env" || isSet "assertion" || isSet "signer-cmd" then secretEnv flags
  else Value (resolveSecretEnvValue (Some (set_ flags)) (secretEnv flags) getenv cfg).

Definition runSign (flags : commandFlags) (getenv : string → string) (stdin : reader) : IO unit :=
  '(cfg, jsonMode) ← commandMode flags getenv;
  let set := Some (set_ flags) in
  if String.eqb (entryFlag flags) "" && String.eqb (entriesFlag flags) "" then writeJSONError jsonMode neither
  else if negb (String.eqb (entriesFlag flags) "") && negb (String.eqb (forAddress flags) "") then
    writeJSONError jsonMode (usageError "--for applies to a single entry; it cannot be combined with --entries")
  else
    let resolvedRPC := Value (resolveRPCURLValue set (rpcURLFlag flags) getenv cfg "") in
    passphrase ← orJSON jsonMode (cli_resolveNetwork Background
      (Value (resolveNetworkValue set (networkFlag flags) getenv cfg)) resolvedRPC getenv fetchNetworkPassphrase);
    expiration ← orJSON jsonMode (resolveValidUntil Background (validUntil flags) (validFor flags) resolvedRPC
      fetchLatestLedger);
    signer ← orJSON jsonMode (lift (resolveSigner getenv (effectiveSecretEnv flags getenv cfg) (assertionFlag flags)
      (signerCmd flags) (forAddress flags) (signerTimeout flags)));
    if negb (String.eqb (entriesFlag flags) "") then
      runSignBatch (entriesFlag flags) stdin signer expiration passphrase jsonMode
    else
      resolvedEntry ← orJSON jsonMode (lift (resolveEntryArg (entryFlag flags) (readAll stdin)));
      (* standard input has been read: a second "-" finds it empty *)
      let rest := if String.eqb (entryFlag flags) "-" then Ok [] else readAll stdin in
      input ← orJSON jsonMode (lift (decodeEntryOrEnvelopeFrom resolvedEntry rest));
      match input with
      | InputEnvelope envelope =>
          if negb (String.eqb (forAddress flags) "") then
            writeJSONError jsonMode (usageError ("--for applies to a single entry; given an envelope, " +:+
              "sign the entries one at a time or drop --for"))
          else signEnvelopeInput flags jsonMode envelope signer expiration passphrase
      | InputEntry entry => signEntryInput flags jsonMode entry signer expiration passphrase
      end.
End commands.

(** ** Lemmas *)
(** What an input of a batch came to, as a failure. *)
Definition failureOf (r : result (batchPayload * string * option error)) : option error :=
  match r with Err e => Some e | Ok (_, _, verdict) => verdict end.
Definition recordOf (i : batchInput) (r : result (batchPayload * string * option error)) : batchResult :=
  match r with
  | Ok (payload, _, _) => mkBatchResult (Index i) (Some payload) None
  | Err e => mkBatchResult (Index i) None (Some (machineError (Some e)))
  end.
(** A run that has counted these failures. *)
Definition counted (run : batchRun) (failures : list error) : Prop :=
  failed run = length failures ∧ first run = head failures.

(** What was written to the standard output. *)
Definition printed (l : list Event) : list string :=
  omap (λ e, match e with EvPrint stream text => if String.eqb stream Stdout then Some text else None | _ => None end) l.

Lemma printed_app l l' : printed (l ++ l') = printed l ++ printed l'.
Proof. apply omap_app. Qed.

Lemma counted_new n : counted (newBatchRun n) [].
Proof. done. Qed.

Lemma counted_record run failures e : counted run failures → counted (recordFailure run e) (failures ++ [e]).
Proof.
  intros [Hf H1]. unfold counted, recordFailure. cbn. rewrite length_app, Hf. split; [cbn; lia|].
  by destruct failures.
Qed.

(** The exit code of a run is its first failure's. *)
Lemma summary_counted run failures : counted run failures →
  (summary run = None ↔ failures = []) ∧ ExitCode (summary run) = ExitCode (head failures).
Proof. intros [Hf H1]. unfold summary. rewrite Hf, H1. by destruct failures. Qed.

Section command_lemmas.
Context `{SDK} `{EnvelopeSDK} `{NetURL} `{CustodyLib} `{CliLib} `{RemoteJSON} `{ExecLib} `{ReportLib}.

Lemma writeJSONError_fails {A} j e w : ∃ e' w', writeJSONError (A := A) j e w = (Err e', w').
Proof. unfold writeJSONError. destruct j; by do 2 eexists. Qed.

Lemma writeJSONError_not_Ok {A} j e w (a : A) w' : writeJSONError j e w ≠ (Ok a, w').
Proof. destruct (writeJSONError_fails (A := A) j e w) as (? & ? & ->). done. Qed.

Lemma orJSON_Ok {A} j (m : IO A) w a w' : orJSON j m w = (Ok a, w') ↔ m w = (Ok a, w').
Proof.
  unfold orJSON, try_, mbind, IO_bind. destruct (m w) as [[b|e] w1]; [done|]. split; [|done].
  intros Hw. by apply writeJSONError_not_Ok in Hw.
Qed.

Lemma batchOf_Ok ef stdin j w inputs w' : batchOf ef stdin j w = (Ok inputs, w') →
  readBatchEntries "--entries" ef stdin = Ok inputs ∧ inputs ≠ [] ∧ w' = w.
Proof.
  unfold batchOf. intros Hb. inv_io. apply orJSON_Ok in Hx. inv_io. destruct x; [|by inv_io].
  by apply writeJSONError_not_Ok in Hb.
Qed.

Lemma batchRecord_run j i r run failures w : counted run failures →
  ∃ run1 w1, batchRecord j i r run w = (Ok run1, w1) ∧ counted run1 (failures ++ omap failureOf [r]) ∧
    results run1 = results run ++ [recordOf i r].
Proof.
  intros Hc. destruct r as [[[payload text] [err|]]|err].
  - exists (run_result (recordFailure run err) (Index i) payload).
    destruct j; eexists; (split; [done|]; split; [by apply (counted_record _ _ err Hc)|done]).
  - exists (run_result run (Index i) payload).
    destruct j; eexists; (split; [done|]; split; [cbn; by rewrite app_nil_r|done]).
  - exists (fail_ run (Index i) err).
    destruct j; eexists; (split; [done|]; split; [by apply (counted_record _ _ err Hc)|done]).
Qed.

(** Every input of a batch is attempted and recorded under its index, and the
    failures are counted in turn. *)
Lemma batchLoop_run step j inputs run failures w : counted run failures →
  ∃ run' w' rs, batchLoop step j inputs run w = (Ok run', w') ∧
    Forall2 (λ i r, ∃ w1 w2, (e ← lift (Outcome i); step e) w1 = (r, w2)) inputs rs ∧
    results run' = results run ++ zip_with recordOf inputs rs ∧
    counted run' (failures ++ omap failureOf rs).
Proof.
  revert run failures w. induction inputs as [|i inputs IH]; intros run failures w Hc.
  { exists run, w, []. cbn. by rewrite !app_nil_r. }
  cbn [batchLoop]. unfold mbind at 1, IO_bind at 1, try_.
  destruct ((e ← lift (Outcome i); step e) w) as [r w1] eqn:Hr.
  destruct (batchRecord_run j i r run failures w1 Hc) as (run1 & w2 & Hb & Hc1 & Hr1).
  unfold mbind at 1, IO_bind at 1. rewrite Hb. destruct (IH run1 _ w2 Hc1) as (run' & w' & rs & Hrun & Hall & Hres & Hcount).
  exists run', w', (r :: rs). split; [done|]. split; [constructor; [by exists w, w1|done]|]. split.
  - by rewrite Hres, Hr1, <-app_assoc.
  - rewrite <-app_assoc, <-omap_app in Hcount. exact Hcount.
Qed.

Lemma finish_Ok run j w u w' : batch_finish run j w = (Ok u, w') → summary run = None.
Proof. unfold batch_finish. intros Hf. destruct j, (summary run); try done; inv_io; done. Qed.
End command_lemmas.

(** ** What a successful verify means *)
Section verify_theorems.
Context `{SDK} `{EnvelopeSDK} `{NetURL} `{CustodyLib} `{CliLib} `{RemoteJSON} `{ExecLib} `{ReportLib} `{!SDKLaws}.

(** An entry verify accepts: a source-account entry, of which there is nothing
    to check, or one whose nodes all carry a signature over the payload the
    entry commits to; a node without one only where the flag allows it. *)
Definition accepted (flags : commandFlags) (pass : string) (e : SorobanAuthorizationEntry) : Prop :=
  (is_source e = true ∧ (validUntil flags = 0%Z ∨ wrap_u32 (validUntil flags) = 0%Z)) ∨
  ∃ a payload, addressCredentials (Credentials e) = Ok a ∧ own_payload e pass = Ok payload ∧
    (validUntil flags ≠ 0%Z → SignatureExpirationLedger a = wrap_u32 (validUntil flags)) ∧
    ∀ n, n ∈ flatNodes e → node_verdict n payload = VerdictVerified ∨
      (allowUnsigned flags = true ∧ node_verdict n payload = VerdictUnsigned).

(** The entries a run is asked about. *)
Definition asked (flags : commandFlags) (stdin : reader) (es : list SorobanAuthorizationEntry) : Prop :=
  (entriesFlag flags ≠ "" ∧ ∃ inputs, readBatchEntries "--entries" (entriesFlag flags) stdin = Ok inputs ∧
     inputs ≠ [] ∧ map Outcome inputs = map Ok es) ∨
  (entriesFlag flags = "" ∧ ∃ input items, decodeEntryOrEnvelopeFrom (entryFlag flags) (readAll stdin) = Ok input ∧
     located input = Ok items ∧ es = map located_Entry items).

Lemma verifyOne_Ok e pass v w r w' : verifyOne e pass v w = (Ok r, w') →
  verifyEntry e pass = Ok r ∧ (v = 0%Z ∨ Report_ValidUntilLedger r = wrap_u32 v).
Proof.
  unfold verifyOne, VerifyEntry, VerifyEntryContext. intros Hv. inv_io. destruct x as [r0|err]; [|by inv_io].
  inv_io. destruct (Z.eqb_spec v 0) as [Hz|Hz]; cbn [negb andb] in Hv; [inv_io; auto|].
  destruct (Z.eqb_spec (Report_ValidUntilLedger r0) (wrap_u32 v)) as [He|]; cbn [negb] in Hv; inv_io; [auto|done].
Qed.

Lemma verified_accepted flags e pass r :
  verifyEntry e pass = Ok r → (validUntil flags = 0%Z ∨ Report_ValidUntilLedger r = wrap_u32 (validUntil flags)) →
  verifyFailed r (allowUnsigned flags) = false → accepted flags pass e.
Proof.
  intros Hr Hv Hf. destruct (is_source e) eqn:Hs.
  { left. split; [done|]. unfold verifyEntry, is_source in *. rewrite Hs in Hr. injection Hr as <-.
    destruct Hv as [|Hv]; [by left|by right]. }
  right. apply verifyEntry_Ok in Hr as (a & payload & Ha & Hp & _ & He & _ & _ & Hn); [|done].
  exists a, payload. split; [done|]. split; [done|]. split.
  { intros Hne. destruct Hv as [|<-]; [done|]. by rewrite He. }
  intros n (i & Hi)%list_elem_of_lookup.
  destruct (Forall2_lookup_l _ _ _ _ _ Hn Hi) as (v & Hvi & _ & <-).
  unfold verifyFailed in Hf. destruct (Verdict v) eqn:Hd; [by left|..];
    (destruct (allowUnsigned flags); [try by right|]); exfalso; apply not_true_iff_false in Hf; apply Hf;
    apply existsb_In; exists v; (split; [by eapply list_elem_of_lookup_2|by rewrite Hd]).
Qed.

Lemma verifyLoop_accepted flags isEnv pass items outs w w' :
  verifyLoop flags isEnv pass items w = (Ok (outs, false), w') →
  Forall (accepted flags pass) (map located_Entry items).
Proof.
  revert outs w w'. induction items as [|item items IH]; intros outs w w' Hl; cbn [verifyLoop map] in *.
  { constructor. }
  inv_io. destruct x1 as [outs' f]. inv_io.
  match goal with E : _ || _ = false |- _ => apply orb_false_iff in E as [Hf ->] end.
  apply verifyOne_Ok in Hx as [Hr Hv]. constructor; [by eapply verified_accepted|by eapply IH].
Qed.

Lemma verifyBatch_accepted flags pass inputs rs :
  Forall2 (λ i r, ∃ w1 w2, (e ← lift (Outcome i); verifyStep pass flags e) w1 = (r, w2)) inputs rs →
  omap failureOf rs = [] →
  ∃ es, map Outcome inputs = map Ok es ∧ Forall (accepted flags pass) es.
Proof.
  induction 1 as [|i r inputs rs (w1 & w2 & Hr) _ IH]; intros Hf; [by exists []|].
  rewrite omap_step in Hf. destruct r as [[[payload text] [err|]]|err]; try done.
  destruct (IH Hf) as (es & He & Ha). unfold verifyStep in Hr. inv_io.
  exists (x :: es). cbn [map]. rewrite Hl, He. split; [done|]. constructor; [|done].
  apply verifyOne_Ok in Hx0 as [? ?]. eapply verified_accepted; [done..|].
  by destruct (verifyFailed x0 (allowUnsigned flags)).
Qed.

(** A successful [verify] is a complete one: the passphrase is the one the
    network flag, environment or configuration resolves to, every entry of the
    envelope, or of every line of the file, was read, and each of them carries
    at each of its credential nodes an account's signature over the payload
    that entry commits to; unsigned nodes pass only under --allow-unsigned, a
    source-account entry passes for having no node, and the expiration, when
    one is asserted, is the asserted one modulo 2^32. *)
Theorem runVerify_sound fetch flags getenv stdin w w' :
  runVerify fetch flags getenv stdin w = (Ok tt, w') →
  ∃ cfg pass es w0 w1 w2 w3, cli_loadConfig (configFlag flags) getenv w0 = (Ok cfg, w1) ∧
    cli_resolveNetwork Background (Value (resolveNetworkValue (Some (set_ flags)) (networkFlag flags) getenv cfg))
      (Value (resolveRPCURLValue (Some (set_ flags)) "" getenv cfg "")) getenv fetch w2 = (Ok pass, w3) ∧
    asked flags stdin es ∧ Forall (accepted flags pass) es.
Proof.
  unfold runVerify, commandMode. intros Hv. inv_io. apply orJSON_Ok in Hx0.
  exists x0. destruct (String.eqb_spec (entriesFlag flags) "") as [He|He]; cbn [negb] in Hv.
  - destruct (String.eqb (entryFlag flags) ""); [by apply writeJSONError_not_Ok in Hv|]. inv_io.
    destruct x4 as [outs f]. inv_io. destruct f; inv_io; [done|].
    apply orJSON_Ok in Hx, Hx3, Hx4, Hx5. inv_io.
    eexists x2, (map located_Entry x3), _, _, _, _. split; [exact Hx0|]. split; [eassumption|]. split.
    + right. split; [done|]. by exists x, x3.
    + by eapply verifyLoop_accepted.
  - unfold runVerifyBatch in Hv. inv_io. apply orJSON_Ok in Hx. apply batchOf_Ok in Hx3 as (Hi & Hne & ->).
    apply finish_Ok in Hv.
    destruct (batchLoop_run (verifyStep x flags) x1 x2 (newBatchRun (length x2)) [] w3 (counted_new _))
      as (run & w6 & rs & Hrun & Hall & _ & Hc). rewrite Hrun in Hx4. injection Hx4 as <- <-.
    apply (summary_counted _ _ Hc) in Hv. destruct (verifyBatch_accepted _ _ _ _ Hall Hv) as (es & Hes & Ha).
    eexists x, es, _, _, _, _. split; [exact Hx0|]. split; [eassumption|]. split; [|done].
    left. split; [done|]. by exists x2.
Qed.
End verify_theorems.

(** ** What a batch reports *)
Definition exitOf (r : result unit) : Z := ExitCode (match r with Ok _ => None | Err e => Some e end).

(** The labelled results of a signed batch. *)
Definition signedResults (texts : list string) : list batchResult :=
  imap (λ k t, mkBatchResult (S k) (Some (PayloadSigned t)) None) texts.
Definition signedLine (k : nat) (text : string) : string :=
  "entry " +:+ pretty (S k) +:+ ":" +:+ newline +:+ text +:+ newline.
Definition errOf {A} (r : result A) : option error := match r with Ok _ => None | Err e => Some e end.
Definition okOf {A} (r : result A) : option A := match r with Ok a => Some a | Err _ => None end.

Lemma no_failures {A} (rs : list (result A)) : omap errOf rs = [] → rs = map Ok (omap okOf rs).
Proof.
  induction rs as [|[a|e] rs IH]; [done| |done]. rewrite omap_step. cbn [errOf]. intros Hn.
  rewrite omap_step. cbn [okOf map]. by rewrite <-IH.
Qed.

Section batch_theorems.
Context `{SDK} `{EnvelopeSDK} `{NetURL} `{CustodyLib} `{CliLib} `{RemoteJSON} `{ExecLib} `{ReportLib} `{!SDKLaws}.

(** A batch always ends: whatever an input does, every input is attempted
    once, in the order of the file, and recorded under its own number; the run
    succeeds only if none failed, and otherwise its exit code is that of the
    first that did, however many follow.  In JSON mode what is written is the
    one array of all the records. *)
Theorem batch_reports step (j : bool) inputs w :
  ∃ run w' rs, batchLoop step j inputs (newBatchRun (length inputs)) w = (Ok run, w') ∧
    Forall2 (λ i r, ∃ w1 w2, (e ← lift (Outcome i); step e) w1 = (r, w2)) inputs rs ∧
    results run = zip_with recordOf inputs rs ∧
    ∃ r w2 l, batch_finish run j w' = (r, w2) ∧ log w2 = log w' ++ l ∧
      (is_ok r = true ↔ omap failureOf rs = []) ∧
      exitOf r = ExitCode (head (omap failureOf rs)) ∧
      printed l = if j then [json_EncodeBatch (zip_with recordOf inputs rs) +:+ newline] else [].
Proof.
  destruct (batchLoop_run step j inputs _ [] w (counted_new (length inputs))) as (run & w' & rs & Hr & Hall & Hres & Hc).
  exists run, w', rs. split; [done|]. split; [done|]. split; [done|]. cbn in Hres. rewrite <-Hres.
  destruct (summary_counted _ _ Hc) as [Hs He]. cbn [app] in Hs, He. unfold batch_finish.
  assert (Hfin : ∀ r, (is_ok r = true ↔ summary run = None) → exitOf r = ExitCode (summary run) →
    (is_ok r = true ↔ omap failureOf rs = []) ∧ exitOf r = ExitCode (head (omap failureOf rs))).
  { intros r Hr1 Hr2. by rewrite Hr1, Hr2. }
  destruct j, (summary run) as [e|] eqn:E.
  1, 2: eexists _, _, [_]; (split; [reflexivity|]; split; [reflexivity|]).
  3, 4: eexists _, _, []; (split; [reflexivity|]; split; [by rewrite app_nil_r|]).
  all: match goal with |- ?A ∧ ?B ∧ ?C => cut ((A ∧ B) ∧ C); [tauto|] end; (split; [by apply Hfin|done]).
Qed.

(** Where the signers of a batch's entries leave nothing in the log. *)
Context (signer : cliSigner) (expiration : Z) (passphrase : string).
Hypothesis signer_silent : ∀ e s, signerFor signer e = Ok s → silent s.

Lemma AuthorizeEntry_prints_nothing s e : silent s →
  logs (AuthorizeEntry Background e (Some s) expiration passphrase []) (λ _ l, printed l = []).
Proof.
  intros Hs. unfold AuthorizeEntry. apply logs_bind, logs_ctx_check; [|done].
  destruct (is_source e); [by apply logs_lift|].
  apply logs_bind, logs_lift. destruct (prepareAuthorize _ _ _ _ _) as [[plan s']|err] eqn:Hp; [|done].
  apply prepareAuthorize_Ok in Hp as ([= <-] & _).
  assert (He : ∀ hookev, logs (emit Background (hook (applyOptions [])) hookev) (λ r l, r = Ok tt ∧ l = [])).
  { intros ev. apply logs_quiet. intros w. rewrite emit_nil. by eexists _, _. }
  apply logs_bind. eapply logs_weaken; [apply He|]. intros r l [-> ->].
  apply logs_bind, logs_lift. destruct (wrap _ _); [|done].
  apply logs_bind. eapply logs_weaken; [apply He|]. intros r l [-> ->].
  apply logs_bind, logs_try, logs_call_Sign; [done|]. intros [sig|err].
  - apply logs_bind. eapply logs_weaken; [apply He|]. intros r l [-> ->].
    apply logs_bind. eapply logs_weaken; [apply He|]. intros r l [-> ->]. by apply logs_ret.
  - apply logs_bind. eapply logs_weaken; [apply He|]. intros r l [-> ->]. by apply logs_lift.
Qed.

Lemma signBatchInput_prints_nothing i :
  logs (signBatchInput signer expiration passphrase i) (λ _ l, printed l = []).
Proof.
  unfold signBatchInput, signingIO. apply logs_bind, logs_lift. destruct (Outcome i) as [e|]; [|done].
  apply logs_bind, logs_lift. destruct (signerFor signer e) as [s|] eqn:Hs; [|done].
  apply logs_bind, logs_bind, logs_try.
  eapply logs_weaken; [apply AuthorizeEntry_prints_nothing; by eapply signer_silent|].
  intros [out|err] l Hl; apply logs_lift; cbn; rewrite app_nil_r; [|done].
  apply logs_lift. by rewrite app_nil_r.
Qed.

Lemma signBatchLoop_run inputs run failures texts w : counted run failures →
  ∃ run' w' rs l,
    signBatchLoop signer expiration passphrase inputs run texts w = (Ok (run', texts ++ omap okOf rs), w') ∧
    Forall2 (λ i r, ∃ w1 w2, signBatchInput signer expiration passphrase i w1 = (r, w2)) inputs rs ∧
    counted run' (failures ++ omap errOf rs) ∧ (omap errOf rs = [] → run' = run) ∧
    log w' = log w ++ l ∧ printed l = [].
Proof.
  revert run failures texts w. induction inputs as [|i inputs IH]; intros run failures texts w Hc.
  { exists run, w, [], []. cbn. by rewrite !app_nil_r. }
  cbn [signBatchLoop]. unfold mbind at 1, IO_bind at 1, try_.
  destruct (signBatchInput_prints_nothing i w) as (r & w1 & l1 & Hr & Hl1 & Hp1). rewrite Hr. destruct r as [text|err].
  - destruct (IH run failures (texts ++ [text]) w1 Hc) as (run' & w' & rs & l & -> & Hall & Hc' & Hsame & Hl & Hp).
    exists run', w', (Ok text :: rs), (l1 ++ l). split; [by rewrite omap_step, <-app_assoc|].
    split; [constructor; [by exists w, w1|done]|]. split; [by rewrite omap_step|]. split; [by rewrite omap_step|].
    by rewrite Hl, Hl1, app_assoc, printed_app, Hp1, Hp.
  - destruct (IH (fail_ run (Index i) err) (failures ++ [err]) texts w1) as (run' & w' & rs & l & -> & Hall & Hc' & _ & Hl & Hp).
    { by apply (counted_record _ _ err Hc). }
    exists run', w', (Err err :: rs), (l1 ++ l). split; [by rewrite omap_step|].
    split; [constructor; [by exists w, w1|done]|]. split; [by rewrite omap_step; cbn [errOf]; rewrite <-app_assoc in Hc'|].
    split; [by rewrite omap_step|]. by rewrite Hl, Hl1, app_assoc, printed_app, Hp1, Hp.
Qed.

Lemma printSigned_run j i texts run w : ∃ run' w' l,
  printSigned j i texts run w = (Ok run', w') ∧ log w' = log w ++ l ∧ failed run' = failed run ∧
  results run' = results run ++ (if j then imap (λ k t, mkBatchResult (S (i + k)) (Some (PayloadSigned t)) None) texts else []) ∧
  printed l = if j then [] else imap (λ k t, signedLine (i + k) t) texts.
Proof.
  revert i run w. induction texts as [|t texts IH]; intros i run w.
  { exists run, w, []. cbn. rewrite !app_nil_r. destruct j; by rewrite ?app_nil_r. }
  cbn [printSigned]. destruct j.
  - destruct (IH (S i) (run_result run (S i) (PayloadSigned t)) w) as (run' & w' & l & -> & Hl & Hf & Hres & Hp).
    exists run', w', l. split; [done|]. split; [done|]. split; [done|]. split; [|done].
    rewrite Hres. cbn [results run_result imap]. rewrite <-app_assoc. cbn [app]. do 2 f_equal.
    rewrite Nat.add_0_r. f_equal. apply imap_ext. intros k ? _. cbn. by rewrite Nat.add_succ_r.
  - unfold mbind, IO_bind, Fprint, perform.
    match goal with |- context[emit_event ?e w] => set (ev := e) end.
    destruct (IH (S i) run (emit_event ev w)) as (run' & w' & l & -> & Hl & Hf & Hres & Hp).
    exists run', w', (ev :: l). split; [done|]. split; [by rewrite Hl; cbn; rewrite <-app_assoc|].
    split; [done|]. split; [done|]. unfold printed. rewrite omap_step. fold (printed l). rewrite Hp.
    cbn [imap]. rewrite Nat.add_0_r. f_equal. apply imap_ext. intros k ? _. cbn. by rewrite Nat.add_succ_r.
Qed.
Lemma writeJSONError_run {A} j e w : ∃ err w' l, writeJSONError (A := A) j e w = (Err err, w') ∧
  log w' = log w ++ l ∧ ExitCode (Some err) = ExitCode (Some e) ∧
  printed l = if j then [json_Encode (machineError (Some e)) +:+ newline] else [].
Proof.
  unfold writeJSONError. destruct j; [eexists _, _, [_] | eexists _, _, []]; (split; [reflexivity|]); [done|].
  by rewrite app_nil_r.
Qed.

Lemma batchOf_run ef stdin j w : (∃ inputs, readBatchEntries "--entries" ef stdin = Ok inputs ∧ inputs ≠ [] ∧
    batchOf ef stdin j w = (Ok inputs, w)) ∨
  ((∀ inputs, readBatchEntries "--entries" ef stdin = Ok inputs → inputs = []) ∧
   ∃ e err w' l, batchOf ef stdin j w = (Err err, w') ∧ log w' = log w ++ l ∧
     printed l = if j then [json_Encode (machineError (Some e)) +:+ newline] else []).
Proof.
  unfold batchOf, orJSON, try_, lift, mbind, IO_bind.
  destruct (readBatchEntries "--entries" ef stdin) as [[|i inputs]|e]; cbn -[writeJSONError printed].
  - right. split; [naive_solver|]. destruct (writeJSONError_run (A := list batchInput) j (emptyBatchError "--entries" ef) w)
      as (err & w' & l & -> & ? & _ & ?). eauto 10.
  - left. by exists (i :: inputs).
  - right. split; [done|]. destruct (writeJSONError_run (A := list batchInput) j e w) as (err & w' & l & -> & ? & _ & ?). eauto 10.
Qed.

(** C34. Signing a batch is all or nothing.  On success every line of the file
    decoded and was signed, and what is written is exactly the signed entries,
    all of them, each under its position; on an error nothing is written but,
    in JSON mode, one error object, however many of the lines had been signed,
    and the exit code is that of the first line that failed. *)
Theorem runSignBatch_all_or_nothing ef stdin (j : bool) w r w' :
  runSignBatch ef stdin signer expiration passphrase j w = (r, w') →
  let outcomes inputs rs := readBatchEntries "--entries" ef stdin = Ok inputs ∧ inputs ≠ [] ∧
    Forall2 (λ i r, ∃ w1 w2, signBatchInput signer expiration passphrase i w1 = (r, w2)) inputs rs in
  ∃ l, log w' = log w ++ l ∧
  match r with
  | Ok _ => ∃ inputs texts, outcomes inputs (map Ok texts) ∧
      printed l = if j then [json_EncodeBatch (signedResults texts) +:+ newline] else imap signedLine texts
  | Err err => (∃ e, printed l = if j then [json_Encode (machineError (Some e)) +:+ newline] else []) ∧
      ((∀ inputs, readBatchEntries "--entries" ef stdin = Ok inputs → inputs = []) ∨
       ∃ inputs rs e, outcomes inputs rs ∧ head (omap errOf rs) = Some e ∧ ExitCode (Some err) = ExitCode (Some e))
  end.
Proof.
  intros Hr. cbv zeta. unfold runSignBatch in Hr. unfold mbind at 1, IO_bind at 1 in Hr.
  destruct (batchOf_run ef stdin j w) as [(inputs & Hi & Hne & Hb)|(Hno & e & err & w1 & l & Hb & Hl & Hp)];
    rewrite Hb in Hr; cycle 1.
  { injection Hr as <- <-. exists l. split; [done|]. split; [by exists e|by left]. }
  unfold mbind at 1, IO_bind at 1 in Hr.
  destruct (signBatchLoop_run inputs (newBatchRun (length inputs)) [] [] w (counted_new _))
    as (run & w1 & rs & l1 & Hrun & Hall & Hc & Hsame & Hl1 & Hp1).
  rewrite Hrun in Hr. cbn [app] in Hr, Hc. pose proof Hc as [Hfail Hfirst].
  destruct (omap errOf rs) as [|e es] eqn:Herr; rewrite Hfail in Hr; cbn [length Nat.ltb Nat.leb] in Hr.
  - rewrite Hsame in Hr by done. pose proof (no_failures rs Herr) as Hok. rewrite Hok in Hall.
    destruct (printSigned_run j 0 (omap okOf rs) (newBatchRun (length inputs)) w1)
      as (run' & w2 & l2 & Hprint & Hl2 & Hf2 & Hres & Hp2).
    unfold mbind at 1, IO_bind at 1 in Hr. rewrite Hprint in Hr.
    unfold batch_finish, summary in Hr. rewrite Hf2 in Hr. cbn in Hr. rewrite Hres in Hr. destruct j.
    + injection Hr as <- <-. eexists (l1 ++ l2 ++ [_]). split; [cbn; by rewrite Hl2, Hl1, !app_assoc|].
      exists inputs, (omap okOf rs). split; [done|]. by rewrite !printed_app, Hp1, Hp2.
    + injection Hr as <- <-. exists (l1 ++ l2). split; [by rewrite Hl2, Hl1, app_assoc|].
      exists inputs, (omap okOf rs). split; [done|]. by rewrite printed_app, Hp1, Hp2.
  - destruct (writeJSONError_run (A := ()) j (signSummary run) w1) as (err & w2 & l2 & Hw & Hl2 & He2 & Hp2).
    rewrite Hw in Hr. injection Hr as <- <-. exists (l1 ++ l2). split; [by rewrite Hl2, Hl1, app_assoc|]. split.
    + exists (signSummary run). by rewrite printed_app, Hp1, Hp2.
    + right. exists inputs, rs, e. split; [done|]. split; [by rewrite Herr|]. rewrite He2.
      unfold signSummary. by rewrite Hfirst.
Qed.
End batch_theorems.

(** ** The commands at work *)
Definition ex_text_of (r : result string) : string := match r with Ok s => s | Err e => Error e end.

#[export] Instance ModelReportLib : ReportLib := {|
  os_Open name := Err (EText ("open " +:+ name +:+ ": no such file or directory"));
  json_EncodeBatch rs := String.concat "," (map (λ r,
    pretty (BatchEntry r) +:+ ":" +:+
    match Result r with
    | Some (PayloadSigned s) => s
    | Some (PayloadVerify out) => Output_Address out
    | Some (PayloadInspect info) => Info_Address info
    | Some (PayloadDiff report) => Diff.Diff_Summary report
    | None => match BatchError r with Some f => Code f | None => "" end
    end) rs);
  json_EncodeOutput := verifyEntryOutput_String;
  json_EncodeOutputs outs := String.concat "," (map verifyEntryOutput_String outs);
  json_EncodeInfo := EntryInfo_String;
  json_EncodeInfos infos := pretty (length infos);
  json_EncodeSigned field value := field +:+ ":" +:+ value
|}.

Definition ex_flags (entry entries : string) : commandFlags :=
  mkCommandFlags "" entry entries "testnet" 1000 0 "" false false false false "SOROAUTH_SEED" "" "" 0 "" ["network"; "secret-env"].
Definition ex_unsigned : string := ex_text_of (cli_encodeEntry (ex_v2 "a" 0 ScvVoid)).
Definition ex_fetch : networkResolver := λ _ _, lift (Err (EText "offline")).
Definition ex_ledger : ledgerFetcher := λ _ _, lift (Err (EText "offline")).
Definition ex_stdin (lines : list string) : reader := mkReader (bytes_of_string (String.concat newline lines)) None.
Definition ex_out {A} (m : IO A) : result A * list string := let '(r, w) := m initial_world in (r, printed (log w)).
Definition ex_input : reader := ex_stdin [ex_unsigned; ""; ex_unsigned].
Definition ex_run (flags : commandFlags) : result unit * list string :=
  ex_out (runSign ex_fetch ex_ledger flags ex_getenv ex_input).
Definition ex_signed_text : string :=
  match (ex_run (ex_flags ex_unsigned "")).2 with s :: _ => TrimSpace s | [] => "" end.
Definition ex_verify (flags : commandFlags) (lines : list string) : result unit * list string :=
  ex_out (runVerify ex_fetch flags ex_getenv (ex_stdin lines)).

(** An entry signed on the command line verifies there. *)
Lemma runVerify_sound_witness : ∃ cfg pass es w0 w1 w2 w3,
  cli_loadConfig "" ex_getenv w0 = (Ok cfg, w1) ∧
  cli_resolveNetwork Background (Value (resolveNetworkValue (Some ["network"; "secret-env"]) "testnet" ex_getenv cfg))
    (Value (resolveRPCURLValue (Some ["network"; "secret-env"]) "" ex_getenv cfg "")) ex_getenv ex_fetch w2 = (Ok pass, w3) ∧
  asked (ex_flags "" "-") (ex_stdin [ex_signed_text; ""; ex_signed_text]) es ∧
  Forall (accepted (ex_flags "" "-") pass) es.
Proof.
  assert (Hrun : ∃ w', runVerify ex_fetch (ex_flags "" "-") ex_getenv (ex_stdin [ex_signed_text; ""; ex_signed_text])
    initial_world = (Ok tt, w')) by (eexists; vm_compute; reflexivity).
  destruct Hrun as [w' Hrun]. exact (runVerify_sound _ _ _ _ _ _ Hrun).
Defined.

Lemma NewEd25519Signer_silent kp : silent (NewEd25519Signer kp).
Proof.
  intros ctx pre payload w. cbn [signer_Sign NewEd25519Signer]. unfold ed25519Signer_Sign, ctx_check, ctx_poll.
  unfold mbind at 1, IO_bind at 1. unfold mbind at 1, IO_bind at 1. by destruct (ctx_Err ctx (now w)).
Qed.

Definition ex_seed_signer : cliSigner := SeedSigner (NewEd25519Signer (Some (ex_keypair "a"))).
Definition ex_batch : result unit * World :=
  runSignBatch "-" ex_input ex_seed_signer 1000 ex_network true initial_world.

Lemma runSignBatch_all_or_nothing_witness : ∃ l, log ex_batch.2 = log initial_world ++ l ∧
  ∃ inputs texts, (readBatchEntries "--entries" "-" ex_input = Ok inputs ∧ inputs ≠ [] ∧
      Forall2 (λ i r, ∃ w1 w2, signBatchInput ex_seed_signer 1000 ex_network i w1 = (r, w2)) inputs (map Ok texts)) ∧
    printed l = [json_EncodeBatch (signedResults texts) +:+ newline].
Proof.
  assert (Hrun : runSignBatch "-" ex_input ex_seed_signer 1000 ex_network true initial_world = (Ok tt, ex_batch.2)).
  { vm_compute. reflexivity. }
  assert (Hs : ∀ e s, signerFor ex_seed_signer e = Ok s → silent s).
  { intros e s [= <-]. apply NewEd25519Signer_silent. }
  exact (runSignBatch_all_or_nothing _ _ _ Hs _ _ _ _ _ _ Hrun).
Defined.

(** One bad line: nothing signed is written, and every other line of a check is
    still reported. *)
Example ex_batches :
  (ex_out (runSignBatch "-" (ex_stdin [ex_unsigned; "x"]) ex_seed_signer 1000 ex_network false)).2 = [] ∧
  exitOf (ex_out (runSignBatch "-" (ex_stdin [ex_unsigned; "x"]) ex_seed_signer 1000 ex_network false)).1 = 2%Z ∧
  (let r := ex_verify (ex_flags "" "-") ["x"; ex_signed_text; ex_unsigned] in
   exitOf r.1 = 2%Z ∧ length r.2 = 1) ∧
  exitOf (ex_verify (ex_flags ex_unsigned "") []).1 = ExitVerificationFailed.
Proof. vm_compute. by split_and!. Qed.

(** The asserted expiration is compared after it is cut to 32 bits. *)
Definition ex_wide (entry : string) : commandFlags :=
  mkCommandFlags "" entry "" "testnet" (2 ^ 32 + 1000) 0 "" false false false false "" "" "" 0 "" ["network"].
Example ex_verify_wide : (ex_verify (ex_wide ex_signed_text) []).1 = Ok tt.
Proof. vm_compute. reflexivity. Qed.

(** The text report of an envelope, and the assertion flag of sign. *)
Definition ex_inspect (entry : string) : commandFlags :=
  mkCommandFlags "" entry "" "" 0 0 "" false false true false "" "" "" 0 "" [].
Definition ex_envelope_text : string := ex_text_of (MarshalBase64 ex_envelope).
Example ex_inspect_envelope : ∃ report,
  inspectInput (InputEnvelope ex_envelope) = Ok report ∧ is_ok (inspectText report) = false ∧
  is_ok (ex_out (runInspect (ex_inspect ex_unsigned) ex_getenv ex_input)).1 = true ∧
  (ex_out (runInspect (ex_inspect ex_envelope_text) ex_getenv ex_input)).1 = (_ ← inspectText report; Ok tt).
Proof. eexists. split_and!; vm_compute; reflexivity. Qed.

Example ex_signers :
  let signer secret assertion cmd := match resolveSigner ex_getenv secret assertion cmd "" Minute with
    | Ok (SeedSigner _) => "seed" | Ok (ExternalSigner _) => "program" | Err e => Error e end in
  signer "SOROAUTH_SEED" "" "" = "seed" ∧ signer "" "" "sign" = "program" ∧
  signer "" "-" "" = "passkey authentication is not yet supported" ∧
  signer "UNSET" "" "" = "environment variable UNSET is empty or unset" ∧
  exitOf (_ ← resolveSigner ex_getenv "SOROAUTH_SEED" "" "sign" "" Minute; Ok tt) = 2%Z.
Proof. vm_compute. by split_and!. Qed.
