(* ===== verification/ExplainError.v ===== *)
(** * ExplainError: advice for the credential arm of an entry
    (cmd/soroauth/explain_error.go)

    A table of errors and advice, checked when the program starts
    ([registerExplainError_ok]), and a command that inspects an entry and prints
    a row's advice beside the entry's fields.  [explanations_rows] shows which
    rows the command ever uses: the arm's own index picks one of the first four.

    The JSON text of the result is the parameter [json_EncodeExplain]. *)
From Stdlib Require Import ZArith Lia Strings.Byte String.
From stdpp Require Import base list strings pretty.
From S2P Require Import Prelude Encoding Errors Xdr ModelSDK Runtime Examples Address Limits Arm Preimage.
From S2P Require Import Nodes Inspect Delegates Authorize Remote Vault Custody.
From S2P Require Import CliSpec Cli ExecSigner CliCommands.

Open Scope string_scope. Open Scope nat_scope. Open Scope list_scope.

Record explainErrorMapping := mkMapping {
  Mapping_Err : option error;
  Category : string;
  Description : string;
  CAP : string;
  SuggestedFix : string
}.
Record explainErrorResult := mkExplainResult { explained_Entry : string; PlainText : string }.

Definition explainErrorMappings : list explainErrorMapping :=
  [mkMapping (Some (ESentinel ErrSourceAccountCredentials)) "source-account"
     "the transaction source account itself is being authorized; no signature is needed"
     "CAP-46-11 §3"
     "ensure the source account is authorized via the transaction envelope, not a credential node";
   mkMapping (Some (ESentinel ErrInvalidExpiration)) "expiration"
     "signatureExpirationLedger is in the past (current_ledger > signatureExpirationLedger)"
     "CAP-71-01 §5.1"
     "increase signatureExpirationLedger to a future ledger or use ExpirationAfter to compute it";
   mkMapping (Some (ESentinel ErrMissingSigner)) "missing-signer"
     "no signer was found whose Address() matches the entry's top-level credentials"
     "CAP-71-01 §5.2"
     "provide a signer whose address matches the credential's address, or use --for to specify the target";
   mkMapping (Some (ESentinel ErrNoMatchingCredentialNode)) "no-matching-node"
     "the entry has no credential node whose address equals the target; or the delegates arm has no nodes matching the signer's address"
     "CAP-71-01 §5.3"
     "ensure the signer's address appears in the delegates arm, or the entry has a top-level address matching the signer";
   mkMapping (Some (ESentinel ErrAlreadySigned)) "already-signed"
     "a node already has a non-Void, non-empty signature; re-signing would invalidate other nodes"
     "CAP-71-01 §5.4"
     "use --allow-resign if you intentionally want to overwrite, or check the expiration mismatch first";
   mkMapping (Some (ESentinel ErrUnsupportedCredentials)) "unsupported"
     "the credential arm is not (yet) supported by this library version"
     "CAP-71-02 §2"
     "upgrade the entry to a supported arm or check the library version";
   mkMapping (Some (EText "signature verification failed: signature mismatch")) "signature-mismatch"
     "the signature on a credential node does not match the preimage payload"
     "CAP-71-01 §5.5"
     "re-sign the entry with the correct key; verify the signer's key matches the credential's address";
   mkMapping (Some (EText "too many signatures")) "too-many-signatures"
     "more than the allowed number of signatures on a single credential node"
     "CAP-71-01 §5.6"
     "reduce the number of signatures; account multisigs are capped at 20 signers";
   mkMapping (Some (EText "nonce already consumed")) "nonce-consumed"
     "the nonce has already been consumed in a previous authorization check; the host will reject the transaction"
     "CAP-71-01 §5.1"
     "use a fresh nonce; do not reuse the same nonce across multiple authorizations";
   mkMapping (Some (EText "resource budget exceeded")) "resource-budget"
     "the transaction exceeded the host's resource budget (e.g., too many instructions, too deep a call tree)"
     "CAP-46-11 §4"
     "reduce the call tree depth or sub-invocations; the contract may have hit an instruction limit";
   mkMapping (Some (EText "unknown delegate")) "unknown-delegate"
     "a delegate in the delegates arm is not registered in the modular account's stored signers"
     "CAP-71-01 §5.7"
     "register the delegate in the account's stored signers, or ensure the delegate is authorized via a different path";
   mkMapping (Some (EText "contract error: unknown delegate")) "contract-unknown-delegate"
     "the Soroban host returned an UnknownDelegate error when checking delegated authorization"
     "CAP-71-01 §5.7 / host source"
     "register the delegate in the account's stored signers before submitting; use the modular account's grant_delegate flow";
   mkMapping (Some (EText "contract error: no delegates")) "contract-no-delegates"
     "the Soroban host returned a NoDelegates error when checking delegated authorization because the account has zero stored signers"
     "CAP-71-01 §5.7 / host source"
     "ensure the account has at least one signer registered before authorizing via delegates"].

(** The check at start-up, a panic when it fails. *)
Definition checkMapping (i : nat) (m : explainErrorMapping) : result unit :=
  let here := "explain-error mapping " +:+ pretty i +:+ " has " in
  _ ← refuse (match Mapping_Err m with None => true | Some _ => false end) (EText (here +:+ "nil Err"));
  _ ← refuse (String.eqb (Category m) "") (EText (here +:+ "empty Category"));
  _ ← refuse (String.eqb (Description m) "") (EText (here +:+ "empty Description"));
  _ ← refuse (String.eqb (CAP m) "") (EText (here +:+ "empty CAP"));
  refuse (String.eqb (SuggestedFix m) "") (EText (here +:+ "empty SuggestedFix")).
Definition registerExplainError (mappings : list explainErrorMapping) : result unit :=
  _ ← imapM checkMapping mappings; Ok tt.

(** The advice of a row; an index past the table would panic. *)
Definition adviceAt (mappings : list explainErrorMapping) (i : nat) : list string :=
  match mappings !! i with
  | Some m => ["CAP reference: " +:+ CAP m; "Suggested fix: " +:+ SuggestedFix m]
  | None => []
  end.

(** The lines for a report, by its arm. *)
Definition explanations (mappings : list explainErrorMapping) (info : EntryInfo) : list string :=
  let arm := Info_CredentialType info in
  let expiry := "; if current_ledger > this, the host will reject" in
  let ledger := FormatUint (Info_ValidUntilLedger info) in
  let nonce := FormatInt (Info_Nonce info) in
  let fields := ["Address: " +:+ Info_Address info; "Nonce: " +:+ nonce; "ValidUntilLedger: " +:+ ledger] in
  let signed := ["TopLevelSigned: " +:+ bool_text (Info_TopLevelSigned info)] in
  let checks consumed :=
    (if (0 <? Info_ValidUntilLedger info)%Z
     then ["Expiration check: signatureExpirationLedger=" +:+ ledger +:+ expiry] else []) ++
    (if negb (Info_Nonce info =? 0)%Z
     then ["Nonce: " +:+ nonce +:+ "; ensure it has not been consumed" +:+ consumed] else []) in
  if String.eqb arm "source_account" then
    ["Credential type: source_account (SOROBAN_CREDENTIALS_SOURCE_ACCOUNT)";
     "This arm authorizes the transaction source account directly via the envelope."] ++ adviceAt mappings 0
  else if String.eqb arm "address" then
    "Credential type: address (SOROBAN_CREDENTIALS_ADDRESS, legacy V1)" :: fields ++ signed ++
    checks " in a prior authorization check" ++ adviceAt mappings 1
  else if String.eqb arm "address_v2" then
    "Credential type: address_v2 (SOROBAN_CREDENTIALS_ADDRESS_V2)" :: fields ++ checks "" ++ adviceAt mappings 2
  else if String.eqb arm "address_with_delegates" then
    "Credential type: address_with_delegates (SOROBAN_CREDENTIALS_ADDRESS_WITH_DELEGATES)" :: fields ++ signed ++
    ["Delegates: " +:+ pretty (length (Info_Delegates info)) +:+ " delegate(s)"] ++ checks "" ++ adviceAt mappings 3
  else
    ["Unknown credential type: " +:+ arm; "This may be an unsupported arm; see ErrUnsupportedCredentials"].

Section explain.
Context `{SDK} `{EnvelopeSDK} `{NetURL} `{CustodyLib} `{CliLib} `{RemoteJSON} `{ExecLib} `{ReportLib}.
Variable json_EncodeExplain : explainErrorResult → string.

(** The network is read and not used. *)
Definition runExplainError (entryB64 network : string) (jsonOutput : bool) (stdin : Stdin) : IO unit :=
  let field {A} (r : result A) : result A :=
    match r with Ok a => Ok a | Err e => Err (default e (withField "--entry" (Some e))) end in
  _ ← orJSON jsonOutput (lift (field (refuse (String.eqb entryB64 "") (usageError "--entry is required"))));
  entry ← orJSON jsonOutput (lift (field (match decodeEntryNamedFrom "--entry" entryB64 stdin with
                                          | Ok entry => Ok entry
                                          | Err e => Err (newErrorf ExitUsageError (EWrap "decoding --entry" e))
                                          end)));
  match Inspect entry with
  | Err e =>
      if jsonOutput then writeJSONError true (default e (withField "--entry" (Some (newErrorf ExitGeneralError (EWrap "inspecting --entry" e)))))
      else Fprint Stderr (Error e +:+ newline)
  | Ok info =>
      let text := String.concat newline (explanations explainErrorMappings info) in
      Fprint Stdout ((if jsonOutput then json_EncodeExplain (mkExplainResult entryB64 text) else text) +:+ newline)
  end.
End explain.

(** ** The table *)
(** The program starts: no row of the table is incomplete. *)
Lemma registerExplainError_ok : registerExplainError explainErrorMappings = Ok tt.
Proof. vm_compute. reflexivity. Qed.

(** A table passes the check exactly when every row is complete. *)
Theorem registerExplainError_spec mappings :
  registerExplainError mappings = Ok tt ↔
  Forall (λ m, is_Some (Mapping_Err m) ∧ Category m ≠ "" ∧ Description m ≠ "" ∧ CAP m ≠ "" ∧ SuggestedFix m ≠ "") mappings.
Proof.
  unfold registerExplainError. generalize 0 as i.
  induction mappings as [|m ms IH]; intros i; cbn [imapM_from]; [by split|].
  rewrite Forall_cons, <-(IH (S i)).
  assert (Hm : checkMapping i m = Ok tt ↔
    is_Some (Mapping_Err m) ∧ Category m ≠ "" ∧ Description m ≠ "" ∧ CAP m ≠ "" ∧ SuggestedFix m ≠ "").
  { unfold checkMapping. destruct (Mapping_Err m); cbn [refuse mbind result_bind]; [|split; [done|by intros [[? [=]] _]]].
    destruct (String.eqb_spec (Category m) ""), (String.eqb_spec (Description m) ""), (String.eqb_spec (CAP m) ""),
      (String.eqb_spec (SuggestedFix m) ""); cbn; naive_solver. }
  rewrite <-Hm. cbn [mbind result_bind]. destruct (checkMapping i m) as [[]|e]; cbn [mbind result_bind].
  - destruct (imapM_from checkMapping (S i) ms); cbn; [by split|]. split; [done|by intros [_ ?]].
  - split; [done|by intros [? _]].
Qed.

(** Whatever an entry holds, the advice is one of the first four rows, picked by
    the entry's arm; the other rows are never printed. *)
Theorem explanations_rows mappings info :
  explanations mappings info = explanations (take 4 mappings) info.
Proof.
  assert (Ha : ∀ i, i < 4 → adviceAt (take 4 mappings) i = adviceAt mappings i).
  { intros i Hi. unfold adviceAt. by rewrite lookup_take_lt. }
  unfold explanations. by rewrite !Ha by lia.
Qed.

(** ** The command at work *)
Definition ex_explain_json (r : explainErrorResult) : string := PlainText r.
Definition ex_explain (e : SorobanAuthorizationEntry) : result unit * list string :=
  ex_out (runExplainError ex_explain_json (ex_text_of (cli_encodeEntry e)) "" false (Ok [])).

(** The advice for an address_v2 entry is about a missing signer, also when the
    entry is signed by its own address. *)
Example ex_explains :
  (ex_explain (ex_v2 "a" 0 ScvVoid)).1 = Ok tt ∧
  last (explanations explainErrorMappings (mkEntryInfo "address_v2" true (ex_text "a") 5 1000 true [] "" "" 0)) =
    Some "Suggested fix: provide a signer whose address matches the credential's address, or use --for to specify the target" ∧
  length explainErrorMappings = 13 ∧
  exitOf (ex_out (runExplainError ex_explain_json "" "" false (Ok []))).1 = 2%Z.
Proof. vm_compute. by split_and!. Qed.
