(* ===== verification/CliTools.v ===== *)
(** * CliTools: the other reading commands, and the dispatcher
    (cmd/soroauth: payload.go, delegates.go, diff.go, tree.go, completions.go,
    submit.go, verbosity.go, main.go)

    [payload] prints what a signature has to cover, [delegates] wraps an entry,
    [diff] compares two, [tree] draws one, and the hidden completion command
    lists addresses; [unsignedRefusal] is the check [submit] makes before it
    sends.  The theorems join the commands: what [payload] prints is what
    [sign] has signed ([payload_is_signed]), what one command prints the next
    one reads from its standard input ([pipeline_reads]), and --quiet changes
    only what a success prints ([run_quiet]).

    JSON texts are the class [ToolLib]; the commands of the dispatcher are an
    argument. *)
From Stdlib Require Import ZArith Lia Strings.Byte String Ascii.
From stdpp Require Import base list strings gmap pretty.
From S2P Require Import Prelude Encoding Errors Xdr ModelSDK Runtime Examples Address Limits Arm Preimage Signers.
From S2P Require Diff TreeRender WebAuthn.
From S2P Require Import Nodes Retry Inspect Delegates Authorize Verify Batch Envelope Remote Vault Custody.
From S2P Require Import CliSpec Cli ExecSigner CliCommands.

Open Scope string_scope. Open Scope nat_scope. Open Scope list_scope.

Record envelopePayloadOutput := mkEnvelopePayloadOutput {
  Out_OperationIndex : nat;
  Out_EntryIndex : nat;
  Out_SourceAccount : bool;
  Out_Preimage : string;
  Out_Payload : string
}.

Class ToolLib := {
  json_UnmarshalDelegates : string → result (list Delegate);
  json_EncodePayload : string → string → string;              (* preimage, payload *)
  json_EncodePayloads : list envelopePayloadOutput → string;
  json_EncodeDiff : Diff.EntryDiff → string
}.

(** The flags of these commands, with those they share. *)
Record toolFlags := mkToolFlags {
  common : commandFlags;
  delegateFlags : list string;
  nestedJSONFlag : string;
  beforeFlag : string;
  afterFlag : string;
  beforeEntriesFlag : string;
  afterEntriesFlag : string;
  formatFlag : string
}.

Section tools.
Context `{SDK} `{EnvelopeSDK} `{NetURL} `{CustodyLib} `{CliLib} `{RemoteJSON} `{ExecLib} `{ReportLib} `{ToolLib}.
Variables (fetchNetworkPassphrase : networkResolver) (fetchLatestLedger : ledgerFetcher).

(** The configuration and the JSON mode, before any flag is looked at. *)
Definition toolMode (flags : commandFlags) (getenv : string → string) : IO (loadedConfig * bool) :=
  cfg ← orJSON (jsonFlag flags) (cli_loadConfig (configFlag flags) getenv);
  jsonMode ← orJSON (jsonFlag flags) (lift (resolveJSONMode (Some (set_ flags)) (jsonFlag flags) getenv cfg));
  mret (cfg, jsonMode).

(** What is left of standard input once [resolveEntryArg] has read it. *)
Definition stdinAfter (val : string) (stdin : reader) : Stdin :=
  if String.eqb val "-" then Ok [] else readAll stdin.

(** ** payload.go *)
Definition payloadError (e : error) : error :=
  newErrorf (if errors_Is e ErrSourceAccountCredentials || errors_Is e ErrUnsupportedCredentials
             then ExitSigningRefusal else ExitVerificationFailed) e.

(** The preimage and its hash, as they are printed. *)
Definition payloadOf (entry : SorobanAuthorizationEntry) (expiration : Z) (passphrase : string)
    : result (HashIdPreimage * bytes) :=
  match Preimage entry expiration passphrase with
  | Err e => Err (payloadError e)
  | Ok preimage =>
      match Payload preimage with
      | Err e => Err (newErrorf ExitGeneralError e)
      | Ok payload => Ok (preimage, payload)
      end
  end.

Definition payloadItem (p : EnvelopePayload) : result envelopePayloadOutput :=
  let here := mkEnvelopePayloadOutput (Payload_OperationIndex p) (Payload_EntryIndex p) (Payload_SourceAccount p) in
  match Payload_SourceAccount p, Payload_Preimage p with
  | false, Some preimage =>
      match MarshalBase64 preimage with
      | Ok encoded => Ok (here encoded (hex_EncodeToString (Payload_Payload p)))
      | Err e => Err (generalError "encoding the preimage" e)
      end
  | _, _ => Ok (here "" "")
  end.

Definition payloadLines (item : envelopePayloadOutput) : string :=
  let at_ := "operation " +:+ pretty (Out_OperationIndex item) +:+ " entry " +:+ pretty (Out_EntryIndex item) in
  if Out_SourceAccount item then at_ +:+ ": source-account credentials, which carry no payload" +:+ newline
  else at_ +:+ " preimage: " +:+ Out_Preimage item +:+ newline +:+
       at_ +:+ " payload:  " +:+ Out_Payload item +:+ newline.

Definition runPayloadEnvelope (envelope : TransactionEnvelope) (validUntil : Z) (passphrase : string)
    (jsonFlag : bool) : IO unit :=
  payloads ← orJSON jsonFlag (lift (match EnvelopePayloads envelope validUntil passphrase with
                                    | Ok ps => Ok ps
                                    | Err e => Err (payloadError e)
                                    end));
  out ← orJSON jsonFlag (lift (rmapM payloadItem payloads));
  Fprint Stdout (if jsonFlag then json_EncodePayloads out +:+ newline
                 else String.concat "" (map payloadLines out)).

Definition tools_armOf (entry : SorobanAuthorizationEntry) : string :=
  match Inspect entry with Ok info => Info_CredentialType info | Err _ => "unknown" end.

Definition runPayload (flags : commandFlags) (getenv : string → string) (stdin : reader) : IO unit :=
  '(cfg, jsonMode) ← toolMode flags getenv;
  let set := Some (set_ flags) in
  resolvedEntry ← orJSON jsonMode (lift (resolveEntryArg (entryFlag flags) (readAll stdin)));
  input ← orJSON jsonMode (lift (decodeEntryOrEnvelopeFrom resolvedEntry (stdinAfter (entryFlag flags) stdin)));
  let resolvedRPC := Value (resolveRPCURLValue set (rpcURLFlag flags) getenv cfg "") in
  passphrase ← orJSON jsonMode (cli_resolveNetwork Background
    (Value (resolveNetworkValue set (networkFlag flags) getenv cfg)) resolvedRPC getenv fetchNetworkPassphrase);
  expiration ← orJSON jsonMode (resolveValidUntil Background (validUntil flags) (validFor flags) resolvedRPC
    fetchLatestLedger);
  match input with
  | InputEnvelope envelope => runPayloadEnvelope envelope expiration passphrase jsonMode
  | InputEntry entry =>
      '(preimage, payload) ← orJSON jsonMode (lift (payloadOf entry expiration passphrase));
      _ ← (if verboseFlag flags then
             Fprint Stderr ("soroauth: payload: arm=" +:+ tools_armOf entry +:+ " expiration=" +:+ FormatUint expiration +:+
               " payload_bytes=" +:+ pretty (length payload) +:+ newline)
           else mret tt);
      encoded ← orJSON jsonMode (generalIO "encoding the preimage" (MarshalBase64 preimage));
      if jsonMode : bool then Fprint Stdout (json_EncodePayload encoded (hex_EncodeToString payload) +:+ newline)
      else
        _ ← Fprint Stdout ("preimage: " +:+ encoded +:+ newline);
        Fprint Stdout ("payload:  " +:+ hex_EncodeToString payload +:+ newline)
  end.

(** ** delegates.go *)
(** [addressList.Set], once per flag. *)
Definition addressList (values : list string) : result (list string) :=
  rmapM (λ value : string, _ ← refuse (String.eqb value "") (EText "--delegate needs an address"); Ok value) values.

Definition delegatesError (e : error) : error :=
  newErrorf (if errors_Is e ErrUnsupportedCredentials || errors_Is e ErrAlreadySigned || errors_Is e ErrDuplicateDelegate
             then ExitSigningRefusal
             else if errors_Is e ErrInvalidExpiration then ExitVerificationFailed else ExitGeneralError) e.

Definition delegateTree (flags : toolFlags) : result (list Delegate) :=
  if negb (String.eqb (nestedJSONFlag flags) "") then
    match json_UnmarshalDelegates (nestedJSONFlag flags) with
    | Ok tree => Ok tree
    | Err e => Err (newErrorf ExitUsageError (EWrap "invalid --nested-json" e))
    end
  else match delegateFlags flags with
       | [] => Err (usageError "at least one --delegate is required")
       | delegates => Ok (map (λ address, mkDelegate address None []) delegates)
       end.

Definition runDelegates (flags : toolFlags) (getenv : string → string) (stdin : reader) : IO unit :=
  let shared := common flags in
  '(cfg, jsonMode) ← toolMode shared getenv;
  resolvedEntry ← orJSON jsonMode (lift (resolveEntryArg (entryFlag shared) (readAll stdin)));
  entry ← orJSON jsonMode (lift (decodeEntryNamedFrom "--entry" resolvedEntry (stdinAfter (entryFlag shared) stdin)));
  expiration ← orJSON jsonMode (resolveValidUntil Background (validUntil shared) (validFor shared)
    (Value (resolveRPCURLValue (Some (set_ shared)) (rpcURLFlag shared) getenv cfg "")) fetchLatestLedger);
  tree ← orJSON jsonMode (lift (delegateTree flags));
  wrapped ← orJSON jsonMode (lift (match WithDelegates entry expiration tree None with
                                   | Ok wrapped => Ok wrapped
                                   | Err e => Err (delegatesError e)
                                   end));
  encoded ← orJSON jsonMode (lift (match cli_encodeEntry wrapped with
                                   | Ok text => Ok text
                                   | Err e => Err (newErrorf ExitGeneralError e)
                                   end));
  _ ← (match Inspect wrapped with
       | Ok info =>
           if verboseFlag shared then
             Fprint Stderr ("soroauth: delegates: arm=" +:+ Info_CredentialType info +:+ " expiration=" +:+
               FormatUint (Info_ValidUntilLedger info) +:+ " delegate_nodes=" +:+
               pretty (countDelegateNodes (Info_Delegates info)) +:+ newline)
           else mret tt
       | Err _ => mret tt
       end);
  signedOutput jsonMode "wrapped_entry" encoded.

(** ** diff.go *)
Definition staleError (stale : list string) : option error :=
  match stale with
  | [] => None
  | _ => Some (newErrorf ExitVerificationFailed (EText (pretty (length stale) +:+
           " signature(s) carried over unchanged across a payload change")))
  end.

Definition labelBatchError (flagName : string) (err : error) : error :=
  newErrorf (ExitCode (Some err)) (EWrap flagName err).

Definition labelled (flagName : string) (r : result SorobanAuthorizationEntry) : result SorobanAuthorizationEntry :=
  match r with Ok e => Ok e | Err err => Err (labelBatchError flagName err) end.

Definition diffReport (before after : SorobanAuthorizationEntry) : result Diff.EntryDiff :=
  match Diff.DiffEntries before after with
  | Ok report => Ok report
  | Err e => Err (newErrorf ExitGeneralError e)
  end.

(** The pairs of the two files, as the inputs of a batch. *)
Fixpoint diffLoop (jsonFlag : bool) (index : nat) (before after : list batchInput) (run : batchRun) : IO batchRun :=
  match before, after with
  | b :: before, a :: after =>
      r ← try_ (lift (x ← labelled "--before-entries" (Outcome b); y ← labelled "--after-entries" (Outcome a);
                      diffReport x y));
      run ← batchRecord jsonFlag (mkBatchInput index (Outcome b))
              (match r with
               | Ok report => Ok (PayloadDiff report, Diff.EntryDiff_String report +:+ newline,
                                  staleError (Diff.StaleSignatures report))
               | Err e => Err e
               end) run;
      diffLoop jsonFlag (S index) before after run
  | _, _ => mret run
  end.

Definition diffEntriesOf (flagName name : string) (stdin : reader) (jsonFlag : bool) : IO (list batchInput) :=
  inputs ← orJSON jsonFlag (lift (readBatchEntries flagName name stdin));
  match inputs with
  | [] => writeJSONError jsonFlag (emptyBatchError flagName name)
  | _ => mret inputs
  end.

Definition runDiffBatch (beforeName afterName : string) (stdin : reader) (jsonFlag : bool) : IO unit :=
  before ← diffEntriesOf "--before-entries" beforeName stdin jsonFlag;
  after ← diffEntriesOf "--after-entries" afterName stdin jsonFlag;
  if negb (Nat.eqb (length before) (length after)) then
    writeJSONError jsonFlag (usageError ("--before-entries (" +:+ batchSourceName beforeName +:+ ") has " +:+
      pretty (length before) +:+ " entries but --after-entries (" +:+ batchSourceName afterName +:+ ") has " +:+
      pretty (length after) +:+ "; batch diff compares them pairwise in order"))
  else
    run ← diffLoop jsonFlag 1 before after (newBatchRun (length before));
    batch_finish run jsonFlag.

(** The combinations of flags that are refused. *)
Definition diffUsage (flags : toolFlags) : option string :=
  let empty := String.eqb "" in
  let dash := String.eqb "-" in
  if negb (empty (beforeEntriesFlag flags)) || negb (empty (afterEntriesFlag flags)) then
    if negb (empty (beforeFlag flags)) || negb (empty (afterFlag flags)) then
      Some "--before/--after and --before-entries/--after-entries are mutually exclusive"
    else if empty (beforeEntriesFlag flags) then Some "--before-entries is required with --after-entries"
    else if empty (afterEntriesFlag flags) then Some "--after-entries is required with --before-entries"
    else if dash (beforeEntriesFlag flags) && dash (afterEntriesFlag flags) then
      Some "only one of --before-entries and --after-entries can be read from stdin"
    else None
  else if empty (beforeFlag flags) then Some "--before or --before-entries is required"
  else if empty (afterFlag flags) then Some "--after or --after-entries is required"
  else if dash (beforeFlag flags) && dash (afterFlag flags) then
    Some "only one of --before and --after can be read from stdin"
  else None.

Definition diffVerbose (report : Diff.EntryDiff) : string :=
  "soroauth: diff: identical=" +:+ bool_text (Diff.Identical report) +:+
  " payload_changed=" +:+ bool_text (Diff.PayloadChanged report) +:+
  " signatures_changed=" +:+ bool_text (Diff.SignaturesChanged report) +:+
  " changes=" +:+ pretty (length (Diff.Changes report)) +:+
  " stale=" +:+ pretty (length (Diff.StaleSignatures report)) +:+ newline +:+
  String.concat "" (map (λ p, "soroauth: diff: stale signature at " +:+ p +:+ newline) (Diff.StaleSignatures report)).

Definition runDiff (flags : toolFlags) (getenv : string → string) (stdin : reader) : IO unit :=
  let shared := common flags in
  '(_, jsonMode) ← toolMode shared getenv;
  match diffUsage flags with
  | Some text => writeJSONError jsonMode (usageError text)
  | None =>
      if negb (String.eqb (beforeEntriesFlag flags) "") then
        runDiffBatch (beforeEntriesFlag flags) (afterEntriesFlag flags) stdin jsonMode
      else
        before ← orJSON jsonMode (lift (decodeEntryNamedFrom "--before" (beforeFlag flags) (readAll stdin)));
        after ← orJSON jsonMode (lift (decodeEntryNamedFrom "--after" (afterFlag flags) (readAll stdin)));
        report ← orJSON jsonMode (lift (diffReport before after));
        _ ← (if verboseFlag shared then Fprint Stderr (diffVerbose report) else mret tt);
        _ ← Fprint Stdout (if jsonMode then json_EncodeDiff report +:+ newline else Diff.EntryDiff_String report);
        match staleError (Diff.StaleSignatures report) with
        | None => mret tt
        | Some e => lift (Err e)
        end
  end.

(** ** tree.go *)
Definition renderTree (info : EntryInfo) (format : string) : string :=
  if String.eqb format "dot" then TreeRender.DelegateTreeDOT info else TreeRender.DelegateTreeASCII info.

Definition effectiveFormat (isSet : bool) (formatFlag resolved : string) : string :=
  if isSet then formatFlag
  else if String.eqb resolved "text" || String.eqb resolved "json" then "ascii" else resolved.

Definition runTreeEnvelope (envelope : TransactionEnvelope) (format : string) (jsonFlag : bool) : IO unit :=
  infos ← orJSON jsonFlag (lift (match InspectEnvelope envelope with
                                 | Ok infos => Ok infos
                                 | Err e => Err (newErrorf ExitGeneralError e)
                                 end));
  Fprint Stdout (if jsonFlag then json_EncodeInfos infos +:+ newline
    else String.concat "" (map (λ info, "operation " +:+ pretty (Info_OperationIndex info) +:+ " entry " +:+
           pretty (Info_EntryIndex info) +:+ ":" +:+ newline +:+ renderTree (Info_Entry info) format +:+ newline) infos)).

Definition runTree (flags : toolFlags) (getenv : string → string) (stdin : reader) : IO unit :=
  let shared := common flags in
  let isSet := existsb (String.eqb "format") (set_ shared) in
  cfg ← orJSON (jsonFlag shared) (cli_loadConfig (configFlag shared) getenv);
  _ ← (if isSet && negb (String.eqb (formatFlag flags) "ascii") && negb (String.eqb (formatFlag flags) "dot")
       then writeJSONError (jsonFlag shared) (usageError ("--format must be ascii or dot, got " +:+ quoted (formatFlag flags)))
       else mret tt);
  resolved ← orJSON (jsonFlag shared) (lift (resolveFormatValue (Some (set_ shared)) (formatFlag flags)
    (jsonFlag shared) getenv cfg "ascii"));
  let jsonMode := jsonFlag shared || String.eqb (Value resolved) "json" in
  let format := effectiveFormat isSet (formatFlag flags) (Value resolved) in
  input ← orJSON jsonMode (lift (decodeEntryOrEnvelopeFrom (entryFlag shared) (readAll stdin)));
  match input with
  | InputEnvelope envelope => runTreeEnvelope envelope format jsonMode
  | InputEntry entry =>
      info ← orJSON jsonMode (lift (inspectEntry entry));
      Fprint Stdout (if jsonMode then json_EncodeInfo info +:+ newline else renderTree info format)
  end.

(** ** completions.go: the addresses of an entry *)
Definition addAddress (out : list string) (addr : string) : list string :=
  if String.eqb addr "" || existsb (String.eqb addr) out then out else out ++ [addr].

Fixpoint walkDelegate (out : list string) (d : NodeInfo) : list string :=
  match d with mkNodeInfo address _ _ nested => fold_left walkDelegate nested (addAddress out address) end.
Definition walkDelegates (out : list string) (delegates : list NodeInfo) : list string :=
  fold_left walkDelegate delegates out.

Definition addInfo (out : list string) (info : EntryInfo) : list string :=
  walkDelegates (addAddress out (Info_Address info)) (Info_Delegates info).

Definition extractEntryAddresses (entryB64 : string) : list string :=
  match (entry ← DecodeAuthorizationEntry SafeUnmarshalEntryDepth entryB64 []; Inspect entry) with
  | Ok info => addInfo [] info
  | Err _ =>
      match (envelope ← SafeUnmarshalEnvelope entryB64; InspectEnvelope envelope) with
      | Ok infos => fold_left (λ out item, addInfo out (Info_Entry item)) infos []
      | Err _ => []
      end
  end.

(** The last --entry of the arguments, in either spelling. *)
Fixpoint completionEntry (args : list string) (entryVal : string) : string :=
  match args with
  | [] => entryVal
  | arg :: rest =>
      match String.eqb arg "--entry", rest with
      | true, value :: rest => completionEntry rest value
      | _, _ =>
          if String.prefix "--entry=" arg
          then completionEntry rest (String.substring 8 (String.length arg - 8) arg)
          else completionEntry rest entryVal
      end
  end.

Definition runCompleteAddresses (args : list string) : IO unit :=
  let entryVal := TrimSpace (completionEntry args "") in
  if String.eqb entryVal "" || String.eqb entryVal "-" then mret tt
  else Fprint Stdout (String.concat "" (map (λ addr, addr +:+ newline) (extractEntryAddresses entryVal))).

(** ** submit.go: the check before a transaction is sent *)
Fixpoint firstUnsigned (nodes : list NodeVerdict) : option string :=
  match nodes with
  | [] => None
  | node :: nodes =>
      match Verdict node with VerdictUnsigned => Some (Verdict_Address node) | _ => firstUnsigned nodes end
  end.

(** The nodes that have to be signed: the top one of a delegates entry need not. *)
Definition requiredNodes (report : VerificationReport) : list NodeVerdict :=
  if String.eqb (Report_CredentialType report) CredentialTypeAddressWithDelegates
  then tail (Report_Nodes report) else Report_Nodes report.

Fixpoint unsignedRefusal (entries : list SorobanAuthorizationEntry) (passphrase : string) : IO string :=
  match entries with
  | [] => mret ""
  | entry :: entries =>
      report ← try_ (VerifyEntry entry passphrase);
      match report with
      | Err _ => unsignedRefusal entries passphrase
      | Ok report =>
          match firstUnsigned (requiredNodes report) with
          | Some address => mret address
          | None => unsignedRefusal entries passphrase
          end
      end
  end.

(** ** main.go: the dispatcher *)
Definition cliSubcommand : Type := list string → IO unit.

Definition cliSubcommands : list string :=
  ["payload"; "sign"; "simulate"; "submit"; "delegates"; "inspect"; "diff"; "verify"; "tree"; "tui"; "doctor";
   "cross-compile"; "completions"; "man"; "wasm-budget"; "explain-error"].

Definition hasHelpFlag (args : list string) : bool :=
  existsb (λ arg, String.eqb arg "-h" || String.eqb arg "--help") args.

Definition isPrint (stream : string) (e : Event) : bool :=
  match e with EvPrint s _ => String.eqb s stream | _ => false end.
Definition isOutput (e : Event) : bool := isPrint Stdout e || isPrint Stderr e.

(** A command whose output is held back, and what it would have written. *)
Definition captured {A} (m : IO A) : IO (result A * list Event) := λ w,
  let '(r, w1) := m w in
  let l := drop (length (log w)) (log w1) in
  (Ok (r, filter (isPrint Stdout) l ++ filter (isPrint Stderr) l),
   mkWorld (now w1) (log w ++ filter (λ e, negb (isOutput e)) l)).

Fixpoint replay (l : list Event) : IO unit :=
  match l with [] => mret tt | e :: l => _ ← perform e; replay l end.

(** The command under the writers of [verbosityOutput], and its [flush]. *)
Definition verbosityOutput (level : verbosity) (m : IO unit) : IO (result unit * list Event) :=
  if quiet level then captured m else r ← try_ m; mret (r, []).
Definition flush (held : list Event) (r : result unit) : IO unit :=
  match r with Ok _ => mret tt | Err _ => replay held end.

Definition verboseResult (command : string) (r : result unit) : IO unit :=
  Fprint Stderr ("soroauth: " +:+ command +:+ ": " +:+
    match r with Ok _ => "ok" | Err e => "exit " +:+ FormatInt (ExitCode (Some e)) end +:+ newline).

Variables (usage : string) (runVersion : IO unit) (commands : string → cliSubcommand).

Definition runWithStdin (args : list string) : IO unit :=
  match args with
  | [] => _ ← Fprint Stderr usage; lift (Err (usageError "no command given"))
  | name :: rest =>
      if String.eqb name "__complete-addresses" then runCompleteAddresses rest
      else if existsb (String.eqb name) cliSubcommands then
        '(cleaned, level) ← lift (splitVerbosity name rest);
        '(r, held) ← verbosityOutput level (commands name cleaned);
        _ ← (if verbose level && negb (hasHelpFlag cleaned) then verboseResult name r else mret tt);
        _ ← flush held r;
        lift r
      else if existsb (String.eqb name) ["--version"; "-version"] then runVersion
      else if existsb (String.eqb name) ["help"; "-h"; "--help"] then Fprint Stdout usage
      else _ ← Fprint Stderr usage; lift (Err (usageError ("unknown command " +:+ quoted name)))
  end.
End tools.

(** ** Lemmas *)
(** Text without white space: a line of it is trimmed to itself. *)
Definition spaceless (s : string) : bool := strings_all (λ c, negb (is_space c)) s.

Lemma b64_char_space n : (0 <= n < 64)%Z → is_space (b64_char n) = false.
Proof.
  intros Hn. rewrite <-(Z2Nat.id n) by lia. assert (Hk : Z.to_nat n < 64) by lia. revert Hk.
  generalize (Z.to_nat n). intros k Hk. do 64 (destruct k as [|k]; [reflexivity|]). lia.
Qed.

Lemma base64_spaceless b : spaceless (WebAuthn.EncodeToString WebAuthn.StdEncoding b) = true.
Proof.
  change (spaceless (base64_EncodeToString b) = true).
  induction b as [b IH] using (induction_ltof1 _ (@length Byte.byte)). unfold spaceless.
  destruct b as [|x [|y [|z b]]]; [done|..]; cbn [base64_EncodeToString strings_all];
    pose proof (byteZ_range x) as Hx; try pose proof (byteZ_range y) as Hy;
    try pose proof (byteZ_range z) as Hz; cbv zeta; rewrite !b64_char_space by div_lia; [done..|].
  cbn [negb andb]. apply IH. unfold ltof. cbn. lia.
Qed.

Lemma trimRight_line s : spaceless s = true → trimRight (s +:+ newline) = s.
Proof.
  unfold spaceless. induction s as [|c s IH]; [done|]. rewrite str_cons_app. cbn [strings_all trimRight].
  intros [Hc Hs]%andb_true_iff. rewrite IH by done. apply negb_true_iff in Hc. rewrite Hc. by destruct s.
Qed.

Lemma TrimSpace_line s : spaceless s = true → TrimSpace (s +:+ newline) = s.
Proof.
  unfold TrimSpace. intros Hs. rewrite trimRight_line by done. destruct s as [|c s]; [done|].
  unfold spaceless in Hs. cbn in Hs |- *. apply andb_true_iff in Hs as [Hc _]. by destruct (is_space c).
Qed.

Lemma resolveEntryArg_line text : spaceless text = true →
  resolveEntryArg "-" (Ok (bytes_of_string (text +:+ newline))) = Ok text.
Proof.
  intros Hs. unfold resolveEntryArg. cbn. by rewrite string_of_bytes_of_string, TrimSpace_line.
Qed.

Lemma base64_not_dash b : WebAuthn.EncodeToString WebAuthn.StdEncoding b ≠ "-".
Proof. change (base64_EncodeToString b ≠ "-"). by destruct b as [|x [|y [|z b]]]. Qed.

(** The addresses of a tree, in the order of the walk. *)
Definition infoAddresses (info : EntryInfo) : list string :=
  Info_Address info :: map fst (concat (map node_rows (Info_Delegates info))).

Lemma addAddress_elem out addr x : x ∈ addAddress out addr ↔ x ∈ out ∨ (x = addr ∧ addr ≠ "").
Proof.
  unfold addAddress. destruct (String.eqb_spec addr "") as [->|Hne]; [naive_solver|]. cbn [orb].
  destruct (existsb (String.eqb addr) out) eqn:He.
  - apply existsb_In in He as (y & Hy & <-%String.eqb_eq). naive_solver.
  - rewrite elem_of_app, list_elem_of_singleton. naive_solver.
Qed.

Lemma addAddress_NoDup out addr : NoDup out → NoDup (addAddress out addr).
Proof.
  unfold addAddress. intros Hd. destruct (String.eqb addr ""); [done|]. cbn [orb].
  destruct (existsb (String.eqb addr) out) eqn:He; [done|]. apply NoDup_app. split; [done|]. split.
  - intros x Hx ->%list_elem_of_singleton. apply not_true_iff_false in He. apply He, existsb_In.
    exists addr. by rewrite String.eqb_refl.
  - apply NoDup_singleton.
Qed.

(** A walk that adds the addresses of a list in turn. *)
Definition adds (f : list string → list string) (addrs : list string) : Prop :=
  ∀ out, f out = fold_left addAddress addrs out.

Lemma adds_fold {A} (f : list string → A → list string) (g : A → list string) l :
  Forall (λ x, adds (λ out, f out x) (g x)) l → adds (λ out, fold_left f l out) (concat (map g l)).
Proof.
  induction 1 as [|x l Hx _ IH]; intros out; [done|]. cbn. by rewrite fold_left_app, <-Hx, <-IH.
Qed.

Lemma walkDelegate_adds : ∀ d, adds (λ out, walkDelegate out d) (map fst (node_rows d)).
Proof.
  fix IH 1. intros [address signed shape nested] out. cbn [walkDelegate node_rows map fold_left fst].
  assert (Hn : Forall (λ x, adds (λ o, walkDelegate o x) (map fst (node_rows x))) nested).
  { induction nested as [|x nested IHn]; constructor; [apply IH|apply IHn]. }
  rewrite (adds_fold _ _ _ Hn), concat_map, map_map. done.
Qed.

Lemma addInfo_adds info : adds (λ out, addInfo out info) (infoAddresses info).
Proof.
  intros out. unfold addInfo, walkDelegates, infoAddresses. cbn [fold_left].
  rewrite concat_map, map_map. apply adds_fold. apply Forall_forall. intros d _. apply walkDelegate_adds.
Qed.

Lemma fold_addAddress addrs out : NoDup out → NoDup (fold_left addAddress addrs out) ∧
  ∀ x, x ∈ fold_left addAddress addrs out ↔ x ∈ out ∨ (x ∈ addrs ∧ x ≠ "").
Proof.
  revert out. induction addrs as [|a addrs IH]; intros out Hd; cbn [fold_left].
  { split; [done|]. intros x. rewrite elem_of_nil. naive_solver. }
  destruct (IH (addAddress out a)) as [Hn Hx]; [by apply addAddress_NoDup|]. split; [done|].
  intros x. rewrite Hx, addAddress_elem, elem_of_cons. naive_solver.
Qed.

(** The dispatcher and the completions know the same commands. *)
Lemma cliSubcommands_specs : cliSubcommands ++ ["help"] ≡ₚ commandNames.
Proof. apply (bool_decide_unpack _). vm_compute. done. Qed.

(** What --quiet keeps of a log, and what a failure puts back. *)
Lemma filter_disjoint {A} (P Q : A → bool) (l : list A) : (∀ x, P x = true → Q x = false) →
  filter P (filter Q l) = [].
Proof.
  intros HPQ. induction l as [|x l IH]; [done|]. rewrite filter_cons. destruct (decide (Q x)) as [HQ|]; [|done].
  rewrite filter_cons_False; [done|]. intros HP%Is_true_true. apply Is_true_true in HQ. by rewrite HPQ in HQ.
Qed.

Lemma held_output l :
  let k := filter (λ e, negb (isOutput e)) l ++ filter (isPrint Stdout) l ++ filter (isPrint Stderr) l in
  filter (λ e, negb (isOutput e)) k = filter (λ e, negb (isOutput e)) l ∧
  filter (isPrint Stdout) k = filter (isPrint Stdout) l ∧ filter (isPrint Stderr) k = filter (isPrint Stderr) l.
Proof.
  cbv zeta. rewrite !filter_app.
  assert (Hs : ∀ x, isPrint Stdout x = true → isPrint Stderr x = false).
  { intros [ | | | | |s t]; try done. cbn. by intros ->%String.eqb_eq. }
  rewrite (filter_disjoint (λ e, negb (isOutput e)) (isPrint Stdout)), (filter_disjoint (λ e, negb (isOutput e)) (isPrint Stderr))
    by (unfold isOutput; intros x; cbn beta; by destruct (isPrint Stdout x), (isPrint Stderr x)).
  rewrite (filter_disjoint (isPrint Stdout) (λ e, negb (isOutput e))), (filter_disjoint (isPrint Stderr) (λ e, negb (isOutput e)))
    by (unfold isOutput; intros x; cbn beta; by destruct (isPrint Stdout x), (isPrint Stderr x)).
  rewrite (filter_disjoint (isPrint Stdout) (isPrint Stderr)) by done.
  rewrite (filter_disjoint (isPrint Stderr) (isPrint Stdout))
    by (intros x Hx; apply not_true_iff_false; intros Hy%Hs; congruence).
  rewrite !list_filter_filter_l by done. by rewrite !app_nil_r.
Qed.

Lemma replay_run l w : ∃ w', replay l w = (Ok tt, w') ∧ log w' = log w ++ l.
Proof.
  revert w. induction l as [|e l IH]; intros w; cbn [replay].
  { exists w. by rewrite app_nil_r. }
  destruct (IH (emit_event e w)) as (w' & Hr & Hl). exists w'. unfold mbind, IO_bind, perform. rewrite Hr.
  split; [done|]. rewrite Hl. cbn. by rewrite <-app_assoc.
Qed.

Section tool_lemmas.
Context `{SDK} `{EnvelopeSDK} `{NetURL} `{CustodyLib} `{CliLib} `{RemoteJSON} `{ExecLib} `{ReportLib} `{ToolLib} `{!SDKLaws}.

Lemma encodeEntry_Ok entry text : cli_encodeEntry entry = Ok text →
  ∃ raw, MarshalBinary entry = Ok raw ∧ WebAuthn.EncodeToString WebAuthn.StdEncoding raw = text.
Proof.
  unfold cli_encodeEntry, MarshalBase64. intros He%wrap_Ok. destruct (MarshalBinary entry) as [raw|]; [|done].
  injection He as <-. by exists raw.
Qed.

(** What the completion offers: every address of the entry once, or of all
    entries of an envelope. *)
Lemma extractEntryAddresses_spec text : NoDup (extractEntryAddresses text) ∧
  match (entry ← DecodeAuthorizationEntry SafeUnmarshalEntryDepth text []; Inspect entry) with
  | Ok info => ∀ x, x ∈ extractEntryAddresses text ↔ x ∈ infoAddresses info ∧ x ≠ ""
  | Err _ =>
      match (envelope ← SafeUnmarshalEnvelope text; InspectEnvelope envelope) with
      | Ok infos => ∀ x, x ∈ extractEntryAddresses text ↔
          (∃ item, item ∈ infos ∧ x ∈ infoAddresses (Info_Entry item)) ∧ x ≠ ""
      | Err _ => extractEntryAddresses text = []
      end
  end.
Proof.
  unfold extractEntryAddresses. destruct (_ ← DecodeAuthorizationEntry _ _ _; _) as [info|].
  { destruct (fold_addAddress (infoAddresses info) []) as [Hn Hx]; [by apply NoDup_nil|].
    pose proof (addInfo_adds info []) as Ha. cbn beta in Ha. rewrite <-Ha in Hn, Hx.
    split; [done|]. intros x. rewrite Hx, elem_of_nil. naive_solver. }
  destruct (_ ← SafeUnmarshalEnvelope _; _) as [infos|]; [|split; [by apply NoDup_nil|done]].
  assert (Ha : adds (λ out, fold_left (λ out item, addInfo out (Info_Entry item)) infos out)
    (concat (map (λ item, infoAddresses (Info_Entry item)) infos))).
  { apply adds_fold, Forall_forall. intros item _. apply addInfo_adds. }
  specialize (Ha []). cbn beta in Ha. rewrite Ha. destruct (fold_addAddress (concat (map (λ item, infoAddresses (Info_Entry item)) infos)) []) as [Hn Hx];
    [by apply NoDup_nil|].
  split; [done|]. intros x. rewrite Hx, elem_of_nil, elem_of_concat. setoid_rewrite list_elem_of_fmap. naive_solver.
Qed.

Lemma VerifyEntry_live e pass w : VerifyEntry e pass w = (verifyEntry e pass, tick w).
Proof. reflexivity. Qed.

Lemma firstUnsigned_Some nodes address : firstUnsigned nodes = Some address →
  ∃ n, n ∈ nodes ∧ Verdict n = VerdictUnsigned ∧ address = Verdict_Address n.
Proof.
  induction nodes as [|n nodes IH]; [done|]. cbn.
  destruct (Verdict n) eqn:Hn; try (intros (m & ? & ?)%IH; exists m; by rewrite elem_of_cons; auto).
  intros [= <-]. exists n. by rewrite elem_of_cons; auto.
Qed.

Lemma firstUnsigned_None nodes : firstUnsigned nodes = None ↔ Forall (λ n, Verdict n ≠ VerdictUnsigned) nodes.
Proof.
  induction nodes as [|n nodes IH]; [done|]. cbn. rewrite Forall_cons, <-IH.
  destruct (Verdict n); naive_solver.
Qed.
End tool_lemmas.

(** ** Theorems *)
Section tool_theorems.
Context `{SDK} `{EnvelopeSDK} `{NetURL} `{CustodyLib} `{CliLib} `{RemoteJSON} `{ExecLib} `{ReportLib} `{ToolLib} `{!SDKLaws}.

(** The commands agree on what is signed.  The payload [payload] prints for
    an entry, an expiration and a network is the one [sign] hands its signer
    for them, together with the preimage it printed, and the one the signed
    entry itself commits to, which [verify] checks the signatures over. *)
Theorem payload_is_signed entry expiration pass pre payload s opts w out w' :
  payloadOf entry expiration pass = Ok (pre, payload) →
  AuthorizeEntry Background entry (Some s) expiration pass opts w = (Ok out, w') →
  is_source entry = false ∧
  (∃ sig w1 w2, signer_Sign s Background pre payload w1 = (Ok sig, w2) ∧
     ∃ t, out = signEntry t sig expiration entry) ∧
  own_payload out pass = Ok payload.
Proof.
  unfold payloadOf. intros Hp Ha. destruct (Preimage entry expiration pass) as [pre0|] eqn:Hpre; [|done].
  destruct (Payload pre0) as [payload0|] eqn:Hpay; [|done]. injection Hp as -> ->.
  assert (Hs : is_source entry = false).
  { destruct (is_source entry) eqn:Hs; [|done]. exfalso. unfold is_source in Hs. apply Z.eqb_eq in Hs.
    rewrite Preimage_unfold, (addressCredentials_source _ Hs) in Hpre. by destruct (bool_decide _). }
  split; [done|]. apply AuthorizeEntry_Ok in Ha as (s' & t & plan & payload' & sig & w1 & w2 & [= <-] & Hprep & Hp' & Hsig & ->);
    [|done].
  pose proof (prepared_preimage _ _ _ _ _ _ _ Hprep) as Heq. rewrite Hpre in Heq. injection Heq as ->.
  rewrite Hpay in Hp'. injection Hp' as <-. split; [by eauto 8|].
  destruct (prepared_credentials _ _ _ _ _ _ _ Hprep) as [a Hcred].
  pose proof (signEntry_credentials t sig expiration entry a Hcred) as (Ha' & _).
  unfold own_payload. rewrite Ha'. cbn [mbind result_bind SignatureExpirationLedger].
  rewrite (Preimage_signEntry _ _ _ _ a _ _ Hcred), Hpre. exact Hpay.
Qed.

(** Commands compose: the line one command prints for an entry is what the
    next one reads from its standard input, white space and all, and it reads
    it as that entry, wherever the codec reads back what it wrote and the
    bytes are not also those of an envelope with an invocation. *)
Theorem pipeline_reads entry text rest :
  cli_encodeEntry entry = Ok text → SafeUnmarshalEntry text = Ok entry →
  (∀ env, SafeUnmarshalEnvelope text = Ok env → is_ok (EnvelopeEntries env) = false) → text ≠ "" →
  resolveEntryArg "-" (Ok (bytes_of_string (text +:+ newline))) = Ok text ∧
  decodeEntryOrEnvelopeFrom text rest = Ok (InputEntry entry) ∧
  decodeEntryOrEnvelopeFrom "-" (Ok (bytes_of_string (text +:+ newline))) = Ok (InputEntry entry).
Proof.
  intros (raw & _ & <-)%encodeEntry_Ok Hback Henv Hne.
  set (text := WebAuthn.EncodeToString WebAuthn.StdEncoding raw) in *.
  pose proof (resolveEntryArg_line text (base64_spaceless raw)) as Hline. split; [exact Hline|].
  assert (Hd : text ≠ "-") by apply base64_not_dash. clearbody text.
  unfold decodeEntryOrEnvelopeFrom, readEntryFlagFrom. apply String.eqb_neq in Hne, Hd.
  rewrite Hline, Hne. unfold resolveEntryArg at 1. rewrite Hd. cbn.
  destruct (SafeUnmarshalEnvelope text) as [env|]; rewrite Hback; [|done].
  specialize (Henv _ eq_refl). by destruct (EnvelopeEntries env).
Qed.

(** --quiet changes what a success prints and nothing else: the command
    runs on the arguments without the flag, its result is the dispatcher's, a
    success writes nothing at all, and a failure writes to each stream what it
    would have written without the flag, in the same order. *)
Theorem run_quiet usage version commands name rest cleaned w r w1 :
  name ∈ cliSubcommands → splitVerbosity name rest = Ok (cleaned, mkVerbosity true false) →
  commands name cleaned w = (r, w1) → (∃ l, log w1 = log w ++ l) →
  ∃ w2 l l', runWithStdin usage version commands (name :: rest) w = (r, w2) ∧
    log w1 = log w ++ l ∧ log w2 = log w ++ l' ∧
    filter (λ e, negb (isOutput e)) l' = filter (λ e, negb (isOutput e)) l ∧
    (is_ok r = true → filter isOutput l' = []) ∧
    (is_ok r = false → filter (isPrint Stdout) l' = filter (isPrint Stdout) l ∧
                       filter (isPrint Stderr) l' = filter (isPrint Stderr) l).
Proof.
  intros Hname Hsplit Hrun [l Hl]. unfold runWithStdin.
  assert (Hc : String.eqb name "__complete-addresses" = false).
  { apply String.eqb_neq. intros ->. apply (bool_decide_unpack (_ ∉ _)) in Hname; [done|vm_compute; done]. }
  rewrite Hc. rewrite (proj2 (existsb_In _ _)) by (exists name; split; [done|apply String.eqb_refl]).
  rewrite Hsplit. unfold mbind, IO_bind, mret, IO_ret, lift, verbosityOutput, captured. cbn [quiet verbose andb].
  rewrite Hrun, Hl, drop_app_length. destruct (held_output l) as (Hneg & Hout & Herr). destruct r as [[]|e]; cbn [flush]; unfold mret, IO_ret; cbv beta iota.
  - eexists _, l, _. split; [reflexivity|]. split; [done|]. split; [reflexivity|].
    split; [by apply list_filter_filter_l|]. split; [|done]. intros _. apply filter_disjoint. intros x. by destruct (isOutput x).
  - edestruct (replay_run (filter (isPrint Stdout) l ++ filter (isPrint Stderr) l)) as (w2 & -> & Hl2).
    eexists w2, l, _. split; [done|]. split; [done|]. cbn in Hl2. rewrite <-app_assoc in Hl2. split; [exact Hl2|].
    split; [exact Hneg|]. split; [done|]. intros _. split; [exact Hout|exact Herr].
Qed.
(** A comparison of two entries that exits well carries no signature over: where
    the payload is reported changed, no node has one signature on both sides. *)
Theorem runDiff_clean flags getenv stdin w w' :
  runDiff flags getenv stdin w = (Ok tt, w') → beforeEntriesFlag flags = "" →
  ∃ before after report na nb,
    decodeEntryNamedFrom "--before" (beforeFlag flags) (readAll stdin) = Ok before ∧
    decodeEntryNamedFrom "--after" (afterFlag flags) (readAll stdin) = Ok after ∧
    Diff.DiffEntries before after = Ok report ∧ Diff.diffNodes before = Ok na ∧ Diff.diffNodes after = Ok nb ∧
    (Diff.PayloadChanged report = true → ∀ p s, Diff.nodeMap na !! p = Some s → Diff.nodeMap nb !! p = Some s →
       isSigned s = false).
Proof.
  unfold runDiff, toolMode. intros Hr Hb. inv_io. destruct (diffUsage flags); [by apply writeJSONError_not_Ok in Hr|].
  rewrite Hb in Hr. cbn [String.eqb negb] in Hr. inv_io.
  repeat match goal with E : orJSON _ _ _ = _ |- _ => apply orJSON_Ok in E end. inv_io.
  match goal with E : diffReport _ _ = Ok ?r |- _ => rename r into report; unfold diffReport in E;
    destruct (Diff.DiffEntries _ _) as [report'|] eqn:Hd; [injection E as ->|done] end.
  destruct (Diff.StaleSignatures report) as [|p ps] eqn:Hst; cbn [staleError] in Hr; [|inv_io; done].
  pose proof Hd as Hinv. apply Diff.DiffEntries_inv in Hinv
    as (? & ? & ? & ? & na & nb & sets & _ & _ & _ & _ & _ & Ha & Hn & _).
  do 5 eexists. split; [eassumption|]. split; [eassumption|]. split; [exact Hd|]. split; [exact Ha|]. split; [exact Hn|].
  intros Hp q s Hx1 Hx2. destruct (Diff.DiffEntries_signatures _ _ _ _ _ Hd Ha Hn) as (_ & _ & Hs & _).
  destruct (isSigned s) eqn:Hsig; [|done]. exfalso.
  assert (Hq : q ∈ Diff.StaleSignatures report) by (apply Hs; eauto). rewrite Hst in Hq. by apply elem_of_nil in Hq.
Qed.

(** The check before a submission names the first node that is unsigned and has
    to be signed, or there is none among the entries that can be read. *)
Theorem unsignedRefusal_spec entries pass w : ∃ address w', unsignedRefusal entries pass w = (Ok address, w') ∧
  ((∀ e r, e ∈ entries → verifyEntry e pass = Ok r → Forall (λ n, Verdict n ≠ VerdictUnsigned) (requiredNodes r)) ∨
   ∃ e r n, e ∈ entries ∧ verifyEntry e pass = Ok r ∧ n ∈ requiredNodes r ∧ Verdict n = VerdictUnsigned ∧
     address = Verdict_Address n).
Proof.
  revert w. induction entries as [|e entries IH]; intros w.
  { eexists _, _. split; [reflexivity|]. left. intros e r He. by apply elem_of_nil in He. }
  cbn [unsignedRefusal]. unfold mbind, IO_bind, try_. rewrite VerifyEntry_live.
  destruct (verifyEntry e pass) as [r|err] eqn:Hv; cycle 1.
  { destruct (IH (tick w)) as (address & w' & -> & [Hn|(e' & r & n & He & Hs)]); eexists _, _; (split; [reflexivity|]).
    - left. intros e' r [->|He]%elem_of_cons Hr; [congruence|by eapply Hn].
    - right. exists e', r, n. split; [by apply elem_of_cons; right|done]. }
  destruct (firstUnsigned (requiredNodes r)) as [address|] eqn:Hf.
  - eexists _, _. split; [reflexivity|]. right. apply firstUnsigned_Some in Hf as (n & Hn & Hu & ->).
    exists e, r, n. split; [by apply elem_of_cons; left|done].
  - apply firstUnsigned_None in Hf.
    destruct (IH (tick w)) as (address & w' & -> & [Hn|(e' & r' & n & He & Hs)]); eexists _, _; (split; [reflexivity|]).
    + left. intros e' r' [->|He]%elem_of_cons Hr; [congruence|by eapply Hn].
    + right. exists e', r', n. split; [by apply elem_of_cons; right|done].
Qed.
End tool_theorems.

(** ** The commands in a pipeline *)
#[export] Instance ModelToolLib : ToolLib := {|
  json_UnmarshalDelegates s := Ok [mkDelegate s None []];
  json_EncodePayload pre payload := pre +:+ "," +:+ payload;
  json_EncodePayloads items := pretty (length items);
  json_EncodeDiff := Diff.EntryDiff_String
|}.

Definition ex_tool (f : commandFlags) : toolFlags := mkToolFlags f [ex_text "b"; ex_text "a"] "" "" "" "" "" "ascii".
Definition ex_first (r : result unit * list string) : string := match r.2 with s :: _ => s | [] => "" end.

(** delegates | sign --for b | sign --for a *)
Definition ex_wrap : result unit * list string :=
  ex_out (runDelegates ex_ledger (ex_tool (ex_flags "-" "")) ex_getenv (ex_stdin [ex_unsigned; ""])).
Definition ex_for (b : Byte.byte) : commandFlags :=
  mkCommandFlags "" "-" "" "testnet" 1000 0 "" false false false false "SOROAUTH_SEED" "" "" 0 (ex_text b)
    ["network"; "secret-env"].
Definition ex_sign_for (b : Byte.byte) (line : string) : result unit * list string :=
  ex_out (runSign ex_fetch ex_ledger (ex_for b) ex_getenv (mkReader (bytes_of_string line) None)).
Definition ex_pipeline : string := ex_first (ex_sign_for "b" (ex_first (ex_sign_for "a" (ex_first ex_wrap)))).

Example ex_pipeline_verifies :
  (ex_verify (ex_flags (TrimSpace ex_pipeline) "") []).1 = Ok tt ∧
  extractEntryAddresses (TrimSpace ex_pipeline) = [ex_text "a"; ex_text "b"].
Proof. split; vm_compute; reflexivity. Qed.

Definition ex_payload_of : HashIdPreimage * bytes :=
  match payloadOf (ex_v2 "a" 0 ScvVoid) 1000 ex_network with Ok p => p | Err _ => (ex_preimage, []) end.
Definition ex_seed : Signer := NewEd25519Signer (Some (ex_keypair "a")).
Definition ex_out_entry : SorobanAuthorizationEntry :=
  match AuthorizeEntry Background (ex_v2 "a" 0 ScvVoid) (Some ex_seed) 1000 ex_network [] initial_world with
  | (Ok e, _) => e
  | _ => ex_source
  end.

Lemma payload_is_signed_witness : is_source (ex_v2 "a" 0 ScvVoid) = false ∧
  (∃ sig w1 w2, signer_Sign ex_seed Background ex_payload_of.1 ex_payload_of.2 w1 = (Ok sig, w2) ∧
     ∃ t, ex_out_entry = signEntry t sig 1000 (ex_v2 "a" 0 ScvVoid)) ∧
  own_payload ex_out_entry ex_network = Ok ex_payload_of.2.
Proof.
  assert (Hrun : ∃ w', AuthorizeEntry Background (ex_v2 "a" 0 ScvVoid) (Some ex_seed) 1000 ex_network [] initial_world =
    (Ok ex_out_entry, w')) by (eexists; vm_compute; reflexivity).
  destruct Hrun as [w' Hrun]. assert (Hp : payloadOf (ex_v2 "a" 0 ScvVoid) 1000 ex_network = Ok (ex_payload_of.1, ex_payload_of.2))
    by (vm_compute; reflexivity).
  exact (payload_is_signed _ _ _ _ _ _ _ _ _ _ Hp Hrun).
Defined.

Lemma pipeline_reads_witness :
  resolveEntryArg "-" (Ok (bytes_of_string (ex_unsigned +:+ newline))) = Ok ex_unsigned ∧
  decodeEntryOrEnvelopeFrom ex_unsigned (Ok []) = Ok (InputEntry (ex_v2 "a" 0 ScvVoid)) ∧
  decodeEntryOrEnvelopeFrom "-" (Ok (bytes_of_string (ex_unsigned +:+ newline))) = Ok (InputEntry (ex_v2 "a" 0 ScvVoid)).
Proof.
  apply (pipeline_reads (ex_v2 "a" 0 ScvVoid) ex_unsigned (Ok [])); [vm_compute; reflexivity..| |done].
  intros env. vm_compute. by intros [= <-].
Defined.

(** A command that prints on both streams and fails on one argument. *)
Definition ex_command (name : string) : cliSubcommand := λ args,
  _ ← Fprint Stderr ("reading" +:+ newline); _ ← Fprint Stdout ("out" +:+ newline);
  match args with [] => mret tt | _ => lift (Err (usageError name)) end.
Definition ex_dispatch (args : list string) : result unit * list Event :=
  let '(r, w) := runWithStdin "usage" (mret tt) ex_command args initial_world in (r, log w).

Lemma run_quiet_witness : ∃ w2 l l',
  runWithStdin "usage" (mret tt) ex_command ["inspect"; "--quiet"] initial_world = (Ok tt, w2) ∧
  log (ex_command "inspect" [] initial_world).2 = log initial_world ++ l ∧ log w2 = log initial_world ++ l' ∧
  filter (λ e, negb (isOutput e)) l' = filter (λ e, negb (isOutput e)) l ∧
  (is_ok (Ok tt) = true → filter isOutput l' = []) ∧
  (is_ok (Ok tt) = false → filter (isPrint Stdout) l' = filter (isPrint Stdout) l ∧
                           filter (isPrint Stderr) l' = filter (isPrint Stderr) l).
Proof.
  apply (run_quiet "usage" (mret tt) ex_command "inspect" ["--quiet"] [] initial_world (Ok tt)
    (ex_command "inspect" [] initial_world).2).
  - apply (bool_decide_unpack _). vm_compute. done.
  - vm_compute. reflexivity.
  - reflexivity.
  - eexists. reflexivity.
Defined.

Example ex_dispatches :
  ex_dispatch ["inspect"; "--quiet"] = (Ok tt, []) ∧
  (ex_dispatch ["inspect"; "--quiet"; "x"]).2 = [EvPrint Stdout ("out" +:+ newline); EvPrint Stderr ("reading" +:+ newline)] ∧
  (ex_dispatch ["inspect"; "--verbose"]).2 = [EvPrint Stderr ("reading" +:+ newline); EvPrint Stdout ("out" +:+ newline);
     EvPrint Stderr ("soroauth: inspect: exit 2" +:+ newline)] ∧
  exitOf (ex_dispatch ["frobnicate"]).1 = 2%Z.
Proof. vm_compute. by split_and!. Qed.

(** Only the top node of a delegates entry may go unsigned, but an entry of that
    arm without delegates has no other: it is not refused. *)
Example ex_unsigned_refusal :
  let refused e := (unsignedRefusal [e] ex_network initial_world).1 in
  refused (ex_v2 "a" 0 ScvVoid) = Ok (ex_text "a") ∧ refused ex_delegates = Ok (ex_text "b") ∧
  refused (ex_with_delegates "a" 0 ScvVoid []) = Ok "".
Proof. vm_compute. by split_and!. Qed.
