(* ===== verification/CliSubmit.v ===== *)
(** * CliSubmit: the simulate and submit commands
    (cmd/soroauth: simulate.go, submit.go)

    [runSimulate] prints what a record pass of [RpcFlow] recorded; [runSubmit]
    takes a signed envelope apart, checks it, and sends it through the enforcing
    pass.  [submitPlan] is everything submit does before the submission; under
    [--network rpc] it asks the endpoint for its passphrase on the way.
    [runSubmit_run] says what has been checked by the time a submission is
    asked for, that nothing but that passphrase is asked of the RPC without it,
    that the hash is announced before the poll, and which submissions exit well.

    The RPC client behind an endpoint, the fields of a transaction that only
    submit reads, and JSON texts are the class [SubmitLib].  The variable that
    submit's callback assigns is the last text written to a stream of its own
    name. *)
From Stdlib Require Import ZArith Lia Strings.Byte String Ascii.
From stdpp Require Import base list strings pretty.
From S2P Require Import Prelude Encoding Errors Xdr ModelSDK Runtime Examples Address Limits Arm Preimage Signers.
From S2P Require Risk Diff.
From S2P Require Import Nodes Retry Inspect Delegates Authorize Verify Batch Envelope Remote Vault RpcFlow Custody.
From S2P Require Import CliSpec Cli ExecSigner CliCommands CliTools.

Open Scope string_scope. Open Scope nat_scope. Open Scope list_scope.

(** ** What the commands print *)
Record simulateEntryOutput := mkSimulateEntryOutput {
  simulated_OperationIndex : nat;
  simulated_EntryIndex : nat;
  simulated_Arm : string;
  simulated_Entry : string
}.
Record simulateOutput := mkSimulateOutput {
  simulate_Entries : list simulateEntryOutput;
  simulate_MinResourceFee : Z;
  simulate_TransactionData : string;
  simulate_LatestLedger : Z;
  simulate_Envelope : string
}.
Record submitOutput := mkSubmitOutput {
  submit_Hash : string;
  submit_Status : string;
  submit_Ledger : Z;
  submit_Arm : string;
  submit_ResultXDR : string;
  submit_Diagnostics : list string;
  submit_Error : string
}.

Class SubmitLib `{TxnBuild} := {
  rpcclient_NewClient : string → RpcFlow.Client;
  full_Keypair : ed25519Keypair → Keypair;
  Tx_SourceAccount : Transaction → string;
  Tx_SeqNum : Transaction → Z;
  Tx_Fee : Transaction → Z;
  Tx_Ext : Transaction → option SorobanTransactionData;
  Op_SourceAccount : Operation → option string;
  NewHostFunction : bytes → option string → bytes;     (* the rest of a [txnbuild.InvokeHostFunction] *)
  json_EncodeSimulate : simulateOutput → string;
  json_EncodeSubmit : submitOutput → string
}.

Section submit.
Context `{SDK} `{EnvelopeSDK} `{NetURL} `{CustodyLib} `{CliLib} `{RemoteJSON} `{ExecLib} `{ReportLib} `{ToolLib}
  `{TxnBuild} `{!SubmitLib}.
Variable GetNetwork : networkGetter.

Definition getWorld : IO World := λ w, (Ok w, w).

(** [context.WithTimeout] of a context made now. *)
Definition withTimeout (timeout : Z) : IO Ctx := w ← getWorld; mret (WithTimeout Background (now w) timeout).

(** The reading of an envelope both commands share. *)
Definition readEnvelopeFlag (value want : string) : result TransactionEnvelope :=
  match DecodeTransactionEnvelope decode_EnvelopeWithOptions value [] with
  | Ok envelope => Ok envelope
  | Err e => Err (newErrorf ExitUsageError (EWrap "decoding --entry as a transaction envelope" (classifyInput value want e)))
  end.

(** ** simulate.go *)
Record simulateFlags := mkSimulateFlags {
  simulate_entry : string;
  simulate_rpcURL : string;
  simulate_upgraded : bool;
  simulate_timeout : Z;
  simulate_json : bool
}.
Definition defaultSimulateTimeout : Z := 30 * 10 ^ 9.

Definition exitCodeForSimulateError (err : error) : Z :=
  if errors_Is err ErrDecodeLimit || errors_Is err ErrNoInvokeOperation then ExitUsageError else ExitGeneralError.

Definition simulateRow (entry : SimulatedEntry) : result simulateEntryOutput :=
  match cli_encodeEntry (Simulated_Entry entry) with
  | Ok encoded => Ok (mkSimulateEntryOutput (Simulated_OperationIndex entry) (Simulated_EntryIndex entry)
                        (Simulated_Arm entry) encoded)
  | Err e => Err (newErrorf ExitGeneralError e)
  end.

Definition simulateLines (out : simulateOutput) : list string :=
  flat_map (λ e, ["operation " +:+ pretty (simulated_OperationIndex e) +:+ " entry " +:+
                  pretty (simulated_EntryIndex e) +:+ ": " +:+ simulated_Arm e; simulated_Entry e]) (simulate_Entries out) ++
  ["min_resource_fee: " +:+ FormatInt (simulate_MinResourceFee out);
   "transaction_data: " +:+ simulate_TransactionData out;
   "latest_ledger: " +:+ FormatUint (simulate_LatestLedger out);
   "envelope: " +:+ simulate_Envelope out].

Definition runSimulate (flags : simulateFlags) (getenv : string → string) (stdin : reader) : IO unit :=
  let j := simulate_json flags in
  _ ← orJSON j (lift (refuse (String.eqb (simulate_entry flags) "") (usageError "--entry is required")));
  let endpoint := resolveRPCURL (simulate_rpcURL flags) getenv in
  _ ← orJSON j (lift (refuse (String.eqb endpoint "")
        (usageError "simulating needs an RPC endpoint: pass --rpc-url <url> or set SOROAUTH_RPC_URL")));
  value ← orJSON j (lift (asUsage (readEntryFlagFrom (simulate_entry flags) (readAll stdin))));
  _ ← orJSON j (lift (readEnvelopeFlag value "a transaction envelope"));
  ctx ← withTimeout (simulate_timeout flags);
  r ← try_ (SimulateRecord ctx (mkRecordParams (Some (rpcclient_NewClient endpoint)) value (simulate_upgraded flags)));
  record ← orJSON j (lift (match r with
                           | Ok record => Ok record
                           | Err e => Err (newErrorf (exitCodeForSimulateError e) e)
                           end));
  rows ← orJSON j (lift (rmapM simulateRow (Record_Entries record)));
  let out := mkSimulateOutput rows (Record_MinResourceFee record) (Record_TransactionDataXDR record)
               (Record_LatestLedger record) (Record_EnvelopeXDR record) in
  if j : bool then Fprint Stdout (json_EncodeSimulate out +:+ newline)
  else Fprint Stdout (String.concat "" (map (λ l, l +:+ newline) (simulateLines out))).

(** ** submit.go: what is submitted *)
Record submitRequest := mkSubmitRequest {
  Request_Source : Account;
  Request_Operation : InvokeHostFunction;
  Request_Entries : list SorobanAuthorizationEntry;
  Request_BaseFee : Z
}.

(** The loop over the operations: the one call, by its index. *)
Fixpoint onlyInvoke (i : nat) (index : option nat) (ops : list Operation) : result (option nat) :=
  match ops with
  | [] => Ok index
  | op :: ops =>
      match Envelope.Body op, index with
      | OperationOther _ _, _ => onlyInvoke (S i) index ops
      | OperationInvokeHostFunction _, Some _ =>
          Err (EText "the envelope carries more than one invokeHostFunction operation, want exactly one")
      | OperationInvokeHostFunction _, None => onlyInvoke (S i) (Some i) ops
      end
  end.

Definition submitInputs (envelope : TransactionEnvelope) : result submitRequest :=
  match envelope with
  | EnvelopeTypeTxFeeBump _ =>
      Err (EText "a fee-bump envelope is not supported: its fee source is not the account this command signs for")
  | EnvelopeTypeTx (Some v1) =>
      let tx := Tx v1 in
      found ← onlyInvoke 0 None (Operations tx);
      index ← of_option found (EText "the envelope carries no invokeHostFunction operation");
      match Operations tx !! index with
      | Some op =>
          match Envelope.Body op with
          | OperationInvokeHostFunction (Some invoke) =>
              Ok (mkSubmitRequest (mkAccount (Tx_SourceAccount tx) (Ok (Tx_SeqNum tx)))
                    (mkInvokeHostFunction (NewHostFunction (HostFunction invoke) (Op_SourceAccount op)) (Auth invoke) (Tx_Ext tx))
                    (Auth invoke)
                    (Z.quot (Tx_Fee tx) (Z.of_nat (length (Operations tx)))))
          | _ => Err (emptyArm index)
          end
      | None => Err (emptyArm index)
      end
  | _ => Err (EText "the envelope is not a transaction envelope")
  end.

(** ** submit.go: before the RPC *)
Record submitFlags := mkSubmitFlags {
  submit_entry : string;
  submit_network : string;
  submit_secretEnv : string;
  submit_rpcURL : string;
  submit_allowUnsigned : bool;
  submit_timeout : Z;
  submit_json : bool
}.
Definition defaultSubmitTimeout : Z := 60 * 10 ^ 9.

Record submission := mkSubmissionPlan {
  plan_endpoint : string;
  plan_passphrase : string;
  plan_key : ed25519Keypair;
  plan_request : submitRequest
}.

Definition submit_unsignedEntry (address : string) : error :=
  usageError ("refusing to submit: the entry for " +:+ address +:+ " is unsigned, so the transaction would be " +:+
    "refused on-chain and its fee still spent; sign it first, or pass --allow-unsigned to send it anyway").

Definition submitPlan (flags : submitFlags) (getenv : string → string) (stdin : reader) : IO submission :=
  let j := submit_json flags in
  _ ← orJSON j (lift (
    _ ← refuse (String.eqb (submit_entry flags) "") (usageError "--entry is required");
    refuse (String.eqb (submit_secretEnv flags) "")
      (usageError "--secret-env is required: the transaction envelope is signed with the source account's seed")));
  let endpoint := resolveRPCURL (submit_rpcURL flags) getenv in
  _ ← orJSON j (lift (refuse (String.eqb endpoint "")
        (usageError "submitting needs an RPC endpoint: pass --rpc-url <url> or set SOROAUTH_RPC_URL")));
  passphrase ← orJSON j (cli_resolveNetwork Background (submit_network flags) endpoint getenv
    (rpc_fetchNetworkPassphrase GetNetwork));
  key ← orJSON j (lift (resolveSeedKeypair getenv (submit_secretEnv flags)));
  value ← orJSON j (lift (asUsage (readEntryFlagFrom (submit_entry flags) (readAll stdin))));
  envelope ← orJSON j (lift (readEnvelopeFlag value "the signed transaction envelope"));
  request ← orJSON j (lift (asUsage (submitInputs envelope)));
  _ ← (if submit_allowUnsigned flags then mret tt
       else address ← unsignedRefusal (Request_Entries request) passphrase;
            orJSON j (lift (refuse (negb (String.eqb address "")) (submit_unsignedEntry address))));
  mret (mkSubmissionPlan endpoint passphrase key request).

(** ** submit.go: the submission and its report *)
Definition sentStream : string := "sentHash".

(** The callback: it keeps the hash and announces it. *)
Definition announce (j : bool) (sent : Submission) (w : World) : World :=
  let w := emit_event (EvPrint sentStream (Hash sent)) w in
  emit_event (if j then EvPrint Stderr ("soroauth: submitted " +:+ Hash sent +:+ " (" +:+ Status sent +:+ "), polling" +:+ newline)
              else EvPrint Stdout ("hash: " +:+ Hash sent +:+ newline)) w.

(** The kept hash, among the events since [before]. *)
Definition sentHash (before after : World) : string :=
  default "" (last (omap (λ e, match e with
                               | EvPrint s h => if String.eqb s sentStream then Some h else None
                               | _ => None
                               end) (drop (length (log before)) (log after)))).

Definition submitParams (plan : submission) (j : bool) : SubmitParams :=
  let r := plan_request plan in
  mkSubmitParams (Some (Request_Source r)) (Request_Operation r) (Request_Entries r) [full_Keypair (plan_key plan)]
    (plan_passphrase plan) (Some (rpcclient_NewClient (plan_endpoint plan))) (Request_BaseFee r) 0 (Some (announce j)).

(** The source ends the text with the hash in brackets, after a space. *)
Definition submitError (hash : string) (e : error) : error :=
  newErrorf ExitGeneralError
    (if String.eqb hash "" then e
     else EWrap2 "" e (EText ("the rpc had already accepted " +:+ hash +:+ "; look that hash up before resubmitting"))).

Definition failureText (sub : Submission) : string :=
  "the transaction " +:+ Hash sub +:+ " reached ledger " +:+ FormatUint (Ledger sub) +:+ " with status " +:+ Status sub +:+
  (if String.eqb (RawError sub) "" then " and no result XDR" else "; the host returned " +:+ RawError sub).

Definition writeFailure (sub : Submission) : IO unit :=
  _ ← (if String.eqb (RawError sub) "" then mret tt else Fprint Stdout ("result_xdr: " +:+ RawError sub +:+ newline));
  Fprint Stdout (String.concat "" (map (λ e, "diagnostic_event: " +:+ e +:+ newline) (Diagnostics sub))).

Definition printStatus (sub : Submission) : IO unit :=
  Fprint Stdout ("status: " +:+ Status sub +:+ newline +:+
                 "ledger: " +:+ FormatUint (Ledger sub) +:+ newline +:+
                 "arm:    " +:+ Submission_Arm sub +:+ newline).

Definition reportOf (sub : Submission) (text : string) : submitOutput :=
  mkSubmitOutput (Hash sub) (Status sub) (Ledger sub) (Submission_Arm sub) (RawError sub) (Diagnostics sub) text.

Definition reportSubmission (j : bool) (hash : string) (sub : Submission) : IO unit :=
  if String.eqb (Status sub) TransactionStatusSuccess then
    if j then Fprint Stdout (json_EncodeSubmit (reportOf sub "") +:+ newline)
    else
      _ ← (if String.eqb hash "" then Fprint Stdout ("hash: " +:+ Hash sub +:+ newline) else mret tt);
      printStatus sub
  else
    let text := failureText sub in
    if j then
      _ ← Fprint Stdout (json_EncodeSubmit (reportOf sub text) +:+ newline);
      lift (Err (ETyped jsonErrorHandled (EText text)))
    else
      _ ← printStatus sub;
      _ ← writeFailure sub;
      lift (Err (newErrorf ExitGeneralError (EText text))).

Definition runSubmit (flags : submitFlags) (getenv : string → string) (stdin : reader) : IO unit :=
  plan ← submitPlan flags getenv stdin;
  let j := submit_json flags in
  ctx ← withTimeout (submit_timeout flags);
  before ← getWorld;
  r ← try_ (Submit ctx (submitParams plan j));
  after ← getWorld;
  let hash := sentHash before after in
  match r with
  | Err e => writeJSONError j (submitError hash e)
  | Ok sub => reportSubmission j hash sub
  end.
End submit.

(** ** What is submitted *)
Section submit_theorems.
Context `{SDK} `{EnvelopeSDK} `{NetURL} `{CustodyLib} `{CliLib} `{RemoteJSON} `{ExecLib} `{ReportLib} `{ToolLib}
  `{TxnBuild} `{!SubmitLib}.

Lemma onlyInvoke_found i index ops k :
  onlyInvoke i (Some index) ops = Ok k ↔
  k = Some index ∧ Forall (λ op, ∃ t rest, Envelope.Body op = OperationOther t rest) ops.
Proof.
  revert i. induction ops as [|op ops IH]; intros i; cbn; [naive_solver|].
  rewrite Forall_cons. destruct (Envelope.Body op) as [o|t rest]; [|rewrite IH; naive_solver].
  split; [done|]. intros (_ & (t & rest & E) & _). discriminate E.
Qed.

Lemma onlyInvoke_none i ops k :
  onlyInvoke i None ops = Ok (Some k) →
  ∃ pre op post, ops = pre ++ op :: post ∧ k = i + length pre ∧
    (∃ o, Envelope.Body op = OperationInvokeHostFunction o) ∧
    Forall (λ op, ∃ t rest, Envelope.Body op = OperationOther t rest) (pre ++ post).
Proof.
  revert i. induction ops as [|op ops IH]; intros i; cbn; [done|].
  destruct (Envelope.Body op) as [o|t rest] eqn:Hb.
  - intros [[= ->] Hall]%onlyInvoke_found. exists [], op, ops. cbn. split; [done|]. split; [lia|]. eauto.
  - intros (pre & op' & post & -> & -> & Ho & Hall)%IH. exists (op :: pre), op', post. cbn.
    split; [done|]. split; [lia|]. split; [done|]. constructor; [eauto|done].
Qed.

(** The request is the one call of a transaction envelope, and its entries are
    all the entries the envelope has; the transaction's other operations are
    not in it. *)
Theorem submitInputs_spec envelope r :
  submitInputs envelope = Ok r →
  ∃ arm source invoke index, envelope = EnvelopeTypeTx (Some arm) ∧
    only_invoke (Operations (Tx arm)) index source invoke ∧
    Request_Entries r = Auth invoke ∧ Invoke_Auth (Request_Operation r) = Auth invoke ∧
    SequenceNumber (Request_Source r) = Ok (Tx_SeqNum (Tx arm)) ∧
    EnvelopeEntries envelope = Ok (imap_from (mkEnvelopeEntry index) 0 (Request_Entries r)).
Proof.
  unfold submitInputs. intros Hs. destruct envelope as [[arm|]|v0|fb|t]; try discriminate Hs. inv_ok. subst x.
  match goal with E : onlyInvoke _ _ _ = Ok _ |- _ => apply onlyInvoke_none in E as (pre & op & post & Hops & -> & [o Ho] & Hall) end.
  rewrite Hops, lookup_app_r, Nat.add_0_l, Nat.sub_diag in Hs by lia. cbn [lookup list_lookup] in Hs. rewrite Ho in Hs.
  destruct o as [invoke|]; [|discriminate Hs]. injection Hs as <-. destruct op as [source body]. cbn in Ho. subst body.
  exists arm, source, invoke, (length pre).
  assert (Honly : only_invoke (Operations (Tx arm)) (length pre) source invoke) by (exists pre, post; done).
  do 5 (split; [done|]). cbn [Request_Entries].
  pose proof (EnvelopeEntries_attached (EnvelopeTypeTx (Some arm)) (Tx arm) (length pre) source invoke (Auth invoke) eq_refl Honly) as He.
  cbv zeta in He. rewrite <-He. f_equal. destruct arm as [[rest ops] sigs]. cbn in Hops |- *. do 2 f_equal. subst ops.
  by rewrite list_insert_id; [|rewrite lookup_app_r, Nat.sub_diag by lia; destruct invoke].
Qed.

(** ** Before the submission *)
(** What the [--network] flag names without the RPC. *)
Definition named_network (network : string) (r : result string) : Prop :=
  (network = "" ∧ ∃ e, r = Err e) ∨ (network = "testnet" ∧ r = Ok TestNetworkPassphrase) ∨
  (network = "futurenet" ∧ r = Ok FutureNetworkPassphrase) ∨
  (network = "public" ∧ r = Ok PublicNetworkPassphrase) ∨
  ((network ∉ [""; "testnet"; "futurenet"; "public"; "rpc"]) ∧ r = Ok network).

(** The passphrase of a network, and what finding it out leaves in the log: only
    [rpc] asks the endpoint, which must answer, and shows the answer. *)
Inductive network_asked (network endpoint : string) : result string → list Event → Prop :=
| asked_nothing r : network ≠ "rpc" → named_network network r → network_asked network endpoint r []
| asked_failed e : network = "rpc" → network_asked network endpoint (Err e) [EvRPC "getNetwork" endpoint]
| asked_answer passphrase :
    network = "rpc" → passphrase ≠ "" →
    network_asked network endpoint (Ok passphrase)
      [EvRPC "getNetwork" endpoint;
       EvPrint Stderr ("soroauth: resolved network passphrase from " +:+ endpoint +:+ ": " +:+ passphrase +:+ newline)].

Definition quiet_getter (GetNetwork : networkGetter) : Prop :=
  ∀ url ctx w, log (GetNetwork url ctx w).2 = log w.

Lemma logs_fetchNetwork GetNetwork ctx url P :
  quiet_getter GetNetwork →
  (∀ r, (∀ p, r = Ok p → p ≠ "") → P r [EvRPC "getNetwork" url]) →
  logs (rpc_fetchNetworkPassphrase GetNetwork ctx url) P.
Proof.
  intros Hq HP. apply logs_bind, logs_perform. cbn [app]. apply logs_bind, logs_wrap, logs_quiet.
  intros w. specialize (Hq url ctx w). destruct (GetNetwork url ctx w) as [r w'] eqn:Hg. exists r, w'.
  split; [done|]. split; [exact Hq|]. destruct r as [p|e]; cbn [wrap app]; [|by apply HP].
  apply logs_bind, logs_lift. unfold refuse. destruct (String.eqb_spec p "") as [|Hne]; [by apply HP|].
  apply logs_ret, HP. by intros ? [= <-].
Qed.

Lemma logs_resolve GetNetwork network endpoint getenv :
  quiet_getter GetNetwork → endpoint ≠ "" →
  logs (cli_resolveNetwork Background network endpoint getenv (rpc_fetchNetworkPassphrase GetNetwork))
    (network_asked network endpoint).
Proof.
  intros Hq He. unfold cli_resolveNetwork.
  assert (Hno : ∀ r, network ≠ "rpc" → named_network network r →
    logs (lift r) (network_asked network endpoint)) by (intros; by apply logs_lift, asked_nothing).
  destruct (String.eqb_spec network "") as [->|E0]; [apply Hno; [done|by left; eauto]|].
  destruct (String.eqb_spec network "testnet") as [->|E1]; [apply (Hno (Ok _)); [done|unfold named_network; auto 12]|].
  destruct (String.eqb_spec network "futurenet") as [->|E2]; [apply (Hno (Ok _)); [done|unfold named_network; auto 12]|].
  destruct (String.eqb_spec network "public") as [->|E3]; [apply (Hno (Ok _)); [done|unfold named_network; auto 12]|].
  destruct (String.eqb_spec network "rpc") as [->|E4]; cycle 1.
  { apply (Hno (Ok _)); [done|]. do 4 right. split; [|done]. rewrite !not_elem_of_cons.
    by repeat split; [..|apply not_elem_of_nil]. }
  apply String.eqb_neq in He. rewrite !He. unfold refuse at 1. cbv iota. cbn [refuse]. apply logs_bind, logs_lift.
  apply logs_bind, logs_try, logs_fetchNetwork; [done|]. intros [p|e] Hp; cbn [app].
  - apply logs_bind, logs_perform, logs_ret. cbn. apply asked_answer; auto.
  - apply logs_lift. by apply asked_failed.
Qed.

Definition printed_event (e : Event) : Prop := ∃ stream text, e = EvPrint stream text.

Lemma logs_orJSON {A} j (m : IO A) P :
  logs m (λ r l, match r with
                 | Ok a => P (Ok a) l
                 | Err _ => ∀ e tail, Forall printed_event tail → P (Err e) (l ++ tail)
                 end) →
  logs (orJSON j m) P.
Proof.
  intros Hm. apply logs_bind, logs_try. eapply logs_weaken; [exact Hm|]. intros [a|e] l Hl; cbn.
  { apply logs_ret. by rewrite app_nil_r. }
  unfold writeJSONError. destruct j.
  - apply logs_bind, logs_perform, logs_lift. apply Hl. repeat constructor. by eexists _, _.
  - apply logs_lift. by apply Hl.
Qed.

(** The nodes of an entry that a submission wants signed: every one but the top
    one of a delegates entry. *)
Definition required (e : SorobanAuthorizationEntry) : list FlatNode :=
  if is_delegates e then tail (flatNodes e) else flatNodes e.

Definition all_signed (entries : list SorobanAuthorizationEntry) (passphrase : string) : Prop :=
  ∀ e r n id, e ∈ entries → verifyEntry e passphrase = Ok r → n ∈ required e →
    flat_address n = ScAddressTypeAccount id → isSigned (flat_sig n) = true.

(** The text of an address is never empty. *)
Definition addresses_have_text : Prop :=
  (∀ v k, strkey_Encode v k ≠ Ok "") ∧ (∀ id, AccountId_GetAddress id ≠ Ok "").

Lemma FormatAddress_text a : addresses_have_text → FormatAddress a ≠ Ok "".
Proof.
  intros [Hs Ha]. destruct a as [[id|]|[k|]|?|?|?|?]; cbn; try done;
    intros Hf%wrap_Ok; [by apply (Ha id)|by apply (Hs VersionByteContract k)].
Qed.

Lemma logs_unsignedRefusal entries pass P :
  (∀ address, P (Ok address) []) → logs (unsignedRefusal entries pass) P.
Proof.
  intros HP. induction entries as [|e entries IH]; cbn [unsignedRefusal]; [by apply logs_ret|].
  apply logs_bind, logs_try, logs_quiet. intros w. exists (verifyEntry e pass), (tick w).
  split; [done|]. split; [done|]. cbn [app].
  destruct (verifyEntry e pass) as [r|err]; [|exact IH].
  destruct (firstUnsigned _); [by apply logs_ret|exact IH].
Qed.

Lemma unsignedRefusal_signed `{!SDKLaws} entries pass w w' :
  addresses_have_text → unsignedRefusal entries pass w = (Ok "", w') → all_signed entries pass.
Proof.
  intros Htext Hu e r n id He Hr Hn Hid.
  destruct (unsignedRefusal_spec entries pass w) as (address & w2 & Hrun & Hcase).
  rewrite Hrun in Hu. injection Hu as -> _.
  assert (Hsrc : is_source e = false).
  { destruct (is_source e) eqn:Hs; [|done]. unfold required, flatNodes in Hn. unfold is_source in Hs.
    apply Z.eqb_eq in Hs. rewrite addressCredentials_source in Hn by done.
    destruct (is_delegates e); by apply not_elem_of_nil in Hn. }
  assert (Hnodes : ∀ e r, is_source e = false → verifyEntry e pass = Ok r → ∃ payload,
    Forall2 (λ n v, FormatAddress (flat_address n) = Ok (Verdict_Address v) ∧ Verdict v = node_verdict n payload)
      (required e) (requiredNodes r)).
  { intros e0 r0 Hsrc0 Hr0. apply verifyEntry_Ok in Hr0 as (a & payload & Ha & _ & _ & _ & _ & Ht & Hf); [|done].
    exists payload. unfold required, requiredNodes, is_delegates. rewrite Ht.
    apply addressCredentials_Ok in Ha. destruct Ha as [[-> _]|[[-> _]|[-> _]]]; cbn; [done|done|].
    by destruct Hf. }
  destruct Hcase as [Hall|(e' & r' & v & He' & Hr' & Hv & _ & Hempty)].
  - destruct (Hnodes e r Hsrc Hr) as (payload & Hf). apply list_elem_of_lookup in Hn as [i Hi].
    destruct (Forall2_lookup_l _ _ _ _ _ Hf Hi) as (v & Hvi & _ & Hd).
    specialize (Hall e r He Hr). rewrite Forall_lookup in Hall. specialize (Hall i v Hvi).
    rewrite Hd in Hall. unfold node_verdict in Hall. rewrite Hid in Hall.
    by destruct (isSigned (flat_sig n)).
  - exfalso. assert (Hsrc' : is_source e' = false).
    { destruct (is_source e') eqn:Hs; [|done]. unfold verifyEntry, is_source in *. rewrite Hs in Hr'.
      injection Hr' as <-. by apply not_elem_of_nil in Hv. }
    destruct (Hnodes e' r' Hsrc' Hr') as (payload & Hf). apply list_elem_of_lookup in Hv as [i Hi].
    destruct (Forall2_lookup_r _ _ _ _ _ Hf Hi) as (m & _ & Hm & _). rewrite <-Hempty in Hm.
    by apply FormatAddress_text in Hm.
Qed.

(** *** The checks of a submission, and what it is asked with *)
Definition checked (flags : submitFlags) (getenv : string → string) (stdin : reader) (passphrase : string)
    (p : SubmitParams) : Prop :=
  submit_entry flags ≠ "" ∧ submit_secretEnv flags ≠ "" ∧
  (∃ key, resolveSeedKeypair getenv (submit_secretEnv flags) = Ok key ∧ Submit_EnvelopeSigners p = [full_Keypair key]) ∧
  Submit_NetworkPassphrase p = passphrase ∧
  Submit_Client p = Some (rpcclient_NewClient (resolveRPCURL (submit_rpcURL flags) getenv)) ∧
  (∃ value arm source invoke index account,
     readEntryFlagFrom (submit_entry flags) (readAll stdin) = Ok value ∧
     DecodeTransactionEnvelope decode_EnvelopeWithOptions value [] = Ok (EnvelopeTypeTx (Some arm)) ∧
     only_invoke (Operations (Tx arm)) index source invoke ∧
     Submit_Entries p = Auth invoke ∧ Invoke_Auth (Submit_Operation p) = Auth invoke ∧
     Submit_Source p = Some account ∧ SequenceNumber account = Ok (Tx_SeqNum (Tx arm))) ∧
  (submit_allowUnsigned flags = true ∨ all_signed (Submit_Entries p) passphrase).

Lemma submitPlan_checked `{!SDKLaws} GetNetwork flags getenv stdin w plan w' :
  addresses_have_text → submitPlan GetNetwork flags getenv stdin w = (Ok plan, w') →
  checked flags getenv stdin (plan_passphrase plan) (submitParams plan (submit_json flags)).
Proof.
  intros Htext. unfold submitPlan. intros Hp.
  repeat (progress inv_io || match goal with E : orJSON _ _ _ = (Ok _, _) |- _ => apply orJSON_Ok in E end).
  inv_ok. unfold readEnvelopeFlag in *.
  match goal with E : match DecodeTransactionEnvelope ?f ?v ?o with _ => _ end = Ok _ |- _ =>
    destruct (DecodeTransactionEnvelope f v o) as [envelope|] eqn:Hdec; [injection E as ->|discriminate E] end.
  repeat match goal with E : asUsage ?r = Ok _ |- _ => unfold asUsage in E; destruct r eqn:?; [injection E as ->|discriminate E] end.
  match goal with E : submitInputs _ = Ok _ |- _ => apply submitInputs_spec in E as (arm & source & invoke & index & -> & Ho & He & Hi & Hq & _) end.
  repeat match goal with E : String.eqb _ "" = false |- _ => apply String.eqb_neq in E end.
  unfold checked. cbn. split; [done|]. split; [done|]. split; [eauto|]. split; [done|]. split; [done|].
  split; [do 6 eexists; eauto 10|].
  destruct (submit_allowUnsigned flags); [by left|right]. inv_io.
  match goal with E : orJSON _ _ _ = (Ok _, _) |- _ => apply orJSON_Ok in E end. inv_io. inv_ok.
  match goal with E : negb (String.eqb ?a "") = false |- _ => apply negb_false_iff, String.eqb_eq in E; subst a end.
  by eapply unsignedRefusal_signed.
Qed.

Lemma logs_submitPlan GetNetwork flags getenv stdin :
  quiet_getter GetNetwork →
  let endpoint := resolveRPCURL (submit_rpcURL flags) getenv in
  logs (submitPlan GetNetwork flags getenv stdin) (λ r l,
    match r with
    | Ok plan => network_asked (submit_network flags) endpoint (Ok (plan_passphrase plan)) l
    | Err _ => ∃ asked tail, l = asked ++ tail ∧ Forall printed_event tail ∧
        (asked = [] ∨ ∃ answer, network_asked (submit_network flags) endpoint answer asked)
    end).
Proof.
  intros Hq endpoint. unfold submitPlan. fold endpoint.
  apply logs_bind, logs_orJSON, logs_lift.
  match goal with |- context [mbind ?k ?m] => destruct (mbind k m) as [[]|e0] end; cycle 1.
  { intros e tail Ht. exists [], tail. auto. }
  apply logs_bind, logs_orJSON, logs_lift. unfold refuse at 1.
  destruct (String.eqb_spec endpoint "") as [|Hne]; [intros err tail Ht; exists [], tail; auto|]. cbn [app].
  apply logs_bind, logs_orJSON. eapply logs_weaken; [by apply logs_resolve|].
  intros [passphrase|e1] l Hl; cycle 1.
  { intros e tail Ht. exists l, tail. eauto. }
  assert (Hlate : ∀ {A} (r : result A) k, (∀ a, r = Ok a → logs (k a) (λ r' l', match r' with
        | Ok plan => network_asked (submit_network flags) endpoint (Ok (plan_passphrase plan)) (l ++ l')
        | Err _ => ∃ asked tail, l ++ l' = asked ++ tail ∧ Forall printed_event tail ∧
            (asked = [] ∨ ∃ answer, network_asked (submit_network flags) endpoint answer asked)
        end)) →
      logs (x ← orJSON (submit_json flags) (lift r); k x) (λ (r' : result submission) l', match r' with
        | Ok plan => network_asked (submit_network flags) endpoint (Ok (plan_passphrase plan)) (l ++ l')
        | Err _ => ∃ asked tail, l ++ l' = asked ++ tail ∧ Forall printed_event tail ∧
            (asked = [] ∨ ∃ answer, network_asked (submit_network flags) endpoint answer asked)
        end)).
  { intros A r k Hk. apply logs_bind, logs_orJSON, logs_lift. destruct r as [a|e]; [by apply Hk|].
    intros e' tail Ht. exists l, tail. eauto. }
  apply Hlate. intros key _. apply Hlate. intros value _. apply Hlate. intros envelope _.
  apply Hlate. intros request _. apply logs_bind. destruct (submit_allowUnsigned flags).
  { apply logs_ret, logs_ret. by rewrite !app_nil_r. }
  apply logs_bind, logs_unsignedRefusal. intros address. cbn [app]. apply logs_orJSON, logs_lift.
  unfold refuse. destruct (negb _); cbn [app].
  - intros e tail Ht. exists l, tail. eauto.
  - apply logs_ret. by rewrite app_nil_r.
Qed.

(** ** The announcement *)
Definition announcement (j : bool) (h s : string) : list Event :=
  [EvPrint sentStream h;
   if j then EvPrint Stderr ("soroauth: submitted " +:+ h +:+ " (" +:+ s +:+ "), polling" +:+ newline)
   else EvPrint Stdout ("hash: " +:+ h +:+ newline)].

Lemma log_announce j sub w : log (announce j sub w) = log w ++ announcement j (Hash sub) (Status sub).
Proof. unfold announce, emit_event. simpl. by rewrite <-app_assoc. Qed.

(** A submission's events, in order: at most a simulation and a send, and then,
    if the RPC accepted, the announcement, before any poll. *)
Inductive submission_events (j : bool) (r : result Submission) : list Event → Prop :=
| events_refused l :
    is_ok r = false → (l = [] ∨ ∃ a, l = [simulated a] ∨ ∃ t, l = [simulated a; EvRPC "sendTransaction" t]) →
    submission_events j r l
| events_sent a t h s rest :
    (rest = [] ∨ rest = [EvRPC "getTransaction" h]) → (∀ sub, r = Ok sub → Hash sub = h) →
    submission_events j r (simulated a :: EvRPC "sendTransaction" t :: announcement j h s ++ rest).

Lemma send_announces ctx client tx j w r w' :
  quiet_client client → send ctx client tx (Some (announce j)) w = (r, w') →
  ∃ l, log w' = log w ++ l ∧
    (is_ok r = false ∧ (l = [] ∨ ∃ t, l = [EvRPC "sendTransaction" t]) ∨
     ∃ t h s rest, l = EvRPC "sendTransaction" t :: announcement j h s ++ rest ∧
       (rest = [] ∨ rest = [EvRPC "getTransaction" h]) ∧ ∀ sub, r = Ok sub → Hash sub = h).
Proof.
  intros Hq. unfold send. unfold mbind at 1, IO_bind at 1, lift at 1.
  destruct (Txn_Base64 tx) as [text|e]; cbn [wrap].
  2:{ intros [= <- <-]. exists []. rewrite app_nil_r. split; [done|]. left. split; [done|by left]. }
  intros Hs. unfold mbind at 1, IO_bind at 1, io_wrap at 1, call_Send in Hs.
  unfold mbind at 1, IO_bind at 1, perform at 1 in Hs.
  pose proof (quiet_send client Hq ctx text (emit_event (EvRPC "sendTransaction" text) w)) as Hl.
  destruct (SendTransaction client ctx text _) as [[sent|e] w1]; cbn [wrap snd] in Hs, Hl.
  2:{ injection Hs as <- <-. exists [EvRPC "sendTransaction" text]. rewrite Hl. split; [done|]. left. split; [done|right; by exists text]. }
  unfold mbind at 1, IO_bind at 1 in Hs.
  match type of Hs with context [announce j ?sub w1] => pose proof (log_announce j sub w1) as Hl2;
    set (w2 := announce j sub w1) in Hs, Hl2 end.
  clearbody w2. cbn [Hash Status] in Hl2. rewrite Hl in Hl2. cbn [log emit_event] in Hl2. rewrite <-app_assoc in Hl2. cbn [app] in Hl2.
  destruct (String.eqb (Sent_Status sent) TXStatusError).
  { injection Hs as <- <-. eexists. split; [exact Hl2|]. right. exists text, (Sent_Hash sent), (Sent_Status sent), [].
    rewrite app_nil_r. split; [done|]. split; [by left|]. by intros sub [= <-]. }
  unfold mbind at 1, IO_bind at 1, io_wrap at 1, call_Poll in Hs. unfold mbind at 1, IO_bind at 1, perform at 1 in Hs.
  pose proof (quiet_poll client Hq ctx (Sent_Hash sent) (emit_event (EvRPC "getTransaction" (Sent_Hash sent)) w2)) as Hl3.
  destruct (PollTransaction client ctx _ _) as [polled w3]. cbn [snd] in Hl3.
  eexists. split; [|right; exists text, (Sent_Hash sent), (Sent_Status sent), [EvRPC "getTransaction" (Sent_Hash sent)];
    split; [reflexivity|]; split; [by right|]].
  - assert (w' = w3) as ->. { destruct polled; cbn in Hs; [destruct (negb _) in Hs|]; by injection Hs as _ <-. }
    rewrite Hl3. cbn [log emit_event]. rewrite Hl2, <-app_assoc. done.
  - intros sub ->. destruct polled; cbn in Hs; [destruct (negb _) in Hs; by injection Hs as <- _|discriminate Hs].
Qed.

Lemma Submit_announces ctx p j w r w' :
  (∀ client, Submit_Client p = Some client → quiet_client client) → Submit_OnSent p = Some (announce j) →
  Submit ctx p w = (r, w') → ∃ l, log w' = log w ++ l ∧ submission_events j r l.
Proof.
  intros Hq Hc. unfold Submit. unfold mbind at 1, IO_bind at 1.
  assert (Hnone : ∀ e w0, log w0 = log w → ∃ l, log w0 = log w ++ l ∧ submission_events j (Err e) l).
  { intros e w0 ->. exists []. rewrite app_nil_r. split; [done|]. constructor; [done|by left]. }
  destruct (ctx_check ctx _ w) as [[[]|e] w0] eqn:Hctx.
  2:{ apply ctx_check_Err in Hctx as (? & _ & _ & ->). intros [= <- <-]. by apply Hnone. }
  apply ctx_check_Ok in Hctx as [_ ->]. unfold mbind at 1, IO_bind at 1, lift at 1.
  destruct (validateParams _ _ _ _ _) as [[source client]|e] eqn:Hv; [|intros [= <- <-]; by apply Hnone].
  apply validateParams_Ok in Hv as (_ & Hcl & _). specialize (Hq client Hcl).
  unfold mbind at 1, IO_bind at 1, lift at 1.
  destruct (buildTransaction _ _ _) as [enforceTx|e]; cbn [wrap]; [|intros [= <- <-]; by apply Hnone].
  unfold mbind at 1, IO_bind at 1, io_wrap at 1.
  destruct (simulate ctx client enforceTx _ (tick w)) as [sim w2] eqn:Hsim.
  apply simulate_run in Hsim as [(e & _ & -> & Hno)|(text & response & _ & _ & Hl & _)]; [| |done].
  { destruct sim as [|e']; [discriminate Hno|]. intros [= <- <-]. by apply Hnone. }
  set (a := mkSimulateRequest text AuthModeEnforce false) in Hl. cbn [log tick] in Hl.
  assert (Hstop : ∀ e, ∃ l, log w2 = log w ++ l ∧ submission_events j (Err e) l).
  { intros e. exists [simulated a]. split; [done|]. constructor; [done|]. right. exists a. by left. }
  destruct sim as [sim|e]; cbn [wrap]; [|intros [= <- <-]; apply Hstop].
  unfold mbind at 1, IO_bind at 1, lift at 1.
  destruct (assemble source p sim) as [signed|e]; [|intros [= <- <-]; apply Hstop].
  rewrite Hc. intros Hsend. apply send_announces in Hsend as (l & Hl2 & Hcase); [|done].
  exists (simulated a :: l). split; [rewrite Hl2, Hl, <-app_assoc; done|].
  destruct Hcase as [[Hno [->|[t ->]]]|(t & h & s & rest & -> & Hrest & Hh)].
  - constructor; [done|]. right. exists a. by left.
  - constructor; [done|]. right. exists a. right. by exists t.
  - by constructor.
Qed.

(** ** The command *)
Definition prints_only {A} (m : IO A) : Prop :=
  ∀ w, ∃ l, log (m w).2 = log w ++ l ∧ Forall (λ e, ∃ stream text, e = EvPrint stream text) l.

Lemma prints_bind {A B} (m : IO A) (k : A → IO B) : prints_only m → (∀ a, prints_only (k a)) → prints_only (mbind k m).
Proof.
  intros Hm Hk w. destruct (Hm w) as (l & Hl & Hp). unfold mbind, IO_bind. destruct (m w) as [[a|e] w1]; cbn [snd] in *; [|eauto].
  destruct (Hk a w1) as (l' & Hl' & Hp'). exists (l ++ l'). rewrite Hl', Hl, app_assoc. split; [done|]. by apply Forall_app.
Qed.

Lemma prints_Fprint stream text : prints_only (Fprint stream text).
Proof. intros w. exists [EvPrint stream text]. split; [done|]. constructor; [eauto|done]. Qed.

Lemma prints_lift {A} (r : result A) : prints_only (lift r).
Proof. intros w. exists []. by rewrite app_nil_r. Qed.

Lemma prints_ret {A} (a : A) : prints_only (mret a : IO A).
Proof. intros w. exists []. by rewrite app_nil_r. Qed.

Create HintDb prints.
#[local] Hint Resolve prints_Fprint prints_lift prints_ret : prints.
Ltac prints_tac := repeat first
  [ solve [auto with prints] | apply prints_bind; [|intros ?] | progress unfold printStatus, writeFailure | case_match ].

Lemma prints_writeJSONError {A} j e : prints_only (writeJSONError (A:=A) j e).
Proof. unfold writeJSONError. prints_tac. Qed.

Lemma prints_report j hash sub : prints_only (reportSubmission j hash sub).
Proof. unfold reportSubmission. prints_tac. Qed.

Lemma report_Ok j hash sub w :
  is_ok (reportSubmission j hash sub w).1 = true ↔ Status sub = TransactionStatusSuccess.
Proof.
  unfold reportSubmission. destruct (String.eqb_spec (Status sub) TransactionStatusSuccess) as [Hs|Hs].
  - split; [done|]. intros _. destruct j; [done|]. by destruct (String.eqb hash "").
  - split; [|done]. destruct j; [done|]. cbn. unfold writeFailure. by destruct (String.eqb (RawError sub) "").
Qed.

(** C38. Before a submission nothing is asked of the RPC but, under
    [--network rpc], its passphrase, which is asked before the seed, the envelope
    and the signatures are looked at.  A run either refuses there, having only
    printed besides, or submits the one call of the envelope with all its
    entries, under the key of the environment and for that network, every
    account node that has to be signed being signed in each entry that can be
    read, unless [--allow-unsigned] waives it.  The transaction's hash is on
    the screen before the RPC is polled, whatever becomes of the poll;
    afterwards the command only prints; and it exits well exactly when the
    transaction succeeded. *)
Theorem runSubmit_run `{!SDKLaws} GetNetwork flags getenv stdin w r w' :
  (∀ endpoint, quiet_client (rpcclient_NewClient endpoint)) → quiet_getter GetNetwork → addresses_have_text →
  runSubmit GetNetwork flags getenv stdin w = (r, w') →
  let endpoint := resolveRPCURL (submit_rpcURL flags) getenv in
  (∃ e asked tail, r = Err e ∧ log w' = log w ++ asked ++ tail ∧ Forall printed_event tail ∧
     (asked = [] ∨ ∃ answer, network_asked (submit_network flags) endpoint answer asked)) ∨
  ∃ asked passphrase p w1 ctx sent w2 l tail,
    network_asked (submit_network flags) endpoint (Ok passphrase) asked ∧ log w1 = log w ++ asked ∧
    checked flags getenv stdin passphrase p ∧
    Submit ctx p w1 = (sent, w2) ∧
    log w2 = log w1 ++ l ∧ submission_events (submit_json flags) sent l ∧
    log w' = log w2 ++ tail ∧ Forall printed_event tail ∧
    (is_ok r = true ↔ ∃ sub, sent = Ok sub ∧ Status sub = TransactionStatusSuccess) ∧
    (∀ sub, sent = Ok sub → submit_json flags = false →
       EvPrint Stdout ("hash: " +:+ Hash sub +:+ newline) ∈ l).
Proof.
  intros Hq Hg Htext Hr endpoint. unfold runSubmit in Hr. unfold mbind at 1, IO_bind at 1 in Hr.
  destruct (submitPlan GetNetwork flags getenv stdin w) as [plan0 w1] eqn:Hp.
  destruct (logs_run _ _ _ _ _ (logs_submitPlan GetNetwork flags getenv stdin Hg) Hp) as (asked & Hasked & Hnet).
  fold endpoint in Hnet. destruct plan0 as [plan|e]; [right|left]; cycle 1.
  { injection Hr as <- <-. destruct Hnet as (asked' & tail & -> & ? & ?). by exists e, asked', tail. }
  apply submitPlan_checked in Hp; [|done].
  unfold withTimeout, getWorld, try_, mbind, mret, IO_bind, IO_ret in Hr.
  set (ctx := WithTimeout Background (now w1) (submit_timeout flags)) in Hr.
  set (j := submit_json flags) in *.
  destruct (Submit ctx (submitParams plan j) w1) as [sent w2] eqn:Hs.
  pose proof Hs as Hrun. apply (Submit_announces _ _ j) in Hrun as (l & Hl & He); [|by intros client [= <-]|done].
  destruct sent as [sub|e].
  - destruct (prints_report j (sentHash w1 w2) sub w2) as (tail & Ht & Hf). pose proof (report_Ok j (sentHash w1 w2) sub w2) as Hok.
    rewrite Hr in Ht, Hok. exists asked, (plan_passphrase plan), (submitParams plan j), w1, ctx, (Ok sub), w2, l, tail.
    do 8 (split; [done|]). cbn [fst] in Hok. split.
    + rewrite Hok. split; [eauto|]. by intros (sub' & [= <-] & Hst).
    + intros sub' [= <-] Hj. inversion He as [l' Hno _ | a t h s rest _ Hh]; [discriminate Hno|]. rewrite (Hh sub eq_refl), Hj.
      do 3 apply list_elem_of_further. apply list_elem_of_here.
  - destruct (prints_writeJSONError (A:=()) j (submitError (sentHash w1 w2) e) w2) as (tail & Ht & Hf). rewrite Hr in Ht.
    exists asked, (plan_passphrase plan), (submitParams plan j), w1, ctx, (Err e), w2, l, tail.
    do 8 (split; [done|]). split; [|done].
    split; [|by intros (? & [=] & _)]. unfold writeJSONError in Hr. destruct j; [|by injection Hr as <- _]. by injection Hr as <- _.
Qed.
End submit_theorems.

Lemma simulateRows_Ok `{SDK} `{EnvelopeSDK} `{NetURL} `{CustodyLib} `{CliLib} i entries rows :
  imapM_from (λ _, simulateRow) i entries = Ok rows →
  ∃ texts, imapM_from (λ _ e, cli_encodeEntry (Simulated_Entry e)) i entries = Ok texts ∧
    rows = zip_with (λ e text, mkSimulateEntryOutput (Simulated_OperationIndex e) (Simulated_EntryIndex e)
             (Simulated_Arm e) text) entries texts.
Proof.
  revert i rows. induction entries as [|e entries IH]; intros i rows Hr; cbn in Hr.
  - injection Hr as <-. by exists [].
  - inv_ok. apply IH in Hx0 as (texts & Ht & ->). unfold simulateRow in Hx.
    destruct (cli_encodeEntry (Simulated_Entry e)) as [text|] eqn:He; [injection Hx as <-|discriminate Hx].
    exists (text :: texts). cbn. by rewrite He, Ht.
Qed.

(** A simulation that exits well printed what the record pass recorded, an entry
    a line, and nothing else. *)
Theorem runSimulate_prints `{SDK} `{EnvelopeSDK} `{NetURL} `{CustodyLib} `{CliLib} `{RemoteJSON} `{ExecLib} `{ReportLib}
    `{ToolLib} `{TxnBuild} `{!SubmitLib} flags getenv stdin w w' :
  runSimulate flags getenv stdin w = (Ok tt, w') → simulate_json flags = false →
  ∃ value envelope ctx record texts w1 w2,
    readEntryFlagFrom (simulate_entry flags) (readAll stdin) = Ok value ∧
    readEnvelopeFlag value "a transaction envelope" = Ok envelope ∧
    SimulateRecord ctx (mkRecordParams (Some (rpcclient_NewClient (resolveRPCURL (simulate_rpcURL flags) getenv))) value
      (simulate_upgraded flags)) w1 = (Ok record, w2) ∧
    rmapM (λ e, cli_encodeEntry (Simulated_Entry e)) (Record_Entries record) = Ok texts ∧
    log w' = log w2 ++ [EvPrint Stdout (String.concat "" (map (λ l, l +:+ newline) (simulateLines
      (mkSimulateOutput (zip_with (λ e text, mkSimulateEntryOutput (Simulated_OperationIndex e) (Simulated_EntryIndex e)
                           (Simulated_Arm e) text) (Record_Entries record) texts)
         (Record_MinResourceFee record) (Record_TransactionDataXDR record) (Record_LatestLedger record)
         (Record_EnvelopeXDR record)))))].
Proof.
  unfold runSimulate. intros Hr Hj. rewrite Hj in Hr.
  repeat (progress inv_io || match goal with E : orJSON _ _ _ = (Ok _, _) |- _ => apply orJSON_Ok in E end).
  match goal with E : withTimeout _ _ = _ |- _ =>
    unfold withTimeout, getWorld, mbind, IO_bind, mret, IO_ret in E; injection E as <- <- end.
  match goal with E : asUsage ?r = Ok _ |- _ => unfold asUsage in E; destruct r eqn:?; [injection E as ->|discriminate E] end.
  match goal with E : match ?x with Ok _ => _ | Err _ => _ end = Ok _ |- _ => destruct x; [injection E as ->|discriminate E] end.
  match goal with E : rmapM simulateRow _ = Ok _ |- _ => apply simulateRows_Ok in E as (texts & Htexts & ->) end.
  do 7 eexists. split; [done|]. split; [eassumption|]. split; [eassumption|]. split; [exact Htexts|].
  unfold Fprint in Hr. inv_io. done.
Qed.

(** ** The commands at work *)
#[export] Instance ModelSubmitLib : SubmitLib := {|
  rpcclient_NewClient _ := ex_rpc;
  full_Keypair kp := bytes_of_string (kp_Address kp);
  Tx_SourceAccount _ := ex_text "a";
  Tx_SeqNum _ := 42%Z;
  Tx_Fee _ := 300%Z;
  Tx_Ext _ := None;
  Op_SourceAccount _ := None;
  NewHostFunction host _ := host;
  json_EncodeSimulate out := simulate_Envelope out;
  json_EncodeSubmit out := submit_Hash out
|}.

Definition ex_call (entries : list SorobanAuthorizationEntry) : Operation :=
  mkOperation [] (OperationInvokeHostFunction (Some (mkInvokeHostFunctionOp [x07] entries))).
Definition ex_tx (ops : list Operation) : TransactionEnvelope :=
  EnvelopeTypeTx (Some (mkTransactionArm (mkTransaction [x02] ops) [])).
Definition ex_submit_flags (allow : bool) (j : bool) : submitFlags :=
  mkSubmitFlags "-" "testnet" "SOROAUTH_SEED" "http://rpc" allow defaultSubmitTimeout j.
(** The networks of the endpoints. *)
Definition ex_network_of : networkGetter := λ _ _, mret ex_network.
Definition ex_envelope_in (envelope : TransactionEnvelope) : reader := ex_stdin [ex_rpc_text envelope; ""].
Definition ex_submitted (allow j : bool) (envelope : TransactionEnvelope) : result unit * World :=
  runSubmit ex_network_of (ex_submit_flags allow j) ex_getenv (ex_envelope_in envelope) initial_world.

(** An unsigned entry is refused before anything is asked; with the flag, or
    signed, the transaction is priced, sent, announced and polled, in order. *)
Example ex_submits :
  (ex_submitted false false (ex_tx [ex_call [ex_v2 "a" 1000 ScvVoid]])).1 = Err (submit_unsignedEntry (ex_text "a")) ∧
  log (ex_submitted false false (ex_tx [ex_call [ex_v2 "a" 1000 ScvVoid]])).2 = [] ∧
  (let '(r, w) := ex_submitted true false (ex_tx [ex_call [ex_v2 "a" 1000 ScvVoid]]) in (r, map (λ e, match e with
     | EvRPC m _ => m | EvPrint s text => s +:+ "|" +:+ text | _ => "" end) (log w))) =
    (Ok tt, ["simulateTransaction"; "sendTransaction"; sentStream +:+ "|hash"; Stdout +:+ "|hash: hash" +:+ newline;
             "getTransaction"; Stdout +:+ "|status: SUCCESS" +:+ newline +:+ "ledger: 1002" +:+ newline +:+
             "arm:    address_v2" +:+ newline]).
Proof. vm_compute. by split_and!. Qed.

(** The operations beside the call are left behind, and with them whatever the
    envelope says of its own validity; a fee bump is refused. *)
Example ex_submit_drops :
  Request_Entries <$> submitInputs (ex_tx [mkOperation [] (OperationOther 1 [x2a]); ex_call [ex_source]]) = Ok [ex_source] ∧
  Request_Operation <$> submitInputs (ex_tx [mkOperation [] (OperationOther 1 [x2a]); ex_call [ex_source]]) =
    Request_Operation <$> submitInputs (ex_tx [ex_call [ex_source]]) ∧
  is_ok (submitInputs (ex_tx [ex_call []; ex_call []])) = false ∧ is_ok (submitInputs ex_envelope) = false.
Proof. vm_compute. by split_and!. Qed.

Lemma submitInputs_spec_witness : ∃ arm source invoke index r,
  submitInputs ex_record_envelope = Ok r ∧ ex_record_envelope = EnvelopeTypeTx (Some arm) ∧
  only_invoke (Operations (Tx arm)) index source invoke ∧ Request_Entries r = Auth invoke.
Proof.
  destruct (submitInputs ex_record_envelope) as [r|] eqn:Hr; [|vm_compute in Hr; discriminate Hr].
  destruct (submitInputs_spec _ _ Hr) as (arm & source & invoke & index & He & Ho & Hq & _).
  exists arm, source, invoke, index, r. split_and!; done.
Defined.

Lemma ex_addresses_text : addresses_have_text.
Proof.
  split; [intros v k; destruct v|intros [t [k|]]]; cbn; try discriminate;
    unfold model_GetAddress; cbn; repeat case_match; discriminate.
Qed.

Lemma runSubmit_run_witness :
  let '(r, w') := ex_submitted false false (ex_tx [ex_call [ex_source]]) in
  (∃ e asked tail, r = Err e ∧ log w' = log initial_world ++ asked ++ tail ∧ Forall printed_event tail ∧
     (asked = [] ∨ ∃ answer, network_asked "testnet" "http://rpc" answer asked)) ∨
  ∃ asked passphrase p w1 ctx sent w2 l tail,
    network_asked "testnet" "http://rpc" (Ok passphrase) asked ∧ log w1 = log initial_world ++ asked ∧
    checked (ex_submit_flags false false) ex_getenv (ex_envelope_in (ex_tx [ex_call [ex_source]])) passphrase p ∧
    Submit ctx p w1 = (sent, w2) ∧
    log w2 = log w1 ++ l ∧ submission_events false sent l ∧
    log w' = log w2 ++ tail ∧ Forall printed_event tail ∧
    (is_ok r = true ↔ ∃ sub, sent = Ok sub ∧ Status sub = TransactionStatusSuccess) ∧
    (∀ sub, sent = Ok sub → false = false → EvPrint Stdout ("hash: " +:+ Hash sub +:+ newline) ∈ l).
Proof.
  destruct (ex_submitted false false (ex_tx [ex_call [ex_source]])) as [r w'] eqn:Hr.
  exact (runSubmit_run ex_network_of (ex_submit_flags false false) ex_getenv
    (ex_envelope_in (ex_tx [ex_call [ex_source]])) initial_world r w'
    (λ _, ex_rpc_quiet) (λ _ _ _, eq_refl) ex_addresses_text Hr).
Defined.

(** simulate | sign | submit *)
Definition ex_simulate_flags (j : bool) : simulateFlags :=
  mkSimulateFlags "-" "http://rpc" true defaultSimulateTimeout j.
Definition ex_simulated : result unit * list string :=
  ex_out (runSimulate (ex_simulate_flags true) ex_getenv (ex_envelope_in ex_record_envelope)).

Lemma runSimulate_prints_witness : ∃ value record w1 w2 ctx,
  readEntryFlagFrom "-" (readAll (ex_envelope_in ex_record_envelope)) = Ok value ∧
  SimulateRecord ctx (mkRecordParams (Some ex_rpc) value true) w1 = (Ok record, w2).
Proof.
  assert (Hr : ∃ w', runSimulate (ex_simulate_flags false) ex_getenv (ex_envelope_in ex_record_envelope) initial_world =
    (Ok tt, w')) by (eexists; vm_compute; reflexivity). destruct Hr as [w' Hr].
  destruct (runSimulate_prints _ _ _ _ _ Hr eq_refl) as (value & env & ctx & record & texts & w1 & w2 & Hv & _ & Hs & _).
  exists value, record, w1, w2, ctx. split; [exact Hv|exact Hs].
Defined.

(** The envelope simulate prints goes through sign and then submit. *)
Example ex_two_pass :
  let simulated := ex_first ex_simulated in
  let signed := ex_first (ex_out (runSign ex_fetch ex_ledger (ex_flags "-" "") ex_getenv
    (mkReader (bytes_of_string simulated) None))) in
  (ex_simulated.1, exitOf (runSubmit ex_network_of (ex_submit_flags false true) ex_getenv (mkReader (bytes_of_string signed) None)
                             initial_world).1) = (Ok tt, 0%Z).
Proof. vm_compute. done. Qed.
