(* ===== verification/Tui.v ===== *)
(** * Tui: the interactive inspector (tui.go; cmd/soroauth/main.go, runTUI)

    The program is a state machine driven by key messages, with one goroutine
    that signs the entry beside it and writes its result into the shared model.
    [tui_step] interleaves the two: the goroutine's call, its write of the
    result and its write of [done] are steps of their own.  [TUI_session] is the
    invariant of every interleaving; [View_signed] says what may be on the screen
    when a signed entry is.  Away from a terminal the program prints the report
    and the signed entry ([runNonInteractive]).

    bubbletea is the relation itself, lipgloss a function from a style to a
    rendering; both, and the process's environment, are the class [TuiLib]. *)
From Stdlib Require Import ZArith Lia Strings.Byte String Ascii.
From stdpp Require Import base list strings pretty relations.
From S2P Require Import Prelude Encoding Errors Xdr ModelSDK Runtime Examples Address Limits Arm Preimage Signers.
From S2P Require Risk WebAuthn.
From S2P Require Import Nodes Retry Inspect Delegates Authorize Verify Batch Envelope Remote Vault Custody.
From S2P Require Import CliSpec Cli ExecSigner CliCommands CliTools.

Open Scope string_scope. Open Scope nat_scope. Open Scope list_scope.

(** ** The model *)
Record TUIModel := mkTUIModel {
  tui_entry : SorobanAuthorizationEntry;
  tui_info : EntryInfo;
  tui_findings : list Risk.Finding;
  tui_validUntilLedger : Z;
  tui_networkPassphrase : string;
  tui_forAddress : string;
  stage : nat;                         (* 0 inspect, 1 node detail, 2 signing *)
  cursor : Z;
  selectedNode : string;
  width : Z;
  height : Z;
  tui_err : option error;
  quitting : bool;
  tui_done : bool;
  tui_signer : Signer;
  signedEntry : option SorobanAuthorizationEntry
}.

(** The fields an event writes. *)
Definition set_ui (m : TUIModel) (stage : nat) (cursor : Z) (selected : string) (quitting : bool) : TUIModel :=
  mkTUIModel (tui_entry m) (tui_info m) (tui_findings m) (tui_validUntilLedger m) (tui_networkPassphrase m)
    (tui_forAddress m) stage cursor selected (width m) (height m) (tui_err m) quitting (tui_done m) (tui_signer m)
    (signedEntry m).
Definition set_size (m : TUIModel) (w h : Z) : TUIModel :=
  mkTUIModel (tui_entry m) (tui_info m) (tui_findings m) (tui_validUntilLedger m) (tui_networkPassphrase m)
    (tui_forAddress m) (stage m) (cursor m) (selectedNode m) w h (tui_err m) (quitting m) (tui_done m) (tui_signer m)
    (signedEntry m).
Definition set_result (m : TUIModel) (err : option error) (done : bool) (signed : option SorobanAuthorizationEntry)
    : TUIModel :=
  mkTUIModel (tui_entry m) (tui_info m) (tui_findings m) (tui_validUntilLedger m) (tui_networkPassphrase m)
    (tui_forAddress m) (stage m) (cursor m) (selectedNode m) (width m) (height m) err (quitting m) done (tui_signer m)
    signed.

Inductive TUIStyle :=
| StyleBase | StyleHeader | StyleItem | StyleSelectedItem | StyleHelp | StyleSuccess | StyleError.

Class TuiLib := {
  Render : TUIStyle → string → string;
  keypair_ParseFull : string → result ed25519Keypair;
  os_Getenv : string → string;
  isTTY : bool
}.

Inductive Msg := WindowSizeMsg (w h : Z) | KeyMsg (key : string) | OtherMsg.

(** What [Update] asks for: to quit, to start the signing goroutine, nothing. *)
Inductive Cmd := CmdNone | CmdQuit | CmdSpawn.

Section tui.
Context `{SDK} `{EnvelopeSDK} `{NetURL} `{CustodyLib} `{CliLib} `{TuiLib}.

(** ** The items of the list *)
Fixpoint formatDelegate (depth : nat) (d : NodeInfo) : list string :=
  match d with
  | mkNodeInfo address signed _ nested =>
      (spaces (2 * depth) +:+ "[" +:+ (if signed then "✓" else " ") +:+ "] " +:+ address)
      :: concat (map (formatDelegate (S depth)) nested)
  end.
Definition formatDelegates (delegates : list NodeInfo) (depth : nat) : list string :=
  concat (map (formatDelegate depth) delegates).

(** The lines of a report, in the order of both renderings. *)
Definition infoLines (info : EntryInfo) : list string :=
  let when (b : bool) (s : string) := if b then [s] else [] in
  ["Credential Type: " +:+ Info_CredentialType info; "Address Bound: " +:+ bool_text (Info_AddressBound info)] ++
  when (negb (String.eqb (Info_Address info) "")) ("Address: " +:+ Info_Address info) ++
  when (negb (Info_Nonce info =? 0)%Z) ("Nonce: " +:+ FormatInt (Info_Nonce info)) ++
  when (negb (Info_ValidUntilLedger info =? 0)%Z)
    ("Valid Until Ledger: " +:+ FormatUint (Info_ValidUntilLedger info)) ++
  ["Top Level Signed: " +:+ bool_text (Info_TopLevelSigned info)] ++
  when (negb (String.eqb (Info_RootContract info) "")) ("Root Contract: " +:+ Info_RootContract info) ++
  when (negb (String.eqb (Info_RootFunction info) "")) ("Root Function: " +:+ Info_RootFunction info) ++
  ["Sub Invocations: " +:+ pretty (Info_SubInvocations info)].

Definition findingItem (f : Risk.Finding) : string :=
  "[" +:+ Risk.severity_text (Risk.Severity f) +:+ "] " +:+ Risk.Code f +:+ ": " +:+ Risk.Title f.

Definition getInspectItems (m : TUIModel) : list string :=
  infoLines (tui_info m) ++
  match Info_Delegates (tui_info m) with
  | [] => []
  | delegates => "--- Delegates ---" :: formatDelegates delegates 1
  end ++
  "--- Risk Findings ---" ::
  match tui_findings m with [] => ["No findings"] | findings => map findingItem findings end.

(** ** Update *)
Definition moveCursor (m : TUIModel) (delta : Z) : TUIModel :=
  let n := Z.of_nat (length (getInspectItems m)) in
  if (n =? 0)%Z then m
  else
    let c := (cursor m + delta)%Z in
    let c := if (c <? 0)%Z then 0%Z else c in
    let c := if (n <=? c)%Z then (n - 1)%Z else c in
    set_ui m (stage m) c (selectedNode m) (quitting m).

Definition handleEnter (m : TUIModel) : TUIModel :=
  let items := getInspectItems m in
  if Nat.eqb (stage m) 0 && (cursor m <? Z.of_nat (length items))%Z then
    set_ui m 1 (cursor m) (default "" (items !! Z.to_nat (cursor m))) (quitting m)
  else if Nat.eqb (stage m) 1 then set_ui m 0 (cursor m) "" (quitting m)
  else m.

Definition startSigning (m : TUIModel) : TUIModel :=
  set_ui m 2 (cursor m) (selectedNode m) (quitting m).

Definition keyIn (key : string) (keys : list string) : bool := existsb (String.eqb key) keys.

Definition Update (m : TUIModel) (msg : Msg) : TUIModel * Cmd :=
  match msg with
  | WindowSizeMsg w h => (set_size m w h, CmdNone)
  | KeyMsg key =>
      if keyIn key ["ctrl+c"; "q"] then (set_ui m (stage m) (cursor m) (selectedNode m) true, CmdQuit)
      else if keyIn key ["enter"] then (handleEnter m, CmdNone)
      else if keyIn key ["up"; "k"] then (moveCursor m (-1), CmdNone)
      else if keyIn key ["down"; "j"] then (moveCursor m 1, CmdNone)
      else if keyIn key ["s"] && Nat.eqb (stage m) 0 then (startSigning m, CmdSpawn)
      else (m, CmdNone)
  | OtherMsg => (m, CmdNone)
  end.

(** ** View *)
Definition base64Entry (entry : option SorobanAuthorizationEntry) : string :=
  WebAuthn.EncodeToString WebAuthn.StdEncoding
    (match entry with
     | Some e => match MarshalBinary e with Ok b => b | Err _ => [] end
     | None => []
     end).

Definition signedText (m : TUIModel) : string :=
  newline +:+ newline +:+ "Signed entry (base64):" +:+ newline +:+ base64Entry (signedEntry m).

Definition viewInspect (m : TUIModel) : string :=
  Render StyleBase (
    Render StyleHeader "soroauth - Authorization Entry Inspector" +:+ newline +:+ newline +:+
    String.concat "" (imap (λ i item,
      Render (if (Z.of_nat i =? cursor m)%Z then StyleSelectedItem else StyleItem) item +:+ newline) (getInspectItems m)) +:+
    newline +:+ Render StyleHelp "↑/↓: navigate  Enter: detail  s: sign  q: quit").

Definition viewNodeDetail (m : TUIModel) : string :=
  Render StyleBase (Render StyleHeader ("Node Detail: " +:+ selectedNode m) +:+ newline +:+ newline +:+
                    Render StyleHelp "Enter: back  q: quit").

Definition viewSigning (m : TUIModel) : string :=
  Render StyleBase (
    Render StyleHeader "Signing..." +:+ newline +:+ newline +:+
    "Signing entry with key from environment..." +:+ newline +:+ newline +:+
    (if tui_done m then
       match tui_err m with
       | Some e => Render StyleError ("Signing failed: " +:+ Error e)
       | None => Render StyleSuccess "Entry signed successfully!" +:+ signedText m
       end
     else "") +:+
    newline +:+ newline +:+ Render StyleHelp "q: quit").

Definition viewDone (m : TUIModel) : string :=
  Render StyleBase (
    match tui_err m with
    | Some e => Render StyleError ("Error: " +:+ Error e)
    | None => Render StyleSuccess "Done!" +:+ match signedEntry m with Some _ => signedText m | None => "" end
    end +:+ newline +:+ newline +:+ Render StyleHelp "q: quit").

Definition View (m : TUIModel) : string :=
  if quitting m then ""
  else if tui_done m then viewDone m
  else
    match tui_err m with
    | Some e => Render StyleError ("Error: " +:+ Error e) +:+ newline +:+ newline +:+ "Press q to quit"
    | None =>
        match stage m with
        | 0 => viewInspect m
        | 1 => viewNodeDetail m
        | 2 => viewSigning m
        | _ => ""
        end
    end.

(** ** The goroutine *)
Definition signOptions (forAddress : string) : list AuthorizeOption :=
  if String.eqb forAddress "" then [] else [ForAddress forAddress].

Definition signingCall (m : TUIModel) : IO SorobanAuthorizationEntry :=
  AuthorizeEntry Background (tui_entry m) (Some (tui_signer m)) (tui_validUntilLedger m) (tui_networkPassphrase m)
    (signOptions (tui_forAddress m)).

(** Where a signing goroutine stands. *)
Inductive Goroutine := Started | Returned (r : result SorobanAuthorizationEntry) | Written | Ended.

Definition writeResult (m : TUIModel) (r : result SorobanAuthorizationEntry) : TUIModel :=
  match r with
  | Err e => set_result m (Some e) (tui_done m) (signedEntry m)
  | Ok signed => set_result m (tui_err m) (tui_done m) (Some signed)
  end.

Record Program := mkProgram {
  prog_model : TUIModel;
  prog_goroutines : list Goroutine;
  prog_quit : bool;
  prog_world : World
}.

(** One step: a message while the program runs, or a step of a goroutine. *)
Inductive tui_step : Program → Program → Prop :=
| step_message m gs w msg m' cmd :
    Update m msg = (m', cmd) →
    tui_step (mkProgram m gs false w)
      (mkProgram m' (match cmd with CmdSpawn => gs ++ [Started] | _ => gs end)
         (match cmd with CmdQuit => true | _ => false end) w)
| step_call m gs i q w r w' :
    gs !! i = Some Started → signingCall m w = (r, w') →
    tui_step (mkProgram m gs q w) (mkProgram m (<[i := Returned r]> gs) q w')
| step_write m gs i q w r :
    gs !! i = Some (Returned r) →
    tui_step (mkProgram m gs q w) (mkProgram (writeResult m r) (<[i := Written]> gs) q w)
| step_done m gs i q w :
    gs !! i = Some Written →
    tui_step (mkProgram m gs q w)
      (mkProgram (set_result m (tui_err m) true (signedEntry m)) (<[i := Ended]> gs) q w).

(** ** Away from a terminal *)
Definition printDelegates : list NodeInfo → nat → list string := formatDelegates.

Definition printEntryInfo (info : EntryInfo) : IO unit :=
  Fprint Stdout (String.concat "" (map (λ l, l +:+ newline) (infoLines info ++
    match Info_Delegates info with [] => [] | delegates => ["" ; "Delegates:"] ++ printDelegates delegates 1 end))).

Definition severityPrefix (s : Risk.FindingSeverity) : string :=
  match s with Risk.SeverityCritical => "CRITICAL" | Risk.SeverityWarning => "WARNING" | Risk.SeverityInfo => "INFO" end.

Definition printFinding (f : Risk.Finding) : string :=
  "  [" +:+ severityPrefix (Risk.Severity f) +:+ "] " +:+ Risk.Code f +:+ ": " +:+ Risk.Title f +:+ newline +:+
  "      " +:+ Risk.Description f +:+ newline +:+
  "      Rationale: " +:+ Risk.Rationale f +:+ newline.

(** The seed of the environment, as a key pair. *)
Definition seedKeypair (secretEnvVar : string) : result ed25519Keypair :=
  let seed := os_Getenv secretEnvVar in
  _ ← refuse (String.eqb seed "") (EText ("environment variable " +:+ quoted secretEnvVar +:+ " not set"));
  wrap "parsing secret seed" (keypair_ParseFull seed).

Definition runNonInteractive (ctx : Ctx) (entry : SorobanAuthorizationEntry) (info : EntryInfo)
    (findings : list Risk.Finding) (validUntilLedger : Z) (networkPassphrase secretEnvVar forAddress : string) : IO unit :=
  _ ← Fprint Stdout ("=== Authorization Entry Inspection ===" +:+ newline);
  _ ← printEntryInfo info;
  _ ← Fprint Stdout (newline +:+ "=== Risk Findings ===" +:+ newline);
  _ ← Fprint Stdout (match findings with
                     | [] => "  No findings" +:+ newline
                     | _ => String.concat "" (map printFinding findings)
                     end);
  kp ← lift (seedKeypair secretEnvVar);
  signed ← io_wrap "signing entry" (AuthorizeEntry ctx entry (Some (NewEd25519Signer (Some kp))) validUntilLedger
             networkPassphrase (signOptions forAddress));
  signedBytes ← lift (wrap "marshalling signed entry" (MarshalBinary signed));
  _ ← Fprint Stdout (newline +:+ "=== Signed Entry (base64) ===" +:+ newline);
  Fprint Stdout (WebAuthn.EncodeToString WebAuthn.StdEncoding signedBytes +:+ newline).

Definition initialModel (entry : SorobanAuthorizationEntry) (info : EntryInfo) (findings : list Risk.Finding)
    (validUntilLedger : Z) (networkPassphrase forAddress : string) (kp : ed25519Keypair) : TUIModel :=
  mkTUIModel entry info findings validUntilLedger networkPassphrase forAddress 0 0 "" 0 0 None false false
    (NewEd25519Signer (Some kp)) None.

(** The program to run at a terminal, or nothing when it has been done. *)
Definition TUIWithOutput (ctx : Ctx) (entryB64 : string) (validUntilLedger : Z)
    (networkPassphrase secretEnvVar forAddress : string) : IO (option TUIModel) :=
  _ ← ctx_check ctx "soroauth: tui";
  entry ← lift (wrap "decoding entry" (DecodeAuthorizationEntry SafeUnmarshalEntryDepth entryB64 []));
  info ← lift (wrap "inspecting entry" (Inspect entry));
  findings ← lift (wrap "analyzing entry" (Risk.Analyze entry None));
  if negb isTTY then
    _ ← runNonInteractive ctx entry info findings validUntilLedger networkPassphrase secretEnvVar forAddress;
    mret None
  else
    kp ← lift (seedKeypair secretEnvVar);
    mret (Some (initialModel entry info findings validUntilLedger networkPassphrase forAddress kp)).

(** ** The flags, read by hand *)
Record tuiArgs := mkTuiArgs {
  arg_entry : string;
  arg_validUntil : Z;
  arg_network : string;
  arg_rpcURL : string;
  arg_secretEnv : string;
  arg_for : string;
  arg_config : string
}.

(** [fmt.Sscanf(s, "%d", &v)] for an unsigned 32-bit [v]: blanks, then as many
    digits as there are; what follows them is not read. *)
Fixpoint skipBlanks (s : string) : option string :=
  match s with
  | "" => Some ""
  | String c r =>
      if bool_decide (c = "010"%char) then None
      else if bool_decide (c = "013"%char) && String.prefix newline r then None
      else if bool_decide (c ∈ [" "; "009"; "011"; "012"; "013"]%char) then skipBlanks r
      else Some s
  end.
Fixpoint digitPrefix (s : string) : string :=
  match s with
  | String c r => if (48 <=? Ascii.nat_of_ascii c) && (Ascii.nat_of_ascii c <=? 57) then String c (digitPrefix r) else ""
  | "" => ""
  end.
Definition Sscanf_u32 (s : string) : option Z :=
  s ← skipBlanks s; v ← ParseUint64 (digitPrefix s); if (v <=? MaxUint32)%Z then Some v else None.

Definition setArg (a : tuiArgs) (name value : string) : option tuiArgs :=
  if String.eqb name "--entry" then
    Some (mkTuiArgs value (arg_validUntil a) (arg_network a) (arg_rpcURL a) (arg_secretEnv a) (arg_for a) (arg_config a))
  else if String.eqb name "--valid-until" then
    Some (mkTuiArgs (arg_entry a) (default (arg_validUntil a) (Sscanf_u32 value)) (arg_network a) (arg_rpcURL a)
            (arg_secretEnv a) (arg_for a) (arg_config a))
  else if String.eqb name "--network" then
    Some (mkTuiArgs (arg_entry a) (arg_validUntil a) value (arg_rpcURL a) (arg_secretEnv a) (arg_for a) (arg_config a))
  else if String.eqb name "--rpc-url" then
    Some (mkTuiArgs (arg_entry a) (arg_validUntil a) (arg_network a) value (arg_secretEnv a) (arg_for a) (arg_config a))
  else if String.eqb name "--secret-env" then
    Some (mkTuiArgs (arg_entry a) (arg_validUntil a) (arg_network a) (arg_rpcURL a) value (arg_for a) (arg_config a))
  else if String.eqb name "--for" then
    Some (mkTuiArgs (arg_entry a) (arg_validUntil a) (arg_network a) (arg_rpcURL a) (arg_secretEnv a) value (arg_config a))
  else if String.eqb name "--config" then
    Some (mkTuiArgs (arg_entry a) (arg_validUntil a) (arg_network a) (arg_rpcURL a) (arg_secretEnv a) (arg_for a) value)
  else None.

(** The loop over the arguments: a known name takes the one after it, the others
    are skipped; [None] when help is asked for. *)
Fixpoint parseArgs (known : list string) (help : bool) (args : list string) (a : tuiArgs) : option tuiArgs :=
  match args with
  | [] => Some a
  | name :: rest =>
      if keyIn name known then
        match rest with
        | value :: rest => parseArgs known help rest (default a (setArg a name value))
        | [] => Some a
        end
      else if help && keyIn name ["--help"; "-h"] then None
      else parseArgs known help rest a
  end.

Definition noArgs : tuiArgs := mkTuiArgs "" 0 "" "" "" "" "".

(** tui.go: the library's own command; two of the names are resolved. *)
Definition TUICommand (args : list string) : IO (option TUIModel) :=
  _ ← lift (refuse (Nat.ltb (length args) 5)
        (EText ("usage: tui --entry <base64> --valid-until <ledger> --network <passphrase> " +:+
                "--secret-env <var> [--for <addr>]")));
  let a := default noArgs (parseArgs ["--entry"; "--valid-until"; "--network"; "--secret-env"; "--for"] false args noArgs) in
  _ ← lift (refuse (String.eqb (arg_entry a) "" || (arg_validUntil a =? 0)%Z || String.eqb (arg_network a) "" ||
                    String.eqb (arg_secretEnv a) "") (EText "missing required flags"));
  let passphrase := if String.eqb (arg_network a) "testnet" then TestNetworkPassphrase
    else if String.eqb (arg_network a) "public" then PublicNetworkPassphrase else arg_network a in
  TUIWithOutput Background (arg_entry a) (arg_validUntil a) passphrase (arg_secretEnv a) (arg_for a).

(** main.go: the command line's. *)
Definition runTUI (fetchNetworkPassphrase : networkResolver) (tuiUsage : string) (args : list string)
    (getenv : string → string) : IO (option TUIModel) :=
  match parseArgs ["--entry"; "--valid-until"; "--network"; "--rpc-url"; "--secret-env"; "--for"; "--config"] true
          args noArgs with
  | None => _ ← Fprint Stdout tuiUsage; mret None
  | Some a =>
      cfg ← cli_loadConfig (arg_config a) getenv;
      let netVal := Value (resolveNetworkValue None (arg_network a) getenv cfg) in
      let secVal := Value (resolveSecretEnvValue None (arg_secretEnv a) getenv cfg) in
      let rpcVal := Value (resolveRPCURLValue None (arg_rpcURL a) getenv cfg "") in
      if String.eqb (arg_entry a) "" || (arg_validUntil a =? 0)%Z || String.eqb netVal "" || String.eqb secVal "" then
        _ ← Fprint Stderr tuiUsage; lift (Err (usageError "missing required flags"))
      else
        passphrase ← cli_resolveNetwork Background netVal rpcVal getenv fetchNetworkPassphrase;
        TUIWithOutput Background (arg_entry a) (arg_validUntil a) passphrase secVal (arg_for a)
  end.
End tui.

(** ** The invariant of a session *)

(** What the goroutine has left in the model. *)
Definition outcome (m : TUIModel) (r : result SorobanAuthorizationEntry) : Prop :=
  match r with
  | Ok signed => tui_err m = None ∧ signedEntry m = Some signed
  | Err e => tui_err m = Some e ∧ signedEntry m = None
  end.

(** The fields no step writes. *)
Definition same_request (m m0 : TUIModel) : Prop :=
  tui_entry m = tui_entry m0 ∧ tui_info m = tui_info m0 ∧ tui_findings m = tui_findings m0 ∧
  tui_validUntilLedger m = tui_validUntilLedger m0 ∧ tui_networkPassphrase m = tui_networkPassphrase m0 ∧
  tui_forAddress m = tui_forAddress m0 ∧ tui_signer m = tui_signer m0.

Section session.
Context `{SDK} `{EnvelopeSDK} `{NetURL} `{CustodyLib} `{CliLib} `{TuiLib}.

Definition called (m : TUIModel) (r : result SorobanAuthorizationEntry) : Prop :=
  ∃ w w', signingCall m w = (r, w').

(** Where the goroutine stands, and what the model holds of its result. *)
Definition progress (m0 m : TUIModel) (gs : list Goroutine) : Prop :=
  match gs with
  | [] => stage m < 2 ∧ tui_err m = None ∧ signedEntry m = None ∧ tui_done m = false
  | [Started] => stage m = 2 ∧ tui_err m = None ∧ signedEntry m = None ∧ tui_done m = false
  | [Returned r] => stage m = 2 ∧ tui_err m = None ∧ signedEntry m = None ∧ tui_done m = false ∧ called m0 r
  | [Written] => stage m = 2 ∧ tui_done m = false ∧ ∃ r, called m0 r ∧ outcome m r
  | [Ended] => stage m = 2 ∧ tui_done m = true ∧ ∃ r, called m0 r ∧ outcome m r
  | _ => False
  end.

Definition in_list (m : TUIModel) : Prop := (0 ≤ cursor m < Z.of_nat (length (getInspectItems m)))%Z.

Record coherent (m0 : TUIModel) (p : Program) : Prop := {
  coh_request : same_request (prog_model p) m0;
  coh_cursor : in_list (prog_model p);
  coh_selected : stage (prog_model p) = 1 → selectedNode (prog_model p) ∈ getInspectItems (prog_model p);
  coh_progress : progress m0 (prog_model p) (prog_goroutines p)
}.

Lemma getInspectItems_same m m0 : same_request m m0 → getInspectItems m = getInspectItems m0.
Proof. intros (_ & Hi & Hf & _). unfold getInspectItems. by rewrite Hi, Hf. Qed.

Lemma signingCall_same m m0 : same_request m m0 → signingCall m = signingCall m0.
Proof. intros (He & _ & _ & Hv & Hn & Hfa & Hs). unfold signingCall. by rewrite He, Hv, Hn, Hfa, Hs. Qed.

Lemma getInspectItems_pos m : 0 < length (getInspectItems m).
Proof. unfold getInspectItems, infoLines. rewrite !length_app. simpl. lia. Qed.

#[local] Opaque getInspectItems.

Lemma clamp_in (c n : Z) :
  (0 < n)%Z →
  let c := if (c <? 0)%Z then 0%Z else c in (0 ≤ (if (n <=? c)%Z then n - 1 else c) < n)%Z.
Proof. intros Hn. simpl. destruct (Z.ltb_spec c 0); [destruct (Z.leb_spec n 0) | destruct (Z.leb_spec n c)]; lia. Qed.

Lemma moveCursor_in m delta : in_list (moveCursor m delta).
Proof.
  pose proof (getInspectItems_pos m) as Hpos. unfold moveCursor.
  destruct (Z.eqb_spec (Z.of_nat (length (getInspectItems m))) 0) as [|_]; [lia|].
  unfold in_list. change (getInspectItems (set_ui ?s ?a ?b ?c ?d)) with (getInspectItems s). simpl.
  apply (clamp_in (cursor m + delta)). lia.
Qed.

Lemma Update_keeps m msg : same_request (Update m msg).1 m.
Proof.
  destruct msg as [w h | key |]; simpl; try done.
  unfold handleEnter, moveCursor. repeat case_match; simpl; repeat split; done.
Qed.

(** Messages that start nothing keep the goroutine's progress. *)
Lemma progress_ui m0 m gs st c sel q :
  (stage m = 2 → st = 2) → (stage m < 2 → st < 2) → progress m0 m gs → progress m0 (set_ui m st c sel q) gs.
Proof.
  intros Htwo Hlow. destruct gs as [|[| r | |] [|? ?]]; simpl; intros Hp; destruct_and?; split_and?; auto.
Qed.

Definition after (gs : list Goroutine) (cmd : Cmd) : list Goroutine :=
  match cmd with CmdSpawn => gs ++ [Started] | _ => gs end.

Lemma spawn_progress m0 m gs : stage m = 0 → progress m0 m gs → progress m0 (startSigning m) (gs ++ [Started]).
Proof.
  intros Hs. destruct gs as [|[| r | |] [|? ?]]; simpl; intros Hp; destruct_and?; try (exfalso; congruence); done.
Qed.

Definition key_ok (m0 : TUIModel) (gs : list Goroutine) (mc : TUIModel * Cmd) : Prop :=
  in_list mc.1 ∧ (stage mc.1 = 1 → selectedNode mc.1 ∈ getInspectItems mc.1) ∧ progress m0 mc.1 (after gs mc.2).

Lemma handleEnter_ok m0 m gs :
  in_list m → (stage m = 1 → selectedNode m ∈ getInspectItems m) → progress m0 m gs →
  key_ok m0 gs (handleEnter m, CmdNone).
Proof.
  intros Hc Hsel Hp. unfold key_ok, handleEnter. simpl.
  destruct (Nat.eqb_spec (stage m) 0) as [Hz|Hz]; simpl.
  - unfold in_list in Hc. destruct (Z.ltb_spec (cursor m) (Z.of_nat (length (getInspectItems m)))) as [_|]; [|lia].
    simpl. split; [exact Hc|]. split; [intros _|].
    + destruct (lookup_lt_is_Some_2 (getInspectItems m) (Z.to_nat (cursor m))) as [item Hi]; [lia|].
      rewrite Hi. change (getInspectItems (set_ui m ?a ?b ?c ?d)) with (getInspectItems m).
      simpl. by eapply list_elem_of_lookup_2.
    + apply progress_ui; [lia..|done].
  - destruct (Nat.eqb_spec (stage m) 1) as [Ho|Ho]; simpl; [|done].
    split; [exact Hc|]. split; [done|]. apply progress_ui; [lia..|done].
Qed.

Lemma moveCursor_ok m0 m gs delta :
  (stage m = 1 → selectedNode m ∈ getInspectItems m) → progress m0 m gs →
  key_ok m0 gs (moveCursor m delta, CmdNone).
Proof.
  intros Hsel Hp. split; [apply moveCursor_in|]. unfold moveCursor. simpl.
  destruct (_ =? _)%Z; [done|]. split; [exact Hsel|]. by apply progress_ui.
Qed.

Lemma Update_ok m0 m gs msg :
  in_list m → (stage m = 1 → selectedNode m ∈ getInspectItems m) → progress m0 m gs → key_ok m0 gs (Update m msg).
Proof.
  intros Hc Hsel Hp. destruct msg as [w h | key |]; simpl.
  - split; [exact Hc|]. split; [exact Hsel|]. exact Hp.
  - case_match; [split; [exact Hc|]; split; [exact Hsel|]; by apply progress_ui|].
    case_match; [by apply handleEnter_ok|].
    case_match; [by apply moveCursor_ok|].
    case_match; [by apply moveCursor_ok|].
    case_match; [|done].
    destruct (Nat.eqb_spec (stage m) 0) as [Hz|]; [|by rewrite andb_false_r in *].
    split; [exact Hc|]. split; [done|]. by apply spawn_progress.
  - done.
Qed.

(** At most one goroutine: a step of the [i]-th is a step of the only one. *)
Lemma progress_only m0 m gs i g : progress m0 m gs → gs !! i = Some g → gs = [g] ∧ i = 0.
Proof.
  destruct gs as [|g' [|? ?]]; simpl; intros Hp Hi.
  - by rewrite lookup_nil in Hi.
  - destruct i as [|i]; simpl in Hi; [by simplify_eq | by rewrite lookup_nil in Hi].
  - by destruct g'.
Qed.

Lemma tui_step_coherent m0 p p' : coherent m0 p → tui_step p p' → coherent m0 p'.
Proof.
  intros [Hr Hc Hsel Hp] Hstep.
  destruct Hstep as [m gs w msg m' cmd Hu | m gs i q w r w' Hi Hcall | m gs i q w r Hi | m gs i q w Hi]; simpl in *.
  - destruct (Update_ok m0 m gs msg Hc Hsel Hp) as (Hc' & Hsel' & Hp').
    pose proof (Update_keeps m msg) as Hk. rewrite Hu in Hc', Hsel', Hp', Hk.
    split; simpl in *; try done. destruct Hk, Hr. unfold same_request. destruct_and?.
    repeat split; congruence.
  - destruct (progress_only _ _ _ _ _ Hp Hi) as [-> ->]. split; simpl; try done.
    simpl in Hp. destruct_and?. split_and?; try done. exists w, w'. by rewrite <- (signingCall_same m m0 Hr).
  - destruct (progress_only _ _ _ _ _ Hp Hi) as [-> ->]. simpl in Hp. destruct_and?.
    destruct r as [signed|e]; split; simpl; try done; split_and?; try done; eauto.
    all: eexists; split; [eassumption|]; done.
  - destruct (progress_only _ _ _ _ _ Hp Hi) as [-> ->]. simpl in Hp. destruct Hp as (Hs & _ & r & Hcalled & Ho).
    split; simpl; try done. split_and?; try done. exists r. split; [done|]. by destruct r.
Qed.

Lemma initialModel_coherent entry info findings v net for_ kp w :
  let m0 := initialModel entry info findings v net for_ kp in coherent m0 (mkProgram m0 [] false w).
Proof.
  intros m0. split; simpl; [by repeat split | | done | ].
  - split; [done|]. pose proof (getInspectItems_pos m0). unfold m0 in *. simpl. lia.
  - repeat split; simpl; lia.
Qed.

Lemma session_coherent entry info findings v net for_ kp w p :
  let m0 := initialModel entry info findings v net for_ kp in
  rtc tui_step (mkProgram m0 [] false w) p → coherent m0 p.
Proof.
  intros m0 Hsteps. eapply (rtc_ind_l (λ q, coherent m0 q → coherent m0 p)); [done | | exact Hsteps | ].
  - intros q q' Hq _ IH Hcoh. apply IH. by eapply tui_step_coherent.
  - apply initialModel_coherent.
Qed.

(** ** What a session does *)

(** C35. However the keys and the signing goroutine interleave, a session signs at
    most once, and signs the entry it was opened on, with the seed's signer and
    the options it was given; once it is done it holds either the entry that
    call returned or the error it failed with, never both; the list's cursor
    stays on a line and the detail page shows one. *)
Theorem TUI_session entry info findings v net for_ kp w p :
  let m0 := initialModel entry info findings v net for_ kp in let m := prog_model p in
  rtc tui_step (mkProgram m0 [] false w) p →
  same_request m m0 ∧ length (prog_goroutines p) <= 1 ∧ (prog_goroutines p = [] ↔ stage m < 2) ∧ stage m <= 2 ∧
  (0 ≤ cursor m < Z.of_nat (length (getInspectItems m)))%Z ∧
  (stage m = 1 → selectedNode m ∈ getInspectItems m) ∧
  (tui_done m = true → ∃ w1 w2 r,
     AuthorizeEntry Background entry (Some (NewEd25519Signer (Some kp))) v net (signOptions for_) w1 = (r, w2) ∧
     outcome m r).
Proof.
  intros m0 m Hsteps. destruct (session_coherent _ _ _ _ _ _ _ _ _ Hsteps) as [Hr Hc Hsel Hp]. fold m in Hr, Hc, Hsel, Hp.
  refine (conj Hr (conj _ (conj _ (conj _ (conj Hc (conj Hsel _)))))).
  - destruct (prog_goroutines p) as [|[] []]; simpl in Hp |- *; try done; lia.
  - destruct (prog_goroutines p) as [|[] []]; simpl in Hp; destruct_and?; try done; split; intros; try done; lia.
  - destruct (prog_goroutines p) as [|[] []]; simpl in Hp; destruct_and?; try done; lia.
  - intros Hd. destruct (prog_goroutines p) as [|[] []]; simpl in Hp; destruct_and?; try congruence; try done.
    match goal with E : ∃ r, _ |- _ => destruct E as (r & (w1 & w2 & Hcall) & Ho) end. by exists w1, w2, r.
Qed.

(** A signed entry is on the screen only when the session is done, and it is the
    one the goroutine's call returned: the signing page never has a result to
    show, whatever its code does with one. *)
Theorem View_signed entry info findings v net for_ kp w p :
  let m0 := initialModel entry info findings v net for_ kp in let m := prog_model p in
  rtc tui_step (mkProgram m0 [] false w) p → quitting m = false →
  (tui_done m = true ∧ ∃ r, called m0 r ∧ View m = viewDone (set_result m
      (match r with Err e => Some e | Ok _ => None end) true (match r with Ok s => Some s | Err _ => None end))) ∨
  (tui_done m = false ∧ ∃ e, called m0 (Err e) ∧ tui_err m = Some e) ∨
  (tui_done m = false ∧ tui_err m = None ∧
   View m = if stage m =? 0 then viewInspect m else if stage m =? 1 then viewNodeDetail m
            else viewSigning (set_result m None false None)).
Proof.
  intros m0 m Hsteps Hq. destruct (session_coherent _ _ _ _ _ _ _ _ _ Hsteps) as [_ _ _ Hp]. fold m in Hp.
  assert (Hnone : tui_done m = false → tui_err m = None → stage m <= 2 →
    View m = if stage m =? 0 then viewInspect m else if stage m =? 1 then viewNodeDetail m
             else viewSigning (set_result m None false None)).
  { intros Hd He Hs. unfold View. rewrite Hq, Hd, He. destruct (stage m) as [|[|[|]]]; try done; [|lia].
    unfold viewSigning. simpl. by rewrite Hd. }
  destruct (prog_goroutines p) as [|[| r | |] []]; simpl in Hp; try done.
  - right; right. destruct_and?. split_and!; try done. apply Hnone; auto with lia.
  - right; right. destruct_and?. split_and!; try done. apply Hnone; auto with lia.
  - right; right. destruct_and?. split_and!; try done. apply Hnone; auto with lia.
  - right. destruct Hp as (Hs & Hd & [signed|e] & Hcall & He & Hsig); [right|left; eauto].
    split_and!; try done. apply Hnone; auto with lia.
  - left. destruct Hp as (Hs & Hd & r & Hcall & Ho). split; [done|]. exists r. split; [done|].
    unfold View, viewDone, signedText. rewrite Hq, Hd.
    destruct r, Ho as [He Hsig]; by rewrite He, ?Hsig.
Qed.

(** A session that has begun to sign comes to its end, whatever the user does
    meanwhile, for the goroutine waits for nothing. *)
Theorem signing_ends entry info findings v net for_ kp w p :
  let m0 := initialModel entry info findings v net for_ kp in
  rtc tui_step (mkProgram m0 [] false w) p → stage (prog_model p) = 2 →
  ∃ p', rtc tui_step p p' ∧ tui_done (prog_model p') = true ∧ prog_quit p' = prog_quit p.
Proof.
  intros m0 Hsteps Hs. destruct (session_coherent _ _ _ _ _ _ _ _ _ Hsteps) as [_ _ _ Hp]. clear Hsteps.
  destruct p as [m gs q wp]. simpl in *.
  assert (Hended : ∀ m w', ∃ p', rtc tui_step (mkProgram m [Written] q w') p' ∧
    tui_done (prog_model p') = true ∧ prog_quit p' = q).
  { intros m' w'. eexists. split; [apply rtc_once; by eapply (step_done m' _ 0)|done]. }
  assert (Hwritten : ∀ m r w', ∃ p', rtc tui_step (mkProgram m [Returned r] q w') p' ∧
    tui_done (prog_model p') = true ∧ prog_quit p' = q).
  { intros m' r w'. destruct (Hended (writeResult m' r) w') as (p' & Hrun & Hd).
    exists p'. split; [|done]. eapply rtc_l; [by eapply (step_write m' [Returned r] 0)|exact Hrun]. }
  destruct gs as [|[| r | |] []]; simpl in Hp; try done; [lia| |].
  - destruct (signingCall m wp) as [r w'] eqn:Hcall. destruct (Hwritten m r w') as (p' & Hrun & Hd).
    exists p'. split; [|done]. eapply rtc_l; [by eapply (step_call m [Started] 0)|exact Hrun].
  - exists (mkProgram m [Ended] q wp). split; [done|]. destruct Hp as (_ & Hd & _). done.
Qed.

(** Away from a terminal the last line printed is the signed entry; a run that
    fails has printed no entry. *)
Theorem runNonInteractive_signed ctx entry info findings v net secret for_ w w' :
  runNonInteractive ctx entry info findings v net secret for_ w = (Ok tt, w') →
  ∃ kp signed raw w1 w2, seedKeypair secret = Ok kp ∧
    AuthorizeEntry ctx entry (Some (NewEd25519Signer (Some kp))) v net (signOptions for_) w1 = (Ok signed, w2) ∧
    MarshalBinary signed = Ok raw ∧ log w' = log w2 ++
      [EvPrint Stdout (newline +:+ "=== Signed Entry (base64) ===" +:+ newline);
       EvPrint Stdout (WebAuthn.EncodeToString WebAuthn.StdEncoding raw +:+ newline)].
Proof.
  unfold runNonInteractive, Fprint. intros Hr. inv_io.
  match goal with Hm : wrap _ _ = Ok _ |- _ => apply wrap_Ok in Hm end.
  do 5 eexists. do 3 (split; [eassumption|]).
  unfold emit_event. simpl. by rewrite <-app_assoc.
Qed.
End session.

(** ** A session at work *)
#[export] Instance ModelTuiLib : TuiLib := {|
  Render _ s := s;
  keypair_ParseFull s := if String.eqb s Cli.ex_seed then Ok (ex_keypair "a") else Err (EText "invalid seed");
  os_Getenv name := if String.eqb name "SOROAUTH_SEED" then Cli.ex_seed else "";
  isTTY := true
|}.

Definition ex_tui_entry : SorobanAuthorizationEntry := ex_v2 "a" 0 ScvVoid.
Definition ex_tui_info : EntryInfo :=
  match Inspect ex_tui_entry with Ok info => info | Err _ => mkEntryInfo "" false "" 0 0 false [] "" "" 0 end.
Definition ex_tui_model (for_ : string) : TUIModel :=
  initialModel ex_tui_entry ex_tui_info [] 1000 ex_network for_ (ex_keypair "a").

(** A program run by a list of messages; [None] stands for the goroutine's next
    step. *)
Definition ex_advance (p : Program) (msg : option string) : Program :=
  let 'mkProgram m gs q w := p in
  match msg with
  | Some key =>
      if q then p
      else let '(m', cmd) := Update m (KeyMsg key) in
           mkProgram m' (after gs cmd) (match cmd with CmdQuit => true | _ => false end) w
  | None =>
      match gs with
      | [Started] => let '(r, w') := signingCall m w in mkProgram m [Returned r] q w'
      | [Returned r] => mkProgram (writeResult m r) [Written] q w
      | [Written] => mkProgram (set_result m (tui_err m) true (signedEntry m)) [Ended] q w
      | _ => p
      end
  end.

Lemma ex_advance_step p msg : rtc tui_step p (ex_advance p msg).
Proof.
  destruct p as [m gs q w], msg as [key|]; cbn [ex_advance].
  - destruct q; [done|]. destruct (Update m (KeyMsg key)) as [m' cmd] eqn:Hu. apply rtc_once.
    exact (step_message m gs w (KeyMsg key) m' cmd Hu).
  - destruct gs as [|[| r | |] [|]]; try done.
    + destruct (signingCall m w) as [r w'] eqn:Hcall. apply rtc_once. by apply (step_call m [Started] 0).
    + apply rtc_once. by apply (step_write m [Returned r] 0).
    + apply rtc_once. by apply (step_done m [Written] 0).
Qed.

Definition ex_play (for_ : string) (msgs : list (option string)) : Program :=
  foldl ex_advance (mkProgram (ex_tui_model for_) [] false initial_world) msgs.

Lemma ex_play_steps for_ msgs : rtc tui_step (mkProgram (ex_tui_model for_) [] false initial_world) (ex_play for_ msgs).
Proof.
  unfold ex_play. generalize (mkProgram (ex_tui_model for_) [] false initial_world).
  induction msgs as [|msg msgs IH]; intros p; simpl; [done|]. etransitivity; [apply ex_advance_step|apply IH].
Qed.

(** A look at the second line, then a signature with a key pressed meanwhile. *)
Definition ex_session : list (option string) :=
  [Some "down"; Some "enter"; Some "enter"; Some "s"; None; Some "up"; Some "s"; None; None].

Lemma TUI_session_witness :
  let m := prog_model (ex_play "" ex_session) in
  rtc tui_step (mkProgram (ex_tui_model "") [] false initial_world) (ex_play "" ex_session) ∧
  length (prog_goroutines (ex_play "" ex_session)) <= 1 ∧
  ∃ w1 w2 r, AuthorizeEntry Background ex_tui_entry (Some (NewEd25519Signer (Some (ex_keypair "a")))) 1000 ex_network
    (signOptions "") w1 = (r, w2) ∧ outcome m r.
Proof.
  intros m. split; [exact (ex_play_steps "" ex_session)|].
  destruct (TUI_session _ _ _ _ _ _ _ _ _ (ex_play_steps "" ex_session)) as (_ & Hlen & _ & _ & _ & _ & Hd).
  split; [exact Hlen|]. apply Hd. vm_compute. reflexivity.
Defined.

Lemma View_signed_witness :
  ∃ r, called (ex_tui_model "") r ∧
  View (prog_model (ex_play "" ex_session)) = viewDone (set_result (prog_model (ex_play "" ex_session))
      (match r with Err e => Some e | Ok _ => None end) true (match r with Ok s => Some s | Err _ => None end)).
Proof.
  destruct (View_signed _ _ _ _ _ _ _ _ _ (ex_play_steps "" ex_session)) as [(_ & Hr)|[(Hd & _)|(Hd & _)]];
    [vm_compute; reflexivity | exact Hr | vm_compute in Hd; discriminate Hd..].
Defined.

Lemma signing_ends_witness : ∃ p', rtc tui_step (ex_play "" [Some "s"; Some "q"]) p' ∧
  tui_done (prog_model p') = true ∧ prog_quit p' = true.
Proof.
  exact (signing_ends _ _ _ _ _ _ _ _ _ (ex_play_steps "" [Some "s"; Some "q"]) eq_refl).
Defined.

(** The signature of a session, and the failure of one that asks for another
    address; a signature asked for from the detail page is not made. *)
Example ex_sessions :
  option_map (λ e, Ok e) (signedEntry (prog_model (ex_play "" ex_session))) = Some (ex_out (signingCall (ex_tui_model ""))).1 ∧
  (let m := prog_model (ex_play (ex_text "b") ex_session) in (match tui_err m with Some _ => true | None => false end, signedEntry m, tui_done m) = (true, None, true)) ∧
  prog_goroutines (ex_play "" [Some "enter"; Some "s"]) = [] ∧
  selectedNode (prog_model (ex_play "" [Some "j"; Some "enter"])) = "Address Bound: true".
Proof. vm_compute. by split_and!. Qed.

(** Flags are read by hand: the value of one may be the name of another, a last
    name without a value is dropped, and trailing text after a number is lost. *)
Example ex_args :
  parseArgs ["--entry"; "--valid-until"; "--for"] false ["--entry"; "--for"; "--valid-until"; "12x"; "--for"] noArgs =
    Some (mkTuiArgs "--for" 12 "" "" "" "" "") ∧
  parseArgs ["--entry"] true ["--verbose"; "-h"] noArgs = None ∧
  Sscanf_u32 " 4294967295" = Some 4294967295%Z ∧ Sscanf_u32 "4294967296" = None ∧ Sscanf_u32 "-1" = None.
Proof. vm_compute. by split_and!. Qed.

(** The library's own command knows two of the network names: the third is
    taken for a passphrase. *)
Definition ex_command_args (network : string) : list string :=
  ["--entry"; ex_unsigned; "--valid-until"; "1000"; "--network"; network; "--secret-env"; "SOROAUTH_SEED"].
Definition ex_passphrase (network : string) : option string :=
  match (ex_out (TUICommand (ex_command_args network))).1 with Ok (Some m) => Some (tui_networkPassphrase m) | _ => None end.
Example ex_command_networks :
  ex_passphrase "testnet" = Some TestNetworkPassphrase ∧ ex_passphrase "public" = Some PublicNetworkPassphrase ∧
  ex_passphrase "futurenet" = Some "futurenet" ∧ FutureNetworkPassphrase ≠ "futurenet" ∧
  is_ok (ex_out (TUICommand ["--entry"; ex_unsigned; "--valid-until"; "0"; "--network"])).1 = false.
Proof. vm_compute. by split_and!. Qed.

(** Away from a terminal: the report, and then the entry. *)
Lemma runNonInteractive_signed_witness : ∃ kp signed raw w1 w2, seedKeypair "SOROAUTH_SEED" = Ok kp ∧
  AuthorizeEntry Background ex_tui_entry (Some (NewEd25519Signer (Some kp))) 1000 ex_network (signOptions "") w1 =
    (Ok signed, w2) ∧
  MarshalBinary signed = Ok raw ∧
  log (runNonInteractive Background ex_tui_entry ex_tui_info [] 1000 ex_network "SOROAUTH_SEED" "" initial_world).2 =
    log w2 ++
      [EvPrint Stdout (newline +:+ "=== Signed Entry (base64) ===" +:+ newline);
       EvPrint Stdout (WebAuthn.EncodeToString WebAuthn.StdEncoding raw +:+ newline)].
Proof.
  apply (runNonInteractive_signed Background ex_tui_entry ex_tui_info [] 1000 ex_network "SOROAUTH_SEED" "" initial_world).
  vm_compute. reflexivity.
Defined.
