(* ===== verification/Bindings.v ===== *)
(** * Bindings: the C interface and the WebAssembly interface
    (bindings/c/soroauth.go; cmd/soroauthwasm/main.go)

    Both take texts and numbers from another language, call the library and
    answer with an envelope that is a result or an error.  They are meant to be
    the library and nothing else.  [detached_signing] shows that the two-step way
    to sign (derive the payload, sign it elsewhere, write the signature) makes
    the entry the one-step way makes; [wasm_agrees] that the two interfaces
    give the same answers wherever both read the entry; [AuthorizeWithSeeds_single]
    that one seed in a list is that seed; [kindOf_spec] what the error kinds mean.

    A C string is an optional text; a JavaScript value is a text, a number or
    something else, and asking something else for a number panics ([None]).
    Memory ownership is left out.  The SDK's other decoders, the derivation of a
    key pair and encoding/json are the class [BindingLib]. *)
From Stdlib Require Import ZArith Lia Strings.Byte String Ascii.
From stdpp Require Import base list strings pretty.
From S2P Require Import Prelude Encoding Errors Xdr ModelSDK Runtime Examples Address Limits Arm Preimage Signers.
From S2P Require Risk WebAuthn.
From S2P Require Import Nodes Retry Inspect Delegates Authorize Verify Batch Envelope TreeRender Remote Vault Cli.

Open Scope string_scope. Open Scope nat_scope. Open Scope list_scope.

Class BindingLib := {
  SafeUnmarshal_Preimage : string → result HashIdPreimage;
  SafeUnmarshal_ScVal : string → result ScVal;
  keypair_FromRawSeed : bytes → result ed25519Keypair;
  json_MarshalInfo : EntryInfo → result string;
  json_MarshalFindings : list Risk.Finding → result string
}.

(** ** The envelope of the C interface *)
Record cResult := mkCResult {
  OK : bool;
  cResult_Error : string;
  Kind : string;
  PreimageXDR : string;
  PayloadHex : string;
  EntryB64 : string;
  InfoJSON : string;
  FindingsJSON : string;
  Tree : string
}.

Definition kinds : list (sentinel * string) :=
  [(ErrSourceAccountCredentials, "SOURCE_ACCOUNT_CREDENTIALS"); (ErrUnsupportedCredentials, "UNSUPPORTED_CREDENTIALS");
   (ErrNoMatchingCredentialNode, "NO_MATCHING_CREDENTIAL_NODE"); (ErrDuplicateDelegate, "DUPLICATE_DELEGATE");
   (ErrSignatureMismatch, "SIGNATURE_MISMATCH"); (ErrMissingSigner, "MISSING_SIGNER"); (ErrAlreadySigned, "ALREADY_SIGNED");
   (ErrInvalidExpiration, "INVALID_EXPIRATION"); (ErrTooManySignatures, "TOO_MANY_SIGNATURES");
   (ErrDecodeLimit, "DECODE_LIMIT")].

(** The switch: the first sentinel the error wraps. *)
Fixpoint kindAmong (ks : list (sentinel * string)) (err : error) : string :=
  match ks with
  | [] => "ERROR"
  | (s, k) :: ks => if errors_Is err s then k else kindAmong ks err
  end.
Definition kindOf : error → string := kindAmong kinds.

Definition failResult (err : error) : cResult := mkCResult false (Error err) (kindOf err) "" "" "" "" "" "".
Definition okPreimage (xdr payload : string) : cResult := mkCResult true "" "" xdr payload "" "" "" "".
Definition okPayload (payload : string) : cResult := mkCResult true "" "" "" payload "" "" "" "".
Definition okEntry (entry : string) : cResult := mkCResult true "" "" "" "" entry "" "" "".
Definition okInfo (info : string) : cResult := mkCResult true "" "" "" "" "" info "" "".
Definition okFindings (findings : string) : cResult := mkCResult true "" "" "" "" "" "" findings "".
Definition okTree (tree : string) : cResult := mkCResult true "" "" "" "" "" "" "" tree.

Definition orFail (r : result cResult) : cResult := match r with Ok c => c | Err e => failResult e end.
Definition orFailIO (m : IO cResult) : IO cResult := r ← try_ m; mret (orFail r).

Definition goString (s : option string) : string := default "" s.

(** [strings.Split(s, ",")] *)
Fixpoint SplitComma (s : string) : list string :=
  match s with
  | EmptyString => [""]
  | String c s =>
      if Ascii.eqb c "," then "" :: SplitComma s
      else match SplitComma s with f :: fs => String c f :: fs | [] => [String c ""] end
  end.

Section bindings.
Context `{SDK} `{CliLib} `{BindingLib}.

(** ** What both interfaces share, up to the name in their messages *)
Definition bindEncode (abi : string) (entry : SorobanAuthorizationEntry) : result string :=
  raw ← wrap ("soroauth: " +:+ abi +:+ ": encoding entry") (MarshalBinary entry);
  Ok (WebAuthn.EncodeToString WebAuthn.StdEncoding raw).

Definition options (forAddress : string) : list AuthorizeOption :=
  if String.eqb forAddress "" then [] else [ForAddress forAddress].

Definition topLevelAddress (abi : string) (entry : SorobanAuthorizationEntry) : result string :=
  let c := Credentials entry in
  let t := Credentials_Type c in
  let fail what := EText ("soroauth: " +:+ abi +:+ ": " +:+ what) in
  if (t =? CredentialsAddress)%Z then
    a ← of_option (Credentials_Address c) (fail "entry has no address"); FormatAddress (Address a)
  else if (t =? CredentialsAddressV2)%Z then
    a ← of_option (Credentials_AddressV2 c) (fail "entry has no v2 address"); FormatAddress (Address a)
  else if (t =? CredentialsAddressWithDelegates)%Z then
    d ← of_option (Credentials_AddressWithDelegates c) (fail "entry has no delegate address");
    FormatAddress (Address (AddressCredentials d))
  else Err (fail "unsupported credential type").

Definition bindSeed (abi : string) (seedHex : string) : result ed25519Keypair :=
  let op := "soroauth: " +:+ abi +:+ ": " in
  seed ← wrap (op +:+ "decoding seed") (decodeHex (TrimSpace seedHex));
  _ ← refuse (negb (Nat.eqb (length seed) 32)) (EText (op +:+ "seed must be 32 bytes, got " +:+ pretty (length seed)));
  wrap (op +:+ "deriving keypair") (keypair_FromRawSeed seed).

(** A signature made elsewhere, as a signer. *)
Definition detachedSigner (address : string) (signature : ScVal) : Signer :=
  SignerFunc address (Some (λ _ _ _, mret signature)).

Definition bindAuthorize (abi : string) (entry : SorobanAuthorizationEntry) (signer : Signer) (validUntilLedger : Z)
    (networkPassphrase forAddress : string) : IO string :=
  signed ← AuthorizeEntry Background entry (Some signer) (wrap_u32 validUntilLedger) networkPassphrase (options forAddress);
  lift (bindEncode abi signed).

(** ** The C interface *)
Definition c_decodeEntry (b64 : string) : result SorobanAuthorizationEntry :=
  wrap "soroauth: c abi: decoding entry" (DecodeAuthorizationEntry SafeUnmarshalEntryDepth b64 []).

Definition requirePassphrase (passphrase : string) : result unit :=
  refuse (String.eqb passphrase "") (EText "soroauth: c abi: network passphrase must not be empty").

Definition SoroauthPreimage (entryB64 : option string) (validUntilLedger : Z) (networkPassphrase : option string) : cResult :=
  orFail (
    entry ← c_decodeEntry (goString entryB64);
    _ ← requirePassphrase (goString networkPassphrase);
    preimage ← Preimage entry (wrap_u32 validUntilLedger) (goString networkPassphrase);
    raw ← wrap "soroauth: c abi: marshalling preimage" (MarshalBinary preimage);
    payload ← Payload preimage;
    Ok (okPreimage (WebAuthn.EncodeToString WebAuthn.StdEncoding raw) (hex_EncodeToString payload))).

Definition SoroauthPayload (preimageB64 : option string) : cResult :=
  orFail (
    preimage ← wrap "soroauth: c abi: decoding preimage" (SafeUnmarshal_Preimage (goString preimageB64));
    payload ← Payload preimage;
    Ok (okPayload (hex_EncodeToString payload))).

(** The signer's address of a call that may name one. *)
Definition targetOr (abi forAddress : string) (entry : SorobanAuthorizationEntry) : result string :=
  if String.eqb forAddress "" then topLevelAddress abi entry else Ok forAddress.

Definition SoroauthWriteSignature (entryB64 : option string) (validUntilLedger : Z)
    (networkPassphrase forAddress signatureScvalB64 : option string) : IO cResult :=
  orFailIO (
    entry ← lift (c_decodeEntry (goString entryB64));
    signature ← lift (wrap "soroauth: c abi: decoding signature scval" (SafeUnmarshal_ScVal (goString signatureScvalB64)));
    target ← lift (targetOr "c abi" (goString forAddress) entry);
    encoded ← bindAuthorize "c abi" entry (detachedSigner target signature) validUntilLedger
                (goString networkPassphrase) (goString forAddress);
    mret (okEntry encoded)).

Definition SoroauthAuthorizeWithSeed (entryB64 : option string) (validUntilLedger : Z)
    (networkPassphrase seedHex forAddress : option string) : IO cResult :=
  orFailIO (
    entry ← lift (c_decodeEntry (goString entryB64));
    kp ← lift (bindSeed "c abi" (goString seedHex));
    encoded ← bindAuthorize "c abi" entry (NewEd25519Signer (Some kp)) validUntilLedger
                (goString networkPassphrase) (goString forAddress);
    mret (okEntry encoded)).

Definition seedsSigner (target : string) (keypairs : list ed25519Keypair) : result Signer :=
  match keypairs with
  | [kp] => Ok (NewEd25519Signer (Some kp))
  | _ => NewAccountMultiSigner target (map Some keypairs)
  end.

Definition SoroauthAuthorizeWithSeeds (entryB64 : option string) (validUntilLedger : Z)
    (networkPassphrase seedsCSV forAddress : option string) : IO cResult :=
  orFailIO (
    entry ← lift (c_decodeEntry (goString entryB64));
    let fields := SplitComma (goString seedsCSV) in
    _ ← lift (refuse (Nat.eqb (length fields) 0) (EText "soroauth: c abi: at least one seed is required"));
    keypairs ← lift (rmapM (bindSeed "c abi") fields);
    target ← lift (targetOr "c abi" (goString forAddress) entry);
    signer ← lift (seedsSigner target keypairs);
    encoded ← bindAuthorize "c abi" entry signer validUntilLedger (goString networkPassphrase) (goString forAddress);
    mret (okEntry encoded)).

Definition SoroauthInspect (entryB64 : option string) : cResult :=
  orFail (
    entry ← c_decodeEntry (goString entryB64);
    info ← Inspect entry;
    encoded ← wrap "soroauth: c abi: encoding entry info" (json_MarshalInfo info);
    Ok (okInfo encoded)).

Definition SoroauthAnalyze (entryB64 : option string) (currentLedger : Z) : cResult :=
  orFail (
    entry ← c_decodeEntry (goString entryB64);
    findings ← Risk.Analyze entry (Some (Risk.withCurrentLedger Risk.DefaultRiskConfig (wrap_u32 currentLedger)));
    encoded ← wrap "soroauth: c abi: encoding findings" (json_MarshalFindings findings);
    Ok (okFindings encoded)).

Definition SoroauthRenderInvocations (entryB64 : option string) : cResult :=
  orFail (
    entry ← c_decodeEntry (goString entryB64);
    tree ← InvocationTreeASCII (RootInvocation entry);
    Ok (okTree tree)).

Definition SoroauthRenderTree (entryB64 : option string) : cResult :=
  orFail (
    entry ← c_decodeEntry (goString entryB64);
    info ← Inspect entry;
    Ok (okTree (DelegateTreeASCII info))).

(** ** The WebAssembly interface *)
Inductive JSValue := JSString (s : string) | JSNumber (z : Z) (text : string) | JSOther (text : string).

(** [js.Value.String] and [js.Value.Int]. *)
Definition js_String (v : JSValue) : string :=
  match v with
  | JSString s => s
  | JSNumber _ text => "<number: " +:+ text +:+ ">"
  | JSOther text => text
  end.
Definition js_Int (v : JSValue) : option Z := match v with JSNumber z _ => Some z | _ => None end.

Inductive jsResult := ok (fields : list (string * string)) | fail (message : string).

Definition wasm_decodeEntry (b64 : string) : result SorobanAuthorizationEntry :=
  wrap "soroauth: wasm: decoding entry" (SafeUnmarshalEntry b64).

Definition orFailJS (r : result (option jsResult)) : option jsResult :=
  match r with Ok j => j | Err e => Some (fail (Error e)) end.
Definition orFailJSIO (m : IO (option jsResult)) : IO (option jsResult) := r ← try_ m; mret (orFailJS r).
Definition badArguments (name : string) (n : string) : option jsResult :=
  Some (fail ("soroauth: wasm: " +:+ name +:+ " expects " +:+ n)).

Definition preimage (args : list JSValue) : option jsResult :=
  match args with
  | [entryB64; validUntil; passphrase] => orFailJS (
      entry ← wasm_decodeEntry (js_String entryB64);
      match js_Int validUntil with
      | None => Ok None
      | Some v =>
          p ← Preimage entry (wrap_u32 v) (js_String passphrase);
          raw ← wrap "soroauth: wasm: marshalling preimage" (MarshalBinary p);
          payload ← Payload p;
          Ok (Some (ok [("preimageXdr", WebAuthn.EncodeToString WebAuthn.StdEncoding raw);
                        ("payloadHex", hex_EncodeToString payload)]))
      end)
  | _ => badArguments "preimage" "3 arguments"
  end.

Definition payload (args : list JSValue) : option jsResult :=
  match args with
  | [preimageB64] => orFailJS (
      p ← wrap "soroauth: wasm: decoding preimage" (SafeUnmarshal_Preimage (js_String preimageB64));
      digest ← Payload p;
      Ok (Some (ok [("payloadHex", hex_EncodeToString digest)])))
  | _ => badArguments "payload" "1 argument"
  end.

(** The call both signing functions end in, once their arguments are read. *)
Definition wasmAuthorize (entry : SorobanAuthorizationEntry) (signer : Signer) (validUntil : JSValue)
    (passphrase forAddress : string) : IO (option jsResult) :=
  match js_Int validUntil with
  | None => mret None
  | Some v =>
      encoded ← bindAuthorize "wasm" entry signer v passphrase forAddress;
      mret (Some (ok [("entryB64", encoded)]))
  end.

Definition wasm_writeSignature (args : list JSValue) : IO (option jsResult) :=
  match args with
  | [entryB64; validUntil; passphrase; forAddress; signatureB64] => orFailJSIO (
      entry ← lift (wasm_decodeEntry (js_String entryB64));
      signature ← lift (wrap "soroauth: wasm: decoding signature scval" (SafeUnmarshal_ScVal (js_String signatureB64)));
      signerAddress ← lift (targetOr "wasm" (js_String forAddress) entry);
      wasmAuthorize entry (detachedSigner signerAddress signature) validUntil (js_String passphrase) (js_String forAddress))
  | _ => mret (badArguments "writeSignature" "5 arguments")
  end.

Definition authorizeWithSeed (args : list JSValue) : IO (option jsResult) :=
  match args with
  | [entryB64; validUntil; passphrase; seedHex; forAddress] => orFailJSIO (
      entry ← lift (wasm_decodeEntry (js_String entryB64));
      kp ← lift (bindSeed "wasm" (js_String seedHex));
      wasmAuthorize entry (NewEd25519Signer (Some kp)) validUntil (js_String passphrase) (js_String forAddress))
  | _ => mret (badArguments "authorizeWithSeed" "5 arguments")
  end.
End bindings.

(** ** Signing with another's signature *)
Section detached.
Context `{SDK} `{!SDKLaws}.

(** Two signers a call cannot tell apart before it asks them. *)
Definition same_target (opts : list AuthorizeOption) (s s' : Signer) : Prop :=
  targetOf (applyOptions opts) s = targetOf (applyOptions opts) s'.

Lemma prepareAuthorize_other entry s s' v pass opts plan :
  same_target opts s s' →
  prepareAuthorize entry (Some s) v pass (applyOptions opts) = Ok (plan, s) →
  prepareAuthorize entry (Some s') v pass (applyOptions opts) = Ok (plan, s').
Proof.
  unfold same_target, targetOf, prepareAuthorize. intros Ht. unfold mbind, result_bind. cbn [of_option]. cbv zeta. rewrite <-Ht.
  repeat match goal with
  | |- context [match ?x with Ok _ => _ | Err _ => _ end] => destruct x; [|done]
  end.
  by intros [= <-].
Qed.

Lemma emit_bind_eq {A} ctx l e (k : unit → IO A) y w :
  (∀ w1, ∃ w', k tt w1 = (Ok y, w')) → ∃ w', (x ← emit ctx l e; k x) w = (Ok y, w').
Proof. intros Hk. unfold mbind, IO_bind. destruct (emit_Ok ctx l e w) as [w1 ->]. apply Hk. Qed.

Lemma AuthorizeEntry_detached entry s v pass opts w out w' :
  AuthorizeEntry Background entry (Some s) v pass opts w = (Ok out, w') → is_source entry = false →
  ∃ pre payload sig w1 w2, Preimage entry v pass = Ok pre ∧ Payload pre = Ok payload ∧
    signer_Sign s Background pre payload w1 = (Ok sig, w2) ∧
    ∀ s', same_target opts s s' →
      (∀ w3, ∃ w4, signer_Sign s' Background pre payload w3 = (Ok sig, w4)) →
      ∀ w3, ∃ w4, AuthorizeEntry Background entry (Some s') v pass opts w3 = (Ok out, w4).
Proof.
  intros Ha Hs. unfold AuthorizeEntry in Ha. apply io_bind_Ok in Ha as ([] & w0 & Hc & Ha).
  rewrite Hs in Ha. inv_io. destruct x as [plan s0].
  pose proof (prepareAuthorize_Ok _ _ _ _ _ _ _ Hl) as ([= <-] & t & Hprep). inv_io.
  destruct x2 as [sig|e]; inv_io; [|done]. unfold call_Sign in Hx2. inv_io.
  apply wrap_Ok in Hl0. exists (plan_preimage plan), x0, sig. do 2 eexists.
  split; [by destruct Hprep|]. split; [done|]. split; [eassumption|].
  intros s' Ht Hsign v0. unfold AuthorizeEntry. unfold mbind at 1, IO_bind at 1.
  rewrite (proj2 (ctx_check_Ok _ _ _ tt _)) by done. rewrite Hs.
  unfold mbind at 1, IO_bind at 1, lift at 1. rewrite (prepareAuthorize_other _ _ _ _ _ _ _ Ht Hl).
  apply emit_bind_eq. intros v1. unfold mbind at 1, IO_bind at 1, lift at 1. rewrite Hl0. cbn [wrap].
  apply emit_bind_eq. intros v2. unfold mbind at 1, IO_bind at 1, try_, call_Sign. unfold mbind at 1, IO_bind at 1.
  cbn [perform]. edestruct Hsign as (v3 & ->).
  apply emit_bind_eq. intros v4. apply emit_bind_eq. intros v5. by eexists.
Qed.

Lemma detachedSigner_Sign address sig pre payload w :
  ∃ w', signer_Sign (detachedSigner address sig) Background pre payload w = (Ok sig, w').
Proof. eexists. reflexivity. Qed.
End detached.

(** ** The envelopes *)
Section envelopes.

Lemma orFailIO_run m w : orFailIO m w = (Ok (orFail (m w).1), (m w).2).
Proof. unfold orFailIO, mbind, IO_bind, try_. by destruct (m w). Qed.

Lemma orFailJSIO_run m w : orFailJSIO m w = (Ok (orFailJS (m w).1), (m w).2).
Proof. unfold orFailJSIO, mbind, IO_bind, try_. by destruct (m w). Qed.

Lemma orFailIO_OK m w c w' : orFailIO m w = (Ok c, w') → OK c = true → m w = (Ok c, w').
Proof. rewrite orFailIO_run. destruct (m w) as [[c'|e] w1]; intros [= <- <-]; [done|]. by intros. Qed.

(** An error's kind is that of the first listed sentinel it wraps, and "ERROR"
    exactly when it wraps none. *)
Theorem kindOf_spec e :
  (kindOf e = "ERROR" ∧ ∀ s k, (s, k) ∈ kinds → errors_Is e s = false) ∨
  (∃ l1 s l2, kinds = l1 ++ (s, kindOf e) :: l2 ∧ errors_Is e s = true ∧
     ∀ s' k, (s', k) ∈ l1 → errors_Is e s' = false) ∧ kindOf e ≠ "ERROR".
Proof.
  assert (Hne : Forall (λ p : sentinel * string, p.2 ≠ "ERROR") kinds)
    by (apply (bool_decide_unpack _); vm_compute; exact I).
  unfold kindOf. induction kinds as [|[s k] ks IH]; cbn [kindAmong].
  - left. split; [done|]. intros s k Hin. by apply not_elem_of_nil in Hin.
  - apply Forall_cons in Hne as [Hk Hks]. destruct (errors_Is e s) eqn:Hs.
    + right. split; [|exact Hk]. exists [], s, ks. split; [done|]. split; [done|].
      intros s' k' Hin. by apply not_elem_of_nil in Hin.
    + destruct (IH Hks) as [[-> Hall]|[(l1 & s1 & l2 & Hks1 & Hs1 & Hl1) Hn]]; [left|right].
      * split; [done|]. intros s' k' [[= -> ->]|Hin]%elem_of_cons; [done|by eapply Hall].
      * split; [|done]. exists ((s, k) :: l1), s1, l2. split; [by rewrite Hks1 at 1|]. split; [done|].
        intros s' k' [[= -> ->]|Hin]%elem_of_cons; [done|by eapply Hl1].
Qed.

Definition commaFree (s : string) : bool := negb (existsb (Ascii.eqb ",") (list_ascii_of_string s)).

Lemma SplitComma_free s : commaFree s = true → SplitComma s = [s].
Proof.
  unfold commaFree. induction s as [|c s IH]; [done|]. cbn [list_ascii_of_string existsb SplitComma].
  rewrite (Ascii.eqb_sym "," c). destruct (Ascii.eqb c ","); [done|]. intros Hs. by rewrite (IH Hs).
Qed.
End envelopes.

Section bindings_theorems.
Context `{SDK} `{!SDKLaws} `{CliLib} `{BindingLib}.

Lemma same_target_for address opts s s' :
  (address ≠ "" ∧ opts = options address) ∨ signer_Address s = signer_Address s' → same_target opts s s'.
Proof.
  unfold same_target, targetOf. intros [[Ha ->]|Ha]; [|by rewrite Ha].
  unfold options. by rewrite (proj2 (String.eqb_neq _ _) Ha).
Qed.

Lemma Preimage_passphrase entry v pass pre : Preimage entry v pass = Ok pre → requirePassphrase pass = Ok tt.
Proof.
  unfold Preimage, requirePassphrase. intros Hp. inv_ok. destruct (String.eqb_spec pass "") as [->|]; [|done].
  by vm_compute in Hx.
Qed.

(** C36. Signing elsewhere is signing here: where the C interface signs an entry
    with a seed, its preimage call gives the payload the seed's signer signed,
    and writing that signature with its write call, for the same address,
    returns the same entry. *)
Theorem detached_signing e v net seed for_ w c w' :
  SoroauthAuthorizeWithSeed e v net seed for_ w = (Ok c, w') → OK c = true →
  ∃ entry kp, c_decodeEntry (goString e) = Ok entry ∧ bindSeed "c abi" (goString seed) = Ok kp ∧
    (is_source entry = false →
     ∃ pre raw sig w1 w2, MarshalBinary pre = Ok raw ∧
       SoroauthPreimage e v net =
         okPreimage (WebAuthn.EncodeToString WebAuthn.StdEncoding raw) (hex_EncodeToString (sha256_Sum256 raw)) ∧
       signer_Sign (NewEd25519Signer (Some kp)) Background pre (sha256_Sum256 raw) w1 = (Ok sig, w2) ∧
       ∀ text, SafeUnmarshal_ScVal (goString text) = Ok sig →
         goString for_ ≠ "" ∨ topLevelAddress "c abi" entry = Ok (kp_Address kp) →
         ∀ w3, ∃ w4, SoroauthWriteSignature e v net for_ text w3 = (Ok c, w4)).
Proof.
  intros Hr HOK. apply (orFailIO_OK _ _ _ _ Hr) in HOK. clear Hr. unfold bindAuthorize in HOK. inv_io.
  match goal with Hd : c_decodeEntry _ = Ok ?x, Hk : bindSeed _ _ = Ok ?y |- _ => exists x, y; rename Hd into Hdec, x into entry, y into kp end.
  split; [done|]. split; [done|]. intros Hs.
  match goal with Ha : AuthorizeEntry _ _ _ _ _ _ _ = _ |- _ =>
    destruct (AuthorizeEntry_detached _ _ _ _ _ _ _ _ Ha Hs) as (pre & payload & sig & w1 & w2 & Hpre & Hpay & Hsig & Hany) end.
  pose proof Hpay as Hraw. unfold Payload in Hraw. inv_ok.
  match goal with Hm : MarshalBinary pre = Ok ?r |- _ => rename r into raw; rename Hm into Hmar end.
  exists pre, raw, sig, w1, w2. split; [done|]. split.
  { unfold SoroauthPreimage. rewrite Hdec. cbn [mbind result_bind]. rewrite (Preimage_passphrase _ _ _ _ Hpre), Hpre.
    cbn [mbind result_bind]. rewrite Hmar. cbn [wrap mbind result_bind]. by rewrite Hpay. }
  split; [done|]. intros text Ht Hfor w3. unfold SoroauthWriteSignature. rewrite orFailIO_run. 
  set (target := if String.eqb (goString for_) "" then kp_Address kp else goString for_).
  assert (Htarget : targetOr "c abi" (goString for_) entry = Ok target).
  { unfold targetOr, target. destruct (String.eqb_spec (goString for_) "") as [Hz|Hz]; [|done]. by destruct Hfor. }
  edestruct (Hany (detachedSigner target sig)) as [w4 Hw4].
  { apply (same_target_for (goString for_)). unfold target. destruct (String.eqb_spec (goString for_) ""); [by right|by left]. }
  { intros w5. apply detachedSigner_Sign. }
  exists w4. unfold bindAuthorize, mbind, IO_bind, lift. rewrite Hdec, Ht. cbn [wrap]. rewrite Htarget, Hw4. by rewrite Hl.
Qed.

(** ** One library behind both *)

(** Both a result, and the same, or both an error. *)
Definition alike {A} (x y : result A) : Prop :=
  match x, y with Ok a, Ok b => a = b | Err _, Err _ => True | _, _ => False end.

Definition c_field (c : cResult) (name : string) : string :=
  if String.eqb name "preimageXdr" then PreimageXDR c
  else if String.eqb name "payloadHex" then PayloadHex c
  else if String.eqb name "entryB64" then EntryB64 c
  else "".

(** An envelope of each interface that say the same. *)
Definition same_answer (c : cResult) (j : option jsResult) : Prop :=
  match j with
  | Some (ok fields) => OK c = true ∧ Forall (λ f, c_field c f.1 = f.2) fields
  | Some (fail _) => OK c = false
  | None => False
  end.

Lemma bindEncode_alike e : alike (bindEncode "wasm" e) (bindEncode "c abi" e).
Proof. unfold bindEncode. by destruct (MarshalBinary e). Qed.

Lemma bindSeed_alike s : alike (bindSeed "wasm" s) (bindSeed "c abi" s).
Proof.
  unfold bindSeed. destruct (decodeHex _) as [b|]; [|done]. cbn [wrap mbind result_bind].
  destruct (Nat.eqb _ 32); [|done]. cbn [negb refuse mbind result_bind]. by destruct (keypair_FromRawSeed b).
Qed.

Lemma topLevelAddress_alike e : alike (topLevelAddress "wasm" e) (topLevelAddress "c abi" e).
Proof.
  unfold topLevelAddress. repeat case_match; try done;
    match goal with |- context [of_option ?o _] => destruct o end; cbn; try done; by destruct (FormatAddress _).
Qed.

Lemma targetOr_alike f e : alike (targetOr "wasm" f e) (targetOr "c abi" f e).
Proof. unfold targetOr. destruct (String.eqb f ""); [apply topLevelAddress_alike|done]. Qed.

Lemma bindAuthorize_alike entry s v p f w :
  alike (bindAuthorize "wasm" entry s v p f w).1 (bindAuthorize "c abi" entry s v p f w).1 ∧
  (bindAuthorize "wasm" entry s v p f w).2 = (bindAuthorize "c abi" entry s v p f w).2.
Proof.
  unfold bindAuthorize, mbind, IO_bind, lift. destruct (AuthorizeEntry _ _ _ _ _ _ w) as [[x|e] w1]; [|done].
  split; [apply bindEncode_alike|done].
Qed.

Lemma authorize_same entry s v t p f w :
  let c := (encoded ← bindAuthorize "c abi" entry s v p f; mret (okEntry encoded)) w in
  let j := wasmAuthorize entry s (JSNumber v t) p f w in
  same_answer (orFail c.1) (orFailJS j.1) ∧ c.2 = j.2.
Proof.
  cbv zeta. unfold wasmAuthorize. cbn [js_Int]. destruct (bindAuthorize_alike entry s v p f w) as [Ha Hw].
  unfold mbind, IO_bind. destruct (bindAuthorize "wasm" entry s v p f w) as [[x|x] w1],
    (bindAuthorize "c abi" entry s v p f w) as [[y|y] w2]; cbn in *; subst; try done.
  split; [|done]. split; [done|]. by repeat constructor.
Qed.

(** Two computations that begin with results that are [alike]. *)
Lemma lift_alike {A} (x y : result A) (k : A → IO cResult) (l : A → IO (option jsResult)) w :
  alike x y →
  (∀ a, x = Ok a → let c := k a w in let j := l a w in same_answer (orFail c.1) (orFailJS j.1) ∧ c.2 = j.2) →
  let c := (a ← lift y; k a) w in let j := (a ← lift x; l a) w in
  same_answer (orFail c.1) (orFailJS j.1) ∧ c.2 = j.2.
Proof.
  intros Ha Hk. unfold mbind, IO_bind, lift. destruct x as [x|], y as [y|]; cbn in Ha; try done.
  subst y. by apply Hk.
Qed.

(** The two interfaces are one library: where both decoders read an entry as the
    same, and are given the same arguments, every call both have answers alike,
    and does alike. *)
Theorem wasm_agrees e entry v t net :
  SafeUnmarshalEntry e = Ok entry → c_decodeEntry e = Ok entry →
  same_answer (SoroauthPreimage (Some e) v (Some net)) (preimage [JSString e; JSNumber v t; JSString net]) ∧
  (∀ p, same_answer (SoroauthPayload (Some p)) (payload [JSString p])) ∧
  (∀ seed for_ w, ∃ c j w', SoroauthAuthorizeWithSeed (Some e) v (Some net) (Some seed) (Some for_) w = (Ok c, w') ∧
     authorizeWithSeed [JSString e; JSNumber v t; JSString net; JSString seed; JSString for_] w = (Ok j, w') ∧
     same_answer c j) ∧
  (∀ for_ sig w, ∃ c j w', SoroauthWriteSignature (Some e) v (Some net) (Some for_) (Some sig) w = (Ok c, w') ∧
     wasm_writeSignature [JSString e; JSNumber v t; JSString net; JSString for_; JSString sig] w = (Ok j, w') ∧
     same_answer c j).
Proof.
  intros He Hc. assert (Hw : wasm_decodeEntry e = Ok entry) by (unfold wasm_decodeEntry; by rewrite He).
  split; [|split; [|split]].
  - unfold SoroauthPreimage, preimage. cbn [js_String js_Int goString default from_option id]. rewrite Hc, Hw.
    cbn [mbind result_bind]. destruct (Preimage entry (wrap_u32 v) net) as [pre|] eqn:Hp.
    + rewrite (Preimage_passphrase _ _ _ _ Hp). cbn [mbind result_bind]. destruct (MarshalBinary pre) as [raw|]; [|done].
      cbn [wrap mbind result_bind]. destruct (Payload pre); [|done]. split; [done|]. by repeat constructor.
    + by destruct (requirePassphrase net) as [[]|].
  - intros p. unfold SoroauthPayload, payload. cbn [js_String goString default from_option id].
    destruct (SafeUnmarshal_Preimage p) as [pre|]; [|done]. cbn [wrap mbind result_bind].
    destruct (Payload pre); [|done]. split; [done|]. by repeat constructor.
  - intros seed for_ w. unfold SoroauthAuthorizeWithSeed, authorizeWithSeed. do 3 eexists.
    rewrite orFailIO_run, orFailJSIO_run. split; [reflexivity|]. cbn [js_String goString default from_option id].
    rewrite Hc, Hw.
    edestruct (lift_alike (Ok entry) (Ok entry)) as [Hs Hw']; [done| |split; [f_equal; symmetry; exact Hw'|exact Hs]].
    intros a _. apply (lift_alike _ _ _ _ w (bindSeed_alike seed)). intros kp _. apply authorize_same.
  - intros for_ sig w. unfold SoroauthWriteSignature, wasm_writeSignature. do 3 eexists.
    rewrite orFailIO_run, orFailJSIO_run. split; [reflexivity|]. cbn [js_String goString default from_option id].
    rewrite Hc, Hw.
    edestruct (lift_alike (Ok entry) (Ok entry)) as [Hs Hw']; [done| |split; [f_equal; symmetry; exact Hw'|exact Hs]].
    intros a _. eapply lift_alike; [by destruct (SafeUnmarshal_ScVal sig)|]. intros sg _.
    apply (lift_alike _ _ _ _ w (targetOr_alike for_ a)). intros tg _. apply authorize_same.
Qed.

(** A list of one seed is the seed, where the call names an address or the entry
    has one. *)
Theorem AuthorizeWithSeeds_single e v net seed for_ w :
  commaFree (goString seed) = true →
  (∀ entry, c_decodeEntry (goString e) = Ok entry →
     goString for_ ≠ "" ∨ is_ok (topLevelAddress "c abi" entry) = true) →
  SoroauthAuthorizeWithSeeds e v net seed for_ w = SoroauthAuthorizeWithSeed e v net seed for_ w.
Proof.
  intros Hs Ht. unfold SoroauthAuthorizeWithSeeds, SoroauthAuthorizeWithSeed. rewrite !orFailIO_run, SplitComma_free by done.
  unfold mbind, IO_bind, lift. destruct (c_decodeEntry (goString e)) as [entry|]; [|done].
  cbn. destruct (bindSeed "c abi" (goString seed)) as [kp|]; [|done]. cbn. unfold targetOr.
  destruct (String.eqb_spec (goString for_) "") as [Hz|]; [|done].
  destruct (Ht entry eq_refl) as [|Hok]; [done|]. by destruct (topLevelAddress "c abi" entry).
Qed.
End bindings_theorems.

(** ** The interfaces at work *)
#[export] Instance ModelBindingLib : BindingLib := {|
  SafeUnmarshal_Preimage s := raw ← decodeBase64 s; UnmarshalBinary raw;
  SafeUnmarshal_ScVal s := raw ← decodeBase64 s; UnmarshalBinary raw;
  keypair_FromRawSeed seed := Ok (ex_keypair (default x00 (head seed)));
  json_MarshalInfo info := Ok (Info_Address info);
  json_MarshalFindings findings := Ok (String.concat "," (map Risk.Code findings))
|}.

Definition ex_b64 {T} `{XdrCodec T} (v : T) : string := match MarshalBase64 v with Ok s => s | Err _ => "" end.
Definition ex_bind_entry : string := ex_b64 (ex_v2 "a" 0 ScvVoid).
Definition ex_seed_hex : string := hex_EncodeToString (ex_key "a").
Definition ex_seed_call (e : string) (v : Z) (for_ : string) : cResult :=
  match (SoroauthAuthorizeWithSeed (Some e) v (Some ex_network) (Some ex_seed_hex) (Some for_) initial_world).1 with
  | Ok c => c
  | Err e => failResult e
  end.
Definition ex_bind_sig : string :=
  ex_b64 (scVec [accountSignature (ex_key "a")
    (match Preimage (ex_v2 "a" 0 ScvVoid) 1000 ex_network with
     | Ok pre => match Payload pre with Ok p => p ++ ex_key "a" | Err _ => [] end
     | Err _ => []
     end)]).

Lemma ex_seed_run : ∃ w', SoroauthAuthorizeWithSeed (Some ex_bind_entry) 1000 (Some ex_network) (Some ex_seed_hex) None
  initial_world = (Ok (ex_seed_call ex_bind_entry 1000 ""), w').
Proof. eexists. vm_compute. reflexivity. Qed.

Lemma detached_signing_witness : ∃ entry kp,
  c_decodeEntry ex_bind_entry = Ok entry ∧ bindSeed "c abi" ex_seed_hex = Ok kp ∧
  (is_source entry = false →
   ∃ pre raw sig w1 w2, MarshalBinary pre = Ok raw ∧
     SoroauthPreimage (Some ex_bind_entry) 1000 (Some ex_network) =
       okPreimage (WebAuthn.EncodeToString WebAuthn.StdEncoding raw) (hex_EncodeToString (sha256_Sum256 raw)) ∧
     signer_Sign (NewEd25519Signer (Some kp)) Background pre (sha256_Sum256 raw) w1 = (Ok sig, w2) ∧
     ∀ text, SafeUnmarshal_ScVal (goString text) = Ok sig →
       goString None ≠ "" ∨ topLevelAddress "c abi" entry = Ok (kp_Address kp) →
       ∀ w3, ∃ w4, SoroauthWriteSignature (Some ex_bind_entry) 1000 (Some ex_network) None text w3 =
         (Ok (ex_seed_call ex_bind_entry 1000 ""), w4)).
Proof.
  destruct ex_seed_run as [w' Hr].
  exact (detached_signing (Some ex_bind_entry) 1000 (Some ex_network) (Some ex_seed_hex) None _ _ _ Hr ltac:(vm_compute; reflexivity)).
Defined.

(** The signature above, written by the other call. *)
Example ex_write_signature :
  (SoroauthWriteSignature (Some ex_bind_entry) 1000 (Some ex_network) None (Some ex_bind_sig) initial_world).1 =
    Ok (ex_seed_call ex_bind_entry 1000 "") ∧ OK (ex_seed_call ex_bind_entry 1000 "") = true ∧
  SoroauthPayload (Some (PreimageXDR (SoroauthPreimage (Some ex_bind_entry) 1000 (Some ex_network)))) =
    okPayload (PayloadHex (SoroauthPreimage (Some ex_bind_entry) 1000 (Some ex_network))).
Proof. vm_compute. by split_and!. Qed.

Lemma wasm_agrees_witness : ∃ c j w',
  SoroauthAuthorizeWithSeed (Some ex_bind_entry) 1000 (Some ex_network) (Some ex_seed_hex) (Some "") initial_world =
    (Ok c, w') ∧
  authorizeWithSeed [JSString ex_bind_entry; JSNumber 1000 "1000"; JSString ex_network; JSString ex_seed_hex; JSString ""]
    initial_world = (Ok j, w') ∧ same_answer c j.
Proof.
  destruct (wasm_agrees ex_bind_entry (ex_v2 "a" 0 ScvVoid) 1000 "1000" ex_network) as (_ & _ & Ha & _);
    [vm_compute; reflexivity..|]. apply Ha.
Defined.

Lemma AuthorizeWithSeeds_single_witness :
  SoroauthAuthorizeWithSeeds (Some ex_bind_entry) 1000 (Some ex_network) (Some ex_seed_hex) (Some (ex_text "a")) initial_world =
  SoroauthAuthorizeWithSeed (Some ex_bind_entry) 1000 (Some ex_network) (Some ex_seed_hex) (Some (ex_text "a")) initial_world.
Proof.
  apply AuthorizeWithSeeds_single; [vm_compute; reflexivity|]. intros entry _. left. by vm_compute.
Defined.

(** A ledger past 32 bits is cut to 32 bits and signed; a source account's entry
    is passed through by the call for one seed and refused by the one for a list;
    a text where a number is expected ends the program. *)
Example ex_bindings :
  ex_seed_call ex_bind_entry (2 ^ 32 + 1000) "" = ex_seed_call ex_bind_entry 1000 "" ∧
  Kind (ex_seed_call ex_bind_entry 0 "") = "INVALID_EXPIRATION" ∧
  Kind (ex_seed_call ex_bind_entry 1000 (ex_text "b")) = "NO_MATCHING_CREDENTIAL_NODE" ∧
  OK (ex_seed_call (ex_b64 ex_source) 1000 "") = true ∧
  (match (SoroauthAuthorizeWithSeeds (Some (ex_b64 ex_source)) 1000 (Some ex_network) (Some ex_seed_hex) None initial_world).1 with
   | Ok c => OK c
   | Err _ => true
   end) = false ∧
  preimage [JSString ex_bind_entry; JSString "1000"; JSString ex_network] = None ∧
  SplitComma "a,,b" = ["a"; ""; "b"] ∧ SplitComma "" = [""].
Proof. vm_compute. by split_and!. Qed.

(** Two keys of one account through the list. *)
Example ex_two_seeds :
  (match (SoroauthAuthorizeWithSeeds (Some ex_bind_entry) 1000 (Some ex_network)
            (Some (ex_seed_hex +:+ ", " +:+ hex_EncodeToString (ex_key "b"))) None initial_world).1 with
   | Ok c => (OK c, Kind c)
   | Err _ => (false, "")
   end) = (true, "") ∧
  InfoJSON (SoroauthInspect (Some ex_bind_entry)) = ex_text "a" ∧
  OK (SoroauthAnalyze (Some ex_bind_entry) (-1)) = true ∧ OK (SoroauthRenderTree None) = false.
Proof. vm_compute. by split_and!. Qed.
