(* ===== verification/VerifyService.v ===== *)
(** * VerifyService: offline verification over HTTP (server/handler.go,
    metrics.go, main.go)

    The service answers POST /verify with the reports of [VerifyEntry], bounds
    the requests in flight and counts what it answered.  [serve] is what a
    request gets at once, [answerVerify] what one with a slot gets;
    [service_step] interleaves the steps of any number of requests, each
    counter a step of its own.  [verifyHandler_answers] says what an answer
    means, [service_bounded] what holds however requests interleave, for a
    configuration [loadConfig] accepts.

    HTTP is a request record; a response's body is the value that
    encoding/json writes.  encoding/json's reader, the address and duration
    parsers of net and time, the SDK's decoders and names of networks are the
    class [ServiceLib].  Logging and durations are left out; a histogram is
    the number of its observations. *)
From Stdlib Require Import ZArith Lia Strings.Byte String Ascii.
From stdpp Require Import base list strings gmap pretty relations.
From S2P Require Import Prelude Encoding Errors Xdr ModelSDK Runtime Examples Address Limits Arm Preimage Nodes.
From S2P Require Import Signers WebAuthn Remote Vault Inspect Verify Authorize Batch Envelope RpcFlow.

Open Scope string_scope. Open Scope nat_scope. Open Scope list_scope.

(** ** Parameters *)
Record verifyRequest := mkVerifyRequest {
  Request_Entry : string;
  Request_Network : string;
  Request_ValidUntilLedger : Z
}.

Class ServiceLib := {
  json_UnmarshalVerify : bytes → result verifyRequest;
  TestNetworkPassphrase : string;
  FutureNetworkPassphrase : string;
  PublicNetworkPassphrase : string;
  SafeUnmarshal_Envelope : string → result TransactionEnvelope;
  SafeUnmarshal_Entry : string → result SorobanAuthorizationEntry;
  SplitHost : string → result string;            (* the host of [net.SplitHostPort] *)
  IsLoopbackIP : string → bool;                  (* [net.ParseIP] parses it, as a loopback address *)
  ParseDuration : string → result Z
}.

(** ** Counters (server/metrics.go) *)
Record serviceMetrics := mkMetrics {
  requests : gmap (string * string * string) nat;
  requestDuration : gmap string nat;
  verdicts : gmap (string * string) nat;
  refusals : gmap string nat;
  signerDuration : gmap (string * string) nat
}.

Definition newServiceMetrics : serviceMetrics := mkMetrics ∅ ∅ ∅ ∅ ∅.

(** The count of a series, and one more. *)
Definition count `{Countable K} (m : gmap K nat) (k : K) : nat := default 0 (m !! k).
Definition Inc `{Countable K} (k : K) (m : gmap K nat) : gmap K nat := <[k := S (count m k)]> m.

Definition clamp (allowed : list string) (value fallback : string) : string :=
  if bool_decide (value ∈ allowed) then value else fallback.

Definition routeVerify : string := "/verify".
Definition routeHealthz : string := "/healthz".
Definition routeUnmatched : string := "unmatched".

Definition labelMethods : list string := ["GET"; "POST"; "PUT"; "DELETE"; "PATCH"; "HEAD"; "OPTIONS"].
Definition labelRoutes : list string := [routeVerify; routeHealthz; routeUnmatched].
Definition labelStatuses : list string := ["200"; "400"; "401"; "404"; "405"; "413"; "500"; "503"].
Definition labelCredentialTypes : list string :=
  [CredentialTypeSourceAccount; CredentialTypeAddress; CredentialTypeAddressV2;
   CredentialTypeAddressWithDelegates; "unknown"].
Definition labelVerdicts : list string :=
  [verdict_string VerdictVerified; verdict_string VerdictUnsigned; verdict_string VerdictInvalid;
   verdict_string VerdictCannotCheck; "unknown"].
Definition labelRefusalReasons : list string :=
  ["invalid"; "cannot_check"; "unsigned"; "expiration_mismatch"; "unauthorized"; "method_not_allowed";
   "too_large"; "overloaded"; "internal"; "bad_request"; "not_found"; "other"].
Definition labelPhases : list string := ["preimage"; "sign"; "post_sign"; "write"; "unknown"].

Definition recordRequest (method route : string) (status : Z) (m : serviceMetrics) : serviceMetrics :=
  let method := clamp labelMethods method "other" in
  let route := clamp labelRoutes route routeUnmatched in
  let st := clamp labelStatuses (FormatInt status) "other" in
  mkMetrics (Inc (method, route, st) (requests m)) (Inc route (requestDuration m))
    (verdicts m) (refusals m) (signerDuration m).

Definition recordVerdict (credentialType verdict : string) (m : serviceMetrics) : serviceMetrics :=
  let credentialType := clamp labelCredentialTypes credentialType "unknown" in
  let verdict := clamp labelVerdicts verdict "unknown" in
  mkMetrics (requests m) (requestDuration m) (Inc (credentialType, verdict) (verdicts m)) (refusals m)
    (signerDuration m).

Definition recordRefusal (reason : string) (m : serviceMetrics) : serviceMetrics :=
  mkMetrics (requests m) (requestDuration m) (verdicts m)
    (Inc (clamp labelRefusalReasons reason "other") (refusals m)) (signerDuration m).

Definition recordRefusalReason (status : Z) : serviceMetrics → serviceMetrics :=
  recordRefusal
    (if (status =? 401)%Z then "unauthorized"
     else if (status =? 405)%Z then "method_not_allowed"
     else if (status =? 413)%Z then "too_large"
     else if (status =? 503)%Z then "overloaded"
     else if (status =? 500)%Z then "internal"
     else if (status =? 404)%Z then "not_found"
     else if (status =? 400)%Z then "bad_request"
     else "other").

Definition phase_text (p : HookPhase) : string :=
  match p with
  | HookPhasePreimage => "preimage" | HookPhaseSign => "sign"
  | HookPhasePostSign => "post_sign" | HookPhaseWrite => "write"
  end.

Definition observeSigner (phase credentialType : string) (m : serviceMetrics) : serviceMetrics :=
  let phase := clamp labelPhases phase "unknown" in
  let credentialType := clamp labelCredentialTypes credentialType "unknown" in
  mkMetrics (requests m) (requestDuration m) (verdicts m) (refusals m)
    (Inc (phase, credentialType) (signerDuration m)).

(** [hookMetrics.Event] *)
Definition hookMetrics_Event (e : HookEvent) (m : serviceMetrics) : serviceMetrics :=
  match Phase e with
  | HookPhaseSign | HookPhasePostSign =>
      if (Duration e >? 0)%Z then observeSigner (phase_text (Phase e)) (CredentialType e) m else m
  | _ => m
  end.

(** ** Configuration (server/main.go) *)
Definition Second : Z := 1000000000.

Record config := mkConfig {
  Addr : string;
  MetricsAddr : string;
  AuthToken : string;
  ReadTimeout : Z;
  ReadHeaderTimeout : Z;
  WriteTimeout : Z;
  IdleTimeout : Z;
  ShutdownTimeout : Z;
  MaxBodyBytes : Z;
  MaxConcurrentRequests : Z
}.

Definition defaultConfig : config :=
  mkConfig "127.0.0.1:8080" "127.0.0.1:9090" "" (5 * Second) (5 * Second) (10 * Second) (120 * Second)
    (10 * Second) (2 ^ 20) 64.

Definition valueOr (v fallback : string) : string := if String.eqb v "" then fallback else v.

Definition lower (c : ascii) : ascii :=
  let n := N_of_ascii c in if ((65 <=? n) && (n <=? 90))%N then ascii_of_N (n + 32) else c.
Fixpoint ToLower (s : string) : string :=
  match s with EmptyString => EmptyString | String c s => String (lower c) (ToLower s) end.

(** [strings.Trim(host, "[]")] *)
Definition bracket (c : ascii) : bool := Ascii.eqb c "[" || Ascii.eqb c "]".
Fixpoint trimBracketsLeft (s : string) : string :=
  match s with String c r => if bracket c then trimBracketsLeft r else s | EmptyString => s end.
Fixpoint trimBracketsRight (s : string) : string :=
  match s with
  | EmptyString => EmptyString
  | String c r => match trimBracketsRight r with
                  | EmptyString => if bracket c then EmptyString else String c EmptyString
                  | r' => String c r'
                  end
  end.

(** [strings.EqualFold] against "localhost": of the letters of that word only
    s is also the fold of a rune outside ASCII, U+017F (C5 BF in UTF-8). *)
Fixpoint foldLocal (s : string) : string :=
  match s with
  | String "197" (String "191" r) => String "s" (foldLocal r)
  | String c r => String (lower c) (foldLocal r)
  | EmptyString => EmptyString
  end.

(** [strconv.ParseInt(raw, 10, 64)] and [strconv.Atoi]: the two errors. *)
Definition unsigned (raw : string) : string :=
  match raw with String "-" r | String "+" r => r | _ => raw end.
Definition parseInt (func raw : string) : result Z :=
  match ParseInt64 raw with
  | Some n => Ok n
  | None => Err (EText ("strconv." +:+ func +:+ ": parsing " +:+ quoted raw +:+ ": " +:+
              match parseDigits (unsigned raw) with
               | Some _ => "value out of range" | None => "invalid syntax" end))
  end.

Section configuration.
Context `{ServiceLib}.

Definition durationEnv (getenv : string → string) (key : string) (fallback : Z) : result Z :=
  if String.eqb (getenv key) "" then Ok fallback else wrap key (ParseDuration (getenv key)).

Definition int64Env (getenv : string → string) (key : string) (fallback : Z) : result Z :=
  if String.eqb (getenv key) "" then Ok fallback
  else wrap key (parseInt "ParseInt" (getenv key)).
(** [int] has 64 bits. *)
Definition intEnv (getenv : string → string) (key : string) (fallback : Z) : result Z :=
  if String.eqb (getenv key) "" then Ok fallback
  else wrap key (parseInt "Atoi" (getenv key)).

Definition isLoopbackAddr (addr : string) : bool :=
  let host := match SplitHost addr with Ok host => host | Err _ => addr end in
  let host := trimBracketsLeft (trimBracketsRight host) in
  if String.eqb host "" then false
  else if String.eqb (foldLocal host) "localhost" then true
  else IsLoopbackIP host.

Definition loadConfig (getenv : string → string) : result config :=
  let d := defaultConfig in
  readTimeout ← durationEnv getenv "READ_TIMEOUT" (ReadTimeout d);
  readHeaderTimeout ← durationEnv getenv "READ_HEADER_TIMEOUT" (ReadHeaderTimeout d);
  writeTimeout ← durationEnv getenv "WRITE_TIMEOUT" (WriteTimeout d);
  idleTimeout ← durationEnv getenv "IDLE_TIMEOUT" (IdleTimeout d);
  maxBodyBytes ← int64Env getenv "MAX_BODY_BYTES" (MaxBodyBytes d);
  maxConcurrentRequests ← intEnv getenv "MAX_CONCURRENT_REQUESTS" (MaxConcurrentRequests d);
  _ ← refuse (maxBodyBytes <=? 0)%Z (EText ("MAX_BODY_BYTES must be positive, got " +:+ FormatInt maxBodyBytes));
  _ ← refuse (maxConcurrentRequests <=? 0)%Z
        (EText ("MAX_CONCURRENT_REQUESTS must be positive, got " +:+ FormatInt maxConcurrentRequests));
  let addr := valueOr (getenv "ADDR") (Addr d) in
  _ ← refuse (negb (isLoopbackAddr addr) && String.eqb (getenv "AUTH_TOKEN") "")
        (EText ("refusing to bind " +:+ quoted addr +:+ " without AUTH_TOKEN: set a bearer token, or bind a " +:+
                "loopback address such as 127.0.0.1:8080"));
  Ok (mkConfig addr (valueOr (getenv "METRICS_ADDR") (MetricsAddr d)) (getenv "AUTH_TOKEN")
        readTimeout readHeaderTimeout writeTimeout idleTimeout (ShutdownTimeout d)
        maxBodyBytes maxConcurrentRequests).

Definition metricsDisabled (addr : string) : bool :=
  bool_decide (ToLower (TrimSpace addr) ∈ [""; "off"; "none"; "-"]).
End configuration.

(** ** Requests and responses (server/handler.go) *)
Record httpRequest := mkHttpRequest {
  Request_Method : string;
  Request_Path : string;
  Request_Authorization : string;
  Request_Body : bytes;
  Request_ReadError : option error       (* what reading the body ends with, if not its end *)
}.

Record nodeOutput := mkNodeOutput {
  nodeOutput_Address : string;
  nodeOutput_Verdict : string;
  nodeOutput_Reason : string
}.

Record entryOutput := mkEntryOutput {
  out_OperationIndex : nat;
  out_EntryIndex : nat;
  out_CredentialType : string;
  out_AddressBound : bool;
  out_Address : string;
  out_ValidUntilLedger : Z;
  out_Verified : bool;
  out_Nodes : list nodeOutput;
  out_Note : string
}.

Inductive responseBody :=
| BodyError (msg : string)
| BodyEntry (o : entryOutput)
| BodyEntries (os : list entryOutput)
| BodyHealth
| BodyText (text : string).

Record response := mkResponse { status : Z; body : responseBody }.

(** What a handler does to the counters, in order. *)
Inductive observation :=
| OVerdict (credentialType verdict : string)
| ORefusal (reason : string)
| OStatus (status : Z)
| ORequest (method route : string) (status : Z).

Definition observe (o : observation) : serviceMetrics → serviceMetrics :=
  match o with
  | OVerdict credentialType verdict => recordVerdict credentialType verdict
  | ORefusal reason => recordRefusal reason
  | OStatus status => recordRefusalReason status
  | ORequest method route status => recordRequest method route status
  end.

(** A refusal of the handler: the status and the message of [writeError]. *)
Definition refusal : Type := Z * string.
Definition writeError (r : refusal) : list observation * response :=
  ([OStatus r.1], mkResponse r.1 (BodyError r.2)).

Definition routeLabel (path : string) : string :=
  if String.eqb path "/verify" then routeVerify
  else if String.eqb path "/healthz" then routeHealthz
  else routeUnmatched.

Definition authorized (cfg : config) (r : httpRequest) : bool :=
  String.eqb (AuthToken cfg) "" ||
  String.eqb (Request_Authorization r) ("Bearer " +:+ AuthToken cfg).

Definition newEntryOutput (report : VerificationReport) : entryOutput :=
  mkEntryOutput 0 0 (Report_CredentialType report) (AddressBound report) (Report_Address report)
    (Report_ValidUntilLedger report) (Verified report)
    (map (λ node, mkNodeOutput (Verdict_Address node) (verdict_string (Verdict node)) (Reason node))
       (Report_Nodes report))
    (Note report).

Definition recordVerdicts (report : VerificationReport) : list observation :=
  flat_map (λ node,
    OVerdict (Report_CredentialType report) (verdict_string (Verdict node)) ::
    match Verdict node with
    | VerdictVerified => []
    | VerdictInvalid => [ORefusal "invalid"]
    | VerdictCannotCheck => [ORefusal "cannot_check"]
    | VerdictUnsigned => [ORefusal "unsigned"]
    end) (Report_Nodes report).

Definition healthzHandler (r : httpRequest) : list observation * response :=
  if negb (String.eqb (Request_Method r) "GET") then writeError (405%Z, "method not allowed")
  else ([], mkResponse 200 BodyHealth).

(** The part of [verifyHandler] before the body, with [taken] slots in use:
    its refusal, or a slot. *)
Definition admit_request (cfg : config) (taken : nat) (r : httpRequest) : option refusal :=
  if negb (String.eqb (Request_Method r) "POST") then Some (405%Z, "method not allowed")
  else if negb (authorized cfg r) then Some (401%Z, "missing or invalid bearer token")
  else if (MaxConcurrentRequests cfg <=? Z.of_nat taken)%Z
       then Some (503%Z, "service is at its concurrent-request limit; retry shortly")
  else None.

(** [io.ReadAll] of an [http.MaxBytesReader]. *)
Definition readBody (cfg : config) (r : httpRequest) : bytes + refusal :=
  if (MaxBodyBytes cfg <? Z.of_nat (length (Request_Body r)))%Z
  then inr (413%Z, "request body exceeds the " +:+ FormatInt (MaxBodyBytes cfg) +:+ "-byte limit")
  else match Request_ReadError r with
       | Some e => inr (400%Z, "reading request body: " +:+ Error e)
       | None => inl (Request_Body r)
       end.

Inductive decodedInput :=
| InputEntry (entry : SorobanAuthorizationEntry)
| InputEnvelope (envelope : TransactionEnvelope).

Definition isEnvelope (i : decodedInput) : bool :=
  match i with InputEnvelope _ => true | InputEntry _ => false end.

Definition bind_sum {A B E} (x : A + E) (f : A → B + E) : B + E :=
  match x with inl a => f a | inr e => inr e end.
Definition orBadRequest {A} (msg : error → string) (r : result A) : A + refusal :=
  match r with Ok a => inl a | Err e => inr (400%Z, msg e) end.
Local Notation "x <- a ; b" := (bind_sum a (λ x, b)) (at level 100, a at next level, right associativity).

Section service.
Context `{SDK} `{EnvelopeSDK} `{ServiceLib}.

Definition resolveNetwork (value : string) : result string :=
  if String.eqb value "" then
    Err (EText "network is required (testnet, futurenet, public, or a literal passphrase)")
  else if String.eqb value "testnet" then Ok TestNetworkPassphrase
  else if String.eqb value "futurenet" then Ok FutureNetworkPassphrase
  else if String.eqb value "public" then Ok PublicNetworkPassphrase
  else Ok value.

(** [%w] of the nil error of an envelope with no entries prints "%!w(<nil>)". *)
Definition decodeEntryOrEnvelope (value : string) : result decodedInput :=
  let entry := wrap "decoding entry" (SafeUnmarshal_Entry value) in
  match SafeUnmarshal_Envelope value with
  | Err _ => e ← entry; Ok (InputEntry e)
  | Ok envelope =>
      match EnvelopeEntries envelope, entry with
      | Ok (_ :: _), _ => Ok (InputEnvelope envelope)
      | Ok [], Err _ => Err (EText "decoding entry as an envelope: %!w(<nil>)")
      | Err e, Err _ => Err (EWrap "decoding entry as an envelope" e)
      | _, Ok e => Ok (InputEntry e)
      end
  end.

Definition locatedEntries (input : decodedInput) : list EnvelopeEntry + refusal :=
  match input with
  | InputEntry entry => inl [mkEnvelopeEntry 0 0 entry]
  | InputEnvelope envelope =>
      orBadRequest (λ e, "envelope has no authorization entries: " +:+ Error e) (EnvelopeEntries envelope)
  end.

(** The loop over the entries. *)
Fixpoint verifyItems (req : verifyRequest) (passphrase : string) (envelope : bool)
    (items : list EnvelopeEntry) : list observation * (list entryOutput + refusal) :=
  match items with
  | [] => ([], inl [])
  | item :: items =>
      match (VerifyEntry (located_Entry item) passphrase initial_world).1 with
      | Err e => ([], inr (400%Z, "verification failed: " +:+ Error e))
      | Ok report =>
          if negb (Request_ValidUntilLedger req =? 0)%Z &&
             negb (Report_ValidUntilLedger report =? Request_ValidUntilLedger req)%Z
          then ([ORefusal "expiration_mismatch"],
                inr (400%Z, "entry carries expiration " +:+ FormatInt (Report_ValidUntilLedger report) +:+
                            ", but valid_until_ledger says " +:+ FormatInt (Request_ValidUntilLedger req)))
          else
            let out := newEntryOutput report in
            let out := if envelope
              then mkEntryOutput (OperationIndex item + 1) (EntryIndex item + 1) (out_CredentialType out)
                     (out_AddressBound out) (out_Address out) (out_ValidUntilLedger out)
                     (out_Verified out) (out_Nodes out) (out_Note out)
              else out in
            let '(obs, rest) := verifyItems req passphrase envelope items in
            (recordVerdicts report ++ obs, bind_sum rest (λ outputs, inl (out :: outputs)))
      end
  end.

(** [verifyHandler] up to its loop. *)
Definition parseRequest (cfg : config) (r : httpRequest)
    : verifyRequest * string * decodedInput * list EnvelopeEntry + refusal :=
  body <- readBody cfg r;
  req <- orBadRequest (λ e, "parsing JSON: " +:+ Error e) (json_UnmarshalVerify body);
  _ <- (if String.eqb (Request_Entry req) "" then inr (400%Z, "entry is required") else inl tt);
  passphrase <- orBadRequest Error (resolveNetwork (Request_Network req));
  input <- orBadRequest Error (decodeEntryOrEnvelope (Request_Entry req));
  items <- locatedEntries input;
  inl (req, passphrase, input, items).

(** The rest of [verifyHandler], holding a slot. *)
Definition answerVerify (cfg : config) (r : httpRequest) : list observation * response :=
  match parseRequest cfg r with
  | inr e => writeError e
  | inl (req, passphrase, input, items) =>
      match verifyItems req passphrase (isEnvelope input) items with
      | (obs, inr e) => (obs ++ (writeError e).1, (writeError e).2)
      | (obs, inl outputs) =>
          (obs, mkResponse 200
                  (match input, outputs with
                   | InputEntry _, o :: _ => BodyEntry o
                   | _, _ => BodyEntries outputs
                   end))
      end
  end.

(** ** The process (handler, withRecovery, withRequestLogging)

    Every request is somewhere in its handler: in [verifyHandler] with its
    slot, past it with the counters it has yet to move and its response, or in
    a call that will panic, with the counters it moves before. *)
Inductive phase :=
| Reading (r : httpRequest)
| Panicking (r : httpRequest) (obs : list observation)
| Counting (r : httpRequest) (slot : bool) (obs : list observation) (resp : response).

Record service := mkService {
  srv_metrics : serviceMetrics;
  sem : nat;
  inflight : gmap nat phase
}.
Definition newServer : service := mkService newServiceMetrics 0 ∅.

Definition at_phase (s : service) (id : nat) (p : phase) : service :=
  mkService (srv_metrics s) (sem s) (<[id := p]> (inflight s)).

(** The mux; redirects of paths that are not clean are left out. *)
Definition serve (cfg : config) (taken : nat) (r : httpRequest) : option (list observation * response) :=
  if String.eqb (Request_Path r) "/healthz" then Some (healthzHandler r)
  else if String.eqb (Request_Path r) "/verify" then writeError <$> admit_request cfg taken r
  else Some ([], mkResponse 404 (BodyText "404 page not found")).

(** What [verifyHandler] counts before a panic: nothing, or the verdicts of the
    entries its loop went through. *)
Definition panics_after (cfg : config) (r : httpRequest) (obs : list observation) : Prop :=
  obs = [] ∨ ∃ req passphrase input items k outputs,
    parseRequest cfg r = inl (req, passphrase, input, items) ∧
    verifyItems req passphrase (isEnvelope input) (take k items) = (obs, inl outputs).

(** One step of one request; a handler that panics frees its slot and
    [withRecovery] counts and answers for it. *)
Inductive service_step (cfg : config) : service → service → Prop :=
| step_admit s id r :
    inflight s !! id = None → serve cfg (sem s) r = None →
    service_step cfg s (mkService (srv_metrics s) (S (sem s)) (<[id := Reading r]> (inflight s)))
| step_serve s id r obs resp :
    inflight s !! id = None → serve cfg (sem s) r = Some (obs, resp) →
    service_step cfg s (at_phase s id (Counting r false obs resp))
| step_answer s id r obs resp :
    inflight s !! id = Some (Reading r) → answerVerify cfg r = (obs, resp) →
    service_step cfg s (at_phase s id (Counting r true obs resp))
| step_panic s id r obs :
    inflight s !! id = Some (Reading r) → panics_after cfg r obs →
    service_step cfg s (at_phase s id (Panicking r obs))
| step_count_panicking s id r o obs :
    inflight s !! id = Some (Panicking r (o :: obs)) →
    service_step cfg s (mkService (observe o (srv_metrics s)) (sem s) (<[id := Panicking r obs]> (inflight s)))
| step_recover s id r :
    inflight s !! id = Some (Panicking r []) →
    service_step cfg s (mkService (srv_metrics s) (pred (sem s)) (<[id := Counting r false
      [ORefusal "internal"] (mkResponse 500 (BodyError "internal server error"))]> (inflight s)))
| step_count s id r slot o obs resp :
    inflight s !! id = Some (Counting r slot (o :: obs) resp) →
    service_step cfg s (mkService (observe o (srv_metrics s)) (sem s)
      (<[id := Counting r slot obs resp]> (inflight s)))
| step_release s id r resp :
    inflight s !! id = Some (Counting r true [] resp) →
    service_step cfg s (mkService (srv_metrics s) (pred (sem s))
      (<[id := Counting r false [] resp]> (inflight s)))
| step_log s id r resp :
    inflight s !! id = Some (Counting r false [] resp) →
    service_step cfg s (mkService
      (observe (ORequest (Request_Method r) (routeLabel (Request_Path r)) (status resp)) (srv_metrics s))
      (sem s) (delete id (inflight s))).
End service.

(** ** Specification *)
(** The refusal a verdict is counted as. *)
Definition refusalOf (v : VerifyVerdict) : option string :=
  match v with
  | VerdictVerified => None
  | VerdictInvalid => Some "invalid"
  | VerdictCannotCheck => Some "cannot_check"
  | VerdictUnsigned => Some "unsigned"
  end.

(** The nodes given a verdict, over the credential types. *)
Definition verdictCount (m : serviceMetrics) (v : VerifyVerdict) : nat :=
  sum_list_with (λ t, count (verdicts m) (t, verdict_string v)) labelCredentialTypes.
Definition refusalCount (m : serviceMetrics) (reason : string) : nat := count (refusals m) reason.

Definition holdsSlot (p : phase) : nat :=
  match p with Reading _ | Panicking _ _ | Counting _ true _ _ => 1 | Counting _ false _ _ => 0 end.

(** ** Sums over the requests in flight *)
Section totals.
Context (f : phase → nat).
Definition total (m : gmap nat phase) : nat := map_fold (λ _ p n, f p + n) 0 m.

Lemma total_delete m i p : m !! i = Some p → total m = f p + total (delete i m).
Proof.
  intros Hi. unfold total. apply (map_fold_delete_L (λ _ p n, f p + n)); [|done].
  intros. lia.
Qed.
Lemma total_new m i p : m !! i = None → total (<[i := p]> m) = f p + total m.
Proof.
  intros Hi. rewrite (total_delete _ i p) by apply lookup_insert_eq. by rewrite delete_insert_id.
Qed.
Lemma total_update m i p q : m !! i = Some p → total (<[i := q]> m) + f p = total m + f q.
Proof.
  intros Hi. rewrite (total_delete (<[i := q]> m) i q) by apply lookup_insert_eq.
  rewrite (total_delete m i p) by done. rewrite delete_insert_eq. lia.
Qed.
Lemma total_le_pointwise (g : phase → nat) m :
  (∀ i p, m !! i = Some p → g p <= f p) → map_fold (λ _ p n, g p + n) 0 m <= total m.
Proof.
  unfold total. induction m as [|i p m Hi IH] using map_ind; intros Hle.
  - by rewrite !map_fold_empty.
  - rewrite !map_fold_insert_L by (done || (intros; lia)).
    specialize (Hle i p (lookup_insert_eq _ _ _)) as Hp.
    enough (map_fold (λ _ p n, g p + n) 0 m <= map_fold (λ _ p n, f p + n) 0 m) by lia.
    apply IH. intros j q Hj. apply (Hle j). rewrite lookup_insert_ne; [done|]. by intros ->; congruence.
Qed.
End totals.

(** ** Counters and the observations still to come *)
Definition oneVerdict (v : VerifyVerdict) (o : observation) : nat :=
  match o with OVerdict _ t => if String.eqb t (verdict_string v) then 1 else 0 | _ => 0 end.
Definition oneRefusal (reason : string) (o : observation) : nat :=
  match o with ORefusal t => if String.eqb t reason then 1 else 0 | _ => 0 end.

Definition pending (f : observation → nat) (p : phase) : nat :=
  match p with Reading _ => 0 | Panicking _ obs | Counting _ _ obs _ => sum_list_with f obs end.

Lemma count_Inc `{Countable K} (m : gmap K nat) k k' :
  count (Inc k m) k' = if decide (k = k') then S (count m k') else count m k'.
Proof.
  unfold count at 1, Inc. case_decide as Hk.
  - by rewrite Hk, lookup_insert_eq.
  - by rewrite lookup_insert_ne.
Qed.

Lemma clamp_elem allowed v fb : fb ∈ allowed → clamp allowed v fb ∈ allowed.
Proof. intros Hf. unfold clamp. by case_bool_decide. Qed.
Lemma clamp_id allowed v fb : v ∈ allowed → clamp allowed v fb = v.
Proof. intros Hv. unfold clamp. by rewrite bool_decide_eq_true_2. Qed.

Lemma verdict_string_inj v v' : verdict_string v = verdict_string v' → v = v'.
Proof. by destruct v, v'. Qed.

Lemma sum_count_Inc (m : gmap (string * string) nat) (ts : list string) t x y :
  NoDup ts → t ∈ ts →
  sum_list_with (λ u, count (Inc (t, x) m) (u, y)) ts =
  (if decide (x = y) then 1 else 0) + sum_list_with (λ u, count m (u, y)) ts.
Proof.
  intros Hnd. induction Hnd as [|u ts Hu Hnd IH]; [by intros ?%not_elem_of_nil|].
  intros Ht%elem_of_cons. cbn [sum_list_with]. rewrite count_Inc.
  destruct (decide (t = u)) as [->|Hne].
  - assert (sum_list_with (λ v, count (Inc (u, x) m) (v, y)) ts = sum_list_with (λ v, count m (v, y)) ts) as ->.
    { clear -Hu. induction ts as [|w ts IH]; [done|]. apply not_elem_of_cons in Hu as [? ?].
      cbn. rewrite count_Inc, decide_False by congruence. by rewrite IH. }
    destruct (decide (x = y)) as [->|?]; [by rewrite decide_True|].
    rewrite decide_False by congruence. lia.
  - rewrite decide_False by congruence. rewrite IH by (by destruct Ht). lia.
Qed.

Lemma labelCredentialTypes_NoDup : NoDup labelCredentialTypes.
Proof. apply (bool_decide_unpack _). vm_compute. exact I. Qed.

Lemma verdictCount_observe m o v :
  verdictCount (observe o m) v = oneVerdict v o + verdictCount m v.
Proof.
  destruct o as [t x|r|st|me ro st]; try done.
  unfold verdictCount, observe, recordVerdict. cbn [verdicts].
  rewrite sum_count_Inc.
  2: exact labelCredentialTypes_NoDup.
  2: { apply clamp_elem. apply (bool_decide_unpack _). vm_compute. exact I. }
  f_equal. unfold oneVerdict, clamp.
  destruct (String.eqb_spec x (verdict_string v)) as [->|Hne].
  - rewrite bool_decide_eq_true_2, decide_True; [done..|]. unfold labelVerdicts. destruct v; set_solver.
  - case_bool_decide; [by rewrite decide_False|]. rewrite decide_False; [done|]. by destruct v.
Qed.

Lemma refusalCount_observe m o v reason :
  refusalOf v = Some reason →
  refusalCount (observe o m) reason = oneRefusal reason o + refusalCount m reason.
Proof.
  assert (Hrec : ∀ r, refusalCount (recordRefusal r m) reason =
    (if decide (clamp labelRefusalReasons r "other" = reason) then 1 else 0) + refusalCount m reason).
  { intros r. unfold refusalCount, recordRefusal. cbn [refusals]. rewrite count_Inc.
    by case_decide. }
  intros Hv. destruct o as [t x|r|st|me ro st]; try done; cbn [observe oneRefusal].
  - rewrite Hrec. unfold clamp. destruct (String.eqb_spec r reason) as [->|Hne].
    + rewrite bool_decide_eq_true_2, decide_True; [done..|].
      unfold labelRefusalReasons. destruct v; try discriminate Hv; injection Hv as <-; set_solver.
    + case_bool_decide; [by rewrite decide_False|]. rewrite decide_False; [done|].
      by destruct v; try discriminate Hv; injection Hv as <-.
  - unfold recordRefusalReason. rewrite Hrec.
    rewrite decide_False; [done|]. destruct v; try discriminate Hv; injection Hv as <-; repeat case_match; done.
Qed.

(** Each verdict other than verified is followed by its refusal. *)
Inductive paired : list observation → Prop :=
| paired_nil : paired []
| paired_refused t v reason l :
    refusalOf v = Some reason → paired l →
    paired (OVerdict t (verdict_string v) :: ORefusal reason :: l)
| paired_verified t l : paired l → paired (OVerdict t (verdict_string VerdictVerified) :: l)
| paired_status st l : paired l → paired (OStatus st :: l)
| paired_other reason l : (∀ v, refusalOf v ≠ Some reason) → paired l → paired (ORefusal reason :: l).

Definition late (obs : list observation) : Prop :=
  paired obs ∨ ∃ v reason l, refusalOf v = Some reason ∧ obs = ORefusal reason :: l ∧ paired l.

Lemma late_tail o obs : late (o :: obs) → late obs.
Proof.
  intros [Hp|(v & reason & l & _ & [= -> ->] & Hl)]; [|by left].
  inversion Hp; subst; try (by left). right. by eauto 6.
Qed.

Lemma paired_balanced obs v reason :
  paired obs → refusalOf v = Some reason →
  sum_list_with (oneVerdict v) obs = sum_list_with (oneRefusal reason) obs.
Proof.
  intros Hp Hv. induction Hp as [|t v' reason' l Hv' _ IH|t l _ IH|st l _ IH|reason' l Hr _ IH];
    cbn [sum_list_with]; [done|..]; rewrite IH; try done.
  - enough (oneVerdict v (OVerdict t (verdict_string v')) = oneRefusal reason (ORefusal reason')) as ->
      by (cbn; lia).
    destruct v; try discriminate Hv; destruct v'; try discriminate Hv'; by injection Hv as <-; injection Hv' as <-.
  - by destruct v.
  - cbn. destruct (String.eqb_spec reason' reason) as [->|?]; [|done]. by destruct (Hr v).
Qed.

Lemma late_balanced obs v reason :
  late obs → refusalOf v = Some reason →
  sum_list_with (oneVerdict v) obs <= sum_list_with (oneRefusal reason) obs.
Proof.
  intros [Hp|(v' & reason' & l & _ & -> & Hp)] Hv.
  - by rewrite (paired_balanced _ _ _ Hp Hv).
  - cbn [sum_list_with]. rewrite (paired_balanced _ _ _ Hp Hv). cbn [oneVerdict]. lia.
Qed.

Lemma paired_app l k : paired l → paired k → paired (l ++ k).
Proof. induction 1; intros; cbn; [done|constructor; auto..]. Qed.

Lemma recordVerdicts_paired report : paired (recordVerdicts report).
Proof.
  unfold recordVerdicts. induction (Report_Nodes report) as [|n ns IH]; [constructor|]. cbn.
  destruct (Verdict n) eqn:Hv; cbn; try (apply paired_verified; exact IH).
  all: change (?a :: ?b ++ flat_map ?f ns) with ((a :: b) ++ flat_map f ns).
  - by apply (paired_refused _ VerdictUnsigned).
  - by apply (paired_refused _ VerdictInvalid).
  - by apply (paired_refused _ VerdictCannotCheck).
Qed.

Section service_theorems.
Context `{SDK} `{!SDKLaws} `{EnvelopeSDK} `{ServiceLib}.

Lemma VerifyEntry_now e pass : (VerifyEntry e pass initial_world).1 = verifyEntry e pass.
Proof. reflexivity. Qed.

(** What the loop over the entries does: an answer for every entry, each
    read off its report. *)
Definition answers (req : verifyRequest) (pass : string) (item : EnvelopeEntry) (out : entryOutput) : Prop :=
  ∃ report, verifyEntry (located_Entry item) pass = Ok report ∧
    (Request_ValidUntilLedger req = 0%Z ∨ Report_ValidUntilLedger report = Request_ValidUntilLedger req) ∧
    out_Verified out = Verified report ∧
    out_ValidUntilLedger out = Report_ValidUntilLedger report ∧
    out_Nodes out = out_Nodes (newEntryOutput report).

Lemma verifyItems_paired req pass env items : paired (verifyItems req pass env items).1.
Proof.
  induction items as [|item items IH]; [constructor|]. cbn [verifyItems].
  destruct (VerifyEntry _ _ _).1 as [report|e]; [|constructor].
  destruct (_ && _). { apply paired_other; [by intros []|constructor]. }
  destruct (verifyItems req pass env items) as [obs rest]. cbn [fst] in *.
  apply paired_app; [apply recordVerdicts_paired|done].
Qed.

Lemma verifyItems_status req pass env items e : (verifyItems req pass env items).2 = inr e → e.1 = 400%Z.
Proof.
  induction items as [|item items IH]; [done|]. cbn [verifyItems].
  destruct (VerifyEntry _ _ _).1 as [report|err]; [|by intros [= <-]].
  destruct (_ && _); [by intros [= <-]|].
  destruct (verifyItems req pass env items) as [obs [outs|e']]; [done|]. intros [= <-]. by apply IH.
Qed.

Lemma verifyItems_Ok req pass env items outs :
  (verifyItems req pass env items).2 = inl outs → Forall2 (answers req pass) items outs.
Proof.
  revert outs. induction items as [|item items IH]; intros outs; cbn [verifyItems]; [by intros [= <-]|].
  rewrite VerifyEntry_now. destruct (verifyEntry (located_Entry item) pass) as [report|err] eqn:Hr; [|done].
  destruct (_ && _) eqn:Hv; [done|].
  destruct (verifyItems req pass env items) as [obs [os|e']]; [|done]. intros [= <-].
  constructor; [|by apply IH]. exists report. split; [done|]. split; [|by destruct env].
  apply andb_false_iff in Hv as [Hz%negb_false_iff%Z.eqb_eq|Hz%negb_false_iff%Z.eqb_eq]; auto.
Qed.

Lemma answerVerify_paired cfg r : paired (answerVerify cfg r).1.
Proof.
  unfold answerVerify. destruct (parseRequest cfg r) as [[[[req pass] input] items]|e].
  - pose proof (verifyItems_paired req pass (isEnvelope input) items) as Hp.
    destruct (verifyItems _ _ _ _) as [obs [outs|e]]; [done|]. cbn [fst] in *.
    apply paired_app; [done|]. apply paired_status, paired_nil.
  - apply paired_status, paired_nil.
Qed.

Lemma panics_after_paired cfg r obs : panics_after cfg r obs → paired obs.
Proof.
  intros [->|(req & pass & input & items & k & outs & _ & Hv)]; [constructor|].
  pose proof (verifyItems_paired req pass (isEnvelope input) (take k items)) as Hp. by rewrite Hv in Hp.
Qed.

Lemma serve_paired cfg n r obs resp : serve cfg n r = Some (obs, resp) → paired obs.
Proof.
  unfold serve, healthzHandler, writeError. intros Hs.
  repeat case_match; try done; try (injection Hs as <- <-; repeat constructor).
  destruct (admit_request cfg n r); [|done]. injection Hs as <- <-. repeat constructor.
Qed.

Lemma serve_admits cfg n r :
  serve cfg n r = None →
  Request_Path r = "/verify" ∧ Request_Method r = "POST" ∧ authorized cfg r = true ∧
  (Z.of_nat n < MaxConcurrentRequests cfg)%Z.
Proof.
  unfold serve, admit_request. intros Hs.
  destruct (Request_Path r =? "/healthz")%string; [done|].
  destruct (String.eqb_spec (Request_Path r) "/verify"); [|done].
  destruct (String.eqb_spec (Request_Method r) "POST"); [|done].
  destruct (authorized cfg r); [|done]. destruct (Z.leb_spec (MaxConcurrentRequests cfg) (Z.of_nat n)); [done|].
  auto.
Qed.

(** ** The invariant *)
Definition phase_ok (cfg : config) (p : phase) : Prop :=
  match p with
  | Reading r => Request_Path r = "/verify" ∧ Request_Method r = "POST" ∧ authorized cfg r = true
  | Panicking _ obs | Counting _ _ obs _ => late obs
  end.

Record service_inv (cfg : config) (s : service) : Prop := {
  inv_slots : sem s = total holdsSlot (inflight s);
  inv_bound : (Z.of_nat (sem s) <= MaxConcurrentRequests cfg)%Z;
  inv_phases : map_Forall (λ _, phase_ok cfg) (inflight s);
  inv_counts v reason : refusalOf v = Some reason →
    refusalCount (srv_metrics s) reason + total (pending (oneRefusal reason)) (inflight s) =
    verdictCount (srv_metrics s) v + total (pending (oneVerdict v)) (inflight s)
}.

(** A step that moves one request from [p] to [q] and the counters along. *)
Lemma service_inv_move cfg s id p q m n :
  service_inv cfg s → inflight s !! id = Some p → phase_ok cfg q →
  n + holdsSlot p = sem s + holdsSlot q → n <= sem s →
  (∀ v reason, refusalOf v = Some reason →
     refusalCount m reason + pending (oneRefusal reason) q + verdictCount (srv_metrics s) v + pending (oneVerdict v) p =
     verdictCount m v + pending (oneVerdict v) q + refusalCount (srv_metrics s) reason + pending (oneRefusal reason) p) →
  service_inv cfg (mkService m n (<[id := q]> (inflight s))).
Proof.
  intros [Hs Hb Hp Hc] Hid Hq Hn Hle Hm. split; cbn [srv_metrics sem inflight].
  - pose proof (total_update holdsSlot _ _ _ q Hid). lia.
  - lia.
  - by apply map_Forall_insert_2.
  - intros v reason Hv. specialize (Hc v reason Hv). specialize (Hm v reason Hv).
    pose proof (total_update (pending (oneRefusal reason)) _ _ _ q Hid).
    pose proof (total_update (pending (oneVerdict v)) _ _ _ q Hid). lia.
Qed.

Lemma service_inv_new cfg s id q n :
  service_inv cfg s → inflight s !! id = None → phase_ok cfg q →
  n = sem s + holdsSlot q → (Z.of_nat n <= MaxConcurrentRequests cfg)%Z →
  (∀ v reason, refusalOf v = Some reason → pending (oneRefusal reason) q = pending (oneVerdict v) q) →
  service_inv cfg (mkService (srv_metrics s) n (<[id := q]> (inflight s))).
Proof.
  intros [Hs Hb Hp Hc] Hid Hq -> Hle Hm. split; cbn [srv_metrics sem inflight].
  - rewrite total_new by done. lia.
  - done.
  - by apply map_Forall_insert_2.
  - intros v reason Hv. specialize (Hc v reason Hv). specialize (Hm v reason Hv).
    rewrite !total_new by done. lia.
Qed.

Lemma slot_taken s id p : sem s = total holdsSlot (inflight s) → inflight s !! id = Some p →
  holdsSlot p <= sem s.
Proof. intros -> Hid. rewrite (total_delete _ _ _ _ Hid). lia. Qed.

Lemma service_step_inv cfg s s' : service_inv cfg s → service_step cfg s s' → service_inv cfg s'.
Proof.
  intros Hi Hstep. pose proof Hi as [Hs Hb Hp Hc].
  destruct Hstep as [s id r Hid Hr|s id r obs resp Hid Hr|s id r obs resp Hid Hr|s id r obs Hid Hr
    |s id r o obs Hid|s id r Hid|s id r slot o obs resp Hid|s id r resp Hid|s id r resp Hid];
    try pose proof (slot_taken _ _ _ Hs Hid) as Hsl; cbn [holdsSlot] in *.
  - apply serve_admits in Hr as (? & ? & ? & ?).
    apply service_inv_new; [done..|by repeat split|cbn; lia|lia|done].
  - apply service_inv_new; [done..|left; by eapply serve_paired|cbn; lia|lia|].
    intros v reason Hv. symmetry. apply paired_balanced; [by eapply serve_paired|done].
  - pose proof (answerVerify_paired cfg r) as Hpa. rewrite Hr in Hpa.
    apply (service_inv_move cfg s id _ (Counting r true obs resp)) with (2 := Hid); [done|by left|cbn; lia|lia|].
    intros v reason Hv. cbn. rewrite (paired_balanced obs v reason) by done. lia.
  - apply panics_after_paired in Hr.
    apply (service_inv_move cfg s id _ (Panicking r obs)) with (2 := Hid); [done|by left|cbn; lia|lia|].
    intros v reason Hv. cbn. rewrite (paired_balanced obs v reason) by done. lia.
  - pose proof (map_Forall_lookup_1 _ _ _ _ Hp Hid) as Hl. cbn in Hl.
    apply (service_inv_move cfg s id _ _ _ _ Hi Hid); [by eapply late_tail|done..|].
    intros v reason Hv. cbn [pending sum_list_with].
    rewrite verdictCount_observe, (refusalCount_observe _ _ _ _ Hv). lia.
  - apply (service_inv_move cfg s id _ _ _ _ Hi Hid); cbn; [|lia|lia|].
    + left. apply paired_other; [by intros []|constructor].
    + intros v reason Hv. destruct v; try discriminate Hv; injection Hv as <-; cbn; lia.
  - pose proof (map_Forall_lookup_1 _ _ _ _ Hp Hid) as Hl. cbn in Hl.
    apply (service_inv_move cfg s id _ _ _ _ Hi Hid); [by eapply late_tail|done..|].
    intros v reason Hv. cbn [pending sum_list_with].
    rewrite verdictCount_observe, (refusalCount_observe _ _ _ _ Hv). lia.
  - apply (service_inv_move cfg s id _ _ _ _ Hi Hid); cbn; [left; constructor|lia..|].
    intros v reason Hv. cbn. lia.
  - split; cbn [srv_metrics sem inflight].
    + rewrite Hs, (total_delete _ _ _ _ Hid). done.
    + done.
    + by apply map_Forall_delete.
    + intros v reason Hv. rewrite verdictCount_observe, (refusalCount_observe _ _ _ _ Hv).
      specialize (Hc v reason Hv). rewrite !(total_delete _ _ _ _ Hid) in Hc. cbn in *. lia.
Qed.

Lemma newServer_inv cfg : (0 <= MaxConcurrentRequests cfg)%Z → service_inv cfg newServer.
Proof.
  intros Hc. split; [done|done|apply map_Forall_empty|].
  intros v reason Hv. destruct v; try discriminate Hv; by injection Hv as <-.
Qed.

Lemma loadConfig_Ok getenv cfg : loadConfig getenv = Ok cfg →
  (0 < MaxBodyBytes cfg)%Z ∧ (0 < MaxConcurrentRequests cfg)%Z ∧
  AuthToken cfg = getenv "AUTH_TOKEN" ∧
  (isLoopbackAddr (Addr cfg) = true ∨ AuthToken cfg ≠ "").
Proof.
  unfold loadConfig. intros Hl. inv_ok. cbn.
  split; [lia|]. split; [lia|]. split; [done|].
  destruct (isLoopbackAddr _); [by left|]. right. intros E. by rewrite E in *.
Qed.

Lemma service_run_inv cfg s : (0 <= MaxConcurrentRequests cfg)%Z →
  rtc (service_step cfg) newServer s → service_inv cfg s.
Proof.
  intros Hc Hr. refine (rtc_ind_r (R := service_step cfg) (service_inv cfg) newServer _ _ s Hr); [by apply newServer_inv|].
  intros y z _ Hyz Hy. by eapply service_step_inv.
Qed.

(** C26. Whatever requests arrive and however their handlers interleave, fail
    or panic, a process started by [loadConfig] keeps its bounds: the slots
    taken are the requests in [verifyHandler], never more than the configured
    number, each a POST to /verify that carries the token (or the service
    listens on loopback without one); and the refusals counted for a verdict
    never exceed the verdicts counted, with equality when nothing is in
    flight. *)
Theorem service_bounded getenv cfg s :
  loadConfig getenv = Ok cfg → rtc (service_step cfg) newServer s →
  sem s = total holdsSlot (inflight s) ∧
  (Z.of_nat (sem s) <= MaxConcurrentRequests cfg)%Z ∧
  (∀ id r, inflight s !! id = Some (Reading r) →
     Request_Path r = "/verify" ∧ Request_Method r = "POST" ∧
     (Request_Authorization r = "Bearer " +:+ getenv "AUTH_TOKEN" ∨
      getenv "AUTH_TOKEN" = "" ∧ isLoopbackAddr (Addr cfg) = true)) ∧
  (∀ v reason, refusalOf v = Some reason →
     refusalCount (srv_metrics s) reason <= verdictCount (srv_metrics s) v ∧
     (inflight s = ∅ → refusalCount (srv_metrics s) reason = verdictCount (srv_metrics s) v)).
Proof.
  intros (_ & Hpos & Htok & Hsafe)%loadConfig_Ok Hrun.
  apply service_run_inv in Hrun as [Hs Hb Hp Hc]; [|lia].
  split; [done|]. split; [done|]. split.
  - intros id r Hid. apply (map_Forall_lookup_1 _ _ _ _ Hp) in Hid as (? & ? & Ha).
    split; [done|]. split; [done|]. unfold authorized in Ha. rewrite Htok in *.
    apply orb_true_iff in Ha as [He%String.eqb_eq|He%String.eqb_eq]; [right|by left].
    split; [done|]. by destruct Hsafe.
  - intros v reason Hv. specialize (Hc v reason Hv). split.
    + pose proof (total_le_pointwise (pending (oneRefusal reason)) (pending (oneVerdict v)) (inflight s)) as Hle.
      unfold total in Hc, Hle. enough (∀ i p, inflight s !! i = Some p →
        pending (oneVerdict v) p <= pending (oneRefusal reason) p) by (specialize (Hle ltac:(done)); lia).
      intros i [r|r obs|r slot obs resp] Hi; [done|..]; (apply late_balanced; [|done]).
      all: exact (map_Forall_lookup_1 _ _ _ _ Hp Hi).
    + intros He. rewrite He in Hc. unfold total in Hc. rewrite !map_fold_empty in Hc. lia.
Qed.

(** ** One answer *)
Lemma orBadRequest_inl {A} msg (r : result A) a : orBadRequest msg r = inl a ↔ r = Ok a.
Proof. destruct r; cbn; naive_solver. Qed.

Lemma parseRequest_inl cfg r req pass input items :
  parseRequest cfg r = inl (req, pass, input, items) →
  (Z.of_nat (length (Request_Body r)) <= MaxBodyBytes cfg)%Z ∧ Request_ReadError r = None ∧
  json_UnmarshalVerify (Request_Body r) = Ok req ∧ Request_Entry req ≠ "" ∧
  resolveNetwork (Request_Network req) = Ok pass ∧
  decodeEntryOrEnvelope (Request_Entry req) = Ok input ∧ locatedEntries input = inl items.
Proof.
  unfold parseRequest, readBody. intros Hp.
  destruct (Z.ltb_spec (MaxBodyBytes cfg) (Z.of_nat (length (Request_Body r)))); [done|].
  destruct (Request_ReadError r); [done|]. cbn [bind_sum] in Hp.
  destruct (json_UnmarshalVerify (Request_Body r)) as [q|]; [|done]. cbn [orBadRequest bind_sum] in Hp.
  destruct (String.eqb_spec (Request_Entry q) ""); [done|]. cbn [bind_sum] in Hp.
  destruct (resolveNetwork (Request_Network q)) as [p|] eqn:Hn; [|done]. cbn [orBadRequest bind_sum] in Hp.
  destruct (decodeEntryOrEnvelope (Request_Entry q)) as [i|] eqn:Hd; [|done]. cbn [orBadRequest bind_sum] in Hp.
  destruct (locatedEntries i) as [its|] eqn:Hl; [|done]. injection Hp as -> -> -> ->. by repeat split.
Qed.

Lemma parseRequest_inr cfg r e : parseRequest cfg r = inr e → e.1 = 400%Z ∨ e.1 = 413%Z.
Proof.
  unfold parseRequest, readBody, locatedEntries, orBadRequest. intros Hp.
  repeat (case_match; cbn [bind_sum] in Hp); simplify_eq; auto.
Qed.

Lemma verified_nodes e pass report : verifyEntry e pass = Ok report → is_source e = false →
  Verified report = true →
  ∃ payload, own_payload e pass = Ok payload ∧
    ∀ n, n ∈ flatNodes e → node_verdict n payload = VerdictVerified.
Proof.
  intros Hr Hs Hv. apply verifyEntry_Ok in Hr as (a & payload & _ & Hp & _ & _ & _ & _ & Hf); [|done].
  exists payload. split; [done|]. intros n (i & Hn)%list_elem_of_lookup.
  destruct (Forall2_lookup_l _ _ _ _ _ Hf Hn) as (v & Hi & _ & <-).
  unfold Verified in Hv. rewrite forallb_forall in Hv.
  eapply bool_decide_eq_true, Hv, list_elem_of_In, list_elem_of_lookup_2, Hi.
Qed.

(** A request with a slot is answered with a report only when its
    body is within the limit, parses, names a network, decodes, and every
    entry of it has a report that agrees with the expiration asserted: one
    output per entry, in order, read off that report, and an output that says
    verified has every node of its entry verified over the entry's own
    payload.  Every other answer is an error body with status 400 or 413. *)
Theorem verifyHandler_answers cfg r obs resp :
  answerVerify cfg r = (obs, resp) →
  (status resp = 200%Z ∧ ∃ req pass input items outs,
     (Z.of_nat (length (Request_Body r)) <= MaxBodyBytes cfg)%Z ∧
     json_UnmarshalVerify (Request_Body r) = Ok req ∧
     resolveNetwork (Request_Network req) = Ok pass ∧
     decodeEntryOrEnvelope (Request_Entry req) = Ok input ∧ locatedEntries input = inl items ∧
     Forall2 (answers req pass) items outs ∧
     (∀ i item out, items !! i = Some item → outs !! i = Some out →
        out_Verified out = true → is_source (located_Entry item) = false →
        ∃ payload, own_payload (located_Entry item) pass = Ok payload ∧
          ∀ n, n ∈ flatNodes (located_Entry item) → node_verdict n payload = VerdictVerified) ∧
     body resp = match input, outs with InputEntry _, o :: _ => BodyEntry o | _, _ => BodyEntries outs end)
  ∨ (status resp = 400%Z ∨ status resp = 413%Z) ∧ (∃ msg, body resp = BodyError msg).
Proof.
  unfold answerVerify, writeError. intros Ha.
  destruct (parseRequest cfg r) as [[[[req pass] input] items]|e] eqn:Hp.
  2:{ injection Ha as <- <-. right. split; [by eapply parseRequest_inr|by eexists]. }
  apply parseRequest_inl in Hp as (? & ? & ? & ? & ? & ? & ?).
  destruct (verifyItems req pass (isEnvelope input) items) as [o [outs|e]] eqn:Hv.
  2:{ injection Ha as <- <-. right. split; [left|by eexists].
      eapply (verifyItems_status req pass _ items). by rewrite Hv. }
  injection Ha as <- <-. left. split; [done|].
  assert (Hf : Forall2 (answers req pass) items outs)
    by (apply (verifyItems_Ok req pass (isEnvelope input)); by rewrite Hv).
  exists req, pass, input, items, outs. do 6 (split; [done|]). split; [|done].
  intros i item out Hi Hout Hver Hsrc.
  destruct (Forall2_lookup_lr _ _ _ _ _ _ Hf Hi Hout) as (report & Hrep & _ & Hvr & _).
  eapply verified_nodes; [done..|]. by rewrite <-Hvr.
Qed.
End service_theorems.

(** ** A concrete service *)
#[local] Instance ExServiceLib : ServiceLib := {|
  json_UnmarshalVerify b :=
    if bytes_Equal b (bytes_of_string "{}") then Ok (mkVerifyRequest "" "" 0)
    else if bytes_Equal b (bytes_of_string "tree") then Ok (mkVerifyRequest "tree" ex_network 0)
    else Err (EText "unexpected end of JSON input");
  TestNetworkPassphrase := "Test SDF Network ; September 2015";
  FutureNetworkPassphrase := "Test SDF Future Network ; October 2022";
  PublicNetworkPassphrase := "Public Global Stellar Network ; September 2015";
  SafeUnmarshal_Envelope _ := Err (EText "unexpected EOF");
  SafeUnmarshal_Entry s := if String.eqb s "tree" then Ok ex_authorized else Err (EText "unexpected EOF");
  SplitHost s := if String.eqb s "127.0.0.1:8080" then Ok "127.0.0.1" else Err (EText "missing port in address");
  IsLoopbackIP s := String.eqb s "127.0.0.1";
  ParseDuration _ := Err (EText "time: invalid duration")
|}.

Definition ex_env (key : string) : string := if String.eqb key "MAX_CONCURRENT_REQUESTS" then "1" else "".
Definition ex_config : config :=
  match loadConfig ex_env with Ok c => c | Err _ => defaultConfig end.
Definition ex_post (b : string) : httpRequest := mkHttpRequest "POST" "/verify" "" (bytes_of_string b) None.

Example ex_listen_open : loadConfig (λ key, if String.eqb key "ADDR" then ":8080" else "") =
  Err (EText ("refusing to bind " +:+ quoted ":8080" +:+ " without AUTH_TOKEN: set a bearer token, or bind a " +:+
    "loopback address such as 127.0.0.1:8080")).
Proof. vm_compute. reflexivity. Qed.
Example ex_number : loadConfig (λ key, if String.eqb key "MAX_BODY_BYTES" then "99999999999999999999" else "") =
  Err (EWrap "MAX_BODY_BYTES" (EText ("strconv.ParseInt: parsing " +:+ quoted "99999999999999999999" +:+
    ": value out of range"))).
Proof. vm_compute. reflexivity. Qed.
Example ex_localhost : isLoopbackAddr ("LOCALHO" +:+ String "197" (String "191" "T")) = true.
Proof. vm_compute. reflexivity. Qed.

Definition ex_answer : list observation * response := answerVerify ex_config (ex_post "tree").
Example ex_answer_status : (length ex_answer.1, status ex_answer.2) = (6, 200%Z).
Proof. vm_compute. reflexivity. Qed.

(** Two requests: the first holds the slot and has counted its first verdict,
    the second was refused. *)
Definition ex_running : service :=
  mkService (observe (OVerdict CredentialTypeAddressWithDelegates "unsigned") newServiceMetrics) 1
    (<[0 := Counting (ex_post "tree") true (tail ex_answer.1) ex_answer.2]>
       (<[1 := Counting (ex_post "{}") false [OStatus 503]
                 (mkResponse 503 (BodyError "service is at its concurrent-request limit; retry shortly"))]>
          (<[0 := Counting (ex_post "tree") true ex_answer.1 ex_answer.2]>
             (<[0 := Reading (ex_post "tree")]> ∅)))).

Lemma ex_running_reached : rtc (service_step ex_config) newServer ex_running.
Proof.
  eapply rtc_l; [apply (step_admit _ _ 0 (ex_post "tree")); vm_compute; reflexivity|].
  eapply rtc_l; [eapply (step_answer _ _ 0 (ex_post "tree")); [vm_compute; reflexivity|apply surjective_pairing]|].
  eapply rtc_l; [apply (step_serve _ _ 1 (ex_post "{}")); vm_compute; reflexivity|].
  eapply rtc_l; [eapply (step_count _ _ 0 (ex_post "tree") true
    (OVerdict CredentialTypeAddressWithDelegates "unsigned") (tail ex_answer.1) ex_answer.2);
    vm_compute; reflexivity|].
  apply rtc_refl.
Qed.

Lemma service_bounded_witness :
  verdictCount (srv_metrics ex_running) VerdictUnsigned = 1 ∧
  refusalCount (srv_metrics ex_running) "unsigned" = 0 ∧
  sem ex_running = total holdsSlot (inflight ex_running) ∧
  (Z.of_nat (sem ex_running) <= MaxConcurrentRequests ex_config)%Z ∧
  (∀ id r, inflight ex_running !! id = Some (Reading r) →
     Request_Path r = "/verify" ∧ Request_Method r = "POST" ∧
     (Request_Authorization r = "Bearer " +:+ ex_env "AUTH_TOKEN" ∨
      ex_env "AUTH_TOKEN" = "" ∧ isLoopbackAddr (Addr ex_config) = true)) ∧
  (∀ v reason, refusalOf v = Some reason →
     refusalCount (srv_metrics ex_running) reason <= verdictCount (srv_metrics ex_running) v ∧
     (inflight ex_running = ∅ →
      refusalCount (srv_metrics ex_running) reason = verdictCount (srv_metrics ex_running) v)).
Proof.
  split; [vm_compute; reflexivity|]. split; [vm_compute; reflexivity|].
  apply (service_bounded ex_env ex_config ex_running); [vm_compute; reflexivity|].
  exact ex_running_reached.
Defined.

Lemma verifyHandler_answers_witness :
  (status ex_answer.2 = 200%Z ∧ ∃ req pass input items outs,
     (Z.of_nat (length (Request_Body (ex_post "tree"))) <= MaxBodyBytes ex_config)%Z ∧
     json_UnmarshalVerify (Request_Body (ex_post "tree")) = Ok req ∧
     resolveNetwork (Request_Network req) = Ok pass ∧
     decodeEntryOrEnvelope (Request_Entry req) = Ok input ∧ locatedEntries input = inl items ∧
     Forall2 (answers req pass) items outs ∧
     (∀ i item out, items !! i = Some item → outs !! i = Some out →
        out_Verified out = true → is_source (located_Entry item) = false →
        ∃ payload, own_payload (located_Entry item) pass = Ok payload ∧
          ∀ n, n ∈ flatNodes (located_Entry item) → node_verdict n payload = VerdictVerified) ∧
     body ex_answer.2 = match input, outs with InputEntry _, o :: _ => BodyEntry o | _, _ => BodyEntries outs end)
  ∨ (status ex_answer.2 = 400%Z ∨ status ex_answer.2 = 413%Z) ∧ (∃ msg, body ex_answer.2 = BodyError msg).
Proof.
  exact (verifyHandler_answers ex_config (ex_post "tree") ex_answer.1 ex_answer.2 (surjective_pairing _)).
Defined.
