(* ===== verification/Grpc.v ===== *)
(** * Grpc: signing and verification over gRPC (integrations/grpc/server.go)

    A server holds a set of signers and answers two calls.  [Sign_answers] says
    what a signed answer is and what each refusal's code means,
    [Sign_cancelled] that a call whose context is over asks no signer, and
    [Verify_agrees] that the verification call and the HTTP service of
    [VerifyService] give the same report, field by field, for a text the service
    takes for an entry.

    gRPC itself is left out: a call is a context and a request (absent when the
    pointer is nil), its answer a message or a status.  The decoder and the
    names of networks are those of [VerifyService.ServiceLib]. *)
From Stdlib Require Import ZArith Lia Strings.Byte String.
From stdpp Require Import base list strings gmap pretty.
From S2P Require Import Prelude Encoding Errors Xdr ModelSDK Runtime Examples Address Limits Arm Preimage Signers.
From S2P Require Import Nodes Inspect Delegates Authorize Verify Batch Envelope Remote.
From S2P Require VerifyService.

Open Scope string_scope. Open Scope nat_scope. Open Scope list_scope.

(** ** Messages (gen/soroauth.pb.go, after soroauth.proto) *)
Record SignRequest := mkSignRequest {
  Sign_Entry : string;
  Sign_ValidUntilLedger : Z;
  Sign_Network : string;
  Sign_Address : string
}.
Record SignResponse := mkSignResponse { SignedEntry : string }.
Record VerifyRequest := mkVerifyRequest {
  Verify_Entry : string;
  Verify_Network : string;
  Verify_ValidUntilLedger : Z
}.
Inductive ProtoVerdict := VERDICT_UNSPECIFIED | VERIFIED | UNSIGNED | INVALID | CANNOT_CHECK.
Record proto_NodeVerdict := mkNodeVerdict {
  Proto_Address : string;
  Proto_Verdict : ProtoVerdict;
  Proto_Reason : string
}.
Record VerifyResponse := mkVerifyResponse {
  Response_CredentialType : string;
  Response_AddressBound : bool;
  Response_Address : string;
  Response_ValidUntilLedger : Z;
  Response_Verified : bool;
  Response_Nodes : list proto_NodeVerdict;
  Response_Note : string
}.

(** The status codes the server uses. *)
Inductive Code := Canceled | InvalidArgument | FailedPrecondition | Internal.
Definition Status : Type := Code * string.

(** ** Calls: effects that end in a message or a status *)
Definition RPC (A : Type) : Type := World → (A + Status) * World.
#[export] Instance RPC_ret : MRet RPC := λ A a w, (inl a, w).
#[export] Instance RPC_bind : MBind RPC := λ A B f m w,
  match m w with (inl a, w) => f a w | (inr s, w) => (inr s, w) end.
Definition orStatus {A} (code : Code) (msg : error → string) (m : IO A) : RPC A := λ w,
  match m w with (Ok a, w) => (inl a, w) | (Err e, w) => (inr (code, msg e), w) end.
Definition refuseIf (b : bool) (s : Status) : RPC unit := λ w, (if b then inr s else inl tt, w).
Definition grpc_required {A} (o : option A) (s : Status) : RPC A := λ w,
  (match o with Some a => inl a | None => inr s end, w).

Section grpc.
Context `{SDK} `{EnvelopeSDK} `{VerifyService.ServiceLib}.

(** ** The server *)
Record grpc_Server := mkServer { signers : gmap string Signer }.

Definition addSigner (set : gmap string Signer) (signer : option Signer) : gmap string Signer :=
  match signer with None => set | Some s => <[signer_Address s := s]> set end.
Definition grpc_NewServer (signers : list (option Signer)) : grpc_Server := mkServer (foldl addSigner ∅ signers).

Definition grpc_decodeEntry : string → result SorobanAuthorizationEntry := VerifyService.SafeUnmarshal_Entry.

Definition grpc_resolveNetwork (value : string) : result string :=
  if String.eqb value "" then
    Err (EText "network is required (testnet, futurenet, public, or a literal passphrase)")
  else if String.eqb value "testnet" then Ok VerifyService.TestNetworkPassphrase
  else if String.eqb value "futurenet" then Ok VerifyService.FutureNetworkPassphrase
  else if String.eqb value "public" then Ok VerifyService.PublicNetworkPassphrase
  else Ok value.

Definition prefixed (p : string) (e : error) : string := p +:+ ": " +:+ Error e.

(** The address to sign for: the one asked for, or the only one. *)
Definition requestTarget (s : grpc_Server) (address : string) : RPC string :=
  if negb (String.eqb address "") then mret address
  else
    _ ← refuseIf (negb (Nat.eqb (size (signers s)) 1))
          (InvalidArgument, "address is required: the server holds more than one key");
    mret (foldl (λ _ p, p.1) address (map_to_list (signers s))).

Definition Sign (s : grpc_Server) (ctx : Ctx) (req : option SignRequest) : RPC SignResponse :=
  _ ← orStatus Canceled Error (e ← ctx_poll ctx; lift (match e with Some e => Err e | None => Ok tt end));
  req ← grpc_required req (InvalidArgument, "request is required");
  _ ← refuseIf (Nat.eqb (size (signers s)) 0) (FailedPrecondition, "server has no signer");
  passphrase ← orStatus InvalidArgument (prefixed "network") (lift (grpc_resolveNetwork (Sign_Network req)));
  entry ← orStatus InvalidArgument (prefixed "decoding entry") (lift (grpc_decodeEntry (Sign_Entry req)));
  target ← requestTarget s (Sign_Address req);
  signer ← grpc_required (signers s !! target) (InvalidArgument, "this server holds no key for " +:+ quoted target);
  signed ← orStatus InvalidArgument (prefixed "signing entry")
    (AuthorizeEntry ctx entry (Some signer) (Sign_ValidUntilLedger req) passphrase [ForAddress target]);
  encoded ← orStatus Internal (prefixed "encoding the signed entry") (lift (MarshalBase64 signed));
  mret (mkSignResponse encoded).

Definition verdictToProto (v : VerifyVerdict) : ProtoVerdict :=
  match v with
  | VerdictVerified => VERIFIED
  | VerdictUnsigned => UNSIGNED
  | VerdictInvalid => INVALID
  | VerdictCannotCheck => CANNOT_CHECK
  end.

Definition reportToProto (report : VerificationReport) : VerifyResponse :=
  mkVerifyResponse (Report_CredentialType report) (AddressBound report) (Report_Address report)
    (Report_ValidUntilLedger report) (Verified report)
    (map (λ node, mkNodeVerdict (Verdict_Address node) (verdictToProto (Verdict node)) (Reason node)) (Report_Nodes report))
    (Note report).

Definition Server_Verify (s : grpc_Server) (ctx : Ctx) (req : option VerifyRequest) : RPC VerifyResponse :=
  _ ← orStatus Canceled Error (e ← ctx_poll ctx; lift (match e with Some e => Err e | None => Ok tt end));
  req ← grpc_required req (InvalidArgument, "request is required");
  passphrase ← orStatus InvalidArgument (prefixed "network") (lift (grpc_resolveNetwork (Verify_Network req)));
  entry ← orStatus InvalidArgument (prefixed "decoding entry") (lift (grpc_decodeEntry (Verify_Entry req)));
  report ← orStatus InvalidArgument (prefixed "verification failed") (VerifyEntryContext ctx entry passphrase);
  _ ← refuseIf (negb (Verify_ValidUntilLedger req =? 0)%Z &&
                negb (Report_ValidUntilLedger report =? Verify_ValidUntilLedger req)%Z)
        (InvalidArgument, "entry carries expiration " +:+ FormatInt (Report_ValidUntilLedger report) +:+
                          ", but valid_until_ledger says " +:+ FormatInt (Verify_ValidUntilLedger req));
  mret (reportToProto report).
End grpc.

(** ** What the calls answer *)
Section grpc_theorems.
Context `{SDK} `{EnvelopeSDK} `{VerifyService.ServiceLib}.

Lemma rpc_bind_inl {A B} (m : RPC A) (f : A → RPC B) w b w' :
  mbind f m w = (inl b, w') → ∃ a w1, m w = (inl a, w1) ∧ f a w1 = (inl b, w').
Proof. unfold mbind, RPC_bind. destruct (m w) as [[a|s] w1]; [eauto|done]. Qed.

Lemma orStatus_inl {A} code msg (m : IO A) w a w' : orStatus code msg m w = (inl a, w') → m w = (Ok a, w').
Proof. unfold orStatus. destruct (m w) as [[x|e] w1]; by intros [= <- <-]. Qed.

Lemma refuseIf_inl b s w u w' : refuseIf b s w = (inl u, w') → b = false ∧ w' = w.
Proof. unfold refuseIf. destruct b; by intros [= <- <-]. Qed.

Lemma required_inl {A} (o : option A) s w a w' : grpc_required o s w = (inl a, w') → o = Some a ∧ w' = w.
Proof. unfold grpc_required. destruct o; by intros [= <- <-]. Qed.

(** Invert a call that ended in a message. *)
Ltac inv_rpc := repeat match goal with
  | E : mbind _ _ _ = (inl _, _) |- _ =>
      let x := fresh "x" in let w := fresh "w" in let Hx := fresh "Hx" in apply rpc_bind_inl in E as (x & w & Hx & E)
  | E : orStatus _ _ _ _ = (inl _, _) |- _ => apply orStatus_inl in E
  | E : refuseIf _ _ _ = (inl _, _) |- _ => let Hb := fresh "Hb" in apply refuseIf_inl in E as [Hb ->]
  | E : grpc_required _ _ _ = (inl _, _) |- _ => let Ho := fresh "Ho" in apply required_inl in E as [Ho ->]
  | E : mret _ _ = (inl _, _) |- _ => injection E as E; subst
  end.

(** The server's set: under an address, the last signer given that has it. *)
Theorem NewServer_lookup l a :
  signers (grpc_NewServer l) !! a = last (filter (λ s, signer_Address s = a) (omap id l)).
Proof.
  unfold grpc_NewServer. cbn [signers]. induction l as [|o l IH] using rev_ind; [done|].
  rewrite foldl_app, omap_app, filter_app. cbn [foldl omap list_omap id]. destruct o as [s|]; cbn [addSigner id].
  - rewrite filter_cons, filter_nil. case_decide as Hs.
    + subst a. by rewrite lookup_insert_eq, last_snoc.
    + by rewrite lookup_insert_ne, app_nil_r by done.
  - by rewrite filter_nil, app_nil_r.
Qed.

Lemma size_one (m : gmap string Signer) : size m = 1 → ∃ k s, m = {[k := s]}.
Proof.
  intros Hm. destruct (map_to_list m) as [|[k s] [|? ?]] eqn:Hl.
  - by apply map_to_list_empty_iff in Hl as ->.
  - exists k, s. by rewrite <-(list_to_map_to_list m), Hl.
  - rewrite <-length_map_to_list, Hl in Hm. done.
Qed.

Lemma requestTarget_inl s address w target w' :
  requestTarget s address w = (inl target, w') →
  (address = target ∧ address ≠ "" ∨ address = "" ∧ ∃ signer, signers s = {[target := signer]}) ∧ w' = w.
Proof.
  unfold requestTarget. destruct (String.eqb_spec address "") as [->|Ha]; cbn [negb]; intros Ht; inv_rpc.
  - split; [|done]. right. split; [done|]. apply negb_false_iff, Nat.eqb_eq, size_one in Hb as (k & sg & ->).
    exists sg. by rewrite map_to_list_singleton.
  - split; [|done]. by left.
Qed.

(** A signed answer is the text of what [AuthorizeEntry] made of the entry of
    the request, under its network and expiration, for the address it names (or
    the server's only one) and with the signer the server holds for it. *)
Theorem Sign_answers s ctx req w resp w' :
  Sign s ctx (Some req) w = (inl resp, w') →
  ∃ passphrase entry target signer signed w1,
    ctx_Err ctx (now w) = None ∧
    grpc_resolveNetwork (Sign_Network req) = Ok passphrase ∧ grpc_decodeEntry (Sign_Entry req) = Ok entry ∧
    (Sign_Address req = target ∧ target ≠ "" ∨ Sign_Address req = "" ∧ signers s = {[target := signer]}) ∧
    signers s !! target = Some signer ∧
    AuthorizeEntry ctx entry (Some signer) (Sign_ValidUntilLedger req) passphrase [ForAddress target] w1 = (Ok signed, w') ∧
    MarshalBase64 signed = Ok (SignedEntry resp).
Proof.
  unfold Sign. intros Hr. inv_rpc. inv_io.
  match goal with E : ctx_poll _ _ = _ |- _ => unfold ctx_poll in E; injection E as <- <- end.
  match goal with E : match ctx_Err _ _ with _ => _ end = _ |- _ => rename E into Hctx end.
  match goal with E : requestTarget _ _ _ = _ |- _ => apply requestTarget_inl in E as [Htarget ->] end.
  match goal with E : Some req = Some _ |- _ => injection E as <- end.
  do 5 eexists. eexists. split; [by destruct (ctx_Err ctx (now w))|]. split; [eassumption|]. split; [eassumption|].
  split; [|split; [eassumption|split; [eassumption|]]]; [|cbn [SignedEntry]; eassumption].
  destruct Htarget as [[-> Hn]|(-> & sg & Hsg)]; [by left|right]. split; [done|].
  match goal with E : signers s !! _ = Some _ |- _ => rewrite Hsg, lookup_singleton_eq in E; injection E as -> end.
  exact Hsg.
Qed.

(** A call whose context is over when it arrives is refused before anything
    else, with one code whatever ended the context. *)
Theorem Sign_cancelled s ctx req w e :
  ctx_Err ctx (now w) = Some e → Sign s ctx req w = (inr (Canceled, Error e), tick w).
Proof.
  intros He. unfold Sign. unfold mbind at 1, RPC_bind at 1, orStatus at 1.
  unfold mbind at 1, IO_bind at 1, ctx_poll, lift. by rewrite He.
Qed.

(** ** The two services *)
Definition proto_string (v : ProtoVerdict) : string :=
  match v with
  | VERIFIED => verdict_string VerdictVerified
  | UNSIGNED => verdict_string VerdictUnsigned
  | INVALID => verdict_string VerdictInvalid
  | CANNOT_CHECK => verdict_string VerdictCannotCheck
  | VERDICT_UNSPECIFIED => ""
  end.

(** A message and a response's body that say the same. *)
Record same_report (resp : VerifyResponse) (o : VerifyService.entryOutput) : Prop := {
  same_type : Response_CredentialType resp = VerifyService.out_CredentialType o;
  same_bound : Response_AddressBound resp = VerifyService.out_AddressBound o;
  same_address : Response_Address resp = VerifyService.out_Address o;
  same_ledger : Response_ValidUntilLedger resp = VerifyService.out_ValidUntilLedger o;
  same_verified : Response_Verified resp = VerifyService.out_Verified o;
  same_note : Response_Note resp = VerifyService.out_Note o;
  same_nodes : map (λ n, (Proto_Address n, proto_string (Proto_Verdict n), Proto_Reason n)) (Response_Nodes resp) =
    map (λ n, (VerifyService.nodeOutput_Address n, VerifyService.nodeOutput_Verdict n, VerifyService.nodeOutput_Reason n))
      (VerifyService.out_Nodes o)
}.

Lemma reportToProto_same report : same_report (reportToProto report) (VerifyService.newEntryOutput report).
Proof.
  split; try done. cbn [Response_Nodes reportToProto VerifyService.out_Nodes VerifyService.newEntryOutput].
  rewrite !map_map. apply map_ext. intros n. cbn. by destruct (Verdict n).
Qed.

(** An unsigned or unreadable node is never the enumeration's zero. *)
Lemma verdictToProto_specified v : verdictToProto v ≠ VERDICT_UNSPECIFIED.
Proof. by destruct v. Qed.

Lemma decodeEntryOrEnvelope_entry text entry :
  VerifyService.decodeEntryOrEnvelope text = Ok (VerifyService.InputEntry entry) → grpc_decodeEntry text = Ok entry.
Proof.
  unfold VerifyService.decodeEntryOrEnvelope, grpc_decodeEntry.
  destruct (VerifyService.SafeUnmarshal_Envelope text) as [env|];
    [destruct (EnvelopeEntries env) as [[|? ?]|]|]; destruct (VerifyService.SafeUnmarshal_Entry text); cbn;
    by intros [= ->].
Qed.

Lemma parseRequest_entry cfg r hreq pass entry items :
  VerifyService.parseRequest cfg r = inl (hreq, pass, VerifyService.InputEntry entry, items) →
  grpc_resolveNetwork (VerifyService.Request_Network hreq) = Ok pass ∧
  grpc_decodeEntry (VerifyService.Request_Entry hreq) = Ok entry ∧ items = [mkEnvelopeEntry 0 0 entry].
Proof.
  unfold VerifyService.parseRequest, VerifyService.bind_sum, VerifyService.orBadRequest. intros Hp.
  destruct (VerifyService.readBody cfg r) as [b|]; [|done].
  destruct (VerifyService.json_UnmarshalVerify b) as [q|]; [|done].
  destruct (String.eqb (VerifyService.Request_Entry q) ""); [done|].
  destruct (VerifyService.resolveNetwork (VerifyService.Request_Network q)) as [p|] eqn:Hn; [|done].
  destruct (VerifyService.decodeEntryOrEnvelope (VerifyService.Request_Entry q)) as [d|] eqn:Hd; [|done].
  destruct (VerifyService.locatedEntries d) as [l|] eqn:Hl; [|done]. injection Hp as <- <- -> <-.
  split; [exact Hn|]. split; [by apply decodeEntryOrEnvelope_entry|]. by injection Hl as <-.
Qed.

(** C37. The gRPC call and the HTTP service answer alike: a request whose text the
    service reads as an entry gets from both the same report, node by node, or a
    refusal from both. *)
Theorem Verify_agrees cfg r s ctx hreq pass entry items w :
  VerifyService.parseRequest cfg r = inl (hreq, pass, VerifyService.InputEntry entry, items) →
  (∀ t, ctx_Err ctx t = None) →
  let req := mkVerifyRequest (VerifyService.Request_Entry hreq) (VerifyService.Request_Network hreq)
               (VerifyService.Request_ValidUntilLedger hreq) in
  let answer := (VerifyService.answerVerify cfg r).2 in
  (∃ resp w' o, Server_Verify s ctx (Some req) w = (inl resp, w') ∧
     answer = VerifyService.mkResponse 200 (VerifyService.BodyEntry o) ∧ same_report resp o) ∨
  (∃ msg w' msg', Server_Verify s ctx (Some req) w = (inr (InvalidArgument, msg), w') ∧
     answer = VerifyService.mkResponse 400 (VerifyService.BodyError msg')).
Proof.
  intros Hp Hctx req answer. unfold answer, VerifyService.answerVerify. rewrite Hp.
  apply parseRequest_entry in Hp as (Hn & Hd & ->). cbn [VerifyService.verifyItems located_Entry].
  assert (Hv : (VerifyEntry entry pass initial_world).1 = verifyEntry entry pass) by reflexivity. rewrite Hv.
  unfold Server_Verify. unfold mbind, RPC_bind, orStatus, grpc_required, refuseIf.
  unfold VerifyEntryContext, ctx_check. unfold mbind, IO_bind, ctx_poll, lift. rewrite Hctx.
  unfold req. cbn [Verify_Network Verify_Entry Verify_ValidUntilLedger]. rewrite Hn, Hd, Hctx.
  destruct (verifyEntry entry pass) as [report|e]; [|right; by do 3 eexists].
  destruct (_ && _); [right; by do 3 eexists|]. left. do 3 eexists. split; [reflexivity|]. split; [reflexivity|].
  apply reportToProto_same.
Qed.
End grpc_theorems.

(** ** The server at work *)
#[local] Instance ExGrpcLib : VerifyService.ServiceLib := {|
  VerifyService.json_UnmarshalVerify b := Ok (VerifyService.mkVerifyRequest (string_of_bytes b) "testnet" 0);
  VerifyService.TestNetworkPassphrase := ex_network;
  VerifyService.FutureNetworkPassphrase := "Test SDF Future Network ; October 2022";
  VerifyService.PublicNetworkPassphrase := "Public Global Stellar Network ; September 2015";
  VerifyService.SafeUnmarshal_Envelope s := raw ← decodeBase64 s; UnmarshalBinary raw;
  VerifyService.SafeUnmarshal_Entry s :=
    raw ← decodeBase64 s; e ← UnmarshalBinary raw; again ← MarshalBinary (e : SorobanAuthorizationEntry);
    _ ← refuse (negb (bytes_Equal again raw)) (EText "xdr: trailing data"); Ok e;
  VerifyService.SplitHost := Ok;
  VerifyService.IsLoopbackIP _ := true;
  VerifyService.ParseDuration _ := Err (EText "time: invalid duration")
|}.

Definition ex_b64 {T} `{XdrCodec T} (v : T) : string := match MarshalBase64 v with Ok s => s | Err _ => "" end.
Definition ex_grpc : grpc_Server := grpc_NewServer [Some (NewEd25519Signer (Some (ex_keypair "a"))); None].
Definition ex_sign_request (entry : SorobanAuthorizationEntry) (address : string) : SignRequest :=
  mkSignRequest (ex_b64 entry) 1000 "testnet" address.
Definition ex_signed_answer : SignResponse :=
  match (Sign ex_grpc Background (Some (ex_sign_request (ex_v2 "a" 0 ScvVoid) "")) initial_world).1 with
  | inl resp => resp
  | inr _ => mkSignResponse ""
  end.
Definition ex_http (text : string) : VerifyService.httpRequest :=
  VerifyService.mkHttpRequest "POST" "/verify" "" (bytes_of_string text) None.
Definition ex_grpc_verify (text : string) : VerifyResponse + Status :=
  (Server_Verify ex_grpc Background (Some (mkVerifyRequest text "testnet" 0)) initial_world).1.

Lemma Sign_answers_witness : ∃ passphrase entry target signer signed w1 w',
  ctx_Err Background (now initial_world) = None ∧
  grpc_resolveNetwork "testnet" = Ok passphrase ∧ grpc_decodeEntry (ex_b64 (ex_v2 "a" 0 ScvVoid)) = Ok entry ∧
  ("" = target ∧ target ≠ "" ∨ "" = "" ∧ signers ex_grpc = {[target := signer]}) ∧
  signers ex_grpc !! target = Some signer ∧
  AuthorizeEntry Background entry (Some signer) 1000 passphrase [ForAddress target] w1 = (Ok signed, w') ∧
  MarshalBase64 signed = Ok (SignedEntry ex_signed_answer).
Proof.
  assert (Hr : ∃ w', Sign ex_grpc Background (Some (ex_sign_request (ex_v2 "a" 0 ScvVoid) "")) initial_world =
    (inl ex_signed_answer, w')) by (eexists; vm_compute; reflexivity).
  destruct Hr as [w' Hr]. destruct (Sign_answers _ _ _ _ _ _ Hr) as (p & e & t & sg & x & w1 & Hs).
  exists p, e, t, sg, x, w1, w'. exact Hs.
Defined.

Lemma Sign_cancelled_witness :
  Sign ex_grpc (mkCtx (λ _, Some (ESentinel ContextDeadlineExceeded))) None initial_world =
    (inr (Canceled, Error (ESentinel ContextDeadlineExceeded)), tick initial_world).
Proof. apply (Sign_cancelled ex_grpc). reflexivity. Defined.

Definition ex_http_parsed : VerifyService.verifyRequest * string * VerifyService.decodedInput * list EnvelopeEntry :=
  match VerifyService.parseRequest VerifyService.defaultConfig (ex_http (SignedEntry ex_signed_answer)) with
  | inl x => x
  | inr _ => (VerifyService.mkVerifyRequest "" "" 0, "", VerifyService.InputEntry ex_source, [])
  end.
Definition ex_signed_entry : SorobanAuthorizationEntry :=
  match grpc_decodeEntry (SignedEntry ex_signed_answer) with Ok e => e | Err _ => ex_source end.

Lemma Verify_agrees_witness :
  let answer := (VerifyService.answerVerify VerifyService.defaultConfig (ex_http (SignedEntry ex_signed_answer))).2 in
  let req := mkVerifyRequest (SignedEntry ex_signed_answer) "testnet" 0 in
  (∃ resp w' o, Server_Verify ex_grpc Background (Some req) initial_world = (inl resp, w') ∧
     answer = VerifyService.mkResponse 200 (VerifyService.BodyEntry o) ∧ same_report resp o) ∨
  (∃ msg w' msg', Server_Verify ex_grpc Background (Some req) initial_world = (inr (InvalidArgument, msg), w') ∧
     answer = VerifyService.mkResponse 400 (VerifyService.BodyError msg')).
Proof.
  apply (Verify_agrees VerifyService.defaultConfig (ex_http (SignedEntry ex_signed_answer)) ex_grpc Background
    (VerifyService.mkVerifyRequest (SignedEntry ex_signed_answer) "testnet" 0) ex_network ex_signed_entry
    [mkEnvelopeEntry 0 0 ex_signed_entry]); [vm_compute; reflexivity|done].
Defined.

Example ex_grpc_calls :
  (match ex_grpc_verify (SignedEntry ex_signed_answer) with
   | inl resp => (Response_Verified resp, map Proto_Verdict (Response_Nodes resp))
   | inr _ => (false, [])
   end) = (true, [VERIFIED]) ∧
  (Sign ex_grpc Background (Some (ex_sign_request (ex_v2 "a" 0 ScvVoid) (ex_text "b"))) initial_world).1 =
    inr (InvalidArgument, "this server holds no key for " +:+ quoted (ex_text "b")) ∧
  (Sign (grpc_NewServer [None]) Background (Some (ex_sign_request ex_source "")) initial_world).1 =
    inr (FailedPrecondition, "server has no signer").
Proof. vm_compute. by split_and!. Qed.

(** The two services differ on the text of an envelope: HTTP verifies its
    entries, gRPC refuses it. *)
Example ex_grpc_envelope :
  let text := ex_b64 ex_envelope in
  (match ex_grpc_verify text with inl _ => None | inr s => Some s.1 end) = Some InvalidArgument ∧
  VerifyService.status (VerifyService.answerVerify VerifyService.defaultConfig (ex_http text)).2 = 200%Z.
Proof. vm_compute. by split. Qed.
